(* ===== verification/_CoqProject ===== *)
-Q . S2P
Prelude.v
CString.v
HistoryList.v
HistoryThreads.v
LibIpq.v
IpqServer.v
IpqProcess.v
Ifconfig.v
IwStatus.v
Edify.v
EdifyInstall.v
EdifySafety.v
EdifyConfig.v
BasicOps.v
Oper32.v
SqliteEncode.v
BitStream.v
SpeexBits.v
EdifyParser.v
EdifyLexer.v
EdifyRules.v
EdifyScan.v
EdifyGrammar.v
EdifyTokens.v
EdifyRanges.v
EdifyScript.v
EdifyPrecedence.v
SilkRange.v
SilkMath.v
SilkGains.v
SilkSort.v
SilkTables.v
SilkNlsfTables.v
SilkNlsf.v
SilkLpc.v
SilkPulses.v
SilkFrame.v
SilkPacket.v
SilkDecApi.v
SilkDecoder.v
