(* ===== verification/Prelude.v ===== *)
(** * CrowdShare, native code: a verification library

    CrowdShare shares the mobile Internet access of Android phones over an ad-hoc
    Wi-Fi mesh.  The Java application is helped by native programs and libraries
    under [src/jni/]; this library models those that hold decisions, protocols,
    parsers and encodings, and proves what they do, errors included.

    ** The parts and how they interact

    - The packet queue server ([jni/ipqserver/server.c]) is a process that takes the
      packets of the kernel's queue over netlink ([jni/libipq/libipq.c]), asks the Java
      side over a socket who may forward to where, keeps the answers for ten minutes in
      a linked list, and gives each packet its verdict.  [LibIpq] is the netlink
      library over an abstract kernel.  [HistoryList] is the list of authorisations
      over an explicit heap; [HistoryThreads] interleaves its three threads as a step
      relation, one access to a shared variable at a time, under a clock that may be set.
      [IpqServer] is what one iteration of the reader ([read_java]) and of
      the sender ([send_ipq]) does, [IpqProcess] the life of the threads and of the
      connection ([connection_handler], [server_main]), with the calls that block.
    - The configuration language ([jni/adhoc-edify/]) controls the Wi-Fi hardware.
      [EdifyLexer] is the compiled scanner ([edify/lex.yy.c]), [EdifyParser] the compiled
      parser ([edify/y.tab.c]), [Edify] the expressions and built-in functions
      ([edify/expr.c]), [EdifyInstall] the functions that touch the device
      ([install.c]), [EdifyScript] the two programs that put them together ([adhoc.c],
      [edify/main.c]).  [Functions] (in [Edify]) is the interface between an expression
      and the code of its functions; [ScriptOs] and [InstallOs] are the system.
      Specifications and proofs: [EdifyRules] (patterns as regular expressions, those of
      [lexer.l] and those of [lex.yy.c], which lack one) and [EdifyScan], [EdifyTokens],
      [EdifyRanges] for the scanner; [EdifyGrammar] (the grammar
      as derivations) and [EdifyPrecedence] for the parser; [EdifySafety] and
      [EdifyConfig] for the evaluation and the functions that work in place.
    - The interface tool ([jni/ifconfig/ifconfig.c]) is [Ifconfig].  [IwStatus] is the
      part of [jni/iwstatus.c] that does the same for the Java application: its message
      buffer, its arguments and [ifstatus].
    - The voice codecs.  [BasicOps] ([bx16_fixedp/itug191lib/basop32.c]) and [Oper32]
      ([itug729ilib/oper_32b.c], [bvcommon/mathutil.c], [bvcommon/mathtables.c]) are the
      fixed-point arithmetic of the BV16 codec, [BitStream] ([bv16/bitpack.c],
      [bv16/g192.c]) its frames; [SpeexBits] ([speex-1.2rc1/libspeex/bits.c]) the bit
      streams of Speex.  [SilkRange] ([silk/src/SKP_Silk_range_coder.c]) is the range
      coder of SILK, [SilkTables] its distributions ([SKP_Silk_tables_*.c]), [SilkPulses]
      ([SKP_Silk_shell_coder.c], [SKP_Silk_code_signs.c], [SKP_Silk_encode_pulses.c],
      [SKP_Silk_decode_pulses.c]) the excitation it carries.  [SilkMath] has the
      arithmetic of its parameters, [SilkGains] the gains ([SKP_Silk_gain_quant.c]),
      [SilkSort] the sorts ([SKP_Silk_sort.c]), [SilkNlsfTables] and [SilkNlsf] the
      codebooks of line spectral frequencies, their decoding and stabiliser
      ([SKP_Silk_NLSF_MSVQ_decode.c], [SKP_Silk_NLSF_stabilize.c]), [SilkLpc] the filters
      they stand for ([SKP_Silk_NLSF2A*.c], [SKP_Silk_LPC_inv_pred_gain.c]).
      [SilkFrame] is a frame of parameters and excitation in both directions
      ([SKP_Silk_encode_parameters.c], [SKP_Silk_decode_parameters.c],
      [SKP_Silk_decoder_set_fs.c]); [SilkPacket] puts frames and the redundancy for
      earlier packets into packets ([SKP_Silk_encode_frame_FIX.c], from its flags on);
      [SilkDecApi] looks into packets, and [SilkDecoder] goes through them
      ([SKP_Silk_dec_API.c], [SKP_Silk_decode_frame.c]).  What the range coder
      promises its clients is [carries]: a payload from which a list of symbols is read;
      [writes] and [reads] say that a routine codes such a list, and compose.
    - [SqliteEncode] ([jni/sqlite3/encode.c]) stores binary data in SQL strings.
    - [Prelude] and [CString] are shared: the result monad [res] with the kinds of
      undefined behaviour, machine integers, lemmas on lists; the functions of the C
      library that the sources use.

    ** How the code is modelled

    Every definition has the name of the function it translates, and is executable.  A
    computation returns [Ok], an [Err] with the rule of C it broke, or [Diverges]; no
    theorem takes the last two for results.  State is passed explicitly, or is in a small
    monad where a file threads it through many calls ([op] in [BasicOps], [prog] in
    [Ifconfig], the monads of [Edify] and [EdifyInstall]).  Integers are [Z] with the
    wrap-around of their type written where the code can reach it; memory that can be
    reached twice, freed or overrun is a heap or a list of cells ([HistoryList],
    [SqliteEncode], [SpeexBits], the buffers of the scanner), and is a value elsewhere.
    Whatever is not under [src/] (the kernel, netlink and ioctl layouts, property
    service, name resolution) is a class whose laws, where needed, are documented
    behaviour ([NetlinkAbi], [Kernel], [Connection], [InstallOs], [IfSystem] with
    [IfLaws]); witnesses instantiate them.

    ** What the theorems show

    - Packet queue: the list implements a sequence of entries and leaks nothing; a search
      finds exactly the fresh authorisations; the sender accepts exactly what the history
      authorises; answers last 600 s; what undefined behaviour the threads can reach, under
      any interleaving and any setting of the clock, and that they reach it; the process
      takes a bounded number of steps once [running] is cleared, and then has ended or
      waits for ever for a thread in a blocking call; the netlink calls report every
      failure and frame every verdict.
    - Script language: the scanner cuts every script into the longest matches of its
      rules, first rule on a tie, which give the tokens of [lexer.l] but for the counts of
      lines and columns; its tokens are those the parser expects; the parser
      terminates on every sequence of tokens without undefined behaviour, what it accepts
      is derived by the grammar, and everything the grammar with its precedences derives
      is accepted; evaluation terminates and reports its failures; a script of at most
      1025 characters runs from text to result without undefined behaviour; the
      program's exit status is what it should be for a script of any length, unless a
      string overflows the scanner's buffer or a function is undefined.
    - [Ifconfig]: the tool performs the commands its words stand for.
    - [IwStatus]: whatever Java passes, [ifstatus] only shows, and cuts its message.
    - Codecs: the operators are exact arithmetic, clipped, with the flag raised exactly
      on clipping, but for the few that clip silently or in two steps; table functions stay in their tables; frames and bit streams
      round-trip.
    - SILK, from the bytes up: the range coder is lossless, its decoder safe on any
      payload of at most 1020 bytes, and every frame of excitation survives the payload;
      encoder and decoder keep the same gains; decoded frequencies keep their distances
      whatever a packet says; the frames of a packet are recovered by its decoder, with
      the redundancy that was appended, in any memory; a call of the decoder keeps its
      state consistent, unless it reports an error, after which codebooks and rate may
      disagree until a packet of another rate comes, and all of the decoder's own rate
      are read out of bounds.
    - [SqliteEncode]: decoding restores what was encoded, in place or not.

    Several theorems state what the code does where this is not what it promises: those
    behind the findings of the manifest.

    ** Fuel and bounds

    Loops whose end does not follow from the structure of their data run on fuel, and a
    theorem shows that the fuel given is enough: the parser 6 steps for each token and 4
    more, a scan of a token 2 steps more than the buffer has characters, the walk through
    the tables of the scanner 58 ([EdifyLexer.yy_next]), the closure of its states 1000
    ([EdifyScan]), the walks of the list one step for each node, the terminator of
    [SpeexBits] 8 rounds, the scaling of a block of excitation 33 and the indication of
    its least significant bits 17 on what the encoder wrote; the latter is not bounded
    on other payloads ([hostile_payload_overflows]).  Looking for redundancy takes one round
    for each frame of the packet, a table of contents at most 6, the last of which is out of
    bounds.  [insert_terminator_hangs] and [read_java_end_of_file] are the
    loops that do not end.

    ** What is not modelled, and why

    The rest of the codecs (signal processing of BV16, Speex, SILK, GSM and G.722, the
    echo canceller), whose correctness is numerical quality: of SILK the analysis before
    the bit stream, the making of samples behind it, the resampling, and the quantisation
    for the redundancy ([SKP_Silk_LBRR_encode_FIX]), whose bytes [SilkPacket] takes as they
    are; version 4 of its bit stream, which no decoder or encoder is set to.  That the
    filters of a frame are computed without overflow is not shown: what is recovered from
    a packet is so where they are not made ([fullDecoding] 0), and [SilkFrame.decoded]
    says what is decoded where they are.  The JNI wrappers, which copy
    arrays between Java and these libraries; [OSNetworkSystem.cpp], a copy of Android's
    socket layer, all of it calls of the system; the wireless tools and the rest of
    [iwstatus.c], clients of the wireless extensions of the kernel; the Java application; headers of
    SQLite, netfilter and the kernel; [native/], a second copy of [jni/adhoc-edify].  In
    modelled files: allocation succeeds in the parser and the scanner; scanning from
    files and buffer stacks, which no program calls; code under [YYDEBUG] and other
    switches that the build does not set; line and bit counters are assumed not to
    overflow [int].  The tokens of a script are scanned before the parser takes them. *)
From stdpp Require Import base list gmap.
From Stdlib Require Import ZArith Lia Sorted.

Open Scope Z_scope.

(** * Undefined behaviour and the result monad

    A C computation either produces a value, or does something the language
    gives no meaning to.  Loops carry fuel; a loop that exhausts it is
    [Diverges], which no theorem accepts as a result. *)

Inductive ub : Set :=
  | NullDeref         (** a null pointer is dereferenced *)
  | InvalidPointer    (** a pointer to memory that is not (any more) allocated *)
  | OutOfBounds       (** an access outside an object *)
  | UninitRead        (** an indeterminate value is used *)
  | SignedOverflow    (** a signed operation whose result is not representable *)
  | BadShift          (** a shift by a negative amount or by at least the width *)
  | AssertFailed      (** an [assert] of the program does not hold *)
  | DivisionByZero.   (** a division by zero *)

#[export] Instance ub_eq_dec : EqDecision ub.
Proof. solve_decision. Defined.

Inductive res (A : Type) : Type :=
  | Ok (a : A)
  | Err (e : ub)
  | Diverges.
Arguments Ok {A} a.
Arguments Err {A} e.
Arguments Diverges {A}.

#[export] Instance res_ret : MRet res := fun A a => Ok a.
#[export] Instance res_bind : MBind res := fun A B f m =>
  match m with
  | Ok a => f a
  | Err e => Err e
  | Diverges => Diverges
  end.
#[export] Instance res_fmap : FMap res := fun A B f m =>
  match m with
  | Ok a => Ok (f a)
  | Err e => Err e
  | Diverges => Diverges
  end.

Lemma res_bind_ok {A B} (m : res A) (f : A -> res B) (b : B) :
  m ≫= f = Ok b <-> exists a, m = Ok a /\ f a = Ok b.
Proof.
  split.
  - destruct m as [a| |]; simpl; intros Hb; [by exists a|done|done].
  - by intros (a & -> & Ha).
Qed.

Lemma bind_Ok {A B} (a : A) (f : A -> res B) : Ok a ≫= f = f a.
Proof. done. Qed.

Lemma res_bind_assoc {A B C} (m : res A) (f : A -> res B) (g : B -> res C) :
  (m ≫= f) ≫= g = m ≫= (fun a => f a ≫= g).
Proof. by destruct m. Qed.

Definition is_ok {A} (m : res A) : bool :=
  match m with Ok _ => true | _ => false end.

(** [bind_inv H] splits a successful sequence [H : x ← m; k = Ok r] into the
    successful run of [m] and that of its continuation, repeatedly. *)
Ltac bind_inv H :=
  repeat match type of H with
  | (_ ≫= _) = Ok _ =>
      let a := fresh "a" in let Ha := fresh "Hok" in
      apply res_bind_ok in H as (a & Ha & H)
  end.

(** * Machine integers

    A [w]-bit integer is a [Z] in its range.  Conversions to an unsigned type
    reduce modulo [2^w]; conversions to a signed type pick the representative
    in two's complement, as the compilers for this target do. *)

Definition wrap_u (w z : Z) : Z := z mod 2 ^ w.
Definition wrap_s (w z : Z) : Z := (z + 2 ^ (w - 1)) mod 2 ^ w - 2 ^ (w - 1).

Abbreviation u8 := (wrap_u 8).
Abbreviation u16 := (wrap_u 16).
Abbreviation u32 := (wrap_u 32).
Abbreviation s16 := (wrap_s 16).
Abbreviation s32 := (wrap_s 32).

Definition INT32_MAX : Z := 2147483647.
Definition INT32_MIN : Z := -2147483648.

Definition in_s32 (z : Z) : bool := (INT32_MIN <=? z) && (z <=? INT32_MAX).

(** Signed 32-bit addition: undefined when the sum does not fit. *)
Definition add_s32 (a b : Z) : res Z :=
  if in_s32 (a + b) then Ok (a + b) else Err SignedOverflow.

(** An exact result that must fit. *)
Definition int32 (z : Z) : res Z := if in_s32 z then Ok z else Err SignedOverflow.

(** [a << n]: of a negative number, the product with a power of two. *)
Definition shl_s32 (a n : Z) : res Z :=
  if (0 <=? n) && (n <? 32) then int32 (a * 2 ^ n) else Err BadShift.

(** [a / b], truncated. *)
Definition div_s32 (a b : Z) : res Z :=
  if b =? 0 then Err DivisionByZero else int32 (Z.quot a b).

Lemma wrap_u_range w z : 0 <= w -> 0 <= wrap_u w z < 2 ^ w.
Proof. intros Hw. apply Z.mod_pos_bound. lia. Qed.

Lemma wrap_u_id w z : 0 <= z < 2 ^ w -> wrap_u w z = z.
Proof. apply Z.mod_small. Qed.

Lemma wrap_s_range w z : 0 < w -> - 2 ^ (w - 1) <= wrap_s w z < 2 ^ (w - 1).
Proof.
  intros Hw. unfold wrap_s.
  pose proof (Z.mod_pos_bound (z + 2 ^ (w - 1)) (2 ^ w) ltac:(lia)).
  replace (2 ^ w) with (2 * 2 ^ (w - 1)) in *; [lia|].
  rewrite <- Z.pow_succ_r by lia. f_equal. lia.
Qed.

Lemma wrap_s_id w z : 0 < w -> - 2 ^ (w - 1) <= z < 2 ^ (w - 1) -> wrap_s w z = z.
Proof.
  intros Hw Hz. unfold wrap_s. rewrite Z.mod_small; [lia|].
  replace (2 ^ w) with (2 * 2 ^ (w - 1)); [lia|].
  rewrite <- Z.pow_succ_r by lia. f_equal. lia.
Qed.

Lemma wrap_u_wrap_s w z : 0 < w -> wrap_u w (wrap_s w z) = wrap_u w z.
Proof.
  intros Hw. unfold wrap_u, wrap_s.
  rewrite Zminus_mod_idemp_l. f_equal. lia.
Qed.

Lemma in_s32_spec z : in_s32 z = true <-> INT32_MIN <= z <= INT32_MAX.
Proof. unfold in_s32. rewrite andb_true_iff, !Z.leb_le. done. Qed.

Lemma int32_ok z : INT32_MIN <= z <= INT32_MAX -> int32 z = Ok z.
Proof. intros H. unfold int32. by rewrite (proj2 (in_s32_spec _) H). Qed.

Lemma int32_inv z x : int32 z = Ok x -> x = z /\ INT32_MIN <= z <= INT32_MAX.
Proof. unfold int32. destruct (in_s32 z) eqn:E; [|done]. intros [= <-]. by apply in_s32_spec in E. Qed.

Lemma shl_s32_ok a n :
  0 <= n < 32 -> INT32_MIN <= a * 2 ^ n <= INT32_MAX -> shl_s32 a n = Ok (a * 2 ^ n).
Proof.
  intros Hn Ha. unfold shl_s32. rewrite (proj2 (Z.leb_le 0 n)), (proj2 (Z.ltb_lt n 32)) by lia.
  by apply int32_ok.
Qed.

Lemma add_s32_ok a b :
  INT32_MIN <= a + b <= INT32_MAX -> add_s32 a b = Ok (a + b).
Proof. intros H. unfold add_s32. by rewrite (proj2 (in_s32_spec _) H). Qed.

Lemma lor_disjoint a b n : 0 <= n -> a mod 2 ^ n = 0 -> 0 <= b < 2 ^ n -> Z.lor a b = a + b.
Proof.
  intros Hn Ha Hb. rewrite <- Z.add_lor_land.
  assert (Z.land a b = 0) as Hland.
  { apply Z.bits_inj'. intros i Hi. rewrite Z.land_spec, Z.bits_0.
    destruct (decide (i < n)) as [Hlt|Hge].
    - rewrite <- (Z.mod_pow2_bits_low a n i) by lia. by rewrite Ha, Z.bits_0.
    - rewrite andb_comm. destruct (decide (b = 0)) as [->|Hb0]; [by rewrite Z.bits_0|].
      rewrite Z.bits_above_log2; [done|lia|].
      apply Z.log2_lt_pow2; [lia|]. pose proof (Z.pow_le_mono_r 2 n i). lia. }
  lia.
Qed.

Lemma mask n m a : m = Z.ones n -> 0 <=? n = true -> Z.land a m = a mod 2 ^ n.
Proof. intros -> Hn%Z.leb_le. by apply Z.land_ones. Qed.

Create HintDb crowd discriminated.
Create Rewrite HintDb crowd.
#[export] Hint Resolve wrap_u_range wrap_s_range : crowd.
#[export] Hint Rewrite wrap_u_id wrap_s_id using lia : crowd.

(** * Lists *)

Lemma filter_all {A} (P : A -> Prop) `{forall x, Decision (P x)} (l : list A) :
  Forall P l -> filter P l = l.
Proof.
  induction 1 as [|x l Hx _ IH]; [done|].
  rewrite filter_cons_True by done. by f_equal.
Qed.

Lemma filter_none {A} (P : A -> Prop) `{forall x, Decision (P x)} (l : list A) :
  Forall (fun x => ~ P x) l -> filter P l = [].
Proof.
  induction 1 as [|x l Hx _ IH]; [done|].
  by rewrite filter_cons_False.
Qed.

(** Arrays: an element, and storing one. *)
Definition fetch {A} (l : list A) (i : Z) : res A :=
  if i <? 0 then Err OutOfBounds
  else match l !! Z.to_nat i with Some x => Ok x | None => Err OutOfBounds end.
Definition store_at {A} (l : list A) (i : Z) (x : A) : res (list A) :=
  if (i <? 0) || (Z.of_nat (length l) <=? i) then Err OutOfBounds
  else Ok (<[Z.to_nat i := x]> l).

Lemma fetch_ok {A} (l : list A) (i : Z) x :
  0 <= i -> l !! Z.to_nat i = Some x -> fetch l i = Ok x.
Proof. intros Hi Hx. unfold fetch. by rewrite (proj2 (Z.ltb_ge i 0) Hi), Hx. Qed.

Lemma fetch_inv {A} (l : list A) (i : Z) x :
  fetch l i = Ok x -> 0 <= i < Z.of_nat (length l) /\ l !! Z.to_nat i = Some x.
Proof.
  unfold fetch. destruct (Z.ltb_spec i 0) as [?|Hi]; [done|].
  destruct (l !! Z.to_nat i) as [y|] eqn:E; [|done]. intros [= ->]. split; [|done].
  apply lookup_lt_Some in E. lia.
Qed.

Lemma fetch_app {A} (l k : list A) (i : Z) x : fetch l i = Ok x -> fetch (l ++ k) i = Ok x.
Proof. intros [Hi Hx]%fetch_inv. apply fetch_ok; [lia|]. by apply lookup_app_l_Some. Qed.

Lemma fetch_total {A} `{Inhabited A} (l : list A) (i : Z) (n : nat) :
  i = Z.of_nat n -> (n < length l)%nat -> fetch l i = Ok (l !!! n).
Proof.
  intros -> Hn. apply fetch_ok; [lia|]. rewrite Nat2Z.id. by apply list_lookup_lookup_total_lt.
Qed.

Lemma store_at_ok {A} (l : list A) (i : Z) x :
  0 <= i < Z.of_nat (length l) -> store_at l i x = Ok (<[Z.to_nat i := x]> l).
Proof.
  intros Hi. unfold store_at.
  by rewrite (proj2 (Z.ltb_ge i 0)), (proj2 (Z.leb_gt (Z.of_nat (length l)) i)) by lia.
Qed.

(** Bytes as a number, the most significant first. *)
Definition bytes_number (l : list Z) : Z := fold_left (fun acc b => acc * 256 + b) l 0.

Lemma bytes_number_snoc l b : bytes_number (l ++ [b]) = bytes_number l * 256 + b.
Proof. unfold bytes_number. by rewrite fold_left_app. Qed.

Lemma bytes_number_app l k :
  bytes_number (l ++ k) = bytes_number l * 256 ^ Z.of_nat (length k) + bytes_number k.
Proof.
  revert l. induction k as [|b k IH]; intros l.
  - rewrite app_nil_r. cbn. lia.
  - rewrite cons_middle, app_assoc, IH, bytes_number_snoc.
    change (b :: k) with ([b] ++ k). rewrite (IH [b]).
    rewrite length_app, Nat2Z.inj_add, Z.pow_add_r by lia.
    change (bytes_number [b]) with b. change (256 ^ Z.of_nat (length [b])) with 256. ring.
Qed.

Lemma bytes_number_bound l :
  Forall (fun b => 0 <= b < 256) l -> 0 <= bytes_number l < 256 ^ Z.of_nat (length l).
Proof.
  induction l as [|b l IH] using rev_ind; [done|]. intros [Hl [Hb _]%Forall_cons]%Forall_app.
  rewrite bytes_number_snoc, length_app, Nat2Z.inj_add, Z.pow_add_r by lia. specialize (IH Hl). cbn. lia.
Qed.

(** Membership and freshness of the first components of association lists. *)
Ltac keys_simpl :=
  repeat match goal with
  | H : context [fst <$> (_ ++ _)] |- _ => rewrite fmap_app in H
  | H : context [fst <$> (_ :: _)] |- _ => rewrite fmap_cons in H
  | H : context [fst <$> []] |- _ => rewrite fmap_nil in H
  | H : NoDup (_ ++ _) |- _ => rewrite NoDup_app in H
  | H : NoDup (_ :: _) |- _ => rewrite NoDup_cons in H
  | H : _ /\ _ |- _ => destruct H
  | |- context [fst <$> (_ ++ _)] => rewrite fmap_app
  | |- context [fst <$> (_ :: _)] => rewrite fmap_cons
  | |- context [fst <$> []] => rewrite fmap_nil
  end; cbn [fst] in *.
Ltac keys_abstract :=
  repeat match goal with
  | H : _ <> [] |- _ => clear H
  | |- context [fst <$> ?x] => let k := fresh "keys" in set (k := fst <$> x) in *; clearbody k
  | H : context [fst <$> ?x] |- _ => let k := fresh "keys" in set (k := fst <$> x) in *; clearbody k
  end.
Ltac keys_solver := keys_simpl; keys_abstract; set_solver.

Lemma Forall_filter {A} (P Q : A -> Prop) `{forall x, Decision (P x)} (l : list A) :
  Forall Q l -> Forall Q (filter P l).
Proof.
  intros Hl. apply Forall_forall. intros x [_ Hx]%list_elem_of_filter.
  by eapply Forall_forall in Hl.
Qed.

Lemma StronglySorted_lookup {A} (R : relation A) (l : list A) i j a b :
  StronglySorted R l -> l !! i = Some a -> l !! j = Some b -> (i < j)%nat -> R a b.
Proof.
  intros Hs. revert i j. induction Hs as [|x l _ IH Hx]; intros i j; [done|].
  destruct j as [|j]; [lia|]. destruct i as [|i]; cbn; intros Hi Hj Hij.
  - injection Hi as ->. by eapply Forall_lookup_1.
  - apply (IH i j); [done..|lia].
Qed.
