(* ===== verification/CString.v ===== *)
(** * The string functions of the C library

    The functions of [<string.h>], [<stdlib.h>], [<ctype.h>] and [<stdio.h>]
    that the sources use, for the 32-bit target ([long] is 32 bits wide).  A C
    string is a [string] (its characters before the terminator); a character
    array is a [list ascii], in which [strtok] works in place. *)

From stdpp Require Import base list strings.
From Stdlib Require Import ZArith Lia Ascii.
From S2P Require Import Prelude.

Open Scope Z_scope.

(** ** Characters *)

Definition NUL : ascii := "000"%char.
Definition LF : ascii := "010"%char.

(** A string of one line feed. *)
Definition str_lf : string := String LF EmptyString.

(** A text between double quotes. *)
Definition DQUOTE : ascii := "034"%char.
Definition quote (s : string) : string := String DQUOTE (s +:+ String DQUOTE EmptyString).

Definition byte_of (c : ascii) : Z := Z.of_N (N_of_ascii c).
Definition char_of (z : Z) : ascii := ascii_of_N (Z.to_N (u8 z)).

Definition isspace (c : ascii) : bool :=
  ((9 <=? byte_of c) && (byte_of c <=? 13)) || (byte_of c =? 32).
Definition isdigit (c : ascii) : bool := (48 <=? byte_of c) && (byte_of c <=? 57).

Fixpoint skip_space (s : string) : string :=
  match s with
  | String c s' => if isspace c then skip_space s' else s
  | EmptyString => s
  end.

(** ** Numbers from strings *)

Fixpoint digits (s : string) (acc : Z) : Z * string :=
  match s with
  | String c s' => if isdigit c then digits s' (acc * 10 + (byte_of c - 48)) else (acc, s)
  | EmptyString => (acc, s)
  end.

Definition sign (s : string) : bool * string :=
  match s with
  | String "-" s' => (true, s')
  | String "+" s' => (false, s')
  | _ => (false, s)
  end.

(** The subject sequence of [strtol] in base 10: its value, unbounded, and the
    rest; [None] when there is no digit and nothing is converted. *)
Definition subject (s : string) : option (bool * Z * string) :=
  let '(neg, s') := sign (skip_space s) in
  match s' with
  | String c _ => if isdigit c then let '(v, r) := digits s' 0 in Some (neg, v, r) else None
  | EmptyString => None
  end.

(** [strtol(s, &end, 10)]: the value, clamped to [long], and what [end] points to. *)
Definition strtol (s : string) : Z * string :=
  match subject s with
  | Some (neg, v, r) => (Z.max INT32_MIN (Z.min INT32_MAX (if neg then - v else v)), r)
  | None => (0, s)
  end.

(** [strtoul(s, NULL, 10)]: too large a value gives [ULONG_MAX]; a minus sign
    negates in [unsigned long]. *)
Definition strtoul (s : string) : Z :=
  match subject s with
  | Some (neg, v, _) => if v <? 2 ^ 32 then u32 (if neg then - v else v) else 2 ^ 32 - 1
  | None => 0
  end.

Definition atoi (s : string) : Z := s32 (strtol s).1.

(** [strtol(s, NULL, 0)]: the prefix chooses base 16, 8 or 10. *)
Definition digit_value (c : ascii) : Z :=
  let b := byte_of c in
  if isdigit c then b - 48
  else if (97 <=? b) && (b <=? 122) then b - 87
  else if (65 <=? b) && (b <=? 90) then b - 55
  else 36.

Fixpoint digits_in (base : Z) (s : string) (acc : Z) : Z :=
  match s with
  | String c s' => if digit_value c <? base then digits_in base s' (acc * base + digit_value c) else acc
  | EmptyString => acc
  end.

Definition strtol_auto (s : string) : Z :=
  let '(neg, s') := sign (skip_space s) in
  let v := match s' with
           | String "0" (String x (String h r)) =>
               if ((byte_of x =? 120) || (byte_of x =? 88)) && (digit_value h <? 16)
               then digits_in 16 (String h r) 0 else digits_in 8 s' 0
           | String "0" _ => digits_in 8 s' 0
           | _ => digits_in 10 s' 0
           end in
  Z.max INT32_MIN (Z.min INT32_MAX (if neg then - v else v)).

(** ** Strings from numbers *)

Fixpoint dec_go (fuel : nat) (n : Z) (acc : string) : string :=
  match fuel with
  | O => acc
  | S fuel =>
      let acc := String (char_of (48 + n mod 10)) acc in
      if n / 10 =? 0 then acc else dec_go fuel (n / 10) acc
  end.

Definition dec_nat (n : Z) (rest : string) : string :=
  dec_go (S (Z.to_nat (Z.log2 n))) n rest.

(** [%d], [%ld] and, on a non-negative value, [%u] and [%lu]. *)
Definition dec (z : Z) : string :=
  if z <? 0 then String "-" (dec_nat (- z) "") else dec_nat z "".

(** ** Searching and comparing *)

Fixpoint prefix_of (p s : string) : bool :=
  match p, s with
  | EmptyString, _ => true
  | String a p, String b s => if decide (a = b) then prefix_of p s else false
  | String _ _, EmptyString => false
  end.

(** [strstr(hay, needle) != NULL]. *)
Fixpoint strstr (hay needle : string) : bool :=
  prefix_of needle hay ||
  match hay with EmptyString => false | String _ hay => strstr hay needle end.

(** [strcmp]: of its result only the sign is used. *)
Definition strcmp (a b : string) : Z :=
  match String.compare a b with Lt => -1 | Eq => 0 | Gt => 1 end.

Definition strlen (s : string) : Z := Z.of_nat (String.length s).

(** [strchr(s, c)] as the text before the character and the text after it. *)
Fixpoint strchr (c : ascii) (s : string) : option (string * string) :=
  match s with
  | EmptyString => None
  | String a s' =>
      if decide (a = c) then Some (EmptyString, s')
      else match strchr c s' with
           | Some (l, r) => Some (String a l, r)
           | None => None
           end
  end.

(** At most [n] characters: what [vsnprintf] with a buffer of [n + 1] stores. *)
Fixpoint str_take (n : nat) (s : string) : string :=
  match n, s with
  | S n, String c s => String c (str_take n s)
  | _, _ => EmptyString
  end.

Fixpoint str_drop (n : nat) (s : string) : string :=
  match n, s with
  | S n, String _ s => str_drop n s
  | _, _ => s
  end.

(** ** Character arrays *)

Definition chars (s : string) : list ascii := String.list_ascii_of_string s.

(** The C string at the start of an array: reading past the end is undefined. *)
Fixpoint cstr (b : list ascii) : res string :=
  match b with
  | [] => Err OutOfBounds
  | c :: b => if decide (c = NUL) then Ok EmptyString else String c <$> cstr b
  end.

Definition cstr_at (b : list ascii) (p : nat) : res string := cstr (drop p b).

(** [strtok]: the state is the array and the saved position, [None] when the
    saved pointer is null.  [span_at] is the length of the run of characters
    that satisfy [P], all within the array. *)
Fixpoint span_at (P : ascii -> bool) (b : list ascii) : res nat :=
  match b with
  | [] => Err OutOfBounds
  | c :: b => if P c then S <$> span_at P b else Ok O
  end.

Record tok_state := Tok { tok_buf : list ascii; tok_save : option nat }.

Definition strtok_at (delim : ascii) (p : nat) (b : list ascii)
    : res (option nat * tok_state) :=
  skip ← span_at (fun c => bool_decide (c = delim)) (drop p b);
  let start := (p + skip)%nat in
  match drop start b with
  | [] => Err OutOfBounds
  | c :: _ =>
      if decide (c = NUL) then Ok (None, Tok b None)
      else
        len ← span_at (fun c => negb (bool_decide (c = delim)) && negb (bool_decide (c = NUL)))
                      (drop start b);
        let stop := (start + len)%nat in
        if decide (b !! stop = Some NUL) then Ok (Some start, Tok b None)
        else Ok (Some start, Tok (<[stop := NUL]> b) (Some (S stop)))
  end.

(** [strtok(s, delim)] with [s] the position [Some p], or [strtok(NULL, delim)]. *)
Definition strtok (s : option nat) (delim : ascii) (t : tok_state)
    : res (option nat * tok_state) :=
  match s with
  | Some p => strtok_at delim p (tok_buf t)
  | None => match tok_save t with
            | None => Ok (None, t)
            | Some p => strtok_at delim p (tok_buf t)
            end
  end.

(** ** Streams and scanning *)

(** One [fgets] with a buffer of [room + 1] bytes: what is stored and what is
    left of the file. *)
Fixpoint fgets_go (room : nat) (s : list ascii) : list ascii * list ascii :=
  match room, s with
  | S room, c :: s =>
      if decide (c = LF) then ([c], s)
      else let '(line, rest) := fgets_go room s in (c :: line, rest)
  | _, _ => ([], s)
  end.

(** [None] at the end of the file.  As a C string the line ends at its first NUL. *)
Definition fgets (size : nat) (s : list ascii) : option (string * list ascii) :=
  match s with
  | [] => None
  | _ => let '(line, rest) := fgets_go (size - 1) s in
         Some (match cstr (line ++ [NUL]) with Ok l => l | _ => EmptyString end, rest)
  end.

(** The conversion [%s] of [sscanf]: the first word and what follows it. *)
Fixpoint word_go (s : string) : string * string :=
  match s with
  | String c s' =>
      if isspace c then (EmptyString, s) else let '(w, r) := word_go s' in (String c w, r)
  | EmptyString => (EmptyString, EmptyString)
  end.
Definition scan_word (s : string) : option (string * string) :=
  match skip_space s with
  | EmptyString => None
  | s => Some (word_go s)
  end.

(** ** Decimal numerals: printing then parsing *)

Definition no_digit_head (s : string) : Prop :=
  match s with String c _ => isdigit c = false | EmptyString => True end.

Lemma byte_of_char n : 0 <= n < 256 -> byte_of (char_of n) = n.
Proof.
  intros Hn. unfold byte_of, char_of. rewrite wrap_u_id by (cbn; lia).
  rewrite N_ascii_embedding by lia. lia.
Qed.

Lemma isdigit_char d : 0 <= d < 10 -> isdigit (char_of (48 + d)) = true.
Proof. intros Hd. unfold isdigit. rewrite byte_of_char by lia. lia. Qed.

Lemma digits_stop s acc : no_digit_head s -> digits s acc = (acc, s).
Proof. destruct s as [|c s]; [done|]. cbn. by intros ->. Qed.

Lemma digits_char d s acc :
  0 <= d < 10 -> digits (String (char_of (48 + d)) s) acc = digits s (acc * 10 + d).
Proof.
  intros Hd. cbn [digits]. rewrite isdigit_char, byte_of_char by lia. f_equal. lia.
Qed.

(** [dec_go] puts the numeral of [n] in front of [t]; reading it shifts the
    accumulator by its length and adds [n]. *)
Lemma dec_go_digits fuel n t :
  0 <= n < 10 ^ Z.of_nat fuel ->
  exists k, 0 <= k /\ forall acc, digits (dec_go fuel n t) acc = digits t (acc * 10 ^ k + n).
Proof.
  revert n t. induction fuel as [|fuel IH]; intros n t Hn.
  { exists 0. split; [done|]. intros acc. cbn in *. f_equal. lia. }
  cbn [dec_go]. pose proof (Z.mod_pos_bound n 10 eq_refl) as Hm.
  pose proof (Z.div_mod n 10) as Hdm.
  destruct (Z.eqb_spec (n / 10) 0) as [Hz|Hz].
  - exists 1. split; [done|]. intros acc. rewrite digits_char by done. f_equal. lia.
  - destruct (IH (n / 10) (String (char_of (48 + n mod 10)) t)) as (k & Hk & IHk).
    { split; [apply Z.div_pos; lia|]. apply Z.div_lt_upper_bound; [lia|].
      rewrite Nat2Z.inj_succ, Z.pow_succ_r in Hn by lia. lia. }
    exists (k + 1). split; [lia|]. intros acc. rewrite IHk, digits_char by done.
    rewrite Z.pow_add_r by lia. f_equal. lia.
Qed.

Lemma dec_nat_fuel n : 0 <= n -> n < 10 ^ Z.of_nat (S (Z.to_nat (Z.log2 n))).
Proof.
  intros Hn. rewrite Nat2Z.inj_succ, Z2Nat.id by apply Z.log2_nonneg.
  destruct (Z.eq_dec n 0) as [->|Hz]; [by cbn|].
  pose proof (Z.log2_spec n ltac:(lia)) as [_ H].
  eapply Z.lt_le_trans; [exact H|]. apply Z.pow_le_mono_l. lia.
Qed.

Lemma digits_dec_nat n t :
  0 <= n -> no_digit_head t -> digits (dec_nat n t) 0 = (n, t).
Proof.
  intros Hn Ht. unfold dec_nat.
  destruct (dec_go_digits (S (Z.to_nat (Z.log2 n))) n t) as (k & _ & Hk).
  { split; [done|by apply dec_nat_fuel]. }
  rewrite Hk, digits_stop by done. done.
Qed.

(** The first character of a numeral. *)
Lemma dec_go_head fuel n t :
  exists d s, 0 <= d < 10 /\ dec_go (S fuel) n t = String (char_of (48 + d)) s.
Proof.
  revert n t. induction fuel as [|fuel IH]; intros n t; cbn [dec_go].
  - exists (n mod 10), t. split; [by apply Z.mod_pos_bound|]. by case_match.
  - case_match.
    + eexists _, _. split; [by apply (Z.mod_pos_bound n 10)|done].
    + apply IH.
Qed.

Lemma char_of_digit d :
  0 <= d < 10 -> d = 0 \/ d = 1 \/ d = 2 \/ d = 3 \/ d = 4 \/ d = 5 \/ d = 6 \/ d = 7 \/ d = 8 \/ d = 9.
Proof. lia. Qed.

Lemma subject_dec_nat n t :
  0 <= n -> no_digit_head t -> subject (dec_nat n t) = Some (false, n, t).
Proof.
  intros Hn Ht. unfold subject.
  destruct (dec_go_head (Z.to_nat (Z.log2 n)) n t) as (d & s & Hd & Heq).
  pose proof (digits_dec_nat n t Hn Ht) as Hdig. unfold dec_nat in *. rewrite Heq in *.
  assert (skip_space (String (char_of (48 + d)) s) = String (char_of (48 + d)) s) as ->.
  { cbn [skip_space]. unfold isspace. rewrite byte_of_char by lia.
    replace (48 + d <=? 13) with false by lia. replace (48 + d =? 32) with false by lia.
    by rewrite andb_false_r. }
  assert (sign (String (char_of (48 + d)) s) = (false, String (char_of (48 + d)) s)) as ->.
  { pose proof (char_of_digit d Hd). destruct_or!; by subst. }
  rewrite isdigit_char by done. by rewrite Hdig.
Qed.

Lemma subject_dec_neg n t :
  0 <= n -> no_digit_head t -> subject (String "-" (dec_nat n t)) = Some (true, n, t).
Proof.
  intros Hn Ht. unfold subject. cbn [skip_space isspace sign].
  change (isspace "-") with false. cbn iota.
  destruct (dec_go_head (Z.to_nat (Z.log2 n)) n t) as (d & s & Hd & Heq).
  pose proof (digits_dec_nat n t Hn Ht) as Hdig. unfold dec_nat in *. rewrite Heq in *.
  cbn [sign]. rewrite isdigit_char by done. by rewrite Hdig.
Qed.

Lemma dec_go_app fuel n s t : dec_go fuel n (s +:+ t) = dec_go fuel n s +:+ t.
Proof.
  revert n s. induction fuel as [|fuel IH]; intros n s; cbn [dec_go]; [done|].
  case_match; [done|]. by rewrite <- IH.
Qed.

Lemma dec_nat_app n s t : dec_nat n s +:+ t = dec_nat n (s +:+ t).
Proof. unfold dec_nat. by rewrite dec_go_app. Qed.

Lemma str_app_cons c s t : String c s +:+ t = String c (s +:+ t).
Proof. done. Qed.
Lemma str_app_nil t : "" +:+ t = t.
Proof. done. Qed.

(** Reading back a printed number. *)
Lemma strtol_dec z t :
  INT32_MIN <= z <= INT32_MAX -> no_digit_head t -> strtol (dec z +:+ t) = (z, t).
Proof.
  intros Hz Ht. unfold strtol, dec. destruct (Z.ltb_spec z 0).
  - rewrite str_app_cons, dec_nat_app, str_app_nil, subject_dec_neg by (done || lia).
    f_equal. lia.
  - rewrite dec_nat_app, str_app_nil, subject_dec_nat by (done || lia). f_equal. lia.
Qed.

Lemma strtoul_dec z t :
  0 <= z < 2 ^ 32 -> no_digit_head t -> strtoul (dec z +:+ t) = z.
Proof.
  intros Hz Ht. unfold strtoul, dec. replace (z <? 0) with false by lia.
  rewrite dec_nat_app, str_app_nil, subject_dec_nat by (done || lia).
  replace (z <? 2 ^ 32) with true by lia. by apply wrap_u_id.
Qed.

(** ** [strtok] on an array *)

Lemma span_at_run (P : ascii -> bool) (run rest : list ascii) c :
  Forall (fun a => P a = true) run -> P c = false -> span_at P (run ++ c :: rest) = Ok (length run).
Proof.
  induction 1 as [|a run Ha _ IH]; intros Hc; cbn; [by rewrite Hc|].
  rewrite Ha. by rewrite IH.
Qed.

Lemma span_at_none (P : ascii -> bool) c rest : P c = false -> span_at P (c :: rest) = Ok O.
Proof. intros Hc. cbn. by rewrite Hc. Qed.

Definition token_char (delim c : ascii) : Prop := c <> delim /\ c <> NUL.

Lemma strtok_at_start delim pre a tok rest :
  Forall (token_char delim) (a :: tok) ->
  strtok_at delim (length pre) (pre ++ (a :: tok) ++ rest) =
  len ← span_at (fun c => negb (bool_decide (c = delim)) && negb (bool_decide (c = NUL)))
          ((a :: tok) ++ rest);
  let b := pre ++ (a :: tok) ++ rest in
  let stop := (length pre + len)%nat in
  if decide (b !! stop = Some NUL) then Ok (Some (length pre), Tok b None)
  else Ok (Some (length pre), Tok (<[stop := NUL]> b) (Some (S stop))).
Proof.
  intros [[Ha1 Ha2] _]%Forall_cons. unfold strtok_at. rewrite drop_app_length.
  cbn [app]. rewrite span_at_none by (by apply bool_decide_eq_false).
  cbn [mbind res_bind]. rewrite Nat.add_0_r, drop_app_length. by rewrite decide_False.
Qed.

Lemma token_span delim a tok c rest :
  Forall (token_char delim) (a :: tok) -> c = delim \/ c = NUL ->
  span_at (fun c => negb (bool_decide (c = delim)) && negb (bool_decide (c = NUL)))
    ((a :: tok) ++ c :: rest) = Ok (length (a :: tok)).
Proof.
  intros Htok Hc. apply span_at_run.
  - eapply Forall_impl; [exact Htok|]. intros x [??]. by rewrite !bool_decide_eq_false_2.
  - destruct Hc as [->| ->].
    + by rewrite (bool_decide_eq_true_2 (delim = delim)).
    + rewrite (bool_decide_eq_true_2 (NUL = NUL)) by done. by rewrite andb_false_r.
Qed.

(** A token that starts right at the position and is ended by [delim]: the
    delimiter is overwritten with a terminator and scanning resumes behind it. *)
Lemma strtok_at_token delim pre a tok rest :
  delim <> NUL -> Forall (token_char delim) (a :: tok) ->
  strtok_at delim (length pre) (pre ++ (a :: tok) ++ delim :: rest) =
  Ok (Some (length pre),
      Tok (pre ++ (a :: tok) ++ NUL :: rest) (Some (S (length pre + length (a :: tok))))).
Proof.
  intros Hd Htok. rewrite strtok_at_start, token_span by (done || by left).
  cbn [mbind res_bind]. cbv zeta. rewrite !(app_assoc pre).
  rewrite <- length_app, list_lookup_middle by done. rewrite decide_False by congruence.
  do 3 f_equal. by rewrite insert_app_r_alt, Nat.sub_diag.
Qed.

(** The last token, ended by the terminator of the string. *)
Lemma strtok_at_last delim pre a tok rest :
  Forall (token_char delim) (a :: tok) ->
  strtok_at delim (length pre) (pre ++ (a :: tok) ++ NUL :: rest) =
  Ok (Some (length pre), Tok (pre ++ (a :: tok) ++ NUL :: rest) None).
Proof.
  intros Htok. rewrite strtok_at_start, token_span by (done || by right).
  cbn [mbind res_bind]. cbv zeta. rewrite !(app_assoc pre).
  rewrite <- length_app, list_lookup_middle by done. by rewrite decide_True.
Qed.

Lemma cstr_run (run rest : list ascii) :
  Forall (fun c => c <> NUL) run ->
  cstr (run ++ NUL :: rest) = Ok (String.string_of_list_ascii run).
Proof.
  induction 1 as [|c run Hc _ IH]; cbn; [done|].
  rewrite decide_False by done. by rewrite IH.
Qed.

(** ** The characters and the length of a numeral *)

Lemma chars_app s t : chars (s +:+ t) = chars s ++ chars t.
Proof.
  unfold chars. induction s as [|c s IH]; [done|].
  rewrite str_app_cons. cbn. by f_equal.
Qed.

Lemma of_chars s : String.string_of_list_ascii (chars s) = s.
Proof. apply String.string_of_list_ascii_of_string. Qed.

Lemma length_str_app s t : String.length (s +:+ t) = (String.length s + String.length t)%nat.
Proof. induction s as [|c s IH]; [done|]. rewrite str_app_cons. cbn. by f_equal. Qed.

Lemma length_chars s : length (chars s) = String.length s.
Proof. unfold chars. induction s as [|c s IH]; [done|]. cbn. by f_equal. Qed.

Section numeral.
Variable P : ascii -> Prop.
Hypothesis P_digit : forall d, 0 <= d < 10 -> P (char_of (48 + d)).

Lemma dec_go_chars fuel n t : Forall P (chars t) -> Forall P (chars (dec_go fuel n t)).
Proof.
  revert n t. induction fuel as [|fuel IH]; intros n t Ht; [done|]. cbn [dec_go].
  assert (Forall P (chars (String (char_of (48 + n mod 10)) t))) as Ht'.
  { constructor; [|done]. apply P_digit. by apply Z.mod_pos_bound. }
  case_match; [done|]. by apply IH.
Qed.

Lemma dec_chars z : P "-" -> Forall P (chars (dec z)).
Proof.
  intros Hm. unfold dec, dec_nat. case_match; [constructor; [done|]|];
    by apply dec_go_chars.
Qed.
End numeral.

Lemma dec_go_length fuel k n t :
  0 <= n < 10 ^ Z.of_nat (S k) ->
  (String.length (dec_go fuel n t) <= S k + String.length t)%nat.
Proof.
  revert k n t. induction fuel as [|fuel IH]; intros k n t Hn; cbn [dec_go]; [lia|].
  destruct (Z.eqb_spec (n / 10) 0) as [Hz|Hz]; [cbn; lia|].
  destruct k as [|k].
  { exfalso. apply Hz, Z.div_small. cbn in Hn. lia. }
  assert (0 <= n / 10 < 10 ^ Z.of_nat (S k)) as Hq.
  { split; [apply Z.div_pos; lia|]. apply Z.div_lt_upper_bound; [lia|].
    rewrite (Nat2Z.inj_succ (S k)), Z.pow_succ_r in Hn by lia. lia. }
  specialize (IH k (n / 10) (String (char_of (48 + n mod 10)) t) Hq). cbn in *. lia.
Qed.

Lemma dec_length k z :
  0 <= z < 10 ^ Z.of_nat (S k) -> (String.length (dec z) <= S k)%nat.
Proof.
  intros Hz. unfold dec, dec_nat. replace (z <? 0) with false by lia.
  etrans; [by apply dec_go_length|]. cbn. lia.
Qed.

Lemma dec_nonempty z : exists c s, dec z = String c s.
Proof.
  unfold dec, dec_nat. case_match; [by eexists _, _|].
  destruct (dec_go_head (Z.to_nat (Z.log2 z)) z "") as (d & s & _ & ->). by eexists _, _.
Qed.

(** Digits and the sign are not delimiters. *)
Lemma digit_is_digit d delim :
  0 <= d < 10 -> isdigit delim = false -> char_of (48 + d) <> delim.
Proof. intros Hd Hf Heq. rewrite <- Heq, isdigit_char in Hf by done. done. Qed.

Lemma dec_token delim z :
  isdigit delim = false -> delim <> "-"%char -> Forall (token_char delim) (chars (dec z)).
Proof.
  intros Hd Hm. apply dec_chars.
  - intros d Hdr. split; by apply digit_is_digit.
  - by split.
Qed.

(** A numeral as a non-empty token in an array. *)
Lemma strtok_at_dec delim pre z rest :
  isdigit delim = false -> delim <> "-"%char -> delim <> NUL ->
  strtok_at delim (length pre) (pre ++ chars (dec z) ++ delim :: rest) =
  Ok (Some (length pre),
      Tok (pre ++ chars (dec z) ++ NUL :: rest) (Some (S (length pre + length (chars (dec z)))))).
Proof.
  intros Hd Hm Hn. pose proof (dec_token delim z Hd Hm) as Htok.
  destruct (dec_nonempty z) as (c & s & Heq). rewrite Heq in *. cbn [chars] in *.
  by apply strtok_at_token.
Qed.

Lemma cstr_at_dec pre z rest : cstr_at (pre ++ chars (dec z) ++ NUL :: rest) (length pre) = Ok (dec z).
Proof.
  unfold cstr_at. rewrite drop_app_length, cstr_run, of_chars; [done|].
  eapply Forall_impl; [by apply (dec_token ";" z)|]. by intros c [_ ?].
Qed.

(** Calls in sequence: the first on a string, the next ones where it stopped. *)
Lemma strtok_first delim b save :
  strtok (Some O) delim (Tok b save) = strtok_at delim (length (@nil ascii)) ([] ++ b).
Proof. done. Qed.

Lemma strtok_next delim pre tok rest :
  strtok None delim (Tok (pre ++ tok ++ NUL :: rest) (Some (S (length pre + length tok)))) =
  strtok_at delim (length (pre ++ tok ++ [NUL])) ((pre ++ tok ++ [NUL]) ++ rest).
Proof.
  unfold strtok. cbn [tok_save tok_buf]. rewrite !length_app, <- !app_assoc. cbn [length app].
  f_equal. lia.
Qed.

Lemma of_chars_app s (l : list ascii) :
  String.string_of_list_ascii (chars s ++ l) = s +:+ String.string_of_list_ascii l.
Proof.
  unfold chars. induction s as [|c s IH]; [done|]. rewrite str_app_cons. cbn. by f_equal.
Qed.

Lemma str_app_nil_r s : s +:+ "" = s.
Proof. induction s as [|c s IH]; [done|]. rewrite str_app_cons. by f_equal. Qed.

Lemma atoi_dec z t :
  INT32_MIN <= z <= INT32_MAX -> no_digit_head t -> atoi (dec z +:+ t) = z.
Proof.
  intros Hz Ht. unfold atoi. rewrite strtol_dec by done. apply wrap_s_id; [lia|].
  unfold INT32_MIN, INT32_MAX in Hz. cbn. lia.
Qed.

(** [strcmp] is the total order of the strings. *)
Lemma strcmp_eq a b : strcmp a b = 0 <-> a = b.
Proof.
  unfold strcmp. split; [|intros ->].
  - destruct (String.compare a b) eqn:H; [|done..]. intros _. by apply String.compare_eq_iff.
  - pose proof (String.compare_antisym b b) as H. by destruct (String.compare b b).
Qed.

Lemma strcmp_le a b : strcmp a b <= 0 <-> stdpp.strings.String.le a b.
Proof.
  unfold strcmp, stdpp.strings.String.le, String.leb. by destruct (String.compare a b); cbn.
Qed.

Lemma strcmp_antisym a b : strcmp a b = - strcmp b a.
Proof. unfold strcmp. rewrite (String.compare_antisym a b). by destruct (String.compare b a). Qed.

Lemma str_app_assoc s t u : (s +:+ t) +:+ u = s +:+ (t +:+ u).
Proof. induction s as [|c s IH]; [done|]. by rewrite !str_app_cons, IH. Qed.
