(* ===== verification/HistoryList.v ===== *)
(** * The authorisation history of the packet queue server

    [jni/ipqserver/server.c], lines 22 to 206: the singly linked list of
    [struct history_element] that records which (address, port) pairs the Java
    side has authorised, and when.  The heap is explicit: nodes live in a finite
    map from addresses, [free] removes them, and reading through a pointer whose
    node is gone is [InvalidPointer].  The abstract contract of the list is a
    sequence of entries; [to_server] gives the one concrete state (heap, [head],
    [curr]) that represents a sequence stored at given addresses, so the
    refinement theorems are equations and also say that nothing leaks. *)

From stdpp Require Import base list gmap.
From Stdlib Require Import ZArith Lia Sorted.
From S2P Require Import Prelude.

Open Scope Z_scope.

(** ** Data *)

Abbreviation loc := positive (only parsing).

Record history_element := HistoryElement {
  ip : Z;                 (* uint32_t *)
  port : Z;               (* uint16_t *)
  timestamp : Z;          (* time_t, a 32-bit signed integer on this target *)
  next : option loc
}.

Record server := Server {
  heap : gmap loc history_element;
  head : option loc;
  curr : option loc
}.

Definition init_server : server := Server ∅ None None.

Definition TIMEVALIDITY : Z := 600.

(** ** Memory *)

Definition deref (p : option loc) (s : server) : res history_element :=
  match p with
  | None => Err NullDeref
  | Some l => match heap s !! l with
              | Some e => Ok e
              | None => Err InvalidPointer
              end
  end.

Definition set_next (p q : option loc) (s : server) : res server :=
  match p with
  | None => Err NullDeref
  | Some l => match heap s !! l with
              | Some e =>
                  Ok (Server (<[l := HistoryElement (ip e) (port e) (timestamp e) q]> (heap s))
                             (head s) (curr s))
              | None => Err InvalidPointer
              end
  end.

Definition set_head (p : option loc) (s : server) : server := Server (heap s) p (curr s).
Definition set_curr (p : option loc) (s : server) : server := Server (heap s) (head s) p.

(** [free(NULL)] does nothing; freeing a block twice is undefined. *)
Definition free (p : option loc) (s : server) : res server :=
  match p with
  | None => Ok s
  | Some l => match heap s !! l with
              | Some _ => Ok (Server (delete l (heap s)) (head s) (curr s))
              | None => Err InvalidPointer
              end
  end.

(** ** Operations *)

Definition delete_from_list_element (del prev : option loc) (s : server)
    : res (Z * server) :=
  match del with
  | None => Ok (-1, s)
  | Some _ =>
      s1 ← match prev with
           | Some _ => d ← deref del s; set_next prev (next d) s
           | None => Ok s
           end;
      s2 ← (if decide (del = curr s1)
            then Ok (set_head None (set_curr None s1))
            else if decide (del = head s1)
            then d ← deref del s1; Ok (set_head (next d) s1)
            else Ok s1);
      s3 ← free del s2;
      Ok (0, s3)
  end.

(** The test of the search loop; [&&] evaluates the sum only when both the
    address and the port match. *)
Definition search_hit (now ipv portv : Z) (e : history_element) : res bool :=
  if (ip e =? ipv) && (port e =? portv)
  then t ← add_s32 (timestamp e) TIMEVALIDITY; Ok (now <? t)
  else Ok false.

Fixpoint search_loop (fuel : nat) (now ipv portv : Z) (s : server)
    (ptr tmp : option loc) : res (option (loc * option loc)) :=
  match fuel with
  | O => Diverges
  | S fuel =>
      match ptr with
      | None => Ok None
      | Some l =>
          e ← deref (Some l) s;
          found ← search_hit now ipv portv e;
          if (found : bool) then Ok (Some (l, tmp))
          else search_loop fuel now ipv portv s (next e) (Some l)
      end
  end.

(** [search_in_list(ip, port, &prev)] at clock [now]: the pointer returned and
    the value left in the caller's [prev]. *)
Definition search_in_list (ipv portv now : Z) (prev : option loc) (s : server)
    : res (option loc * option loc) :=
  r ← search_loop (S (size (heap s))) now ipv portv s (head s) None;
  match r with
  | Some (l, tmp) => Ok (Some l, tmp)
  | None => Ok (None, prev)
  end.

Definition delete_from_list (ipv portv now : Z) (s : server) : res (Z * server) :=
  '(del, prev) ← search_in_list ipv portv now None s;
  delete_from_list_element del prev s.

(** [malloc] is given by its result [alloc]: a null pointer, or an address that
    is not in use.  The [uint64_t] timestamp is converted to [time_t]. *)
Definition create_list (alloc : option loc) (ipv portv ts : Z) (s : server)
    : option loc * server :=
  match alloc with
  | None => (None, s)
  | Some l =>
      (Some l, Server (<[l := HistoryElement ipv portv (s32 ts) None]> (heap s))
                      (Some l) (Some l))
  end.

(** The locked part of [add_to_list]: [curr->next = ptr; curr = ptr;]. *)
Definition append_node (l : loc) (ipv portv ts : Z) (s : server) : res server :=
  let s1 := Server (<[l := HistoryElement ipv portv (s32 ts) None]> (heap s))
                   (head s) (curr s) in
  s2 ← set_next (curr s1) (Some l) s1;
  Ok (set_curr (Some l) s2).

Definition add_to_list (alloc : option loc) (ipv portv ts : Z) (s : server)
    : res (option loc * server) :=
  match head s with
  | None => Ok (create_list alloc ipv portv ts s)
  | Some _ =>
      match alloc with
      | None => Ok (None, s)
      | Some l => s1 ← append_node l ipv portv ts s; Ok (Some l, s1)
      end
  end.

(** The loop of [clean_list] under the lock.  After deleting a node that has a
    predecessor the code reads [ptr->next] through the pointer it has just
    freed; after deleting the first node it restarts from [head]. *)
Fixpoint clean_loop (fuel : nat) (now : Z) (ptr prev : option loc) (s : server)
    : res server :=
  match fuel with
  | O => Diverges
  | S fuel =>
      match ptr with
      | None => Ok s
      | Some l =>
          e ← deref (Some l) s;
          t ← add_s32 (timestamp e) TIMEVALIDITY;
          if t <? now then
            '(_, s1) ← delete_from_list_element ptr prev s;
            match prev with
            | Some _ =>
                e' ← deref ptr s1;
                clean_loop fuel now (next e') ptr s1
            | None => clean_loop fuel now (head s1) None s1
            end
          else clean_loop fuel now (next e) ptr s
      end
  end.

(** One iteration of [clean_list]'s outer loop: [ptr] is the head it read
    before taking the lock, [now] the clock it read then. *)
Definition clean_pass (now : Z) (ptr : option loc) (s : server) : res server :=
  clean_loop (S (size (heap s))) now ptr None s.

(** [clean_list] for the iterations it makes while [running] holds: one clock
    value per iteration. *)
Fixpoint clean_list (clock : list Z) (s : server) : res server :=
  match clock with
  | [] => Ok s
  | now :: clock => s1 ← clean_pass now (head s) s; clean_list clock s1
  end.

(** ** The abstract list and its representation *)

Record entry := Entry { e_ip : Z; e_port : Z; e_ts : Z }.

#[export] Instance entry_eq_dec : EqDecision entry.
Proof. solve_decision. Defined.

(** The entries with the addresses they are stored at, in list order. *)
Abbreviation nodes := (list (loc * entry)) (only parsing).

Definition first_loc (ns : nodes) : option loc := fst <$> hd_error ns.
Definition last_loc (ns : nodes) : option loc := fst <$> last ns.

Definition node_of (e : entry) (q : option loc) : history_element :=
  HistoryElement (e_ip e) (e_port e) (e_ts e) q.

Definition first_or (ns : nodes) (q : option loc) : option loc :=
  match ns with [] => q | (l, _) :: _ => Some l end.

(** The heap of a chain of nodes whose last [next] is [q]. *)
Fixpoint chain (ns : nodes) (q : option loc) : gmap loc history_element :=
  match ns with
  | [] => ∅
  | (l, e) :: ns => <[l := node_of e (first_or ns q)]> (chain ns q)
  end.

Definition to_server (ns : nodes) : server :=
  Server (chain ns None) (first_or ns None) (last_loc ns).

(** An entry the cleaner deletes at clock [now], and one the search accepts. *)
Definition expired (now : Z) (e : entry) : Prop := e_ts e + TIMEVALIDITY < now.
Definition authorised (now ipv portv : Z) (e : entry) : Prop :=
  e_ip e = ipv /\ e_port e = portv /\ now < e_ts e + TIMEVALIDITY.

#[export] Instance expired_dec now e : Decision (expired now e).
Proof. unfold expired. apply _. Defined.
#[export] Instance authorised_dec now ipv portv e : Decision (authorised now ipv portv e).
Proof. unfold authorised. apply _. Defined.

(** No entry is so late that [timestamp + TIMEVALIDITY] overflows [time_t]. *)
Definition time_ok (e : entry) : Prop :=
  INT32_MIN <= e_ts e <= INT32_MAX - TIMEVALIDITY.

(** ** The heap of a chain *)

Section chain.
Implicit Types (ns pre post : list (loc * entry)) (q : option loc) (e : entry) (l : loc).

Lemma first_or_app ns post q : first_or (ns ++ post) q = first_or ns (first_or post q).
Proof. by destruct ns as [|[??]]. Qed.

Lemma chain_lookup_fresh ns q l : l ∉ ns.*1 -> chain ns q !! l = None.
Proof.
  induction ns as [|[l' e'] ns IH]; simpl; [done|].
  intros Hl. rewrite lookup_insert_ne by set_solver. apply IH. set_solver.
Qed.

Lemma chain_fresh ns q l : chain ns q !! l = None -> l ∉ ns.*1.
Proof.
  induction ns as [|[l' e'] ns IH]; cbn [chain]; [set_solver|].
  intros [? ?]%lookup_insert_None. rewrite fmap_cons. set_solver.
Qed.

Lemma chain_lookup pre l e post q :
  l ∉ pre.*1 -> chain (pre ++ (l, e) :: post) q !! l = Some (node_of e (first_or post q)).
Proof.
  induction pre as [|[l' e'] pre IH]; simpl; intros Hl.
  - by rewrite lookup_insert_eq.
  - rewrite lookup_insert_ne by set_solver. apply IH. set_solver.
Qed.

Lemma chain_size ns q : NoDup ns.*1 -> size (chain ns q) = length ns.
Proof.
  induction ns as [|[l e] ns IH]; simpl; [done|].
  intros [Hl Hnd]%NoDup_cons.
  rewrite map_size_insert_None by (by apply chain_lookup_fresh).
  by rewrite IH.
Qed.

Lemma chain_delete_first l e ns q :
  l ∉ ns.*1 -> delete l (chain ((l, e) :: ns) q) = chain ns q.
Proof.
  intros Hl. simpl. apply delete_insert_id. by apply chain_lookup_fresh.
Qed.

(** Redirecting the last [next]. *)
Lemma chain_relink pre l e q q' :
  l ∉ pre.*1 ->
  <[l := node_of e q']> (chain (pre ++ [(l, e)]) q) = chain (pre ++ [(l, e)]) q'.
Proof.
  induction pre as [|[l' e'] pre IH]; simpl; intros Hl.
  - apply insert_insert_eq.
  - rewrite insert_insert_ne by set_solver.
    rewrite IH by set_solver. by rewrite !first_or_app.
Qed.

Lemma chain_app ns post q :
  chain (ns ++ post) q = chain ns (first_or post q) ∪ chain post q.
Proof.
  induction ns as [|[l e] ns IH]; simpl; [by rewrite (left_id_L ∅ (∪))|].
  by rewrite IH, first_or_app, insert_union_l.
Qed.

(** Unlinking [l] behind [c]: redirect [c]'s [next], then drop [l]. *)
Lemma chain_unlink pre c ec l e post q :
  NoDup (pre ++ (c, ec) :: (l, e) :: post).*1 ->
  delete l (<[c := node_of ec (first_or post q)]> (chain (pre ++ (c, ec) :: (l, e) :: post) q)) =
  chain (pre ++ (c, ec) :: post) q.
Proof.
  induction pre as [|[l' e'] pre IH]; cbn [app chain first_or]; intros Hnd;
    rewrite ?fmap_app, !fmap_cons, !NoDup_cons in Hnd; cbn [fst] in Hnd.
  - rewrite insert_insert_eq, delete_insert_ne by set_solver. f_equal.
    apply delete_insert_id, chain_lookup_fresh. set_solver.
  - rewrite fmap_app, !fmap_cons in IH, Hnd. destruct Hnd as [Hn Hnd]; cbn [fst] in *.
    assert (c <> l' /\ l <> l') as [??] by (clear IH; set_solver).
    rewrite insert_insert_ne, delete_insert_ne by done.
    rewrite IH by done. by rewrite !first_or_app.
Qed.

Lemma last_loc_snoc ns l e : last_loc (ns ++ [(l, e)]) = Some l.
Proof. unfold last_loc. by rewrite last_snoc. Qed.

Lemma last_loc_app_cons ns x post : last_loc (ns ++ x :: post) = last_loc (x :: post).
Proof. unfold last_loc. by rewrite last_app_cons. Qed.

Lemma last_loc_elem ns l : last_loc ns = Some l -> l ∈ ns.*1.
Proof.
  destruct ns as [|x ns _] using rev_ind; [done|].
  destruct x as [l' e']. rewrite last_loc_snoc. intros [= ->].
  rewrite fmap_app. set_solver.
Qed.

Lemma last_loc_cons l e ns : ns <> [] -> last_loc ((l, e) :: ns) = last_loc ns.
Proof. by destruct ns as [|[??] ns]. Qed.
End chain.

#[export] Hint Resolve last_loc_elem : crowd.

Lemma heap_to_server ns : heap (to_server ns) = chain ns None.
Proof. done. Qed.
Lemma head_to_server ns : head (to_server ns) = first_or ns None.
Proof. done. Qed.
Lemma curr_to_server ns : curr (to_server ns) = last_loc ns.
Proof. done. Qed.
#[export] Hint Rewrite heap_to_server head_to_server curr_to_server : crowd.

(** ** Each operation on a represented list *)

Section operations.
Implicit Types (ns pre post : list (loc * entry)) (q : option loc) (e : entry) (l c : loc).

Lemma deref_node pre l e post :
  l ∉ pre.*1 ->
  deref (Some l) (to_server (pre ++ (l, e) :: post)) = Ok (node_of e (first_or post None)).
Proof. intros Hl. simpl. by rewrite chain_lookup. Qed.

Lemma deref_first l e ns :
  deref (Some l) (to_server ((l, e) :: ns)) = Ok (node_of e (first_or ns None)).
Proof. apply (deref_node [] l e ns). set_solver. Qed.

Lemma free_ok l n s :
  heap s !! l = Some n ->
  free (Some l) s = Ok (Server (delete l (heap s)) (head s) (curr s)).
Proof. intros H. unfold free. by rewrite H. Qed.

(** The sum [timestamp + TIMEVALIDITY] does not overflow. *)
Lemma time_ok_add e :
  time_ok e -> add_s32 (e_ts e) TIMEVALIDITY = Ok (e_ts e + TIMEVALIDITY).
Proof.
  intros H. apply add_s32_ok.
  unfold time_ok, INT32_MIN, INT32_MAX, TIMEVALIDITY in *. lia.
Qed.

Lemma search_hit_spec now ipv portv e q :
  time_ok e ->
  search_hit now ipv portv (node_of e q) = Ok (bool_decide (authorised now ipv portv e)).
Proof.
  intros H. unfold search_hit, node_of, authorised; cbn [ip port timestamp].
  rewrite time_ok_add by done. cbn.
  destruct (Z.eqb_spec (e_ip e) ipv), (Z.eqb_spec (e_port e) portv); cbn; f_equal; symmetry.
  1: destruct (Z.ltb_spec now (e_ts e + TIMEVALIDITY)).
  1: apply bool_decide_eq_true; lia.
  all: apply bool_decide_eq_false; lia.
Qed.

Lemma search_loop_spec fuel now ipv portv pre post :
  NoDup (pre ++ post).*1 -> Forall (fun x => time_ok x.2) post -> (length post < fuel)%nat ->
  search_loop fuel now ipv portv (to_server (pre ++ post)) (first_or post None) (last_loc pre) =
  Ok (match list_find (fun x => authorised now ipv portv x.2) post with
      | Some (i, (l, _)) => Some (l, last_loc (pre ++ take i post))
      | None => None
      end).
Proof.
  revert pre post. induction fuel as [|fuel IH]; intros pre post Hnd Hok Hf; [lia|].
  destruct post as [|[l e] post]; [done|].
  apply Forall_cons in Hok as [He Hok]; simpl in He, Hf.
  cbn [search_loop first_or]. rewrite deref_node.
  2: { clear IH. keys_solver. }
  cbn [mbind res_bind]. rewrite search_hit_spec by done. cbn [mbind res_bind list_find snd].
  destruct (decide (authorised now ipv portv e)) as [Ha|Ha].
  - rewrite bool_decide_eq_true_2 by done. cbn [take]. by rewrite app_nil_r.
  - rewrite bool_decide_eq_false_2 by done. cbn [next node_of].
    specialize (IH (pre ++ [(l, e)]) post).
    rewrite last_loc_snoc, <- app_assoc in IH. cbn [app] in IH.
    rewrite IH by (done || lia).
    destruct (list_find _ post) as [[i [l' e']]|]; [|done].
    cbn. by rewrite <- app_assoc.
Qed.

Lemma search_in_list_spec now ipv portv prev ns :
  NoDup ns.*1 -> Forall (fun x => time_ok x.2) ns ->
  search_in_list ipv portv now prev (to_server ns) =
  Ok (match list_find (fun x => authorised now ipv portv x.2) ns with
      | Some (i, (l, _)) => (Some l, last_loc (take i ns))
      | None => (None, prev)
      end).
Proof.
  intros Hnd Hok. unfold search_in_list. cbn [head heap to_server].
  rewrite chain_size by done.
  rewrite (search_loop_spec _ now ipv portv [] ns) by (done || lia).
  by destruct (list_find _ ns) as [[i [l e]]|].
Qed.

Lemma delete_first l e ns :
  l ∉ ns.*1 -> NoDup ns.*1 ->
  delete_from_list_element (Some l) None (to_server ((l, e) :: ns)) = Ok (0, to_server ns).
Proof.
  intros Hl Hnd. unfold delete_from_list_element. cbn [mbind res_bind].
  rewrite curr_to_server, head_to_server.
  destruct (decide (ns = [])) as [->|Hne].
  - rewrite decide_True by done. unfold free; cbn.
    rewrite lookup_insert_eq. cbn. by rewrite delete_insert_eq.
  - rewrite last_loc_cons, decide_False by (auto with crowd).
    rewrite decide_True by done.
    rewrite deref_first. cbn [mbind res_bind].
    unfold free, set_head. rewrite heap_to_server, curr_to_server. cbn [heap].
    cbn [chain]. rewrite lookup_insert_eq. cbn [mbind res_bind head curr].
    change (<[l:=_]> _) with (chain ((l, e) :: ns) None).
    rewrite chain_delete_first, last_loc_cons by done. done.
Qed.

(** Deleting behind a predecessor [c].  When the deleted node is the last one,
    [head] and [curr] become null although the nodes before it are still there. *)
Lemma delete_behind pre c ec l e post :
  NoDup (pre ++ (c, ec) :: (l, e) :: post).*1 ->
  delete_from_list_element (Some l) (Some c) (to_server (pre ++ (c, ec) :: (l, e) :: post)) =
  Ok (0, match post with
         | [] => Server (chain (pre ++ [(c, ec)]) None) None None
         | _ :: _ => to_server (pre ++ (c, ec) :: post)
         end).
Proof.
  intros Hnd. set (ns := pre ++ (c, ec) :: (l, e) :: post) in *.
  assert ((l ∉ (pre ++ [(c, ec)]).*1) /\ (c ∉ pre.*1) /\ (l ∉ post.*1)) as (Hl & Hc & Hlp).
  { unfold ns in Hnd. keys_solver. }
  assert (deref (Some l) (to_server ns) = Ok (node_of e (first_or post None))) as Hd.
  { unfold ns. rewrite (cons_middle (c, ec)), app_assoc. by apply deref_node. }
  unfold delete_from_list_element. rewrite Hd. cbn [mbind res_bind].
  unfold set_next. rewrite heap_to_server. unfold ns at 1. rewrite chain_lookup by done.
  cbn [mbind res_bind curr head next node_of ip port timestamp].
  rewrite curr_to_server, head_to_server.
  change (HistoryElement _ _ _ _) with (node_of ec (first_or post None)).
  assert (Hlk : <[c:=node_of ec (first_or post None)]> (chain ns None) !! l
                = Some (node_of e (first_or post None))).
  { rewrite lookup_insert_ne by (intros ->; apply Hl; rewrite fmap_app; set_solver).
    unfold ns. rewrite (cons_middle (c, ec)), app_assoc. by apply chain_lookup. }
  destruct post as [|y post].
  - replace (last_loc ns) with (Some l)
      by (unfold ns; by rewrite (cons_middle (c, ec)), app_assoc, last_loc_snoc).
    rewrite decide_True by done. cbn [mbind res_bind].
    erewrite free_ok by exact Hlk. cbn [heap head curr set_head set_curr]. unfold ns.
    change None with (first_or (@nil (loc * entry)) None) at 1. by rewrite chain_unlink.
  - assert (last_loc ns = last_loc (y :: post)) as Hlast.
    { unfold ns. by rewrite (cons_middle (c, ec)), (cons_middle (l, e)), !app_assoc,
        last_loc_app_cons. }
    rewrite Hlast, decide_False by (intros Heq; by apply Hlp, last_loc_elem).
    rewrite decide_False.
    2: { intros Heq. apply Hl. rewrite fmap_app. unfold ns in Heq.
         destruct pre as [|[??] ?]; cbn in Heq |- *; simplify_eq; set_solver. }
    cbn [mbind res_bind]. erewrite free_ok by exact Hlk. cbn [heap head curr].
    unfold ns at 1. rewrite chain_unlink by done. cbn [mbind res_bind].
    unfold to_server, ns.
    rewrite (cons_middle (c, ec) pre (y :: post)), app_assoc, last_loc_app_cons.
    by rewrite <- app_assoc, !first_or_app.
Qed.
End operations.

(** ** The cleaner *)

Section cleaner.
Implicit Types (ns pre post old fresh : list (loc * entry)) (e : entry) (l : loc).
Variable now : Z.

Let old_node (x : loc * entry) : Prop := expired now x.2.
Let time_ok_node (x : loc * entry) : Prop := time_ok x.2.

Lemma clean_test e (A : Type) (f g : res A) :
  time_ok e ->
  (t ← add_s32 (e_ts e) TIMEVALIDITY; if t <? now then f else g) =
  if decide (expired now e) then f else g.
Proof.
  intros H. rewrite time_ok_add by done. cbn. unfold expired.
  destruct (Z.ltb_spec (e_ts e + TIMEVALIDITY) now), (decide _); done || lia.
Qed.

(** Over entries still valid the loop only walks. *)
Lemma clean_loop_walk fuel pre mid post :
  NoDup (pre ++ mid ++ post).*1 ->
  Forall time_ok_node mid -> Forall (fun x => ~ old_node x) mid ->
  clean_loop (length mid + fuel) now (first_or (mid ++ post) None) (last_loc pre)
    (to_server (pre ++ mid ++ post)) =
  clean_loop fuel now (first_or post None) (last_loc (pre ++ mid))
    (to_server (pre ++ mid ++ post)).
Proof.
  revert pre. induction mid as [|[l e] mid IH]; intros pre Hnd Hok Hfresh.
  { by rewrite app_nil_r. }
  apply Forall_cons in Hok as [He Hok], Hfresh as [Hf Hfresh].
  cbn [app length Nat.add clean_loop first_or]. rewrite deref_node.
  2: { clear IH. keys_solver. }
  cbn [mbind res_bind timestamp node_of next]. rewrite clean_test by done.
  rewrite decide_False by done.
  specialize (IH (pre ++ [(l, e)])). rewrite last_loc_snoc, <- !app_assoc in IH.
  by apply IH.
Qed.

(** Expired entries at the front are deleted one by one. *)
Lemma clean_loop_drop fuel old ns :
  NoDup (old ++ ns).*1 -> Forall time_ok_node old -> Forall old_node old ->
  clean_loop (length old + fuel) now (first_or (old ++ ns) None) None (to_server (old ++ ns)) =
  clean_loop fuel now (first_or ns None) None (to_server ns).
Proof.
  induction old as [|[l e] old IH]; intros Hnd Hok Hold; [done|].
  apply Forall_cons in Hok as [He Hok], Hold as [Ho Hold].
  cbn [app] in Hnd. rewrite fmap_cons in Hnd. apply NoDup_cons in Hnd as [Hl Hnd].
  cbn [app length Nat.add clean_loop first_or]. rewrite deref_first.
  cbn [mbind res_bind timestamp node_of]. rewrite clean_test by done.
  rewrite decide_True by done. rewrite delete_first by done.
  cbn [mbind res_bind]. by apply IH.
Qed.

(** An expired entry behind a valid one: the node is freed, then read. *)
Lemma clean_loop_stale fuel pre l e post :
  NoDup (pre ++ (l, e) :: post).*1 -> pre <> [] -> time_ok e -> expired now e ->
  clean_loop (S fuel) now (Some l) (last_loc pre) (to_server (pre ++ (l, e) :: post)) =
  Err InvalidPointer.
Proof.
  intros Hnd Hne Hok Ho. destruct pre as [|[c ec] pre _] using rev_ind; [done|].
  rewrite last_loc_snoc. cbn [clean_loop].
  rewrite deref_node by keys_solver.
  cbn [mbind res_bind timestamp node_of]. rewrite clean_test, decide_True by done.
  rewrite <- app_assoc in *. cbn [app] in *. rewrite delete_behind by done.
  cbn [mbind res_bind].
  assert (l ∉ (pre ++ (c, ec) :: post).*1) as Hl.
  { keys_solver. }
  by destruct post as [|y post]; cbn [deref heap to_server];
    rewrite (chain_lookup_fresh _ None l Hl).
Qed.

(** Every list is expired entries, then valid ones, then nothing or an
    expired entry that stands behind a valid one. *)
Lemma split_expired ns :
  exists old fresh rest, ns = old ++ fresh ++ rest /\ Forall old_node old /\
    Forall (fun x => ~ old_node x) fresh /\
    (rest = [] \/ fresh <> [] /\ exists l e post, rest = (l, e) :: post /\ expired now e).
Proof.
  induction ns as [|[l e] ns (old & fresh & rest & -> & Hold & Hfresh & Hrest)].
  { exists [], [], []. naive_solver. }
  destruct (decide (expired now e)) as [He|He].
  - exists ((l, e) :: old), fresh, rest. split_and!; [done|by constructor|done|done].
  - destruct old as [|[l' e'] old].
    + exists [], ((l, e) :: fresh), rest. split_and!; [done|done|by constructor|].
      naive_solver.
    + apply Forall_cons in Hold as [Ho _].
      exists [], [(l, e)], ((l', e') :: old ++ fresh ++ rest).
      split_and!; [done|done|by repeat constructor|]. right. split; [done|]. eauto.
Qed.

Lemma filter_split old fresh :
  Forall old_node old -> Forall (fun x => ~ old_node x) fresh ->
  filter (fun x : loc * entry => ~ expired now x.2) (old ++ fresh) = fresh.
Proof.
  intros Ho Hf. rewrite filter_app, filter_none, filter_all; [done|done|].
  eapply Forall_impl; [exact Ho|]. intros x ??. done.
Qed.
End cleaner.

(** ** Properties of the list *)

Section properties.
Implicit Types (ns old fresh rest : list (loc * entry)) (e : entry) (l : loc).

(** The addresses are distinct and no timestamp is near the end of [time_t]. *)
Definition nodes_ok ns : Prop := NoDup ns.*1 /\ Forall (fun x => time_ok x.2) ns.

(** Oldest first. *)
Definition by_age ns : Prop := StronglySorted (fun x y => e_ts x.2 <= e_ts y.2) ns.

(** What is left of a list when the expired entries are dropped. *)
Definition unexpired (now : Z) ns : list (loc * entry) :=
  filter (fun x => ~ expired now x.2) ns.

Lemma clean_pass_split now old fresh rest :
  nodes_ok (old ++ fresh ++ rest) ->
  Forall (fun x => expired now x.2) old -> Forall (fun x => ~ expired now x.2) fresh ->
  (rest = [] \/ fresh <> [] /\ exists l e post, rest = (l, e) :: post /\ expired now e) ->
  let s := to_server (old ++ fresh ++ rest) in
  clean_pass now (head s) s =
  match rest with [] => Ok (to_server fresh) | _ => Err InvalidPointer end.
Proof.
  intros [Hnd Hok] Hold Hfresh Hrest. cbn zeta. unfold clean_pass.
  rewrite head_to_server, heap_to_server, chain_size by done.
  rewrite !Forall_app in Hok. destruct Hok as (Hok1 & Hok2 & Hok3).
  rewrite !length_app, plus_n_Sm. rewrite clean_loop_drop by done.
  rewrite fmap_app, NoDup_app in Hnd. destruct Hnd as (_ & _ & Hnd).
  rewrite plus_n_Sm.
  etrans; [by apply (clean_loop_walk now (S (length rest)) [] fresh rest)|].
  destruct Hrest as [->|(Hne & l & e & post & -> & He)]; cbn [app].
  - cbn. by rewrite app_nil_r.
  - apply Forall_cons in Hok3 as [Hoke _]. by apply clean_loop_stale.
Qed.

Lemma by_age_rest now fresh rest :
  by_age (fresh ++ rest) -> Forall (fun x => ~ expired now x.2) fresh ->
  (rest = [] \/ fresh <> [] /\ exists l e post, rest = (l, e) :: post /\ expired now e) ->
  rest = [].
Proof.
  intros Hs Hf [->|(Hne & l & e & post & -> & He)]; [done|exfalso].
  destruct fresh as [|[l' e'] fresh]; [done|].
  apply Forall_cons in Hf as [Hf _]. apply StronglySorted_inv in Hs as [_ Hs].
  rewrite Forall_app, Forall_cons in Hs. apply Hf. unfold expired in *. cbn in *. lia.
Qed.

Lemma by_age_app_r old fresh : by_age (old ++ fresh) -> by_age fresh.
Proof.
  induction old as [|x old IH]; [done|].
  intros Hs. apply StronglySorted_inv in Hs as [Hs _]. by apply IH.
Qed.

Lemma clean_pass_sorted now ns :
  nodes_ok ns -> by_age ns ->
  clean_pass now (head (to_server ns)) (to_server ns) = Ok (to_server (unexpired now ns)).
Proof.
  intros Hok Hs.
  destruct (split_expired now ns) as (old & fresh & rest & -> & Hold & Hfresh & Hrest).
  rewrite clean_pass_split by done.
  assert (rest = []) as -> by eauto using by_age_rest, by_age_app_r.
  unfold unexpired. by rewrite app_nil_r, (filter_split now old fresh).
Qed.

(** C6.  On a list whose entries are in order of age, one pass of the cleaner
    finishes without touching freed memory, frees exactly the expired entries
    and leaves the list of the others, in order, with [head] and [curr] right. *)
Theorem clean_pass_correct now ns :
  nodes_ok ns -> by_age ns ->
  clean_pass now (head (to_server ns)) (to_server ns) = Ok (to_server (unexpired now ns)).
Proof. apply clean_pass_sorted. Qed.

(** C7.  Without that order the pass is unsafe: it uses a node it has freed
    exactly when some expired entry stands behind an entry still valid. *)
Theorem clean_pass_use_after_free now ns :
  nodes_ok ns ->
  clean_pass now (head (to_server ns)) (to_server ns) = Err InvalidPointer <->
  exists i j x y, (i < j)%nat /\ ns !! i = Some x /\ ns !! j = Some y /\
    ~ expired now x.2 /\ expired now y.2.
Proof.
  intros Hok.
  destruct (split_expired now ns) as (old & fresh & rest & -> & Hold & Hfresh & Hrest).
  rewrite clean_pass_split by done. destruct Hrest as [->|(Hne & l & e & post & -> & He)].
  - split; [done|]. intros (i & j & x & y & Hij & Hx & Hy & Hnx & Hny). exfalso.
    rewrite app_nil_r in *.
    apply lookup_app_Some in Hx as [Hx|[Hx _]].
    { by apply Hnx, (Forall_lookup_1 _ _ _ _ Hold Hx). }
    apply lookup_app_Some in Hy as [Hy|[_ Hy]].
    { apply lookup_lt_Some in Hy. lia. }
    by apply (Forall_lookup_1 _ _ _ _ Hfresh Hy).
  - split; [intros _|done]. destruct fresh as [|x fresh]; [done|].
    exists (length old), (length old + length (x :: fresh))%nat, x, (l, e).
    apply Forall_cons in Hfresh as [Hx _].
    split_and!; [cbn; lia| | |done|done].
    + by rewrite lookup_app_r, Nat.sub_diag by lia.
    + rewrite lookup_app_r, lookup_app_r by (cbn; lia).
      by replace (length old + length (x :: fresh) - length old - length (x :: fresh))%nat
        with 0%nat by lia.
Qed.

(** ** Adding, searching, deleting *)

Lemma append_node_spec ns l ipv portv ts :
  NoDup (ns.*1 ++ [l]) -> ns <> [] ->
  append_node l ipv portv ts (to_server ns) =
  Ok (to_server (ns ++ [(l, Entry ipv portv (s32 ts))])).
Proof.
  intros Hnd Hne. destruct ns as [|[c ec] pre _] using rev_ind; [done|].
  unfold append_node. rewrite heap_to_server, head_to_server, curr_to_server, last_loc_snoc.
  cbn [curr]. unfold set_next. cbn [heap].
  assert (l <> c /\ (l ∉ (pre ++ [(c, ec)]).*1) /\ (c ∉ pre.*1)) as (Hlc & Hl & Hc).
  { keys_solver. }
  rewrite lookup_insert_ne, chain_lookup by done.
  cbn [mbind res_bind next node_of ip port timestamp head curr first_or].
  unfold to_server. rewrite last_loc_snoc, (chain_app (pre ++ [(c, ec)])), !first_or_app.
  cbn [chain first_or]. unfold set_curr. cbn [heap head]. do 2 f_equal.
  change (HistoryElement (e_ip ec) _ _ _) with (node_of ec (Some l)).
  change (HistoryElement ipv portv (s32 ts) None) with (node_of (Entry ipv portv (s32 ts)) None).
  rewrite insert_insert_ne, chain_relink by done.
  rewrite <- insert_union_r by (by apply chain_lookup_fresh). by rewrite (right_id_L ∅ (∪)).
Qed.

Lemma add_to_list_spec ns alloc ipv portv ts :
  NoDup ns.*1 -> (forall l, alloc = Some l -> heap (to_server ns) !! l = None) ->
  add_to_list alloc ipv portv ts (to_server ns) =
  Ok (alloc, to_server (match alloc with
                        | Some l => ns ++ [(l, Entry ipv portv (s32 ts))]
                        | None => ns
                        end)).
Proof.
  intros Hnd Hfresh. unfold add_to_list. rewrite head_to_server.
  destruct ns as [|[c ec] ns]; [by destruct alloc|]. cbn [first_or].
  destruct alloc as [l|]; [|done].
  rewrite append_node_spec; [done| |done].
  specialize (Hfresh l eq_refl). apply chain_fresh in Hfresh.
  apply NoDup_app; split_and!; [done|set_solver|apply NoDup_singleton].
Qed.

(** [add_to_list] appends: with memory, the new entry is the last one and
    every other is unchanged; without, the list is unchanged and the result null. *)
Theorem add_to_list_correct ns alloc ipv portv ts :
  NoDup ns.*1 -> (forall l, alloc = Some l -> heap (to_server ns) !! l = None) ->
  add_to_list alloc ipv portv ts (to_server ns) =
  Ok (alloc, to_server (match alloc with
                        | Some l => ns ++ [(l, Entry ipv portv (s32 ts))]
                        | None => ns
                        end)).
Proof. apply add_to_list_spec. Qed.

(** [search_in_list] returns the first entry for the pair that is still
    authorised, with its predecessor in [*prev], and null, leaving [*prev] alone,
    when there is none. *)
Theorem search_in_list_correct now ipv portv prev ns :
  nodes_ok ns ->
  exists p q, search_in_list ipv portv now prev (to_server ns) = Ok (p, q) /\
    match p with
    | None => q = prev /\ Forall (fun x => ~ authorised now ipv portv x.2) ns
    | Some l => exists pre e post, ns = pre ++ (l, e) :: post /\
        authorised now ipv portv e /\ q = last_loc pre /\
        Forall (fun x => ~ authorised now ipv portv x.2) pre
    end.
Proof.
  intros [Hnd Hok]. rewrite search_in_list_spec by done.
  destruct (list_find _ ns) as [[i [l e]]|] eqn:Hf.
  - apply list_find_Some in Hf as (Hi & Ha & Hpre).
    do 2 eexists; split; [done|]. cbn.
    exists (take i ns), e, (drop (S i) ns). split_and!; [|done|done|].
    + by rewrite take_drop_middle.
    + apply Forall_lookup. intros j y [Hy Hj]%lookup_take_Some. by eapply Hpre.
  - apply list_find_None in Hf. by do 2 eexists.
Qed.

(** [delete_from_list] removes the first authorised entry for the pair,
    except when that entry is the last of several: then [head] and [curr] become
    null, so every other entry is forgotten while its memory stays allocated. *)
Theorem delete_from_list_outcome now ipv portv pre l e post :
  nodes_ok (pre ++ (l, e) :: post) -> authorised now ipv portv e ->
  Forall (fun x => ~ authorised now ipv portv x.2) pre ->
  delete_from_list ipv portv now (to_server (pre ++ (l, e) :: post)) =
  Ok (0, if decide (pre <> [] /\ post = [])
         then Server (chain pre None) None None
         else to_server (pre ++ post)).
Proof.
  intros [Hnd Hok] Ha Hpre. unfold delete_from_list.
  rewrite search_in_list_spec by done.
  rewrite (proj2 (list_find_Some _ _ (length pre) (l, e))); cycle 1.
  { split_and!; [by rewrite list_lookup_middle|done|].
    intros j y Hj Hlt. rewrite lookup_app_l in Hj by done.
    by apply (Forall_lookup_1 _ _ _ _ Hpre Hj). }
  cbn [mbind res_bind]. rewrite take_app_length.
  destruct pre as [|[c ec] pre _] using rev_ind; cbn [app last_loc].
  - cbn [app] in *. rewrite delete_first by keys_solver. rewrite decide_False; naive_solver.
  - rewrite last_loc_snoc. rewrite <- app_assoc in *. cbn [app] in *.
    rewrite delete_behind by done. destruct post as [|y post].
    + rewrite decide_True; [done|]. split; [|done]. by destruct pre.
    + rewrite decide_False by naive_solver. by rewrite <- app_assoc.
Qed.

(** ** The lifetime of an authorisation *)

Lemma unexpired_ok now ns : nodes_ok ns -> nodes_ok (unexpired now ns).
Proof.
  intros [Hnd Hok]. split.
  - eapply sublist_NoDup; [exact Hnd|]. apply fmap_sublist, sublist_filter.
  - by apply Forall_filter.
Qed.

Lemma unexpired_by_age now ns : by_age ns -> by_age (unexpired now ns).
Proof.
  unfold by_age, unexpired. induction 1 as [|x ns Hs IH Hx]; [constructor|].
  rewrite filter_cons. destruct (decide _); [|done].
  constructor; [done|]. by apply Forall_filter.
Qed.

Lemma clean_list_spec clock ns :
  nodes_ok ns -> by_age ns ->
  clean_list clock (to_server ns) = Ok (to_server (fold_left (flip unexpired) clock ns)).
Proof.
  revert ns. induction clock as [|now clock IH]; intros ns Hok Hs; [done|].
  cbn [clean_list]. rewrite clean_pass_sorted by done. cbn [mbind res_bind].
  apply IH; auto using unexpired_ok, unexpired_by_age.
Qed.

Lemma unexpired_keeps now ns x : x ∈ ns -> ~ expired now x.2 -> x ∈ unexpired now ns.
Proof. intros ??. by apply list_elem_of_filter. Qed.

Lemma fold_unexpired clock ns :
  nodes_ok ns ->
  nodes_ok (fold_left (flip unexpired) clock ns) /\
  (forall x, x ∈ ns -> Forall (fun now => ~ expired now x.2) clock ->
     x ∈ fold_left (flip unexpired) clock ns).
Proof.
  revert ns. induction clock as [|now clock IH]; intros ns Hok; [done|]. cbn.
  destruct (IH (unexpired now ns)) as [Hok' Hin]; [by apply unexpired_ok|].
  split; [done|]. intros x Hx [??]%Forall_cons. apply Hin; [by apply unexpired_keeps|done].
Qed.

Lemma authorisation_kept ns l ipv portv ts clock now :
  nodes_ok (ns ++ [(l, Entry ipv portv ts)]) -> by_age (ns ++ [(l, Entry ipv portv ts)]) ->
  Forall (fun c => c <= now) clock -> now < ts + TIMEVALIDITY ->
  exists ns2,
    add_to_list (Some l) ipv portv ts (to_server ns) =
      Ok (Some l, to_server (ns ++ [(l, Entry ipv portv ts)])) /\
    clean_list clock (to_server (ns ++ [(l, Entry ipv portv ts)])) = Ok (to_server ns2) /\
    nodes_ok ns2 /\ Exists (fun x => authorised now ipv portv x.2) ns2.
Proof.
  intros Hok Hs Hclock Hnow. set (x := (l, Entry ipv portv ts)) in *.
  assert (Hts : s32 ts = ts).
  { destruct Hok as [_ Hok]. rewrite Forall_app, Forall_singleton in Hok.
    destruct Hok as [_ Hok]. apply wrap_s_id; [lia|].
    unfold time_ok, INT32_MIN, INT32_MAX, TIMEVALIDITY in *. cbn in Hok. lia. }
  assert (Hl : (NoDup ns.*1) /\ (l ∉ ns.*1)).
  { destruct Hok as [Hnd _]. unfold x in Hnd. split; keys_solver. }
  destruct (fold_unexpired clock (ns ++ [x]) Hok) as [Hok' Hin]. specialize (Hin x).
  exists (fold_left (flip unexpired) clock (ns ++ [x])). split_and!.
  - rewrite add_to_list_spec, Hts; [done|naive_solver|].
    intros ? [= <-]. apply chain_lookup_fresh. naive_solver.
  - by apply clean_list_spec.
  - done.
  - apply Exists_exists. exists x. split; [|done]. apply Hin; [set_solver|].
    eapply Forall_impl; [exact Hclock|].
    intros c Hc. unfold expired, x. cbn [e_ts snd]. cbn beta in Hc. lia.
Qed.

(** C10.  An authorisation holds for [TIMEVALIDITY] seconds: after [add_to_list]
    at time [ts], however often the cleaner ran in between, a search for the
    pair at a clock before [ts + TIMEVALIDITY] succeeds. *)
Theorem authorisation_lifetime ns l ipv portv ts clock now :
  nodes_ok (ns ++ [(l, Entry ipv portv ts)]) -> by_age (ns ++ [(l, Entry ipv portv ts)]) ->
  Forall (fun c => c <= now) clock -> now < ts + TIMEVALIDITY ->
  exists s1 s2 p q,
    add_to_list (Some l) ipv portv ts (to_server ns) = Ok (Some l, s1) /\
    clean_list clock s1 = Ok s2 /\
    search_in_list ipv portv now None s2 = Ok (Some p, q).
Proof.
  intros Hok Hs Hclock Hnow.
  destruct (authorisation_kept ns l ipv portv ts clock now)
    as (ns2 & Hadd & Hclean & [Hnd2 Hok2] & Hex); [done..|].
  apply Exists_exists in Hex as (x & Hx & Ha).
  assert (is_Some (list_find (fun y => authorised now ipv portv y.2) ns2)) as [[i [p e]] Hp]
    by (by apply list_find_elem_of with x).
  do 4 eexists. split; [exact Hadd|]. split; [exact Hclean|].
  rewrite search_in_list_spec by done. by rewrite Hp.
Qed.
End properties.

(** ** Witnesses *)

Ltac solve_nodes_ok :=
  split; [apply (bool_decide_unpack _); by vm_compute
         |repeat (constructor; [by vm_compute|]); constructor].
Ltac solve_by_age :=
  repeat constructor; by vm_compute.

(** A list with one expired entry (at 700) and two valid ones. *)
Definition ex_nodes : list (loc * entry) :=
  [(1%positive, Entry 7 80 0); (2%positive, Entry 9 443 500); (3%positive, Entry 9 80 650)].

Lemma clean_pass_correct_witness :
  nodes_ok ex_nodes /\ by_age ex_nodes /\
  clean_pass 700 (Some 1%positive) (to_server ex_nodes) =
  Ok (to_server [(2%positive, Entry 9 443 500); (3%positive, Entry 9 80 650)]).
Proof.
  assert (nodes_ok ex_nodes) as Hok by solve_nodes_ok.
  assert (by_age ex_nodes) as Hs by solve_by_age.
  split; [exact Hok|split; [exact Hs|]]. exact (clean_pass_correct 700 ex_nodes Hok Hs).
Defined.

(** An expired entry behind a valid one, as after the clock was set back. *)
Definition ex_unordered : list (loc * entry) :=
  [(2%positive, Entry 9 443 500); (1%positive, Entry 7 80 0)].

Lemma clean_pass_use_after_free_witness :
  clean_pass 700 (Some 2%positive) (to_server ex_unordered) = Err InvalidPointer.
Proof.
  assert (nodes_ok ex_unordered) as Hok by solve_nodes_ok.
  apply (proj2 (clean_pass_use_after_free 700 ex_unordered Hok)).
  exists 0%nat, 1%nat, (2%positive, Entry 9 443 500), (1%positive, Entry 7 80 0).
  split_and!; by vm_compute.
Defined.

Lemma add_to_list_correct_witness :
  add_to_list (Some 4%positive) 5 22 700 (to_server ex_nodes) =
  Ok (Some 4%positive, to_server (ex_nodes ++ [(4%positive, Entry 5 22 700)])).
Proof.
  refine (add_to_list_correct ex_nodes (Some 4%positive) 5 22 700 _ _).
  - apply (bool_decide_unpack _); by vm_compute.
  - intros l [= <-]. by vm_compute.
Defined.

Lemma search_in_list_correct_witness :
  exists p q, search_in_list 9 443 700 None (to_server ex_nodes) = Ok (p, q) /\
    p = Some 2%positive /\ q = Some 1%positive.
Proof.
  assert (nodes_ok ex_nodes) as Hok by solve_nodes_ok.
  destruct (search_in_list_correct 700 9 443 None ex_nodes Hok) as (p & q & Heq & _).
  exists p, q. split; [exact Heq|].
  assert (Ok (Some 2%positive, Some 1%positive) = Ok (p, q)) as [= -> ->]
    by (rewrite <- Heq; by vm_compute).
  done.
Defined.

Lemma delete_from_list_outcome_witness :
  delete_from_list 9 80 700 (to_server ex_nodes) =
  Ok (0, Server (chain [(1%positive, Entry 7 80 0); (2%positive, Entry 9 443 500)] None) None None).
Proof.
  refine (delete_from_list_outcome 700 9 80
    [(1%positive, Entry 7 80 0); (2%positive, Entry 9 443 500)] 3%positive (Entry 9 80 650) [] _ _ _).
  - solve_nodes_ok.
  - split_and!; by vm_compute.
  - repeat constructor; unfold authorised; cbn; lia.
Defined.

Lemma authorisation_lifetime_witness :
  exists s1 s2 p q,
    add_to_list (Some 4%positive) 5 22 700 (to_server ex_nodes) = Ok (Some 4%positive, s1) /\
    clean_list [710; 1250] s1 = Ok s2 /\
    search_in_list 5 22 1299 None s2 = Ok (Some p, q).
Proof.
  apply (authorisation_lifetime ex_nodes 4%positive 5 22 700 [710; 1250] 1299).
  - solve_nodes_ok.
  - solve_by_age.
  - repeat constructor; by vm_compute.
  - by vm_compute.
Defined.
