(* ===== verification/HistoryThreads.v ===== *)
(** * The three threads over the authorisation history

    [jni/ipqserver/server.c] runs a reader ([read_java], the only writer of the
    list), a sender ([send_ipq], which only searches) and a cleaner
    ([clean_list], the only deleter).  This file interleaves them at the accesses
    to the variables they share.  [head] and [curr] are also used outside [lock]
    - by the test [NULL == head] of [add_to_list], by [create_list] and by the
    cleaner's [ptr = head] - so a step makes at most one access to one of them,
    inside the lock as well.  The nodes are only used under the lock once they are
    in the list, so a step may use several.  A chained assignment stores from the
    inside out.  The clock may be set to any time at any moment. *)

From stdpp Require Import base list gmap relations.
From Stdlib Require Import ZArith Lia Sorted.
From S2P Require Import Prelude HistoryList.

Open Scope Z_scope.

(** ** Configurations *)

(** Where the reader is in handling one answer: not in [add_to_list]; holding
    the clock value it read; past the test of [head], in either branch; in
    [create_list] with a node to store in [curr], then in [head]. *)
Inductive reader_pc : Type :=
  | ReaderIdle
  | ReaderTimed (ipv portv ts : Z)
  | ReaderCreate (ipv portv ts : Z)
  | ReaderLink (l : loc)
  | ReaderLinkHead (l : loc)
  | ReaderAppend (ipv portv ts : Z).

(** The cleaner: sleeping; holding the [head] it read; holding the clock as well,
    before the lock; at the test of the inner loop; in [delete_from_list_element]
    before the test of [curr], before each of the two stores behind it, before the
    test of [head], the store behind it, and [free]; back from the call. *)
Inductive cleaner_pc : Type :=
  | CleanerSleep
  | CleanerRead (ptr : option loc)
  | CleanerWait (ptr : option loc) (now : Z)
  | CleanerLoop (now : Z) (ptr prev : option loc)
  | CleanerDelete (now : Z) (l : loc) (prev : option loc)
  | CleanerClear (now : Z) (l : loc) (prev : option loc)
  | CleanerClearCurr (now : Z) (l : loc) (prev : option loc)
  | CleanerHead (now : Z) (l : loc) (prev : option loc)
  | CleanerSetHead (now : Z) (l : loc) (prev : option loc)
  | CleanerFree (now : Z) (l : loc) (prev : option loc)
  | CleanerAfter (now : Z) (l : loc) (prev : option loc).

(** [set_back]: the clock has gone back at some time. *)
Record conf := Conf {
  mem : server;
  clock : Z;
  set_back : bool;
  reader : reader_pc;
  cleaner : cleaner_pc
}.

Definition init_conf (now : Z) : conf := Conf init_server now false ReaderIdle CleanerSleep.

(** A value of [time_t], and the latest for which [timestamp + TIMEVALIDITY] is one. *)
Definition stamp_ok (t : Z) : Prop := INT32_MIN <= t <= INT32_MAX.
Definition CLOCK_MAX : Z := INT32_MAX - TIMEVALIDITY.

(** ** Steps *)

(** The cleaner holds [lock]; the other threads take and release it in one step. *)
Definition locked (c : cleaner_pc) : bool :=
  match c with CleanerSleep | CleanerRead _ | CleanerWait _ _ => false | _ => true end.

(** [if(prev != NULL) prev->next = del->next;] *)
Definition relink (l : loc) (prev : option loc) (m : server) : res server :=
  match prev with
  | Some _ => d ← deref (Some l) m; set_next prev (next d) m
  | None => Ok m
  end.

(** A step of [clean_list].  After [free] the pointer to the node is indeterminate,
    whatever is allocated at its address. *)
Definition cleaner_step (time : Z) (c : cleaner_pc) (m : server) : res (server * cleaner_pc) :=
  match c with
  | CleanerSleep => Ok (m, CleanerRead (head m))
  | CleanerRead ptr => Ok (m, CleanerWait ptr time)
  | CleanerWait ptr now => Ok (m, CleanerLoop now ptr None)
  | CleanerLoop now None prev => Ok (m, CleanerSleep)
  | CleanerLoop now (Some l) prev =>
      e ← deref (Some l) m;
      t ← add_s32 (timestamp e) TIMEVALIDITY;
      if t <? now then m ← relink l prev m; Ok (m, CleanerDelete now l prev)
      else Ok (m, CleanerLoop now (next e) (Some l))
  | CleanerDelete now l prev =>
      Ok (m, if decide (Some l = curr m) then CleanerClear now l prev else CleanerHead now l prev)
  | CleanerClear now l prev => Ok (set_head None m, CleanerClearCurr now l prev)
  | CleanerClearCurr now l prev => Ok (set_curr None m, CleanerFree now l prev)
  | CleanerHead now l prev =>
      Ok (m, if decide (Some l = head m) then CleanerSetHead now l prev else CleanerFree now l prev)
  | CleanerSetHead now l prev =>
      d ← deref (Some l) m; Ok (set_head (next d) m, CleanerFree now l prev)
  | CleanerFree now l prev => m ← free (Some l) m; Ok (m, CleanerAfter now l prev)
  | CleanerAfter now l None => Ok (m, CleanerLoop now (head m) None)
  | CleanerAfter now l (Some _) => Err InvalidPointer
  end.

(** The outcome of a step is the next configuration or the undefined behaviour
    the step commits. *)
Inductive step : conf -> res conf -> Prop :=
  | StepTick m now now' b r c :
      stamp_ok now' ->
      step (Conf m now b r c) (Ok (Conf m now' (b || (now' <? now)) r c))
  | StepReaderTime m now b c ipv portv :
      step (Conf m now b ReaderIdle c) (Ok (Conf m now b (ReaderTimed ipv portv now) c))
  | StepReaderTest m now b c ipv portv ts :
      step (Conf m now b (ReaderTimed ipv portv ts) c)
           (Ok (Conf m now b (match head m with
                              | None => ReaderCreate ipv portv ts
                              | Some _ => ReaderAppend ipv portv ts
                              end) c))
  | StepReaderNoNode m now b c ipv portv ts :
      step (Conf m now b (ReaderCreate ipv portv ts) c) (Ok (Conf m now b ReaderIdle c))
  | StepReaderNode m now b c ipv portv ts l :
      heap m !! l = None ->
      step (Conf m now b (ReaderCreate ipv portv ts) c)
           (Ok (Conf (Server (<[l := HistoryElement ipv portv (s32 ts) None]> (heap m)) (head m) (curr m))
                     now b (ReaderLink l) c))
  | StepReaderLink m now b c l :
      step (Conf m now b (ReaderLink l) c) (Ok (Conf (set_curr (Some l) m) now b (ReaderLinkHead l) c))
  | StepReaderLinkHead m now b c l :
      step (Conf m now b (ReaderLinkHead l) c) (Ok (Conf (set_head (Some l) m) now b ReaderIdle c))
  | StepReaderNoMemory m now b c ipv portv ts :
      step (Conf m now b (ReaderAppend ipv portv ts) c) (Ok (Conf m now b ReaderIdle c))
  | StepReaderAppend m now b c ipv portv ts l :
      locked c = false -> heap m !! l = None ->
      step (Conf m now b (ReaderAppend ipv portv ts) c)
           ((fun m' => Conf m' now b ReaderIdle c) <$> append_node l ipv portv ts m)
  | StepCleaner m now b r c :
      step (Conf m now b r c) ((fun '(m', c') => Conf m' now b r c') <$> cleaner_step now c m)
  | StepSenderSearch m now b r c ipv portv prev :
      locked c = false ->
      step (Conf m now b r c) ((fun _ => Conf m now b r c) <$> search_in_list ipv portv now prev m).

Inductive reachable (start : conf) : conf -> Prop :=
  | reach_refl : reachable start start
  | reach_step a b : reachable start a -> step a (Ok b) -> reachable start b.

(** A run, given by steps whose outcomes compute to the next configuration. *)
Lemma reach_eval start a o b : reachable start a -> step a o -> o = Ok b -> reachable start b.
Proof. intros Ha Hs ->. by eapply reach_step. Qed.

(** ** The functions of the list, without interruption *)

Definition steps (a b : conf) : Prop := rtc (fun a b => step a (Ok b)) a b.

Lemma steps_cleaner m now b r c m' c' d :
  cleaner_step now c m = Ok (m', c') -> steps (Conf m' now b r c') d -> steps (Conf m now b r c) d.
Proof.
  intros H Hd. eapply rtc_l; [|exact Hd]. pose proof (StepCleaner m now b r c) as Hs. by rewrite H in Hs.
Qed.

(** [create_list] is the reader's three steps. *)
Lemma create_list_steps m now b c ipv portv ts l :
  heap m !! l = None ->
  steps (Conf m now b (ReaderCreate ipv portv ts) c)
        (Conf (create_list (Some l) ipv portv ts m).2 now b ReaderIdle c).
Proof.
  intros Hl. eapply rtc_l; [by apply StepReaderNode|]. eapply rtc_l; [apply StepReaderLink|].
  eapply rtc_l; [apply StepReaderLinkHead|]. apply rtc_refl.
Qed.

(** [delete_from_list_element] is the cleaner's steps from the relinking to [free]. *)
Lemma delete_steps m now b r t l prev m1 m2 rc :
  relink l prev m = Ok m1 -> delete_from_list_element (Some l) prev m = Ok (rc, m2) ->
  steps (Conf m1 now b r (CleanerDelete t l prev)) (Conf m2 now b r (CleanerAfter t l prev)).
Proof.
  unfold delete_from_list_element. intros H1 H.
  assert ((match prev with Some _ => d ← deref (Some l) m; set_next prev (next d) m | None => Ok m end) = Ok m1)
    as H1' by (by destruct prev).
  rewrite H1', bind_Ok in H. clear H1 H1'. bind_inv H. injection H as <- <-.
  eapply steps_cleaner; [done|]. destruct (decide _) as [Hc|Hc].
  - injection Hok as <-. eapply steps_cleaner; [done|]. eapply steps_cleaner; [done|].
    eapply steps_cleaner; [|apply rtc_refl]. cbn [cleaner_step].
    change (set_curr None (set_head None m1)) with (set_head None (set_curr None m1)). by rewrite Hok0.
  - eapply steps_cleaner; [done|]. destruct (decide _) as [Hh|Hh].
    + apply res_bind_ok in Hok as (d & Hd & [= <-]). eapply steps_cleaner; [cbn [cleaner_step]; by rewrite Hd|].
      eapply steps_cleaner; [|apply rtc_refl]. cbn [cleaner_step]. by rewrite Hok0.
    + injection Hok as <-. eapply steps_cleaner; [|apply rtc_refl]. cbn [cleaner_step]. by rewrite Hok0.
Qed.

(** A pass of [clean_list] is the cleaner's steps from the lock to the unlock. *)
Lemma clean_pass_steps fuel m now b r t ptr prev m' :
  clean_loop fuel t ptr prev m = Ok m' ->
  steps (Conf m now b r (CleanerLoop t ptr prev)) (Conf m' now b r CleanerSleep).
Proof.
  revert ptr prev m. induction fuel as [|fuel IH]; intros ptr prev m H; [done|].
  cbn [clean_loop] in H. destruct ptr as [l|]; [|injection H as ->; eapply steps_cleaner; [done|apply rtc_refl]].
  apply res_bind_ok in H as (e & He & H). apply res_bind_ok in H as (s & Hs & H).
  destruct (s <? t) eqn:Hlt.
  - apply res_bind_ok in H as ([rc m2] & Hdel & H).
    destruct (relink l prev m) as [m1|err|] eqn:Hr; cycle 1.
    1-2: unfold delete_from_list_element in Hdel; unfold relink in Hr; destruct prev; [by rewrite Hr in Hdel|done].
    eapply steps_cleaner; [cbn [cleaner_step]; by rewrite He, bind_Ok, Hs, bind_Ok, Hlt, Hr|].
    unfold steps; etrans; [by eapply delete_steps|]. destruct prev as [p|].
    + exfalso. apply res_bind_ok in H as (e' & He' & _). unfold delete_from_list_element in Hdel.
      bind_inv Hdel. injection Hdel as _ <-. unfold free in Hok1. unfold deref in He'.
      destruct (heap a0 !! l) eqn:Hl; [|done]. injection Hok1 as <-. cbn [heap] in He'. by rewrite lookup_delete_eq in He'.
    + eapply steps_cleaner; [done|]. by apply IH.
  - eapply steps_cleaner; [cbn [cleaner_step]; by rewrite He, bind_Ok, Hs, bind_Ok, Hlt|]. by apply IH.
Qed.

(** ** The invariant

    The list in memory, [ns], is what [head] reaches.  Other nodes may be allocated:
    one that is about to be linked, one that is about to be freed, and those a pass
    over an unordered list has lost. *)

Implicit Types (ns pre post : list (loc * entry)) (r : reader_pc) (m : server).

Definition linking r (l : loc) : Prop := r = ReaderLink l \/ r = ReaderLinkHead l.

(** [curr] is null, or it is the last node, or the one that is about to be linked. *)
Definition curr_ok m ns r : Prop :=
  curr m = None \/ curr m = last_loc ns \/ ns = [] /\ exists l, r = ReaderLinkHead l /\ curr m = Some l.

Definition reader_ok m ns r : Prop :=
  match r with
  | ReaderIdle => True
  | ReaderTimed _ _ ts | ReaderAppend _ _ ts => stamp_ok ts
  | ReaderCreate _ _ ts => ns = [] /\ stamp_ok ts
  | ReaderLink l | ReaderLinkHead l =>
      ns = [] /\ exists e, heap m !! l = Some (node_of e None) /\ stamp_ok (e_ts e)
  end.

(** A node that is no longer in the list, and not freed yet. *)
Definition victim m ns r (l : loc) : Prop := is_Some (heap m !! l) /\ (l ∉ ns.*1) /\ ~ linking r l.

Definition first_is ns (l : loc) : Prop := exists e rest, ns = (l, e) :: rest.

Definition cleaner_ok m ns r c : Prop :=
  match c with
  | CleanerSleep | CleanerAfter _ _ None => curr_ok m ns r
  | CleanerRead ptr | CleanerWait ptr _ | CleanerLoop _ ptr None =>
      curr_ok m ns r /\ (ptr = None \/ ptr = first_or ns None)
  | CleanerLoop _ ptr (Some p) =>
      curr_ok m ns r /\ exists pre ep post, ns = pre ++ (p, ep) :: post /\ ptr = first_or post None
  | CleanerDelete _ l None => curr_ok m ns r /\ first_is ns l
  | CleanerClear _ l None => ns.*1 = [l] /\ curr m = Some l
  | CleanerHead _ l None | CleanerSetHead _ l None => curr_ok m ns r /\ curr m <> Some l /\ first_is ns l
  | CleanerFree _ l None => curr_ok m ns r /\ victim m ns r l
  | CleanerClearCurr _ l _ | CleanerDelete _ l (Some _) | CleanerClear _ l (Some _)
  | CleanerHead _ l (Some _) | CleanerFree _ l (Some _) => victim m ns r l
  | CleanerSetHead _ l (Some _) => False
  | CleanerAfter _ _ (Some _) => True
  end.

(** While the clock only goes forward, the list is in order of age, and the cleaner
    deletes nothing behind a node it keeps. *)
Definition bound (now : Z) r : Z :=
  match r with
  | ReaderTimed _ _ ts | ReaderCreate _ _ ts | ReaderAppend _ _ ts => ts
  | _ => now
  end.

Definition keeps_first ns c : Prop :=
  match c with
  | CleanerLoop t _ (Some p) => exists pre ep post, ns = pre ++ (p, ep) :: post /\ ~ expired t ep
  | CleanerDelete _ _ (Some _) | CleanerClear _ _ (Some _) | CleanerClearCurr _ _ (Some _)
  | CleanerHead _ _ (Some _) | CleanerSetHead _ _ (Some _) | CleanerFree _ _ (Some _)
  | CleanerAfter _ _ (Some _) => False
  | _ => True
  end.

Definition age_ok m ns (now : Z) r c : Prop :=
  by_age ns /\ Forall (fun x => e_ts x.2 <= bound now r) ns /\ bound now r <= now /\
  (forall l n, linking r l -> heap m !! l = Some n -> timestamp n <= now) /\ keeps_first ns c.

Record conf_inv (k : conf) ns : Prop := {
  inv_nodes : NoDup ns.*1;
  inv_heap : chain ns None ⊆ heap (mem k);
  inv_head : head (mem k) = first_or ns None;
  inv_stamps : Forall (fun x => stamp_ok (e_ts x.2)) ns;
  inv_clock : stamp_ok (clock k);
  inv_reader : reader_ok (mem k) ns (reader k);
  inv_cleaner : cleaner_ok (mem k) ns (reader k) (cleaner k);
  inv_age : set_back k = false -> age_ok (mem k) ns (clock k) (reader k) (cleaner k)
}.

Lemma init_inv now : stamp_ok now -> conf_inv (init_conf now) [].
Proof.
  intros Hnow. split; cbn; try done.
  - by constructor.
  - by left.
  - intros _. unfold age_ok, linking. split_and!; cbn; first [done | constructor | lia | naive_solver].
Qed.

(** ** Memory *)

Section memory.
Implicit Types (l : loc) (e : entry) (h : gmap loc history_element).

Lemma chain_node pre l e post h :
  NoDup (pre ++ (l, e) :: post).*1 -> chain (pre ++ (l, e) :: post) None ⊆ h ->
  h !! l = Some (node_of e (first_or post None)).
Proof. intros Hnd Hsub. eapply lookup_weaken; [|exact Hsub]. apply chain_lookup. keys_solver. Qed.

Lemma chain_tail l e ns h : NoDup ((l, e) :: ns).*1 -> chain ((l, e) :: ns) None ⊆ h -> chain ns None ⊆ h.
Proof. intros Hnd Hsub. etrans; [|exact Hsub]. apply insert_subseteq, chain_lookup_fresh. keys_solver. Qed.

Lemma chain_alloc ns l n h : chain ns None ⊆ h -> h !! l = None -> chain ns None ⊆ <[l := n]> h.
Proof. intros Hsub Hl. etrans; [exact Hsub|]. by apply insert_subseteq. Qed.

Lemma chain_free ns l h : chain ns None ⊆ h -> (l ∉ ns.*1) -> chain ns None ⊆ delete l h.
Proof.
  intros Hsub Hl. apply map_subseteq_spec. intros i n Hi. rewrite lookup_delete_ne.
  - by eapply lookup_weaken.
  - intros <-. by rewrite chain_lookup_fresh in Hi.
Qed.

Lemma chain_relinked pre p ep l e post h :
  NoDup (pre ++ (p, ep) :: (l, e) :: post).*1 -> chain (pre ++ (p, ep) :: (l, e) :: post) None ⊆ h ->
  chain (pre ++ (p, ep) :: post) None ⊆ <[p := node_of ep (first_or post None)]> h.
Proof.
  intros Hnd Hsub. rewrite <- (chain_unlink pre p ep l e post None) by done.
  etrans; [apply delete_subseteq|]. by apply insert_mono.
Qed.

Lemma chain_appended pre p ep l n h :
  NoDup (pre ++ [(p, ep)]).*1 -> chain (pre ++ [(p, ep)]) None ⊆ h -> h !! l = None ->
  chain ((pre ++ [(p, ep)]) ++ [(l, n)]) None ⊆ <[p := node_of ep (Some l)]> (<[l := node_of n None]> h).
Proof.
  intros Hnd Hsub Hl. assert (p <> l).
  { intros ->. by rewrite (chain_node pre l ep [] h) in Hl. }
  rewrite chain_app. cbn [first_or chain]. rewrite <- (chain_relink pre p ep None (Some l)) by keys_solver.
  apply map_union_least.
  - apply insert_mono. by apply chain_alloc.
  - apply insert_subseteq_l; [|apply map_empty_subseteq]. by rewrite lookup_insert_ne, lookup_insert_eq.
Qed.
End memory.

(** ** Undefined behaviour *)

(** The reader has seen a node, and [curr] is null: the cleaner has emptied the list
    since, or it has stored its null after [create_list] had linked a node. *)
Definition append_raced (k : conf) : Prop :=
  locked (cleaner k) = false /\ curr (mem k) = None /\ exists ipv portv ts, reader k = ReaderAppend ipv portv ts.

(** The cleaner has freed a node behind another and goes on from the freed one. *)
Definition freed_behind (k : conf) : Prop := exists t l p, cleaner k = CleanerAfter t l (Some p).

(** A node is so late that [timestamp + TIMEVALIDITY] is not a [time_t]. *)
Definition late (k : conf) : Prop := exists l n, heap (mem k) !! l = Some n /\ CLOCK_MAX < timestamp n.

Definition step_ok (k : conf) (o : res conf) : Prop :=
  match o with
  | Ok k' => exists ns', conf_inv k' ns'
  | Err e =>
      e = NullDeref /\ append_raced k \/ e = InvalidPointer /\ freed_behind k \/ e = SignedOverflow /\ late k
  | Diverges => False
  end.

Lemma stamp_add t :
  stamp_ok t ->
  add_s32 t TIMEVALIDITY = Ok (t + TIMEVALIDITY) /\ t <= CLOCK_MAX \/
  add_s32 t TIMEVALIDITY = Err SignedOverflow /\ CLOCK_MAX < t.
Proof.
  unfold stamp_ok, CLOCK_MAX, TIMEVALIDITY, INT32_MIN, INT32_MAX. intros H.
  destruct (decide (t <= 2 ^ 31 - 1 - 600)); [left|right]; (split; [|lia]).
  - apply add_s32_ok. unfold INT32_MIN, INT32_MAX. lia.
  - unfold add_s32. destruct (in_s32 _) eqn:E; [|done].
    apply in_s32_spec in E. unfold INT32_MIN, INT32_MAX in E. lia.
Qed.

(** A step of the cleaner that only moves. *)
Lemma cleaner_moves m now b r c c' ns :
  conf_inv (Conf m now b r c) ns -> cleaner_ok m ns r c' -> (age_ok m ns now r c -> keeps_first ns c') ->
  exists ns', conf_inv (Conf m now b r c') ns'.
Proof.
  intros [Hn Hh Hhd Hs Hc Hr Hcl Ha] Hok Hk. exists ns. split; try done. cbn in *.
  intros Hb. specialize (Ha Hb). specialize (Hk Ha). by destruct Ha as (? & ? & ? & ? & _).
Qed.

Lemma not_linking m ns r l : reader_ok m ns r -> ns <> [] -> ~ linking r l.
Proof. intros Hr Hne [-> | ->]; destruct Hr; done. Qed.

(** The test of the inner loop. *)
Lemma cleaner_test_ok m now b r t l prev ns :
  let k := Conf m now b r (CleanerLoop t (Some l) prev) in
  conf_inv k ns -> step_ok k ((fun '(m', c') => Conf m' now b r c') <$> cleaner_step now (CleanerLoop t (Some l) prev) m).
Proof.
  intros k Hinv. pose proof Hinv as [Hn Hh Hhd Hs Hc Hr Hcl Ha]. cbn in Hn, Hh, Hhd, Hs, Hc, Hr, Hcl, Ha.
  assert (exists pre e post, ns = pre ++ (l, e) :: post /\
    match prev with Some p => exists pre' ep, pre = pre' ++ [(p, ep)] | None => pre = [] end /\ curr_ok m ns r) as Hat.
  { destruct prev as [p|]; [destruct Hcl as (Hcurr & pre & ep & post & -> & Hl)|destruct Hcl as (Hcurr & [Hl|Hl])].
    - destruct post as [|[l' e] post]; [done|]. injection Hl as <-.
      exists (pre ++ [(p, ep)]), e, post. rewrite <- app_assoc. split_and!; [done|by eauto|done].
    - done.
    - destruct ns as [|[l' e] ns]; [done|]. injection Hl as <-. by exists [], e, ns. }
  destruct Hat as (pre & e & post & -> & Hprev & Hcurr).
  pose proof (chain_node _ _ _ _ _ Hn Hh) as Hl. cbn [cleaner_step deref]. rewrite Hl. cbn [mbind res_bind timestamp node_of].
  assert (stamp_ok (e_ts e)) as He.
  { rewrite Forall_app, Forall_cons in Hs. apply Hs. }
  destruct (stamp_add (e_ts e) He) as [[-> Hle]|[-> Hlate]]; cycle 1.
  { do 2 right. split; [done|]. by exists l, (node_of e (first_or post None)). }
  cbn [mbind res_bind]. destruct (Z.ltb_spec (e_ts e + TIMEVALIDITY) t) as [Hex|Hex].
  - unfold relink. destruct prev as [p|]; cbn [deref]; rewrite ?Hl; cbn [mbind res_bind].
    + destruct Hprev as (pre' & ep & ->). rewrite <- app_assoc in *. cbn [app] in *.
      cbn [set_next next node_of]. rewrite (chain_node _ _ _ _ _ Hn Hh). cbn.
      exists (pre' ++ (p, ep) :: post).
      assert (NoDup (pre' ++ (p, ep) :: post).*1 /\ (l ∉ (pre' ++ (p, ep) :: post).*1)) as [Hn' Hl'].
      { clear -Hn. rewrite !fmap_app, !fmap_cons in *. cbn [fst] in *.
        rewrite !NoDup_app, !NoDup_cons in *. set_solver. }
      split; cbn; try done.
      * by apply (chain_relinked _ _ _ l e).
      * by destruct pre' as [|[??]].
      * rewrite !Forall_app, !Forall_cons in *. tauto.
      * by destruct r, pre'; try destruct Hr.
      * split_and!; [|done|apply (not_linking _ _ _ _ Hr); by destruct pre'].
        cbn. apply lookup_insert_is_Some'. right. by rewrite Hl.
      * intros Hb. destruct (Ha Hb) as (Hage & _ & _ & _ & pre2 & ep2 & post2 & Heq & Hnex).
        destruct Hnex. pose proof (chain_node pre' p ep ((l, e) :: post) _ Hn Hh) as Hp. rewrite Heq in Hn, Hh.
        rewrite (chain_node pre2 p ep2 post2 _ Hn Hh) in Hp. injection Hp as _ _ Hts _.
        apply by_age_app_r, StronglySorted_inv in Hage as [_ [Hage _]%Forall_cons]. unfold expired. cbn in *. lia.
    + subst pre. eapply (cleaner_moves _ _ _ _ _ _ _ Hinv); [|done]. split; [done|]. by exists e, post.
  - cbn [fmap]. eapply (cleaner_moves _ _ _ _ _ _ _ Hinv).
    + split; [done|]. by exists pre, e, post.
    + intros _. exists pre, e, post. split; [done|]. unfold expired. lia.
Qed.

(** The two stores of [curr = prev = head = NULL]. *)
Lemma clear_head_ok m now b r t l prev ns :
  conf_inv (Conf m now b r (CleanerClear t l prev)) ns ->
  conf_inv (Conf (set_head None m) now b r (CleanerClearCurr t l prev)) [].
Proof.
  intros [Hn Hh Hhd Hs Hc Hr Hcl Ha]; cbn in *. split; cbn; try done; [constructor|apply map_empty_subseteq| | |].
  - destruct r; try done; cbn in *; naive_solver.
  - destruct prev as [p|]; [destruct Hcl as (? & ? & ?); split_and!; [done|apply not_elem_of_nil|done]|].
    destruct Hcl as [Hl Hcurr]. destruct ns as [|[l' e] ns]; [done|]. injection Hl as -> _. split_and!.
    + cbn. by rewrite (chain_node [] l e ns _ Hn Hh).
    + apply not_elem_of_nil.
    + by apply (not_linking _ _ _ _ Hr).
  - intros Hb. destruct (Ha Hb) as (_ & _ & Hle & Hlink & Hk). split_and!; [constructor|constructor|done|done|by destruct prev].
Qed.

Lemma clear_curr_ok m now b r t l prev ns :
  conf_inv (Conf m now b r (CleanerClearCurr t l prev)) ns ->
  conf_inv (Conf (set_curr None m) now b r (CleanerFree t l prev)) ns.
Proof.
  intros [Hn Hh Hhd Hs Hc Hr Hcl Ha]; cbn in *. split; try done; cbn in *.
  destruct prev; [done|]. split; [by left|done].
Qed.

(** [head = del->next] *)
Lemma set_head_ok m now b r t l ns :
  conf_inv (Conf m now b r (CleanerSetHead t l None)) ns ->
  exists n, heap m !! l = Some n /\ exists ns', conf_inv (Conf (set_head (next n) m) now b r (CleanerFree t l None)) ns'.
Proof.
  intros [Hn Hh Hhd Hs Hc Hr Hcl Ha]; cbn in *. destruct Hcl as (Hcurr & Hne & e & rest & ->).
  pose proof (chain_node [] l e rest _ Hn Hh) as Hl. eexists; split; [exact Hl|]. exists rest.
  assert (~ linking r l) as Hnl by (by apply (not_linking _ _ _ _ Hr)).
  split; cbn; try done.
  - by apply NoDup_cons in Hn as [_ Hn].
  - by eapply chain_tail.
  - by apply Forall_cons in Hs as [_ Hs].
  - destruct r; try done; by destruct Hr.
  - split; [|split_and!; [cbn; by rewrite Hl|by apply NoDup_cons in Hn as [Hn _]|done]].
    destruct Hcurr as [Hc0|[Hc0|(? & _)]]; [by left| |done]. right; left. unfold set_head; cbn. rewrite Hc0.
    apply last_loc_cons. intros ->. by destruct Hne.
  - intros Hb. destruct (Ha Hb) as (Hage & Hle & Hb' & Hlink & Hk). split_and!; try done.
    + by apply StronglySorted_inv in Hage as [Hage _].
    + by apply Forall_cons in Hle as [_ Hle].
Qed.

(** [free(del)] *)
Lemma free_step_ok m now b r t l prev ns :
  conf_inv (Conf m now b r (CleanerFree t l prev)) ns ->
  exists n, heap m !! l = Some n /\
    conf_inv (Conf (Server (delete l (heap m)) (head m) (curr m)) now b r (CleanerAfter t l prev)) ns.
Proof.
  intros [Hn Hh Hhd Hs Hc Hr Hcl Ha]; cbn in *.
  assert (victim m ns r l) as ([n Hl] & Hl' & Hnl) by (destruct prev; [done|by destruct Hcl]).
  exists n. split; [done|]. split; cbn; try done.
  - by apply chain_free.
  - destruct r as [| | |l0|l0|]; try done; destruct Hr as (-> & e & He & Hts); (split; [done|]); exists e;
      cbn; rewrite lookup_delete_ne by (intros ->; apply Hnl; unfold linking; by auto); done.
  - by destruct prev; [|destruct Hcl].
  - intros Hb. destruct (Ha Hb) as (? & ? & ? & Hlink & Hk). split_and!; try done.
    intros l0 n0 Hl0. cbn. intros [_ Hn0]%lookup_delete_Some. by apply (Hlink l0).
Qed.

Lemma cleaner_step_ok m now b r c ns :
  conf_inv (Conf m now b r c) ns ->
  step_ok (Conf m now b r c) ((fun '(m', c') => Conf m' now b r c') <$> cleaner_step now c m).
Proof.
  intros Hinv. pose proof Hinv as [Hn Hh Hhd Hs Hc Hr Hcl Ha]; cbn in Hn, Hh, Hhd, Hs, Hc, Hr, Hcl, Ha.
  destruct c as [|ptr|ptr t|t [l|] prev|t l prev|t l prev|t l prev|t l prev|t l prev|t l prev|t l [p|]]; cbn [cleaner_step fmap].
  - apply (cleaner_moves _ _ _ _ _ _ _ Hinv); [|done]. cbn. auto.
  - by apply (cleaner_moves _ _ _ _ _ _ _ Hinv).
  - by apply (cleaner_moves _ _ _ _ _ _ _ Hinv).
  - by apply (cleaner_test_ok _ _ _ _ _ _ _ ns).
  - apply (cleaner_moves _ _ _ _ _ _ _ Hinv); [|done]. by destruct prev; destruct Hcl.
  - apply (cleaner_moves _ _ _ _ _ _ _ Hinv); [|by destruct prev, (decide _); intros (_ & _ & _ & _ & ?)].
    destruct prev; [by destruct (decide _)|]. destruct Hcl as (Hcurr & e & rest & ->).
    destruct (decide _) as [Heq|Hne]; [|split_and!; [done|by intros ?|by exists e, rest]].
    split; [|done]. destruct Hcurr as [Hc0|[Hc0|(? & _)]]; [congruence| |done].
    destruct (decide (rest = [])) as [->|Hne]; [done|]. rewrite last_loc_cons in Hc0 by done.
    rewrite <- Heq in Hc0. symmetry in Hc0. apply last_loc_elem in Hc0. by apply NoDup_cons in Hn as [Hn _].
  - exists []. by apply (clear_head_ok _ _ _ _ _ _ _ ns).
  - exists ns. by apply clear_curr_ok.
  - apply (cleaner_moves _ _ _ _ _ _ _ Hinv); [|by destruct prev, (decide _); intros (_ & _ & _ & _ & ?)].
    destruct prev.
    + destruct Hcl as (? & Hl & ?). rewrite decide_False; [by split_and!|]. rewrite Hhd. intros Heq. apply Hl.
      destruct ns as [|[l' e] ns]; [done|]. injection Heq as ->. rewrite fmap_cons. set_solver.
    + destruct Hcl as (Hcurr & Hne & e & rest & ->). rewrite decide_True by done. split_and!; [done..|by exists e, rest].
  - destruct prev; [done|]. destruct (set_head_ok _ _ _ _ _ _ _ Hinv) as (n & Hl & Hok).
    unfold deref. rewrite Hl. by cbn.
  - destruct (free_step_ok _ _ _ _ _ _ _ _ Hinv) as (n & Hl & Hok). rewrite (free_ok _ _ _ Hl). by exists ns.
  - right; left. split; [done|]. by exists t, l, p.
  - apply (cleaner_moves _ _ _ _ _ _ _ Hinv); [|done]. cbn. auto.
Qed.

(** ** The reader and the sender *)

(** A step of the reader that leaves the list and [curr]. *)
Lemma cleaner_ok_kept m m' ns r r' c :
  (curr_ok m ns r -> curr_ok m' ns r') -> curr m' = curr m ->
  (forall l, victim m ns r l -> victim m' ns r' l) -> cleaner_ok m ns r c -> cleaner_ok m' ns r' c.
Proof.
  intros Hcurr Heq Hv. destruct c as [|?|? ?|? ? [|]|? ? [|]|? ? [|]|? ? [|]|? ? [|]|? ? [|]|? ? [|]|? ? [|]];
    cbn; rewrite ?Heq; naive_solver.
Qed.

Lemma curr_ok_reader m ns r r' : ~ (exists l, r = ReaderLinkHead l) -> curr_ok m ns r -> curr_ok m ns r'.
Proof. intros Hr [H|[H|(_ & l & -> & _)]]; [by left|by right; left|destruct Hr; by exists l]. Qed.

Lemma reader_moves m now b c r r' ns :
  conf_inv (Conf m now b r c) ns -> (forall l, ~ linking r l) -> (forall l, ~ linking r' l) -> reader_ok m ns r' ->
  (b = false -> age_ok m ns now r c -> bound now r <= bound now r' <= now) ->
  exists ns', conf_inv (Conf m now b r' c) ns'.
Proof.
  intros [Hn Hh Hhd Hs Hc Hr Hcl Ha] Hl Hl' Hr' Hb; cbn in *. exists ns. split; try done; cbn.
  - eapply (cleaner_ok_kept m); [|done| |exact Hcl].
    + apply curr_ok_reader. intros [l ->]. apply (Hl l). by right.
    + intros l (? & ? & ?). by split_and!.
  - intros Hf. specialize (Ha Hf). specialize (Hb Hf Ha). destruct Ha as (Hage & Hle & _ & _ & Hk). split_and!; try done.
    + eapply Forall_impl; [exact Hle|]. cbn. lia.
    + lia.
    + intros l n Hlk. by destruct (Hl' l).
Qed.

(** [malloc] in [create_list] *)
Lemma node_ok m now b c ipv portv ts l ns :
  conf_inv (Conf m now b (ReaderCreate ipv portv ts) c) ns -> heap m !! l = None ->
  conf_inv (Conf (Server (<[l := HistoryElement ipv portv (s32 ts) None]> (heap m)) (head m) (curr m))
    now b (ReaderLink l) c) ns.
Proof.
  intros [Hn Hh Hhd Hs Hc [-> Hts] Hcl Ha] Hl; cbn in *.
  assert (s32 ts = ts) as -> by (by apply wrap_s_id; unfold stamp_ok, INT32_MIN, INT32_MAX in Hts; [|lia]).
  split; cbn; try done.
  - apply map_empty_subseteq.
  - split; [done|]. exists (Entry ipv portv ts). by rewrite lookup_insert_eq.
  - eapply (cleaner_ok_kept m); [|done| |exact Hcl].
    + change (curr_ok m [] (ReaderCreate ipv portv ts) -> curr_ok m [] (ReaderLink l)).
      apply curr_ok_reader. by intros [? ?].
    + intros l0 ([n Hl0] & ? & _). split_and!; [|done|].
      * cbn. apply lookup_insert_is_Some'. right. by rewrite Hl0.
      * intros [[= ->]|[= ]]. congruence.
  - intros Hf. destruct (Ha Hf) as (_ & _ & Hle & _ & Hk). split_and!; [constructor|constructor|cbn; lia| |done].
    intros l0 n [[= ->]|[= ]]. cbn. rewrite lookup_insert_eq. by intros [= <-].
Qed.

(** [curr = ptr] in [create_list] *)
Lemma link_ok m now b c l ns :
  conf_inv (Conf m now b (ReaderLink l) c) ns ->
  conf_inv (Conf (set_curr (Some l) m) now b (ReaderLinkHead l) c) ns.
Proof.
  intros [Hn Hh Hhd Hs Hc Hr Hcl Ha]; cbn in *. destruct Hr as [-> Hr]. split; cbn; try done.
  - assert (curr_ok (set_curr (Some l) m) [] (ReaderLinkHead l)) as Hcurr by (right; right; split; [done|by exists l]).
    assert (forall l0, victim m [] (ReaderLink l) l0 -> victim (set_curr (Some l) m) [] (ReaderLinkHead l) l0) as Hv.
    { intros l0 (? & ? & Hnl). split_and!; [done..|]. intros [[= ]|[= ->]]. apply Hnl. by left. }
    unfold cleaner_ok, first_is in *. repeat case_match; try done; naive_solver.
  - intros Hf. destruct (Ha Hf) as (? & ? & ? & Hlink & ?). split_and!; try done.
    intros l0 n [[= ]|[= ->]]. apply Hlink. by left.
Qed.

(** [head = ptr] in [create_list] *)
Lemma link_head_ok m now b c l ns :
  conf_inv (Conf m now b (ReaderLinkHead l) c) ns ->
  exists ns', conf_inv (Conf (set_head (Some l) m) now b ReaderIdle c) ns'.
Proof.
  intros [Hn Hh Hhd Hs Hc Hr Hcl Ha]; cbn in *. destruct Hr as (-> & e & He & Hts). exists [(l, e)].
  split; cbn; try done.
  - apply NoDup_singleton.
  - by apply insert_subseteq_l; [|apply map_empty_subseteq].
  - by apply Forall_singleton.
  - assert (curr_ok m [] (ReaderLinkHead l) -> curr_ok (set_head (Some l) m) [(l, e)] ReaderIdle) as Hcurr.
    { intros [H|[H|(_ & l0 & [= <-] & H)]]; [by left|by left|by right; left]. }
    assert (forall l0, victim m [] (ReaderLinkHead l) l0 -> victim (set_head (Some l) m) [(l, e)] ReaderIdle l0) as Hv.
    { intros l0 (? & _ & Hnl). split_and!; [done| |by intros [[= ]|[= ]]].
      cbn. intros ->%list_elem_of_singleton. apply Hnl. by right. }
    unfold cleaner_ok, first_is in *. repeat case_match; try done; try tauto.
    all: first [exact (Hv _ Hcl)|by destruct Hcl|by destruct Hcl as (_ & ? & ? & ?)|by destruct Hcl as (_ & _ & ? & ? & ?)
      |by destruct Hcl as (_ & [|] & ? & ? & ? & _)|destruct Hcl; split; auto].
  - intros Hf. destruct (Ha Hf) as (_ & _ & _ & Hlink & Hk).
    specialize (Hlink l _ ltac:(by right) He). cbn in Hlink. split_and!; try done.
    + by repeat constructor.
    + by apply Forall_singleton.
    + by intros l0 n [[= ]|[= ]].
    + destruct c; try done. destruct prev; [|done]. destruct Hk as (pre & ? & ? & Heq & _). by destruct pre.
Qed.

(** The locked part of [add_to_list]. *)
Lemma append_node_step m ns l ipv portv ts :
  NoDup ns.*1 -> chain ns None ⊆ heap m -> heap m !! l = None -> stamp_ok ts ->
  curr m = None \/ curr m = last_loc ns ->
  append_node l ipv portv ts m = Err NullDeref /\ curr m = None \/
  exists m', append_node l ipv portv ts m = Ok m' /\ ns <> [] /\ head m' = head m /\ curr m' = Some l /\
    chain (ns ++ [(l, Entry ipv portv ts)]) None ⊆ heap m'.
Proof.
  intros Hn Hh Hl Hts Hcurr. unfold append_node.
  assert (s32 ts = ts) as -> by (by apply wrap_s_id; unfold stamp_ok, INT32_MIN, INT32_MAX in Hts; [|lia]).
  destruct ns as [|[p ep] pre _] using rev_ind.
  { left. assert (curr m = None) as Hnull by (by destruct Hcurr). by rewrite Hnull. }
  rewrite last_loc_snoc in Hcurr. destruct Hcurr as [Hnull|Hcurr]; [left; by rewrite Hnull|right].
  pose proof (chain_node pre p ep [] _ Hn Hh) as Hp. rewrite Hcurr. cbn [curr set_next heap].
  assert (l <> p) by (intros ->; congruence). rewrite lookup_insert_ne, Hp by done.
  eexists. split; [done|]. split_and!; [by destruct pre|done..|]. by apply chain_appended.
Qed.

Lemma by_age_snoc ns x : by_age ns -> Forall (fun y => e_ts y.2 <= e_ts x.2) ns -> by_age (ns ++ [x]).
Proof.
  unfold by_age. induction 1 as [|y ns Hs IH Hy]; cbn [app]; [by repeat constructor|].
  intros [Hyx Hx]%Forall_cons. constructor; [by apply IH|]. apply Forall_app; split; [done|by apply Forall_singleton].
Qed.

Lemma append_step_ok m now b c ipv portv ts l ns :
  let k := Conf m now b (ReaderAppend ipv portv ts) c in
  conf_inv k ns -> locked c = false -> heap m !! l = None ->
  step_ok k ((fun m' => Conf m' now b ReaderIdle c) <$> append_node l ipv portv ts m).
Proof.
  intros k [Hn Hh Hhd Hs Hc Hr Hcl Ha] Hlock Hl; cbn in *.
  assert (curr_ok m ns (ReaderAppend ipv portv ts)) as Hcurr.
  { destruct c; try done; by destruct Hcl. }
  assert (curr m = None \/ curr m = last_loc ns) as Hcurr' by (destruct Hcurr as [?|[?|(_ & ? & [=] & _)]]; auto).
  destruct (append_node_step m ns l ipv portv ts Hn Hh Hl Hr Hcurr') as [[-> Hnull]|(m' & -> & Hne & Hhd' & Hcurr2 & Hh')].
  { left. split; [done|]. split_and!; [done..|]. by exists ipv, portv, ts. }
  exists (ns ++ [(l, Entry ipv portv ts)]).
  assert (l ∉ ns.*1) as Hl' by (apply (chain_fresh _ None); by eapply lookup_weaken_None).
  assert (curr_ok m' (ns ++ [(l, Entry ipv portv ts)]) ReaderIdle) as Hcurr3.
  { right; left. by rewrite last_loc_snoc. }
  assert (first_or (ns ++ [(l, Entry ipv portv ts)]) None = first_or ns None) as Hfirst by (by destruct ns as [|[??]]).
  split; cbn; try done.
  - rewrite fmap_app, NoDup_app. split_and!; [done| |apply NoDup_singleton]. set_solver.
  - by rewrite Hfirst, Hhd', Hhd.
  - by apply Forall_app; split; [|apply Forall_singleton].
  - destruct c; try done; cbn; rewrite Hfirst; by destruct Hcl.
  - intros Hf. destruct (Ha Hf) as (Hage & Hle & Hb & _ & Hk). cbn in Hb, Hle. split_and!; cbn.
    + by apply by_age_snoc.
    + apply Forall_app; split; [|by apply Forall_singleton].
      eapply Forall_impl; [exact Hle|]. cbn. lia.
    + lia.
    + by intros ? ? [|].
    + by destruct c.
Qed.

(** The search uses nothing but nodes of the list. *)
Lemma search_step m ns now ipv portv prev :
  NoDup ns.*1 -> chain ns None ⊆ heap m -> head m = first_or ns None -> Forall (fun x => stamp_ok (e_ts x.2)) ns ->
  (exists found, search_in_list ipv portv now prev m = Ok found) \/
  search_in_list ipv portv now prev m = Err SignedOverflow /\ exists l n, heap m !! l = Some n /\ CLOCK_MAX < timestamp n.
Proof.
  intros Hn Hh Hhd Hs. unfold search_in_list. rewrite Hhd.
  assert (length ns <= size (heap m))%nat as Hlen.
  { rewrite <- (chain_size ns None) by done. by apply map_subseteq_size. }
  assert (forall post pre fuel tmp, ns = pre ++ post -> (length post < fuel)%nat ->
    (exists found, search_loop fuel now ipv portv m (first_or post None) tmp = Ok found) \/
    search_loop fuel now ipv portv m (first_or post None) tmp = Err SignedOverflow /\
      exists l n, heap m !! l = Some n /\ CLOCK_MAX < timestamp n) as Hloop.
  { induction post as [|[l e] post IH]; intros pre [|fuel] tmp -> Hf; cbn in Hf; try lia; [by left; eexists|].
    cbn [search_loop first_or deref]. rewrite (chain_node _ _ _ _ _ Hn Hh). cbn [mbind res_bind].
    assert (stamp_ok (e_ts e)) as He by (rewrite Forall_app, Forall_cons in Hs; apply Hs).
    specialize (IH (pre ++ [(l, e)]) fuel (Some l)). rewrite <- app_assoc in IH. specialize (IH eq_refl ltac:(lia)).
    unfold search_hit; cbn [ip port timestamp node_of next]. destruct (_ && _); [|exact IH].
    destruct (stamp_add (e_ts e) He) as [[-> Hle]|[-> Hlate]]; cbn [mbind res_bind].
    - destruct (now <? _); [by left; eexists|exact IH].
    - right. split; [done|]. exists l, (node_of e (first_or post None)). split; [by apply (chain_node pre)|done]. }
  destruct (Hloop ns [] (S (size (heap m))) None eq_refl ltac:(lia)) as [[found ->]|[-> H]]; [left|by right].
  cbn. destruct found as [[l tmp]|]; by eexists.
Qed.

Lemma tick_ok m now now' b r c ns :
  conf_inv (Conf m now b r c) ns -> stamp_ok now' -> conf_inv (Conf m now' (b || (now' <? now)) r c) ns.
Proof.
  intros [Hn Hh Hhd Hs Hc Hr Hcl Ha] Hnow; cbn in *. split; try done; cbn.
  intros [Hf Hlt%Z.ltb_ge]%orb_false_iff. destruct (Ha Hf) as (Hage & Hle & Hb & Hlink & Hk).
  assert (bound now r <= bound now' r <= now') as Hb' by (destruct r; cbn in *; lia).
  split_and!; [done| |lia| |done].
  - eapply Forall_impl; [exact Hle|]. cbn. lia.
  - intros l n Hl Hln. specialize (Hlink l n Hl Hln). lia.
Qed.

Lemma step_preserves ns k o : conf_inv k ns -> step k o -> step_ok k o.
Proof.
  intros Hinv Hstep. destruct Hstep.
  - exists ns. by apply tick_ok.
  - apply (reader_moves _ _ _ _ _ _ _ Hinv); try by intros ? [|].
    + apply (inv_clock _ _ Hinv).
    + cbn. lia.
  - apply (reader_moves _ _ _ _ _ _ _ Hinv); try by intros ? [|].
    + intros l. by destruct (head m); intros [|].
    + pose proof (inv_reader _ _ Hinv) as Hr. pose proof (inv_head _ _ Hinv) as Hhd. cbn in Hr, Hhd. rewrite Hhd.
      by destruct ns as [|[??]].
    + intros _ (_ & _ & Hb & _). cbn in Hb. destruct (head m); cbn; lia.
  - apply (reader_moves _ _ _ _ _ _ _ Hinv); try by intros ? [|].
    + done.
    + intros _ (_ & _ & Hb & _). cbn in *. lia.
  - exists ns. by apply node_ok.
  - exists ns. by apply link_ok.
  - by apply (link_head_ok _ _ _ _ _ ns).
  - apply (reader_moves _ _ _ _ _ _ _ Hinv); try by intros ? [|].
    + done.
    + intros _ (_ & _ & Hb & _). cbn in *. lia.
  - by apply (append_step_ok _ _ _ _ _ _ _ _ ns).
  - by apply (cleaner_step_ok _ _ _ _ _ ns).
  - destruct Hinv as [Hn Hh Hhd Hs Hc Hr Hcl Ha]; cbn in Hn, Hh, Hhd, Hs.
    destruct (search_step m ns now ipv portv prev Hn Hh Hhd Hs) as [[found ->]|[-> Hlate]]; cbn.
    + exists ns. by split.
    + by do 2 right.
Qed.

Lemma reachable_inv now k : stamp_ok now -> reachable (init_conf now) k -> exists ns, conf_inv k ns.
Proof.
  intros Hnow. induction 1 as [|a b _ [ns IH] Hstep]; [by exists []; apply init_inv|].
  exact (step_preserves ns a (Ok b) IH Hstep).
Qed.

Lemma raced_steps k : append_raced k -> step k (Err NullDeref).
Proof.
  destruct k as [m now b r c]. intros (Hlock & Hcurr & ipv & portv & ts & Hr); cbn in *. subst r.
  pose proof (StepReaderAppend m now b c ipv portv ts (fresh (dom (heap m))) Hlock) as H.
  unfold append_node in H. rewrite Hcurr in H. apply H. apply not_elem_of_dom, is_fresh.
Qed.

Lemma freed_steps k : freed_behind k -> step k (Err InvalidPointer).
Proof.
  destruct k as [m now b r c]. intros (t & l & p & Hc); cbn in *. subst c. apply (StepCleaner m now b r).
Qed.

(** ** Properties *)

(** C5.  However the three threads interleave and the clock is set, no step diverges,
    and the undefined behaviours are these.  The append goes through a null [curr]
    exactly when the reader saw a node that is gone, or whose [curr] is, by the time it
    has the lock.  The cleaner goes on from a node it has freed exactly when that had a
    predecessor, which takes a clock that was set back.  All others are overflows of
    [timestamp + TIMEVALIDITY], for a node of the last [TIMEVALIDITY] seconds of
    [time_t]. *)
Theorem threads_undefined_behaviour now k :
  stamp_ok now -> reachable (init_conf now) k ->
  ~ step k Diverges /\
  (step k (Err NullDeref) <-> append_raced k) /\
  (step k (Err InvalidPointer) <-> freed_behind k) /\
  (freed_behind k -> set_back k = true) /\
  forall e, step k (Err e) -> e = NullDeref \/ e = InvalidPointer \/ e = SignedOverflow /\ late k.
Proof.
  intros Hnow [ns Hinv]%reachable_inv; [|done].
  assert (forall o, step k o -> step_ok k o) as Hok by (intros o; by apply step_preserves with ns).
  split_and!.
  - by intros H%Hok.
  - split; [|apply raced_steps]. intros H%Hok. cbn in H. naive_solver.
  - split; [|apply freed_steps]. intros H%Hok. cbn in H. naive_solver.
  - intros (t & l & p & Hc). destruct (set_back k) eqn:Hb; [done|].
    destruct (inv_age _ _ Hinv Hb) as (_ & _ & _ & _ & Hk). by rewrite Hc in Hk.
  - intros e H%Hok. cbn in H. naive_solver.
Qed.

(** ** Runs *)

(** What happens next: the clock is set, the reader gets an answer or goes on, with the
    address [malloc] would give it, or the cleaner goes on. *)
Inductive choice := Tick (t : Z) | Answer (ipv portv : Z) | ReaderGoes (l : loc) | CleanerGoes.

Definition next_conf (ch : choice) (k : conf) : res conf :=
  let '(Conf m now b r c) := k in
  match ch, r with
  | Tick t, _ => Ok (if in_s32 t then Conf m t (b || (t <? now)) r c else k)
  | CleanerGoes, _ => (fun '(m', c') => Conf m' now b r c') <$> cleaner_step now c m
  | Answer ipv portv, ReaderIdle => Ok (Conf m now b (ReaderTimed ipv portv now) c)
  | ReaderGoes l, ReaderTimed ipv portv ts =>
      Ok (Conf m now b (match head m with
                        | None => ReaderCreate ipv portv ts
                        | Some _ => ReaderAppend ipv portv ts
                        end) c)
  | ReaderGoes l, ReaderCreate ipv portv ts =>
      Ok (match heap m !! l with
          | None => Conf (Server (<[l := HistoryElement ipv portv (s32 ts) None]> (heap m)) (head m) (curr m))
                      now b (ReaderLink l) c
          | Some _ => k
          end)
  | ReaderGoes _, ReaderLink l => Ok (Conf (set_curr (Some l) m) now b (ReaderLinkHead l) c)
  | ReaderGoes _, ReaderLinkHead l => Ok (Conf (set_head (Some l) m) now b ReaderIdle c)
  | ReaderGoes l, ReaderAppend ipv portv ts =>
      match locked c, heap m !! l with
      | false, None => (fun m' => Conf m' now b ReaderIdle c) <$> append_node l ipv portv ts m
      | _, _ => Ok k
      end
  | _, _ => Ok k
  end.

Lemma next_conf_step ch k o : next_conf ch k = o -> o = Ok k \/ step k o.
Proof.
  intros <-. destruct k as [m now b r c]. destruct ch as [t|ipv portv|l|]; cbn [next_conf].
  - destruct (in_s32 t) eqn:Ht; [right|by left]. apply StepTick. by apply in_s32_spec.
  - destruct r; try (by left). right. apply StepReaderTime.
  - destruct r; try (by left).
    + right. apply StepReaderTest.
    + destruct (heap m !! l) eqn:Hl; [by left|right]. by apply StepReaderNode.
    + right. apply StepReaderLink.
    + right. apply StepReaderLinkHead.
    + destruct (locked c) eqn:Hlock; [by left|]. destruct (heap m !! l) eqn:Hl; [by left|right]. by apply StepReaderAppend.
  - right. apply StepCleaner.
Qed.

Fixpoint play (chs : list choice) (k : conf) : res conf :=
  match chs with
  | [] => Ok k
  | ch :: chs => k ← next_conf ch k; play chs k
  end.

Lemma play_reachable start chs k k' : reachable start k -> play chs k = Ok k' -> reachable start k'.
Proof.
  revert k. induction chs as [|ch chs IH]; intros k Hr; cbn [play]; [by intros [= <-]|].
  destruct (next_conf ch k) as [k1|e|] eqn:E; [|done..]. rewrite bind_Ok. apply IH.
  apply next_conf_step in E as [[= ->]|Hs]; [done|by eapply reach_step].
Qed.

(** One authorisation is recorded, and expires. *)
Definition recorded : list choice :=
  [Answer 7 80; ReaderGoes 1; ReaderGoes 1; ReaderGoes 1; ReaderGoes 1; Tick 601].

(** The reader sees the node, the cleaner deletes it, and the reader appends. *)
Definition race : list choice :=
  recorded ++ [Answer 9 443; ReaderGoes 1] ++ replicate 10 CleanerGoes.

(** The cleaner has stored its null in [head]; the reader links a node, with [curr]
    first; then the null goes to [curr].  The next append is made on a list that has a
    node, through a null pointer. *)
Definition lost : list choice :=
  recorded ++ replicate 6 CleanerGoes ++ [Answer 9 443] ++ replicate 5 (ReaderGoes 2) ++
  replicate 6 CleanerGoes ++ [Answer 9 80; ReaderGoes 3].

(** The clock is set back between two answers, and forward. *)
Definition clock_set : list choice :=
  [Tick 500; Answer 9 443; ReaderGoes 2; ReaderGoes 2; ReaderGoes 2; ReaderGoes 2;
   Tick 0; Answer 7 80; ReaderGoes 1; ReaderGoes 1; Tick 700] ++ replicate 9 CleanerGoes.

(** C8.  The race is real: [add_to_list] tests [head] outside the lock, and when
    the cleaner empties the list between that test and the append, the append
    dereferences a null pointer. *)
Theorem append_race_reachable :
  exists c, reachable (init_conf 0) c /\ step c (Err NullDeref).
Proof.
  destruct (play race (init_conf 0)) as [k|e|] eqn:E; [|by vm_compute in E..]. exists k. split.
  - apply (play_reachable _ race (init_conf 0)); [apply reach_refl|exact E].
  - vm_compute in E. injection E as <-. apply raced_steps. split; [done|]. split; [done|]. by eexists _, _, _.
Qed.

(** A node can be in the list for good while [curr] is null: then every append is one
    through a null pointer. *)
Lemma lost_curr_reachable :
  exists c, reachable (init_conf 0) c /\ head (mem c) <> None /\ step c (Err NullDeref).
Proof.
  destruct (play lost (init_conf 0)) as [k|e|] eqn:E; [|by vm_compute in E..]. exists k. split.
  - apply (play_reachable _ lost (init_conf 0)); [apply reach_refl|exact E].
  - vm_compute in E. injection E as <-. split; [done|]. apply raced_steps. split; [done|]. split; [done|]. by eexists _, _, _.
Qed.

(** A clock that is set back makes the cleaner use memory it has freed. *)
Lemma use_after_free_reachable : exists c, reachable (init_conf 0) c /\ step c (Err InvalidPointer).
Proof.
  destruct (play clock_set (init_conf 0)) as [k|e|] eqn:E; [|by vm_compute in E..]. exists k. split.
  - apply (play_reachable _ clock_set (init_conf 0)); [apply reach_refl|exact E].
  - vm_compute in E. injection E as <-. apply freed_steps. by eexists _, _, _.
Qed.

(** ** Witnesses *)

Lemma threads_undefined_behaviour_witness :
  exists k, reachable (init_conf 0) k /\ step k (Err InvalidPointer) /\ set_back k = true /\ ~ step k (Err NullDeref).
Proof.
  destruct (play clock_set (init_conf 0)) as [k|e|] eqn:E; [|by vm_compute in E..]. exists k.
  assert (reachable (init_conf 0) k) as Hr.
  { apply (play_reachable _ clock_set (init_conf 0)); [apply reach_refl|exact E]. }
  assert (stamp_ok 0) as H0 by (by vm_compute).
  destruct (threads_undefined_behaviour 0 k H0 Hr) as (_ & Hnull & Hfree & Hback & _).
  assert (freed_behind k) as Hf by (vm_compute in E; injection E as <-; by eexists _, _, _).
  split; [exact Hr|]. split; [by apply Hfree|]. split; [by apply Hback|].
  intros (Hlock & _)%Hnull. vm_compute in E. injection E as <-. discriminate Hlock.
Defined.
