(* ===== verification/LibIpq.v ===== *)
(** * The netlink packet queue library

    [jni/libipq/libipq.c].  The kernel's headers and system calls are not part
    of the sources: the layout of netlink messages is the class [NetlinkAbi] and
    the calls are the class [Kernel], over an abstract state of the outside
    world.  The library's own state is [ipq_errno]; a handle is a value that the
    receive operation returns updated, because [recvfrom] is handed the address
    of [h->peer] although the handle is [const]. *)

From stdpp Require Import base list strings sets gmap.
From Stdlib Require Import ZArith Lia.
From S2P Require Import Prelude CString.

Open Scope Z_scope.

(** ** Error codes *)

Definition IPQ_ERR_NONE : Z := 0.
Definition IPQ_ERR_IMPL : Z := 1.
Definition IPQ_ERR_HANDLE : Z := 2.
Definition IPQ_ERR_SOCKET : Z := 3.
Definition IPQ_ERR_BIND : Z := 4.
Definition IPQ_ERR_BUFFER : Z := 5.
Definition IPQ_ERR_RECV : Z := 6.
Definition IPQ_ERR_NLEOF : Z := 7.
Definition IPQ_ERR_ADDRLEN : Z := 8.
Definition IPQ_ERR_STRUNC : Z := 9.
Definition IPQ_ERR_RTRUNC : Z := 10.
Definition IPQ_ERR_NLRECV : Z := 11.
Definition IPQ_ERR_SEND : Z := 12.
Definition IPQ_ERR_SUPP : Z := 13.
Definition IPQ_ERR_RECVBUF : Z := 14.
Definition IPQ_ERR_TIMEOUT : Z := 15.
Definition IPQ_ERR_PROTOCOL : Z := 16.
Definition IPQ_MAXERR : Z := IPQ_ERR_PROTOCOL.

Definition ipq_errmap : list (Z * string) :=
  [ (IPQ_ERR_NONE, "Unknown error");
    (IPQ_ERR_IMPL, "Implementation error");
    (IPQ_ERR_HANDLE, "Unable to create netlink handle");
    (IPQ_ERR_SOCKET, "Unable to create netlink socket");
    (IPQ_ERR_BIND, "Unable to bind netlink socket");
    (IPQ_ERR_BUFFER, "Unable to allocate buffer");
    (IPQ_ERR_RECV, "Failed to receive netlink message");
    (IPQ_ERR_NLEOF, "Received EOF on netlink socket");
    (IPQ_ERR_ADDRLEN, "Invalid peer address length");
    (IPQ_ERR_STRUNC, "Sent message truncated");
    (IPQ_ERR_RTRUNC, "Received message truncated");
    (IPQ_ERR_NLRECV, "Received error from netlink");
    (IPQ_ERR_SEND, "Failed to send netlink message");
    (IPQ_ERR_SUPP, "Operation not supported");
    (IPQ_ERR_RECVBUF, "Receive buffer size invalid");
    (IPQ_ERR_TIMEOUT, "Timeout");
    (IPQ_ERR_PROTOCOL, "Invalid protocol specified") ]%string.

(** [ipq_strerror]: the array access is checked. *)
Definition ipq_strerror (errcode : Z) : res string :=
  let errcode := if (errcode <? 0) || (IPQ_MAXERR <? errcode) then IPQ_ERR_IMPL else errcode in
  match ipq_errmap !! Z.to_nat errcode with
  | Some (_, message) => Ok message
  | None => Err OutOfBounds
  end.

(** ** Messages *)

Record sockaddr_nl := SockaddrNl { nl_family : Z; nl_pid : Z; nl_groups : Z }.

Record nlmsghdr := NlMsgHdr {
  nlmsg_len : Z; nlmsg_type : Z; nlmsg_flags : Z; nlmsg_seq : Z; nlmsg_pid : Z
}.
Definition nlmsghdr_zero : nlmsghdr := NlMsgHdr 0 0 0 0 0.

(** [ipq_peer_msg_t]: the member of its union that the code fills. *)
Inductive ipq_peer_msg : Type :=
  | PeerMode (value range : Z)
  | PeerVerdict (value id data_len : Z).

(** What the library reads of [ipq_packet_msg_t]. *)
Record ipq_packet_msg := PacketMsg { packet_id : Z; payload : list Z }.

(** The layout fixed by [<linux/netlink.h>] and [<linux/netfilter_ipv4/ip_queue.h>]. *)
Class NetlinkAbi := {
  sizeof_nlmsghdr : Z;
  sizeof_nlmsgerr : Z;
  sizeof_sockaddr_nl : Z;
  sizeof_peer_msg : Z;
  NLMSG_LENGTH : Z -> Z;
  header_of : list Z -> nlmsghdr;
  error_of : list Z -> Z;
  packet_of : list Z -> ipq_packet_msg;
  PF_NETLINK : Z; SOCK_RAW : Z; AF_NETLINK : Z;
  NETLINK_FIREWALL : Z; NETLINK_IP6_FW : Z;
  NLM_F_REQUEST : Z; NLMSG_ERROR : Z;
  IPQM_MODE : Z; IPQM_VERDICT : Z; IPQM_PACKET : Z; IPQ_COPY_PACKET : Z;
  EINTR : Z
}.

Definition NFPROTO_IPV4 : Z := 2.
Definition NFPROTO_IPV6 : Z := 10.
Definition NF_ACCEPT : Z := 1.
Definition MSG_TRUNC : Z := 32.

Record ipq_handle := Handle {
  fd : Z; blocking : Z; local : sockaddr_nl; peer : sockaddr_nl
}.

(** A message handed to the kernel: its parts in memory order, the number of
    bytes it is told to send, and the destination. *)
Inductive msg_part : Type :=
  | PartHeader (h : nlmsghdr)
  | PartPeer (m : ipq_peer_msg)
  | PartData (d : list Z) (len : Z).

(** ** The kernel's calls *)

Record select_result := Select { sel_ret : Z; sel_errno : Z; sel_isset : bool }.
Record recv_result := Recv {
  rcv_status : Z; rcv_bytes : list Z; rcv_addrlen : Z; rcv_from : sockaddr_nl
}.

Class Kernel (K : Type) := {
  k_malloc : Z -> K -> bool * K;
  k_free : K -> K;
  k_getpid : K -> Z;
  k_socket : Z -> Z -> Z -> K -> Z * K;
  k_bind : Z -> sockaddr_nl -> K -> Z * K;
  k_close : Z -> K -> K;
  k_sendto : Z -> list msg_part -> Z -> sockaddr_nl -> K -> Z * K;
  k_sendmsg : Z -> list msg_part -> sockaddr_nl -> Z -> K -> Z * K;
  k_select : Z -> Z -> Z -> K -> select_result * K;   (* seconds, microseconds *)
  k_recvfrom : Z -> Z -> K -> recv_result * K
}.

Section libipq.
Context {abi : NetlinkAbi} {K : Type} {kernel : Kernel K}.

(** The library's state together with the kernel's. *)
Record world := World { ipq_errno : Z; kern : K }.

Definition set_errno (e : Z) (w : world) : world := World e (kern w).
Definition kcall {A} (f : K -> A * K) (w : world) : A * world :=
  let '(a, k) := f (kern w) in (a, World (ipq_errno w) k).
Definition kdo (f : K -> K) (w : world) : world := World (ipq_errno w) (f (kern w)).

(** ** Private interface *)

Definition ipq_netlink_sendto (h : ipq_handle) (msg : list msg_part) (len : Z) (w : world)
    : Z * world :=
  let '(status, w) := kcall (k_sendto (fd h) msg len (peer h)) w in
  if status <? 0 then (status, set_errno IPQ_ERR_SEND w) else (status, w).

Definition ipq_netlink_sendmsg (h : ipq_handle) (msg : list msg_part) (dest : sockaddr_nl)
    (flags : Z) (w : world) : Z * world :=
  let '(status, w) := kcall (k_sendmsg (fd h) msg dest flags) w in
  if status <? 0 then (status, set_errno IPQ_ERR_SEND w) else (status, w).

(** The bytes received replace the front of the caller's buffer. *)
Definition fill (buf bytes : list Z) : list Z := bytes ++ drop (length bytes) buf.

(** The part after a successful wait: [recvfrom] stores the sender's address in
    [h->peer] before anything is checked. *)
Definition recv_and_check (h : ipq_handle) (buf : list Z) (len : Z) (w : world)
    : Z * ipq_handle * list Z * world :=
  let '(r, w) := kcall (k_recvfrom (fd h) len) w in
  let status := rcv_status r in
  if status <? 0 then (status, h, buf, set_errno IPQ_ERR_RECV w) else
  let h := Handle (fd h) (blocking h) (local h) (rcv_from r) in
  let buf := fill buf (rcv_bytes r) in
  if negb (rcv_addrlen r =? sizeof_sockaddr_nl) then (-1, h, buf, set_errno IPQ_ERR_RECV w)
  else if negb (nl_pid (peer h) =? 0) then (-1, h, buf, set_errno IPQ_ERR_RECV w)
  else if status =? 0 then (-1, h, buf, set_errno IPQ_ERR_NLEOF w)
  else
    let nlh := header_of buf in
    if negb (Z.land (nlmsg_flags nlh) MSG_TRUNC =? 0) || (u32 status <? nlmsg_len nlh)
    then (-1, h, buf, set_errno IPQ_ERR_RTRUNC w)
    else (status, h, buf, w).

Definition ipq_netlink_recvfrom (h : ipq_handle) (buf : list Z) (len timeout : Z) (w : world)
    : Z * ipq_handle * list Z * world :=
  if len <? sizeof_nlmsgerr then (-1, h, buf, set_errno IPQ_ERR_RECVBUF w)
  else if timeout =? 0 then recv_and_check h buf len w
  else
    let '(sec, usec) :=
      if timeout <? 0 then (0, 0) else (Z.quot timeout 1000000, Z.rem timeout 1000000) in
    let '(s, w) := kcall (k_select (fd h) sec usec) w in
    if sel_ret s <? 0 then
      if sel_errno s =? EINTR then (0, h, buf, w)
      else (-1, h, buf, set_errno IPQ_ERR_RECV w)
    else if negb (sel_isset s) then (0, h, buf, set_errno IPQ_ERR_TIMEOUT w)
    else recv_and_check h buf len w.

(** ** Public interface *)

Definition ipq_create_handle (flags protocol : Z) (w : world) : option ipq_handle * world :=
  let '(ok, w) := kcall (k_malloc 1) w in
  if negb ok then (None, set_errno IPQ_ERR_HANDLE w)
  else
    let open family w :=
      let '(fd, w) := kcall (k_socket PF_NETLINK SOCK_RAW family) w in
      if fd =? -1 then (None, kdo k_free (kdo (k_close fd) (set_errno IPQ_ERR_SOCKET w)))
      else
        let local := SockaddrNl AF_NETLINK (k_getpid (kern w)) 0 in
        let '(status, w) := kcall (k_bind fd local) w in
        if status =? -1 then (None, kdo k_free (kdo (k_close fd) (set_errno IPQ_ERR_BIND w)))
        else (Some (Handle fd 0 local (SockaddrNl AF_NETLINK 0 0)), w) in
    if protocol =? NFPROTO_IPV4 then open NETLINK_FIREWALL w
    else if protocol =? NFPROTO_IPV6 then open NETLINK_IP6_FW w
    else (None, kdo k_free (set_errno IPQ_ERR_PROTOCOL w)).

Definition ipq_destroy_handle (h : option ipq_handle) (w : world) : Z * world :=
  match h with
  | Some h => (0, kdo k_free (kdo (k_close (fd h)) w))
  | None => (0, w)
  end.

(** [sizeof(req)]: the header followed by the peer message. *)
Definition sizeof_mode_req : Z := sizeof_nlmsghdr + sizeof_peer_msg.

Definition ipq_set_mode (h : ipq_handle) (mode range : Z) (w : world) : Z * world :=
  let len := u32 (NLMSG_LENGTH sizeof_mode_req) in
  let nlh := NlMsgHdr len (u16 IPQM_MODE) (u16 NLM_F_REQUEST) 0 (nl_pid (local h)) in
  ipq_netlink_sendto h [PartHeader nlh; PartPeer (PeerMode (u8 mode) range)] len w.

Definition ipq_read (h : ipq_handle) (buf : list Z) (len timeout : Z) (w : world)
    : Z * ipq_handle * list Z * world :=
  ipq_netlink_recvfrom h buf len timeout w.

Definition ipq_message_type (buf : list Z) : Z := nlmsg_type (header_of buf).
Definition ipq_get_msgerr (buf : list Z) : Z := s32 (- error_of buf).
Definition ipq_get_packet (buf : list Z) : ipq_packet_msg := packet_of buf.

(** [buf] is [None] for a null pointer; [size_t] is 32 bits wide. *)
Definition ipq_set_verdict (h : ipq_handle) (id verdict data_len : Z)
    (buf : option (list Z)) (w : world) : Z * world :=
  let pm := PeerVerdict verdict id data_len in
  let tlen := u32 (sizeof_nlmsghdr + sizeof_peer_msg) in
  let '(data, tlen) :=
    match buf with
    | Some d => if negb (data_len =? 0) then ([PartData d data_len], u32 (tlen + data_len))
                else ([], tlen)
    | None => ([], tlen)
    end in
  let nlh := NlMsgHdr tlen (u16 IPQM_VERDICT) (u16 NLM_F_REQUEST) 0 (nl_pid (local h)) in
  ipq_netlink_sendmsg h ([PartHeader nlh; PartPeer pm] ++ data) (peer h) 0 w.

Definition ipq_ctl (h : ipq_handle) (request : Z) : Z := 1.

Definition ipq_errstr (w : world) : res string := ipq_strerror (ipq_errno w).

(** [ipq_perror]: what is written to [stderr]; [syserr] is the C library's
    [errno] with its message. *)
Definition ipq_perror (s : option string) (syserr : Z * string) (w : world) : res string :=
  lib ← (if negb (ipq_errno w =? 0)
         then m ← ipq_errstr w; Ok (": " +:+ m)%string else Ok ""%string);
  let sys := if negb (syserr.1 =? 0) then (": " +:+ syserr.2)%string else ""%string in
  Ok (default "ERROR" s +:+ lib +:+ sys +:+ String LF "")%string.

(** ** Properties *)

(** The ways a receive ends. *)
Definition recv_accepted (h' : ipq_handle) (st : Z) (buf' : list Z) : Prop :=
  nl_pid (peer h') = 0 /\ Z.land (nlmsg_flags (header_of buf')) MSG_TRUNC = 0 /\
  nlmsg_len (header_of buf') <= st.

Lemma recv_and_check_outcome h buf len w st h' buf' w' :
  recv_and_check h buf len w = (st, h', buf', w') -> st < 2 ^ 32 ->
  (0 < st /\ ipq_errno w' = ipq_errno w /\ recv_accepted h' st buf') \/
  (st < 0 /\ ipq_errno w' ∈ [IPQ_ERR_RECV; IPQ_ERR_NLEOF; IPQ_ERR_RTRUNC]).
Proof.
  unfold recv_and_check, kcall, recv_accepted. intros Heq Hst. destruct (k_recvfrom _ _ _) as [r k].
  destruct (Z.ltb_spec (rcv_status r) 0); [simplify_eq; right; split; [done|set_solver]|].
  repeat (case_match; [simplify_eq; right; split; [done|set_solver]|]). simplify_eq. left.
  repeat match goal with H : negb _ = false |- _ => apply negb_false_iff in H
    | H : (_ || _) = false |- _ => apply orb_false_iff in H as [??] end.
  repeat match goal with H : (_ =? _) = true |- _ => apply Z.eqb_eq in H
    | H : (_ =? _) = false |- _ => apply Z.eqb_neq in H
    | H : (_ <? _) = false |- _ => apply Z.ltb_ge in H
    | H : negb _ = false |- _ => apply negb_false_iff in H end.
  rewrite wrap_u_id in * by lia. split_and!; try done; lia.
Qed.

(** C11.  Every way [ipq_read] can end: a positive result is the length of a
    complete message from the kernel and leaves [ipq_errno] alone; zero happens
    only with a timeout; a negative result comes with an error code. *)
Theorem ipq_read_outcome h buf len timeout w st h' buf' w' :
  ipq_read h buf len timeout w = (st, h', buf', w') -> st < 2 ^ 32 ->
  (0 < st /\ ipq_errno w' = ipq_errno w /\ recv_accepted h' st buf') \/
  (st = 0 /\ timeout <> 0 /\
     (ipq_errno w' = ipq_errno w \/ ipq_errno w' = IPQ_ERR_TIMEOUT)) \/
  (st < 0 /\ ipq_errno w' ∈
     [IPQ_ERR_RECV; IPQ_ERR_NLEOF; IPQ_ERR_RTRUNC; IPQ_ERR_RECVBUF]).
Proof.
  unfold ipq_read, ipq_netlink_recvfrom. intros Heq Hst.
  assert (Hrec : forall w0, ipq_errno w0 = ipq_errno w ->
    recv_and_check h buf len w0 = (st, h', buf', w') ->
    (0 < st /\ ipq_errno w' = ipq_errno w /\ recv_accepted h' st buf') \/
    (st < 0 /\ ipq_errno w' ∈
       [IPQ_ERR_RECV; IPQ_ERR_NLEOF; IPQ_ERR_RTRUNC; IPQ_ERR_RECVBUF])).
  { intros w0 Hw0 [(?&?&?)|[??]]%recv_and_check_outcome; [left|right|done].
    - by rewrite <- Hw0. - split; [done|set_solver]. }
  case_match; [simplify_eq; right; right; split; [done|set_solver]|].
  case_match; [destruct (Hrec w) as [?|?]; tauto|].
  assert (timeout <> 0) by lia.
  destruct (if timeout <? 0 then _ else _) as [sec usec].
  unfold kcall in Heq. destruct (k_select _ _ _ _) as [sel k].
  case_match; [case_match; simplify_eq; [tauto|right; right; split; [done|set_solver]]|].
  case_match; [simplify_eq; cbn; tauto|].
  apply Hrec in Heq; [tauto|done].
Qed.

(** C12.  A message that does not come from the kernel is rejected, but its
    sender's address stays in the handle: the next verdict is sent there. *)
Theorem spoofed_peer_persists h buf len w r k from :
  sizeof_nlmsgerr <= len -> k_recvfrom (fd h) len (kern w) = (r, k) ->
  0 <= rcv_status r -> rcv_addrlen r = sizeof_sockaddr_nl -> rcv_from r = from ->
  nl_pid from <> 0 ->
  exists h' buf' w', ipq_read h buf len 0 w = (-1, h', buf', w') /\
    forall id verdict, exists msg,
      ipq_set_verdict h' id verdict 0 None w' = ipq_netlink_sendmsg h' msg from 0 w'.
Proof.
  intros Hlen Hr Hst Hal Hfrom Hpid. unfold ipq_read, ipq_netlink_recvfrom.
  replace (len <? sizeof_nlmsgerr) with false by lia. cbn [Z.eqb].
  unfold recv_and_check, kcall. rewrite Hr. replace (rcv_status r <? 0) with false by lia.
  rewrite Hal, Z.eqb_refl. cbn [negb peer].
  rewrite Hfrom. replace (nl_pid from =? 0) with false by lia.
  do 3 eexists; split; [done|]. intros id verdict. by eexists.
Qed.

Definition part_size (p : msg_part) : Z :=
  match p with
  | PartHeader _ => sizeof_nlmsghdr
  | PartPeer _ => sizeof_peer_msg
  | PartData _ len => len
  end.
Definition message_size (msg : list msg_part) : Z := foldr Z.add 0 (part_size <$> msg).

(** A verdict is framed consistently: the length its header announces is
    the total size of the parts sent, with and without a replacement packet. *)
Theorem ipq_set_verdict_framing h id verdict data_len buf w :
  0 <= sizeof_nlmsghdr -> 0 <= sizeof_peer_msg -> 0 <= data_len ->
  sizeof_nlmsghdr + sizeof_peer_msg + data_len < 2 ^ 32 ->
  exists nlh msg,
    ipq_set_verdict h id verdict data_len buf w =
      ipq_netlink_sendmsg h (PartHeader nlh :: msg) (peer h) 0 w /\
    nlmsg_len nlh = message_size (PartHeader nlh :: msg).
Proof.
  intros Hh Hp Hd Hsum. unfold ipq_set_verdict.
  rewrite (wrap_u_id 32 (sizeof_nlmsghdr + sizeof_peer_msg)) by lia.
  rewrite (wrap_u_id 32 (_ + data_len)) by lia.
  destruct buf as [d|]; [destruct (Z.eqb_spec data_len 0)|]; cbn [negb app];
    (do 2 eexists; split; [done|]); cbn; lia.
Qed.

(** [ipq_set_mode] applies [NLMSG_LENGTH] to a size that already contains
    the header, so it announces, and has the kernel read from the stack, more
    bytes than the request occupies. *)
Theorem ipq_set_mode_overruns h mode range w :
  (forall n, NLMSG_LENGTH n = n + sizeof_nlmsghdr) ->
  0 < sizeof_nlmsghdr -> 0 <= sizeof_peer_msg ->
  2 * sizeof_nlmsghdr + sizeof_peer_msg < 2 ^ 32 ->
  exists nlh msg len,
    ipq_set_mode h mode range w = ipq_netlink_sendto h (PartHeader nlh :: msg) len w /\
    nlmsg_len nlh = len /\ len = message_size (PartHeader nlh :: msg) + sizeof_nlmsghdr.
Proof.
  intros Hlen Hh Hp Hsum. unfold ipq_set_mode. rewrite Hlen.
  unfold sizeof_mode_req. rewrite wrap_u_id by lia.
  do 3 eexists; split; [done|]; split; [done|]. cbn. lia.
Qed.

(** [ipq_strerror] never reads outside its table: a code of the library
    gives its own message, any other integer "Implementation error". *)
Theorem ipq_strerror_total errcode :
  ipq_strerror errcode =
  Ok (match list_find (fun x => x.1 = errcode) ipq_errmap with
      | Some (_, (_, message)) => message
      | None => "Implementation error"%string
      end).
Proof.
  unfold ipq_strerror, IPQ_MAXERR, IPQ_ERR_PROTOCOL.
  destruct (decide (0 <= errcode <= 16)) as [Hin|Hout].
  - replace ((errcode <? 0) || (16 <? errcode)) with false by lia.
    assert (exists n, errcode = Z.of_nat n /\ (n < 17)%nat) as (n & -> & Hn)
      by (exists (Z.to_nat errcode); lia).
    rewrite Nat2Z.id. do 17 (destruct n as [|n]; [done|]). lia.
  - replace ((errcode <? 0) || (16 <? errcode)) with true by lia.
    assert (list_find (fun x : Z * string => x.1 = errcode) ipq_errmap = None) as ->; [|done].
    apply list_find_None. repeat constructor; cbn; intros Heq; apply Hout; rewrite <- Heq; by cbn.
Qed.
End libipq.

Arguments world : clear implicits.

(** ** A concrete layout and kernel, for the witnesses

    The 32-bit Linux layout, and a kernel that delivers one scripted message,
    counts what it is asked to send, and lets every call succeed. *)
Definition le32_at (b : list Z) (i : nat) : Z :=
  nth i b 0 + 2 ^ 8 * nth (i + 1) b 0 + 2 ^ 16 * nth (i + 2) b 0 + 2 ^ 24 * nth (i + 3) b 0.
Definition le16_at (b : list Z) (i : nat) : Z := nth i b 0 + 2 ^ 8 * nth (i + 1) b 0.

Definition linux_abi : NetlinkAbi := {|
  sizeof_nlmsghdr := 16;
  sizeof_nlmsgerr := 20;
  sizeof_sockaddr_nl := 12;
  sizeof_peer_msg := 12;
  NLMSG_LENGTH := fun n => n + 16;
  header_of := fun b => NlMsgHdr (le32_at b 0) (le16_at b 4) (le16_at b 6) (le32_at b 8) (le32_at b 12);
  error_of := fun b => s32 (le32_at b 16);
  packet_of := fun b => PacketMsg (le32_at b 16) (drop 88 b);
  PF_NETLINK := 16; SOCK_RAW := 3; AF_NETLINK := 16;
  NETLINK_FIREWALL := 3; NETLINK_IP6_FW := 13;
  NLM_F_REQUEST := 1; NLMSG_ERROR := 2;
  IPQM_MODE := 17; IPQM_VERDICT := 18; IPQM_PACKET := 19; IPQ_COPY_PACKET := 2;
  EINTR := 4
|}.

Record script := Script { sc_recv : recv_result; sc_sent : nat; sc_written : list string }.

Definition script_kernel : Kernel script := {|
  k_malloc := fun _ k => (true, k);
  k_free := fun k => k;
  k_getpid := fun _ => 1234;
  k_socket := fun _ _ _ k => (5, k);
  k_bind := fun _ _ k => (0, k);
  k_close := fun _ k => k;
  k_sendto := fun _ _ len _ k => (len, Script (sc_recv k) (S (sc_sent k)) (sc_written k));
  k_sendmsg := fun _ _ _ _ k => (28, Script (sc_recv k) (S (sc_sent k)) (sc_written k));
  k_select := fun _ _ _ k => (Select 1 0 true, k);
  k_recvfrom := fun _ _ k => (sc_recv k, k)
|}.

Definition ex_handle : ipq_handle := Handle 5 0 (SockaddrNl 16 1234 0) (SockaddrNl 16 0 0).

(** A 20-byte message: length 20, type [IPQM_PACKET], no flags. *)
Definition ex_message : list Z := [20; 0; 0; 0; 19; 0; 0; 0; 0; 0; 0; 0; 0; 0; 0; 0; 7; 0; 0; 0].
Definition ex_script (from : Z) : script :=
  Script (Recv 20 ex_message 12 (SockaddrNl 16 from 0)) 0 [].

#[local] Existing Instances linux_abi script_kernel.

Lemma ipq_read_outcome_witness :
  (0 < 20 /\ ipq_errno (World 0 (ex_script 0)) = 0 /\
   recv_accepted ex_handle 20 (ex_message ++ replicate 4 0)) \/
  (20 = 0 /\ 0 <> 0 /\ (0 = 0 \/ 0 = IPQ_ERR_TIMEOUT)) \/
  (20 < 0 /\ 0 ∈ [IPQ_ERR_RECV; IPQ_ERR_NLEOF; IPQ_ERR_RTRUNC; IPQ_ERR_RECVBUF]).
Proof.
  refine (ipq_read_outcome ex_handle (replicate 24 0) 24 0 (World 0 (ex_script 0)) 20 ex_handle
    (ex_message ++ replicate 4 0) (World 0 (ex_script 0)) _ _); by vm_compute.
Defined.

Lemma spoofed_peer_persists_witness :
  exists h' buf' w',
    ipq_read ex_handle (replicate 24 0) 24 0 (World 0 (ex_script 666)) = (-1, h', buf', w') /\
    forall id verdict, exists msg,
      ipq_set_verdict h' id verdict 0 None w' =
      ipq_netlink_sendmsg h' msg (SockaddrNl 16 666 0) 0 w'.
Proof.
  refine (spoofed_peer_persists ex_handle (replicate 24 0) 24 (World 0 (ex_script 666))
    (Recv 20 ex_message 12 (SockaddrNl 16 666 0)) (ex_script 666) (SockaddrNl 16 666 0)
    _ _ _ _ _ _); by vm_compute.
Defined.

Lemma ipq_set_verdict_framing_witness :
  exists nlh msg,
    ipq_set_verdict ex_handle 7 NF_ACCEPT 3 (Some [1; 2; 3]) (World 0 (ex_script 0)) =
      ipq_netlink_sendmsg ex_handle (PartHeader nlh :: msg) (peer ex_handle) 0
        (World 0 (ex_script 0)) /\
    nlmsg_len nlh = message_size (PartHeader nlh :: msg).
Proof.
  refine (ipq_set_verdict_framing ex_handle 7 NF_ACCEPT 3 (Some [1; 2; 3])
    (World 0 (ex_script 0)) _ _ _ _); by vm_compute.
Defined.

Lemma ipq_set_mode_overruns_witness :
  exists nlh msg len,
    ipq_set_mode ex_handle IPQ_COPY_PACKET 4096 (World 0 (ex_script 0)) =
      ipq_netlink_sendto ex_handle (PartHeader nlh :: msg) len (World 0 (ex_script 0)) /\
    nlmsg_len nlh = len /\ len = message_size (PartHeader nlh :: msg) + sizeof_nlmsghdr.
Proof.
  refine (ipq_set_mode_overruns ex_handle IPQ_COPY_PACKET 4096 (World 0 (ex_script 0)) _ _ _ _);
    by vm_compute.
Defined.
