(* ===== verification/IpqServer.v ===== *)
(** * The packet queue server

    [jni/ipqserver/server.c], lines 208 to 494: the process that passes queued
    packets to the Java side over a socket and answers its verdicts.  It runs
    the history list of [HistoryList] and the netlink library of [LibIpq].  The
    kernel is abstract ([LibIpq.Kernel]); writing to the connection is the class
    [Connection].  An iteration of a thread's loop is a function from what the
    call it blocks on returned. *)

From stdpp Require Import base list strings gmap.
From Stdlib Require Import ZArith Lia Ascii.
From S2P Require Import Prelude CString HistoryList LibIpq.

Open Scope Z_scope.

Definition BUFFSIZE : Z := 4096.

(** [IPCOMP(addr, n)], on a signed or unsigned address. *)
Definition IPCOMP (addr n : Z) : Z := Z.land (Z.shiftr addr (24 - 8 * n)) 255.

Class Connection (K : Type) := {
  k_write : string -> K -> Z * K;      (* write on the connection *)
  k_setsockopt : Z -> Z -> K -> Z * K  (* SO_RCVBUF *)
}.

(** ** Packet headers

    The fields of [struct iphdr] and [struct tcphdr] that the code reads, at the
    offsets the protocols fix; multi-byte loads are little-endian. *)
Definition byte_at (p : list Z) (i : nat) : res Z :=
  match p !! i with Some b => Ok b | None => Err OutOfBounds end.
Definition load32 (p : list Z) (i : nat) : res Z :=
  a ← byte_at p i; b ← byte_at p (S i); c ← byte_at p (S (S i)); d ← byte_at p (S (S (S i)));
  Ok (a + 2 ^ 8 * b + 2 ^ 16 * c + 2 ^ 24 * d).

Definition iphdr_ihl (p : list Z) : res Z := b ← byte_at p 0; Ok (Z.land b 15).
Definition iphdr_protocol (p : list Z) : res Z := byte_at p 9.
Definition iphdr_saddr (p : list Z) : res Z := load32 p 12.
Definition iphdr_daddr (p : list Z) : res Z := load32 p 16.
(** [htons(tcp->dest)]: the field is big-endian in the packet. *)
Definition tcphdr_dest (p : list Z) (off : nat) : res Z :=
  a ← byte_at p (off + 2)%nat; b ← byte_at p (off + 3)%nat; Ok (2 ^ 8 * a + b).

(** ** Messages on the connection *)

(** [snprintf(buf, n, ...)]: the text stored and the value returned. *)
Definition snprintf (n : nat) (text : string) : string * Z := (str_take (n - 1) text, strlen text).

Definition needed_chars : nat := 1024.

Definition quad (addr : Z) : string :=
  dec (IPCOMP addr 3) +:+ "." +:+ dec (IPCOMP addr 2) +:+ "." +:+
  dec (IPCOMP addr 1) +:+ "." +:+ dec (IPCOMP addr 0).

(** The format ["%lu=%d.%d.%d.%d>%d.%d.%d.%d:%d,%d\n"]. *)
Definition request_line (id source_ip destination_ip port protocol : Z) : string :=
  dec id +:+ "=" +:+ quad source_ip +:+ ">" +:+ quad destination_ip +:+ ":" +:+
  dec port +:+ "," +:+ dec protocol +:+ String LF "".

(** The answer ["id;ip;port"] in the reader's buffer.  A missing field is a
    null pointer passed to [strtoul] or [atoi]. *)
Definition token_text (p : option nat) (t : tok_state) : res string :=
  match p with
  | None => Err NullDeref
  | Some p => cstr_at (tok_buf t) p
  end.

Record answer := Answer { a_id : Z; a_ip : Z; a_port : Z }.

Definition parse_answer (buffer : list ascii) : res (answer * list ascii) :=
  '(id, t) ← strtok (Some O) ";" (Tok buffer None);
  '(ipf, t) ← strtok None ";" t;
  '(portf, t) ← strtok None ";" t;
  id_text ← token_text id t;
  ip_text ← token_text ipf t;
  port_text ← token_text portf t;
  Ok (Answer (strtoul id_text) (u32 (atoi ip_text)) (u16 (atoi port_text)), tok_buf t).

(** ** Answers round trip

    The Java side ([IpqWorker.verdict]) writes the packet id, the destination as
    the [int] whose bytes are the address's octets, and the port. *)
Definition ipStringToInt (first second third fourth : Z) : Z :=
  s32 (first + s32 (Z.shiftl second 8) + s32 (Z.shiftl third 16) + s32 (Z.shiftl fourth 24)).

Definition verdict_line (id ip port : Z) : string :=
  dec id +:+ ";" +:+ dec ip +:+ ";" +:+ dec port +:+ String LF "".

(** What may follow an answer in the buffer: characters of the last token, then
    a delimiter or a terminator. *)
Definition ends_token (stale : list ascii) : Prop :=
  exists mid x rest, stale = mid ++ x :: rest /\
    Forall (token_char ";") mid /\ (x = ";"%char \/ x = NUL).

Lemma strtok_port pre port mid x rest :
  Forall (token_char ";") mid -> x = ";"%char \/ x = NUL ->
  exists save,
  strtok_at ";" (length pre) (pre ++ chars (dec port) ++ LF :: mid ++ x :: rest) =
  Ok (Some (length pre), Tok (pre ++ (chars (dec port) ++ LF :: mid) ++ NUL :: rest) save).
Proof.
  intros Hmid Hx.
  assert (Htok : Forall (token_char ";") (chars (dec port) ++ LF :: mid)).
  { apply Forall_app; split; [by apply dec_token|]. by constructor. }
  assert (Heq : pre ++ chars (dec port) ++ LF :: mid ++ x :: rest =
                pre ++ (chars (dec port) ++ LF :: mid) ++ x :: rest) by by rewrite <- !app_assoc.
  rewrite Heq. destruct (dec_nonempty port) as (c & s & Hd). rewrite Hd in *.
  cbn [chars String.list_ascii_of_string app] in Htok |- *.
  destruct Hx as [->| ->]; eexists.
  - by apply (strtok_at_token ";" pre c (chars s ++ LF :: mid) rest).
  - by apply (strtok_at_last ";" pre c (chars s ++ LF :: mid) rest).
Qed.

Lemma parse_verdict_line id ip port stale :
  0 <= id < 2 ^ 32 -> INT32_MIN <= ip <= INT32_MAX -> 0 <= port < 2 ^ 16 ->
  ends_token stale ->
  exists buffer', parse_answer (chars (verdict_line id ip port) ++ stale) =
    Ok (Answer id (u32 ip) port, buffer').
Proof.
  intros Hid Hip Hport (mid & x & rest & -> & Hmid & Hx).
  set (R2 := chars (dec port) ++ LF :: mid ++ x :: rest).
  set (R1 := chars (dec ip) ++ ";"%char :: R2).
  assert (chars (verdict_line id ip port) ++ mid ++ x :: rest =
          chars (dec id) ++ ";"%char :: R1) as ->.
  { unfold verdict_line, R1, R2. rewrite !chars_app, <- !app_assoc. done. }
  unfold parse_answer. rewrite strtok_first, (strtok_at_dec ";" [] id R1) by done.
  cbn [mbind res_bind]. rewrite (strtok_next ";" [] (chars (dec id)) R1).
  set (pre2 := [] ++ chars (dec id) ++ [NUL]). unfold R1.
  rewrite (strtok_at_dec ";" pre2 ip R2) by done. cbn [mbind res_bind].
  rewrite (strtok_next ";" pre2 (chars (dec ip)) R2).
  set (pre3 := pre2 ++ chars (dec ip) ++ [NUL]).
  destruct (strtok_port pre3 port mid x rest Hmid Hx) as [save Hp].
  unfold R2 at 1. rewrite Hp. cbn [mbind res_bind token_text tok_buf].
  set (R3 := (chars (dec port) ++ LF :: mid) ++ NUL :: rest).
  change (pre3 ++ (chars (dec port) ++ LF :: mid) ++ NUL :: rest) with (pre3 ++ R3).
  assert (cstr_at (pre3 ++ R3) (length (@nil ascii)) = Ok (dec id)) as ->.
  { replace (pre3 ++ R3) with ([] ++ chars (dec id) ++ NUL :: chars (dec ip) ++ NUL :: R3)
      by (unfold pre3, pre2; by rewrite <- !app_assoc). apply cstr_at_dec. }
  assert (cstr_at (pre3 ++ R3) (length pre2) = Ok (dec ip)) as ->.
  { replace (pre3 ++ R3) with (pre2 ++ chars (dec ip) ++ NUL :: R3)
      by (unfold pre3; by rewrite <- !app_assoc). apply cstr_at_dec. }
  assert (cstr_at (pre3 ++ R3) (length pre3) =
          Ok (dec port +:+ String LF (String.string_of_list_ascii mid))) as ->.
  { unfold cstr_at. rewrite drop_app_length. unfold R3. rewrite cstr_run, of_chars_app; [done|].
    apply Forall_app; split; [|constructor; [done|]].
    - eapply Forall_impl; [by apply (dec_token ";" port)|]. by intros c [_ ?].
    - eapply Forall_impl; [exact Hmid|]. by intros c [_ ?]. }
  cbn [mbind res_bind]. exists (pre3 ++ R3). do 2 f_equal.
  rewrite <- (str_app_nil_r (dec id)), <- (str_app_nil_r (dec ip)).
  rewrite strtoul_dec, !atoi_dec by (done || (unfold INT32_MIN, INT32_MAX; lia)).
  by rewrite (wrap_u_id 16).
Qed.

(** ** Requests *)

(** The little-endian word in memory that holds an address's octets in order. *)
Definition word_of_octets (a b c d : Z) : Z := a + 2 ^ 8 * b + 2 ^ 16 * c + 2 ^ 24 * d.

Definition octet (z : Z) : Prop := 0 <= z < 256.

(** Sign does not matter to the octets. *)
Lemma land_255 x : Z.land x 255 = x mod 256.
Proof. change 255 with (Z.ones 8). by rewrite Z.land_ones by lia. Qed.

Lemma IPCOMP_s32 a b c d :
  octet a -> octet b -> octet c -> octet d ->
  let w := s32 (word_of_octets a b c d) in
  IPCOMP w 3 = a /\ IPCOMP w 2 = b /\ IPCOMP w 1 = c /\ IPCOMP w 0 = d.
Proof.
  unfold octet, IPCOMP, word_of_octets, wrap_s. intros Ha Hb Hc Hd. cbn zeta.
  rewrite !land_255, !Z.shiftr_div_pow2 by lia. cbn.
  Z.div_mod_to_equations. lia.
Qed.

Lemma quad_octets a b c d :
  octet a -> octet b -> octet c -> octet d ->
  quad (s32 (word_of_octets a b c d)) =
  dec a +:+ "." +:+ dec b +:+ "." +:+ dec c +:+ "." +:+ dec d.
Proof.
  intros Ha Hb Hc Hd. destruct (IPCOMP_s32 a b c d) as (H1 & H2 & H3 & H4); [done..|].
  unfold quad. by rewrite H1, H2, H3, H4.
Qed.

Lemma octet_length a : octet a -> (String.length (dec a) <= 3)%nat.
Proof. intros H. apply (dec_length 2). unfold octet in H. cbn. lia. Qed.

Lemma IPCOMP_octet w n : octet (IPCOMP w n).
Proof. unfold IPCOMP, octet. rewrite land_255. by apply Z.mod_pos_bound. Qed.

Lemma quad_length w : (String.length (quad w) <= 15)%nat.
Proof.
  unfold quad. rewrite !length_str_app.
  pose proof (octet_length _ (IPCOMP_octet w 0)). pose proof (octet_length _ (IPCOMP_octet w 1)).
  pose proof (octet_length _ (IPCOMP_octet w 2)). pose proof (octet_length _ (IPCOMP_octet w 3)).
  cbn [String.length]. lia.
Qed.

(** Every request fits the 1024-byte buffer with room to spare. *)
Lemma request_line_length id src dst port protocol :
  0 <= id < 2 ^ 32 -> 0 <= port < 2 ^ 16 -> octet protocol ->
  (String.length (request_line id src dst port protocol) <= 53)%nat.
Proof.
  intros Hid Hport Hpr. unfold request_line. rewrite !length_str_app.
  pose proof (quad_length src). pose proof (quad_length dst).
  pose proof (octet_length _ Hpr).
  pose proof (dec_length 9 id ltac:(cbn; lia)). pose proof (dec_length 4 port ltac:(cbn; lia)).
  cbn [String.length]. lia.
Qed.

Section server.
Context {abi : NetlinkAbi} {K : Type} {kernel : Kernel K} {conn : Connection K}.

(** ** The process *)

Record proc := Proc {
  history : server;
  net : world K;
  running : bool
}.

(** A thread's iteration leaves the process running, or it has called [exit]. *)
Inductive outcome : Type :=
  | Continue (p : proc)
  | Exit (code : Z) (p : proc).

Definition stop (p : proc) : proc := Proc (history p) (net p) false.

(** [die]: the library's error goes to [stderr]; [syserr] is the C [errno]. *)
Definition die (h : option ipq_handle) (syserr : Z * string) (p : proc) : res outcome :=
  let p := stop p in
  _ ← ipq_perror (Some "passer"%string) syserr (net p);
  let '(_, w) := ipq_destroy_handle h (net p) in
  Ok (Exit 1 (Proc (history p) w (running p))).

(** ** The reader *)

(** What the environment supplies to one iteration: the result of [read], the
    clock, the result of [malloc] and the C [errno]. *)
Record read_input := ReadInput {
  in_nbytes : Z;
  in_bytes : list ascii;
  in_now : Z;
  in_alloc : option loc;
  in_syserr : Z * string
}.

Definition read_java_iter (h : ipq_handle) (i : read_input) (buffer : list ascii) (p : proc)
    : res (outcome * list ascii) :=
  let buffer := in_bytes i ++ drop (length (in_bytes i)) buffer in
  if 0 <? in_nbytes i then
    '(a, buffer) ← parse_answer buffer;
    '(_, history') ← add_to_list (in_alloc i) (a_ip a) (a_port a)
                       (wrap_u 64 (in_now i)) (history p);
    let '(status, w) := ipq_set_verdict h (a_id a) NF_ACCEPT 0 None (net p) in
    let p := Proc history' w (running p) in
    if status <? 0 then o ← die (Some h) (in_syserr i) p; Ok (o, buffer)
    else Ok (Continue p, buffer)
  else Ok (Continue p, buffer).

(** [do ... while (running)] over the inputs that arrive. *)
Fixpoint read_java (h : ipq_handle) (inputs : list read_input) (buffer : list ascii) (p : proc)
    : res outcome :=
  match inputs with
  | [] => Ok (Continue p)
  | i :: inputs =>
      '(o, buffer) ← read_java_iter h i buffer p;
      match o with
      | Continue p => if running p then read_java h inputs buffer p else Ok (Continue p)
      | Exit _ _ => Ok o
      end
  end.

(** ** The sender *)

(** The [write] of [used_chars] bytes of [response], compared with [used_chars]: at most the
    1024 bytes of [response] may be sent. *)
Definition write_response (r : string * Z) (p : proc) : res proc :=
  let '(text, used) := r in
  if used <=? strlen text then
    let '(n, k) := k_write text (kern (net p)) in
    let p := Proc (history p) (World (ipq_errno (net p)) k) (running p) in
    Ok (if n =? used then p else stop p)
  else Err OutOfBounds.

(** Handling of one queued packet: an authorised destination is accepted at
    once, any other is reported to the Java side. *)
Definition handle_packet (h : ipq_handle) (now : Z) (syserr : Z * string) (buf : list Z)
    (p : proc) : res outcome :=
  let m := ipq_get_packet buf in
  protocol ← iphdr_protocol (payload m);
  ihl ← iphdr_ihl (payload m);
  saddr ← iphdr_saddr (payload m);
  daddr ← iphdr_daddr (payload m);
  dest ← tcphdr_dest (payload m) (Z.to_nat (4 * ihl));
  let source_ip := s32 saddr in
  let destination_ip := s32 daddr in
  '(found, _) ← search_in_list (u32 destination_ip) (u16 dest) now None (history p);
  match found with
  | None =>
      p ← write_response
            (snprintf needed_chars
               (request_line (packet_id m) source_ip destination_ip dest protocol)) p;
      Ok (Continue p)
  | Some _ =>
      let '(status, w) := ipq_set_verdict h (packet_id m) NF_ACCEPT 0 None (net p) in
      let p := Proc (history p) w (running p) in
      if status <? 0 then die (Some h) syserr p else Ok (Continue p)
  end.

Definition send_ipq_iter (h : ipq_handle) (now : Z) (syserr : Z * string) (buf : list Z)
    (p : proc) : res (outcome * ipq_handle * list Z) :=
  let '(status, h, buf, w) := ipq_read h buf BUFFSIZE 0 (net p) in
  let p := Proc (history p) w (running p) in
  o ← (if status <? 0 then die (Some h) syserr p
       else if ipq_message_type buf =? NLMSG_ERROR then
         p ← write_response (snprintf needed_chars
               ("Received error message " +:+ dec (ipq_get_msgerr buf) +:+ String LF "")) p;
         Ok (Continue p)
       else if ipq_message_type buf =? IPQM_PACKET then handle_packet h now syserr buf p
       else
         p ← write_response (snprintf needed_chars ("Unknown message type!" +:+ String LF "")) p;
         Ok (Continue p));
  Ok (o, h, buf).

(** ** Start-up *)

(** [init_ipq]; [rcvbuf] is the buffer size it asks for. *)
Definition rcvbuf : Z := 112640.

Definition init_ipq (syserr : Z * string) (p : proc) : res (option ipq_handle * outcome) :=
  let '(h, w) := ipq_create_handle 0 NFPROTO_IPV4 (net p) in
  let p := Proc (history p) w (running p) in
  match h with
  | None => o ← die None syserr p; Ok (None, o)
  | Some h =>
      let '(status, k) := k_setsockopt (fd h) rcvbuf (kern (net p)) in
      let p := Proc (history p) (World (ipq_errno (net p)) k) (running p) in
      if negb (status =? 0) then o ← die (Some h) syserr p; Ok (None, o)
      else
        let '(status, w) := ipq_set_mode h IPQ_COPY_PACKET BUFFSIZE (net p) in
        let p := Proc (history p) w (running p) in
        if status <? 0 then o ← die (Some h) syserr p; Ok (None, o)
        else Ok (Some h, Continue p)
  end.

(** ** Properties *)

(** The header fields of a packet, as the sender reads them. *)
Definition packet_fields (p : list Z) (protocol source dest port : Z) : Prop :=
  iphdr_protocol p = Ok protocol /\ iphdr_saddr p = Ok source /\ iphdr_daddr p = Ok dest /\
  exists ihl, iphdr_ihl p = Ok ihl /\ tcphdr_dest p (Z.to_nat (4 * ihl)) = Ok port.

(** The sender's two actions. *)
Definition accept (h : ipq_handle) (id : Z) (p : proc) : Z * proc :=
  let '(status, w) := ipq_set_verdict h id NF_ACCEPT 0 None (net p) in
  (status, Proc (history p) w (running p)).

Definition report (line : string) (p : proc) : proc :=
  let '(n, k) := k_write line (kern (net p)) in
  let p := Proc (history p) (World (ipq_errno (net p)) k) (running p) in
  if n =? strlen line then p else stop p.

Lemma str_take_all n s : (String.length s <= n)%nat -> str_take n s = s.
Proof.
  revert s. induction n as [|n IH]; intros [|c s] Hs; cbn in *; try done; [lia|].
  by rewrite IH by lia.
Qed.

Lemma write_response_fits line p :
  (String.length line < needed_chars)%nat ->
  write_response (snprintf needed_chars line) p = Ok (report line p).
Proof.
  intros Hl. unfold write_response, snprintf, report.
  rewrite str_take_all by lia. rewrite Z.leb_refl. by destruct (k_write _ _).
Qed.

Lemma u32_s32 x : 0 <= x < 2 ^ 32 -> u32 (s32 x) = x.
Proof. intros Hx. rewrite wrap_u_wrap_s by lia. by apply wrap_u_id. Qed.

(** The sender's decision, for a represented history. *)
Lemma handle_packet_spec h now syserr buf p ns protocol src dst port :
  history p = to_server ns -> nodes_ok ns ->
  packet_fields (payload (packet_of buf)) protocol src dst port ->
  0 <= dst < 2 ^ 32 -> 0 <= port < 2 ^ 16 -> octet protocol ->
  0 <= packet_id (packet_of buf) < 2 ^ 32 ->
  handle_packet h now syserr buf p =
  if decide (Exists (fun x => authorised now dst port x.2) ns)
  then let '(status, p') := accept h (packet_id (packet_of buf)) p in
       if status <? 0 then die (Some h) syserr p' else Ok (Continue p')
  else Ok (Continue (report (request_line (packet_id (packet_of buf)) (s32 src) (s32 dst)
                               port protocol) p)).
Proof.
  intros Hh [Hnd Hok] (Hpr & Hs & Hd & ihl & Hi & Hp) Hdst Hport Hproto Hid.
  unfold handle_packet, ipq_get_packet. rewrite Hpr, Hi, Hs, Hd. cbn [mbind res_bind].
  rewrite Hp. cbn [mbind res_bind]. rewrite u32_s32, (wrap_u_id 16), Hh by done.
  rewrite search_in_list_spec by done. cbn [mbind res_bind].
  destruct (list_find _ ns) as [[i [l e]]|] eqn:Hf.
  - rewrite decide_True.
    2: { apply list_find_Some in Hf as (Hi' & Ha & _). apply Exists_exists.
         exists (l, e). split; [exact (list_elem_of_lookup_2 ns i _ Hi')|done]. }
    unfold accept. rewrite Hh. by destruct (ipq_set_verdict _ _ _ _ _ _).
  - apply list_find_None in Hf. rewrite decide_False.
    2: { intros Hex. apply Exists_exists in Hex as (x & Hx & Ha).
         rewrite Forall_forall in Hf. by apply (Hf x Hx). }
    rewrite write_response_fits; [done|].
    pose proof (request_line_length (packet_id (packet_of buf)) (s32 src) (s32 dst) port
                  protocol Hid Hport Hproto).
    unfold needed_chars. lia.
Qed.

(** C4.  A queued packet is accepted without asking exactly when the history
    holds an unexpired authorisation for its destination and port; otherwise it
    is reported, in full, on the connection, and no verdict is given. *)
Theorem handle_packet_decision h now syserr buf p ns protocol src dst port :
  history p = to_server ns -> nodes_ok ns ->
  packet_fields (payload (packet_of buf)) protocol src dst port ->
  0 <= dst < 2 ^ 32 -> 0 <= port < 2 ^ 16 -> octet protocol ->
  0 <= packet_id (packet_of buf) < 2 ^ 32 ->
  handle_packet h now syserr buf p =
  if decide (Exists (fun x => authorised now dst port x.2) ns)
  then let '(status, p') := accept h (packet_id (packet_of buf)) p in
       if status <? 0 then die (Some h) syserr p' else Ok (Continue p')
  else Ok (Continue (report (request_line (packet_id (packet_of buf)) (s32 src) (s32 dst)
                               port protocol) p)).
Proof. apply handle_packet_spec. Qed.

(** An answer from the Java side at the front of the reader's buffer. *)
Definition holds_answer (i : read_input) (buffer : list ascii) (id o1 o2 o3 o4 port : Z) : Prop :=
  0 < in_nbytes i /\ exists stale,
    in_bytes i ++ drop (length (in_bytes i)) buffer =
      chars (verdict_line id (ipStringToInt o1 o2 o3 o4) port) ++ stale /\ ends_token stale /\
    0 <= id < 2 ^ 32 /\ 0 <= port < 2 ^ 16 /\ octet o1 /\ octet o2 /\ octet o3 /\ octet o4.

(** Reading the Java side's [int] back gives the word the packets carry. *)
Lemma ipStringToInt_word o1 o2 o3 o4 :
  octet o1 -> octet o2 -> octet o3 -> octet o4 ->
  u32 (ipStringToInt o1 o2 o3 o4) = word_of_octets o1 o2 o3 o4 /\
  INT32_MIN <= ipStringToInt o1 o2 o3 o4 <= INT32_MAX.
Proof.
  unfold octet. intros H1 H2 H3 H4. unfold ipStringToInt. split.
  - rewrite wrap_u_wrap_s by lia. unfold wrap_u, wrap_s, word_of_octets.
    rewrite !Z.shiftl_mul_pow2 by lia. Z.div_mod_to_equations. lia.
  - pose proof (wrap_s_range 32 (o1 + s32 (Z.shiftl o2 8) + s32 (Z.shiftl o3 16)
      + s32 (Z.shiftl o4 24)) ltac:(lia)) as Hr.
    unfold INT32_MIN, INT32_MAX. cbn in Hr |- *. lia.
Qed.

Lemma word_of_octets_range o1 o2 o3 o4 :
  octet o1 -> octet o2 -> octet o3 -> octet o4 -> 0 <= word_of_octets o1 o2 o3 o4 < 2 ^ 32.
Proof. unfold octet, word_of_octets. lia. Qed.

(** The reader records the destination and accepts the packet. *)
Lemma read_java_iter_spec h i buffer p id o1 o2 o3 o4 port :
  holds_answer i buffer id o1 o2 o3 o4 port ->
  exists buffer', read_java_iter h i buffer p =
    '(_, history') ← add_to_list (in_alloc i) (word_of_octets o1 o2 o3 o4) port
                       (wrap_u 64 (in_now i)) (history p);
    let '(status, p') := accept h id (Proc history' (net p) (running p)) in
    if status <? 0 then o ← die (Some h) (in_syserr i) p'; Ok (o, buffer')
    else Ok (Continue p', buffer').
Proof.
  intros (Hn & stale & Hbuf & Hst & Hid & Hport & H1 & H2 & H3 & H4).
  destruct (ipStringToInt_word o1 o2 o3 o4) as [Hw Hr]; [done..|].
  destruct (parse_verdict_line id (ipStringToInt o1 o2 o3 o4) port stale) as [buffer' Hp];
    [done..|].
  exists buffer'. unfold read_java_iter. replace (0 <? in_nbytes i) with true by lia.
  rewrite Hbuf, Hp. cbn [mbind res_bind a_ip a_port a_id]. rewrite Hw.
  destruct (add_to_list _ _ _ _ _) as [[? history']| |]; cbn [mbind res_bind]; [|done..].
  unfold accept. cbn [net history running]. by destruct (ipq_set_verdict _ _ _ _ _ _).
Qed.

Lemma second_ends_token id ip port l : ends_token (chars (verdict_line id ip port) ++ l).
Proof.
  exists (chars (dec id)), ";"%char.
  exists (chars (dec ip +:+ ";" +:+ dec port +:+ String LF "") ++ l). split_and!.
  - unfold verdict_line. by rewrite chars_app, <- app_assoc.
  - by apply dec_token.
  - by left.
Qed.

(** C9.  Two answers that arrive in one [read] are one answer: the reader
    records and accepts the first and drops the second, whose packet gets
    neither a verdict nor an entry in the history. *)
Theorem coalesced_answers_lose_second h i buffer p id o1 o2 o3 o4 port id' ip' port' :
  in_nbytes i = Z.of_nat (length (in_bytes i)) ->
  in_bytes i = chars (verdict_line id (ipStringToInt o1 o2 o3 o4) port) ++
               chars (verdict_line id' ip' port') ->
  0 <= id < 2 ^ 32 -> 0 <= port < 2 ^ 16 -> octet o1 -> octet o2 -> octet o3 -> octet o4 ->
  exists buffer', read_java_iter h i buffer p =
    '(_, history') ← add_to_list (in_alloc i) (word_of_octets o1 o2 o3 o4) port
                       (wrap_u 64 (in_now i)) (history p);
    let '(status, p') := accept h id (Proc history' (net p) (running p)) in
    if status <? 0 then o ← die (Some h) (in_syserr i) p'; Ok (o, buffer')
    else Ok (Continue p', buffer').
Proof.
  intros Hn Hb Hid Hport H1 H2 H3 H4. apply read_java_iter_spec. split.
  - rewrite Hn, Hb. destruct (dec_nonempty id) as (c & s & Hd).
    unfold verdict_line at 1. rewrite Hd, str_app_cons. cbn. lia.
  - eexists. split; [rewrite Hb at 1; by rewrite <- app_assoc|].
    split_and!; try done; try lia. apply second_ends_token.
Qed.

(** C3.  End to end: once the Java side has answered for a destination, packets
    to it are accepted without asking for the next [TIMEVALIDITY] seconds,
    whatever passes the cleaner makes in between. *)
Theorem answered_destination_is_accepted h i buffer p ns l id o1 o2 o3 o4 port clock now :
  holds_answer i buffer id o1 o2 o3 o4 port ->
  let e := Entry (word_of_octets o1 o2 o3 o4) port (in_now i) in
  history p = to_server ns -> in_alloc i = Some l -> 0 <= in_now i ->
  nodes_ok (ns ++ [(l, e)]) -> by_age (ns ++ [(l, e)]) ->
  0 <= (ipq_set_verdict h id NF_ACCEPT 0 None (net p)).1 ->
  Forall (fun c => c <= now) clock -> now < in_now i + TIMEVALIDITY ->
  exists p1 buffer' s2,
    read_java_iter h i buffer p = Ok (Continue p1, buffer') /\
    clean_list clock (history p1) = Ok s2 /\
    forall p2 buf syserr protocol src,
      history p2 = s2 ->
      packet_fields (payload (packet_of buf)) protocol src (word_of_octets o1 o2 o3 o4) port ->
      octet protocol -> 0 <= packet_id (packet_of buf) < 2 ^ 32 ->
      handle_packet h now syserr buf p2 =
      let '(status, p') := accept h (packet_id (packet_of buf)) p2 in
      if status <? 0 then die (Some h) syserr p' else Ok (Continue p').
Proof.
  intros Ha e Hp Hl Hnow0 Hok Hs Hst Hclock Hnow.
  destruct (authorisation_kept ns l (word_of_octets o1 o2 o3 o4) port (in_now i) clock now)
    as (ns2 & Hadd & Hclean & Hok2 & Hex); [done..|].
  assert (in_now i < 2 ^ 31) as Hmax.
  { destruct Hok as [_ Hok]. rewrite Forall_app, Forall_singleton in Hok.
    destruct Hok as [_ [_ Hle]]. unfold INT32_MAX, TIMEVALIDITY in Hle. cbn in Hle. lia. }
  destruct (read_java_iter_spec h i buffer p id o1 o2 o3 o4 port Ha) as [buffer' Hiter].
  rewrite wrap_u_id, Hl, Hp, Hadd in Hiter by lia. cbn [mbind res_bind] in Hiter.
  unfold accept in Hiter. cbn [net] in Hiter.
  destruct (ipq_set_verdict h id NF_ACCEPT 0 None (net p)) as [st w]. cbn in Hst.
  replace (st <? 0) with false in Hiter by lia.
  do 3 eexists. split; [exact Hiter|]. split; [exact Hclean|].
  intros p2 buf syserr protocol src Hp2 Hf Hpr Hid'.
  destruct Ha as (_ & stale & _ & _ & _ & Hport & ? & ? & ? & ?).
  rewrite (handle_packet_spec h now syserr buf p2 ns2 protocol src _ port) by
    (try done; by apply word_of_octets_range).
  by rewrite decide_True.
Qed.
End server.

Arguments proc : clear implicits.
Arguments outcome : clear implicits.

(** ** Witnesses *)

#[local] Existing Instances linux_abi script_kernel.
#[local] Instance script_connection : Connection script := {|
  k_write := fun text k => (strlen text, Script (sc_recv k) (sc_sent k) (sc_written k ++ [text]));
  k_setsockopt := fun _ _ k => (0, k)
|}.

(** A queued packet: 88 bytes of headers (id 77), then an IPv4 header from
    10.0.0.5 to 93.184.216.34 and the first bytes of a TCP header, port 443. *)
Definition ex_packet : list Z :=
  replicate 16 0 ++ [77] ++ replicate 71 0 ++
  [69; 0; 0; 40; 0; 0; 0; 0; 64; 6; 0; 0; 10; 0; 0; 5; 93; 184; 216; 34] ++ [192; 1; 1; 187].

Definition ex_dest : Z := word_of_octets 93 184 216 34.
Definition ex_world : world script := World 0 (ex_script 0).
Definition ex_history : list (loc * entry) := [(1%positive, Entry ex_dest 443 1000)].
Definition ex_proc (ns : list (loc * entry)) : proc script := Proc (to_server ns) ex_world true.

Lemma ex_packet_fields :
  packet_fields (payload (packet_of ex_packet)) 6 (word_of_octets 10 0 0 5) ex_dest 443.
Proof. split_and!; [done..|]. exists 5. by split. Qed.

Lemma handle_packet_decision_witness :
  handle_packet ex_handle 1599 (0, "") ex_packet (ex_proc ex_history) =
    Ok (Continue (Proc (to_server ex_history) (World 0 (Script (sc_recv (ex_script 0)) 1 [])) true)) /\
  handle_packet ex_handle 1600 (0, "") ex_packet (ex_proc ex_history) =
    Ok (Continue (Proc (to_server ex_history) (World 0 (Script (sc_recv (ex_script 0)) 0
      ["77=10.0.0.5>93.184.216.34:443,6" +:+ String LF ""])) true)).
Proof.
  assert (nodes_ok ex_history) as Hok by solve_nodes_ok.
  split; (etrans; [refine (handle_packet_decision ex_handle _ (0, "") ex_packet
    (ex_proc ex_history) ex_history 6 (word_of_octets 10 0 0 5) ex_dest 443
    eq_refl Hok ex_packet_fields _ _ _ _); by vm_compute|by vm_compute]).
Defined.

Definition ex_answer : list ascii := chars (verdict_line 77 (ipStringToInt 93 184 216 34) 443).
Definition ex_second : list ascii := chars (verdict_line 78 5 80).
Definition ex_input (bytes : list ascii) : read_input :=
  ReadInput (Z.of_nat (length bytes)) bytes 1000 (Some 1%positive) (0, "").
Definition ex_buffer : list ascii := replicate 64 NUL.

Lemma coalesced_answers_lose_second_witness :
  exists buffer', read_java_iter ex_handle (ex_input (ex_answer ++ ex_second)) ex_buffer (ex_proc []) =
    Ok (Continue (Proc (to_server ex_history) (World 0 (Script (sc_recv (ex_script 0)) 1 [])) true),
        buffer').
Proof.
  destruct (coalesced_answers_lose_second ex_handle (ex_input (ex_answer ++ ex_second)) ex_buffer
    (ex_proc []) 77 93 184 216 34 443 78 5 80) as [buffer' Heq].
  1, 2: done.
  1, 2: by split.
  1, 2, 3, 4: by split.
  exists buffer'. rewrite Heq. by vm_compute.
Defined.

Lemma answered_destination_is_accepted_witness :
  exists p1 buffer' s2,
    read_java_iter ex_handle (ex_input ex_answer) ex_buffer (ex_proc []) =
      Ok (Continue p1, buffer') /\
    clean_list [1030; 1060] (history p1) = Ok s2 /\
    forall p2 buf syserr protocol src,
      history p2 = s2 ->
      packet_fields (payload (packet_of buf)) protocol src ex_dest 443 ->
      octet protocol -> 0 <= packet_id (packet_of buf) < 2 ^ 32 ->
      handle_packet ex_handle 1599 syserr buf p2 =
      let '(status, p') := accept ex_handle (packet_id (packet_of buf)) p2 in
      if status <? 0 then die (Some ex_handle) syserr p' else Ok (Continue p').
Proof.
  refine (answered_destination_is_accepted ex_handle (ex_input ex_answer) ex_buffer (ex_proc [])
    [] 1%positive 77 93 184 216 34 443 [1030; 1060] 1599 _ eq_refl eq_refl _ _ _ _ _ _).
  - split; [by vm_compute|]. exists (drop (length ex_answer) ex_buffer). split; [done|].
    split_and!; try done. exists [], NUL. eexists. split; [by vm_compute|]. split; [done|by right].
  - by vm_compute.
  - solve_nodes_ok.
  - solve_by_age.
  - by vm_compute.
  - repeat constructor; by vm_compute.
  - by vm_compute.
Defined.
