(* ===== verification/IpqProcess.v ===== *)
(** * The life of a connection process

    [jni/ipqserver/server.c], lines 222 to 494: [connection_handler] starts the three
    threads and joins them, the threads run until [running] is cleared, and [main]
    forks a process for every connection.  What an iteration of a thread does to its
    data is in [IpqServer] and [HistoryThreads]; here a thread is where its loop is,
    and a step is one of the points where the process can wait or end.  A call that
    blocks - [recvfrom] in [ipq_read], [read] and [write] - has a step only when the
    kernel or the other side has something for it; what arrives for them is a relation
    of its own, [arrives].  The threads get the address of a parameter of the function
    that starts them, so the steps also keep whether that function has returned. *)

From stdpp Require Import base list strings gmap.
From Stdlib Require Import ZArith Lia ZifyBool ZifyNat.
From S2P Require Import Prelude CString HistoryList LibIpq IpqServer.

Open Scope Z_scope.

(** ** Threads and the handler *)

(** Where a thread is: not created, at the start of an iteration, in the rest of it,
    before the [write] of the sender, at the test of the loop, or behind it. *)
Inductive thread_pc := NotCreated | Entry | Work | Writing | Test | Ended.

#[export] Instance thread_pc_eq_dec : EqDecision thread_pc.
Proof. solve_decision. Defined.

(** [connection_handler]: before each of its calls, or behind [pthread_create] inside
    one that starts a thread. *)
Inductive handler_pc :=
  | MutexInit | InitIpq | StartSender | SenderStarted | StartReader | ReaderStarted | StartCleaner
  | JoinSender | JoinReader | JoinCleaner | Cleanup
  | Done (code : Z)       (** it has returned *)
  | Exited (code : Z)     (** the process has called [exit] *)
  | Killed.               (** [SIGPIPE] has ended the process *)

(** What the blocking calls find: whether [recvfrom] on the netlink socket, [read] and
    [write] on the connection would return.  The end of the connection and an error make
    a call return, too. *)
Record channels := Channels {
  packet_waiting : bool;
  answer_waiting : bool;
  room_left : bool
}.

Record life := Life {
  running_flag : bool;
  sender_pc : thread_pc;
  reader_pc : thread_pc;
  cleaner_pc : thread_pc;
  sender_frame : bool;    (** [start_sender_thread] has not returned *)
  reader_frame : bool;
  handler : handler_pc;
  io : channels
}.

Definition start_life : life :=
  Life true NotCreated NotCreated NotCreated false false MutexInit (Channels false false true).

Definition set_running (b : bool) (c : life) : life :=
  Life b (sender_pc c) (reader_pc c) (cleaner_pc c) (sender_frame c) (reader_frame c) (handler c) (io c).
Definition set_sender (s : thread_pc) (c : life) : life :=
  Life (running_flag c) s (reader_pc c) (cleaner_pc c) (sender_frame c) (reader_frame c) (handler c) (io c).
Definition set_reader (s : thread_pc) (c : life) : life :=
  Life (running_flag c) (sender_pc c) s (cleaner_pc c) (sender_frame c) (reader_frame c) (handler c) (io c).
Definition set_cleaner (s : thread_pc) (c : life) : life :=
  Life (running_flag c) (sender_pc c) (reader_pc c) s (sender_frame c) (reader_frame c) (handler c) (io c).
Definition set_frames (s r : bool) (c : life) : life :=
  Life (running_flag c) (sender_pc c) (reader_pc c) (cleaner_pc c) s r (handler c) (io c).
Definition set_handler (h : handler_pc) (c : life) : life :=
  Life (running_flag c) (sender_pc c) (reader_pc c) (cleaner_pc c) (sender_frame c) (reader_frame c) h (io c).

Definition set_io (i : channels) (c : life) : life :=
  Life (running_flag c) (sender_pc c) (reader_pc c) (cleaner_pc c) (sender_frame c) (reader_frame c) (handler c) i.

(** What is left for the next call once one has returned: [more]. *)
Definition took_packet (more : bool) (c : life) : life :=
  set_io (Channels more (answer_waiting (io c)) (room_left (io c))) c.
Definition took_answer (more : bool) (c : life) : life :=
  set_io (Channels (packet_waiting (io c)) more (room_left (io c))) c.
Definition took_room (more : bool) (c : life) : life :=
  set_io (Channels (packet_waiting (io c)) (answer_waiting (io c)) more) c.

(** The process runs. *)
Definition alive (c : life) : bool :=
  match handler c with Done _ | Exited _ | Killed => false | _ => true end.

(** [stop] and [die]. *)
Definition stop_life (c : life) : life := set_running false c.
Definition die_life (c : life) : life := set_handler (Exited 1) (stop_life c).

(** What [write] does: all is written, less or nothing is, or the other side has gone
    and [SIGPIPE] ends the process, where it is not ignored. *)
Inductive write_result := WroteAll | WroteLess | BrokenPipe.

Definition written (w : write_result) (c : life) : life :=
  match w with
  | WroteAll => set_sender Test c
  | WroteLess => set_sender Test (stop_life c)
  | BrokenPipe => set_handler Killed c
  end.

(** [*connection_fd] through the pointer a thread was given, and what follows. *)
Definition deref_fd (frame : bool) (next : life) : res life := if frame then Ok next else Err InvalidPointer.

(** [pthread_join]: defined for a thread that was created, and returns when it has
    ended. *)
Definition joins (t : thread_pc) (next : handler_pc) (c : life) : option (res life) :=
  match t with
  | Ended => Some (Ok (set_handler next c))
  | NotCreated => Some (Err InvalidPointer)
  | _ => None
  end.

Inductive step : life -> res life -> Prop :=
  (* connection_handler *)
  | step_mutex c (failed : bool) :
      handler c = MutexInit -> step c (Ok (set_handler (if failed then Done 1 else InitIpq) c))
  | step_init c (failed : bool) :
      handler c = InitIpq -> step c (Ok (if failed then die_life c else set_handler StartSender c))
  | step_sender_malloc c : handler c = StartSender -> step c (Ok (die_life c))
  | step_sender_create c :
      handler c = StartSender ->
      step c (Ok (set_handler SenderStarted (set_frames true (reader_frame c) (set_sender Entry c))))
  | step_sender_fail c :
      handler c = StartSender ->
      step c (Ok (set_handler SenderStarted (set_frames true (reader_frame c) (stop_life c))))
  | step_sender_return c :
      handler c = SenderStarted ->
      step c (Ok (set_handler StartReader (set_frames false (reader_frame c) c)))
  | step_reader_malloc c : handler c = StartReader -> step c (Ok (die_life c))
  | step_reader_create c :
      handler c = StartReader ->
      step c (Ok (set_handler ReaderStarted (set_frames (sender_frame c) true (set_reader Entry c))))
  | step_reader_fail c :
      handler c = StartReader ->
      step c (Ok (set_handler ReaderStarted (set_frames (sender_frame c) true (stop_life c))))
  | step_reader_return c :
      handler c = ReaderStarted ->
      step c (Ok (set_handler StartCleaner (set_frames (sender_frame c) false c)))
  | step_cleaner_create c :
      handler c = StartCleaner -> step c (Ok (set_handler JoinSender (set_cleaner Test c)))
  | step_cleaner_fail c :
      handler c = StartCleaner -> step c (Ok (set_handler JoinSender (stop_life c)))
  | step_join_sender c o : handler c = JoinSender -> joins (sender_pc c) JoinReader c = Some o -> step c o
  | step_join_reader c o : handler c = JoinReader -> joins (reader_pc c) JoinCleaner c = Some o -> step c o
  | step_join_cleaner c o : handler c = JoinCleaner -> joins (cleaner_pc c) Cleanup c = Some o -> step c o
  | step_cleanup c : handler c = Cleanup -> step c (Ok (set_handler (Done 0) c))
  (* send_ipq: ipq_read; the rest, up to a write or without one; the write *)
  | step_sender_read c (failed more : bool) :
      alive c = true -> sender_pc c = Entry -> packet_waiting (io c) = true ->
      step c (Ok (if failed then die_life c else took_packet more (set_sender Work c)))
  | step_sender_work c (failed need_write : bool) :
      alive c = true -> sender_pc c = Work ->
      step c (Ok (if failed then die_life c else set_sender (if need_write then Writing else Test) c))
  | step_sender_write c (w : write_result) (more : bool) :
      alive c = true -> sender_pc c = Writing -> (sender_frame c = true -> room_left (io c) = true) ->
      step c (deref_fd (sender_frame c) (took_room more (written w c)))
  | step_sender_test c :
      alive c = true -> sender_pc c = Test ->
      step c (Ok (set_sender (if running_flag c then Entry else Ended) c))
  (* read_java: the argument of read; read and the rest *)
  | step_reader_read c :
      alive c = true -> reader_pc c = Entry ->
      step c (deref_fd (reader_frame c) (set_reader Work c))
  | step_reader_work c (failed more : bool) :
      alive c = true -> reader_pc c = Work -> answer_waiting (io c) = true ->
      step c (Ok (if failed then die_life c else took_answer more (set_reader Test c)))
  | step_reader_test c :
      alive c = true -> reader_pc c = Test ->
      step c (Ok (set_reader (if running_flag c then Entry else Ended) c))
  (* clean_list: the test, then sleep and the pass *)
  | step_cleaner_test c :
      alive c = true -> cleaner_pc c = Test ->
      step c (Ok (set_cleaner (if running_flag c then Work else Ended) c))
  | step_cleaner_work c :
      alive c = true -> cleaner_pc c = Work -> step c (Ok (set_cleaner Test c)).

(** What the kernel and the other side do: a packet is queued, an answer or the end of
    the connection comes in, what was written is read.  Nothing obliges them to. *)
Inductive arrives : life -> life -> Prop :=
  | packet_arrives c : arrives c (took_packet true c)
  | answer_arrives c : arrives c (took_answer true c)
  | room_arrives c : arrives c (took_room true c).

Inductive reachable : life -> Prop :=
  | reachable_start : reachable start_life
  | reachable_step c c' : reachable c -> step c (Ok c') -> reachable c'
  | reachable_arrives c c' : reachable c -> arrives c c' -> reachable c'.


(** ** The server

    [main]: what the calls of the operating system return comes in as arguments; what
    it calls goes out.  A child goes on as the handler of its connection. *)

Inductive call := Close (fd : Z) | Unlink | Print (s : string) | Fork.

Inductive served :=
  | Waiting                     (** in [accept] *)
  | Handling (fd : Z)           (** the child's [connection_handler] *)
  | Returned (code : Z).

(** The loop over [accept]: each connection with the result of its [fork]. *)
Fixpoint accept_loop (socket_fd : Z) (accepts : list (Z * Z)) : list call * served :=
  match accepts with
  | [] => ([], Waiting)
  | (connection_fd, child) :: accepts =>
      if -1 <? connection_fd then
        let calls := [Print ("[*] client connected" +:+ String LF ""); Fork] in
        if child =? 0 then (calls, Handling connection_fd)
        else
          let '(rest, result) := accept_loop socket_fd accepts in
          (calls ++ Close connection_fd :: rest, result)
      else ([Close socket_fd; Unlink], Returned 0)
  end.

Definition server_main (argc socket_fd bind_result listen_result : Z) (accepts : list (Z * Z)) : list call * served :=
  if negb (argc =? 2) then
    ([Print ("call with the unix domain socket destination as single argument." +:+ String LF "")], Returned 1)
  else if socket_fd <? 0 then ([], Returned 1)
  else if negb (bind_result =? 0) then ([Unlink], Returned 1)
  else if negb (listen_result =? 0) then ([Unlink], Returned 1)
  else let '(calls, result) := accept_loop socket_fd accepts in (Unlink :: calls, result).

(** The descriptors a process closes. *)
Definition closed (calls : list call) : list Z := omap (fun c => match c with Close fd => Some fd | _ => None end) calls.

(** ** Termination after a stop *)





(** A thread in a call that does not return, and one that takes no steps any more. *)
Definition sender_blocked (c : life) : Prop :=
  sender_pc c = Entry /\ packet_waiting (io c) = false \/
  sender_pc c = Writing /\ sender_frame c = true /\ room_left (io c) = false.
Definition reader_blocked (c : life) : Prop := reader_pc c = Work /\ answer_waiting (io c) = false.
Definition gone (t : thread_pc) : Prop := t = NotCreated \/ t = Ended.

(** The handler joins a thread that waits for input, and no other thread runs. *)
Definition hung (c : life) : Prop :=
  (handler c = JoinSender /\ sender_blocked c \/ handler c = JoinReader /\ reader_blocked c) /\
  (sender_blocked c \/ gone (sender_pc c)) /\ (reader_blocked c \/ gone (reader_pc c)) /\ gone (cleaner_pc c).









Lemma hung_stuck c o : hung c -> ~ step c o.
Proof.
  unfold hung, sender_blocked, reader_blocked, gone, alive. intros H Hstep.
  inversion Hstep; subst; unfold joins in *; repeat case_match; intuition congruence.
Qed.






(** ** The reader's pointer *)

(** Both functions that start a thread with a pointer have returned. *)
Definition started (h : handler_pc) : bool :=
  match h with StartCleaner | JoinSender | JoinReader | JoinCleaner | Cleanup => true | _ => false end.

Lemma started_frames c : reachable c -> started (handler c) = true -> reader_frame c = false.
Proof.
  induction 1 as [|c c' _ IH Hstep|c c' _ IH Harr]; [done| |by inversion Harr; subst].
  inversion Hstep; subst; unfold joins, deref_fd, written in *; repeat case_match; simplify_eq; cbn;
    try (by intros _; reflexivity); try done; intros Hs;
    first [by apply IH|specialize (IH Hs); congruence
      |match goal with H : handler c = _ |- _ => rewrite H in IH end; by apply IH].
Qed.

(** ** Theorems *)


(** C2. The descriptor the reader is given is the address of a parameter: as soon as
    [start_reader_thread] has returned, a reader that comes to [read] cannot get past
    it, under any schedule, but for the undefined use of the dead parameter. *)
Theorem reader_uses_dead_parameter c :
  reachable c -> started (handler c) = true -> reader_pc c = Entry ->
  step c (Err InvalidPointer) /\ forall c', step c (Ok c') -> alive c' = true -> reader_pc c' = Entry.
Proof.
  intros Hr Hs Hentry. pose proof (started_frames c Hr Hs) as Hframe. split.
  - assert (alive c = true) as Ha by (unfold alive; by destruct (handler c)).
    pose proof (step_reader_read c Ha Hentry) as H. by rewrite Hframe in H.
  - intros c' Hstep. inversion Hstep; subst; unfold joins, deref_fd, written in *; repeat case_match; simplify_eq; cbn; try done; congruence.
Qed.

Section loops.
Context {abi : NetlinkAbi} {K : Type} {kernel : Kernel K} {conn : Connection K}.

(** [send_ipq]: [do ... while (running)] over the clocks and errors the iterations meet. *)
Fixpoint send_ipq (h : ipq_handle) (inputs : list (Z * (Z * string))) (buf : list Z) (p : @proc K) : res (@outcome K) :=
  match inputs with
  | [] => Ok (Continue p)
  | (now, syserr) :: inputs =>
      '(o, h, buf) ← send_ipq_iter h now syserr buf p;
      match o with
      | Continue p => if running p then send_ipq h inputs buf p else Ok (Continue p)
      | Exit _ _ => Ok o
      end
  end.

(** What [read] delivers once the other side has closed the connection. *)
Definition end_of_file (now : Z) (syserr : Z * string) : read_input := ReadInput 0 [] now None syserr.

(** The end of the connection does not stop the reader: it reads it again and again. *)
Lemma read_java_end_of_file h n now syserr buffer (p : @proc K) :
  running p = true -> read_java h (replicate n (end_of_file now syserr)) buffer p = Ok (Continue p).
Proof.
  intros Hp. revert buffer. induction n as [|n IH]; intros buffer; [done|].
  cbn [replicate read_java]. unfold read_java_iter at 1. cbn -[read_java]. rewrite Hp. apply IH.
Qed.
End loops.

(** The server closes every connection it has handed to a child, and nothing else. *)
Lemma accept_loop_closes socket_fd accepts calls result :
  Forall (fun '(fd, child) => -1 < fd /\ child <> 0) accepts -> accept_loop socket_fd accepts = (calls, result) ->
  result = Waiting /\ closed calls = accepts.*1.
Proof.
  intros H. revert calls. induction H as [|[fd child] accepts [Hfd Hc] _ IH]; intros calls; cbn [accept_loop].
  - by intros [= <- <-].
  - rewrite (proj2 (Z.ltb_lt _ _) Hfd), (proj2 (Z.eqb_neq _ _) Hc).
    destruct (accept_loop socket_fd accepts) as [rest r] eqn:Heq. intros [= <- <-].
    destruct (IH rest eq_refl) as [-> Hrest]. split; [done|]. cbn. by rewrite <- Hrest.
Qed.

(** ** Witnesses *)

(** One more step of a reachable configuration. *)
Ltac advance tac :=
  match goal with
  | H : reachable ?c |- _ =>
      let Hs := fresh in
      eassert (step c (Ok _)) as Hs by tac; apply (reachable_step c _ H) in Hs; clear H
  end.

Ltac start_threads :=
  pose proof reachable_start;
  advance ltac:(by apply (step_mutex _ false)); advance ltac:(by apply (step_init _ false));
  advance ltac:(by apply step_sender_create); advance ltac:(by apply step_sender_return);
  advance ltac:(by apply step_reader_create); advance ltac:(by apply step_reader_return).

(** All threads run, and the handler waits for the sender. *)
Definition ex_joining : life := Life true Entry Entry Test false false JoinSender (Channels false false true).

Lemma ex_joining_reachable : reachable ex_joining.
Proof.
  start_threads. advance ltac:(by apply step_cleaner_create). assumption.
Qed.

(** The reader got to its [read] in time, and the creation of the cleaner has failed:
    nothing arrives any more, and the handler waits for the sender. *)
Definition ex_hung : life := Life false Entry Work NotCreated false false JoinSender (Channels false false true).

Lemma ex_hung_reachable : reachable ex_hung.
Proof.
  pose proof reachable_start.
  advance ltac:(by apply (step_mutex _ false)). advance ltac:(by apply (step_init _ false)).
  advance ltac:(by apply step_sender_create). advance ltac:(by apply step_sender_return).
  advance ltac:(by apply step_reader_create). advance ltac:(simple refine (step_reader_read _ _ _); reflexivity).
  advance ltac:(by apply step_reader_return). advance ltac:(by apply step_cleaner_fail). assumption.
Qed.

Lemma ex_hung_hangs : hung ex_hung.
Proof. unfold hung, sender_blocked, reader_blocked, gone. naive_solver. Qed.

(** [stop] wakes no thread: a process can be stopped and wait for ever. *)
Lemma stopped_process_can_hang :
  exists c, reachable c /\ running_flag c = false /\ alive c = true /\ forall o, ~ step c o.
Proof.
  exists ex_hung. split; [apply ex_hung_reachable|]. split_and!; [done..|]. intros o. apply hung_stuck, ex_hung_hangs.
Qed.


Lemma reader_uses_dead_parameter_witness :
  step ex_joining (Err InvalidPointer) /\ forall c', step ex_joining (Ok c') -> alive c' = true -> reader_pc c' = Entry.
Proof. exact (reader_uses_dead_parameter ex_joining ex_joining_reachable eq_refl eq_refl). Defined.
