(* ===== verification/Ifconfig.v ===== *)
(** The interface configuration tool, [ifconfig/ifconfig.c].

    One [struct ifreq] serves all requests of a run: its union holds in turn
    the flags, an address and the MTU, and is modelled as the bytes it is made
    of.  The kernel's [ioctl] is a class over such bytes; [Devices] is the same
    kernel as an interface of typed requests, with [IfLaws] relating the two.
    The refinement theorem: the tool, overlaying everything in one union,
    performs the commands its words stand for over that interface. *)
From Stdlib Require Import ZArith Lia Ascii String.
From stdpp Require Import base list strings.
From S2P Require Import Prelude.
From S2P Require Import CString.

Open Scope string_scope.
Open Scope Z_scope.

(** ** What the headers and the system provide *)

(** [<linux/if.h>], [<sys/socket.h>], [<errno.h>]. *)
Class IfAbi := {
  IFF_UP : Z; IFF_BROADCAST : Z; IFF_LOOPBACK : Z; IFF_POINTOPOINT : Z;
  IFF_RUNNING : Z; IFF_MULTICAST : Z;
  AF_INET : Z; SOCK_DGRAM : Z; EINVAL : Z
}.

Inductive request : Set :=
  | SIOCGIFADDR | SIOCGIFNETMASK | SIOCGIFFLAGS
  | SIOCSIFFLAGS | SIOCSIFMTU | SIOCSIFDSTADDR | SIOCSIFNETMASK | SIOCSIFADDR.

(** [ioctl(s, request, &ifr)] gets the name and the bytes of the union, and
    gives back its result and the bytes it left there. *)
Class IfSystem (W : Type) := {
  if_socket : Z -> Z -> Z -> W -> Z * W;
  if_ioctl : Z -> request -> string -> list Z -> W -> Z * list Z * W;
  if_inet_addr : string -> Z;
  if_strerror : W -> string;
  if_set_errno : Z -> W -> W
}.

(** ** Programs that print and may exit *)

Inductive outcome (S A : Type) : Type :=
  | Next (a : A) (s : S)
  | Exit (status : Z) (s : S).
Arguments Next {S A} a s.
Arguments Exit {S A} status s.

Definition prog (S A : Type) : Type := S -> res (outcome S A).

Definition ret {S A} (a : A) : prog S A := fun s => Ok (Next a s).
Definition bind {S A B} (m : prog S A) (k : A -> prog S B) : prog S B := fun s =>
  o ← m s;
  match o with
  | Next a s' => k a s'
  | Exit st s' => Ok (Exit st s')
  end.
Definition exit {S A} (status : Z) : prog S A := fun s => Ok (Exit status s).
Definition lift {S A} (m : res A) : prog S A := fun s => a ← m; Ok (Next a s).

Declare Scope prog_scope.
Delimit Scope prog_scope with prog.
Notation "x <- m ;; k" := (bind m (fun x => k))
  (at level 100, m at next level, right associativity) : prog_scope.
Notation "m ;; k" := (bind m (fun _ => k))
  (at level 100, right associativity) : prog_scope.
Open Scope prog_scope.

(** ** Bytes of the union *)

(** The [n] bytes of [z], the lowest first. *)
Fixpoint le_bytes (n : nat) (z : Z) : list Z :=
  match n with
  | O => []
  | S n => z mod 256 :: le_bytes n (z / 256)
  end.

Fixpoint of_le (b : list Z) : Z :=
  match b with
  | [] => 0
  | x :: b => x + 256 * of_le b
  end.

Definition store_le (off n : nat) (z : Z) (b : list Z) : list Z :=
  (take off b ++ le_bytes n z ++ drop (off + n) b)%list.
Definition load_le (off n : nat) (b : list Z) : Z := of_le (take n (drop off b)).

Definition IFNAMSIZ : nat := 16.
Definition sizeof_ifru : nat := 16.

Section ifconfig.
Context {abi : IfAbi} {W : Type} {sys : IfSystem W}.

(** What the process keeps: the request, what it has printed, and the system. *)
Record state := State {
  ifr_name : string; ifr_ifru : list Z;
  stdout : string; stderr : string; world : W
}.

Definition get {A} (f : state -> A) : prog state A := fun s => Ok (Next (f s) s).
Definition printf (t : string) : prog state () := fun s =>
  Ok (Next () (State (ifr_name s) (ifr_ifru s) (stdout s +:+ t) (stderr s) (world s))).
Definition eprintf (t : string) : prog state () := fun s =>
  Ok (Next () (State (ifr_name s) (ifr_ifru s) (stdout s) (stderr s +:+ t) (world s))).
Definition set_errno (e : Z) : prog state () := fun s =>
  Ok (Next () (State (ifr_name s) (ifr_ifru s) (stdout s) (stderr s) (if_set_errno e (world s)))).
Definition store (off n : nat) (z : Z) : prog state () := fun s =>
  Ok (Next () (State (ifr_name s) (store_le off n z (ifr_ifru s)) (stdout s) (stderr s) (world s))).
Definition ioctl (sock : Z) (r : request) : prog state Z := fun s =>
  let '(v, b, w) := if_ioctl sock r (ifr_name s) (ifr_ifru s) (world s) in
  Ok (Next v (State (ifr_name s) b (stdout s) (stderr s) w)).

(** The members of the union and of [struct sockaddr_in]. *)
Definition load_flags (s : state) : Z := s16 (load_le 0 2 (ifr_ifru s)).
Definition load_sin_addr (s : state) : Z := load_le 4 4 (ifr_ifru s).

(** ** The program *)

Definition die {A} (msg : string) : prog state A :=
  e <- get (fun s => if_strerror (world s)) ;;
  eprintf ("error: " +:+ msg +:+ " (" +:+ e +:+ ")" +:+ str_lf) ;;
  exit (-1).

Definition perror (msg : string) : prog state () :=
  e <- get (fun s => if_strerror (world s)) ;;
  eprintf (msg +:+ ": " +:+ e +:+ str_lf).

(** An [ioctl] whose failure ends the program. *)
Definition ioctl_or_die (s : Z) (r : request) (msg : string) : prog state () :=
  v <- ioctl s r ;;
  if v <? 0 then die msg else ret ().

Definition setflags (s set clr : Z) : prog state () :=
  ioctl_or_die s SIOCGIFFLAGS "SIOCGIFFLAGS" ;;
  flags <- get load_flags ;;
  store 0 2 (Z.lor (Z.land flags (Z.lnot clr)) set) ;;
  ioctl_or_die s SIOCSIFFLAGS "SIOCSIFFLAGS".

Definition init_sockaddr_in (addr : string) : prog state () :=
  store 0 2 AF_INET ;;
  store 2 2 0 ;;
  store 4 4 (if_inet_addr addr).

Definition setmtu (s : Z) (mtu : string) : prog state () :=
  store 0 4 (atoi mtu) ;;
  ioctl_or_die s SIOCSIFMTU "SIOCSIFMTU".

Definition setdstaddr (s : Z) (addr : string) : prog state () :=
  init_sockaddr_in addr ;;
  ioctl_or_die s SIOCSIFDSTADDR "SIOCSIFDSTADDR".

Definition setnetmask (s : Z) (addr : string) : prog state () :=
  init_sockaddr_in addr ;;
  ioctl_or_die s SIOCSIFNETMASK "SIOCSIFNETMASK".

Definition setaddr (s : Z) (addr : string) : prog state () :=
  init_sockaddr_in addr ;;
  ioctl_or_die s SIOCSIFADDR "SIOCSIFADDR".

(** [sprintf] into an array of [size] characters. *)
Definition sprintf (size : Z) (t : string) : prog state string :=
  lift (if strlen t <? size then Ok t else Err OutOfBounds).

Definition dotted (addr : Z) : string :=
  dec (Z.land addr 0xff) +:+ "." +:+ dec (Z.land (Z.shiftr addr 8) 0xff) +:+ "."
  +:+ dec (Z.land (Z.shiftr addr 16) 0xff) +:+ "." +:+ dec (Z.land (Z.shiftr addr 24) 0xff).

Definition flag_words (flags : Z) : string :=
  let on f := negb (Z.land flags f =? 0) in
  (if on IFF_UP then "up" else "down")
  +:+ (if on IFF_BROADCAST then " broadcast" else "")
  +:+ (if on IFF_LOOPBACK then " loopback" else "")
  +:+ (if on IFF_POINTOPOINT then " point-to-point" else "")
  +:+ (if on IFF_RUNNING then " running" else "")
  +:+ (if on IFF_MULTICAST then " multicast" else "").

(** The requests without arguments: each ends the program when it fails. *)
Definition ioctl_or_perror (s : Z) (r : request) : prog state () :=
  v <- ioctl s r ;;
  if v <? 0 then n <- get ifr_name ;; perror n ;; exit (-1) else ret ().

Definition display (s : Z) : prog state Z :=
  ioctl_or_perror s SIOCGIFADDR ;;
  addr <- get load_sin_addr ;;
  ioctl_or_perror s SIOCGIFNETMASK ;;
  mask <- get load_sin_addr ;;
  ioctl_or_perror s SIOCGIFFLAGS ;;
  f <- get load_flags ;;
  let flags := u32 f in
  astring <- sprintf 20 (dotted addr) ;;
  mstring <- sprintf 20 (dotted mask) ;;
  n <- get ifr_name ;;
  printf (n +:+ ": ip " +:+ astring +:+ " mask " +:+ mstring +:+ " flags [") ;;
  printf (flag_words flags +:+ "]" +:+ str_lf) ;;
  ret 0.

(** [isdigit(argv[0][0])]: the first character, or the terminator. *)
Definition starts_with_digit (a : string) : bool :=
  match a with
  | EmptyString => isdigit NUL
  | String c _ => isdigit c
  end.

Definition expecting {A} (what : string) : prog state A :=
  set_errno EINVAL ;; die what.

(** The loop over the words. *)
Fixpoint options (s : Z) (argv : list string) : prog state Z :=
  match argv with
  | [] => ret 0
  | a :: rest =>
      if strcmp a "up" =? 0 then setflags s IFF_UP 0 ;; options s rest
      else if strcmp a "mtu" =? 0 then
        match rest with
        | [] => expecting ("expecting a value for parameter " +:+ quote "mtu")
        | v :: rest => setmtu s v ;; options s rest
        end
      else if strcmp a "-pointopoint" =? 0 then
        setflags s IFF_POINTOPOINT 1 ;; options s rest
      else if strcmp a "pointopoint" =? 0 then
        match rest with
        | [] => expecting ("expecting an IP address for parameter " +:+ quote "pointtopoint")
        | v :: rest =>
            setdstaddr s v ;; setflags s IFF_POINTOPOINT 0 ;; options s rest
        end
      else if strcmp a "down" =? 0 then setflags s 0 IFF_UP ;; options s rest
      else if strcmp a "netmask" =? 0 then
        match rest with
        | [] => expecting ("expecting an IP address for parameter " +:+ quote "netmask")
        | v :: rest => setnetmask s v ;; options s rest
        end
      else if starts_with_digit a then
        setaddr s a ;; setflags s IFF_UP 0 ;; options s rest
      else options s rest
  end.

Definition socket : prog state Z := fun s =>
  let '(v, w) := if_socket AF_INET SOCK_DGRAM 0 (world s) in
  Ok (Next v (State (ifr_name s) (ifr_ifru s) (stdout s) (stderr s) w)).

(** [strncpy] into the name and the terminator written over its end. *)
Definition copy_name (a : string) : prog state () := fun s =>
  Ok (Next () (State (str_take (IFNAMSIZ - 1) a) (ifr_ifru s) (stdout s) (stderr s) (world s))).

(** [argv] without the name of the program. *)
Definition main (argv : list string) : prog state Z :=
  match argv with
  | [] => ret 0
  | name :: argv =>
      copy_name name ;;
      s <- socket ;;
      if s <? 0 then die ("cannot open control socket" +:+ str_lf)
      else match argv with
           | [] => display s
           | _ => options s argv
           end
  end.

(** The process: its exit status, what it printed, and the system it leaves.
    The request is zeroed first. *)
Definition run (argv : list string) (w : W) : res (Z * string * string * W) :=
  o ← main argv (State "" (replicate sizeof_ifru 0) "" "" w);
  match o with
  | Next v s | Exit v s => Ok (v, stdout s, stderr s, world s)
  end.

End ifconfig.
Arguments state W : clear implicits.

(** ** The same system as typed requests *)

(** What [ioctl] does for one interface: [None] or [false] when it fails.  An
    address is the number [inet_addr] gives, or its four bytes in the order of
    the dotted notation. *)
Class Devices (W : Type) := {
  dev_flags : Z -> string -> W -> option Z * W;
  dev_addr : Z -> string -> W -> option (Z * Z * Z * Z) * W;
  dev_netmask : Z -> string -> W -> option (Z * Z * Z * Z) * W;
  dev_set_flags : Z -> string -> Z -> W -> bool * W;
  dev_set_mtu : Z -> string -> Z -> W -> bool * W;
  dev_set_addr : Z -> string -> Z -> W -> bool * W;
  dev_set_dstaddr : Z -> string -> Z -> W -> bool * W;
  dev_set_netmask : Z -> string -> Z -> W -> bool * W
}.

Definition answer {W} (b : list Z) (r : bool * W) : Z * list Z * W :=
  ((if r.1 then 0 else -1), b, r.2).

Definition is_byte (x : Z) : bool := (0 <=? x) && (x <? 256).

(** A whole [struct sockaddr_in] in the union. *)
Definition sockaddr_in `{IfAbi} (a : Z * Z * Z * Z) : list Z :=
  let '(a1, a2, a3, a4) := a in
  (le_bytes 2 AF_INET ++ [0; 0; a1; a2; a3; a4] ++ replicate 8 0)%list.

(** [netdevice(7)]: which bytes of the union each request reads and writes. *)
Class IfLaws `{IfAbi} (W : Type) `{IfSystem W} `{Devices W} : Prop := {
  af_inet_range : 0 <= AF_INET < 2 ^ 16;
  inet_addr_range a : 0 <= if_inet_addr a < 2 ^ 32;
  law_get_flags s n b w : length b = sizeof_ifru ->
    if_ioctl s SIOCGIFFLAGS n b w =
      match dev_flags s n w with
      | (Some f, w) => (0, store_le 0 2 f b, w)
      | (None, w) => (-1, b, w)
      end;
  law_get_addr s n b w : length b = sizeof_ifru ->
    if_ioctl s SIOCGIFADDR n b w =
      match dev_addr s n w with
      | (Some a, w) => (0, sockaddr_in a, w)
      | (None, w) => (-1, b, w)
      end;
  law_get_netmask s n b w : length b = sizeof_ifru ->
    if_ioctl s SIOCGIFNETMASK n b w =
      match dev_netmask s n w with
      | (Some a, w) => (0, sockaddr_in a, w)
      | (None, w) => (-1, b, w)
      end;
  dev_addr_bytes s n w a1 a2 a3 a4 w' : dev_addr s n w = (Some (a1, a2, a3, a4), w') ->
    Forall is_byte [a1; a2; a3; a4];
  dev_netmask_bytes s n w a1 a2 a3 a4 w' : dev_netmask s n w = (Some (a1, a2, a3, a4), w') ->
    Forall is_byte [a1; a2; a3; a4];
  law_set_flags s n b w : length b = sizeof_ifru ->
    if_ioctl s SIOCSIFFLAGS n b w = answer b (dev_set_flags s n (s16 (load_le 0 2 b)) w);
  law_set_mtu s n b w : length b = sizeof_ifru ->
    if_ioctl s SIOCSIFMTU n b w = answer b (dev_set_mtu s n (s32 (load_le 0 4 b)) w);
  law_set_addr s n b w : length b = sizeof_ifru -> load_le 0 2 b = AF_INET ->
    if_ioctl s SIOCSIFADDR n b w = answer b (dev_set_addr s n (load_le 4 4 b) w);
  law_set_dstaddr s n b w : length b = sizeof_ifru -> load_le 0 2 b = AF_INET ->
    if_ioctl s SIOCSIFDSTADDR n b w = answer b (dev_set_dstaddr s n (load_le 4 4 b) w);
  law_set_netmask s n b w : length b = sizeof_ifru -> load_le 0 2 b = AF_INET ->
    if_ioctl s SIOCSIFNETMASK n b w = answer b (dev_set_netmask s n (load_le 4 4 b) w)
}.

(** ** What the words of the command line stand for *)

Inductive command : Type :=
  | Up | Down | PointToPoint
  | PointToPointOff
  | Mtu (m : Z)
  | DstAddr (a : Z) | Netmask (a : Z) | Addr (a : Z).

Definition missing (w : string) : string :=
  if decide (w = "mtu") then "expecting a value for parameter " +:+ quote "mtu"
  else if decide (w = "pointopoint")
  then "expecting an IP address for parameter " +:+ quote "pointtopoint"
  else "expecting an IP address for parameter " +:+ quote "netmask".

Section spec.
Context {abi : IfAbi} {W : Type} {sys : IfSystem W} {devs : Devices W}.

(** The commands of one word and its value; [None] for a word that is not known. *)
Definition plain (w : string) : option (list command) :=
  if decide (w = "up") then Some [Up]
  else if decide (w = "down") then Some [Down]
  else if decide (w = "-pointopoint") then Some [PointToPointOff]
  else if starts_with_digit w then Some [Addr (if_inet_addr w); Up]
  else None.

Definition valued (w : string) : option (string -> list command) :=
  if decide (w = "mtu") then Some (fun v => [Mtu (atoi v)])
  else if decide (w = "pointopoint")
  then Some (fun v => [DstAddr (if_inet_addr v); PointToPoint])
  else if decide (w = "netmask") then Some (fun v => [Netmask (if_inet_addr v)])
  else None.

(** The commands of the whole line, and the word whose value is missing. *)
Fixpoint parse (argv : list string) : list command * option string :=
  match argv with
  | [] => ([], None)
  | w :: rest =>
      match valued w, rest with
      | Some f, v :: rest => let '(cs, e) := parse rest in ((f v ++ cs)%list, e)
      | Some _, [] => ([], Some w)
      | None, _ => let '(cs, e) := parse rest in ((default [] (plain w) ++ cs)%list, e)
      end
  end.

(** What remains visible outside: the output and the system. *)
Record console := Console { c_out : string; c_err : string; c_world : W }.

Definition c_sys {A} (f : W -> A * W) : prog console A := fun c =>
  let '(a, w) := f (c_world c) in Ok (Next a (Console (c_out c) (c_err c) w)).
Definition c_print (t : string) : prog console () := fun c =>
  Ok (Next () (Console (c_out c +:+ t) (c_err c) (c_world c))).
Definition c_error (f : string -> string) : prog console () := fun c =>
  Ok (Next () (Console (c_out c) (c_err c +:+ f (if_strerror (c_world c))) (c_world c))).

(** The message of a failure and the end of the program. *)
Definition c_die {A} (msg : string) : prog console A :=
  c_error (fun e => "error: " +:+ msg +:+ " (" +:+ e +:+ ")" +:+ str_lf) ;; exit (-1).
Definition c_perror {A} (msg : string) : prog console A :=
  c_error (fun e => msg +:+ ": " +:+ e +:+ str_lf) ;; exit (-1).

Definition must (msg : string) (f : W -> bool * W) : prog console () :=
  ok <- c_sys f ;; if ok : bool then ret () else c_die msg.
Definition must_get {A} (fail : prog console A) (f : W -> option A * W) : prog console A :=
  o <- c_sys f ;; match o with Some a => ret a | None => fail end.

Definition change_flags (s : Z) (n : string) (f : Z -> Z) : prog console () :=
  fl <- must_get (c_die "SIOCGIFFLAGS") (dev_flags s n) ;;
  must "SIOCSIFFLAGS" (dev_set_flags s n (s16 (f (s16 fl)))).

Definition perform (s : Z) (n : string) (c : command) : prog console () :=
  match c with
  | Up => change_flags s n (fun f => Z.lor f IFF_UP)
  | Down => change_flags s n (fun f => Z.ldiff f IFF_UP)
  | PointToPoint => change_flags s n (fun f => Z.lor f IFF_POINTOPOINT)
  | PointToPointOff => change_flags s n (fun f => Z.lor (Z.ldiff f 1) IFF_POINTOPOINT)
  | Mtu m => must "SIOCSIFMTU" (dev_set_mtu s n m)
  | DstAddr a => must "SIOCSIFDSTADDR" (dev_set_dstaddr s n a)
  | Netmask a => must "SIOCSIFNETMASK" (dev_set_netmask s n a)
  | Addr a => must "SIOCSIFADDR" (dev_set_addr s n a)
  end.

Fixpoint perform_all (s : Z) (n : string) (cs : list command) (k : prog console Z)
    : prog console Z :=
  match cs with
  | [] => k
  | c :: cs => perform s n c ;; perform_all s n cs k
  end.

Definition c_finish (e : option string) : prog console Z :=
  match e with
  | None => ret 0
  | Some w => c_sys (fun w => ((), if_set_errno EINVAL w)) ;; c_die (missing w)
  end.

Definition dotted_bytes (a : Z * Z * Z * Z) : string :=
  let '(a1, a2, a3, a4) := a in
  dec a1 +:+ "." +:+ dec a2 +:+ "." +:+ dec a3 +:+ "." +:+ dec a4.

Definition c_display (s : Z) (n : string) : prog console Z :=
  addr <- must_get (c_perror n) (dev_addr s n) ;;
  mask <- must_get (c_perror n) (dev_netmask s n) ;;
  flags <- must_get (c_perror n) (dev_flags s n) ;;
  c_print (n +:+ ": ip " +:+ dotted_bytes addr +:+ " mask " +:+ dotted_bytes mask
           +:+ " flags [" +:+ flag_words (u32 (s16 flags)) +:+ "]" +:+ str_lf) ;;
  ret 0.

Definition spec_main (argv : list string) : prog console Z :=
  match argv with
  | [] => ret 0
  | name :: argv =>
      let n := str_take (IFNAMSIZ - 1) name in
      s <- c_sys (if_socket AF_INET SOCK_DGRAM 0) ;;
      if s <? 0 then c_die ("cannot open control socket" +:+ str_lf)
      else match argv with
           | [] => c_display s n
           | _ => let '(cs, e) := parse argv in perform_all s n cs (c_finish e)
           end
  end.

Definition spec_run (argv : list string) (w : W) : res (Z * string * string * W) :=
  o ← spec_main argv (Console "" "" w);
  match o with
  | Next v c | Exit v c => Ok (v, c_out c, c_err c, c_world c)
  end.

End spec.
Arguments console W : clear implicits.

(** ** The bytes of the union *)

Lemma of_le_bytes n z : of_le (le_bytes n z) = z mod 256 ^ Z.of_nat n.
Proof.
  revert z. induction n as [|n IH]; intros z.
  - cbn. by rewrite Z.mod_1_r.
  - cbn [le_bytes of_le]. rewrite IH, Nat2Z.inj_succ, Z.pow_succ_r by lia.
    rewrite Z.rem_mul_r by lia. done.
Qed.

Lemma le_bytes_length n z : length (le_bytes n z) = n.
Proof. revert z. induction n as [|n IH]; intros z; [done|]. cbn. by rewrite IH. Qed.

Lemma store_le_length off n z b :
  (off + n <= length b)%nat -> length (store_le off n z b) = length b.
Proof.
  intros Hb. unfold store_le. rewrite !length_app, length_take, length_drop, le_bytes_length. lia.
Qed.

Lemma load_store_same off n z b :
  (off + n <= length b)%nat -> load_le off n (store_le off n z b) = z mod 256 ^ Z.of_nat n.
Proof.
  intros Hb. unfold load_le, store_le.
  rewrite drop_app_length' by (rewrite length_take; lia).
  rewrite take_app_length' by (symmetry; apply le_bytes_length). apply of_le_bytes.
Qed.

Lemma load_store_before off n off' n' z b :
  (off' + n' <= off)%nat -> (off <= length b)%nat ->
  load_le off' n' (store_le off n z b) = load_le off' n' b.
Proof.
  intros Hn Hb. unfold load_le, store_le. f_equal.
  rewrite <- (take_drop off b) at 3.
  rewrite !skipn_app, !firstn_app, !length_drop, !length_take.
  replace (n' - (Nat.min off (length b) - off'))%nat with 0%nat by lia.
  by rewrite !take_0.
Qed.

Lemma s16_u16 z : s16 (z mod 2 ^ 16) = s16 z.
Proof. unfold wrap_s. by rewrite Zplus_mod_idemp_l. Qed.
Lemma s16_bits z i : 0 <= i < 16 -> Z.testbit (s16 z) i = Z.testbit z i.
Proof.
  intros Hi. rewrite <- (Z.mod_pow2_bits_low (s16 z) 16 i), <- (Z.mod_pow2_bits_low z 16 i) by lia.
  f_equal. apply (wrap_u_wrap_s 16). lia.
Qed.
Lemma s32_u32 z : s32 (z mod 2 ^ 32) = s32 z.
Proof. unfold wrap_s. by rewrite Zplus_mod_idemp_l. Qed.

(** The bytes of a number and the shifts and masks that take it apart. *)
Lemma dotted_le a1 a2 a3 a4 :
  Forall is_byte [a1; a2; a3; a4] -> dotted (of_le [a1; a2; a3; a4]) = dotted_bytes (a1, a2, a3, a4).
Proof.
  rewrite !Forall_cons. unfold is_byte.
  rewrite !Is_true_true, !andb_true_iff, !Z.leb_le, !Z.ltb_lt. intros (H1 & H2 & H3 & H4 & _).
  unfold dotted, dotted_bytes. cbn [of_le].
  change 255 with (Z.ones 8). rewrite !Z.land_ones, !Z.shiftr_div_pow2 by lia.
  change (2 ^ 8) with 256. change (2 ^ 16) with 65536. change (2 ^ 24) with 16777216.
  set (n := a1 + _).
  assert (n mod 256 = a1 /\ n / 256 mod 256 = a2 /\ n / 65536 mod 256 = a3 /\
          n / 16777216 mod 256 = a4) as (-> & -> & -> & ->); [|done].
  subst n. repeat split; Z.to_euclidean_division_equations; lia.
Qed.

(** ** The tool performs the commands *)

Section refinement.
Context {abi : IfAbi} {W : Type} {sys : IfSystem W} {devs : Devices W} {laws : IfLaws W}.

(** Lengths of a union with stores. *)
Ltac ifru_len := unfold sizeof_ifru in *; solve [lia | rewrite store_le_length; ifru_len].

(** A state of the tool for the interface [n] shows what the console shows. *)
Definition shows (n : string) (s : state W) (c : console W) : Prop :=
  ifr_name s = n /\ length (ifr_ifru s) = sizeof_ifru /\
  stdout s = c_out c /\ stderr s = c_err c /\ world s = c_world c.

Definition same_outcome {A} (n : string) (o : outcome (state W) A) (o' : outcome (console W) A) : Prop :=
  match o, o' with
  | Next a s, Next a' c => a = a' /\ shows n s c
  | Exit v s, Exit v' c => v = v' /\ shows n s c
  | _, _ => False
  end.

Definition agree {A} (n : string) (r : res (outcome (state W) A)) (r' : res (outcome (console W) A)) : Prop :=
  exists o o', r = Ok o /\ r' = Ok o' /\ same_outcome n o o'.

Definition refines {A} (n : string) (m : prog (state W) A) (m' : prog (console W) A) : Prop :=
  forall s c, shows n s c -> agree n (m s) (m' c).

Lemma refines_ret {A} n (a : A) : refines n (ret a) (ret a).
Proof. intros s c H. by exists (Next a s), (Next a c). Qed.

Lemma refines_bind {A B} n (m : prog (state W) A) m' (k : A -> prog (state W) B) k' :
  refines n m m' -> (forall a, refines n (k a) (k' a)) -> refines n (bind m k) (bind m' k').
Proof.
  intros Hm Hk s c H. destruct (Hm s c H) as (o & o' & E & E' & Ho).
  unfold bind. rewrite E, E', !bind_Ok.
  destruct o as [a s1|v s1], o' as [a' c1|v' c1]; try done.
  - destruct Ho as [-> Ho]. by apply Hk.
  - by exists (Exit v s1), (Exit v' c1).
Qed.

(** Both sides compute; what is left is that the results show the same. *)
Ltac both_compute :=
  let Hn := fresh in let Ho := fresh in let He := fresh in let Hw := fresh in
  intros [? b ? ? w] [? ? ?] (Hn & Hb & Ho & He & Hw);
  cbn in Hn, Hb, Ho, He, Hw; subst;
  eexists _, _; split; [reflexivity|]; split; [reflexivity|].

Lemma refines_die {A} n msg : refines n (die (A := A) msg) (c_die msg).
Proof. by both_compute. Qed.

Lemma refines_expecting {A} n msg :
  refines n (expecting (A := A) msg) (c_sys (fun w => ((), if_set_errno EINVAL w)) ;; c_die msg).
Proof. by both_compute. Qed.

(** A request whose outcome the laws give. *)
Lemma must_at s n b out err w r msg (d : W -> bool * W) :
  length b = sizeof_ifru -> if_ioctl s r n b w = answer b (d w) ->
  agree n (ioctl_or_die s r msg (State n b out err w)) (must msg d (Console out err w)).
Proof.
  intros Hb Hd. unfold ioctl_or_die, must, bind, ioctl, c_sys.
  cbn [ifr_name ifr_ifru world c_world c_out c_err stdout stderr].
  rewrite Hd. unfold answer. destruct (d w) as [[] w1]; rewrite !bind_Ok; cbn [fst snd].
  - by apply refines_ret.
  - by apply refines_die.
Qed.

(** A request that stores its argument first. *)
Lemma refines_must n (pre : prog (state W) ()) (f : list Z -> list Z) s r msg (d : W -> bool * W) :
  (forall st, pre st = Ok (Next () (State (ifr_name st) (f (ifr_ifru st)) (stdout st) (stderr st) (world st)))) ->
  (forall b, length b = sizeof_ifru -> length (f b) = sizeof_ifru) ->
  (forall b w, length b = sizeof_ifru -> if_ioctl s r n (f b) w = answer (f b) (d w)) ->
  refines n (pre ;; ioctl_or_die s r msg) (must msg d).
Proof.
  intros Hpre Hlen Hd [nm b out err w] [out' err' w'] (Hn & Hb & Ho & He & Hw).
  cbn in Hn, Hb, Ho, He, Hw. subst nm out' err' w'.
  unfold bind at 1. rewrite Hpre, bind_Ok. cbn [ifr_name ifr_ifru stdout stderr world].
  apply must_at; auto.
Qed.

Lemma refines_setflags s n set clr f :
  (forall fl, Z.lor (Z.land fl (Z.lnot clr)) set = f fl) ->
  refines n (setflags s set clr) (change_flags s n f).
Proof.
  intros Hf [nm b out err w] [out' err' w'] (Hn & Hb & Ho & He & Hw).
  cbn in Hn, Hb, Ho, He, Hw. subst nm out' err' w'.
  unfold setflags, change_flags, must_get, ioctl_or_die at 1, bind, ioctl, c_sys.
  cbn [ifr_name ifr_ifru world c_world c_out c_err stdout stderr].
  rewrite law_get_flags by done.
  destruct (dev_flags s n w) as [[fl|] w1]; rewrite !bind_Ok; cbn [Z.ltb Z.compare].
  - unfold ret, get. rewrite !bind_Ok. unfold store, load_flags.
    cbn [ifr_name ifr_ifru world stdout stderr]. rewrite !bind_Ok.
    rewrite (load_store_same 0 2) by ifru_len.
    change (256 ^ Z.of_nat 2) with (2 ^ 16). rewrite s16_u16, Hf.
    apply must_at; [ifru_len|].
    rewrite law_set_flags by ifru_len.
    rewrite load_store_same by ifru_len.
    change (256 ^ Z.of_nat 2) with (2 ^ 16). by rewrite s16_u16.
  - by apply refines_die.
Qed.

Lemma refines_setmtu s n v : refines n (setmtu s v) (must "SIOCSIFMTU" (dev_set_mtu s n (atoi v))).
Proof.
  apply refines_must with (f := store_le 0 4 (atoi v)); [done|..].
  - intros b Hb. ifru_len.
  - intros b w Hb. rewrite law_set_mtu by ifru_len.
    rewrite load_store_same by ifru_len. change (256 ^ Z.of_nat 4) with (2 ^ 32).
    rewrite s32_u32. unfold atoi.
    by rewrite (wrap_s_id 32 (s32 _)) by (try apply wrap_s_range; lia).
Qed.

(** The three requests with an address. *)
Lemma refines_address s n r msg (v : string) (d : Z -> W -> bool * W) :
  (forall b w, length b = sizeof_ifru -> load_le 0 2 b = AF_INET ->
    if_ioctl s r n b w = answer b (d (load_le 4 4 b) w)) ->
  refines n (init_sockaddr_in v ;; ioctl_or_die s r msg) (must msg (d (if_inet_addr v))).
Proof.
  intros Hd.
  set (f b := store_le 4 4 (if_inet_addr v) (store_le 2 2 0 (store_le 0 2 AF_INET b))).
  assert (forall b, length b = sizeof_ifru -> length (f b) = sizeof_ifru) as Hlen.
  { intros b Hb. unfold f. ifru_len. }
  apply refines_must with (f := f); [done..|]. intros b w Hb.
  assert (load_le 0 2 (f b) = AF_INET) as Hfam.
  { unfold f.
    rewrite !load_store_before by ifru_len.
    rewrite load_store_same by ifru_len. apply Z.mod_small, af_inet_range. }
  rewrite Hd by auto. f_equal. f_equal. unfold f.
  rewrite load_store_same by ifru_len.
  apply Z.mod_small, inet_addr_range.
Qed.

Lemma perform_refines {A} s n c (m : prog (state W) ()) (k : prog (state W) A) k' :
  refines n m (perform s n c) -> refines n k k' -> refines n (m ;; k) (perform s n c ;; k').
Proof. intros Hm Hk. apply refines_bind; [done|]. by intros _. Qed.

Lemma strcmp_test a b : (strcmp a b =? 0) = bool_decide (a = b).
Proof.
  apply Bool.eq_iff_eq_true. rewrite Z.eqb_eq, bool_decide_eq_true. apply strcmp_eq.
Qed.

Lemma options_refines s n argv :
  refines n (options s argv) (let '(cs, e) := parse argv in perform_all s n cs (c_finish e)).
Proof.
  (* one word may take its value with it: induction on the length *)
  remember (length argv) as len eqn:Hlen. revert argv Hlen.
  induction (lt_wf len) as [len _ IH]. intros [|a rest] ->; [apply refines_ret|].
  assert (forall l, (length l <= length rest)%nat -> refines n (options s l)
    (let '(cs, e) := parse l in perform_all s n cs (c_finish e))) as IH'.
  { intros l Hl. eapply (IH (length l)); [cbn; lia|done]. }
  clear IH. pose proof (IH' rest ltac:(done)) as IHrest.
  cbn [options parse]. unfold valued, plain. rewrite !strcmp_test.
  repeat case_bool_decide; subst; repeat case_decide; try done; cbn [option_map default].
  1, 3, 5: destruct (parse rest) as [cs e]; apply perform_refines; [apply refines_setflags|done]; intros fl.
  - by rewrite Z.land_m1_r.
  - by rewrite Z.ldiff_land.
  - by rewrite Z.lor_0_r, Z.ldiff_land.
  - destruct rest as [|v rest]; [apply refines_expecting|].
    specialize (IH' rest ltac:(cbn; lia)). destruct (parse rest) as [cs e].
    apply perform_refines; [apply refines_setmtu|done].
  - destruct rest as [|v rest]; [apply refines_expecting|].
    specialize (IH' rest ltac:(cbn; lia)). destruct (parse rest) as [cs e].
    apply perform_refines; [apply refines_address, law_set_dstaddr|].
    apply perform_refines; [|done]. apply refines_setflags. intros fl. by rewrite Z.land_m1_r.
  - destruct rest as [|v rest]; [apply refines_expecting|].
    specialize (IH' rest ltac:(cbn; lia)). destruct (parse rest) as [cs e].
    apply perform_refines; [apply refines_address, law_set_netmask|done].
  - destruct (parse rest) as [cs e]. destruct (starts_with_digit a); [|done].
    apply perform_refines; [apply refines_address, law_set_addr|].
    apply perform_refines; [|done]. apply refines_setflags. intros fl. by rewrite Z.land_m1_r.
Qed.

(** The dotted notation fits the arrays of 20 characters. *)
Lemma dotted_fits a1 a2 a3 a4 :
  Forall is_byte [a1; a2; a3; a4] -> strlen (dotted_bytes (a1, a2, a3, a4)) < 20.
Proof.
  rewrite !Forall_cons. unfold is_byte.
  rewrite !Is_true_true, !andb_true_iff, !Z.leb_le, !Z.ltb_lt. intros (H1 & H2 & H3 & H4 & _).
  unfold strlen, dotted_bytes. rewrite !length_str_app.
  pose proof (dec_length 3 a1 ltac:(cbn; lia)). pose proof (dec_length 3 a2 ltac:(cbn; lia)).
  pose proof (dec_length 3 a3 ltac:(cbn; lia)). pose proof (dec_length 3 a4 ltac:(cbn; lia)).
  cbn [String.length]. lia.
Qed.

(** The address in a union that holds a [struct sockaddr_in]. *)
Lemma load_sockaddr a : load_le 4 4 (sockaddr_in a) = let '(a1, a2, a3, a4) := a in of_le [a1; a2; a3; a4].
Proof. by destruct a as [[[a1 a2] a3] a4]. Qed.
Lemma sockaddr_length a : length (sockaddr_in a) = sizeof_ifru.
Proof. by destruct a as [[[a1 a2] a3] a4]. Qed.

Lemma bind_get {A B} (f : state W -> A) (k : A -> prog (state W) B) s : bind (get f) k s = k (f s) s.
Proof. done. Qed.

(** A request that reads: the rest sees what it left in the union. *)
Lemma read_at {A B} s n b out err w r (d : W -> option A * W) (f : A -> list Z)
    (k : prog (state W) B) (k' : A -> prog (console W) B) :
  if_ioctl s r n b w = match d w with (Some a, w) => (0, f a, w) | (None, w) => (-1, b, w) end ->
  length b = sizeof_ifru ->
  (forall a w', d w = (Some a, w') -> agree n (k (State n (f a) out err w')) (k' a (Console out err w'))) ->
  agree n ((ioctl_or_perror s r ;; k) (State n b out err w))
          ((a <- must_get (c_perror n) d ;; k' a) (Console out err w)).
Proof.
  intros Hd Hb Hk. unfold ioctl_or_perror, must_get, bind, ioctl, c_sys.
  cbn [ifr_name ifr_ifru world c_world c_out c_err stdout stderr]. rewrite Hd.
  destruct (d w) as [[a|] w1]; rewrite !bind_Ok; cbn [Z.ltb Z.compare].
  - by apply Hk.
  - by eexists (Exit _ _), (Exit _ _).
Qed.

Lemma display_refines s n : refines n (display s) (c_display s n).
Proof.
  intros [nm b out err w] [out' err' w'] (Hn & Hb & Ho & He & Hw).
  cbn in Hn, Hb, Ho, He, Hw. subst nm out' err' w'.
  apply read_at with (f := sockaddr_in); [by apply law_get_addr|done|].
  intros [[[a1 a2] a3] a4] w1 Ha%dev_addr_bytes.
  apply read_at with (f := sockaddr_in); [by apply law_get_netmask, sockaddr_length|apply sockaddr_length|].
  intros [[[m1 m2] m3] m4] w2 Hm%dev_netmask_bytes.
  apply read_at with (f := fun fl => store_le 0 2 fl (sockaddr_in (m1, m2, m3, m4)));
    [by apply law_get_flags, sockaddr_length|apply sockaddr_length|].
  intros fl w3 _. unfold load_sin_addr. cbn [ifr_ifru].
  rewrite bind_get.
  unfold load_flags. cbn [ifr_ifru]. rewrite !load_sockaddr, !dotted_le by done.
  rewrite load_store_same by (rewrite sockaddr_length; unfold sizeof_ifru; lia).
  change (256 ^ Z.of_nat 2) with (2 ^ 16). rewrite s16_u16.
  unfold sprintf. rewrite !(proj2 (Z.ltb_lt _ 20)) by by apply dotted_fits.
  eexists (Next 0 _), (Next 0 _). split; [reflexivity|]. split; [reflexivity|].
  split; [done|]. split; [done|]. split.
  - cbn [ifr_ifru]. rewrite store_le_length; by rewrite sockaddr_length; unfold sizeof_ifru; lia.
  - cbn [stdout stderr world c_out c_err c_world]. split; [|done]. by rewrite !str_app_assoc.
Qed.

(** The whole program from the state it starts in. *)
Lemma main_agrees argv w :
  exists n, agree n (main argv (State "" (replicate sizeof_ifru 0) "" "" w))
                    (spec_main argv (Console "" "" w)).
Proof.
  destruct argv as [|a argv].
  { by exists ""; eexists (Next 0 _), (Next 0 _). }
  exists (str_take (IFNAMSIZ - 1) a). unfold main, spec_main.
  set (n := str_take (IFNAMSIZ - 1) a).
  unfold bind at 1, copy_name. rewrite bind_Ok. cbn [ifr_ifru stdout stderr world].
  fold n. apply refines_bind; [|intros s|by repeat split].
  - intros [nm b out err w1] [out' err' w1'] (Hn & Hb & Ho & He & Hw).
    cbn in Hn, Hb, Ho, He, Hw. subst nm out' err' w1'.
    unfold socket, c_sys. cbn [world c_world c_out c_err ifr_name ifr_ifru stdout stderr].
    destruct (if_socket AF_INET SOCK_DGRAM 0 w1) as [v w2].
    eexists (Next v _), (Next v _). do 2 (split; [reflexivity|]). by repeat split.
  - destruct (s <? 0); [apply refines_die|].
    destruct argv as [|b argv]; [apply display_refines|apply options_refines].
Qed.

(** C15.  Over any system whose [ioctl] reads and writes the bytes of the union
    that [netdevice(7)] documents, the tool does what its command line says: it
    never leaves an array, and its exit status, its output and the system it
    leaves are those of the commands the words stand for, performed in order
    on the interface, up to the first that is refused. *)
Theorem ifconfig_refines argv w :
  exists r, run argv w = Ok r /\ spec_run argv w = Ok r.
Proof.
  destruct (main_agrees argv w) as (n & o & o' & E & E' & Ho).
  unfold run, spec_run. rewrite E, E', !bind_Ok.
  destruct o as [v s|v s], o' as [v' c|v' c]; try done;
    destruct Ho as (-> & _ & _ & -> & -> & ->); by eexists.
Qed.

(** [-pointopoint] asks the system to take the interface down and to make it
    point-to-point, the opposite of what the word says. *)
Theorem minus_pointopoint_takes_down s n fl w w1 :
  IFF_UP = 1 -> IFF_POINTOPOINT = 16 -> dev_flags s n w = (Some fl, w1) ->
  exists f, perform s n PointToPointOff (Console "" "" w) =
      must "SIOCSIFFLAGS" (dev_set_flags s n f) (Console "" "" w1) /\
    Z.testbit f 0 = false /\ Z.testbit f 4 = true /\
    (forall i, 0 <= i < 16 -> i <> 0 -> i <> 4 -> Z.testbit f i = Z.testbit fl i).
Proof.
  intros Hup Hptp Hfl. exists (s16 (Z.lor (Z.ldiff (s16 fl) 1) IFF_POINTOPOINT)). split.
  - cbn [perform]. unfold change_flags, must_get, bind, c_sys. cbn [c_world c_out c_err].
    rewrite Hfl, !bind_Ok. reflexivity.
  - rewrite Hptp. split; [|split].
    + rewrite s16_bits by lia. by rewrite Z.lor_spec, Z.ldiff_spec, andb_false_r.
    + rewrite s16_bits by lia. by rewrite Z.lor_spec, orb_true_r.
    + intros i Hi H0 H4. rewrite s16_bits, Z.lor_spec, Z.ldiff_spec, s16_bits by lia.
      change 1 with (2 ^ 0). change 16 with (2 ^ 4).
      rewrite !Z.pow2_bits_false by lia. by rewrite andb_true_r, orb_false_r.
Qed.
End refinement.

(** ** A system that obeys the laws *)

Module Lab.

Record card := Card {
  flags : Z; address : Z * Z * Z * Z; mask : Z * Z * Z * Z; peer : Z * Z * Z * Z; mtu : Z
}.

#[local] Instance linux : IfAbi :=
  {| IFF_UP := 1; IFF_BROADCAST := 2; IFF_LOOPBACK := 8; IFF_POINTOPOINT := 16;
     IFF_RUNNING := 64; IFF_MULTICAST := 4096; AF_INET := 2; SOCK_DGRAM := 2; EINVAL := 22 |}.

Definition quad (z : Z) : Z * Z * Z * Z :=
  (z mod 256, z / 256 mod 256, z / 65536 mod 256, z / 16777216 mod 256).

(** One card, of the name [eth0], that refuses an MTU above 1500. *)
Definition known (n : string) : bool := bool_decide (n = "eth0").
Definition read {A} (f : card -> A) (n : string) (c : card) : option A * card :=
  (if known n then Some (f c) else None, c).
Definition write (ok : bool) (f : card -> card) (n : string) (c : card) : bool * card :=
  if known n && ok then (true, f c) else (false, c).

#[local] Instance card_devices : Devices card := {|
  dev_flags _ := read flags;
  dev_addr _ := read (fun c => quad (of_le (let '(a, b, c, d) := address c in [a; b; c; d])));
  dev_netmask _ := read (fun c => quad (of_le (let '(a, b, c, d) := mask c in [a; b; c; d])));
  dev_set_flags _ n f := write true (fun c => Card f (address c) (mask c) (peer c) (mtu c)) n;
  dev_set_mtu _ n m := write (m <=? 1500) (fun c => Card (flags c) (address c) (mask c) (peer c) m) n;
  dev_set_addr _ n a := write true (fun c => Card (flags c) (quad a) (mask c) (peer c) (mtu c)) n;
  dev_set_dstaddr _ n a := write true (fun c => Card (flags c) (address c) (mask c) (quad a) (mtu c)) n;
  dev_set_netmask _ n a := write true (fun c => Card (flags c) (address c) (quad a) (peer c) (mtu c)) n
|}.

Definition give {A} (b : list Z) (f : A -> list Z) (r : option A * card) : Z * list Z * card :=
  match r with (Some a, w) => (0, f a, w) | (None, w) => (-1, b, w) end.

#[local] Instance card_system : IfSystem card := {|
  if_socket _ _ _ w := (3, w);
  if_ioctl s r n b w :=
    match r with
    | SIOCGIFADDR => give b sockaddr_in (dev_addr s n w)
    | SIOCGIFNETMASK => give b sockaddr_in (dev_netmask s n w)
    | SIOCGIFFLAGS => give b (fun f => store_le 0 2 f b) (dev_flags s n w)
    | SIOCSIFFLAGS => answer b (dev_set_flags s n (s16 (load_le 0 2 b)) w)
    | SIOCSIFMTU => answer b (dev_set_mtu s n (s32 (load_le 0 4 b)) w)
    | SIOCSIFDSTADDR => answer b (dev_set_dstaddr s n (load_le 4 4 b) w)
    | SIOCSIFNETMASK => answer b (dev_set_netmask s n (load_le 4 4 b) w)
    | SIOCSIFADDR => answer b (dev_set_addr s n (load_le 4 4 b) w)
    end;
  if_inet_addr a :=
    if bool_decide (a = "10.0.0.1") then 16777226
    else if bool_decide (a = "255.0.0.0") then 255 else 4294967295;
  if_strerror _ := "Invalid argument";
  if_set_errno _ w := w
|}.

Lemma quad_bytes z : let '(a, b, c, d) := quad z in Forall is_byte [a; b; c; d].
Proof.
  unfold quad. rewrite !Forall_cons. unfold is_byte.
  rewrite !Is_true_true, !andb_true_iff, !Z.leb_le, !Z.ltb_lt.
  repeat split; try (apply Z.mod_pos_bound; lia). by constructor.
Qed.

Lemma card_laws : IfLaws card.
Proof.
  split; try done.
  - intros a. unfold if_inet_addr, card_system. by repeat case_match.
  - intros s n w a1 a2 a3 a4 w'. cbn. unfold read. case_match; [|done].
    injection 1 as <- <- <- <- _. apply (quad_bytes (of_le _)).
  - intros s n w a1 a2 a3 a4 w'. cbn. unfold read. case_match; [|done].
    injection 1 as <- <- <- <- _. apply (quad_bytes (of_le _)).
Qed.

Definition idle : card := Card 4098 (0, 0, 0, 0) (0, 0, 0, 0) (0, 0, 0, 0) 1500.
Definition ready : card := Card 4099 (10, 0, 0, 1) (255, 0, 0, 0) (0, 0, 0, 0) 1400.

(** An address, a mask and an MTU; their display; an MTU that is refused. *)
Lemma ifconfig_refines_witness :
  (run ["eth0"; "10.0.0.1"; "netmask"; "255.0.0.0"; "mtu"; "1400"; "other"] idle
     = Ok (0, "", "", ready) /\
   run ["eth0"] ready
     = Ok (0, "eth0: ip 10.0.0.1 mask 255.0.0.0 flags [up broadcast multicast]" +:+ str_lf, "", ready) /\
   run ["eth0"; "up"; "mtu"; "9000"; "down"] idle
     = Ok (-1, "", "error: SIOCSIFMTU (Invalid argument)" +:+ str_lf,
           Card 4099 (0, 0, 0, 0) (0, 0, 0, 0) (0, 0, 0, 0) 1500)) /\
  (exists r, run ["eth0"; "up"; "mtu"; "9000"; "down"] idle = Ok r /\
             spec_run ["eth0"; "up"; "mtu"; "9000"; "down"] idle = Ok r).
Proof.
  split; [split; [vm_compute; reflexivity|split; vm_compute; reflexivity]|].
  exact (ifconfig_refines (laws := card_laws) ["eth0"; "up"; "mtu"; "9000"; "down"] idle).
Defined.

End Lab.
