(* ===== verification/IwStatus.v ===== *)
(** * Wireless status for Java: messages, arguments, interface status

    [jni/iwstatus.c]: the library that gives the Java side what [iwconfig] and
    [ifconfig] would print.  Its output goes to the array [msg_out]
    ([printfit]); its arguments come in one string ([getargs]).  The interface
    part ([main_ifconfig] and [ifstatus]) is a second version of [Ifconfig] that
    goes on after a failure; it is modelled over the same system. *)
From Stdlib Require Import ZArith Lia Ascii String.
From stdpp Require Import base list strings.
From S2P Require Import Prelude.
From S2P Require Import CString.
From S2P Require Import Ifconfig.

Open Scope string_scope.
Open Scope list_scope.
Open Scope Z_scope.

(** ** The message *)

Definition MSG_SIZE : Z := 8192.

Record message := Message { msg_out : list ascii; msg_out_len : Z }.

(** [vsnprintf(&m[off], size, ...)] of a text: at most [size - 1] characters and
    the terminator; nothing when [size] is 0.  The result is the whole length. *)
Definition vsnprintf (off size : Z) (t : string) (m : list ascii) : res (list ascii) :=
  if size <? 0 then Err OutOfBounds
  else if size =? 0 then Ok m
  else
    let w := chars (str_take (Z.to_nat (size - 1)) t) ++ [NUL] in
    if Z.of_nat (length m) <? off + Z.of_nat (length w) then Err OutOfBounds
    else Ok (take (Z.to_nat off) m ++ w ++ drop (Z.to_nat off + length w) m)%list.

Definition store_char (i : Z) (c : ascii) (m : list ascii) : res (list ascii) :=
  if (i <? 0) || (Z.of_nat (length m) <=? i) then Err OutOfBounds
  else Ok (<[Z.to_nat i := c]> m).

(** [printfit] and [fprintfit], of the formatted text. *)
Definition printfit (t : string) (o : message) : res message :=
  m ← vsnprintf (msg_out_len o) (8192 - msg_out_len o - 1) t (msg_out o);
  let r := strlen t in
  if 0 <? r then
    let n := msg_out_len o + r in
    let n := if 8191 <? n then 8191 else n in
    let n := if n <? 0 then 0 else n in
    m ← store_char n NUL m;
    Ok (Message m n)
  else Ok (Message m (msg_out_len o)).

(** ** The arguments *)

(** The loop of [getargs] over the string [args], which it cuts in place;
    [argv] are the positions of the arguments found, [argv[0]] not among them,
    in an array of 64. *)
Fixpoint getargs_loop (fuel i : nat) (args : list ascii) (argv : list nat) (qf ef inarg : bool)
    : res (list ascii * list nat) :=
  s ← cstr args;
  if (i <? String.length s)%nat then
    match fuel, args !! i with
    | S fuel, Some c =>
        if negb qf && negb ef && (c =? " ")%char
        then getargs_loop fuel (S i) (<[i := NUL]> args) argv qf ef false
        else
          argv ← (if inarg then Ok argv
                  else if (63 <=? length argv)%nat then Err OutOfBounds
                  else Ok (argv ++ [i])%list);
          if ef then getargs_loop fuel (S i) args argv qf false true
          else getargs_loop fuel (S i) args argv
                 (if (c =? DQUOTE)%char then negb qf else qf) ((c =? "\")%char) true
    | _, _ => Diverges
    end
  else Ok (args, argv).

(** The strings at the positions, behind [argv[0]]. *)
Definition getargs_argv (argv0 s : string) : res (list string) :=
  '(args, argv) ← getargs_loop (S (String.length s)) 0 (chars s ++ [NUL]) [] false false false;
  l ← foldr (fun p l => x ← cstr_at args p; l ← l; Ok (x :: l)) (Ok []) argv;
  Ok (argv0 :: l).

Fixpoint print_args (i : Z) (argc : Z) (l : list string) (o : message) : res message :=
  match l with
  | [] => Ok o
  | x :: l =>
      o ← printfit ("arg " +:+ dec i +:+ "/" +:+ dec argc +:+ " = [" +:+ x +:+ "]" +:+ str_lf) o;
      print_args (i + 1) argc l o
  end.

Definition getargs (argv0 s : string) (o : message) : res (list string * message) :=
  argv ← getargs_argv argv0 s;
  o ← print_args 0 (Z.of_nat (length argv)) argv o;
  Ok (argv, o).

(** ** The interface part *)

Class Errno (W : Type) := sys_errno : W -> Z.

Section ifconfig.
Context {abi : IfAbi} {W : Type} {sys : IfSystem W} {errno : Errno W}.

Record status := Status {
  st_name : string; st_ifru : list Z; st_msg : message; st_world : W
}.

Definition st_get {A} (f : status -> A) : prog status A := fun s => Ok (Next (f s) s).
Definition st_print (t : string) : prog status () := fun s =>
  o ← printfit t (st_msg s);
  Ok (Next () (Status (st_name s) (st_ifru s) o (st_world s))).
Definition st_store (off n : nat) (z : Z) : prog status () := fun s =>
  Ok (Next () (Status (st_name s) (store_le off n z (st_ifru s)) (st_msg s) (st_world s))).
Definition st_ioctl (sock : Z) (r : request) : prog status Z := fun s =>
  let '(v, b, w) := if_ioctl sock r (st_name s) (st_ifru s) (st_world s) in
  Ok (Next v (Status (st_name s) b (st_msg s) w)).
Definition st_set_errno (e : Z) : prog status () := fun s =>
  Ok (Next () (Status (st_name s) (st_ifru s) (st_msg s) (if_set_errno e (st_world s)))).
Definition st_socket : prog status Z := fun s =>
  let '(v, w) := if_socket AF_INET SOCK_DGRAM 0 (st_world s) in
  Ok (Next v (Status (st_name s) (st_ifru s) (st_msg s) w)).
Definition st_flags (s : status) : Z := s16 (load_le 0 2 (st_ifru s)).
Definition st_sin_addr (s : status) : Z := load_le 4 4 (st_ifru s).

(** The value that [die] returns is not used: its callers return nothing. *)
Definition die (msg : string) : prog status () :=
  e <- st_get (fun s => if_strerror (st_world s)) ;;
  st_print ("error: " +:+ msg +:+ " (" +:+ e +:+ ")" +:+ str_lf).

Definition ioctl_or_die (s : Z) (r : request) (msg : string) : prog status () :=
  v <- st_ioctl s r ;;
  if v <? 0 then die msg else ret ().

Definition setflags (s set clr : Z) : prog status () :=
  v <- st_ioctl s SIOCGIFFLAGS ;;
  if v <? 0 then die "SIOCGIFFLAGS"
  else
    flags <- st_get st_flags ;;
    st_store 0 2 (Z.lor (Z.land flags (Z.lnot clr)) set) ;;
    ioctl_or_die s SIOCSIFFLAGS "SIOCSIFFLAGS".

Definition init_sockaddr_in (addr : string) : prog status () :=
  st_store 0 2 AF_INET ;;
  st_store 2 2 0 ;;
  st_store 4 4 (if_inet_addr addr).

Definition setmtu (s : Z) (mtu : string) : prog status () :=
  st_store 0 4 (atoi mtu) ;;
  ioctl_or_die s SIOCSIFMTU "SIOCSIFMTU".

Definition setdstaddr (s : Z) (addr : string) : prog status () :=
  init_sockaddr_in addr ;;
  ioctl_or_die s SIOCSIFDSTADDR "SIOCSIFDSTADDR".

Definition setnetmask (s : Z) (addr : string) : prog status () :=
  init_sockaddr_in addr ;;
  ioctl_or_die s SIOCSIFNETMASK "SIOCSIFNETMASK".

Definition setaddr (s : Z) (addr : string) : prog status () :=
  init_sockaddr_in addr ;;
  ioctl_or_die s SIOCSIFADDR "SIOCSIFADDR".

Definition sprintf (size : Z) (t : string) : prog status string :=
  lift (if strlen t <? size then Ok t else Err OutOfBounds).

(** A request of the display; [what] is the text before the error number. *)
Definition report {A} (what : string) : prog status A :=
  e <- st_get (fun s => sys_errno (st_world s)) ;;
  n <- st_get st_name ;;
  st_print (what +:+ "Error " +:+ dec e +:+ ": " +:+ n +:+ str_lf) ;;
  exit (-1).
Definition ioctl_or_report (s : Z) (r : request) (what : string) : prog status () :=
  v <- st_ioctl s r ;;
  if v <? 0 then report what else ret ().

Definition display (s : Z) : prog status Z :=
  ioctl_or_report s SIOCGIFADDR "" ;;
  addr <- st_get st_sin_addr ;;
  ioctl_or_report s SIOCGIFNETMASK "SIOCGIFNETMASK " ;;
  mask <- st_get st_sin_addr ;;
  ioctl_or_report s SIOCGIFFLAGS "SIOCGIFFLAGS " ;;
  f <- st_get st_flags ;;
  let flags := u32 f in
  astring <- sprintf 20 (dotted addr) ;;
  mstring <- sprintf 20 (dotted mask) ;;
  n <- st_get st_name ;;
  st_print (n +:+ ": ip " +:+ astring +:+ " mask " +:+ mstring +:+ " flags [") ;;
  st_print (flag_words flags +:+ "]" +:+ str_lf) ;;
  ret 0.

(** A value that is missing is reported, and then taken from behind the
    arguments, where the array holds nothing. *)
Definition expecting {A} (what : string) : prog status A :=
  st_set_errno EINVAL ;; st_print (what +:+ str_lf) ;; lift (Err UninitRead).

Fixpoint options (s : Z) (argv : list string) : prog status Z :=
  match argv with
  | [] => ret 0
  | a :: rest =>
      if strcmp a "up" =? 0 then setflags s IFF_UP 0 ;; options s rest
      else if strcmp a "mtu" =? 0 then
        match rest with
        | [] => expecting ("expecting a value for parameter " +:+ quote "mtu")
        | v :: rest => setmtu s v ;; options s rest
        end
      else if strcmp a "-pointopoint" =? 0 then
        setflags s IFF_POINTOPOINT 1 ;; options s rest
      else if strcmp a "pointopoint" =? 0 then
        match rest with
        | [] => expecting ("expecting an IP address for parameter " +:+ quote "pointtopoint")
        | v :: rest =>
            setdstaddr s v ;; setflags s IFF_POINTOPOINT 0 ;; options s rest
        end
      else if strcmp a "down" =? 0 then setflags s 0 IFF_UP ;; options s rest
      else if strcmp a "netmask" =? 0 then
        match rest with
        | [] => expecting ("expecting an IP address for parameter " +:+ quote "netmask")
        | v :: rest => setnetmask s v ;; options s rest
        end
      else if starts_with_digit a then
        setaddr s a ;; setflags s IFF_UP 0 ;; options s rest
      else options s rest
  end.

Definition main_ifconfig (argv0 : string) (argv : list string) : prog status Z :=
  st_print ("argc=" +:+ dec (1 + Z.of_nat (length argv)) +:+ ", argv[0]='" +:+ argv0 +:+ "'" +:+ str_lf) ;;
  match argv with
  | [] => st_print ("No arguments given to ifconfig" +:+ str_lf) ;; ret 0
  | name :: argv =>
      (fun s => Ok (Next () (Status (str_take (IFNAMSIZ - 1) name) (replicate sizeof_ifru 0)
                               (st_msg s) (st_world s)))) ;;
      s <- st_socket ;;
      if s <? 0 then st_print ("cannot open control socket" +:+ str_lf) ;; ret (-1)
      else match argv with
           | [] => display s
           | _ => options s argv
           end
  end.

(** [ifstatus] of [WifiMode]: the string for Java, and the system.  The request
    is not used before [main_ifconfig] clears it. *)
Definition ifstatus (args_in : string) (m : list ascii) (w : W) : res (string * W) :=
  m ← store_char 0 NUL m;
  o ← printfit ("args_in=[" +:+ args_in +:+ "]" +:+ str_lf) (Message m 0);
  '(argv, o) ← getargs "ifconfig" args_in o;
  r ← main_ifconfig "ifconfig" (drop 1 argv) (Status "" (replicate sizeof_ifru 0) o w);
  match r with
  | Next _ s | Exit _ s => t ← cstr (msg_out (st_msg s)); Ok (t, st_world s)
  end.

End ifconfig.
Arguments status W : clear implicits.

(** ** The message holds what was printed, as far as it fits *)

Lemma chars_take n s : chars (str_take n s) = take n (chars s).
Proof. revert s. induction n as [|n IH]; intros [|c s]; cbn; [done..|]. f_equal. apply IH. Qed.

(** The characters that fit. *)
Definition capacity : nat := Z.to_nat 8190.

Definition logs (log : string) (o : message) : Prop :=
  Z.of_nat (length (msg_out o)) = MSG_SIZE /\ msg_out_len o = Z.min 8191 (strlen log) /\
  exists rest, msg_out o = chars (str_take capacity log) ++ NUL :: rest.

Lemma logs_start m :
  Z.of_nat (length m) = MSG_SIZE ->
  exists m', store_char 0 NUL m = Ok m' /\ logs "" (Message m' 0).
Proof.
  intros Hm. destruct m as [|c m]; [done|]. exists (NUL :: m). unfold store_char. rewrite Hm.
  split; [done|]. split_and!; [done|done|]. exists m. by unfold capacity; destruct (Z.to_nat 8190).
Qed.

(** Storing behind the log. *)
Lemma vsnprintf_behind (L rest : list ascii) t :
  Z.of_nat (length L) + Z.of_nat (length rest) = 8191 -> Z.of_nat (length L) <= 8190 ->
  exists rest', vsnprintf (Z.of_nat (length L)) (8191 - Z.of_nat (length L)) t (L ++ NUL :: rest) =
      Ok (L ++ take (capacity - length L) (chars t) ++ NUL :: rest') /\
    Z.of_nat (length (L ++ take (capacity - length L) (chars t) ++ NUL :: rest')) = MSG_SIZE.
Proof.
  intros Hl HL. unfold vsnprintf, MSG_SIZE.
  rewrite (proj2 (Z.ltb_ge (8191 - Z.of_nat (length L)) 0)),
    (proj2 (Z.eqb_neq (8191 - Z.of_nat (length L)) 0)) by lia.
  replace (Z.to_nat (8191 - Z.of_nat (length L) - 1)) with (capacity - length L)%nat
    by (unfold capacity; lia).
  rewrite chars_take. set (w := take (capacity - length L) (chars t)).
  assert (Z.of_nat (length w) <= 8190 - Z.of_nat (length L)) as Hw.
  { unfold w, capacity. rewrite length_take. lia. }
  rewrite (proj2 (Z.ltb_ge (Z.of_nat (length (L ++ NUL :: rest)))
    (Z.of_nat (length L) + Z.of_nat (length (w ++ [NUL]))))) by (rewrite !length_app; cbn [length]; lia).
  rewrite Nat2Z.id, take_app_length, <- app_assoc. eexists. split; [reflexivity|].
  rewrite !length_app. cbn [app length]. rewrite length_drop, !length_app. cbn [length]. lia.
Qed.

(** The log, whole or cut, and the terminator stored once more. *)
Lemma take_app_split {A} k (L T : list A) :
  (length L <= k)%nat -> take k (L ++ T) = L ++ take (k - length L) T.
Proof. intros H. rewrite firstn_app. by rewrite take_ge. Qed.

Lemma terminate_again (c : nat) (pre rest : list ascii) i :
  (c = length pre \/ (length pre < c /\ c < length (pre ++ NUL :: rest)))%nat -> i = Z.of_nat c ->
  exists rest', store_char i NUL (pre ++ NUL :: rest) = Ok (pre ++ NUL :: rest') /\
    length rest' = length rest.
Proof.
  intros Hc ->. unfold store_char. rewrite length_app in *. cbn [length] in *.
  rewrite (proj2 (Z.ltb_ge (Z.of_nat c) 0)),
    (proj2 (Z.leb_gt (Z.of_nat (length pre + S (length rest))) (Z.of_nat c))) by lia.
  cbn [orb]. rewrite Nat2Z.id. destruct Hc as [->|[H1 H2]].
  - exists rest. split; [|done]. by rewrite insert_app_r_alt, Nat.sub_diag by lia.
  - exists (<[(c - length pre - 1)%nat := NUL]> rest). rewrite length_insert. split; [|done].
    rewrite insert_app_r_alt by lia.
    destruct (c - length pre)%nat as [|k] eqn:E; [lia|]. cbn. by rewrite Nat.sub_0_r.
Qed.

Lemma printfit_logs log t o :
  logs log o -> exists o', printfit t o = Ok o' /\ logs (log +:+ t) o'.
Proof.
  intros (Hm & Hlen & rest & Hout). destruct o as [m n]. cbn [msg_out msg_out_len] in *.
  unfold printfit, logs. cbn [msg_out msg_out_len].
  rewrite chars_take in Hout |- *. unfold strlen in *. rewrite length_str_app.
  rewrite <- !length_chars, chars_app in *.
  set (L := chars log) in *. set (T := chars t).
  set (c := Z.min 8191 (n + Z.of_nat (length T))).
  assert ((if (if 8191 <? n + Z.of_nat (length T) then 8191 else n + Z.of_nat (length T)) <? 0 then 0
           else if 8191 <? n + Z.of_nat (length T) then 8191 else n + Z.of_nat (length T)) = c) as ->.
  { unfold c. destruct (Z.ltb_spec 8191 (n + Z.of_nat (length T))), (Z.ltb_spec (n + Z.of_nat (length T)) 0);
      cbn [Z.ltb Z.compare]; lia. }
  assert (exists rest', vsnprintf n (8192 - n - 1) t m = Ok (take capacity (L ++ T) ++ NUL :: rest') /\
      Z.of_nat (length (take capacity (L ++ T) ++ NUL :: rest')) = MSG_SIZE) as (rest' & -> & Hlen').
  { unfold MSG_SIZE in *. destruct (decide (Z.of_nat (length L) <= 8190)) as [HL|HL].
    - rewrite take_ge in Hout by (unfold capacity; lia).
      rewrite Hout, length_app in Hm. cbn [length] in Hm.
      assert (n = Z.of_nat (length L)) as -> by lia.
      replace (8192 - Z.of_nat (length L) - 1) with (8191 - Z.of_nat (length L)) by lia.
      rewrite Hout, take_app_split by (unfold capacity; lia).
      setoid_rewrite <- app_assoc. apply vsnprintf_behind; lia.
    - assert (n = 8191) as -> by lia. exists rest.
      rewrite take_app_le by (unfold capacity; lia). rewrite <- Hout. done. }
  rewrite bind_Ok. set (pre := take capacity (L ++ T)) in *.
  assert (Z.of_nat (length pre) = Z.min 8190 (Z.of_nat (length L + length T))) as Hpre.
  { unfold pre, capacity. rewrite length_take, length_app. lia. }
  destruct (Z.ltb_spec 0 (Z.of_nat (length T))) as [HT|HT].
  - destruct (terminate_again (Z.to_nat c) pre rest' c) as (rest'' & -> & Hl''); [|unfold c; lia|].
    { unfold MSG_SIZE in Hlen'. unfold c. lia. }
    rewrite bind_Ok. eexists. split; [reflexivity|]. cbn [msg_out msg_out_len].
    rewrite length_app in *. cbn [length] in *. split_and!; [lia|unfold c; lia|by exists rest''].
  - eexists. split; [reflexivity|]. cbn [msg_out msg_out_len].
    split_and!; [done|lia|by exists rest'].
Qed.

(** What Java is given: the log, cut. *)
Definition c_text (s : string) : Prop := Forall (fun c => c <> NUL) (chars s).

Lemma logs_cstr log o : logs log o -> c_text log -> cstr (msg_out o) = Ok (str_take capacity log).
Proof.
  intros (_ & _ & rest & ->) Hn. rewrite cstr_run; [by rewrite of_chars|].
  rewrite chars_take. by apply Forall_take.
Qed.

(** ** Only the first argument is found *)

(** The text up to the first space that is neither quoted nor escaped. *)
Fixpoint first_arg (qf ef : bool) (s : string) : string :=
  match s with
  | EmptyString => EmptyString
  | String c s =>
      if negb qf && negb ef && (c =? " ")%char then EmptyString
      else String c (if ef then first_arg qf false s
                     else first_arg (if (c =? DQUOTE)%char then negb qf else qf) ((c =? "\")%char) s)
  end.

Definition first_args (s : string) : list string :=
  match first_arg false false s with EmptyString => [] | w => [w] end.

Lemma cstr_whole (l rest : list ascii) :
  Forall (fun c => c <> NUL) l -> exists s, cstr (l ++ NUL :: rest) = Ok s /\ String.length s = length l.
Proof.
  intros Hl. rewrite cstr_run by done. eexists. split; [done|].
  rewrite <- length_chars. unfold chars. by rewrite String.list_ascii_of_string_of_list_ascii.
Qed.

(** Behind the terminator that is put in the place of a space, the string is
    shorter than the index: the loop stops. *)
Lemma getargs_loop_stops fuel (pre rest : list ascii) argv qf ef inarg :
  Forall (fun c => c <> NUL) pre ->
  getargs_loop fuel (S (length pre)) (pre ++ NUL :: rest) argv qf ef inarg =
    Ok (pre ++ NUL :: rest, argv).
Proof.
  intros Hpre. destruct (cstr_whole pre rest Hpre) as (s & E & Hs).
  destruct fuel; cbn [getargs_loop]; rewrite E, bind_Ok, Hs;
    by rewrite (proj2 (Nat.ltb_ge (S (length pre)) (length pre))) by lia.
Qed.

(** Inside an argument. *)
Lemma getargs_loop_inside fuel (pre : list ascii) s argv qf ef :
  Forall (fun c => c <> NUL) pre -> c_text s -> (String.length s < fuel)%nat ->
  exists rest, getargs_loop fuel (length pre) (pre ++ chars s ++ [NUL]) argv qf ef true =
    Ok (pre ++ chars (first_arg qf ef s) ++ NUL :: rest, argv).
Proof.
  revert fuel pre qf ef. induction s as [|c s IH]; intros fuel pre qf ef Hpre Hs Hf.
  - exists []. destruct (cstr_whole pre [] Hpre) as (s & E & Hlen).
    change (chars "") with (@nil ascii). cbn [app first_arg]. change (chars "") with (@nil ascii).
    destruct fuel; cbn [getargs_loop]; rewrite E, bind_Ok, Hlen; by rewrite Nat.ltb_irrefl.
  - apply Forall_cons in Hs as [Hc Hs]. destruct fuel as [|fuel]; [lia|].
    destruct (cstr_whole (pre ++ chars (String c s)) []) as (s' & E & Hlen).
    { by apply Forall_app_2, Forall_cons. }
    rewrite <- app_assoc in E. cbn [getargs_loop]. rewrite E, bind_Ok, Hlen, length_app.
    change (chars (String c s)) with (c :: chars s) in *. cbn [app length].
    rewrite (proj2 (Nat.ltb_lt (length pre) (length pre + S (length (chars s))))) by lia.
    rewrite list_lookup_middle by done. cbn [first_arg].
    destruct (negb qf && negb ef && (c =? " ")%char).
    + exists (chars s ++ [NUL]). cbn [chars app].
      rewrite insert_app_r_alt, Nat.sub_diag by lia. cbn [insert list_insert].
      by apply getargs_loop_stops.
    + rewrite bind_Ok. specialize (IH fuel (pre ++ [c])).
      rewrite <- app_assoc, length_app in IH. cbn [app length] in IH.
      rewrite Nat.add_1_r in IH.
      assert (Forall (fun c => c <> NUL) (pre ++ [c])) as Hpc by (apply Forall_app_2; [done|by apply Forall_singleton]).
      cbn [String.length] in Hf.
      destruct ef.
      * destruct (IH qf false Hpc Hs ltac:(lia)) as (rest & E2). exists rest. rewrite E2.
        by rewrite <- app_assoc.
      * destruct (IH (if (c =? DQUOTE)%char then negb qf else qf) (c =? "\")%char Hpc Hs ltac:(lia))
          as (rest & E2). exists rest. rewrite E2. by rewrite <- app_assoc.
Qed.

Lemma first_arg_c_text qf ef s : c_text s -> c_text (first_arg qf ef s).
Proof.
  revert qf ef. induction s as [|c s IH]; intros qf ef Hs; [done|].
  apply Forall_cons in Hs as [Hc Hs]. cbn [first_arg]. case_match; [by constructor|].
  change (Forall (fun c => c <> NUL) (c :: chars (if ef then first_arg qf false s
    else first_arg (if (c =? DQUOTE)%char then negb qf else qf) (c =? "\")%char s))).
  apply Forall_cons. split; [done|]. destruct ef; by apply IH.
Qed.

(** [getargs] is meant to split its string at the spaces outside quotes; it
    finds at most one argument, the text before the first of them: the
    terminator it stores there ends the string its loop runs over.  It never
    leaves the string or the array of arguments. *)
Theorem getargs_finds_first argv0 s :
  c_text s -> getargs_argv argv0 s = Ok (argv0 :: first_args s).
Proof.
  intros Hs. unfold getargs_argv, first_args.
  destruct s as [|c s]; [done|]. pose proof (first_arg_c_text false false _ Hs) as Hw.
  pose proof Hs as Hs'. apply Forall_cons in Hs' as [Hc Hs'].
  destruct (cstr_whole (chars (String c s)) [] Hs) as (s' & E & Hlen).
  set (fuel := String.length (String c s)).
  cbn [getargs_loop]. rewrite E, bind_Ok, Hlen. change (chars (String c s)) with (c :: chars s).
  cbn [length Nat.ltb Nat.leb app lookup list_lookup negb andb first_arg] in Hw |- *.
  destruct (c =? " ")%char eqn:Hsp.
  - apply Ascii.eqb_eq in Hsp as ->. cbn [insert list_insert].
    pose proof (getargs_loop_stops fuel [] (chars s ++ [NUL]) [] false false false (List.Forall_nil _)) as Estop.
    cbn [app length] in Estop. by rewrite Estop, bind_Ok.
  - rewrite bind_Ok. cbn [app].
    destruct (getargs_loop_inside fuel [c] s [0%nat] (if (c =? DQUOTE)%char then true else false) (c =? "\")%char)
      as (rest & E2); [by apply Forall_singleton|done|unfold fuel; cbn; lia|].
    cbn [app length] in E2. rewrite E2, bind_Ok. cbn [foldr]. unfold cstr_at. rewrite drop_0.
    pose proof (cstr_run _ rest Hw) as Ec. rewrite of_chars in Ec.
    change (chars (String c ?w)) with (c :: chars w) in Ec. cbn [app] in Ec.
    by rewrite Ec, !bind_Ok.
Qed.

(** What [getargs] prints. *)
Fixpoint args_report (i argc : Z) (l : list string) : string :=
  match l with
  | [] => ""
  | x :: l =>
      "arg " +:+ dec i +:+ "/" +:+ dec argc +:+ " = [" +:+ x +:+ "]" +:+ str_lf +:+ args_report (i + 1) argc l
  end.

Lemma print_args_logs i argc l log o :
  logs log o -> exists o', print_args i argc l o = Ok o' /\ logs (log +:+ args_report i argc l) o'.
Proof.
  revert i log o. induction l as [|x l IH]; intros i log o Ho; cbn [print_args args_report].
  { exists o. by rewrite str_app_nil_r. }
  destruct (printfit_logs log ("arg " +:+ dec i +:+ "/" +:+ dec argc +:+ " = [" +:+ x +:+ "]" +:+ str_lf) o Ho)
    as (o1 & E & Ho1).
  rewrite E, bind_Ok. destruct (IH (i + 1) _ o1 Ho1) as (o2 & E2 & Ho2). exists o2. split; [done|].
  by rewrite !str_app_assoc in Ho2.
Qed.

Lemma getargs_logs argv0 s log o :
  logs log o -> c_text s ->
  let argv := argv0 :: first_args s in
  exists o', getargs argv0 s o = Ok (argv, o') /\
    logs (log +:+ args_report 0 (Z.of_nat (length argv)) argv) o'.
Proof.
  intros Ho Hs argv. unfold getargs. rewrite getargs_finds_first by done. rewrite bind_Ok.
  destruct (print_args_logs 0 (Z.of_nat (length argv)) argv log o Ho) as (o' & E & Ho').
  exists o'. fold argv. by rewrite E, bind_Ok.
Qed.

(** ** Texts without terminators inside *)

Lemma text_app s t : c_text s -> c_text t -> c_text (s +:+ t).
Proof. intros Hs Ht. unfold c_text. rewrite chars_app. by apply Forall_app_2. Qed.

Lemma text_take n s : c_text s -> c_text (str_take n s).
Proof. intros Hs. unfold c_text. rewrite chars_take. by apply Forall_take. Qed.

Lemma text_dec z : c_text (dec z).
Proof.
  apply dec_chars; [|done]. intros d Hd E. apply (f_equal byte_of) in E.
  rewrite byte_of_char in E by lia. change (byte_of NUL) with 0 in E. lia.
Qed.

Lemma text_cons c s : c <> NUL -> c_text s -> c_text (String c s).
Proof. intros Hc Hs. by apply Forall_cons. Qed.
Lemma text_nil : c_text "".
Proof. constructor. Qed.

Create HintDb texts discriminated.
#[export] Hint Resolve text_app text_take text_dec text_nil : texts.
#[export] Hint Extern 1 (c_text (String _ _)) => apply text_cons; [discriminate|] : texts.
#[export] Hint Extern 1 (c_text str_lf) => apply text_cons; [discriminate|apply text_nil] : texts.

Ltac c_text := auto 100 with texts.

Lemma text_flag_words `{IfAbi} f : c_text (flag_words f).
Proof. unfold flag_words. repeat case_match; c_text. Qed.

Lemma text_dotted a : c_text (dotted_bytes a).
Proof. destruct a as [[[a1 a2] a3] a4]. unfold dotted_bytes. c_text. Qed.
#[export] Hint Resolve text_flag_words text_dotted : texts.

Lemma text_first_args s : c_text s -> Forall c_text (first_args s).
Proof.
  intros Hs. pose proof (first_arg_c_text false false s Hs). unfold first_args.
  destruct (first_arg false false s); [constructor|by apply Forall_singleton].
Qed.

Lemma text_report i argc l : Forall c_text l -> c_text (args_report i argc l).
Proof.
  intros Hl. revert i. induction Hl as [|x l Hx _ IH]; intros i; cbn [args_report]; c_text.
Qed.

(** ** The interface part shows, and changes nothing *)

Section ifstatus.
Context {abi : IfAbi} {W : Type} {sys : IfSystem W} {errno : Errno W} {devs : Devices W} {laws : IfLaws W}.

Definition c_get {A} (f : console W -> A) : prog (console W) A := fun c => Ok (Next (f c) c).
Definition c_report {A} (what n : string) : prog (console W) A :=
  e <- c_get (fun c => sys_errno (c_world c)) ;;
  c_print (what +:+ "Error " +:+ dec e +:+ ": " +:+ n +:+ str_lf) ;;
  exit (-1).

(** The display, over typed requests; all of them read. *)
Definition spec_display (s : Z) (n : string) : prog (console W) Z :=
  addr <- must_get (c_report "" n) (dev_addr s n) ;;
  mask <- must_get (c_report "SIOCGIFNETMASK " n) (dev_netmask s n) ;;
  flags <- must_get (c_report "SIOCGIFFLAGS " n) (dev_flags s n) ;;
  c_print (n +:+ ": ip " +:+ dotted_bytes addr +:+ " mask " +:+ dotted_bytes mask
           +:+ " flags [" +:+ flag_words (u32 (s16 flags)) +:+ "]" +:+ str_lf) ;;
  ret 0.

Definition spec_ifconfig (argv : list string) : prog (console W) Z :=
  c_print ("argc=" +:+ dec (1 + Z.of_nat (length argv)) +:+ ", argv[0]='ifconfig'" +:+ str_lf) ;;
  match argv with
  | [] => c_print ("No arguments given to ifconfig" +:+ str_lf) ;; ret 0
  | name :: _ =>
      s <- c_sys (if_socket AF_INET SOCK_DGRAM 0) ;;
      if s <? 0 then c_print ("cannot open control socket" +:+ str_lf) ;; ret (-1)
      else spec_display s (str_take (IFNAMSIZ - 1) name)
  end.

Definition spec_ifstatus (args_in : string) : prog (console W) Z :=
  let argv := "ifconfig" :: first_args args_in in
  c_print ("args_in=[" +:+ args_in +:+ "]" +:+ str_lf +:+ args_report 0 (Z.of_nat (length argv)) argv) ;;
  spec_ifconfig (first_args args_in).

(** A state of the library for the interface [n] shows what the console shows. *)
Definition st_shows (n : string) (s : status W) (c : console W) : Prop :=
  st_name s = n /\ length (st_ifru s) = sizeof_ifru /\ logs (c_out c) (st_msg s) /\
  c_text (c_out c) /\ st_world s = c_world c.

Definition st_agree {A} (n : string) (r : res (outcome (status W) A)) (r' : res (outcome (console W) A)) : Prop :=
  exists o o', r = Ok o /\ r' = Ok o' /\
    match o, o' with
    | Next a s, Next a' c => a = a' /\ st_shows n s c
    | Exit v s, Exit v' c => v = v' /\ st_shows n s c
    | _, _ => False
    end.

Lemma st_agree_bind {A B} n (m : prog (status W) A) (m' : prog (console W) A) k k' s c :
  st_agree n (m s) (m' c) ->
  (forall a s c, st_shows n s c -> st_agree (A := B) n (k a s) (k' a c)) ->
  st_agree n (bind m k s) (bind m' k' c).
Proof.
  intros (o & o' & E & E' & Ho) Hk. unfold bind. rewrite E, E', !bind_Ok.
  destruct o as [a s1|v s1], o' as [a' c1|v' c1]; try done.
  - destruct Ho as [-> Ho]. by apply Hk.
  - by exists (Exit v s1), (Exit v' c1).
Qed.

Lemma print_at {A} n0 n t (k : prog (status W) A) (k' : prog (console W) A) s c :
  st_shows n0 s c -> c_text t ->
  (forall s c, st_shows n0 s c -> st_agree n (k s) (k' c)) ->
  st_agree n ((st_print t ;; k) s) ((c_print t ;; k') c).
Proof.
  intros (Hn & Hl & Hlog & Hnul & Hw) Ht Hk. unfold bind, st_print, c_print.
  destruct (printfit_logs (c_out c) t (st_msg s) Hlog) as (o & -> & Ho). rewrite !bind_Ok.
  apply Hk. split_and!; try done. by apply text_app.
Qed.

Lemma bind_st_get {A B} (f : status W -> A) (k : A -> prog (status W) B) s :
  bind (st_get f) k s = k (f s) s.
Proof. done. Qed.
Lemma bind_c_get {A B} (f : console W -> A) (k : A -> prog (console W) B) c :
  bind (c_get f) k c = k (f c) c.
Proof. done. Qed.

Lemma report_exits what n s c :
  st_shows n s c -> c_text what -> c_text n ->
  exists s' c', (forall A, report (A := A) what s = Ok (Exit (-1) s')) /\
    (forall A, c_report (A := A) what n c = Ok (Exit (-1) c')) /\ st_shows n s' c'.
Proof.
  intros (Hn & Hl & Hlog & Hnul & Hw) Hwhat Hname.
  set (t := what +:+ "Error " +:+ dec (sys_errno (c_world c)) +:+ ": " +:+ n +:+ str_lf).
  destruct (printfit_logs (c_out c) t (st_msg s) Hlog) as (o & E & Ho).
  exists (Status (st_name s) (st_ifru s) o (st_world s)), (Console (c_out c +:+ t) (c_err c) (c_world c)).
  split_and!.
  - intros A. unfold report. rewrite !bind_st_get, Hn, Hw. fold t. unfold bind, st_print.
    by rewrite E, Hn, Hw.
  - done.
  - split_and!; try done. cbn. apply text_app; [done|]. unfold t. c_text.
Qed.

(** A request that reads: the rest sees what it left in the union. *)
Lemma st_read_at {A B} s n b o w c r what (d : W -> option A * W) (f : A -> list Z)
    (k : prog (status W) B) (k' : A -> prog (console W) B) :
  st_shows n (Status n b o w) c -> c_text what -> c_text n ->
  if_ioctl s r n b w = match d w with (Some a, w) => (0, f a, w) | (None, w) => (-1, b, w) end ->
  (forall a w', d w = (Some a, w') ->
    st_agree n (k (Status n (f a) o w')) (k' a (Console (c_out c) (c_err c) w'))) ->
  st_agree n ((ioctl_or_report s r what ;; k) (Status n b o w))
             ((a <- must_get (c_report what n) d ;; k' a) c).
Proof.
  intros (Hn & Hl & Hlog & Hnul & Hw) Hwhat Hname Hd Hk. cbn in Hl, Hlog, Hw. subst w.
  unfold ioctl_or_report, must_get, bind, st_ioctl, c_sys. cbn [st_name st_ifru st_world st_msg].
  rewrite Hd. destruct (d (c_world c)) as [[a|] w1]; rewrite !bind_Ok; cbn [Z.ltb Z.compare].
  - by apply Hk.
  - destruct (report_exits what n (Status n b o w1) (Console (c_out c) (c_err c) w1))
      as (s' & c' & E & E' & Hs); [done..|].
    rewrite E, E', !bind_Ok. by eexists (Exit _ _), (Exit _ _).
Qed.

Lemma c_print_app {A} t1 t2 (k : prog (console W) A) c :
  (c_print (t1 +:+ t2) ;; k) c = (c_print t1 ;; c_print t2 ;; k) c.
Proof. unfold bind, c_print. by rewrite !bind_Ok; cbn [c_out c_err c_world]; rewrite str_app_assoc. Qed.

Lemma st_shows_ret n s c (v : Z) : st_shows n s c -> st_agree n (ret v s) (ret v c).
Proof. intros H. by exists (Next v s), (Next v c). Qed.

Lemma spec_display_agrees s n b o w c :
  st_shows n (Status n b o w) c -> c_text n ->
  st_agree n (display s (Status n b o w)) (spec_display s n c).
Proof.
  intros H Hname. pose proof H as (_ & Hl & Hlog & Hnul & Hw). cbn in Hl, Hlog, Hw. subst w.
  apply st_read_at with (f := sockaddr_in); [done|c_text|done|by apply law_get_addr|].
  intros [[[a1 a2] a3] a4] w1 Ha%dev_addr_bytes.
  apply st_read_at with (f := sockaddr_in); [|c_text|done|by apply law_get_netmask, sockaddr_length|].
  { by split_and!. }
  intros [[[m1 m2] m3] m4] w2 Hm%dev_netmask_bytes. cbn [c_out c_err].
  apply st_read_at with (f := fun fl => store_le 0 2 fl (sockaddr_in (m1, m2, m3, m4)));
    [|c_text|done|by apply law_get_flags, sockaddr_length|].
  { by split_and!. }
  intros fl w3 _. cbn [c_out c_err]. rewrite bind_st_get. unfold st_flags, st_sin_addr. cbn [st_ifru].
  rewrite !load_sockaddr, !dotted_le by done.
  rewrite load_store_same by (rewrite sockaddr_length; unfold sizeof_ifru; lia).
  change (256 ^ Z.of_nat 2) with (2 ^ 16). rewrite s16_u16.
  unfold sprintf. rewrite !(proj2 (Z.ltb_lt _ 20)) by by apply dotted_fits.
  set (t1 := n +:+ ": ip " +:+ dotted_bytes (a1, a2, a3, a4) +:+ " mask "
             +:+ dotted_bytes (m1, m2, m3, m4) +:+ " flags [").
  set (t2 := flag_words (u32 (s16 fl)) +:+ "]" +:+ str_lf).
  match goal with |- st_agree _ _ ((c_print ?t ;; _) _) => assert (t = t1 +:+ t2) as -> end.
  { unfold t1, t2. by rewrite !str_app_assoc. }
  rewrite c_print_app.
  match goal with |- st_agree _ (_ ?st) _ =>
    change (st_agree n ((st_print t1 ;; st_print t2 ;; ret 0) st)
      ((c_print t1 ;; c_print t2 ;; ret 0) (Console (c_out c) (c_err c) w3))) end.
  apply (print_at n); [|unfold t1; c_text|].
  { by split_and!. }
  intros s1 c1 H1. apply (print_at n); [done|unfold t2; c_text|]. intros s2 c2 H2. by apply st_shows_ret.
Qed.

Lemma first_args_one s : first_args s = [] \/ exists w, first_args s = [w].
Proof. unfold first_args. destruct (first_arg false false s) as [|c w]; [by left|right; by eexists]. Qed.

(** Clearing the request. *)
Lemma clear_at {A} n name s c (k : prog (status W) A) (k' : prog (console W) A) :
  st_shows n s c ->
  (forall s, st_shows name s c -> st_agree name (k s) (k' c)) ->
  st_agree name (((fun s => Ok (Next () (Status name (replicate sizeof_ifru 0) (st_msg s) (st_world s)))) ;; k) s)
                (k' c).
Proof.
  intros (_ & _ & Hlog & Hnul & Hw) Hk. unfold bind. rewrite bind_Ok. apply Hk. by split_and!.
Qed.

Lemma st_agree_socket n s c :
  st_shows n s c -> st_agree n (st_socket s) (c_sys (if_socket AF_INET SOCK_DGRAM 0) c).
Proof.
  intros (Hn & Hl & Hlog & Hnul & Hw). unfold st_socket, c_sys. rewrite Hw.
  destruct (if_socket AF_INET SOCK_DGRAM 0 (c_world c)) as [v w].
  eexists (Next v _), (Next v _). do 2 (split; [reflexivity|]). split; [done|]. by split_and!.
Qed.

(** The state the program starts in. *)
Lemma main_ifconfig_agrees args_in s c :
  st_shows "" s c -> c_text args_in ->
  exists n, st_agree n (main_ifconfig "ifconfig" (first_args args_in) s)
                       (spec_ifconfig (first_args args_in) c).
Proof.
  intros H Hargs. pose proof (text_first_args args_in Hargs) as Hw.
  destruct (first_args_one args_in) as [->|[x Hx]].
  - exists "". apply (print_at ""); [done|c_text|]. intros s1 c1 H1.
    apply (print_at ""); [done|c_text|]. intros s2 c2 H2. by apply st_shows_ret.
  - rewrite Hx, Forall_singleton in Hw. rewrite Hx.
    exists (str_take (IFNAMSIZ - 1) x). set (n := str_take (IFNAMSIZ - 1) x).
    assert (c_text n) as Hname by (unfold n; c_text).
    apply (print_at ""); [done|c_text|]. intros s1 c1 H1. fold n.
    apply (clear_at ""); [done|]. intros s2 H2.
    apply st_agree_bind; [by apply st_agree_socket|]. intros v s3 c3 H3.
    destruct (v <? 0).
    + apply (print_at n); [done|c_text|]. intros s4 c4 H4. by apply st_shows_ret.
    + destruct s3 as [n3 b3 o3 w3]. pose proof H3 as (Hn3 & _). cbn in Hn3. subst n3.
      by apply spec_display_agrees.
Qed.

(** C16.  The library's [ifstatus] only shows: whatever arguments Java gives, it
    uses the first word at most, asks the system for what it displays and sets
    nothing, and returns what it prints, cut to the 8190 characters that its
    buffer holds, without leaving the buffer, the arguments or any other array. *)
Theorem ifstatus_only_shows args_in m w :
  Z.of_nat (length m) = MSG_SIZE -> c_text args_in ->
  exists v c, ifstatus args_in m w = Ok (str_take capacity (c_out c), c_world c) /\
    (spec_ifstatus args_in (Console "" "" w) = Ok (Next v c) \/
     spec_ifstatus args_in (Console "" "" w) = Ok (Exit v c)).
Proof.
  intros Hm Hargs. unfold ifstatus. destruct (logs_start m Hm) as (m' & -> & H0). rewrite bind_Ok.
  set (t0 := "args_in=[" +:+ args_in +:+ "]" +:+ str_lf).
  destruct (printfit_logs "" t0 _ H0) as (o1 & -> & H1). rewrite bind_Ok.
  destruct (getargs_logs "ifconfig" args_in _ o1 H1 Hargs) as (o2 & -> & H2). rewrite bind_Ok.
  cbn [drop]. rewrite drop_0. unfold spec_ifstatus. set (argv := "ifconfig" :: first_args args_in) in *.
  set (t1 := args_report 0 (Z.of_nat (length argv)) argv) in *.
  assert (c_text (t0 +:+ t1)) as Hnul.
  { apply text_app; [unfold t0; c_text|]. apply text_report. constructor; [c_text|].
    by apply text_first_args. }
  destruct (main_ifconfig_agrees args_in (Status "" (replicate sizeof_ifru 0) o2 w)
    (Console (t0 +:+ t1) "" w)) as (n & o & o' & E & E' & Ho); [by split_and!|done|].
  rewrite E, bind_Ok. unfold bind, c_print. cbn [c_out c_err c_world]. rewrite bind_Ok.
  replace ("" +:+ "args_in=[" +:+ args_in +:+ "]" +:+ str_lf +:+ t1) with (t0 +:+ t1)
    by (unfold t0; by rewrite !str_app_assoc).
  rewrite E'. destruct o as [v s|v s], o' as [v' c|v' c]; try done;
    destruct Ho as (-> & _ & _ & Hlog & Hc & Hw); exists v', c; rewrite (logs_cstr _ _ Hlog Hc), bind_Ok, Hw;
    (split; [done|]); [by left|by right].
Qed.
End ifstatus.

(** Only the device is found in a whole command line, and it is displayed. *)
Lemma ifstatus_only_shows_witness :
  (first_args "eth0 10.0.0.1 up" = ["eth0"] /\ first_args "" = [] /\ first_args " eth0" = []) /\
  exists v c,
    ifstatus (sys := Lab.card_system) (errno := fun _ => 19) (abi := Lab.linux)
      "eth0 10.0.0.1 up" (replicate (Z.to_nat 8192) NUL) Lab.idle
      = Ok (str_take capacity (c_out c), c_world c) /\
    (spec_ifstatus (sys := Lab.card_system) (errno := fun _ => 19) (abi := Lab.linux) (devs := Lab.card_devices)
       "eth0 10.0.0.1 up" (Console "" "" Lab.idle) = Ok (Next v c) \/
     spec_ifstatus (sys := Lab.card_system) (errno := fun _ => 19) (abi := Lab.linux) (devs := Lab.card_devices)
       "eth0 10.0.0.1 up" (Console "" "" Lab.idle) = Ok (Exit v c)).
Proof.
  split; [repeat split; vm_compute; reflexivity|].
  apply (ifstatus_only_shows (errno := fun _ => 19) (laws := Lab.card_laws)).
  - rewrite length_replicate. reflexivity.
  - repeat (constructor; [discriminate|]). constructor.
Defined.
