(* ===== verification/Edify.v ===== *)
(** * The script language: expressions and built-in functions

    [jni/adhoc-edify/edify/expr.c] and [expr.h].  A script is one expression
    tree; every function receives its arguments unevaluated and decides which
    of them to evaluate.  A function pointer is a symbol of a type [F]; the
    class [Functions] gives the code each symbol points to, so that the built-in
    functions of this file and the installed ones of [EdifyInstall] are two
    instances that the program joins.  The result of an evaluation is a C string
    or NULL ([option string]); strings are values, so [free] leaves no trace. *)

From stdpp Require Import base list strings sorting.
From Stdlib Require Import ZArith Lia ZifyBool ZifyNat Ascii.
From S2P Require Import Prelude CString.

Open Scope Z_scope.

(** ** The evaluation state and its monad *)

(** [State]; the cookie's type is the application's.  [world] is everything
    outside the process. *)
Record State (C W : Type) := mkState {
  cookie : option C;
  script : string;
  errmsg : option string;
  world : W
}.
Arguments mkState {C W}.
Arguments cookie {C W}.
Arguments script {C W}.
Arguments errmsg {C W}.
Arguments world {C W}.

Definition set_errmsg {C W} (m : option string) (st : State C W) : State C W :=
  mkState (cookie st) (script st) m (world st).
Definition set_world {C W} (w : W) (st : State C W) : State C W :=
  mkState (cookie st) (script st) (errmsg st) w.

Definition M (C W A : Type) : Type := State C W -> res (A * State C W).

#[export] Instance M_ret {C W} : MRet (M C W) := fun A a st => Ok (a, st).
#[export] Instance M_bind {C W} : MBind (M C W) := fun A B f m st =>
  match m st with
  | Ok (a, st') => f a st'
  | Err e => Err e
  | Diverges => Diverges
  end.

(** A [char*] result. *)
Abbreviation value := (option string).

Definition lift {C W A} (r : res A) : M C W A := fun st => a ← r; Ok (a, st).
Definition get_state {C W} : M C W (State C W) := fun st => Ok (st, st).
Definition put_errmsg {C W} (m : string) : M C W unit :=
  fun st => Ok (tt, set_errmsg (Some m) st).
Definition get_world {C W A} (f : W -> A) : M C W A := fun st => Ok (f (world st), st).
Definition on_world {C W A} (f : W -> A * W) : M C W A :=
  fun st => let '(a, w) := f (world st) in Ok (a, set_world w st).

(** An unevaluated argument: the run of the expression and its source range. *)
Record Arg (C W : Type) := mkArg {
  eval : M C W value;
  arg_start : Z;
  arg_end : Z
}.
Arguments mkArg {C W}.
Arguments eval {C W}.
Arguments arg_start {C W}.
Arguments arg_end {C W}.

(** [struct Expr]; [argc] is the length of [argv]. *)
Inductive Expr (F : Type) :=
  mkExpr (fn : F) (name : string) (argv : list (Expr F)) (start stop : Z).
Arguments mkExpr {F}.

Definition fn {F} (e : Expr F) : F := let 'mkExpr f _ _ _ _ := e in f.
Definition argv {F} (e : Expr F) : list (Expr F) := let 'mkExpr _ _ a _ _ := e in a.
Definition start {F} (e : Expr F) : Z := let 'mkExpr _ _ _ s _ := e in s.
Definition stop {F} (e : Expr F) : Z := let 'mkExpr _ _ _ _ t := e in t.

(** [Function]: the code a function pointer points to. *)
Class Functions (C W F : Type) :=
  call : F -> string -> list (Arg C W) -> M C W value.

Fixpoint Evaluate {C W F} `{!Functions C W F} (e : Expr F) : M C W value :=
  match e with
  | mkExpr fn name argv _ _ =>
      call fn name (map (fun a => mkArg (Evaluate a) (start a) (stop a)) argv)
  end.

(** ** The built-in functions *)

(** What the built-ins do to the outside world: [sleep] and the streams. *)
Inductive stream : Set := Stdout | Stderr | CmdPipe | LogFd.

Class ScriptOs (W : Type) := {
  os_sleep : Z -> W -> W;
  os_fputs : stream -> string -> W -> W
}.

Inductive Builtin : Set :=
  | Fn_Literal | Fn_Concat | Fn_IfElse | Fn_Abort | Fn_Assert | Fn_Sleep | Fn_Stdout
  | Fn_LogicalAnd | Fn_LogicalOr | Fn_LogicalNot | Fn_Substring | Fn_Equality
  | Fn_Inequality | Fn_Sequence | Fn_LessThanInt | Fn_GreaterThanInt.

Section builtins.
Context {C W : Type} `{!ScriptOs W}.
Local Abbreviation M := (M C W).
Local Abbreviation Arg := (Arg C W).

Definition fputs (f : stream) (s : string) : M unit :=
  on_world (fun w => (tt, os_fputs f s w)).

(** [argv[i]]: the array of a call without arguments is NULL. *)
Definition arg (argv : list Arg) (i : nat) : M Arg :=
  match argv with
  | [] => lift (Err NullDeref)
  | _ => match argv !! i with
         | Some a => mret a
         | None => lift (Err OutOfBounds)
         end
  end.

(** [Evaluate(state, argv[i])]. *)
Definition eval_arg (argv : list Arg) (i : nat) : M value :=
  a ← arg argv i; eval a.

Definition BooleanString (s : string) : bool :=
  match s with EmptyString => false | String _ _ => true end.

(** The string a comparison returns. *)
Definition truth (b : bool) : string := if b then "t" else "".

(** The loop shared by [ReadArgs] and [ReadVarArgs]: [None] is the failure. *)
Fixpoint read_args (argv : list Arg) (i count : nat) : M (option (list string)) :=
  match count with
  | O => mret (Some [])
  | S count =>
      v ← eval_arg argv i;
      match v with
      | None => mret None
      | Some s => rest ← read_args argv (S i) count; mret (cons s <$> rest)
      end
  end.

Definition ReadArgs (argv : list Arg) (count : nat) : M (option (list string)) :=
  read_args argv 0 count.
Definition ReadVarArgs (argc : nat) (argv : list Arg) : M (option (list string)) :=
  read_args argv 0 argc.

(** The formatted message is cut to the 4,095 characters the buffer holds. *)
Definition ErrorAbort (message : string) : M value :=
  put_errmsg (str_take 4095 message);; mret None.

Definition ConcatFn (name : string) (argv : list Arg) : M value :=
  match argv with
  | [] => mret (Some "")
  | _ =>
      strings ← read_args argv 0 (length argv);
      mret (fold_right String.append "" <$> strings)
  end.

Definition IfElseFn (name : string) (argv : list Arg) : M value :=
  if negb (length argv =? 2)%nat && negb (length argv =? 3)%nat then
    put_errmsg "ifelse expects 2 or 3 arguments";; mret None
  else
    cond ← eval_arg argv 0;
    match cond with
    | None => mret None
    | Some c =>
        if BooleanString c then eval_arg argv 1
        else if (length argv =? 3)%nat then eval_arg argv 2
        else mret (Some c)
    end.

Definition AbortFn (name : string) (argv : list Arg) : M value :=
  msg ← (if (0 <? length argv)%nat then eval_arg argv 0 else mret None);
  match msg with
  | Some m => put_errmsg m
  | None => put_errmsg "called abort()"
  end;;
  mret None.

(** [memcpy] of [script[start..end)]: a negative length is a huge [size_t]. *)
Definition source_of (a : Arg) (src : string) : res string :=
  let len := arg_end a - arg_start a in
  if (len <? 0) || (arg_start a <? 0) || (strlen src + 1 <? arg_end a) then Err OutOfBounds
  else Ok (str_take (Z.to_nat len) (str_drop (Z.to_nat (arg_start a)) src)).

Fixpoint assert_loop (todo : list Arg) : M value :=
  match todo with
  | [] => mret (Some "")
  | a :: todo =>
      v ← eval a;
      match v with
      | None => mret None
      | Some v =>
          if BooleanString v then assert_loop todo
          else
            st ← get_state;
            src ← lift (source_of a (script st));
            put_errmsg ("assert failed: " +:+ src);; mret None
      end
  end.
Definition AssertFn (name : string) (argv : list Arg) : M value := assert_loop argv.

Definition SleepFn (name : string) (argv : list Arg) : M value :=
  val ← eval_arg argv 0;
  match val with
  | None => mret None
  | Some val =>
      on_world (fun w => (tt, os_sleep (strtol val).1 w));;
      mret (Some val)
  end.

Fixpoint stdout_loop (todo : list Arg) : M value :=
  match todo with
  | [] => mret (Some "")
  | a :: todo =>
      v ← eval a;
      match v with
      | None => mret None
      | Some v => fputs Stdout v;; stdout_loop todo
      end
  end.
Definition StdoutFn (name : string) (argv : list Arg) : M value := stdout_loop argv.

Definition LogicalAndFn (name : string) (argv : list Arg) : M value :=
  left ← eval_arg argv 0;
  match left with
  | None => mret None
  | Some l => if BooleanString l then eval_arg argv 1 else mret (Some l)
  end.

Definition LogicalOrFn (name : string) (argv : list Arg) : M value :=
  left ← eval_arg argv 0;
  match left with
  | None => mret None
  | Some l => if BooleanString l then mret (Some l) else eval_arg argv 1
  end.

Definition LogicalNotFn (name : string) (argv : list Arg) : M value :=
  val ← eval_arg argv 0;
  match val with
  | None => mret None
  | Some v => mret (Some (truth (negb (BooleanString v))))
  end.

(** Both arguments, left to right; NULL as soon as one of them is. *)
Definition binary (argv : list Arg) (f : string -> string -> bool) : M value :=
  left ← eval_arg argv 0;
  match left with
  | None => mret None
  | Some l =>
      right ← eval_arg argv 1;
      match right with
      | None => mret None
      | Some r => mret (Some (truth (f l r)))
      end
  end.

Definition SubstringFn (name : string) (argv : list Arg) : M value :=
  binary argv (fun needle haystack => strstr haystack needle).
Definition EqualityFn (name : string) (argv : list Arg) : M value :=
  binary argv (fun l r => bool_decide (l = r)).
Definition InequalityFn (name : string) (argv : list Arg) : M value :=
  binary argv (fun l r => negb (bool_decide (l = r))).

Definition SequenceFn (name : string) (argv : list Arg) : M value :=
  left ← eval_arg argv 0;
  match left with
  | None => mret None
  | Some _ => eval_arg argv 1
  end.

(** [strtol] with its end pointer: the whole of a non-empty string is a number. *)
Definition int_of (s : string) : option Z :=
  let '(v, rest) := strtol s in
  if BooleanString s && negb (BooleanString rest) then Some v else None.

Definition not_an_int (s : string) : string := "[" +:+ s +:+ "] is not an int" +:+ str_lf.

Definition LessThanIntFn (name : string) (argv : list Arg) : M value :=
  if negb (length argv =? 2)%nat then
    put_errmsg "less_than_int expects 2 arguments";; mret None
  else
    args ← ReadArgs argv 2;
    match args with
    | Some [l; r] =>
        match int_of l with
        | None => fputs Stderr (not_an_int l);; mret (Some "")
        | Some l_int =>
            match int_of r with
            | None => fputs Stderr (not_an_int r);; mret (Some "")
            | Some r_int => mret (Some (truth (l_int <? r_int)))
            end
        end
    | _ => mret None
    end.

Definition GreaterThanIntFn (name : string) (argv : list Arg) : M value :=
  if negb (length argv =? 2)%nat then
    put_errmsg "greater_than_int expects 2 arguments";; mret None
  else
    second ← arg argv 1;
    first ← arg argv 0;
    LessThanIntFn name [second; first].

Definition Literal (name : string) (argv : list Arg) : M value := mret (Some name).
End builtins.

#[export] Instance builtin_functions {C W} `{!ScriptOs W} : Functions C W Builtin :=
  fun f => match f with
  | Fn_Literal => Literal
  | Fn_Concat => ConcatFn
  | Fn_IfElse => IfElseFn
  | Fn_Abort => AbortFn
  | Fn_Assert => AssertFn
  | Fn_Sleep => SleepFn
  | Fn_Stdout => StdoutFn
  | Fn_LogicalAnd => LogicalAndFn
  | Fn_LogicalOr => LogicalOrFn
  | Fn_LogicalNot => LogicalNotFn
  | Fn_Substring => SubstringFn
  | Fn_Equality => EqualityFn
  | Fn_Inequality => InequalityFn
  | Fn_Sequence => SequenceFn
  | Fn_LessThanInt => LessThanIntFn
  | Fn_GreaterThanInt => GreaterThanIntFn
  end.

(** Two sets of functions side by side. *)
#[export] Instance sum_functions {C W F G} `{!Functions C W F, !Functions C W G} :
    Functions C W (F + G) :=
  fun f => match f with inl f => call f | inr g => call g end.

(** ** The function table *)

(** [fn_entries], [fn_size] and [fn_table]; an entry that [realloc] added and
    nothing has filled is [None]. *)
Record registry (F : Type) := mkRegistry {
  fn_entries : nat;
  fn_size : nat;
  fn_table : list (option (string * F))
}.
Arguments mkRegistry {F}.
Arguments fn_entries {F}.
Arguments fn_size {F}.
Arguments fn_table {F}.

Section table.
Context {F : Type}.

Definition empty_registry : registry F := mkRegistry 0 0 [].

Definition RegisterFunction (name : string) (f : F) (r : registry F) : res (registry F) :=
  let r := if (fn_size r <=? fn_entries r)%nat then
             let size := (fn_size r * 2 + 1)%nat in
             mkRegistry (fn_entries r) size
               (fn_table r ++ replicate (size - length (fn_table r)) None)
           else r in
  if (fn_entries r <? length (fn_table r))%nat then
    Ok (mkRegistry (S (fn_entries r)) (fn_size r)
          (<[fn_entries r := Some (name, f)]> (fn_table r)))
  else Err OutOfBounds.

(** A sequence of [RegisterFunction] calls. *)
Fixpoint register_all (fns : list (string * F)) (r : registry F) : res (registry F) :=
  match fns with
  | [] => Ok r
  | (name, f) :: fns => r ← RegisterFunction name f r; register_all fns r
  end.

Definition fn_entry_compare (a b : string * F) : Z := strcmp a.1 b.1.

Definition entry_le (a b : string * F) : Prop := fn_entry_compare a b <= 0.
#[global] Instance entry_le_dec a b : Decision (entry_le a b).
Proof. unfold entry_le. apply _. Defined.

(** The entries in use: reading one that nothing has filled is undefined. *)
Fixpoint filled (table : list (option (string * F))) : res (list (string * F)) :=
  match table with
  | [] => Ok []
  | Some e :: table => cons e <$> filled table
  | None :: _ => Err UninitRead
  end.

(** [qsort] of the first [fn_entries] elements. *)
Definition FinishRegistration (r : registry F) : res (registry F) :=
  entries ← filled (take (fn_entries r) (fn_table r));
  Ok (mkRegistry (fn_entries r) (fn_size r)
        (map Some (merge_sort entry_le entries) ++ drop (fn_entries r) (fn_table r))).

(** [bsearch] by halving: [lim] elements are left, from [base] on. *)
Fixpoint bsearch_loop (fuel : nat) (name : string) (table : list (option (string * F)))
    (base lim : nat) : res (option F) :=
  match fuel with
  | O => Diverges
  | S fuel =>
      if (lim =? 0)%nat then Ok None
      else
        match table !! (base + lim / 2)%nat with
        | None => Err OutOfBounds
        | Some None => Err UninitRead
        | Some (Some (key, f)) =>
            let cmp := strcmp name key in
            if cmp =? 0 then Ok (Some f)
            else if 0 <? cmp then
              bsearch_loop fuel name table (base + lim / 2 + 1) ((lim - 1) / 2)
            else bsearch_loop fuel name table base (lim / 2)
        end
  end.

Definition FindFunction (name : string) (r : registry F) : res (option F) :=
  bsearch_loop (S (fn_entries r)) name (fn_table r) 0 (fn_entries r).
End table.

(** [RegisterBuiltins]: the calls in order. *)
Definition RegisterBuiltins : list (string * Builtin) :=
  [ ("ifelse", Fn_IfElse); ("abort", Fn_Abort); ("assert", Fn_Assert);
    ("concat", Fn_Concat); ("is_substring", Fn_Substring); ("stdout", Fn_Stdout);
    ("sleep", Fn_Sleep); ("less_than_int", Fn_LessThanInt);
    ("greater_than_int", Fn_GreaterThanInt) ]%string.

(** ** Failure and the error message

    A function either succeeds and leaves the error message alone, or returns
    NULL and leaves a message behind: [honest].  An action that cannot fail
    leaves it alone: [quiet].  Neither touches the cookie or the script. *)

Section messages.
Context {C W : Type}.
Local Abbreviation M := (M C W).

Definition same_run (st st' : State C W) : Prop :=
  cookie st' = cookie st /\ script st' = script st.

Definition quiet {A} (m : M A) : Prop :=
  forall st a st', m st = Ok (a, st') -> same_run st st' /\ errmsg st' = errmsg st.

Definition honest {A} (m : M (option A)) : Prop :=
  forall st r st', m st = Ok (r, st') ->
    same_run st st' /\
    match r with Some _ => errmsg st' = errmsg st | None => errmsg st' <> None end.

Lemma M_bind_ok {A B} (m : M A) (f : A -> M B) st r st' :
  (m ≫= f) st = Ok (r, st') <-> exists a st1, m st = Ok (a, st1) /\ f a st1 = Ok (r, st').
Proof.
  unfold mbind, M_bind. destruct (m st) as [[a st1]| |].
  - split; [by intros; exists a, st1|]. by intros (? & ? & [= -> ->] & ?).
  - split; [done|]. by intros (? & ? & ? & _).
  - split; [done|]. by intros (? & ? & ? & _).
Qed.

Lemma same_run_trans st1 st2 st3 : same_run st1 st2 -> same_run st2 st3 -> same_run st1 st3.
Proof. unfold same_run. intuition congruence. Qed.

Lemma quiet_ret {A} (a : A) : quiet (mret a).
Proof. by intros st b st' [= <- <-]. Qed.
Lemma quiet_lift {A} (r : res A) : quiet (lift r).
Proof. intros st b st' H. unfold lift in H. destruct r; [|done..]. by injection H as <- <-. Qed.
Lemma quiet_get_state : quiet get_state.
Proof. by intros st b st' [= <- <-]. Qed.
Lemma quiet_get_world {A} (f : W -> A) : quiet (get_world f).
Proof. by intros st b st' [= <- <-]. Qed.
Lemma quiet_on_world {A} (f : W -> A * W) : quiet (on_world f).
Proof.
  intros st b st' H. unfold on_world in H. destruct (f (world st)). by injection H as <- <-.
Qed.
Lemma quiet_bind {A B} (m : M A) (f : A -> M B) :
  quiet m -> (forall a, quiet (f a)) -> quiet (m ≫= f).
Proof.
  intros Hm Hf st b st' (a & st1 & H1 & H2)%M_bind_ok.
  apply Hm in H1 as [? ?]. apply Hf in H2 as [? ?].
  split; [by eapply same_run_trans|congruence].
Qed.

Lemma honest_some {A} (a : A) : honest (mret (Some a)).
Proof. by intros st b st' [= <- <-]. Qed.
Lemma honest_message {A} m : honest (put_errmsg m;; mret (M := M) (@None A)).
Proof. by intros st b st' [= <- <-]. Qed.
Lemma honest_lift_err {A} e : honest (lift (C := C) (W := W) (A := option A) (Err e)).
Proof. done. Qed.
Lemma honest_quiet {A B} (m : M A) (f : A -> M (option B)) :
  quiet m -> (forall a, honest (f a)) -> honest (m ≫= f).
Proof.
  intros Hm Hf st b st' (a & st1 & H1 & H2)%M_bind_ok.
  apply Hm in H1 as [? Heq]. apply Hf in H2 as [? Hb].
  split; [by eapply same_run_trans|]. by rewrite <- Heq.
Qed.
(** NULL from the first action is the result of the whole. *)
Lemma honest_bind {A B} (m : M (option A)) (f : option A -> M (option B)) :
  honest m -> f None = mret None -> (forall a, honest (f (Some a))) -> honest (m ≫= f).
Proof.
  intros Hm Hnone Hf st b st' (a & st1 & H1 & H2)%M_bind_ok.
  apply Hm in H1 as [? Ha]. destruct a as [a|].
  - apply Hf in H2 as [? Hb]. split; [by eapply same_run_trans|]. by rewrite <- Ha.
  - rewrite Hnone in H2. by injection H2 as <- <-.
Qed.
End messages.

Create HintDb honest discriminated.
#[export] Hint Resolve quiet_ret quiet_lift quiet_get_state quiet_get_world quiet_on_world
  honest_some honest_message honest_lift_err : honest.

(** Reduces [honest] of a handler's body to [honest] of its pieces. *)
Ltac honest_step :=
  match goal with
  | |- honest (match ?x with _ => _ end) => destruct x
  | |- honest (if ?b then _ else _) => destruct b
  | |- quiet (match ?x with _ => _ end) => destruct x
  | |- quiet (_ ≫= _) => apply quiet_bind; [|intros ?]
  | |- honest (put_errmsg _ ≫= fun _ => mret None) => apply honest_message
  | |- honest (?m ≫= _) =>
      first [ apply honest_quiet; [solve [eauto with honest]|intros ?]
            | apply honest_bind; [solve [eauto with honest]|reflexivity|intros ?] ]
  | |- _ => solve [eauto with honest]
  end.
Ltac honest_body := repeat honest_step.

(** Arguments that are honest, and what is then honest about reading them. *)
Section arguments.
Context {C W : Type} `{!ScriptOs W}.
Local Abbreviation M := (M C W).
Local Abbreviation Arg := (Arg C W).

Definition honest_args (argv : list Arg) : Prop := Forall (fun a => honest (eval a)) argv.

Lemma quiet_fputs f s : quiet (fputs (C := C) f s).
Proof. apply quiet_on_world. Qed.

Lemma quiet_arg (argv : list Arg) i : quiet (arg argv i).
Proof. unfold arg. destruct argv; [apply quiet_lift|]. honest_body. Qed.

Lemma arg_elem (argv : list Arg) i st a st' :
  arg argv i st = Ok (a, st') -> a ∈ argv /\ st' = st.
Proof.
  unfold arg. destruct argv as [|b argv]; [done|].
  destruct ((b :: argv) !! i) as [c|] eqn:Hi; [|done].
  intros [= <- <-]. split; [|done]. by eapply list_elem_of_lookup_2.
Qed.

Lemma honest_eval_arg (argv : list Arg) i : honest_args argv -> honest (eval_arg argv i).
Proof.
  intros Hargs st r st' (a & st1 & H1 & H2)%M_bind_ok.
  apply arg_elem in H1 as [Ha ->]. unfold honest_args in Hargs.
  rewrite Forall_forall in Hargs. by apply (Hargs a).
Qed.
Hint Resolve quiet_fputs quiet_arg honest_eval_arg : honest.

Lemma honest_read_args (argv : list Arg) i count :
  honest_args argv -> honest (read_args argv i count).
Proof.
  intros Hargs. revert i. induction count as [|count IH]; intros i; cbn [read_args]; honest_body.
Qed.

Lemma read_args_length (argv : list Arg) i count st args st' :
  read_args argv i count st = Ok (Some args, st') -> length args = count.
Proof.
  revert i st args. induction count as [|count IH]; intros i st args.
  { by intros [= <- <-]. }
  intros (v & st1 & _ & H)%M_bind_ok. destruct v as [v|]; [|done].
  apply M_bind_ok in H as ([rest|] & st2 & Hrest & [= <- <-]). cbn. f_equal. by eapply IH.
Qed.

(** As [honest_bind], when what the continuation does depends on the number of
    strings read. *)
Lemma honest_count {A B} (m : M (option (list A))) (f : option (list A) -> M (option B)) n :
  honest m -> (forall st l st', m st = Ok (Some l, st') -> length l = n) -> f None = mret None ->
  (forall l, length l = n -> honest (f (Some l))) -> honest (m ≫= f).
Proof.
  intros Hm Hn Hnone Hf st b st' (a & st1 & H1 & H2)%M_bind_ok.
  pose proof (Hm _ _ _ H1) as [? Ha]. destruct a as [a|].
  - pose proof (Hn _ _ _ H1) as Hl. apply Hf in H2 as [? Hb]; [|done].
    split; [by eapply same_run_trans|]. by rewrite <- Ha.
  - rewrite Hnone in H2. by injection H2 as <- <-.
Qed.

Lemma honest_all_args {B} (f : list string -> B) (argv : list Arg) i count :
  honest_args argv -> honest (strings ← read_args argv i count; mret (M := M) (f <$> strings)).
Proof.
  intros Hargs. apply honest_bind; [by apply honest_read_args|done|]. intros a. apply honest_some.
Qed.
End arguments.
#[export] Hint Resolve quiet_fputs quiet_arg honest_eval_arg honest_read_args honest_all_args : honest.

(** The law of a set of functions: honest on honest arguments. *)
Class HonestFunctions (C W F : Type) `{!Functions C W F} : Prop :=
  honest_call (f : F) name (argv : list (Arg C W)) : honest_args argv -> honest (call f name argv).

Section expr_ind.
Context {F : Type} (P : Expr F -> Prop).
Hypothesis (Hstep : forall fn name argv s t, Forall P argv -> P (mkExpr fn name argv s t)).

Fixpoint expr_nested_ind (e : Expr F) : P e :=
  match e with
  | mkExpr fn name argv s t =>
      Hstep fn name argv s t
        ((fix go (l : list (Expr F)) : Forall P l :=
            match l with
            | [] => Forall_nil_2 P
            | a :: l => Forall_cons_2 P a l (expr_nested_ind a) (go l)
            end) argv)
  end.
End expr_ind.

Lemma Evaluate_honest {C W F} `{!Functions C W F, !HonestFunctions C W F} (e : Expr F) :
  honest (Evaluate (C := C) (W := W) e).
Proof.
  induction e as [f name argv s t IH] using expr_nested_ind. cbn [Evaluate].
  apply honest_call. unfold honest_args. rewrite Forall_map. by eapply Forall_impl.
Qed.

#[export] Instance sum_honest {C W F G} `{!Functions C W F, !Functions C W G}
    `{!HonestFunctions C W F, !HonestFunctions C W G} : HonestFunctions C W (F + G).
Proof.
  intros [f|g] name argv H;
    [by apply (honest_call (F := F) f name)|by apply (honest_call (F := G) g name)].
Qed.

Section honest_builtins.
Context {C W : Type} `{!ScriptOs W}.
Local Abbreviation Arg := (Arg C W).

Lemma honest_assert_loop (todo : list Arg) : honest_args todo -> honest (assert_loop todo).
Proof. induction 1 as [|a todo Ha _ IH]; cbn [assert_loop]; honest_body. Qed.

Lemma honest_stdout_loop (todo : list Arg) : honest_args todo -> honest (stdout_loop todo).
Proof. induction 1 as [|a todo Ha _ IH]; cbn [stdout_loop]; honest_body. Qed.

(** [abort] sets a message whether or not its argument evaluates. *)
Lemma honest_abort name (argv : list Arg) : honest_args argv -> honest (AbortFn name argv).
Proof.
  intros Hargs st r st' (msg & st1 & H1 & H2)%M_bind_ok.
  assert (same_run st st1) as Hrun.
  { destruct (0 <? length argv)%nat; [by apply honest_eval_arg in H1 as [? _]|].
    by apply quiet_ret in H1 as [? _]. }
  destruct msg as [m|]; injection H2 as <- <-; by split.
Qed.

Lemma honest_less name (argv : list Arg) : honest_args argv -> honest (LessThanIntFn name argv).
Proof.
  intros Hargs. unfold LessThanIntFn, ReadArgs. destruct (negb _); [apply honest_message|].
  apply honest_count with (n := 2%nat);
    [by apply honest_read_args|by intros; eapply read_args_length|done|].
  intros [|l [|r []]] Hlen; try done. honest_body.
Qed.

Lemma honest_greater name (argv : list Arg) :
  honest_args argv -> honest (GreaterThanIntFn name argv).
Proof.
  intros Hargs. unfold GreaterThanIntFn. destruct (negb _); [apply honest_message|].
  intros st r st' (second & st1 & H1 & (first & st2 & H2 & H3)%M_bind_ok)%M_bind_ok.
  apply arg_elem in H1 as [Hs ->]. apply arg_elem in H2 as [Hf ->].
  revert H3. apply honest_less. unfold honest_args in *. rewrite Forall_forall in Hargs.
  by repeat apply Forall_cons_2; [apply Hargs..|].
Qed.

#[global] Instance builtin_honest : HonestFunctions C W Builtin.
Proof.
  intros f name argv Hargs; destruct f; cbn;
    [ .. | by apply (honest_less name) | by apply (honest_greater name) ];
    first [ by apply (honest_abort name) | by apply honest_assert_loop | by apply honest_stdout_loop | idtac ].
  all: unfold Literal, ConcatFn, IfElseFn, SleepFn, LogicalAndFn, LogicalOrFn, LogicalNotFn,
    SubstringFn, EqualityFn, InequalityFn, SequenceFn, binary; honest_body.
Qed.
End honest_builtins.

(** ** Evaluation is defined

    The handlers of operators index [argv] without looking at [argc], and
    [assert] copies the source range of a failed argument: on an expression with
    enough arguments and ranges inside the script, no access is out of bounds
    and the evaluation returns. *)

Definition arity_ok (f : Builtin) (argc : nat) : bool :=
  match f with
  | Fn_Sleep | Fn_LogicalNot => (1 <=? argc)%nat
  | Fn_LogicalAnd | Fn_LogicalOr | Fn_Substring | Fn_Equality | Fn_Inequality | Fn_Sequence =>
      (2 <=? argc)%nat
  | _ => true
  end.

Fixpoint well_formed (len : Z) (e : Expr Builtin) : bool :=
  match e with
  | mkExpr f _ argv s t =>
      arity_ok f (length argv) && (0 <=? s) && (s <=? t) && (t <=? len) &&
      forallb (well_formed len) argv
  end.

Section defined.
Context {C W : Type} `{!ScriptOs W} (len : Z).
Local Abbreviation M := (M C W).
Local Abbreviation Arg := (Arg C W).

Definition defined {A} (m : M A) : Prop :=
  forall st, strlen (script st) = len ->
    exists a st', m st = Ok (a, st') /\ strlen (script st') = len.

Definition arg_ok (a : Arg) : Prop :=
  defined (eval a) /\ 0 <= arg_start a <= arg_end a /\ arg_end a <= len.

Lemma defined_ret {A} (a : A) : defined (mret a).
Proof. intros st Hst. by exists a, st. Qed.
Lemma defined_put m : defined (put_errmsg m).
Proof. intros st Hst. by eexists _, _. Qed.
Lemma defined_get_state : defined get_state.
Proof. intros st Hst. by eexists _, _. Qed.
Lemma defined_on_world {A} (f : W -> A * W) : defined (on_world f).
Proof. intros st Hst. unfold on_world. destruct (f (world st)). by eexists _, _. Qed.
Lemma defined_bind {A B} (m : M A) (f : A -> M B) :
  defined m -> (forall a, defined (f a)) -> defined (m ≫= f).
Proof.
  intros Hm Hf st Hst. destruct (Hm st Hst) as (a & st1 & Heq & Hst1).
  destruct (Hf a st1 Hst1) as (b & st2 & Heq2 & Hst2). exists b, st2. split; [|done].
  apply M_bind_ok. by exists a, st1.
Qed.
(** [source_of] depends on the script only through its length. *)
Lemma defined_source {A} (a : Arg) (f : string -> M A) :
  arg_ok a -> (forall s, defined (f s)) ->
  defined (st ← get_state; src ← lift (source_of a (script st)); f src).
Proof.
  intros (_ & Hrange & Hend) Hf st Hst. unfold mbind, M_bind, get_state, lift, source_of.
  replace (_ || _) with false; [by apply Hf|]. symmetry. rewrite Hst.
  rewrite !orb_false_iff, !Z.ltb_ge. lia.
Qed.

Lemma arg_at (argv : list Arg) i :
  (i < length argv)%nat -> exists a, argv !! i = Some a /\ arg argv i = mret a.
Proof.
  intros [a Ha]%lookup_lt_is_Some_2. exists a. split; [done|].
  unfold arg. destruct argv; [done|]. by rewrite Ha.
Qed.

Lemma defined_eval_arg (argv : list Arg) i :
  Forall arg_ok argv -> (i < length argv)%nat -> defined (eval_arg argv i).
Proof.
  intros Hargs (a & Ha & Harg)%arg_at st Hst. unfold eval_arg, mbind, M_bind. rewrite Harg.
  pose proof (Forall_lookup_1 _ _ _ _ Hargs Ha) as [Hd _]. by apply Hd.
Qed.
Lemma defined_arg (argv : list Arg) i : (i < length argv)%nat -> defined (arg argv i).
Proof. intros (a & Ha & ->)%arg_at. apply defined_ret. Qed.

Lemma defined_read_args (argv : list Arg) i count :
  Forall arg_ok argv -> (i + count <= length argv)%nat -> defined (read_args argv i count).
Proof.
  intros Hargs. revert i. induction count as [|count IH]; intros i Hi; cbn [read_args].
  { apply defined_ret. }
  apply defined_bind; [apply defined_eval_arg; [done|lia]|]. intros [v|]; [|apply defined_ret].
  apply defined_bind; [apply IH; lia|]. intros ?. apply defined_ret.
Qed.

Ltac arity_lia := first [lia | cbn in *; lia].

(** Splits a handler into the evaluations it makes. *)
Ltac defined_step :=
  match goal with
  | |- defined (match ?x with _ => _ end) => destruct x eqn:?
  | |- defined (if ?b then _ else _) => destruct b eqn:?
  | |- defined (fputs _ _) => apply defined_on_world
  | |- defined (on_world _) => apply defined_on_world
  | |- defined (put_errmsg _) => apply defined_put
  | |- defined (mret _) => apply defined_ret
  | |- defined (eval_arg _ _) => apply defined_eval_arg; [assumption|arity_lia]
  | |- defined (arg _ _) => apply defined_arg; arity_lia
  | |- defined (read_args _ _ _) => apply defined_read_args; [assumption|arity_lia]
  | |- defined (_ ≫= _) => apply defined_bind; [|intros ?]
  end.

Lemma defined_assert_loop (todo : list Arg) : Forall arg_ok todo -> defined (assert_loop todo).
Proof.
  induction 1 as [|a todo Ha _ IH]; cbn [assert_loop]; [apply defined_ret|].
  apply defined_bind; [apply Ha|]. intros [v|]; [|apply defined_ret].
  destruct (BooleanString v); [done|]. apply defined_source; [done|]. intros src.
  repeat defined_step.
Qed.

Lemma defined_stdout_loop (todo : list Arg) : Forall arg_ok todo -> defined (stdout_loop todo).
Proof.
  induction 1 as [|a todo Ha _ IH]; cbn [stdout_loop]; [apply defined_ret|].
  apply defined_bind; [apply Ha|]. intros [v|]; repeat defined_step. done.
Qed.

Lemma defined_less name (argv : list Arg) : Forall arg_ok argv -> defined (LessThanIntFn name argv).
Proof. intros Hargs. unfold LessThanIntFn, ReadArgs. repeat defined_step. Qed.

Lemma defined_greater name (argv : list Arg) :
  Forall arg_ok argv -> defined (GreaterThanIntFn name argv).
Proof.
  intros Hargs. unfold GreaterThanIntFn. destruct argv as [|a [|b [|c argv]]]; cbn [length negb Nat.eqb];
    try by repeat defined_step.
  rewrite !Forall_cons in Hargs. destruct Hargs as (Ha & Hb & _).
  intros st Hst. apply (defined_less name [b; a]); [|done]; by repeat (apply Forall_cons; split).
Qed.

Lemma defined_call f name (argv : list Arg) :
  arity_ok f (length argv) = true -> Forall arg_ok argv -> defined (call (F := Builtin) f name argv).
Proof.
  intros Har Hargs; destruct f; cbn [arity_ok] in Har; cbn [call builtin_functions];
    first [ by apply (defined_greater name) | by apply (defined_less name)
          | by apply defined_assert_loop | by apply defined_stdout_loop
          | unfold Literal, ConcatFn, IfElseFn, AbortFn, SleepFn, LogicalAndFn, LogicalOrFn,
              LogicalNotFn, SubstringFn, EqualityFn, InequalityFn, SequenceFn, binary ].
  all: repeat defined_step.
Qed.

Lemma Evaluate_defined_len (e : Expr Builtin) :
  well_formed len e = true -> defined (Evaluate (C := C) (W := W) e).
Proof.
  induction e as [f name argv s t IH] using expr_nested_ind. cbn [well_formed Evaluate].
  rewrite !andb_true_iff, forallb_forall. intros ((((Har & _) & _) & _) & Hwf).
  apply defined_call; [by rewrite length_map|].
  rewrite Forall_map, Forall_forall. intros a Ha. apply list_elem_of_In in Ha as Hin.
  specialize (Hwf a Hin). rewrite Forall_forall in IH. specialize (IH a Ha Hwf).
  destruct a as [f' name' argv' s' t']. cbn in Hwf. rewrite !andb_true_iff, !Z.leb_le in Hwf.
  split; [done|]. cbn. lia.
Qed.
End defined.

(** ** The function table finds what was registered *)

Fixpoint assoc {A} (name : string) (l : list (string * A)) : option A :=
  match l with
  | [] => None
  | (key, a) :: l => if decide (key = name) then Some a else assoc name l
  end.

Lemma assoc_elem {A} (l : list (string * A)) name a :
  NoDup l.*1 -> (name, a) ∈ l -> assoc name l = Some a.
Proof.
  induction l as [|[key b] l IH]; [by intros _ ?%not_elem_of_nil|].
  rewrite fmap_cons, NoDup_cons, elem_of_cons. intros [Hkey Hdup] [[= -> ->]|Hl]; cbn [assoc].
  - by rewrite decide_True.
  - rewrite decide_False; [by apply IH|]. intros ->. apply Hkey.
    by apply (list_elem_of_fmap_2 fst _ (name, a)).
Qed.

Lemma assoc_not_elem {A} (l : list (string * A)) name : name ∉ l.*1 -> assoc name l = None.
Proof.
  induction l as [|[key b] l IH]; [done|]. rewrite fmap_cons, not_elem_of_cons. cbn.
  intros [? ?]. rewrite decide_False by done. by apply IH.
Qed.

Section table_facts.
Context {F : Type}.

#[local] Instance entry_le_trans : Transitive (entry_le (F := F)).
Proof. intros a b c. unfold entry_le, fn_entry_compare. rewrite !strcmp_le. by etrans. Qed.
#[local] Instance entry_le_total : Total (entry_le (F := F)).
Proof.
  intros a b. unfold entry_le, fn_entry_compare. destruct (decide (strcmp a.1 b.1 <= 0)); [by left|].
  right. rewrite strcmp_antisym. lia.
Qed.

(** The loop finds the entry when it is in the window and in order. *)
Lemma bsearch_loop_spec (entries : list (string * F)) rest name fuel base lim :
  StronglySorted entry_le entries -> NoDup entries.*1 ->
  (base + lim <= length entries)%nat -> (lim < fuel)%nat ->
  (forall i e, entries !! i = Some e -> e.1 = name -> (base <= i < base + lim)%nat) ->
  bsearch_loop fuel name (map Some entries ++ rest) base lim = Ok (assoc name entries).
Proof.
  intros Hsorted Hdup. revert base lim. induction fuel as [|fuel IH]; [lia|].
  intros base lim Hlen Hfuel Hwin. cbn [bsearch_loop]. destruct (Nat.eqb_spec lim 0) as [->|Hlim].
  { rewrite assoc_not_elem; [done|]. intros (e & Hname & [i Hi]%list_elem_of_lookup_1)%list_elem_of_fmap_1.
    specialize (Hwin _ _ Hi (eq_sym Hname)). lia. }
  pose proof (Nat.Div0.div_le_upper_bound lim 2 lim) as Hhalf.
  pose proof (Nat.div_lt lim 2 ltac:(lia) ltac:(lia)) as Hlt.
  destruct (lookup_lt_is_Some_2 entries (base + lim / 2)%nat) as [[key f] Hmid]; [lia|].
  rewrite lookup_app_l, list_lookup_fmap, Hmid by (rewrite length_map; lia).
  cbn [fmap option_fmap option_map].
  destruct (Z.eqb_spec (strcmp name key) 0) as [->%strcmp_eq|Hne].
  { erewrite assoc_elem; [done..|]. by eapply list_elem_of_lookup_2. }
  (* an entry of that name is on the side the comparison points to *)
  assert (forall i e, entries !! i = Some e -> e.1 = name ->
            (i < base + lim / 2)%nat /\ strcmp name key <= 0 \/
            (base + lim / 2 < i)%nat /\ 0 <= strcmp name key) as Hside.
  { intros i [n g] Hi Hn. cbn in Hn. subst n.
    destruct (Nat.lt_trichotomy i (base + lim / 2)) as [Hi'|[->|Hi']].
    - left. split; [done|]. exact (StronglySorted_lookup _ _ _ _ _ _ Hsorted Hi Hmid Hi').
    - rewrite Hi in Hmid. injection Hmid as -> ->. by rewrite (proj2 (strcmp_eq key key)) in Hne.
    - right. split; [done|]. rewrite strcmp_antisym.
      pose proof (StronglySorted_lookup _ _ _ _ _ _ Hsorted Hmid Hi Hi') as Hle.
      unfold entry_le, fn_entry_compare in Hle. cbn in Hle. lia. }
  pose proof (Nat.Div0.div_lt_upper_bound (lim - 1) 2 lim ltac:(lia)).
  pose proof (Nat.div_mod lim 2 ltac:(lia)). pose proof (Nat.mod_upper_bound lim 2 ltac:(lia)).
  pose proof (Nat.div_mod (lim - 1) 2 ltac:(lia)).
  pose proof (Nat.mod_upper_bound (lim - 1) 2 ltac:(lia)).
  destruct (Z.ltb_spec 0 (strcmp name key)); apply IH; try lia;
    intros i e Hi He; specialize (Hwin i e Hi He); destruct (Hside i e Hi He); lia.
Qed.

Lemma filled_map (entries : list (string * F)) : filled (map Some entries) = Ok entries.
Proof. induction entries as [|e entries IH]; [done|]. cbn. by rewrite IH. Qed.

(** A table in use: its entries, then room. *)
Definition holds (r : registry F) (entries : list (string * F)) : Prop :=
  fn_entries r = length entries /\ fn_size r = length (fn_table r) /\
  exists room, fn_table r = map Some entries ++ replicate room None.

Lemma RegisterFunction_holds r entries name (f : F) :
  holds r entries ->
  exists r', RegisterFunction name f r = Ok r' /\ holds r' (entries ++ [(name, f)]).
Proof.
  destruct r as [n size table]. intros (Hn & Hsize & room & Htab). cbn in Hn, Hsize, Htab. subst n size table.
  unfold RegisterFunction. cbn [fn_entries fn_size fn_table].
  set (table := map Some entries ++ replicate room None).
  assert (length table = length entries + room)%nat as Hlen
    by (unfold table; rewrite length_app, length_map, length_replicate; done).
  set (r := if (length table <=? length entries)%nat then _ else _).
  assert (exists room', fn_entries r = length entries /\ fn_size r = length (fn_table r) /\
            fn_table r = map Some entries ++ replicate (S room') None) as (room' & Hn & Hs & Ht).
  { unfold r. destruct (Nat.leb_spec (length table) (length entries)).
    - exists (length entries)%nat. cbn [fn_entries fn_size fn_table].
      assert (room = 0)%nat as -> by lia. split; [done|]. rewrite length_app, length_replicate.
      split; [lia|]. unfold table at 1. cbn [replicate]. rewrite app_nil_r. f_equal.
      change (None :: replicate (length entries) (@None (string * F)))
        with (replicate (S (length entries)) (@None (string * F))). f_equal. lia.
    - exists (room - 1)%nat. cbn [fn_entries fn_size fn_table]. split; [done|]. split; [done|].
      unfold table. do 2 f_equal. lia. }
  clearbody r. clear table Hlen.
  rewrite Hn, Ht, length_app, length_map, length_replicate.
  rewrite (proj2 (Nat.ltb_lt _ _)) by lia. eexists. split; [done|].
  unfold holds. cbn [fn_entries fn_size fn_table]. rewrite !length_insert, length_app. cbn.
  split; [lia|]. split; [by rewrite Hs, Ht|]. exists room'.
  rewrite map_app, <- app_assoc. rewrite insert_app_r_alt by (rewrite length_map; lia).
  rewrite length_map, Nat.sub_diag. done.
Qed.

Lemma register_all_holds (fns entries : list (string * F)) r :
  holds r entries -> exists r', register_all fns r = Ok r' /\ holds r' (entries ++ fns).
Proof.
  revert r entries. induction fns as [|[name f] fns IH]; intros r entries Hr.
  { exists r. by rewrite app_nil_r. }
  destruct (RegisterFunction_holds r entries name f Hr) as (r1 & Heq & Hr1).
  destruct (IH _ _ Hr1) as (r2 & Heq2 & Hr2). exists r2. cbn [register_all]. rewrite Heq.
  split; [done|]. by rewrite <- app_assoc in Hr2.
Qed.

Lemma assoc_Permutation (l l' : list (string * F)) name :
  l ≡ₚ l' -> NoDup l.*1 -> assoc name l = assoc name l'.
Proof.
  intros Hp Hdup. assert (NoDup l'.*1) as Hdup' by by rewrite <- Hp.
  destruct (decide (name ∈ l.*1)) as [((n, f) & -> & Hin)%list_elem_of_fmap_1|Hin].
  - cbn. rewrite (assoc_elem l n f) by done. symmetry. apply assoc_elem; [done|]. by rewrite <- Hp.
  - rewrite !assoc_not_elem; [done|by rewrite <- Hp|done].
Qed.

Lemma FindFunction_registered (fns : list (string * F)) r r' name :
  NoDup fns.*1 -> register_all fns empty_registry = Ok r -> FinishRegistration r = Ok r' ->
  FindFunction name r' = Ok (assoc name fns).
Proof.
  intros Hdup Hreg Hfin. destruct (register_all_holds fns [] empty_registry) as (r0 & Hr & Hn & Hs & room & Ht).
  { split; [done|]. split; [done|]. by exists 0%nat. }
  rewrite Hreg in Hr. injection Hr as <-. revert Hfin. unfold FinishRegistration. cbn in Hn, Ht.
  rewrite Hn, Ht, <- (length_map Some fns), take_app_length, drop_app_length, filled_map.
  cbn [mbind res_bind]. intros [= <-]. unfold FindFunction. cbn [fn_entries fn_table]. rewrite length_map.
  rewrite (assoc_Permutation fns (merge_sort entry_le fns)) by (by rewrite ?merge_sort_Permutation).
  apply bsearch_loop_spec.
  - apply StronglySorted_merge_sort; apply _.
  - by rewrite merge_sort_Permutation.
  - rewrite merge_sort_Permutation. lia.
  - lia.
  - intros i e Hi _. apply lookup_lt_Some in Hi. rewrite merge_sort_Permutation in Hi. lia.
Qed.

Lemma FinishRegistration_ok (fns : list (string * F)) :
  exists r r', register_all fns empty_registry = Ok r /\ FinishRegistration r = Ok r'.
Proof.
  destruct (register_all_holds fns [] empty_registry) as (r & Hr & Hn & Hs & room & Ht).
  { split; [done|]. split; [done|]. by exists 0%nat. }
  exists r. eexists. split; [done|]. unfold FinishRegistration. cbn in Hn, Ht.
  by rewrite Hn, Ht, <- (length_map Some fns), take_app_length, drop_app_length, filled_map.
Qed.

(** A table as the program leaves it before it looks functions up. *)
Definition registered (r' : registry F) : Prop :=
  exists fns r, NoDup fns.*1 /\ register_all fns empty_registry = Ok r /\ FinishRegistration r = Ok r'.

Lemma FindFunction_total name r : registered r -> exists f, FindFunction name r = Ok f.
Proof. intros (fns & r0 & H1 & H2 & H3). eexists. by eapply FindFunction_registered. Qed.

(** Functions registered under different names, in any number and order,
    are all found by [FindFunction] once the registration is finished, and no
    other name is; the registration itself never writes outside the table,
    which it grows, and never sorts an entry that was not filled. *)
Theorem FindFunction_correct (fns : list (string * F)) name :
  NoDup fns.*1 ->
  exists r r', register_all fns empty_registry = Ok r /\ FinishRegistration r = Ok r' /\
    FindFunction name r' = Ok (assoc name fns).
Proof.
  intros Hdup. destruct (FinishRegistration_ok fns) as (r & r' & Hr & Hr'). exists r, r'.
  split_and!; [done|done|]. by eapply FindFunction_registered.
Qed.
End table_facts.

(** ** Theorems *)

Section properties.
Context {C W : Type} `{!ScriptOs W}.
Local Abbreviation State := (State C W).
Local Abbreviation Expr := (Expr Builtin).

(** An operator node, as [Build] makes it. *)
Definition Build (f : Builtin) (start stop : Z) (argv : list Expr) : Expr :=
  mkExpr f "(operator)" argv start stop.

(** Evaluating a script whose nodes have enough arguments and ranges inside
    the source always returns, with no access out of bounds, and reports
    correctly: the result is NULL exactly when an error message was left.  The
    driver's report of an abort without a message is thus never made. *)
Theorem evaluation_reports (e : Expr) (st : State) :
  well_formed (strlen (script st)) e = true -> errmsg st = None ->
  exists r st', Evaluate e st = Ok (r, st') /\ (r = None <-> errmsg st' <> None).
Proof.
  intros Hwf Hmsg. destruct (Evaluate_defined_len _ e Hwf st eq_refl) as (r & st' & Heq & _).
  exists r, st'. split; [done|]. apply Evaluate_honest in Heq as [_ Hr].
  destruct r; [|done]. rewrite Hr, Hmsg. by split.
Qed.

Lemma int_of_dec z : INT32_MIN <= z <= INT32_MAX -> int_of (dec z) = Some z.
Proof.
  intros Hz. unfold int_of. rewrite <- (str_app_nil_r (dec z)), strtol_dec by done.
  rewrite str_app_nil_r. destruct (dec_nonempty z) as (c & s & ->). done.
Qed.

Lemma read_two (a b : Arg C W) x y (st st1 st2 : State) :
  eval a st = Ok (Some x, st1) -> eval b st1 = Ok (Some y, st2) ->
  read_args [a; b] 0 2 st = Ok (Some [x; y], st2).
Proof.
  intros H1 H2. cbn. unfold mbind, M_bind, eval_arg, mbind, M_bind. cbn. rewrite H1. cbn.
  by rewrite H2.
Qed.

Lemma less_than_dec (a b : Arg C W) x y name (st st1 st2 : State) :
  INT32_MIN <= x <= INT32_MAX -> INT32_MIN <= y <= INT32_MAX ->
  eval a st = Ok (Some (dec x), st1) -> eval b st1 = Ok (Some (dec y), st2) ->
  LessThanIntFn name [a; b] st = Ok (Some (truth (x <? y)), st2).
Proof.
  intros Hx Hy H1 H2. unfold LessThanIntFn, ReadArgs. cbn [length Nat.eqb negb].
  unfold mbind, M_bind. rewrite (read_two a b _ _ st st1 st2 H1 H2).
  by rewrite !int_of_dec by done.
Qed.

(** On decimal numerals of [long] values, [less_than_int] and
    [greater_than_int] compare the numbers; the second one evaluates its second
    argument first. *)
Theorem int_comparisons (a b : Expr) x y s t (st st1 st2 : State) :
  INT32_MIN <= x <= INT32_MAX -> INT32_MIN <= y <= INT32_MAX ->
  (Evaluate a st = Ok (Some (dec x), st1) -> Evaluate b st1 = Ok (Some (dec y), st2) ->
   Evaluate (mkExpr Fn_LessThanInt "less_than_int" [a; b] s t) st = Ok (Some (truth (x <? y)), st2)) /\
  (Evaluate b st = Ok (Some (dec y), st1) -> Evaluate a st1 = Ok (Some (dec x), st2) ->
   Evaluate (mkExpr Fn_GreaterThanInt "greater_than_int" [a; b] s t) st =
     Ok (Some (truth (y <? x)), st2)).
Proof.
  intros Hx Hy. split; intros H1 H2.
  - by apply less_than_dec with (st1 := st1).
  - by apply (less_than_dec (mkArg (Evaluate b) (start b) (stop b))
                (mkArg (Evaluate a) (start a) (stop a)) y x "greater_than_int" st st1 st2).
Qed.

(** How a concatenation is bracketed, and whether it is written with [+] or
    with [concat], makes no difference: same result, same effects in the same
    order, same failures. *)
Theorem concat_flattens (a b c : Expr) s1 t1 s2 t2 s3 t3 name (st : State) :
  Evaluate (Build Fn_Concat s1 t1 [Build Fn_Concat s2 t2 [a; b]; c]) st =
    Evaluate (mkExpr Fn_Concat name [a; b; c] s3 t3) st /\
  Evaluate (Build Fn_Concat s1 t1 [a; Build Fn_Concat s2 t2 [b; c]]) st =
    Evaluate (mkExpr Fn_Concat name [a; b; c] s3 t3) st.
Proof.
  unfold Build. cbn [Evaluate map].
  set (ev := fun e => Evaluate (C := C) (W := W) e).
  change (@Evaluate C W Builtin _) with ev. clearbody ev. cbn [start stop].
  unfold call, builtin_functions, ConcatFn. cbn [length read_args].
  unfold eval_arg, mret, mbind, M_bind, M_ret. cbn.
  split; destruct (ev a st) as [[[x|] st1]| |]; try done; cbn;
    destruct (ev b st1) as [[[y|] st2]| |]; try done; cbn;
    destruct (ev c st2) as [[[z|] st3]| |]; try done; cbn;
    by rewrite ?str_app_nil_r, ?str_app_assoc.
Qed.
End properties.

(** ** Witnesses *)

(** A concrete outside world: the list of what happened, most recent first. *)
Inductive event : Set :=
  | Slept (seconds : Z)
  | Printed (f : stream) (s : string).

#[export] Instance trace_os : ScriptOs (list event) := {|
  os_sleep s w := Slept s :: w;
  os_fputs f s w := Printed f s :: w
|}.

Definition ex_lit (s : string) (from to : Z) : Expr Builtin := mkExpr Fn_Literal s [] from to.
Definition ex_state (src : string) : State unit (list event) := mkState None src None [].

(** [t && assert(a == b)]: the assertion fails. *)
Definition ex_script : Expr Builtin :=
  Build Fn_LogicalAnd 0 19
    [ex_lit "t" 0 1;
     mkExpr Fn_Assert "assert" [Build Fn_Equality 12 18 [ex_lit "a" 12 13; ex_lit "b" 17 18]] 5 19].

Lemma evaluation_reports_witness :
  exists st', Evaluate ex_script (ex_state "t && assert(a == b)") = Ok (None, st') /\
    errmsg st' = Some "assert failed: a == b"%string /\ (@None string = None <-> errmsg st' <> None).
Proof.
  destruct (evaluation_reports ex_script (ex_state "t && assert(a == b)") eq_refl eq_refl)
    as (r & st' & Heq & Hr).
  assert (Ok (None, mkState (C := unit) (W := list event) None "t && assert(a == b)"
                      (Some "assert failed: a == b"%string) []) = Ok (r, st')) as [= <- <-]
    by (rewrite <- Heq; by vm_compute).
  eexists. split; [exact Heq|]. split; [done|exact Hr].
Defined.

Lemma int_comparisons_witness :
  Evaluate (mkExpr Fn_GreaterThanInt "greater_than_int" [ex_lit "14" 17 19; ex_lit "-3" 21 23] 0 24)
    (ex_state "greater_than_int(14, -3)") = Ok (Some "t"%string, ex_state "greater_than_int(14, -3)").
Proof.
  apply (int_comparisons (ex_lit "14" 17 19) (ex_lit "-3" 21 23) 14 (-3) 0 24
           _ (ex_state "greater_than_int(14, -3)") _); [by vm_compute..].
Defined.

Lemma FindFunction_correct_witness :
  exists r r', register_all RegisterBuiltins empty_registry = Ok r /\ FinishRegistration r = Ok r' /\
    FindFunction "sleep" r' = Ok (Some Fn_Sleep) /\ fn_size r' = 15%nat.
Proof.
  assert (NoDup RegisterBuiltins.*1) as Hdup by (apply (bool_decide_unpack _); by vm_compute).
  destruct (FindFunction_correct RegisterBuiltins "sleep" Hdup) as (r & r' & Hr & Hr' & Hf).
  exists r, r'. split; [exact Hr|]. split; [exact Hr'|]. split; [exact Hf|].
  assert (FinishRegistration r = Ok r') as H by exact Hr'.
  assert (r = default empty_registry (match register_all RegisterBuiltins empty_registry with
            Ok r => Some r | _ => None end)) as -> by (by rewrite Hr).
  clear Hr Hf Hr'. vm_compute in H. injection H as <-. done.
Defined.
