(* ===== verification/EdifyInstall.v ===== *)
(** * The installed functions of the script language

    [jni/adhoc-edify/install.c]: the functions with which a script loads kernel
    modules, signals processes, reads and writes files, reads the configuration
    file and reports progress.  The calls of the operating system are the class
    [InstallOs] over the abstract outside world; a file that is opened for
    reading is its contents. *)

From stdpp Require Import base list strings.
From Stdlib Require Import ZArith Lia ZifyBool ZifyNat Ascii.
From S2P Require Import Prelude CString Edify.

Open Scope Z_scope.

(** ** The outside world *)

(** The state behind [state->cookie].  [log_fd] is the result of an unchecked
    [fopen]: NULL when the log cannot be opened. *)
Record UpdaterInfo := mkUpdaterInfo {
  cmd_pipe : stream;
  log_fd : option stream;
  action : string
}.

Class InstallOs (W : Type) := {
  os_script :: ScriptOs W;
  (** [open], [fstat] and [read]: what [open] gives is the size [fstat] reports,
      if it does, and the bytes [read] delivers. *)
  os_open : string -> W -> option (option Z * list ascii);
  (** [fopen(path, "r")]: the contents. *)
  os_fopen : string -> W -> option (list ascii);
  (** [stat]: the size. *)
  os_stat : string -> W -> option Z;
  (** [init_module(image, len, options)] and [delete_module(name, flags)]. *)
  os_init_module : list ascii -> Z -> string -> W -> Z * W;
  os_delete_module : string -> W -> Z * W;
  (** The names [readdir] delivers, if the directory can be opened. *)
  os_opendir : string -> W -> option (list string);
  os_kill : Z -> Z -> W -> Z * W;
  os_unlink : string -> W -> Z * W;
  (** [fopen(path, "w")]: the world after it, when it succeeds; then [fwrite] of
      one item of the given text, whose result is the number of items. *)
  os_create : string -> W -> option W;
  os_fwrite : string -> string -> W -> Z * W;
  os_system : string -> W -> Z * W;
  (** At most 91 characters. *)
  os_property_get : string -> W -> string;
  os_property_set : string -> string -> W -> W;
  (** [strerror(errno)], the date of [asctime], and [%f] of [strtod]. *)
  os_strerror : W -> string;
  os_asctime : W -> string;
  os_fixed : string -> string;
  (** [dlsym] of a driver function, and its call. *)
  os_driver : string -> W -> option (Z * W)
}.

Inductive Install : Set :=
  | Fn_InsModule | Fn_RmModule | Fn_ModuleLoaded | Fn_KillProcess | Fn_KillProcessByPID
  | Fn_FileExists | Fn_WriteFile | Fn_UnlinkFile | Fn_LoadWifi | Fn_UnloadWifi | Fn_Log
  | Fn_WhiteListMacs | Fn_ShowProgress | Fn_SetProgress | Fn_GetProp | Fn_SetProp | Fn_GetCfg
  | Fn_GetAction | Fn_UIPrint | Fn_RunProgram.

Definition READ_BUF_SIZE : nat := 50.
Definition INT_MAX : Z := INT32_MAX.

(** ** Lines, tokens and configuration files

    These work on the character array the file was read into. *)

(** The tokens a [strtok] loop over line feeds meets, as printed one by one. *)
Fixpoint strtok_lines (fuel : nat) (line : option nat) (t : tok_state)
    : res (list string * list ascii) :=
  match fuel with
  | O => Diverges
  | S fuel =>
      match line with
      | None => Ok ([], tok_buf t)
      | Some p =>
          s ← cstr_at (tok_buf t) p;
          '(line', t') ← strtok None LF t;
          '(rest, b) ← strtok_lines fuel line' t';
          Ok (s :: rest, b)
      end
  end.

(** [while (end > start && isspace( *end)) --end], with [e] one past [end]: the
    position of the terminator. *)
Fixpoint trim_end (b : list ascii) (start e : nat) : res nat :=
  match e with
  | O => Ok O
  | S e' =>
      if (start <? e')%nat then
        match b !! e' with
        | None => Err OutOfBounds
        | Some c => if isspace c then trim_end b start e' else Ok e
        end
      else Ok e
  end.

(** [b[i] = '\0']. *)
Definition terminate (b : list ascii) (i : nat) : res (list ascii) :=
  if (i <? length b)%nat then Ok (<[i := NUL]> b) else Err OutOfBounds.

Inductive cfg_line : Set :=
  | CfgSkip                     (** comment, blank, or another key *)
  | CfgMalformed (line : string)
  | CfgValue (v : string).

(** One line of [GetCfgFn], which starts at [p]; the array is cut in place. *)
Definition cfg_at (key : string) (b : list ascii) (p : nat) : res (cfg_line * list ascii) :=
  skip ← span_at isspace (drop p b);
  let line := (p + skip)%nat in
  match b !! line with
  | None => Err OutOfBounds
  | Some c =>
      if decide (c = NUL \/ c = "#"%char) then Ok (CfgSkip, b)
      else
        len ← span_at (fun c => negb (bool_decide (c = "="%char)) && negb (bool_decide (c = NUL)))
                      (drop line b);
        let equal := (line + len)%nat in
        if decide (b !! equal = Some NUL) then
          s ← cstr_at b line; Ok (CfgMalformed s, b)
        else
          key_stop ← trim_end b line equal;
          b ← terminate b key_stop;
          s ← cstr_at b line;
          if decide (key = s) then
            skip ← span_at isspace (drop (S equal) b);
            let val_start := (S equal + skip)%nat in
            v ← cstr_at b val_start;
            val_stop ← trim_end b val_start (val_start + String.length v);
            b ← terminate b val_stop;
            v ← cstr_at b val_start;
            Ok (CfgValue v, b)
          else Ok (CfgSkip, b)
  end.

(** The [do ... while] over the lines: a null [line] is dereferenced the first
    time round, and ends the loop afterwards. *)
Fixpoint cfg_loop (fuel : nat) (key : string) (p : nat) (t : tok_state) : res cfg_line :=
  match fuel with
  | O => Diverges
  | S fuel =>
      '(r, b) ← cfg_at key (tok_buf t) p;
      match r with
      | CfgSkip =>
          '(line, t) ← strtok None LF (Tok b (tok_save t));
          match line with
          | None => Ok CfgSkip
          | Some p => cfg_loop fuel key p t
          end
      | r => Ok r
      end
  end.

Definition cfg_scan (key : string) (b : list ascii) : res cfg_line :=
  '(line, t) ← strtok (Some O) LF (Tok b None);
  match line with
  | None => Err NullDeref
  | Some p => cfg_loop (S (length b)) key p t
  end.

(** ** The handlers *)

Section install.
Context {W : Type} `{!InstallOs W}.
Local Abbreviation M := (M UpdaterInfo W).
Local Abbreviation Arg := (Arg UpdaterInfo W).

(** A world-passing call of the operating system, and an error of the program. *)
Definition sys {A} (f : W -> A * W) : M A := on_world f.
Definition undefined {A} (e : ub) : M A := lift (Err e).

(** [%s() expects ...] when [argc] is not what it should be. *)
Definition expects (name what : string) (argv : list Arg) : M value :=
  ErrorAbort (name +:+ "() expects " +:+ what +:+ ", got " +:+ dec (Z.of_nat (length argv))).

(** [(UpdaterInfo* )(state->cookie)], about to be dereferenced. *)
Definition ui : M UpdaterInfo :=
  st ← get_state;
  match cookie st with
  | None => undefined NullDeref
  | Some u => mret u
  end.

Definition read_file (filename : string) (size : Z) : M (option (list ascii * Z)) :=
  file ← get_world (os_open filename);
  mret match file with
       | None => None
       | Some (None, _) => None
       | Some (Some st_size, bytes) =>
           if Z.of_nat (length bytes) =? st_size then Some (bytes, st_size)
           else Some (bytes, size)
       end.

Definition InsModuleFn (name : string) (argv : list Arg) : M value :=
  if negb (length argv =? 2)%nat then expects name "2 args" argv
  else
    args ← ReadArgs argv 2;
    match args with
    | Some [module_name; options] =>
        image ← read_file module_name (INT_MAX - 4095);
        match image with
        | None => mret (Some "")
        | Some (image, len) =>
            rc ← sys (os_init_module image len options);
            mret (Some (truth (rc =? 0)))
        end
    | _ => mret None
    end.

(** The handlers with one string argument. *)
Definition with_arg (name : string) (argv : list Arg) (body : string -> M value) : M value :=
  if negb (length argv =? 1)%nat then expects name "1 arg" argv
  else
    args ← ReadArgs argv 1;
    match args with
    | Some [a] => body a
    | _ => mret None
    end.

Definition RmModuleFn (name : string) (argv : list Arg) : M value :=
  with_arg name argv (fun module_name =>
    retval ← sys (os_delete_module module_name);
    mret (Some (truth (retval =? 0)))).

(** The [fgets] loop: [mname] keeps its value when a line holds no word. *)
Fixpoint module_loop (fuel : nat) (module_name : string) (mname : option string) (found : bool)
    (modules : list ascii) : res bool :=
  match fuel with
  | O => Diverges
  | S fuel =>
      match fgets READ_BUF_SIZE modules with
      | None => Ok found
      | Some (buffer, modules) =>
          let mname := match scan_word buffer with Some (w, _) => Some w | None => mname end in
          match mname with
          | None => Err UninitRead
          | Some m => module_loop fuel module_name (Some m) (found || strstr m module_name) modules
          end
      end
  end.

Definition ModuleLoadedFn (name : string) (argv : list Arg) : M value :=
  with_arg name argv (fun module_name =>
    file ← get_world (os_fopen "/proc/modules");
    match file with
    | None => fputs Stderr ("Can't open /proc/modules for read " +:+ str_lf);; mret (Some "")
    | Some modules =>
        found ← lift (module_loop (S (length modules)) module_name None false modules);
        mret (Some (truth found))
    end).

Definition kill_processes_by_pidfile (parameter : Z) (pidfile : string) : M Z :=
  file ← get_world (os_fopen pidfile);
  match file with
  | None => mret (-1)
  | Some content =>
      match fgets (READ_BUF_SIZE - 1) content with
      | None => mret (-1)
      | Some (buffer, _) =>
          signal ← sys (os_kill (strtol_auto buffer) parameter);
          if signal =? 0 then mret 0
          else fputs Stderr ("Unable to kill process (" +:+ buffer +:+ ")" +:+ str_lf);; mret (-1)
      end
  end.

(** One directory entry of [kill_processes_by_name]: the return code after it. *)
Definition kill_entry (parameter : Z) (processName d_name : string) (returncode : Z) : M Z :=
  if decide (d_name = ".."%string) then mret returncode
  else
    let filename := "/proc/" +:+ d_name +:+ "/status" in
    if (READ_BUF_SIZE <=? String.length filename)%nat then undefined OutOfBounds
    else
      status ← get_world (os_fopen filename);
      match status with
      | None => mret returncode
      | Some content =>
          match fgets (READ_BUF_SIZE - 1) content with
          | None => mret returncode
          | Some (buffer, _) =>
              (* "%*s %s" *)
              match scan_word buffer ≫= fun '(_, rest) => scan_word rest with
              | None => undefined UninitRead
              | Some (name, _) =>
                  if strstr name processName then
                    signal ← sys (os_kill (strtol_auto d_name) parameter);
                    if signal =? 0 then mret returncode
                    else
                      fputs Stderr ("Unable to kill process " +:+ name +:+ " (" +:+ d_name +:+ ")" +:+ str_lf);;
                      mret (-1)
                  else mret returncode
              end
          end
      end.

Fixpoint kill_loop (parameter : Z) (processName : string) (dir : list string) (returncode : Z) : M Z :=
  match dir with
  | [] => mret returncode
  | next :: dir =>
      returncode ← kill_entry parameter processName next returncode;
      kill_loop parameter processName dir returncode
  end.

Definition kill_processes_by_name (parameter : Z) (processName : string) : M Z :=
  dir ← get_world (os_opendir "/proc");
  match dir with
  | None => fputs Stderr ("Can't open /proc " +:+ str_lf);; undefined NullDeref
  | Some dir => kill_loop parameter processName dir 0
  end.

Definition KillProcessFn (name : string) (argv : list Arg) : M value :=
  with_arg name argv (fun process_name =>
    kill_processes_by_name 2 process_name;;
    kill_processes_by_name 9 process_name;;
    mret (Some "t"%string)).

Definition KillProcessByPIDFn (name : string) (argv : list Arg) : M value :=
  with_arg name argv (fun pidfile =>
    kill_processes_by_pidfile 2 pidfile;;
    kill_processes_by_pidfile 9 pidfile;;
    mret (Some "t"%string)).

Definition file_exists (filename : string) : M Z :=
  file ← get_world (os_fopen filename);
  mret (match file with None => -1 | Some _ => 0 end).

Definition FileExistsFn (name : string) (argv : list Arg) : M value :=
  with_arg name argv (fun filename =>
    rc ← file_exists filename;
    mret (Some (truth (negb (rc =? -1))))).

Definition UnlinkFileFn (name : string) (argv : list Arg) : M value :=
  with_arg name argv (fun filename =>
    rc ← sys (os_unlink filename);
    mret (Some (truth (rc =? 0)))).

Definition WriteFileFn (name : string) (argv : list Arg) : M value :=
  if negb (length argv =? 2)%nat then expects name "2 args" argv
  else
    args ← ReadArgs argv 2;
    match args with
    | Some [filename; line] =>
        fd ← get_world (os_create filename);
        match fd with
        | None =>
            fputs Stderr ("Can't open " +:+ filename +:+ " for write " +:+ str_lf);; mret (Some "")
        | Some w =>
            sys (fun _ => (tt, w));;
            (* an item of size 0 is never counted *)
            n ← (if BooleanString line then sys (os_fwrite filename line) else mret 0);
            mret (Some (truth (n =? 1)))
        end
    | _ => mret None
    end.

(** [command]: a buffer of 100 bytes. *)
Definition whitelist_command (mac : string) : res string :=
  let command :=
    "/data/data/org.servalproject/bin/iptables -t nat -I PREROUTING -m mac --mac-source " +:+
    mac +:+ " -j ACCEPT" in
  if (100 <=? String.length command)%nat then Err OutOfBounds else Ok command.

Fixpoint whitelist_loop (fuel : nat) (macs : list ascii) (returncode : Z) : M Z :=
  match fuel with
  | O => lift Diverges
  | S fuel =>
      match fgets 20 macs with
      | None => mret returncode
      | Some (buffer, macs) =>
          if returncode =? 0 then
            let buffer := match scan_word buffer with Some (w, _) => w | None => buffer end in
            command ← lift (whitelist_command buffer);
            returncode ← sys (os_system command);
            whitelist_loop fuel macs returncode
          else mret returncode
      end
  end.

Definition WhiteListMacsFn (name : string) (argv : list Arg) : M value :=
  with_arg name argv (fun filename =>
    exists_ ← file_exists filename;
    if exists_ =? 0 then
      file ← get_world (os_fopen filename);
      match file with
      | None =>
          fputs Stderr ("Can't open " +:+ filename +:+ " for read " +:+ str_lf);; mret (Some "")
      | Some macs =>
          returncode ← whitelist_loop (S (length macs)) macs 0;
          mret (Some (truth (returncode =? 0)))
      end
    else mret (Some "t"%string)).

Definition ShowProgressFn (name : string) (argv : list Arg) : M value :=
  if negb (length argv =? 2)%nat then expects name "2 args" argv
  else
    args ← ReadArgs argv 2;
    match args with
    | Some [frac_str; sec_str] =>
        u ← ui;
        fputs (cmd_pipe u)
          ("progress " +:+ os_fixed frac_str +:+ " " +:+ dec (strtol sec_str).1 +:+ str_lf);;
        mret (Some frac_str)
    | _ => mret None
    end.

Definition SetProgressFn (name : string) (argv : list Arg) : M value :=
  with_arg name argv (fun frac_str =>
    u ← ui;
    fputs (cmd_pipe u) ("set_progress " +:+ os_fixed frac_str +:+ str_lf);;
    mret (Some frac_str)).

Definition GetPropFn (name : string) (argv : list Arg) : M value :=
  if negb (length argv =? 1)%nat then expects name "1 arg" argv
  else
    key ← eval_arg argv 0;
    match key with
    | None => mret None
    | Some key => v ← get_world (os_property_get key); mret (Some v)
    end.

(** Both arguments are evaluated, whatever the first gives. *)
Definition SetPropFn (name : string) (argv : list Arg) : M value :=
  if negb (length argv =? 2)%nat then expects name "2 arg" argv
  else
    key ← eval_arg argv 0;
    v ← eval_arg argv 1;
    match key, v with
    | Some key, Some v => sys (fun w => (tt, os_property_set key v w));; mret (Some "")
    | _, _ => mret None
    end.

Definition cfg_filename : string := "/data/data/org.servalproject/conf/adhoc.conf".
Definition MAX_FILE_GETPROP_SIZE : Z := 65536.

(** [argc] is not checked. *)
Definition GetCfgFn (name : string) (argv : list Arg) : M value :=
  args ← ReadArgs argv 1;
  match args with
  | Some [key] =>
      st ← get_world (os_stat cfg_filename);
      match st with
      | None =>
          err ← get_world os_strerror;
          ErrorAbort (name +:+ ": failed to stat " +:+ quote cfg_filename +:+ ": " +:+ err)
      | Some st_size =>
          if MAX_FILE_GETPROP_SIZE <? st_size then
            ErrorAbort (cfg_filename +:+ " too large for " +:+ name +:+ " (max " +:+
                        dec MAX_FILE_GETPROP_SIZE +:+ ")")
          else
            f ← get_world (os_fopen cfg_filename);
            match f with
            | None =>
                err ← get_world os_strerror;
                ErrorAbort (name +:+ ": failed to open " +:+ cfg_filename +:+ ": " +:+ err)
            | Some content =>
                if Z.of_nat (length content) <? st_size then
                  ErrorAbort (name +:+ ": failed to read " +:+ dec (st_size + 1) +:+
                              " bytes from " +:+ cfg_filename)
                else
                  r ← lift (cfg_scan key (take (Z.to_nat st_size) content ++ [NUL]));
                  match r with
                  | CfgMalformed line =>
                      ErrorAbort (name +:+ ": malformed line " +:+ quote line +:+ ": " +:+
                                  cfg_filename +:+ " not a prop file?")
                  | CfgValue v => mret (Some v)
                  | CfgSkip => mret (Some "")
                  end
            end
      end
  | _ => mret None
  end.

(** What is printed is one [fprintf] per line; what is returned is the array
    [strtok] has cut. *)
Fixpoint ui_print_lines (out : stream) (lines : list string) : M unit :=
  match lines with
  | [] => mret tt
  | line :: lines => fputs out ("ui_print " +:+ line +:+ str_lf);; ui_print_lines out lines
  end.

Definition ui_print_scan (s : string) : res (list string * string) :=
  let buffer := chars s ++ [NUL] in
  '(line, t) ← strtok (Some O) LF (Tok buffer None);
  '(lines, b) ← strtok_lines (S (length buffer)) line t;
  r ← cstr_at b 0;
  Ok (lines, r).

Definition UIPrintFn (name : string) (argv : list Arg) : M value :=
  args ← ReadVarArgs (length argv) argv;
  match args with
  | None => mret None
  | Some args =>
      '(lines, buffer) ← lift (ui_print_scan (fold_right String.append "" args));
      u ← ui;
      ui_print_lines (cmd_pipe u) lines;;
      fputs (cmd_pipe u) ("ui_print" +:+ str_lf);;
      mret (Some buffer)
  end.

Definition GetActionFn (name : string) (argv : list Arg) : M value :=
  u ← ui; mret (Some (action u)).

Definition log_line (date message outcome : string) : string :=
  "<div class=" +:+ quote "date" +:+ ">" +:+ date +:+ "</div><div class=" +:+ quote "action" +:+ ">" +:+
  message +:+ "...</div><div class=" +:+ quote "output" +:+ "></div><div class=" +:+ quote outcome +:+
  ">" +:+ outcome +:+ "</div><hr>".

Definition log_to_file (message outcome : string) : M value :=
  date ← get_world os_asctime;
  u ← ui;
  match log_fd u with
  | None => undefined NullDeref
  | Some f => fputs f (log_line date message outcome);; mret (Some "")
  end.

Definition LogFn (name : string) (argv : list Arg) : M value :=
  if negb (length argv =? 1)%nat && negb (length argv =? 2)%nat then
    ErrorAbort (name +:+ "() expects 1 or 2 args")
  else
    args ← (if (length argv =? 1)%nat
            then args ← ReadArgs argv 1; mret (cons "t"%string <$> args)
            else ReadArgs argv 2);
    match args with
    | Some [status; message] =>
        if decide (status = "t"%string) then log_to_file message "done"
        else
          sys (fun w => (tt, os_property_set "tether.status" "failed" w));;
          log_to_file message "failed"
    | _ => mret None
    end.

Definition WEXITSTATUS (status : Z) : Z := Z.shiftr (Z.land status 65280) 8.

Definition RunProgramFn (name : string) (argv : list Arg) : M value :=
  if negb (length argv =? 1)%nat then ErrorAbort (name +:+ "() expects 1 arg")
  else
    args ← ReadArgs argv 1;
    match args with
    | Some [cmd] =>
        fputs Stderr ("about to run: [" +:+ cmd +:+ "]" +:+ str_lf);;
        status ← sys (os_system cmd);
        let status := if status =? -1 then status else WEXITSTATUS status in
        mret (Some (truth (status =? 0)))
    | _ => mret None
    end.

(** The driver functions of [libhardware_legacy]; [verb] is load or unload. *)
Definition wifi_driver (name symbol verb : string) (argv : list Arg) : M value :=
  if negb (length argv =? 0)%nat then expects name "0 arg" argv
  else
    r ← sys (fun w => match os_driver symbol w with
                      | Some (rc, w) => (Some rc, w)
                      | None => (None, w)
                      end);
    match r with
    | None => ErrorAbort "libhardware_legacy is not available."
    | Some rc =>
        if rc =? 0 then mret (Some "t"%string)
        else
          err ← get_world os_strerror;
          ErrorAbort ("Unable to " +:+ verb +:+ " wifi-driver: " +:+ err)
    end.

Definition LoadWifiFn (name : string) (argv : list Arg) : M value :=
  wifi_driver name "wifi_load_driver" "load" argv.
Definition UnloadWifiFn (name : string) (argv : list Arg) : M value :=
  wifi_driver name "wifi_unload_driver" "unload" argv.
End install.

#[export] Instance install_functions {W} `{!InstallOs W} : Functions UpdaterInfo W Install :=
  fun f => match f with
  | Fn_InsModule => InsModuleFn
  | Fn_RmModule => RmModuleFn
  | Fn_ModuleLoaded => ModuleLoadedFn
  | Fn_KillProcess => KillProcessFn
  | Fn_KillProcessByPID => KillProcessByPIDFn
  | Fn_FileExists => FileExistsFn
  | Fn_WriteFile => WriteFileFn
  | Fn_UnlinkFile => UnlinkFileFn
  | Fn_LoadWifi => LoadWifiFn
  | Fn_UnloadWifi => UnloadWifiFn
  | Fn_Log => LogFn
  | Fn_WhiteListMacs => WhiteListMacsFn
  | Fn_ShowProgress => ShowProgressFn
  | Fn_SetProgress => SetProgressFn
  | Fn_GetProp => GetPropFn
  | Fn_SetProp => SetPropFn
  | Fn_GetCfg => GetCfgFn
  | Fn_GetAction => GetActionFn
  | Fn_UIPrint => UIPrintFn
  | Fn_RunProgram => RunProgramFn
  end.

Definition RegisterInstallFunctions : list (string * Install) :=
  [ ("insmod", Fn_InsModule); ("rmmod", Fn_RmModule); ("module_loaded", Fn_ModuleLoaded);
    ("kill_process", Fn_KillProcess); ("kill_pidfile", Fn_KillProcessByPID);
    ("file_exists", Fn_FileExists); ("file_write", Fn_WriteFile);
    ("file_unlink", Fn_UnlinkFile); ("load_wifi", Fn_LoadWifi);
    ("unload_wifi", Fn_UnloadWifi); ("log", Fn_Log); ("whitelist_macs", Fn_WhiteListMacs);
    ("show_progress", Fn_ShowProgress); ("set_progress", Fn_SetProgress);
    ("getprop", Fn_GetProp); ("setprop", Fn_SetProp); ("getcfg", Fn_GetCfg);
    ("action", Fn_GetAction); ("ui_print", Fn_UIPrint); ("run_program", Fn_RunProgram) ]%string.

(** ** Failure and the error message *)

Section honest.
Context {W : Type} `{!InstallOs W}.
Local Abbreviation Arg := (Arg UpdaterInfo W).

Lemma honest_ErrorAbort {C} m : honest (ErrorAbort (C := C) (W := W) m).
Proof. apply honest_message. Qed.
Lemma honest_expects name what (argv : list Arg) : honest (expects name what argv).
Proof. apply honest_ErrorAbort. Qed.
Lemma quiet_undefined {A} e : quiet (undefined (W := W) (A := A) e).
Proof. apply quiet_lift. Qed.
Lemma honest_undefined {A} e : honest (undefined (W := W) (A := option A) e).
Proof. done. Qed.
Lemma quiet_sys {A} (f : W -> A * W) : quiet (sys f).
Proof. apply quiet_on_world. Qed.
Hint Resolve honest_ErrorAbort honest_expects quiet_undefined honest_undefined quiet_sys : honest.

Lemma quiet_ui : quiet (ui (W := W)).
Proof. unfold ui. honest_body. Qed.
Lemma quiet_read_file f n : quiet (read_file (W := W) f n).
Proof. unfold read_file. honest_body. Qed.
Lemma quiet_pidfile p f : quiet (kill_processes_by_pidfile (W := W) p f).
Proof. unfold kill_processes_by_pidfile. honest_body. Qed.
Lemma quiet_kill_entry p n d r : quiet (kill_entry (W := W) p n d r).
Proof. unfold kill_entry. honest_body. Qed.
Lemma quiet_kill_loop p n dir r : quiet (kill_loop (W := W) p n dir r).
Proof.
  revert r. induction dir as [|d dir IH]; intros r; cbn [kill_loop]; [apply quiet_ret|].
  apply quiet_bind; [apply quiet_kill_entry|done].
Qed.
Lemma quiet_by_name p n : quiet (kill_processes_by_name (W := W) p n).
Proof. unfold kill_processes_by_name. pose proof quiet_kill_loop. honest_body. Qed.
Lemma quiet_file_exists f : quiet (file_exists (W := W) f).
Proof. unfold file_exists. honest_body. Qed.
Lemma quiet_whitelist_loop fuel macs r : quiet (whitelist_loop (W := W) fuel macs r).
Proof. revert macs r. induction fuel as [|fuel IH]; intros macs r; cbn [whitelist_loop]; honest_body. Qed.
Lemma quiet_ui_print out lines : quiet (ui_print_lines (W := W) out lines).
Proof. induction lines; cbn [ui_print_lines]; honest_body. Qed.
Hint Resolve quiet_ui quiet_read_file quiet_pidfile quiet_by_name quiet_file_exists
  quiet_whitelist_loop quiet_ui_print : honest.

(** A continuation that distinguishes how many strings were read. *)
Lemma honest_ReadArgs {A} (argv : list Arg) n (f : option (list string) -> M UpdaterInfo W (option A)) :
  honest_args argv -> f None = mret None -> (forall l, length l = n -> honest (f (Some l))) ->
  honest (ReadArgs argv n ≫= f).
Proof.
  intros Hargs. apply honest_count; [by apply honest_read_args|].
  intros st l st'. apply read_args_length.
Qed.

Ltac read_args_cases :=
  apply honest_ReadArgs; [done|done|];
  let l := fresh "l" in let Hl := fresh "Hl" in
  intros l Hl; repeat (destruct l as [|? l]; try discriminate Hl).

Lemma honest_with_arg name (argv : list Arg) body :
  honest_args argv -> (forall a, honest (body a)) -> honest (with_arg name argv body).
Proof.
  intros Hargs Hbody. unfold with_arg. destruct (negb _); [apply honest_expects|].
  read_args_cases. apply Hbody.
Qed.

(** Both arguments of [setprop] are run: NULL from either leaves a message. *)
Lemma honest_SetPropFn name (argv : list Arg) : honest_args argv -> honest (SetPropFn name argv).
Proof.
  intros Hargs. unfold SetPropFn. destruct (negb _); [apply honest_expects|].
  intros st r st' (key & st1 & H1 & (v & st2 & H2 & H3)%M_bind_ok)%M_bind_ok.
  apply honest_eval_arg in H1 as [Hr1 Hk]; [|done]. apply honest_eval_arg in H2 as [Hr2 Hv]; [|done].
  pose proof (same_run_trans _ _ _ Hr1 Hr2) as Hr.
  destruct key as [key|], v as [v|]; injection H3 as <- <-; (split; [done|]); cbn in *; congruence.
Qed.

Lemma honest_UIPrintFn name (argv : list Arg) : honest_args argv -> honest (UIPrintFn name argv).
Proof.
  intros Hargs. unfold UIPrintFn, ReadVarArgs.
  apply honest_bind; [by apply honest_read_args|done|]. intros args. honest_body.
Qed.

Lemma honest_log_to_file m o : honest (log_to_file (W := W) m o).
Proof. unfold log_to_file. honest_body. Qed.
Hint Resolve honest_log_to_file : honest.

Lemma honest_LogFn name (argv : list Arg) : honest_args argv -> honest (LogFn name argv).
Proof.
  intros Hargs. unfold LogFn. destruct (_ && _); [apply honest_ErrorAbort|].
  apply honest_count with (n := 2%nat).
  - destruct (length argv =? 1)%nat; [by apply honest_all_args|by apply honest_read_args].
  - intros st l st'. destruct (length argv =? 1)%nat; [|apply read_args_length].
    intros ([args|] & st1 & H1 & [= <- <-])%M_bind_ok. apply read_args_length in H1. cbn. lia.
  - done.
  - intros [|status [|message []]] Hl; try done. honest_body.
Qed.
Hint Extern 1 (quiet (if ?b then _ else _)) => destruct b : honest.

#[global] Instance install_honest : HonestFunctions UpdaterInfo W Install.
Proof.
  intros f name argv Hargs; destruct f; cbn [call install_functions];
    first [ by apply honest_SetPropFn | by apply honest_UIPrintFn | by apply honest_LogFn | idtac ];
    unfold RmModuleFn, ModuleLoadedFn, KillProcessFn, KillProcessByPIDFn, FileExistsFn, UnlinkFileFn,
      WhiteListMacsFn, SetProgressFn;
    try (apply honest_with_arg; [done|intros a; honest_body]).
  all: unfold InsModuleFn, WriteFileFn, LoadWifiFn, UnloadWifiFn, wifi_driver, ShowProgressFn,
    GetPropFn, GetCfgFn, GetActionFn, RunProgramFn.
  all: repeat first [ progress read_args_cases | honest_step ].
Qed.
End honest.

(** ** A concrete outside world

    For the examples: files by name, the system log of what was done, and every
    call succeeds. *)

Record sim := mkSim { sim_files : list (string * list ascii); sim_log : list string }.

Definition sim_note (s : string) (w : sim) : sim := mkSim (sim_files w) (s :: sim_log w).
Definition sim_do (s : string) (w : sim) : Z * sim := (0, sim_note s w).
Definition sim_file (path : string) (w : sim) : option (list ascii) := assoc path (sim_files w).

#[export] Instance sim_os : InstallOs sim := {|
  os_script := {| os_sleep s w := sim_note ("sleep " +:+ dec s) w; os_fputs _ s w := sim_note s w |};
  os_open path w := (fun f => (Some (Z.of_nat (length f)), f)) <$> sim_file path w;
  os_fopen := sim_file;
  os_stat path w := (fun f => Z.of_nat (length f)) <$> sim_file path w;
  os_init_module _ _ options := sim_do ("init_module " +:+ options);
  os_delete_module name := sim_do ("delete_module " +:+ name);
  os_opendir _ _ := Some [];
  os_kill pid sig := sim_do ("kill " +:+ dec pid +:+ " " +:+ dec sig);
  os_unlink path := sim_do ("unlink " +:+ path);
  os_create path w := Some (mkSim ((path, []) :: sim_files w) (sim_log w));
  os_fwrite path s w := (1, mkSim ((path, chars s) :: sim_files w) (sim_log w));
  os_system := sim_do;
  os_property_get _ _ := "";
  os_property_set k v := sim_note ("setprop " +:+ k +:+ " " +:+ v);
  os_strerror _ := "error";
  os_asctime _ := "today";
  os_fixed s := s;
  os_driver s w := Some (sim_do s w)
|}.

Definition sim_state (files : list (string * string)) : State UpdaterInfo sim :=
  mkState (Some (mkUpdaterInfo CmdPipe (Some LogFd) "start")) "" None
    (mkSim ((fun '(p, c) => (p, chars c)) <$> files) []).
