(* ===== verification/EdifySafety.v ===== *)
(** * Scripts terminate, and report their failures

    Every loop of the installed functions runs on fuel that its input bounds:
    evaluation never exhausts it, whatever the script, the files and the outside
    world.  With the law of [Edify] about error messages this gives the outcome
    of a whole script over the built-in and the installed functions. *)

From stdpp Require Import base list strings.
From Stdlib Require Import ZArith Lia ZifyBool ZifyNat Ascii.
From S2P Require Import Prelude CString Edify EdifyInstall.

Open Scope Z_scope.

(** ** The scanning loops *)

Definition finishes {A} (m : res A) : Prop := m <> Diverges.

Lemma finishes_bind {A B} (m : res A) (f : A -> res B) :
  finishes m -> (forall a, m = Ok a -> finishes (f a)) -> finishes (m ≫= f).
Proof. intros Hm Hf. destruct m; cbn; [by apply Hf|done|done]. Qed.

Lemma finishes_fmap {A B} (f : A -> B) (m : res A) : finishes m -> finishes (f <$> m).
Proof. by destruct m. Qed.

Lemma finishes_cstr b : finishes (cstr b).
Proof. induction b as [|c b IH]; cbn; [done|]. case_decide; [done|]. by apply finishes_fmap. Qed.

Lemma finishes_span P b : finishes (span_at P b).
Proof. induction b as [|c b IH]; cbn; [done|]. destruct (P c); [|done]. by apply finishes_fmap. Qed.

Lemma finishes_trim b lo e : finishes (trim_end b lo e).
Proof.
  induction e as [|e IH]; cbn [trim_end]; [done|]. destruct (_ <? _)%nat; [|done].
  destruct (b !! e); [|done]. by destruct (isspace _).
Qed.

Lemma finishes_terminate b i : finishes (terminate b i).
Proof. unfold terminate. by destruct (_ <? _)%nat. Qed.

Lemma span_bound P b n : span_at P b = Ok n -> (n < length b)%nat.
Proof.
  revert n. induction b as [|c b IH]; intros n; cbn; [done|]. destruct (P c).
  - destruct (span_at P b) as [k| |]; [|done..]. intros [= <-]. specialize (IH k eq_refl). lia.
  - intros [= <-]. lia.
Qed.

(** A token starts inside the array, and the next search after it. *)
Lemma strtok_at_bound d p b line t :
  strtok_at d p b = Ok (line, t) ->
  length (tok_buf t) = length b /\
  match line with Some q => (p <= q < length b)%nat | None => True end /\
  match tok_save t with Some s => (p < s <= length b)%nat | None => True end.
Proof.
  unfold strtok_at. intros H. bind_inv H. cbv zeta in H.
  destruct (drop (p + a) b) as [|c r] eqn:Hd; [done|].
  assert (p + a < length b)%nat as Hlt.
  { apply (f_equal length) in Hd. rewrite length_drop in Hd. cbn in Hd. lia. }
  destruct (decide (c = NUL)); [injection H as <- <-; done|]. bind_inv H. rewrite <- Hd in *.
  match goal with Hs : span_at _ (drop _ b) = Ok ?n |- _ => apply span_bound in Hs; rewrite length_drop in Hs end.
  cbv zeta in H. case_decide; injection H as <- <-; cbn [tok_buf tok_save];
    rewrite ?length_insert; (split; [done|]; split; [lia|]; done || lia).
Qed.

Lemma finishes_strtok_at d p b : finishes (strtok_at d p b).
Proof.
  unfold strtok_at. apply finishes_bind; [apply finishes_span|]. intros skip _. cbv zeta.
  destruct (drop _ b); [done|]. case_decide; [done|].
  apply finishes_bind; [apply finishes_span|]. intros len _. cbv zeta. by case_decide.
Qed.

(** What is left of the array after the saved position. *)
Definition left_over (t : tok_state) : nat :=
  match tok_save t with Some s => length (tok_buf t) - s | None => 0 end.

Lemma strtok_next_left d t line t' :
  strtok None d t = Ok (line, t') ->
  (line = None /\ t' = t) \/ (left_over t' < left_over t)%nat \/ line = None \/
  (left_over t' = 0%nat /\ 0 < left_over t)%nat.
Proof.
  unfold strtok, left_over. destruct (tok_save t) as [s|] eqn:Hs; [|by intros [= <- <-]; left].
  intros (Hlen & Hl & Hs')%strtok_at_bound. right.
  destruct line as [q|]; [|by right; left]. destruct (tok_save t') as [s'|].
  - left. rewrite Hlen. lia.
  - right. right. lia.
Qed.

Lemma strtok_next_fuel d t line t' fuel :
  strtok None d t = Ok (line, t') -> (S (left_over t) < S fuel)%nat ->
  (match line with Some _ => S (left_over t') < fuel | None => 0 < fuel end)%nat.
Proof.
  intros H Hf. destruct (strtok_next_left _ _ _ _ H) as [[-> ->]|[Hlt|[->|[Hz Hp]]]];
    try destruct line; lia.
Qed.

Lemma finishes_strtok d t : finishes (strtok None d t).
Proof. unfold strtok. destruct (tok_save t); [apply finishes_strtok_at|done]. Qed.

Lemma finishes_strtok_lines fuel line t :
  (match line with Some _ => S (left_over t) < fuel | None => 0 < fuel end)%nat ->
  finishes (strtok_lines fuel line t).
Proof.
  revert line t. induction fuel as [|fuel IH]; intros line t Hf; [destruct line; lia|].
  cbn [strtok_lines]. destruct line as [p|]; [|done].
  apply finishes_bind; [apply finishes_cstr|]. intros s _.
  apply finishes_bind; [apply finishes_strtok|]. intros [line' t'] Hnext.
  apply finishes_bind; [|by intros []]. apply IH. by eapply strtok_next_fuel.
Qed.

(** The first call leaves less than the array. *)
Lemma strtok_first_fuel d b line t :
  strtok (Some O) d (Tok b None) = Ok (line, t) ->
  (match line with Some _ => S (left_over t) < S (length b) | None => 0 < S (length b) end)%nat.
Proof.
  unfold strtok, left_over. cbn [tok_buf]. intros (Hlen & Hl & Hs)%strtok_at_bound.
  destruct line; [|lia]. destruct (tok_save t); lia.
Qed.

Lemma terminate_length b i b' : terminate b i = Ok b' -> length b' = length b.
Proof. unfold terminate. destruct (_ <? _)%nat; [|done]. intros [= <-]. apply length_insert. Qed.

Lemma cfg_at_length key b p r b' : cfg_at key b p = Ok (r, b') -> length b' = length b.
Proof.
  unfold cfg_at. intros H. bind_inv H. cbv zeta in H.
  destruct (b !! _); [|done]. case_decide; [by injection H as <- <-|]. bind_inv H. cbv zeta in H.
  case_decide; [bind_inv H; by injection H as <- <-|]. bind_inv H.
  case_decide; [|injection H as <- <-; by eapply terminate_length].
  bind_inv H. injection H as <- <-.
  repeat match goal with Ht : terminate _ _ = Ok _ |- _ => apply terminate_length in Ht end. congruence.
Qed.

Lemma finishes_cfg_at key b p : finishes (cfg_at key b p).
Proof.
  unfold cfg_at. apply finishes_bind; [apply finishes_span|]. intros n _. cbv zeta.
  destruct (b !! _); [|done]. case_decide; [done|].
  apply finishes_bind; [apply finishes_span|]. intros n' _. cbv zeta.
  case_decide; [apply finishes_bind; [apply finishes_cstr|done]|].
  apply finishes_bind; [apply finishes_trim|]. intros ? _.
  apply finishes_bind; [apply finishes_terminate|]. intros ? _.
  apply finishes_bind; [apply finishes_cstr|]. intros ? _. case_decide; [|done].
  apply finishes_bind; [apply finishes_span|]. intros ? _. cbv zeta.
  apply finishes_bind; [apply finishes_cstr|]. intros ? _.
  apply finishes_bind; [apply finishes_trim|]. intros ? _.
  apply finishes_bind; [apply finishes_terminate|]. intros ? _.
  apply finishes_bind; [apply finishes_cstr|]. done.
Qed.

Lemma finishes_cfg_loop fuel key p t :
  (S (left_over t) < fuel)%nat -> finishes (cfg_loop fuel key p t).
Proof.
  revert p t. induction fuel as [|fuel IH]; intros p t Hf; [lia|]. cbn [cfg_loop].
  apply finishes_bind; [apply finishes_cfg_at|]. intros [r b] Hat. destruct r; [|done|done].
  apply finishes_bind; [apply finishes_strtok|]. intros [[q|] t'] Hnext; [|done].
  apply IH. apply (strtok_next_fuel _ _ _ _ fuel) in Hnext; [done|].
  unfold left_over in *. cbn [tok_buf tok_save]. by rewrite (cfg_at_length _ _ _ _ _ Hat).
Qed.

Lemma finishes_cfg_scan key b : finishes (cfg_scan key b).
Proof.
  unfold cfg_scan. apply finishes_bind; [apply finishes_strtok_at|]. intros [[p|] t] Hfirst; [|done].
  apply finishes_cfg_loop. by apply strtok_first_fuel in Hfirst.
Qed.

Lemma finishes_ui_print_scan s : finishes (ui_print_scan s).
Proof.
  unfold ui_print_scan. cbv zeta. apply finishes_bind; [apply finishes_strtok_at|].
  intros [line t] Hfirst. apply finishes_bind.
  - apply finishes_strtok_lines. by apply strtok_first_fuel in Hfirst.
  - intros [ls b] _. apply finishes_bind; [apply finishes_cstr|done].
Qed.

(** [fgets] makes progress. *)
Lemma fgets_go_length room s l r : fgets_go room s = (l, r) -> length s = (length l + length r)%nat.
Proof.
  revert s l. induction room as [|room IH]; intros s l; [by intros [= <- <-]|].
  destruct s as [|c s]; [by intros [= <- <-]|]. cbn [fgets_go]. case_decide; [by intros [= <- <-]|].
  destruct (fgets_go room s) as [l' r'] eqn:Hg. intros [= <- <-]. apply IH in Hg. cbn. lia.
Qed.

Lemma fgets_length size s l r : (1 < size)%nat -> fgets size s = Some (l, r) -> (length r < length s)%nat.
Proof.
  unfold fgets. destruct s as [|c s]; [done|]. intros Hsize.
  destruct (fgets_go (size - 1) (c :: s)) as [l' r'] eqn:Hg. intros [= _ <-].
  pose proof (fgets_go_length _ _ _ _ Hg) as Hlen. destruct l' as [|a l']; [|cbn in *; lia].
  exfalso. destruct (size - 1)%nat eqn:Hs; [lia|]. cbn [fgets_go] in Hg.
  case_decide; [done|]. by destruct (fgets_go n s).
Qed.

Lemma finishes_module_loop fuel name mname found s :
  (length s < fuel)%nat -> finishes (module_loop fuel name mname found s).
Proof.
  revert mname found s. induction fuel as [|fuel IH]; intros mname found s Hf; [lia|].
  cbn [module_loop]. destruct (fgets READ_BUF_SIZE s) as [[buffer rest]|] eqn:Hg; [|done].
  apply fgets_length in Hg; [|unfold READ_BUF_SIZE; lia].
  destruct (match scan_word buffer with Some _ => _ | None => _ end); [|done]. apply IH. lia.
Qed.

(** ** Handlers *)

Section halts.
Context {C W : Type}.
Local Abbreviation M := (M C W).
Local Abbreviation Arg := (Arg C W).

Definition halts {A} (m : M A) : Prop := forall st, finishes (m st).

Lemma halts_bind {A B} (m : M A) (f : A -> M B) :
  halts m -> (forall a, halts (f a)) -> halts (m ≫= f).
Proof.
  intros Hm Hf st. specialize (Hm st). unfold finishes, mbind, M_bind in *.
  destruct (m st) as [[a st']| |]; [by apply Hf|done|done].
Qed.
Lemma halts_ret {A} (a : A) : halts (mret a).
Proof. done. Qed.
Lemma halts_lift {A} (r : res A) : finishes r -> halts (lift r).
Proof. intros Hr st. by apply finishes_bind. Qed.
Lemma halts_get_state : halts get_state.
Proof. done. Qed.
Lemma halts_get_world {A} (f : W -> A) : halts (get_world f).
Proof. done. Qed.
Lemma halts_on_world {A} (f : W -> A * W) : halts (on_world f).
Proof. intros st. unfold on_world. by destruct (f (world st)). Qed.
Lemma halts_message m : halts (put_errmsg m).
Proof. done. Qed.

Definition halting_args (argv : list Arg) : Prop := Forall (fun a => halts (eval a)) argv.

Lemma halts_arg (argv : list Arg) i : halts (arg argv i).
Proof. unfold arg. destruct argv; [done|]. by destruct (_ !! i). Qed.

Lemma halts_eval_arg (argv : list Arg) i : halting_args argv -> halts (eval_arg argv i).
Proof.
  intros Hargs st. unfold eval_arg, mbind, M_bind.
  destruct (arg argv i st) as [[a st']| |] eqn:Ha; [|done|by apply halts_arg in Ha].
  apply arg_elem in Ha as [Ha ->]. unfold halting_args in Hargs. rewrite Forall_forall in Hargs.
  by apply Hargs.
Qed.

Lemma halts_read_args (argv : list Arg) i count : halting_args argv -> halts (read_args argv i count).
Proof.
  intros Hargs. revert i. induction count as [|count IH]; intros i; cbn [read_args]; [apply halts_ret|].
  apply halts_bind; [by apply halts_eval_arg|]. intros [v|]; [|apply halts_ret].
  apply halts_bind; [apply IH|]. intros ?. apply halts_ret.
Qed.
End halts.

Create HintDb halts discriminated.
#[export] Hint Resolve halts_ret halts_get_state halts_get_world halts_on_world halts_message
  halts_arg halts_eval_arg halts_read_args : halts.

Ltac halts_step :=
  match goal with
  | |- halts (match ?x with _ => _ end) => destruct x
  | |- halts (if ?b then _ else _) => destruct b
  | |- halts (_ ≫= _) => apply halts_bind; [|intros ?]
  | |- halts (lift _) => apply halts_lift
  | |- _ => solve [eauto with halts]
  end.
Ltac halts_body := repeat halts_step.

(** The law of a set of functions: halting on halting arguments. *)
Class HaltingFunctions (C W F : Type) `{!Functions C W F} : Prop :=
  halts_call (f : F) name (argv : list (Arg C W)) : halting_args argv -> halts (call f name argv).

Lemma Evaluate_halts {C W F} `{!Functions C W F, !HaltingFunctions C W F} (e : Expr F) :
  halts (Evaluate (C := C) (W := W) e).
Proof.
  induction e as [f name argv s t IH] using expr_nested_ind. cbn [Evaluate].
  apply halts_call. unfold halting_args. rewrite Forall_map. by eapply Forall_impl.
Qed.

#[export] Instance sum_halting {C W F G} `{!Functions C W F, !Functions C W G}
    `{!HaltingFunctions C W F, !HaltingFunctions C W G} : HaltingFunctions C W (F + G).
Proof.
  intros [f|g] name argv H;
    [by apply (halts_call (F := F) f name)|by apply (halts_call (F := G) g name)].
Qed.

Section builtins.
Context {C W : Type} `{!ScriptOs W}.
Local Abbreviation Arg := (Arg C W).

Lemma halts_fputs f s : halts (fputs (C := C) f s).
Proof. apply halts_on_world. Qed.
Hint Resolve halts_fputs : halts.

Lemma halts_assert_loop (todo : list Arg) : halting_args todo -> halts (assert_loop todo).
Proof.
  induction 1 as [|a todo Ha _ IH]; cbn [assert_loop]; halts_body.
  unfold source_of. by destruct (_ || _).
Qed.

Lemma halts_stdout_loop (todo : list Arg) : halting_args todo -> halts (stdout_loop todo).
Proof. induction 1 as [|a todo Ha _ IH]; cbn [stdout_loop]; halts_body. Qed.

Lemma halts_less name (argv : list Arg) : halting_args argv -> halts (LessThanIntFn name argv).
Proof. intros Hargs. unfold LessThanIntFn, ReadArgs. halts_body. Qed.

Lemma halts_greater name (argv : list Arg) : halting_args argv -> halts (GreaterThanIntFn name argv).
Proof.
  intros Hargs st. unfold GreaterThanIntFn. destruct (negb _); [by apply halts_bind|].
  unfold mbind, M_bind.
  destruct (arg argv 1 st) as [[b st1]| |] eqn:Hb; [|done|by apply halts_arg in Hb].
  apply arg_elem in Hb as [Hb ->].
  destruct (arg argv 0 st) as [[a st1]| |] eqn:Ha; [|done|by apply halts_arg in Ha].
  apply arg_elem in Ha as [Ha ->]. apply halts_less. unfold halting_args in *.
  rewrite Forall_forall in Hargs. by repeat apply Forall_cons_2; [apply Hargs..|].
Qed.

#[global] Instance builtin_halting : HaltingFunctions C W Builtin.
Proof.
  intros f name argv Hargs; destruct f; cbn [call builtin_functions];
    first [ by apply halts_greater | by apply halts_less | by apply halts_assert_loop
          | by apply halts_stdout_loop | idtac ].
  all: unfold Literal, ConcatFn, IfElseFn, AbortFn, SleepFn, LogicalAndFn, LogicalOrFn, LogicalNotFn,
    SubstringFn, EqualityFn, InequalityFn, SequenceFn, binary; halts_body.
Qed.
End builtins.
#[export] Hint Resolve halts_fputs : halts.

Section install.
Context {W : Type} `{!InstallOs W}.
Local Abbreviation Arg := (Arg UpdaterInfo W).

Lemma halts_ErrorAbort {C} m : halts (ErrorAbort (C := C) (W := W) m).
Proof. unfold ErrorAbort. halts_body. Qed.
Lemma halts_expects name what (argv : list Arg) : halts (expects name what argv).
Proof. apply halts_ErrorAbort. Qed.
Lemma halts_undefined {A} e : halts (undefined (W := W) (A := A) e).
Proof. done. Qed.
Lemma halts_sys {A} (f : W -> A * W) : halts (sys f).
Proof. apply halts_on_world. Qed.
Lemma halts_ui : halts (ui (W := W)).
Proof. unfold ui. intros st. unfold mbind, M_bind, get_state. by destruct (cookie st). Qed.
Hint Resolve halts_ErrorAbort halts_expects halts_undefined halts_sys halts_ui : halts.

Lemma halts_kill_entry p n d r : halts (kill_entry (W := W) p n d r).
Proof. unfold kill_entry. halts_body. Qed.
Lemma halts_kill_loop p n dir r : halts (kill_loop (W := W) p n dir r).
Proof.
  revert r. induction dir as [|d dir IH]; intros r; cbn [kill_loop]; [done|].
  apply halts_bind; [apply halts_kill_entry|done].
Qed.
Lemma halts_by_name p n : halts (kill_processes_by_name (W := W) p n).
Proof. unfold kill_processes_by_name. pose proof halts_kill_loop. halts_body. Qed.
Lemma halts_by_pidfile p f : halts (kill_processes_by_pidfile (W := W) p f).
Proof. unfold kill_processes_by_pidfile. halts_body. Qed.
Lemma halts_ui_print out lines : halts (ui_print_lines (W := W) out lines).
Proof. induction lines; cbn [ui_print_lines]; halts_body. Qed.
Lemma halts_log_to_file m o : halts (log_to_file (W := W) m o).
Proof. unfold log_to_file. halts_body. Qed.
Hint Resolve halts_by_name halts_by_pidfile halts_ui_print halts_log_to_file : halts.

Lemma halts_whitelist_loop fuel macs r : (length macs < fuel)%nat -> halts (whitelist_loop (W := W) fuel macs r).
Proof.
  revert macs r. induction fuel as [|fuel IH]; intros macs r Hf; [lia|]. cbn [whitelist_loop].
  destruct (fgets 20 macs) as [[buffer rest]|] eqn:Hg; [|done]. apply fgets_length in Hg; [|lia].
  destruct (r =? 0); [|done]. apply halts_bind.
  - apply halts_lift. unfold whitelist_command. by destruct (_ <=? _)%nat.
  - intros command. apply halts_bind; [apply halts_sys|]. intros rc. apply IH. lia.
Qed.

Lemma halts_with_arg name (argv : list Arg) body :
  halting_args argv -> (forall a, halts (body a)) -> halts (with_arg name argv body).
Proof. intros Hargs Hbody. unfold with_arg, ReadArgs. halts_body. Qed.

#[global] Instance install_halting : HaltingFunctions UpdaterInfo W Install.
Proof.
  intros f name argv Hargs; destruct f; cbn [call install_functions];
    unfold InsModuleFn, read_file, RmModuleFn, ModuleLoadedFn, KillProcessFn, KillProcessByPIDFn,
      FileExistsFn, UnlinkFileFn, WhiteListMacsFn, SetProgressFn, file_exists;
    try (apply halts_with_arg; [done|intros a]);
    unfold WriteFileFn, LoadWifiFn, UnloadWifiFn, wifi_driver, ShowProgressFn, GetPropFn, SetPropFn,
      GetCfgFn, GetActionFn, UIPrintFn, ReadVarArgs, LogFn, RunProgramFn, ReadArgs; halts_body;
    first [ apply finishes_module_loop; lia | apply halts_whitelist_loop; lia
          | apply finishes_cfg_scan | apply finishes_ui_print_scan ].
Qed.

(** A script over all the functions, in any outside world and whatever the
    files hold, terminates; and unless it runs into undefined behaviour it returns
    NULL exactly when it has left an error message. *)
Theorem script_outcome (e : Expr (Builtin + Install)) (st : State UpdaterInfo W) :
  errmsg st = None ->
  match Evaluate e st with
  | Ok (r, st') => r = None <-> errmsg st' <> None
  | Err _ => True
  | Diverges => False
  end.
Proof.
  intros Hmsg. destruct (Evaluate e st) as [[r st']|e'|] eqn:Heq; [|done|].
  - apply Evaluate_honest in Heq as [_ Hr]. destruct r; [|done]. rewrite Hr, Hmsg. by split.
  - by apply (Evaluate_halts e st).
Qed.
End install.

(** [getcfg("wifi.channel") == "6" || abort("wrong channel")], on a file that says 11. *)
Definition ex_conf : list (string * string) :=
  [(cfg_filename, "wifi.essid=Serval" +:+ str_lf +:+ "wifi.channel = 11" +:+ str_lf)]%string.
Definition ex_node (f : Builtin + Install) (name : string) (argv : list (Expr (Builtin + Install))) :=
  mkExpr f name argv 0 0.
Definition ex_string (s : string) := ex_node (inl Fn_Literal) s [].
Definition ex_check : Expr (Builtin + Install) :=
  ex_node (inl Fn_LogicalOr) "(operator)"
    [ex_node (inl Fn_Equality) "(operator)"
       [ex_node (inr Fn_GetCfg) "getcfg" [ex_string "wifi.channel"]; ex_string "6"];
     ex_node (inl Fn_Abort) "abort" [ex_string "wrong channel"]].

Lemma script_outcome_witness :
  exists st', Evaluate ex_check (sim_state ex_conf) = Ok (None, st') /\
    errmsg st' = Some "wrong channel"%string /\ (@None string = None <-> errmsg st' <> None).
Proof.
  pose proof (script_outcome ex_check (sim_state ex_conf) eq_refl) as H.
  eexists. split; [by vm_compute|]. split; [done|].
  assert (Evaluate ex_check (sim_state ex_conf) =
          Ok (None, set_errmsg (Some "wrong channel"%string) (sim_state ex_conf))) as Heq by by vm_compute.
  rewrite Heq in H. exact H.
Defined.
