(* ===== verification/EdifyConfig.v ===== *)
(** * Reading the configuration file and printing lines, in place

    The loops of [GetCfgFn] and [UIPrintFn] cut a character array with [strtok]
    and with terminators of their own.  This file specifies them on the text
    ([lines], [cfg_lookup]) and shows that the loops over the array implement
    the specifications. *)

From stdpp Require Import base list strings.
From Stdlib Require Import ZArith Lia ZifyBool ZifyNat Ascii.
From S2P Require Import Prelude CString Edify EdifyInstall.

Open Scope Z_scope.

Abbreviation text := (list ascii).
Abbreviation to_string := String.string_of_list_ascii.

(** ** The lines of a text, without the empty ones *)

Definition cons_line (l : text) (ls : list text) : list text :=
  match l with [] => ls | _ => l :: ls end.

Fixpoint lines_go (s : text) : text * list text :=
  match s with
  | [] => ([], [])
  | c :: s =>
      let '(l, ls) := lines_go s in
      if decide (c = LF) then ([], cons_line l ls) else (c :: l, ls)
  end.
Definition lines (s : text) : list text := let '(l, ls) := lines_go s in cons_line l ls.

Definition no_nul (s : text) : Prop := Forall (fun c => c <> NUL) s.

(** ** Specification of a configuration file *)

Fixpoint drop_spaces (s : text) : text :=
  match s with
  | c :: s' => if isspace c then drop_spaces s' else s
  | [] => []
  end.
Definition trim_right (s : text) : text := reverse (drop_spaces (reverse s)).

Fixpoint split_equal (s : text) : option (text * text) :=
  match s with
  | [] => None
  | c :: s =>
      if decide (c = "="%char) then Some ([], s)
      else '(k, v) ← split_equal s; Some (c :: k, v)
  end.

(** One line: a comment, a blank line or another key is skipped. *)
Definition cfg_entry (key : string) (l : text) : cfg_line :=
  match drop_spaces l with
  | [] => CfgSkip
  | (c :: _) as l =>
      if decide (c = "#"%char) then CfgSkip
      else match split_equal l with
           | None => CfgMalformed (to_string l)
           | Some (k, v) =>
               if decide (key = to_string (trim_right k))
               then CfgValue (to_string (trim_right (drop_spaces v)))
               else CfgSkip
           end
  end.

(** The first line for the key decides, and so does a malformed line before it. *)
Fixpoint cfg_lookup (key : string) (ls : list text) : cfg_line :=
  match ls with
  | [] => CfgSkip
  | l :: ls => match cfg_entry key l with CfgSkip => cfg_lookup key ls | r => r end
  end.

(** ** [strtok] over line feeds meets the lines *)

Lemma lines_go_token (tok s : text) :
  Forall (fun c => c <> LF) tok -> lines_go (tok ++ LF :: s) = (tok, lines s).
Proof.
  induction 1 as [|c tok Hc _ IH]; cbn [app lines_go].
  - unfold lines. destruct (lines_go s). by rewrite decide_True.
  - rewrite IH. by rewrite decide_False.
Qed.
Lemma lines_go_last (tok : text) : Forall (fun c => c <> LF) tok -> lines_go tok = (tok, []).
Proof. induction 1 as [|c tok Hc _ IH]; cbn [lines_go]; [done|]. rewrite IH. by rewrite decide_False. Qed.

Lemma split_line (s : text) :
  exists tok, Forall (fun c => c <> LF) tok /\ (s = tok \/ exists s', s = tok ++ LF :: s').
Proof.
  induction s as [|c s (tok & Htok & IH)].
  { exists []. split; [done|by left]. }
  destruct (decide (c = LF)) as [->|Hc].
  { exists []. split; [done|]. right. by exists s. }
  exists (c :: tok). split; [by constructor|]. destruct IH as [->|(s' & ->)]; [by left|].
  right. by exists s'.
Qed.

(** How a text begins: line feeds, then nothing, a line, or the last line. *)
Inductive text_view (s : text) : Prop :=
  | ViewEmpty (Hlf : Forall (fun c => c = LF) s) (Hl : lines s = [])
  | ViewLine nls a tok s' (Hs : s = nls ++ (a :: tok) ++ LF :: s')
      (Hlf : Forall (fun c => c = LF) nls) (Htok : Forall (fun c => c <> LF) (a :: tok))
      (Hl : lines s = (a :: tok) :: lines s')
  | ViewLast nls a tok (Hs : s = nls ++ (a :: tok))
      (Hlf : Forall (fun c => c = LF) nls) (Htok : Forall (fun c => c <> LF) (a :: tok))
      (Hl : lines s = [a :: tok]).

Lemma lines_lf s : lines (LF :: s) = lines s.
Proof. unfold lines. cbn [lines_go]. destruct (lines_go s). by rewrite decide_True. Qed.

Lemma text_views s : text_view s.
Proof.
  induction s as [|c s IH]; [by apply ViewEmpty|].
  destruct (decide (c = LF)) as [->|Hc].
  - destruct IH as [Hlf Hl|nls a tok s' -> Hlf Htok Hl|nls a tok -> Hlf Htok Hl].
    + apply ViewEmpty; [by constructor|by rewrite lines_lf].
    + apply (ViewLine _ (LF :: nls) a tok s'); [done|by constructor|done|by rewrite lines_lf].
    + apply (ViewLast _ (LF :: nls) a tok); [done|by constructor|done|by rewrite lines_lf].
  - clear IH. destruct (split_line s) as (tok & Htok & [->|(s' & ->)]).
    + apply (ViewLast _ [] c tok); [done..|by constructor|].
      unfold lines. by rewrite (lines_go_last (c :: tok)) by (by constructor).
    + apply (ViewLine _ [] c tok s'); [done..|by constructor|].
      change (c :: tok ++ LF :: s') with ((c :: tok) ++ LF :: s').
      unfold lines at 1. by rewrite lines_go_token by (by constructor).
Qed.

Lemma strtok_at_skip delim pre nls c x :
  Forall (fun a => a = delim) nls -> c <> delim ->
  strtok_at delim (length pre) (pre ++ nls ++ c :: x) =
  strtok_at delim (length (pre ++ nls)) ((pre ++ nls) ++ c :: x).
Proof.
  intros Hn Hc. unfold strtok_at. rewrite !drop_app_length, (app_assoc pre).
  rewrite span_at_run; [|by eapply Forall_impl; [done|]; intros a ->; apply bool_decide_eq_true_2
                        |by apply bool_decide_eq_false_2].
  rewrite span_at_none by (by apply bool_decide_eq_false_2).
  cbn [mbind res_bind]. rewrite length_app, Nat.add_0_r. done.
Qed.

Lemma strtok_at_none delim pre nls :
  Forall (fun a => a = delim) nls -> NUL <> delim ->
  strtok_at delim (length pre) (pre ++ nls ++ [NUL]) = Ok (None, Tok (pre ++ nls ++ [NUL]) None).
Proof.
  intros Hn Hd. rewrite strtok_at_skip by done. unfold strtok_at.
  rewrite drop_app_length, span_at_none by (by apply bool_decide_eq_false_2).
  cbn [mbind res_bind]. rewrite Nat.add_0_r, drop_app_length. by rewrite <- app_assoc.
Qed.

Lemma token_chars (s : text) : Forall (fun c => c <> LF) s -> no_nul s -> Forall (token_char LF) s.
Proof. intros H1 H2. apply Forall_and. by split. Qed.

Lemma no_nul_app s t : no_nul (s ++ t) <-> no_nul s /\ no_nul t.
Proof. apply Forall_app. Qed.

Lemma strtok_at_line pre nls a tok s' :
  Forall (fun c => c = LF) nls -> Forall (token_char LF) (a :: tok) ->
  strtok_at LF (length pre) (pre ++ (nls ++ (a :: tok) ++ LF :: s') ++ [NUL]) =
  Ok (Some (length (pre ++ nls)),
      Tok ((pre ++ nls) ++ (a :: tok) ++ NUL :: s' ++ [NUL])
          (Some (S (length (pre ++ nls) + length (a :: tok))))).
Proof.
  intros Hn Htok. rewrite <- !app_assoc. cbn [app].
  rewrite strtok_at_skip by (done || by apply Forall_cons in Htok as [[] _]).
  change (a :: tok ++ LF :: s' ++ [NUL]) with ((a :: tok) ++ LF :: (s' ++ [NUL])).
  rewrite strtok_at_token by done. by rewrite <- !app_assoc.
Qed.

Lemma strtok_at_last_line pre nls a tok :
  Forall (fun c => c = LF) nls -> Forall (token_char LF) (a :: tok) ->
  strtok_at LF (length pre) (pre ++ (nls ++ (a :: tok)) ++ [NUL]) =
  Ok (Some (length (pre ++ nls)), Tok ((pre ++ nls) ++ (a :: tok) ++ [NUL]) None).
Proof.
  intros Hn Htok. rewrite <- !app_assoc. cbn [app].
  rewrite strtok_at_skip by (done || by apply Forall_cons in Htok as [[] _]).
  change (a :: tok ++ [NUL]) with ((a :: tok) ++ NUL :: []).
  rewrite strtok_at_last by done. by rewrite <- !app_assoc.
Qed.

Lemma cstr_at_line pre l rest : no_nul l -> cstr_at (pre ++ l ++ NUL :: rest) (length pre) = Ok (to_string l).
Proof. intros Hl. unfold cstr_at. rewrite drop_app_length. by apply cstr_run. Qed.

(** The save position after a line, as a position after the cut prefix. *)
Lemma strtok_resume pre tok rest :
  strtok None LF (Tok (pre ++ tok ++ NUL :: rest) (Some (S (length pre + length tok)))) =
  strtok_at LF (length (pre ++ tok ++ [NUL])) ((pre ++ tok ++ [NUL]) ++ rest).
Proof. apply strtok_next. Qed.

(** The text up to the end of its first line: what a cut array holds. *)
Fixpoint first_line (s : text) : text :=
  match s with
  | [] => []
  | c :: s => if decide (c = LF) then LF :: first_line s else c :: (lines_go s).1
  end.

Lemma first_line_lf nls s :
  Forall (fun c => c = LF) nls -> first_line (nls ++ s) = nls ++ first_line s.
Proof. induction 1 as [|c nls -> _ IH]; cbn; [done|]. by rewrite IH. Qed.

Lemma first_line_token a tok s :
  Forall (fun c => c <> LF) (a :: tok) -> first_line ((a :: tok) ++ LF :: s) = a :: tok.
Proof.
  intros [Ha Htok]%Forall_cons. cbn [app first_line]. rewrite decide_False by done.
  by rewrite lines_go_token.
Qed.

Lemma first_line_last a tok :
  Forall (fun c => c <> LF) (a :: tok) -> first_line (a :: tok) = a :: tok.
Proof.
  intros [Ha Htok]%Forall_cons. cbn [first_line]. rewrite decide_False by done.
  by rewrite lines_go_last.
Qed.

(** The loop from a first call of [strtok] at [length pre]: it meets the lines of
    the text, and leaves the prefix and then the first line. *)
Lemma strtok_lines_spec fuel s pre :
  no_nul s -> (length s < fuel)%nat ->
  exists suffix,
    ('(line, t) ← strtok_at LF (length pre) (pre ++ s ++ [NUL]); strtok_lines fuel line t) =
    Ok (to_string <$> lines s, pre ++ first_line s ++ NUL :: suffix).
Proof.
  revert s pre. induction fuel as [|fuel IH]; [lia|]. intros s pre Hnul Hfuel.
  destruct (text_views s) as [Hlf Hl|nls a tok s' -> Hlf Htok Hl|nls a tok -> Hlf Htok Hl]; rewrite Hl.
  - exists []. rewrite strtok_at_none by done.
    by rewrite <- (app_nil_r s) at 2; rewrite first_line_lf, app_nil_r.
  - apply no_nul_app in Hnul as [_ [Hat [_ Hs']%Forall_cons]%no_nul_app].
    rewrite strtok_at_line by (by try apply token_chars). cbn [mbind res_bind strtok_lines tok_buf].
    rewrite cstr_at_line by done. cbn [mbind res_bind]. rewrite strtok_resume.
    destruct (IH s' ((pre ++ nls) ++ (a :: tok) ++ [NUL]) Hs') as (suffix & Heq).
    { rewrite !length_app in Hfuel. cbn in Hfuel. lia. }
    exists (first_line s' ++ NUL :: suffix).
    destruct (strtok_at _ _ _) as [[line t]| |]; try done. cbn [mbind res_bind] in Heq |- *.
    rewrite Heq. cbn [mbind res_bind]. rewrite first_line_lf, first_line_token by done.
    rewrite <- !app_assoc. done.
  - apply no_nul_app in Hnul as [_ Hat].
    rewrite strtok_at_last_line by (by try apply token_chars). cbn [mbind res_bind strtok_lines tok_buf].
    rewrite cstr_at_line by done. cbn [mbind res_bind strtok tok_save].
    destruct fuel as [|fuel]; [rewrite !length_app in Hfuel; cbn in Hfuel; lia|].
    exists []. cbn [strtok_lines tok_buf]. rewrite first_line_lf, first_line_last by done.
    by rewrite <- !app_assoc.
Qed.

(** ** What [ui_print] prints and returns *)

Lemma chars_of_text s : chars (to_string s) = s.
Proof. unfold chars. induction s as [|c s IH]; [done|]. cbn. by f_equal. Qed.

Lemma first_line_no_nul s : no_nul s -> no_nul (first_line s).
Proof.
  intros Hnul. destruct (text_views s) as [Hlf Hl|nls a tok s' -> Hlf Htok Hl|nls a tok -> Hlf Htok Hl].
  - rewrite <- (app_nil_r s), first_line_lf by done. by rewrite app_nil_r.
  - rewrite first_line_lf, first_line_token by done. rewrite !no_nul_app in *. tauto.
  - by rewrite first_line_lf, first_line_last by done.
Qed.

Lemma ui_print_scan_spec s :
  no_nul s -> ui_print_scan (to_string s) = Ok (to_string <$> lines s, to_string (first_line s)).
Proof.
  intros Hnul. unfold ui_print_scan. rewrite chars_of_text. cbv zeta.
  rewrite length_app, Nat.add_1_r, strtok_first. cbn [app length].
  destruct (strtok_lines_spec (S (S (length s))) s [] Hnul ltac:(lia)) as (suffix & Hspec).
  cbn [app length] in Hspec. destruct (strtok_at _ _ _) as [[line t]| |]; try done.
  cbn [mbind res_bind] in Hspec |- *. rewrite Hspec. cbn [mbind res_bind].
  unfold cstr_at. rewrite drop_0, cstr_run by (by apply first_line_no_nul). done.
Qed.

(** ** The configuration file *)

Lemma trim_right_snoc l c :
  trim_right (l ++ [c]) = if isspace c then trim_right l else l ++ [c].
Proof.
  unfold trim_right. rewrite reverse_snoc. cbn [drop_spaces].
  destruct (isspace c); [done|]. by rewrite reverse_cons, reverse_involutive.
Qed.

Lemma trim_right_prefix l : exists t, l = trim_right l ++ t.
Proof.
  induction l as [|c l (t & IH)] using rev_ind; [by exists []|]. rewrite trim_right_snoc.
  destruct (isspace c); [|by exists []; rewrite app_nil_r]. exists (t ++ [c]).
  by rewrite app_assoc, <- IH.
Qed.

Definition starts_text (l : text) : Prop :=
  match l with c :: _ => isspace c = false | [] => True end.

Lemma drop_spaces_starts l : starts_text (drop_spaces l).
Proof. induction l as [|c l IH]; [done|]. cbn. destruct (isspace c) eqn:Hc; [done|]. by cbn. Qed.

Lemma drop_spaces_split l :
  exists sp, l = sp ++ drop_spaces l /\ Forall (fun c => isspace c = true) sp.
Proof.
  induction l as [|c l (sp & IH & Hsp)]; [by exists []|]. cbn [drop_spaces].
  destruct (isspace c) eqn:Hc; [|by exists []]. exists (c :: sp). split; [cbn; by f_equal|by constructor].
Qed.

Lemma trim_end_spec pre l rest :
  starts_text l ->
  trim_end (pre ++ l ++ rest) (length pre) (length pre + length l) = Ok (length pre + length (trim_right l))%nat.
Proof.
  revert rest. induction l as [|c l IH] using rev_ind; intros rest Hl.
  { cbn [length]. unfold trim_right. cbn. rewrite Nat.add_0_r. destruct (length pre) as [|n] eqn:Hn; [done|].
    cbn [trim_end]. by replace (S n <? n)%nat with false by lia. }
  rewrite length_app. cbn [length]. rewrite Nat.add_1_r, Nat.add_succ_r. cbn [trim_end].
  rewrite trim_right_snoc, <- app_assoc.
  assert ((pre ++ l ++ [c] ++ rest) !! (length pre + length l)%nat = Some c) as ->.
  { rewrite app_assoc, <- length_app. by apply list_lookup_middle. }
  destruct l as [|a l].
  - rewrite Nat.add_0_r. replace (length pre <? length pre)%nat with false by lia. cbn in Hl |- *.
    rewrite Hl. cbn. f_equal. lia.
  - rewrite (proj2 (Nat.ltb_lt _ _)) by (cbn; lia).
    destruct (isspace c); [by apply IH|]. rewrite length_app. f_equal. cbn. lia.
Qed.

(** Cutting the array after the part of [l] that [trim_right] keeps. *)
Lemma terminate_spec pre l x rest :
  exists junk, (length (trim_right l) + length junk = length l)%nat /\
    terminate (pre ++ l ++ x :: rest) (length pre + length (trim_right l)) =
    Ok (pre ++ trim_right l ++ NUL :: junk ++ rest).
Proof.
  destruct (trim_right_prefix l) as (t & Ht).
  assert (exists y junk, t ++ [x] = y :: junk) as (y & junk & Hy) by (destruct t; by eexists _, _).
  assert (l ++ x :: rest = trim_right l ++ y :: junk ++ rest) as Heq.
  { rewrite Ht at 1. rewrite <- app_assoc. change (x :: rest) with ([x] ++ rest).
    rewrite (app_assoc t), Hy. done. }
  exists junk. split.
  { rewrite Ht at 2. rewrite length_app. apply (f_equal length) in Hy.
    rewrite length_app in Hy. cbn in Hy. lia. }
  rewrite Heq. unfold terminate. rewrite app_assoc, !length_app. cbn [length].
  rewrite (proj2 (Nat.ltb_lt _ _)) by lia.
  rewrite <- length_app. rewrite insert_app_r_alt, Nat.sub_diag by done. by rewrite <- app_assoc.
Qed.

Lemma trim_right_no_nul l : no_nul l -> no_nul (trim_right l).
Proof.
  intros Hl. destruct (trim_right_prefix l) as (t & Ht). rewrite Ht in Hl.
  by apply no_nul_app in Hl as [? _].
Qed.

Lemma split_equal_some l k v :
  split_equal l = Some (k, v) -> l = k ++ "="%char :: v /\ Forall (fun c => c <> "="%char) k.
Proof.
  revert k. induction l as [|c l IH]; intros k; [done|]. cbn [split_equal].
  destruct (decide (c = "="%char)) as [->|Hc]; [by intros [= <- <-]|].
  destruct (split_equal l) as [[k' v']|] eqn:Hl; [|done]. cbn. intros [= <- <-].
  destruct (IH k' eq_refl) as [-> Hk]. split; [done|by constructor].
Qed.

Lemma split_equal_none l : split_equal l = None -> Forall (fun c => c <> "="%char) l.
Proof.
  induction l as [|c l IH]; [done|]. cbn [split_equal].
  destruct (decide (c = "="%char)) as [->|Hc]; [done|].
  destruct (split_equal l) as [[k' v']|]; [done|]. constructor; [done|by apply IH].
Qed.

(** The scan for an equal sign, over a run without one. *)
Lemma span_to_equal run c rest :
  Forall (fun a => a <> "="%char) run -> no_nul run -> c = "="%char \/ c = NUL ->
  span_at (fun c => negb (bool_decide (c = "="%char)) && negb (bool_decide (c = NUL)))
    (run ++ c :: rest) = Ok (length run).
Proof.
  intros He Hn Hc. apply span_at_run.
  - rewrite Forall_forall in He. unfold no_nul in Hn. rewrite Forall_forall in Hn |- *.
    intros a Ha. specialize (He a Ha). specialize (Hn a Ha).
    by rewrite !bool_decide_eq_false_2.
  - by destruct Hc as [->| ->].
Qed.

(** The scan over blanks stops at a text or at the terminator. *)
Lemma span_spaces sp l rest :
  Forall (fun c => isspace c = true) sp -> starts_text l ->
  span_at isspace (sp ++ l ++ NUL :: rest) = Ok (length sp).
Proof. intros Hsp Hl. destruct l as [|c l]; by apply span_at_run. Qed.

Lemma length_to_string l : String.length (to_string l) = length l.
Proof. induction l as [|c l IH]; [done|]. cbn. by f_equal. Qed.

(** The value after it. *)
Lemma cfg_value pre v post :
  no_nul v ->
  exists b,
    (skip ← span_at isspace (drop (length pre) (pre ++ v ++ NUL :: post));
     let val_start := (length pre + skip)%nat in
     v' ← cstr_at (pre ++ v ++ NUL :: post) val_start;
     val_stop ← trim_end (pre ++ v ++ NUL :: post) val_start (val_start + String.length v');
     b ← terminate (pre ++ v ++ NUL :: post) val_stop;
     s ← cstr_at b val_start; Ok (CfgValue s, b)) =
    Ok (CfgValue (to_string (trim_right (drop_spaces v))), b).
Proof.
  intros Hnul. destruct (drop_spaces_split v) as (sp & Hv & Hsp).
  pose proof (drop_spaces_starts v) as Hstart. set (w := drop_spaces v) in *. clearbody w.
  subst v. apply no_nul_app in Hnul as [_ Hw]. rewrite drop_app_length, <- app_assoc, span_spaces by done.
  cbn [mbind res_bind]. cbv zeta. rewrite app_assoc, <- length_app, cstr_at_line by done.
  cbn [mbind res_bind]. rewrite length_to_string, trim_end_spec by done. cbn [mbind res_bind].
  destruct (terminate_spec (pre ++ sp) w NUL post) as (junk & _ & ->). cbn [mbind res_bind].
  rewrite cstr_at_line by (by apply trim_right_no_nul). by eexists.
Qed.

(** One line, in an array where it ends with a terminator. *)
Lemma cfg_at_spec key pre line post :
  no_nul line ->
  exists b,
    cfg_at key (pre ++ line ++ NUL :: post) (length pre) = Ok (cfg_entry key line, b) /\
    (cfg_entry key line = CfgSkip ->
     exists mid, length mid = length line /\ b = pre ++ mid ++ NUL :: post).
Proof.
  intros Hnul. unfold cfg_at, cfg_entry. destruct (drop_spaces_split line) as (sp & Hline & Hsp).
  pose proof (drop_spaces_starts line) as Hstart. set (l := drop_spaces line) in *. clearbody l. subst line.
  apply no_nul_app in Hnul as [_ Hl].
  rewrite drop_app_length, <- app_assoc, span_spaces by done. cbn [mbind res_bind]. cbv zeta.
  assert (forall (r : cfg_line), exists b, Ok (r, pre ++ sp ++ l ++ NUL :: post) = Ok (r, b) /\
            (r = CfgSkip -> exists mid, length mid = length (sp ++ l) /\ b = pre ++ mid ++ NUL :: post))
    as Hsame.
  { intros r. eexists. split; [done|]. intros _. exists (sp ++ l). by rewrite <- app_assoc. }
  rewrite (app_assoc pre), <- length_app. destruct l as [|c l].
  { cbn [app]. rewrite list_lookup_middle by done. rewrite decide_True by (by left).
    rewrite <- app_assoc. apply Hsame. }
  cbn [app]. rewrite list_lookup_middle by done. apply Forall_cons in Hl as Hl'. destruct Hl' as [Hc _].
  destruct (decide (c = "#"%char)) as [->|Hhash]; [rewrite decide_True by (by right); rewrite <- app_assoc; apply Hsame|].
  rewrite decide_False by (by intros [?|?]). rewrite drop_app_length.
  change (c :: l ++ NUL :: post) with ((c :: l) ++ NUL :: post).
  destruct (split_equal (c :: l)) as [[k v]|] eqn:Hsplit.
  - apply split_equal_some in Hsplit as [Heq Hke]. rewrite Heq in *.
    apply no_nul_app in Hl as [Hk [_ Hv]%Forall_cons].
    rewrite <- (app_assoc k), <- app_comm_cons.
    rewrite span_to_equal by (done || by left). cbn [mbind res_bind]. cbv zeta.
    rewrite (app_assoc (pre ++ sp) k), <- length_app, list_lookup_middle by done.
    assert (starts_text k) as Hk' by (destruct k; [done|by apply Hstart]).
    rewrite decide_False by done.
    rewrite length_app, <- app_assoc, trim_end_spec by done. cbn [mbind res_bind].
    destruct (terminate_spec (pre ++ sp) k "="%char (v ++ NUL :: post)) as (junk & Hjunk & ->).
    cbn [mbind res_bind]. rewrite cstr_at_line by (by apply trim_right_no_nul). cbn [mbind res_bind].
    destruct (decide (key = _)) as [->|Hkey].
    + set (pre2 := (pre ++ sp) ++ trim_right k ++ NUL :: junk).
      replace ((pre ++ sp) ++ trim_right k ++ NUL :: junk ++ v ++ NUL :: post)
        with (pre2 ++ v ++ NUL :: post) by (unfold pre2; by rewrite <- !app_assoc).
      replace (S (length (pre ++ sp) + length k)) with (length pre2)
        by (unfold pre2; rewrite !length_app; cbn [length]; lia).
      destruct (cfg_value pre2 v post Hv) as (b & Hb). exists b. split; [exact Hb|done].
    + eexists. split; [done|]. intros _. exists (sp ++ trim_right k ++ NUL :: junk ++ v).
      split; [rewrite !length_app; cbn; rewrite !length_app; cbn; lia|].
      rewrite <- !app_assoc. cbn. by rewrite <- !app_assoc.
  - rewrite span_to_equal by (by try apply split_equal_none; auto). cbn [mbind res_bind]. cbv zeta.
    rewrite app_assoc, <- length_app, list_lookup_middle by done. rewrite decide_True by done.
    rewrite <- app_assoc, cstr_at_line by done. cbn [mbind res_bind].
    rewrite <- app_assoc. apply Hsame.
Qed.

Lemma cfg_loop_spec key fuel s pre :
  no_nul s -> (length s < fuel)%nat ->
  ('(line, t) ← strtok_at LF (length pre) (pre ++ s ++ [NUL]);
   match line with None => Ok CfgSkip | Some p => cfg_loop fuel key p t end) =
  Ok (cfg_lookup key (lines s)).
Proof.
  revert s pre. induction fuel as [|fuel IH]; [lia|]. intros s pre Hnul Hfuel.
  destruct (text_views s) as [Hlf Hl|nls a tok s' -> Hlf Htok Hl|nls a tok -> Hlf Htok Hl]; rewrite Hl.
  - by rewrite strtok_at_none.
  - apply no_nul_app in Hnul as [_ [Hat [_ Hs']%Forall_cons]%no_nul_app].
    rewrite strtok_at_line by (by try apply token_chars). cbn [mbind res_bind cfg_loop tok_buf tok_save].
    destruct (cfg_at_spec key (pre ++ nls) (a :: tok) (s' ++ [NUL]) Hat) as (b & -> & Hmid).
    cbn [mbind res_bind cfg_lookup].
    destruct (cfg_entry key (a :: tok)); [|done|done].
    destruct (Hmid eq_refl) as (mid & Hlen & ->). rewrite <- Hlen, strtok_resume.
    apply IH; [done|]. rewrite !length_app in Hfuel. cbn in Hfuel. lia.
  - apply no_nul_app in Hnul as [_ Hat].
    rewrite strtok_at_last_line by (by try apply token_chars).
    cbn [mbind res_bind cfg_loop tok_buf tok_save].
    destruct (cfg_at_spec key (pre ++ nls) (a :: tok) [] Hat) as (b & -> & Hmid).
    cbn [mbind res_bind cfg_lookup]. by destruct (cfg_entry key (a :: tok)).
Qed.

(** The first call of [strtok] finds no line exactly when there is none. *)
Lemma cfg_scan_spec key s :
  no_nul s ->
  cfg_scan key (s ++ [NUL]) =
  match lines s with [] => Err NullDeref | ls => Ok (cfg_lookup key ls) end.
Proof.
  intros Hnul. unfold cfg_scan. rewrite length_app, Nat.add_1_r, strtok_first.
  pose proof (cfg_loop_spec key (S (S (length s))) s [] Hnul ltac:(lia)) as Hloop.
  cbn [app] in Hloop |- *.
  destruct (text_views s) as [Hlf Hl|nls a tok s' -> Hlf Htok Hl|nls a tok -> Hlf Htok Hl].
  - pose proof (strtok_at_none LF [] s Hlf ltac:(done)) as Hn. cbn [app] in Hn. by rewrite Hn, Hl.
  - apply no_nul_app in Hnul as [_ [Hat _]%no_nul_app].
    pose proof (strtok_at_line [] nls a tok s' Hlf ltac:(by apply token_chars)) as Hn.
    cbn [app] in Hn. rewrite Hl in *. cbn [app] in Hloop |- *. rewrite Hn in Hloop |- *. exact Hloop.
  - apply no_nul_app in Hnul as [_ Hat].
    pose proof (strtok_at_last_line [] nls a tok Hlf ltac:(by apply token_chars)) as Hn.
    cbn [app] in Hn. rewrite Hl in *. cbn [app] in Hloop |- *. rewrite Hn in Hloop |- *. exact Hloop.
Qed.

(** ** Theorems *)

Section properties.
Context {W : Type} `{!InstallOs W}.
Local Abbreviation State := (State UpdaterInfo W).
Local Abbreviation Arg := (Arg UpdaterInfo W).

(** Reading a single argument. *)
Lemma ReadArgs_one (a : Arg) (st0 st : State) s :
  eval a st0 = Ok (Some s, st) -> ReadArgs [a] 1 st0 = Ok (Some [s], st).
Proof. intros H. unfold ReadArgs, read_args, eval_arg, mbind, M_bind. cbn. by rewrite H. Qed.

Lemma bind_ok_step {A B} (m : M UpdaterInfo W A) (f : A -> M UpdaterInfo W B) st a st' :
  m st = Ok (a, st') -> (m ≫= f) st = f a st'.
Proof. intros H. unfold mbind, M_bind. by rewrite H. Qed.

(** C13. [getcfg] looks the key up in the configuration file: the value of its
    first line, blanks around key and value removed, or the empty string; a line
    without an equal sign before it aborts the script.  A file with no line at all
    (empty, or line feeds only) makes it dereference a null pointer. *)
Theorem GetCfgFn_correct name (a : Arg) (st0 st : State) key content :
  eval a st0 = Ok (Some key, st) ->
  os_stat cfg_filename (world st) = Some (Z.of_nat (length content)) ->
  os_fopen cfg_filename (world st) = Some content ->
  Z.of_nat (length content) <= MAX_FILE_GETPROP_SIZE -> no_nul content ->
  GetCfgFn name [a] st0 =
  match lines content with
  | [] => Err NullDeref
  | ls =>
      match cfg_lookup key ls with
      | CfgValue v => Ok (Some v, st)
      | CfgSkip => Ok (Some ""%string, st)
      | CfgMalformed l =>
          ErrorAbort (name +:+ ": malformed line " +:+ quote l +:+ ": " +:+ cfg_filename +:+
                      " not a prop file?") st
      end
  end.
Proof.
  intros Ha Hstat Hopen Hsize Hnul. unfold GetCfgFn.
  rewrite (bind_ok_step _ _ _ _ _ (ReadArgs_one a st0 st key Ha)).
  rewrite (bind_ok_step _ _ st (os_stat cfg_filename (world st)) st) by done. rewrite Hstat.
  rewrite (proj2 (Z.ltb_ge _ _)) by done.
  rewrite (bind_ok_step _ _ st (os_fopen cfg_filename (world st)) st) by done. rewrite Hopen.
  rewrite (proj2 (Z.ltb_ge _ _)) by lia.
  rewrite Nat2Z.id, firstn_all, cfg_scan_spec by done.
  destruct (lines content) as [|l ls]; [done|]. unfold lift, mbind, M_bind. cbn [res_bind mbind].
  by destruct (cfg_lookup key (l :: ls)).
Qed.

(** [ui_print] sends every non-empty line of the text of its arguments to the
    parent process, then an empty command; its result, the array [strtok] has
    cut, is the text only up to the end of its first line. *)
Theorem UIPrintFn_correct name (argv : list Arg) (st0 st : State) args u text :
  ReadVarArgs (length argv) argv st0 = Ok (Some args, st) -> cookie st = Some u ->
  fold_right String.append "" args = to_string text -> no_nul text ->
  UIPrintFn name argv st0 =
  Ok (Some (to_string (first_line text)),
      set_world
        (fold_left (fun w line => os_fputs (cmd_pipe u) line w)
           (map (fun l => "ui_print " +:+ to_string l +:+ str_lf) (lines text) ++
            ["ui_print" +:+ str_lf]) (world st)) st).
Proof.
  intros Hargs Hu Htext Hnul. unfold UIPrintFn. rewrite (bind_ok_step _ _ _ _ _ Hargs).
  rewrite Htext, ui_print_scan_spec by done. unfold lift, mbind, M_bind.
  cbn [res_bind mbind]. unfold ui, get_state, mbind, M_bind. rewrite Hu. cbn [mret M_ret].
  assert (forall ls st, ui_print_lines (cmd_pipe u) (to_string <$> ls) st =
            Ok (tt, set_world (fold_left (fun w line => os_fputs (cmd_pipe u) line w)
                      (map (fun l => "ui_print " +:+ to_string l +:+ str_lf) ls) (world st)) st)) as Hprint.
  { intros ls. induction ls as [|l ls IH]; intros [c sc e w]; [done|].
    cbn [fmap list_fmap ui_print_lines map fold_left]. unfold fputs, on_world, mbind, M_bind.
    rewrite IH. done. }
  unfold M_ret. rewrite Hprint. cbn. unfold fputs, on_world. rewrite fold_left_app. by destruct st.
Qed.

(** C14. The whitelist command does not fit its buffer: as soon as the first line
    of the file holds a word of seven characters or more -- a MAC address has 17 --
    [sprintf] writes past the 100 bytes of [command]. *)
Theorem WhiteListMacsFn_overflows name (a : Arg) (st0 st : State) filename macs line rest mac tail :
  eval a st0 = Ok (Some filename, st) -> os_fopen filename (world st) = Some macs ->
  fgets 20 macs = Some (line, rest) -> scan_word line = Some (mac, tail) ->
  (7 <= String.length mac)%nat ->
  WhiteListMacsFn name [a] st0 = Err OutOfBounds.
Proof.
  intros Ha Hopen Hline Hword Hmac. unfold WhiteListMacsFn, with_arg. cbn [length Nat.eqb negb].
  rewrite (bind_ok_step _ _ _ _ _ (ReadArgs_one a st0 st filename Ha)).
  unfold file_exists, get_world, mret, M_ret, mbind, M_bind. rewrite Hopen. cbn [Z.eqb].
  rewrite Hopen. cbn [whitelist_loop]. rewrite Hline. cbn [Z.eqb]. rewrite Hword.
  unfold mbind, M_bind, lift, whitelist_command.
  rewrite (proj2 (Nat.leb_le _ _)); [done|]. rewrite !length_str_app. cbn. lia.
Qed.
End properties.

(** ** Witnesses *)

Definition ex_arg (s : string) : Arg UpdaterInfo sim := mkArg (mret (Some s)) 0 0.

Definition ex_file : string :=
  "# radio" +:+ str_lf +:+ str_lf +:+ "  wifi.channel  = 11 " +:+ str_lf +:+ "wifi.channel=6" +:+ str_lf.

Lemma GetCfgFn_correct_witness :
  GetCfgFn "getcfg" [ex_arg "wifi.channel"] (sim_state [(cfg_filename, ex_file)]) =
    Ok (Some "11"%string, sim_state [(cfg_filename, ex_file)]) /\
  GetCfgFn "getcfg" [ex_arg "wifi.channel"] (sim_state [(cfg_filename, str_lf)]) = Err NullDeref.
Proof.
  split.
  - pose proof (GetCfgFn_correct "getcfg" (ex_arg "wifi.channel") (sim_state [(cfg_filename, ex_file)])
      (sim_state [(cfg_filename, ex_file)]) "wifi.channel" (chars ex_file) eq_refl
      ltac:(by vm_compute) ltac:(by vm_compute) ltac:(by vm_compute)
      ltac:(apply (bool_decide_unpack _); by vm_compute)) as H.
    etrans; [exact H|]. by vm_compute.
  - exact (GetCfgFn_correct "getcfg" (ex_arg "wifi.channel") (sim_state [(cfg_filename, str_lf)])
      (sim_state [(cfg_filename, str_lf)]) "wifi.channel" (chars str_lf) eq_refl
      ltac:(by vm_compute) ltac:(by vm_compute) ltac:(by vm_compute)
      ltac:(apply (bool_decide_unpack _); by vm_compute)).
Defined.

Lemma UIPrintFn_correct_witness :
  exists st', UIPrintFn "ui_print" [ex_arg "one "; ex_arg ("two" +:+ str_lf +:+ "three")] (sim_state []) =
    Ok (Some "one two"%string, st') /\
    sim_log (world st') = ["ui_print" +:+ str_lf; "ui_print three" +:+ str_lf; "ui_print one two" +:+ str_lf].
Proof.
  eexists. split.
  - etrans; [refine (UIPrintFn_correct "ui_print" [ex_arg "one "; ex_arg ("two" +:+ str_lf +:+ "three")]
      (sim_state []) (sim_state []) ["one "; "two" +:+ str_lf +:+ "three"]%string
      (mkUpdaterInfo CmdPipe (Some LogFd) "start") (chars ("one two" +:+ str_lf +:+ "three")) _ _ _ _)|].
    + by vm_compute.
    + done.
    + by vm_compute.
    + apply (bool_decide_unpack _); by vm_compute.
    + by vm_compute.
  - by vm_compute.
Defined.

Lemma WhiteListMacsFn_overflows_witness :
  WhiteListMacsFn "whitelist_macs" [ex_arg "macs"]
    (sim_state [("macs", "00:11:22:33:44:55" +:+ str_lf)]%string) = Err OutOfBounds.
Proof.
  apply (WhiteListMacsFn_overflows "whitelist_macs" (ex_arg "macs") _
           (sim_state [("macs", "00:11:22:33:44:55" +:+ str_lf)]%string) "macs"
           (chars ("00:11:22:33:44:55" +:+ str_lf)) ("00:11:22:33:44:55" +:+ str_lf) []
           "00:11:22:33:44:55" str_lf); [by vm_compute..|cbn; lia].
Defined.
