(* ===== verification/BasicOps.v ===== *)
(** * The fixed-point basic operators

    [jni/bx16_fixedp/itug191lib/basop32.c]: the 16- and 32-bit saturating
    operators of the speech codec, with their two global flags.  A [Word16] is a
    [Z] between -2^15 and 2^15 - 1, a [Word32] one between -2^31 and 2^31 - 1.
    An operator is a computation on the flags that may end the program ([abort],
    [exit]): [op].  The source detects the overflow of [L_add] and the like on
    the sum it has already computed, so signed arithmetic is taken to wrap. *)

From stdpp Require Import base list.
From Stdlib Require Import ZArith Lia ZifyBool.
From S2P Require Import Prelude.

Open Scope Z_scope.

(** ** Flags and operators *)

Record flags := Flags { Overflow : bool; Carry : bool }.

(** [None]: the program has ended. *)
Definition op (A : Type) : Type := flags -> option (A * flags).

#[export] Instance op_ret : MRet op := fun A a f => Some (a, f).
#[export] Instance op_bind : MBind op := fun A B k m f =>
  match m f with
  | Some (a, f') => k a f'
  | None => None
  end.

Definition set_overflow : op unit := fun f => Some (tt, Flags true (Carry f)).
Definition get_flags : op flags := fun f => Some (f, f).
Definition put_flags (f : flags) : op unit := fun _ => Some (tt, f).
Definition ends {A} : op A := fun _ => None.

Definition MAX_16 : Z := 32767.
Definition MIN_16 : Z := -32768.
Definition MAX_32 : Z := INT32_MAX.
Definition MIN_32 : Z := INT32_MIN.

(** ** 16-bit operators *)

Definition extract_h (L_var1 : Z) : Z := s16 (Z.shiftr L_var1 16).
Definition extract_l (L_var1 : Z) : Z := s16 L_var1.

Definition saturate (L_var1 : Z) : op Z :=
  if MAX_16 <? L_var1 then set_overflow;; mret MAX_16
  else if L_var1 <? MIN_16 then set_overflow;; mret MIN_16
  else mret (extract_l L_var1).

Definition add (var1 var2 : Z) : op Z := saturate (var1 + var2).
Definition sub (var1 var2 : Z) : op Z := saturate (var1 - var2).

Definition abs_s (var1 : Z) : Z :=
  if var1 =? MIN_16 then MAX_16 else if var1 <? 0 then - var1 else var1.
Definition negate (var1 : Z) : Z := if var1 =? MIN_16 then MAX_16 else - var1.

(** The branches of [shl] and [shr] for a count that is not negative; the other
    branch of each calls the other function with such a count.  A shift of 1 by
    32 or more is only computed for a value the result does not depend on. *)
Definition shl_up (var1 var2 : Z) : op Z :=
  let result := s32 (var1 * s32 (Z.shiftl 1 var2)) in
  if ((15 <? var2) && negb (var1 =? 0)) || negb (result =? s16 result) then
    set_overflow;; mret (if 0 <? var1 then MAX_16 else MIN_16)
  else mret (extract_l result).

Definition shr_down (var1 var2 : Z) : Z :=
  if 15 <=? var2 then (if var1 <? 0 then -1 else 0)
  else if var1 <? 0 then Z.lnot (Z.shiftr (Z.lnot var1) var2)
  else Z.shiftr var1 var2.

Definition shl (var1 var2 : Z) : op Z :=
  if var2 <? 0 then
    let var2 := if var2 <? -16 then -16 else var2 in
    mret (shr_down var1 (- var2))
  else shl_up var1 var2.

Definition shr (var1 var2 : Z) : op Z :=
  if var2 <? 0 then
    let var2 := if var2 <? -16 then -16 else var2 in
    shl_up var1 (- var2)
  else mret (shr_down var1 var2).

(** The sign extension that [mult] and [mult_r] share. *)
Definition sign_extend (L_product : Z) : Z :=
  if Z.land L_product 65536 =? 0 then L_product else Z.lor L_product (-65536).

Definition mult (var1 var2 : Z) : op Z :=
  let L_product := var1 * var2 in
  let L_product := Z.shiftr (Z.land L_product (-32768)) 15 in
  saturate (sign_extend L_product).

Definition mult_r (var1 var2 : Z) : op Z :=
  let L_product_arr := var1 * var2 in
  let L_product_arr := s32 (L_product_arr + 16384) in
  let L_product_arr := Z.land L_product_arr (-32768) in
  let L_product_arr := Z.shiftr L_product_arr 15 in
  saturate (sign_extend L_product_arr).

Definition shr_r (var1 var2 : Z) : op Z :=
  if 15 <? var2 then mret 0
  else
    var_out ← shr var1 var2;
    if (0 <? var2) && negb (Z.land var1 (Z.shiftl 1 (var2 - 1)) =? 0)
    then mret (s16 (var_out + 1)) else mret var_out.

Definition i_mult (a b : Z) : op Z := saturate (a * b).

(** The loop of [norm_s] (15 doublings at most) and of [norm_l] (31). *)
Fixpoint norm_loop (fuel : nat) (w limit var1 var_out : Z) : Z :=
  match fuel with
  | O => var_out
  | S fuel =>
      if var1 <? limit then norm_loop fuel w limit (wrap_s w (Z.shiftl var1 1)) (var_out + 1)
      else var_out
  end.

Definition norm_s (var1 : Z) : Z :=
  if var1 =? 0 then 0
  else if var1 =? -1 then 15
  else norm_loop 15 16 16384 (if var1 <? 0 then Z.lnot var1 else var1) 0.

Definition norm_l (L_var1 : Z) : Z :=
  if L_var1 =? 0 then 0
  else if L_var1 =? -1 then 31
  else norm_loop 31 32 1073741824 (if L_var1 <? 0 then Z.lnot L_var1 else L_var1) 0.

(** ** 32-bit operators *)

Definition L_add (L_var1 L_var2 : Z) : op Z :=
  let L_var_out := s32 (L_var1 + L_var2) in
  if (Z.land (Z.lxor L_var1 L_var2) MIN_32 =? 0) &&
     negb (Z.land (Z.lxor L_var_out L_var1) MIN_32 =? 0) then
    set_overflow;; mret (if L_var1 <? 0 then MIN_32 else MAX_32)
  else mret L_var_out.

Definition L_sub (L_var1 L_var2 : Z) : op Z :=
  let L_var_out := s32 (L_var1 - L_var2) in
  if negb (Z.land (Z.lxor L_var1 L_var2) MIN_32 =? 0) &&
     negb (Z.land (Z.lxor L_var_out L_var1) MIN_32 =? 0) then
    set_overflow;; mret (if L_var1 <? 0 then MIN_32 else MAX_32)
  else mret L_var_out.

Definition L_mult (var1 var2 : Z) : op Z :=
  let L_var_out := var1 * var2 in
  if L_var_out =? 1073741824 then set_overflow;; mret MAX_32 else mret (L_var_out * 2).

Definition L_mult0 (var1 var2 : Z) : Z := var1 * var2.

Definition L_mac (L_var3 var1 var2 : Z) : op Z :=
  L_product ← L_mult var1 var2; L_add L_var3 L_product.
Definition L_msu (L_var3 var1 var2 : Z) : op Z :=
  L_product ← L_mult var1 var2; L_sub L_var3 L_product.
Definition L_mac0 (L_var3 var1 var2 : Z) : op Z := L_add L_var3 (L_mult0 var1 var2).
Definition L_msu0 (L_var3 var1 var2 : Z) : op Z := L_sub L_var3 (L_mult0 var1 var2).

Definition intround (L_var1 : Z) : op Z :=
  L_rounded ← L_add L_var1 32768; mret (extract_h L_rounded).

Definition mac_r (L_var3 var1 var2 : Z) : op Z :=
  L_var3 ← L_mac L_var3 var1 var2; L_var3 ← L_add L_var3 32768; mret (extract_h L_var3).
Definition msu_r (L_var3 var1 var2 : Z) : op Z :=
  L_var3 ← L_msu L_var3 var1 var2; L_var3 ← L_add L_var3 32768; mret (extract_h L_var3).

Definition L_negate (L_var1 : Z) : Z := if L_var1 =? MIN_32 then MAX_32 else - L_var1.
Definition L_abs (L_var1 : Z) : Z :=
  if L_var1 =? MIN_32 then MAX_32 else if L_var1 <? 0 then - L_var1 else L_var1.

Definition L_deposit_h (var1 : Z) : Z := s32 (Z.shiftl var1 16).
Definition L_deposit_l (var1 : Z) : Z := var1.

Fixpoint L_shl_loop (var2 : nat) (L_var1 L_var_out : Z) : op Z :=
  match var2 with
  | O => mret L_var_out
  | S var2 =>
      if 1073741823 <? L_var1 then set_overflow;; mret MAX_32
      else if L_var1 <? -1073741824 then set_overflow;; mret MIN_32
      else L_shl_loop var2 (L_var1 * 2) (L_var1 * 2)
  end.

Definition L_shr_down (L_var1 var2 : Z) : Z :=
  if 31 <=? var2 then (if L_var1 <? 0 then -1 else 0)
  else if L_var1 <? 0 then Z.lnot (Z.shiftr (Z.lnot L_var1) var2)
  else Z.shiftr L_var1 var2.

Definition L_shl (L_var1 var2 : Z) : op Z :=
  if var2 <=? 0 then
    let var2 := if var2 <? -32 then -32 else var2 in
    mret (L_shr_down L_var1 (- var2))
  else L_shl_loop (Z.to_nat var2) L_var1 0.

Definition L_shr (L_var1 var2 : Z) : op Z :=
  if var2 <? 0 then
    let var2 := if var2 <? -32 then -32 else var2 in
    L_shl_loop (Z.to_nat (- var2)) L_var1 0
  else mret (L_shr_down L_var1 var2).

Definition L_shr_r (L_var1 var2 : Z) : op Z :=
  if 31 <? var2 then mret 0
  else
    L_var_out ← L_shr L_var1 var2;
    if (0 <? var2) && negb (Z.land L_var1 (Z.shiftl 1 (var2 - 1)) =? 0)
    then mret (s32 (L_var_out + 1)) else mret L_var_out.

Definition L_mls (Lv v : Z) : op Z :=
  let Temp := Z.land Lv 65535 in
  let Temp := s32 (Temp * v) in
  Temp ← L_shr Temp 15;
  L_mac Temp v (extract_h Lv).

(** *** Addition and subtraction with carry *)

(** The flags after [L_add_c], before the carry that comes in is looked at. *)
Definition add_c_test (L_var1 L_var2 L_test : Z) : bool * bool :=
  if (0 <? L_var1) && (0 <? L_var2) && (L_test <? 0) then (true, false)
  else if (L_var1 <? 0) && (L_var2 <? 0) then
    if 0 <=? L_test then (true, true) else (false, true)
  else if (Z.lxor L_var1 L_var2 <? 0) && (0 <=? L_test) then (false, true)
  else (false, false).

Definition L_add_c (L_var1 L_var2 : Z) : op Z := fun f =>
  let L_var_out := s32 (L_var1 + L_var2 + Z.b2z (Carry f)) in
  let L_test := s32 (L_var1 + L_var2) in
  let '(overflow, carry_int) := add_c_test L_var1 L_var2 L_test in
  Some (L_var_out,
        if Carry f then
          if L_test =? MAX_32 then Flags true carry_int
          else if L_test =? -1 then Flags overflow true
          else Flags overflow carry_int
        else Flags overflow carry_int).

Definition L_sub_c (L_var1 L_var2 : Z) : op Z := fun f =>
  if Carry f then
    let f := Flags (Overflow f) false in
    if negb (L_var2 =? MIN_32) then L_add_c L_var1 (- L_var2) f
    else
      let L_var_out := s32 (L_var1 - L_var2) in
      Some (L_var_out, if 0 <? L_var1 then Flags true false else f)
  else
    let L_var_out := s32 (L_var1 - L_var2 - 1) in
    let L_test := s32 (L_var1 - L_var2) in
    let '(overflow, carry_int) :=
      if (L_test <? 0) && (0 <? L_var1) && (L_var2 <? 0) then (true, false)
      else if (0 <? L_test) && (L_var1 <? 0) && (0 <? L_var2) then (true, true)
      else if (0 <? L_test) && (0 <? Z.lxor L_var1 L_var2) then (false, true)
      else (Overflow f, false) in
    Some (L_var_out, Flags (if L_test =? MIN_32 then true else overflow) carry_int).

Definition L_macNs (L_var3 var1 var2 : Z) : op Z :=
  L_var_out ← L_mult var1 var2; L_add_c L_var3 L_var_out.
Definition L_msuNs (L_var3 var1 var2 : Z) : op Z :=
  L_var_out ← L_mult var1 var2; L_sub_c L_var3 L_var_out.

Definition L_sat (L_var1 : Z) : op Z := fun f =>
  if Overflow f then Some (if Carry f then MIN_32 else MAX_32, Flags false false)
  else Some (L_var1, f).

(** *** Division *)

(** The 15 steps of [div_s]. *)
Fixpoint div_s_loop (n : nat) (var_out L_num L_denom : Z) : op Z :=
  match n with
  | O => mret var_out
  | S n =>
      let var_out := s16 (Z.shiftl var_out 1) in
      let L_num := s32 (Z.shiftl L_num 1) in
      if L_denom <=? L_num then
        L_num ← L_sub L_num L_denom;
        var_out ← add var_out 1;
        div_s_loop n var_out L_num L_denom
      else div_s_loop n var_out L_num L_denom
  end.

Definition div_s (var1 var2 : Z) : op Z :=
  if (var2 <? var1) || (var1 <? 0) || (var2 <? 0) then ends
  else if var2 =? 0 then ends
  else if var1 =? 0 then mret 0
  else if var1 =? var2 then mret MAX_16
  else div_s_loop 15 0 (L_deposit_l var1) (L_deposit_l var2).

(** The 15 steps of [div_l]. *)
Fixpoint div_l_loop (n : nat) (var_out L_num L_den : Z) : op Z :=
  match n with
  | O => mret var_out
  | S n =>
      var_out ← shl var_out 1;
      L_num ← L_shl L_num 1;
      if L_den <=? L_num then
        L_num ← L_sub L_num L_den;
        var_out ← add var_out 1;
        div_l_loop n var_out L_num L_den
      else div_l_loop n var_out L_num L_den
  end.

Definition div_l (L_num den : Z) : op Z :=
  if den =? 0 then ends
  else if (L_num <? 0) || (den <? 0) then ends
  else
    let L_den := L_deposit_h den in
    if L_den <=? L_num then mret MAX_16
    else
      L_num ← L_shr L_num 1;
      L_den ← L_shr L_den 1;
      div_l_loop 15 0 L_num L_den.

(** ** Specification: saturated arithmetic *)

Definition word16 (v : Z) : Prop := -32768 <= v <= 32767.
Definition word32 (v : Z) : Prop := -2147483648 <= v <= 2147483647.

Definition clip (lo hi v : Z) : Z := Z.max lo (Z.min hi v).

(** The value clipped to the range; [Overflow] is raised when that changes it. *)
Definition sat (lo hi v : Z) : op Z := fun f =>
  Some (clip lo hi v, Flags (Overflow f || negb (clip lo hi v =? v)) (Carry f)).
Abbreviation sat16 := (sat (-32768) 32767).
Abbreviation sat32 := (sat (-2147483648) 2147483647).

(** [v * 2^n], rounded down when [n] is negative. *)
Definition shift (v n : Z) : Z := if 0 <=? n then v * 2 ^ n else v / 2 ^ (- n).

Ltac words := unfold word16, word32, MAX_16, MIN_16, MAX_32, MIN_32, INT32_MAX, INT32_MIN in *.

Lemma sat_in lo hi v f : lo <= v <= hi -> sat lo hi v f = Some (v, f).
Proof.
  intros Hv. unfold sat, clip. rewrite Z.min_r, Z.max_r by lia. rewrite Z.eqb_refl, orb_false_r.
  by destruct f.
Qed.
Lemma sat_above lo hi v f : lo <= hi -> hi < v -> sat lo hi v f = Some (hi, Flags true (Carry f)).
Proof.
  intros Hlo Hv. unfold sat, clip. rewrite Z.min_l, Z.max_r by lia.
  rewrite (proj2 (Z.eqb_neq _ _)) by lia. by rewrite orb_true_r.
Qed.
Lemma sat_below lo hi v f : lo <= hi -> v < lo -> sat lo hi v f = Some (lo, Flags true (Carry f)).
Proof.
  intros Hlo Hv. unfold sat, clip. rewrite Z.min_r, Z.max_l by lia.
  rewrite (proj2 (Z.eqb_neq _ _)) by lia. by rewrite orb_true_r.
Qed.

(** Decides the comparisons that the context settles. *)
Ltac ltb_simpl :=
  repeat match goal with
  | |- context [?x <? ?y] =>
      first [rewrite (proj2 (Z.ltb_lt x y)) by lia | rewrite (proj2 (Z.ltb_ge x y)) by lia]
  end.

(** Splits a saturated value into its three cases. *)
Ltac sat_cases v lo hi :=
  destruct (Z.lt_ge_cases v lo); [rewrite sat_below by lia|
  destruct (Z.lt_ge_cases hi v); [rewrite sat_above by lia|rewrite sat_in by lia]].

Lemma s16_id v : word16 v -> s16 v = v.
Proof. intros H. words. apply wrap_s_id; [lia|]. cbn. lia. Qed.
Lemma s32_id v : word32 v -> s32 v = v.
Proof. intros H. words. apply wrap_s_id; [lia|]. cbn. lia. Qed.

(** One wrap-around at most. *)
Lemma s32_cases v :
  -4294967296 <= v < 4294967296 ->
  s32 v = if v <? -2147483648 then v + 4294967296
          else if 2147483647 <? v then v - 4294967296 else v.
Proof.
  intros Hv. unfold wrap_s. change (2 ^ (32 - 1)) with 2147483648. change (2 ^ 32) with 4294967296.
  destruct (Z.ltb_spec v (-2147483648)); [|destruct (Z.ltb_spec 2147483647 v)].
  - replace (v + 2147483648) with (v + 4294967296 + 2147483648 + (-1) * 4294967296) by lia.
    rewrite Z_mod_plus_full, Z.mod_small by lia. lia.
  - replace (v + 2147483648) with (v - 4294967296 + 2147483648 + 1 * 4294967296) by lia.
    rewrite Z_mod_plus_full, Z.mod_small by lia. lia.
  - rewrite Z.mod_small by lia. lia.
Qed.

(** Masking with [-2^n] drops the low bits. *)
Lemma land_minus_pow2 v n : 0 <= n -> Z.land v (- 2 ^ n) = v / 2 ^ n * 2 ^ n.
Proof.
  intros Hn. replace (- 2 ^ n) with (Z.lnot (Z.ones n)) by (rewrite Z.ones_equiv; unfold Z.lnot; lia).
  rewrite <- Z.ldiff_land, Z.ldiff_ones_r, Z.shiftl_mul_pow2, Z.shiftr_div_pow2 by done. done.
Qed.

Lemma shiftr_sign v : word32 v -> Z.shiftr v 31 = if v <? 0 then -1 else 0.
Proof.
  intros H. words. rewrite Z.shiftr_div_pow2 by lia. change (2 ^ 31) with 2147483648.
  destruct (Z.ltb_spec v 0); [|by apply Z.div_small; lia].
  symmetry. apply (Z.div_unique _ _ _ (v + 2147483648)); lia.
Qed.

(** The sign test of the C code: the top bit of the exclusive or. *)
Lemma sign_test a b :
  word32 a -> word32 b ->
  (Z.land (Z.lxor a b) MIN_32 =? 0) = Bool.eqb (a <? 0) (b <? 0).
Proof.
  intros Ha Hb. change MIN_32 with (- 2 ^ 31). rewrite land_minus_pow2 by lia.
  rewrite <- Z.shiftr_div_pow2, Z.shiftr_lxor, !shiftr_sign by (done || lia).
  by destruct (a <? 0), (b <? 0).
Qed.

Lemma saturate_sat v f : saturate v f = sat16 v f.
Proof.
  unfold saturate. words. destruct (Z.ltb_spec 32767 v); [by rewrite sat_above by lia|].
  destruct (Z.ltb_spec v (-32768)); [by rewrite sat_below by lia|]. rewrite sat_in by lia.
  unfold extract_l. by rewrite s16_id by (words; lia).
Qed.

Lemma L_add_sat a b f : word32 a -> word32 b -> L_add a b f = sat32 (a + b) f.
Proof.
  intros Ha Hb. unfold L_add. rewrite sign_test by done.
  assert (word32 (s32 (a + b))) as Hr.
  { words. pose proof (wrap_s_range 32 (a + b) ltac:(lia)) as H. cbn in H. lia. }
  rewrite sign_test by done. rewrite s32_cases by (words; lia). words.
  sat_cases (a + b) (-2147483648) 2147483647;
    destruct (Z.ltb_spec a 0), (Z.ltb_spec b 0); try lia; ltb_simpl; done.
Qed.

Lemma L_sub_sat a b f : word32 a -> word32 b -> L_sub a b f = sat32 (a - b) f.
Proof.
  intros Ha Hb. unfold L_sub. rewrite sign_test by done.
  assert (word32 (s32 (a - b))) as Hr.
  { words. pose proof (wrap_s_range 32 (a - b) ltac:(lia)) as H. cbn in H. lia. }
  rewrite sign_test by done. rewrite s32_cases by (words; lia). words.
  sat_cases (a - b) (-2147483648) 2147483647;
    destruct (Z.ltb_spec a 0), (Z.ltb_spec b 0); try lia; ltb_simpl; done.
Qed.

Lemma word16_product a b : word16 a -> word16 b -> -1073709056 <= a * b <= 1073741824.
Proof. intros Ha Hb. words. nia. Qed.

Lemma L_mult_sat a b f : word16 a -> word16 b -> L_mult a b f = sat32 (2 * (a * b)) f.
Proof.
  intros Ha Hb. pose proof (word16_product a b Ha Hb) as Hp. unfold L_mult. words.
  destruct (Z.eqb_spec (a * b) 1073741824) as [->|].
  - by rewrite sat_above by lia.
  - rewrite sat_in by lia. rewrite Z.mul_comm. done.
Qed.

(** Values that [mult] extends are sign-extended already. *)
Lemma sign_extend_id v : -65536 <= v < 65536 -> sign_extend v = v.
Proof.
  intros Hv. unfold sign_extend. change (-65536) with (- 2 ^ 16). change 65536 with (2 ^ 16).
  destruct (Z.lt_ge_cases v 0) as [Hneg|Hpos].
  - replace (Z.lor v (- 2 ^ 16)) with v; [by destruct (_ =? _)|].
    apply Z.bits_inj'. intros n Hn. rewrite Z.lor_spec.
    destruct (Z.lt_ge_cases n 16) as [Hlow|Hhigh].
    + change (- 2 ^ 16) with (Z.shiftl (-1) 16). rewrite Z.shiftl_spec_low by done. by rewrite orb_false_r.
    + assert (Z.testbit v n = true) as ->; [|done].
      replace n with (n - 16 + 16) by lia. rewrite <- Z.shiftr_spec by lia.
      rewrite Z.shiftr_div_pow2 by lia. change (2 ^ 16) with 65536.
      replace (v / 65536) with (-1); [by apply Z.bits_m1; lia|].
      apply (Z.div_unique _ _ _ (v + 65536)); lia.
  - assert (Z.land v (2 ^ 16) = 0) as ->; [|done].
    apply Z.bits_inj'. intros n Hn. rewrite Z.land_spec, Z.bits_0, Z.pow2_bits_eqb by done.
    destruct (Z.eqb_spec 16 n) as [<-|]; [|by rewrite andb_false_r]. rewrite andb_true_r.
    destruct (Z.eq_dec v 0) as [->|]; [done|].
    apply Z.bits_above_log2; [lia|]. apply Z.log2_lt_pow2; lia.
Qed.

Lemma mask_shift v : Z.shiftr (Z.land v (-32768)) 15 = v / 32768.
Proof.
  change (-32768) with (- 2 ^ 15). rewrite land_minus_pow2, Z.shiftr_div_pow2 by lia.
  change (2 ^ 15) with 32768. by rewrite Z.div_mul.
Qed.

Lemma mult_sat a b f : word16 a -> word16 b -> mult a b f = sat16 (a * b / 32768) f.
Proof.
  intros Ha Hb. pose proof (word16_product a b Ha Hb). unfold mult.
  rewrite mask_shift, sign_extend_id, saturate_sat; [done|].
  split; [apply Z.div_le_lower_bound|apply Z.div_lt_upper_bound]; lia.
Qed.

Lemma mult_r_sat a b f : word16 a -> word16 b -> mult_r a b f = sat16 ((a * b + 16384) / 32768) f.
Proof.
  intros Ha Hb. pose proof (word16_product a b Ha Hb). unfold mult_r.
  rewrite s32_id by (words; lia). rewrite mask_shift, sign_extend_id, saturate_sat; [done|].
  split; [apply Z.div_le_lower_bound|apply Z.div_lt_upper_bound]; lia.
Qed.

(** *** Shifts *)

Lemma pow2_le n m : 0 <= n <= m -> 2 ^ n <= 2 ^ m.
Proof. intros H. apply Z.pow_le_mono_r; lia. Qed.

Lemma lnot_shiftr_lnot v n : 0 <= n -> Z.lnot (Z.shiftr (Z.lnot v) n) = v / 2 ^ n.
Proof. intros Hn. rewrite Z.lnot_shiftr, Z.lnot_involutive by done. by rewrite Z.shiftr_div_pow2. Qed.

Lemma div_pow2_small v n k :
  0 <= k <= n -> - 2 ^ k <= v < 2 ^ k -> v / 2 ^ n = if v <? 0 then -1 else 0.
Proof.
  intros Hk Hv. pose proof (pow2_le k n Hk). destruct (Z.ltb_spec v 0).
  - symmetry. apply (Z.div_unique _ _ _ (v + 2 ^ n)); lia.
  - apply Z.div_small. lia.
Qed.

Lemma shr_down_div v n : word16 v -> 0 <= n -> shr_down v n = v / 2 ^ n.
Proof.
  intros Hv Hn. unfold shr_down. destruct (Z.leb_spec 15 n).
  - symmetry. apply (div_pow2_small v n 15); [lia|]. words. cbn. lia.
  - destruct (v <? 0); [by apply lnot_shiftr_lnot|by apply Z.shiftr_div_pow2].
Qed.

Lemma L_shr_down_div v n : word32 v -> 0 <= n -> L_shr_down v n = v / 2 ^ n.
Proof.
  intros Hv Hn. unfold L_shr_down. destruct (Z.leb_spec 31 n).
  - symmetry. apply (div_pow2_small v n 31); [lia|]. words. cbn. lia.
  - destruct (v <? 0); [by apply lnot_shiftr_lnot|by apply Z.shiftr_div_pow2].
Qed.

Lemma div_range lo hi v n : lo <= v <= hi -> lo <= 0 -> 0 <= hi -> 0 <= n -> lo <= v / 2 ^ n <= hi.
Proof.
  intros Hv Hlo Hhi Hn. pose proof (Z.pow_pos_nonneg 2 n ltac:(lia) Hn). split.
  - apply Z.div_le_lower_bound; nia.
  - apply Z.div_le_upper_bound; nia.
Qed.

(** Saturation is all the same once the shift is large enough. *)
Lemma sat_shift_large lo hi v n k f :
  lo < 0 < hi -> lo <= v <= hi -> 0 <= k <= n -> (hi < 2 ^ k) -> (2 ^ k > - lo) ->
  sat lo hi (v * 2 ^ n) f = sat lo hi (v * 2 ^ k) f.
Proof.
  intros Hr Hv Hk Hhi Hlo. pose proof (pow2_le k n Hk).
  destruct (Z.lt_trichotomy v 0) as [|[->|]]; [|done|].
  - rewrite !sat_below by nia. done.
  - rewrite !sat_above by nia. done.
Qed.

Lemma shl_up_sat v n f : word16 v -> 0 <= n -> shl_up v n f = sat16 (v * 2 ^ n) f.
Proof.
  intros Hv Hn. unfold shl_up. rewrite Z.shiftl_1_l. words. destruct (Z.ltb_spec 15 n); cbn [andb].
  - pose proof (pow2_le 16 n ltac:(lia)) as Hp. cbn in Hp.
    destruct (Z.eqb_spec v 0) as [->|]; cbn [negb orb].
    + rewrite Z.mul_0_l. cbn. by rewrite sat_in by lia.
    + destruct (Z.ltb_spec 0 v); [rewrite sat_above by nia|rewrite sat_below by nia]; done.
  - pose proof (pow2_le n 15 ltac:(lia)) as Hp. cbn in Hp.
    pose proof (Z.pow_pos_nonneg 2 n ltac:(lia) Hn). cbn [orb].
    rewrite (s32_id (2 ^ n)) by (words; lia). rewrite s32_id by (words; nia).
    set (r := v * 2 ^ n). destruct (Z.eqb_spec r (s16 r)) as [He|He]; cbn [negb].
    + unfold extract_l. pose proof (wrap_s_range 16 r ltac:(lia)) as Hw. cbn in Hw.
      rewrite <- He in *. by rewrite sat_in by lia.
    + sat_cases r (-32768) 32767; [replace (0 <? v) with false by nia|replace (0 <? v) with true by nia|]; [done..|].
      exfalso. apply He. symmetry. apply s16_id. words. lia.
Qed.

Lemma L_shl_loop_sat n v out f : word32 v -> L_shl_loop (S n) v out f = sat32 (v * 2 ^ Z.of_nat (S n)) f.
Proof.
  revert v out. induction n as [|n IH]; intros v out Hv; words.
  - cbn. destruct (Z.ltb_spec 1073741823 v); [by rewrite sat_above by lia|].
    destruct (Z.ltb_spec v (-1073741824)); [by rewrite sat_below by lia|]. by rewrite sat_in by lia.
  - rewrite Nat2Z.inj_succ, Z.pow_succ_r by lia.
    pose proof (Z.pow_pos_nonneg 2 (Z.of_nat (S n)) ltac:(lia) ltac:(lia)).
    change (L_shl_loop (S (S n)) v out) with
      (if 1073741823 <? v then set_overflow;; mret MAX_32
       else if v <? -1073741824 then set_overflow;; mret MIN_32
       else L_shl_loop (S n) (v * 2) (v * 2)).
    destruct (Z.ltb_spec 1073741823 v); [by rewrite sat_above by nia|].
    destruct (Z.ltb_spec v (-1073741824)); [by rewrite sat_below by nia|].
    rewrite IH by lia. f_equal. lia.
Qed.

Lemma sat_div lo hi v n f :
  lo <= v <= hi -> lo <= 0 -> 0 <= hi -> 0 <= n -> sat lo hi (v / 2 ^ n) f = Some (v / 2 ^ n, f).
Proof. intros. apply sat_in. by apply div_range. Qed.

Lemma shl_sat v n f : word16 v -> shl v n f = sat16 (shift v n) f.
Proof.
  intros Hv. unfold shl, shift. destruct (Z.ltb_spec n 0), (Z.leb_spec 0 n); try lia.
  - assert (v / 2 ^ (- n) = v / 2 ^ (- (if n <? -16 then -16 else n))) as ->.
    { destruct (Z.ltb_spec n (-16)); [|done]. words.
      rewrite !(div_pow2_small _ _ 15) by (cbn; lia). done. }
    rewrite sat_div by (words; destruct (n <? -16); lia).
    rewrite shr_down_div; [done..|]. destruct (Z.ltb_spec n (-16)); lia.
  - by apply shl_up_sat.
Qed.

Lemma shr_sat v n f : word16 v -> shr v n f = sat16 (shift v (- n)) f.
Proof.
  intros Hv. unfold shr, shift. destruct (Z.ltb_spec n 0), (Z.leb_spec 0 (- n)); try lia.
  - rewrite shl_up_sat by (destruct (Z.ltb_spec n (-16)); done || lia).
    destruct (Z.ltb_spec n (-16)); [|done]. symmetry.
    apply sat_shift_large; words; cbn; lia.
  - assert (n = 0) as -> by lia. rewrite shr_down_div by (done || lia). change (2 ^ (- 0)) with 1.
    change (2 ^ 0) with 1. rewrite Z.div_1_r, Z.mul_1_r. words. by rewrite sat_in by lia.
  - rewrite Z.opp_involutive, shr_down_div by (done || lia). words. by rewrite sat_div by lia.
Qed.

Lemma L_shl_sat v n f : word32 v -> L_shl v n f = sat32 (shift v n) f.
Proof.
  intros Hv. unfold L_shl, shift. destruct (Z.leb_spec n 0).
  - rewrite L_shr_down_div by (done || destruct (Z.ltb_spec n (-32)); lia).
    destruct (Z.leb_spec 0 n).
    { assert (n = 0) as -> by lia. cbn. rewrite Z.div_1_r, Z.mul_1_r. words. by rewrite sat_in by lia. }
    words. rewrite sat_div by lia. unfold mret, op_ret. do 2 f_equal.
    destruct (Z.ltb_spec n (-32)); [|done]. rewrite !(div_pow2_small _ _ 31) by (cbn; lia). done.
  - rewrite (proj2 (Z.leb_le _ _)) by lia. destruct (Z.to_nat n) as [|m] eqn:Hm; [lia|].
    rewrite L_shl_loop_sat, <- Hm, Z2Nat.id by (done || lia). done.
Qed.

Lemma L_shr_sat v n f : word32 v -> L_shr v n f = sat32 (shift v (- n)) f.
Proof.
  intros Hv. unfold L_shr, shift. destruct (Z.ltb_spec n 0), (Z.leb_spec 0 (- n)); try lia.
  - destruct (Z.to_nat _) as [|m] eqn:Hm; [destruct (Z.ltb_spec n (-32)); lia|].
    rewrite L_shl_loop_sat, <- Hm, Z2Nat.id by (done || destruct (Z.ltb_spec n (-32)); lia).
    destruct (Z.ltb_spec n (-32)); [|done]. symmetry. apply sat_shift_large; words; cbn; lia.
  - assert (n = 0) as -> by lia. rewrite L_shr_down_div by (done || lia). change (2 ^ (- 0)) with 1.
    change (2 ^ 0) with 1. rewrite Z.div_1_r, Z.mul_1_r. words. by rewrite sat_in by lia.
  - rewrite Z.opp_involutive, L_shr_down_div by (done || lia). words. by rewrite sat_div by lia.
Qed.

(** The bit below the last one kept, and rounding. *)
Lemma round_bit v n :
  0 < n ->
  (v + 2 ^ (n - 1)) / 2 ^ n =
  v / 2 ^ n + (if Z.land v (Z.shiftl 1 (n - 1)) =? 0 then 0 else 1).
Proof.
  intros Hn. rewrite Z.shiftl_1_l. set (h := 2 ^ (n - 1)).
  assert (0 < h) as Hh by (apply Z.pow_pos_nonneg; lia).
  assert (2 ^ n = 2 * h) as -> by (unfold h; rewrite <- Z.pow_succ_r by lia; f_equal; lia).
  assert (Z.land v h = (if Z.odd (v / h) then h else 0)) as ->.
  { apply Z.bits_inj'. intros k Hk. unfold h.
    rewrite Z.land_spec, Z.pow2_bits_eqb, <- Z.shiftr_div_pow2, <- Z.bit0_odd, Z.shiftr_spec by lia.
    rewrite Z.add_0_l.
    destruct (Z.eqb_spec (n - 1) k) as [<-|]; [rewrite andb_true_r|rewrite andb_false_r].
    - destruct (Z.testbit v (n - 1)); [by rewrite Z.pow2_bits_true by lia|by rewrite Z.bits_0].
    - destruct (Z.testbit v (n - 1)); [by rewrite Z.pow2_bits_false by lia|by rewrite Z.bits_0]. }
  pose proof (Z.div_mod v (2 * h) ltac:(lia)) as Hdm.
  pose proof (Z.mod_pos_bound v (2 * h) ltac:(lia)) as Hm.
  set (q := v / (2 * h)) in *. set (r := v mod (2 * h)) in *.
  assert (v / h = 2 * q + (if h <=? r then 1 else 0)) as ->.
  { symmetry. apply (Z.div_unique _ _ _ (if h <=? r then r - h else r)); destruct (Z.leb_spec h r); lia. }
  assert ((v + h) / (2 * h) = q + (if h <=? r then 1 else 0)) as ->.
  { symmetry. apply (Z.div_unique _ _ _ (if h <=? r then r - h else r + h)); destruct (Z.leb_spec h r); lia. }
  destruct (h <=? r).
  - rewrite Z.odd_add, Z.odd_mul. cbn. by rewrite (proj2 (Z.eqb_neq h 0)) by lia.
  - rewrite !Z.add_0_r, Z.odd_mul. cbn. lia.
Qed.

Lemma shr_r_round v n f :
  word16 v ->
  shr_r v n f = if 0 <? n then Some ((v + 2 ^ (n - 1)) / 2 ^ n, f) else sat16 (shift v (- n)) f.
Proof.
  intros Hv. unfold shr_r. destruct (Z.ltb_spec 15 n).
  - rewrite (proj2 (Z.ltb_lt _ _)) by lia. unfold mret, op_ret. do 2 f_equal. symmetry.
    pose proof (pow2_le 15 (n - 1) ltac:(lia)) as Hp. cbn in Hp.
    apply Z.div_small. replace (2 ^ n) with (2 * 2 ^ (n - 1)); [words; lia|].
    rewrite <- Z.pow_succ_r by lia. f_equal. lia.
  - unfold mbind, op_bind. rewrite shr_sat by done. destruct (Z.ltb_spec 0 n); cbn [andb].
    + unfold shift. rewrite (proj2 (Z.leb_gt _ _)), Z.opp_involutive by lia.
      words. rewrite sat_div, round_bit by lia.
      pose proof (div_range (-32768) 32767 v n Hv ltac:(lia) ltac:(lia) ltac:(lia)) as Hd.
      assert (v / 2 ^ n < 16384) as Hd2.
      { apply Z.div_lt_upper_bound; [apply Z.pow_pos_nonneg; lia|].
        pose proof (pow2_le 1 n ltac:(lia)) as Hp. cbn in Hp. nia. }
      destruct (_ =? 0); cbn [negb]; [by rewrite Z.add_0_r|]. by rewrite s16_id by (words; lia).
    + by unfold sat.
Qed.

Lemma L_shr_r_round v n f :
  word32 v ->
  L_shr_r v n f = if 0 <? n then Some ((v + 2 ^ (n - 1)) / 2 ^ n, f) else sat32 (shift v (- n)) f.
Proof.
  intros Hv. unfold L_shr_r. destruct (Z.ltb_spec 31 n).
  - rewrite (proj2 (Z.ltb_lt _ _)) by lia. unfold mret, op_ret. do 2 f_equal. symmetry.
    pose proof (pow2_le 31 (n - 1) ltac:(lia)) as Hp. cbn in Hp.
    apply Z.div_small. replace (2 ^ n) with (2 * 2 ^ (n - 1)); [words; lia|].
    rewrite <- Z.pow_succ_r by lia. f_equal. lia.
  - unfold mbind, op_bind. rewrite L_shr_sat by done. destruct (Z.ltb_spec 0 n); cbn [andb].
    + unfold shift. rewrite (proj2 (Z.leb_gt _ _)), Z.opp_involutive by lia.
      words. rewrite sat_div, round_bit by lia.
      pose proof (div_range (-2147483648) 2147483647 v n Hv ltac:(lia) ltac:(lia) ltac:(lia)) as Hd.
      assert (v / 2 ^ n < 1073741824) as Hd2.
      { apply Z.div_lt_upper_bound; [apply Z.pow_pos_nonneg; lia|].
        pose proof (pow2_le 1 n ltac:(lia)) as Hp. cbn in Hp. nia. }
      destruct (_ =? 0); cbn [negb]; [by rewrite Z.add_0_r|]. by rewrite s32_id by (words; lia).
    + by unfold sat.
Qed.

(** *** Normalisation *)

(** The loop doubles until the limit is reached, [k] times. *)
Lemma norm_loop_spec fuel w x n :
  2 <= w -> 0 < x < 2 ^ (w - 1) -> 2 ^ (w - 2) <= x * 2 ^ Z.of_nat fuel ->
  exists k, 0 <= k <= Z.of_nat fuel /\ norm_loop fuel w (2 ^ (w - 2)) x n = n + k /\
    2 ^ (w - 2) <= x * 2 ^ k < 2 ^ (w - 1).
Proof.
  intros Hw. assert (2 ^ (w - 1) = 2 * 2 ^ (w - 2)) as Hpow.
  { rewrite <- Z.pow_succ_r by lia. f_equal. lia. }
  revert x n. induction fuel as [|fuel IH]; intros x n Hx Hf.
  { exists 0. cbn in *. split; [lia|]. split; lia. }
  cbn [norm_loop]. destruct (Z.ltb_spec x (2 ^ (w - 2))) as [Hlt|Hge].
  - rewrite Nat2Z.inj_succ, Z.pow_succ_r in Hf by lia.
    rewrite Z.shiftl_mul_pow2 by lia. change (2 ^ 1) with 2.
    rewrite wrap_s_id by lia.
    destruct (IH (x * 2) (n + 1)) as (k & Hk & Heq & Hr); [lia|lia|].
    exists (k + 1). rewrite Heq. split; [lia|]. split; [lia|].
    rewrite Z.pow_add_r by lia. change (2 ^ 1) with 2. lia.
  - exists 0. change (2 ^ 0) with 1. split; [lia|]. split; lia.
Qed.

(** [v * 2^n] has its leading bit, after the sign, set: no smaller word width
    would do, and the shift does not overflow. *)
Definition normalised (w v n : Z) : Prop :=
  2 ^ (w - 2) <= v * 2 ^ n < 2 ^ (w - 1) \/ - 2 ^ (w - 1) <= v * 2 ^ n < - 2 ^ (w - 2).

(** From the complement to the negative number itself. *)
Lemma normalised_lnot w v k :
  0 <= k <= w - 1 -> v < 0 -> 2 ^ (w - 2) <= Z.lnot v * 2 ^ k < 2 ^ (w - 1) -> normalised w v k.
Proof.
  intros Hk Hv Hr. right. unfold Z.lnot in Hr.
  assert (2 ^ (w - 1) = 2 ^ k * 2 ^ (w - 1 - k)) as Hp by (rewrite <- Z.pow_add_r by lia; f_equal; lia).
  pose proof (Z.pow_pos_nonneg 2 k ltac:(lia) ltac:(lia)).
  assert (Z.pred (- v) < 2 ^ (w - 1 - k)) by nia. nia.
Qed.

Lemma norm_s_normalised v : word16 v -> v <> 0 -> 0 <= norm_s v <= 15 /\ normalised 16 v (norm_s v).
Proof.
  intros Hv Hz. unfold norm_s. rewrite (proj2 (Z.eqb_neq v 0)) by done.
  destruct (Z.eqb_spec v (-1)) as [->|Hm]; [split; [lia|]; right; cbn; lia|].
  set (x := if v <? 0 then Z.lnot v else v).
  assert (0 < x < 32768) as Hx by (unfold x, Z.lnot; words; destruct (Z.ltb_spec v 0); lia).
  destruct (norm_loop_spec 15 16 x 0 ltac:(lia)) as (k & Hk & Heq & Hr); [cbn; lia|cbn; lia|].
  change (2 ^ (16 - 2)) with 16384 in Heq. rewrite Heq. split; [lia|].
  unfold x in Hr. destruct (Z.ltb_spec v 0); [apply normalised_lnot; [lia|done..]|by left].
Qed.

Lemma norm_l_normalised v : word32 v -> v <> 0 -> 0 <= norm_l v <= 31 /\ normalised 32 v (norm_l v).
Proof.
  intros Hv Hz. unfold norm_l. rewrite (proj2 (Z.eqb_neq v 0)) by done.
  destruct (Z.eqb_spec v (-1)) as [->|Hm]; [split; [lia|]; right; cbn; lia|].
  set (x := if v <? 0 then Z.lnot v else v).
  assert (0 < x < 2147483648) as Hx by (unfold x, Z.lnot; words; destruct (Z.ltb_spec v 0); lia).
  destruct (norm_loop_spec 31 32 x 0 ltac:(lia)) as (k & Hk & Heq & Hr); [cbn; lia|cbn; lia|].
  change (2 ^ (32 - 2)) with 1073741824 in Heq. rewrite Heq. split; [lia|].
  unfold x in Hr. destruct (Z.ltb_spec v 0); [apply normalised_lnot; [lia|done..]|by left].
Qed.

(** *** Division *)

(** One step of the restoring division, and all the remaining ones. *)
Lemma div_step q r d n :
  0 <= r < d -> 0 <= n ->
  (if d <=? 2 * r then (2 * q + 1) * 2 ^ n + (2 * r - d) * 2 ^ n / d
   else 2 * q * 2 ^ n + 2 * r * 2 ^ n / d) = q * 2 ^ (n + 1) + r * 2 ^ (n + 1) / d.
Proof.
  intros Hr Hn. rewrite Z.pow_add_r by lia. change (2 ^ 1) with 2.
  destruct (Z.leb_spec d (2 * r)).
  - replace (r * (2 ^ n * 2)) with ((2 * r - d) * 2 ^ n + 2 ^ n * d) by ring.
    rewrite Z.div_add by lia. ring.
  - f_equal; [ring|]. f_equal. ring.
Qed.

Lemma div_s_loop_spec n q r d f :
  0 <= r < d -> d <= 32767 -> 0 <= q -> (q + 1) * 2 ^ Z.of_nat n <= 32768 ->
  div_s_loop n q r d f = Some (q * 2 ^ Z.of_nat n + r * 2 ^ Z.of_nat n / d, f).
Proof.
  revert q r. induction n as [|n IH]; intros q r Hr Hd Hq Hf.
  - cbn [div_s_loop Z.of_nat]. change (2 ^ 0) with 1. rewrite !Z.mul_1_r, Z.div_small, Z.add_0_r by lia. done.
  - rewrite Nat2Z.inj_succ in Hf |- *. unfold Z.succ in *. rewrite <- (div_step q r d) by lia.
    rewrite Z.pow_add_r in Hf by lia. change (2 ^ 1) with 2 in Hf.
    pose proof (Z.pow_pos_nonneg 2 (Z.of_nat n) ltac:(lia) ltac:(lia)).
    cbn [div_s_loop]. rewrite !Z.shiftl_mul_pow2 by lia. change (2 ^ 1) with 2.
    rewrite s16_id, s32_id by (words; nia). rewrite !(Z.mul_comm _ 2).
    destruct (Z.leb_spec d (2 * r)); [|apply IH; nia].
    unfold mbind, op_bind. rewrite L_sub_sat, sat_in by (words; lia).
    unfold add. rewrite saturate_sat, sat_in by nia. apply IH; nia.
Qed.

Lemma div_l_loop_spec n q r d f :
  0 <= r < d -> d <= 1073709056 -> 0 <= q -> (q + 1) * 2 ^ Z.of_nat n <= 32768 ->
  div_l_loop n q r d f = Some (q * 2 ^ Z.of_nat n + r * 2 ^ Z.of_nat n / d, f).
Proof.
  revert q r. induction n as [|n IH]; intros q r Hr Hd Hq Hf.
  - cbn [div_l_loop Z.of_nat]. change (2 ^ 0) with 1. rewrite !Z.mul_1_r, Z.div_small, Z.add_0_r by lia. done.
  - rewrite Nat2Z.inj_succ in Hf |- *. unfold Z.succ in *. rewrite <- (div_step q r d) by lia.
    rewrite Z.pow_add_r in Hf by lia. change (2 ^ 1) with 2 in Hf.
    pose proof (Z.pow_pos_nonneg 2 (Z.of_nat n) ltac:(lia) ltac:(lia)).
    cbn [div_l_loop]. unfold mbind, op_bind.
    rewrite shl_sat by (words; nia). change (shift q 1) with (q * 2). rewrite sat_in by nia.
    rewrite L_shl_sat by (words; lia). change (shift r 1) with (r * 2). rewrite sat_in by lia.
    rewrite !(Z.mul_comm _ 2).
    destruct (Z.leb_spec d (2 * r)); [|apply IH; nia].
    rewrite L_sub_sat, sat_in by (words; lia).
    unfold add. rewrite saturate_sat, sat_in by nia. apply IH; nia.
Qed.

Lemma div_s_spec a b f :
  word16 a -> word16 b ->
  div_s a b f =
  if (0 <=? a) && (a <=? b) && (0 <? b)
  then Some (if a =? b then MAX_16 else a * 32768 / b, f) else None.
Proof.
  intros Ha Hb. unfold div_s.
  destruct (Z.leb_spec 0 a), (Z.leb_spec a b), (Z.ltb_spec 0 b), (Z.ltb_spec b a), (Z.ltb_spec a 0),
    (Z.ltb_spec b 0); try lia; cbn [orb andb]; try done; destruct (Z.eqb_spec b 0); try lia; try done.
  destruct (Z.eqb_spec a 0) as [->|]; [by rewrite (proj2 (Z.eqb_neq 0 b)) by lia|].
  destruct (Z.eqb_spec a b); [done|].
  unfold L_deposit_l. words. rewrite div_s_loop_spec by (cbn; lia). cbn [Z.of_nat].
  change (2 ^ Z.pos (Pos.of_succ_nat 14)) with 32768. done.
Qed.

Lemma div_l_spec x b f :
  word32 x -> word16 b ->
  div_l x b f =
  if (0 <=? x) && (0 <? b)
  then Some (if b * 65536 <=? x then MAX_16 else x / 2 / b, f) else None.
Proof.
  intros Hx Hb. unfold div_l, L_deposit_h. rewrite Z.shiftl_mul_pow2 by lia. change (2 ^ 16) with 65536.
  destruct (Z.eqb_spec b 0) as [->|]; [cbn; by rewrite andb_false_r|].
  destruct (Z.ltb_spec x 0), (Z.leb_spec 0 x); try lia; cbn [orb andb]; [done|].
  destruct (Z.ltb_spec b 0), (Z.ltb_spec 0 b); try lia; [done|].
  rewrite s32_id by (words; lia). destruct (Z.leb_spec (b * 65536) x); [done|].
  assert (b * 65536 / 2 = b * 32768) as Hhalf by (rewrite <- (Z.div_mul (b * 32768) 2) by lia; f_equal; lia).
  assert (x / 2 < b * 32768) by (apply Z.div_lt_upper_bound; lia).
  assert (0 <= x / 2) by (apply Z.div_pos; lia).
  unfold mbind, op_bind. rewrite L_shr_sat by (words; lia).
  change (shift x (Z.opp 1)) with (x / 2). words. rewrite sat_in by lia.
  rewrite L_shr_sat by (words; lia).
  change (shift (b * 65536) (Z.opp 1)) with (b * 65536 / 2). rewrite Hhalf, sat_in by lia.
  rewrite div_l_loop_spec by (cbn; lia). cbn [Z.of_nat].
  change (2 ^ Z.pos (Pos.of_succ_nat 14)) with 32768. rewrite Z.mul_0_l, Z.add_0_l.
  by rewrite Z.div_mul_cancel_r by lia.
Qed.

(** *** Carries *)

Lemma u32_cases v : word32 v -> u32 v = if v <? 0 then v + 4294967296 else v.
Proof.
  intros Hv. words. unfold wrap_u. change (2 ^ 32) with 4294967296. destruct (Z.ltb_spec v 0).
  - rewrite <- (Z_mod_plus_full v 1), Z.mod_small by lia. lia.
  - by rewrite Z.mod_small by lia.
Qed.

Lemma lxor_sign a b : (Z.lxor a b <? 0) = xorb (a <? 0) (b <? 0).
Proof.
  pose proof (Z.lxor_nonneg a b).
  destruct (Z.ltb_spec (Z.lxor a b) 0), (Z.ltb_spec a 0), (Z.ltb_spec b 0); cbn; lia.
Qed.

Lemma L_add_c_carry a b f :
  word32 a -> word32 b ->
  exists r f', L_add_c a b f = Some (r, f') /\ word32 r /\
    u32 a + u32 b + Z.b2z (Carry f) = u32 r + 4294967296 * Z.b2z (Carry f').
Proof.
  intros Ha Hb. unfold L_add_c, add_c_test. rewrite lxor_sign.
  pose proof (s32_cases (a + b) ltac:(words; lia)) as Htest.
  pose proof (s32_cases (a + b + Z.b2z (Carry f)) ltac:(words; destruct (Carry f); cbn; lia)) as Hout.
  set (t := s32 (a + b)) in *. set (r := s32 (a + b + Z.b2z (Carry f))) in *.
  assert (word32 r) as Hr.
  { pose proof (wrap_s_range 32 (a + b + Z.b2z (Carry f)) ltac:(lia)) as H. cbn in H.
    unfold r. words. lia. }
  pose proof (u32_cases r Hr). pose proof (u32_cases a Ha). pose proof (u32_cases b Hb).
  clearbody t r. words.
  destruct (Z.ltb_spec 0 a), (Z.ltb_spec 0 b), (Z.ltb_spec a 0), (Z.ltb_spec b 0); try lia;
    cbn [andb xorb]; destruct (Z.ltb_spec t 0), (Z.leb_spec 0 t); try lia; cbn [andb];
    (eexists _, _; split; [reflexivity|]; split; [done|]);
    destruct (Carry f); cbn [Z.b2z] in *; destruct (Z.eqb_spec t 2147483647), (Z.eqb_spec t (-1));
    cbn [Carry Z.b2z];
    destruct (Z.ltb_spec (a + b) (-2147483648)), (Z.ltb_spec 2147483647 (a + b)); try lia;
    repeat match goal with
    | H : context [if ?x <? ?y then _ else _] |- _ => destruct (Z.ltb_spec x y)
    end; lia.
Qed.

(** *** The mixed multiplication *)

Lemma extract_h_div x : word32 x -> extract_h x = x / 65536.
Proof.
  intros Hx. unfold extract_h. rewrite Z.shiftr_div_pow2 by lia. change (2 ^ 16) with 65536.
  apply s16_id. words. split; [apply Z.div_le_lower_bound; lia|].
  enough (x / 65536 < 32768) by lia. apply Z.div_lt_upper_bound; lia.
Qed.

Lemma L_mac_sat x a b f :
  word32 x -> word16 a -> word16 b ->
  L_mac x a b f = (p ← sat32 (2 * (a * b)); sat32 (x + p)) f.
Proof.
  intros Hx Ha Hb. unfold L_mac, mbind, op_bind. rewrite L_mult_sat by done.
  pose proof (word16_product a b Ha Hb). unfold sat at 1 3, clip at 1. unfold clip at 3.
  apply L_add_sat; [done|]. words. lia.
Qed.

Lemma L_msu_sat x a b f :
  word32 x -> word16 a -> word16 b ->
  L_msu x a b f = (p ← sat32 (2 * (a * b)); sat32 (x - p)) f.
Proof.
  intros Hx Ha Hb. unfold L_msu, mbind, op_bind. rewrite L_mult_sat by done.
  pose proof (word16_product a b Ha Hb). unfold sat at 1 3, clip at 1. unfold clip at 3.
  apply L_sub_sat; [done|]. words. lia.
Qed.

(** The doubled product is clipped for the smallest factors only. *)
Lemma doubled_product (g : Z -> Z) a b f :
  word16 a -> word16 b ->
  (p ← sat32 (2 * (a * b)); sat32 (g p)) f =
  if (a =? -32768) && (b =? -32768) then sat32 (g 2147483647) (Flags true (Carry f)) else sat32 (g (2 * (a * b))) f.
Proof.
  intros Ha Hb. unfold mbind, op_bind. destruct (Z.eqb_spec a (-32768)), (Z.eqb_spec b (-32768)); cbn [andb]; subst.
  1: { unfold sat at 1. change (clip _ _ (2 * _)) with 2147483647. cbn [negb Z.eqb Z.mul Pos.mul Pos.eqb].
       by rewrite orb_true_r. }
  all: rewrite sat_in; [done|]; words; nia.
Qed.

(** ** Theorems *)

(** C17. The operators that take the flags, but for [L_mac] and [L_msu], compute the exact
    result clipped to the range of their type, and raise [Overflow] exactly when the
    clipping changed it; the fractional products are shifted right rounding down ([mult])
    or to the nearest ([mult_r]), and [intround] clips before it takes the upper half.
    [L_mac] and [L_msu] double the product first: they are the exact sum clipped, except
    for the product of the smallest numbers, which counts as the largest number and
    raises [Overflow] whatever the sum is.  [abs_s], [negate], [L_abs] and [L_negate]
    have no flags: the smallest number becomes the largest, without a sign of it. *)
Theorem basic_operators_saturate a b x y f :
  word16 a -> word16 b -> word32 x -> word32 y ->
  (add a b f = sat16 (a + b) f /\ sub a b f = sat16 (a - b) f /\ i_mult a b f = sat16 (a * b) f /\
   mult a b f = sat16 (a * b / 32768) f /\ mult_r a b f = sat16 ((a * b + 16384) / 32768) f /\
   abs_s a = (if a =? -32768 then 32767 else Z.abs a) /\ negate a = (if a =? -32768 then 32767 else - a)) /\
  (L_add x y f = sat32 (x + y) f /\ L_sub x y f = sat32 (x - y) f /\
   L_mult a b f = sat32 (2 * (a * b)) f /\
   L_mac x a b f = (if (a =? -32768) && (b =? -32768) then sat32 (x + 2147483647) (Flags true (Carry f))
                    else sat32 (x + 2 * (a * b)) f) /\
   L_msu x a b f = (if (a =? -32768) && (b =? -32768) then sat32 (x - 2147483647) (Flags true (Carry f))
                    else sat32 (x - 2 * (a * b)) f) /\
   L_mac0 x a b f = sat32 (x + a * b) f /\ L_msu0 x a b f = sat32 (x - a * b) f /\
   L_abs x = (if x =? -2147483648 then 2147483647 else Z.abs x) /\
   L_negate x = (if x =? -2147483648 then 2147483647 else - x) /\
   intround x f = (r ← sat32 (x + 32768); mret (r / 65536)) f).
Proof.
  intros Ha Hb Hx Hy. pose proof (word16_product a b Ha Hb) as Hp.
  split; split_and!; try apply saturate_sat.
  - by apply mult_sat.
  - by apply mult_r_sat.
  - unfold abs_s. words. destruct (Z.eqb_spec a (-32768)), (Z.ltb_spec a 0); lia.
  - reflexivity.
  - by apply L_add_sat.
  - by apply L_sub_sat.
  - by apply L_mult_sat.
  - rewrite L_mac_sat by done. by apply (doubled_product (fun p => x + p)).
  - rewrite L_msu_sat by done. by apply (doubled_product (fun p => x - p)).
  - apply L_add_sat; [done|]. unfold L_mult0. words. lia.
  - apply L_sub_sat; [done|]. unfold L_mult0. words. lia.
  - unfold L_abs. words. destruct (Z.eqb_spec x (-2147483648)), (Z.ltb_spec x 0); lia.
  - reflexivity.
  - unfold intround, mbind, op_bind. rewrite L_add_sat by (words; lia). unfold sat, clip.
    unfold mret, op_ret. rewrite extract_h_div; [done|]. words. lia.
Qed.

(** C18. The shifts multiply by a power of two, positive or negative, saturating to
    the left and rounding down to the right, for every count of 16 bits; the
    rounding shifts round to the nearest. *)
Theorem shifts_saturate v x n f :
  word16 v -> word32 x -> word16 n ->
  shl v n f = sat16 (shift v n) f /\ shr v n f = sat16 (shift v (- n)) f /\
  L_shl x n f = sat32 (shift x n) f /\ L_shr x n f = sat32 (shift x (- n)) f /\
  (0 < n -> shr_r v n f = Some ((v + 2 ^ (n - 1)) / 2 ^ n, f) /\
            L_shr_r x n f = Some ((x + 2 ^ (n - 1)) / 2 ^ n, f)).
Proof.
  intros Hv Hx _. split_and!;
    [by apply shl_sat|by apply shr_sat|by apply L_shl_sat|by apply L_shr_sat|].
  intros Hn. rewrite shr_r_round, L_shr_r_round, (proj2 (Z.ltb_lt _ _)) by done. done.
Qed.

(** [norm_s] and [norm_l] return the number of left shifts that normalise a
    value other than 0: the shift by it does not overflow and leaves no redundant
    sign bit. *)
Theorem norm_normalises v x f :
  word16 v -> word32 x -> v <> 0 -> x <> 0 ->
  (0 <= norm_s v <= 15 /\ shl v (norm_s v) f = Some (v * 2 ^ norm_s v, f) /\
   (16384 <= v * 2 ^ norm_s v \/ v * 2 ^ norm_s v < -16384)) /\
  (0 <= norm_l x <= 31 /\ L_shl x (norm_l x) f = Some (x * 2 ^ norm_l x, f) /\
   (1073741824 <= x * 2 ^ norm_l x \/ x * 2 ^ norm_l x < -1073741824)).
Proof.
  intros Hv Hx Hv0 Hx0.
  destruct (norm_s_normalised v Hv Hv0) as [Hs Hns]. destruct (norm_l_normalised x Hx Hx0) as [Hl Hnl].
  unfold normalised in *. cbn [Z.sub Z.add Z.opp Z.pos_sub] in *.
  change (2 ^ 14) with 16384 in *. change (2 ^ 15) with 32768 in *.
  change (2 ^ 30) with 1073741824 in *. change (2 ^ 31) with 2147483648 in *.
  rewrite shl_sat, L_shl_sat by done. unfold shift. rewrite !(proj2 (Z.leb_le _ _)) by lia.
  rewrite !sat_in by lia. split; (split; [done|]; split; [done|lia]).
Qed.

(** [div_s] is the fraction [a / b] in 15 bits, rounded down, for operands
    with [0 <= a < b]; it saturates for equal operands and ends the program for all
    others.  [div_l] divides the 32-bit numerator by twice the denominator,
    rounded down, saturating, and ends the program on a negative operand or a zero
    denominator. *)
Theorem divisions a b x f :
  word16 a -> word16 b -> word32 x ->
  div_s a b f = (if (0 <=? a) && (a <=? b) && (0 <? b)
                 then Some (if a =? b then MAX_16 else a * 32768 / b, f) else None) /\
  div_l x b f = (if (0 <=? x) && (0 <? b)
                 then Some (if b * 65536 <=? x then MAX_16 else x / (2 * b), f) else None).
Proof.
  intros Ha Hb Hx. split; [by apply div_s_spec|]. rewrite div_l_spec by done.
  destruct (Z.leb_spec 0 x), (Z.ltb_spec 0 b); cbn [andb]; [|done..].
  by rewrite Z.div_div by lia.
Qed.

(** Two [L_add_c] in sequence, the carry cleared before the first, add numbers
    of two 32-bit words. *)
Theorem L_add_c_double hi lo hi' lo' f :
  word32 hi -> word32 lo -> word32 hi' -> word32 lo' -> Carry f = false ->
  exists h l f', (l ← L_add_c lo lo'; h ← L_add_c hi hi'; mret (h, l)) f = Some ((h, l), f') /\
    u32 h * 2 ^ 32 + u32 l =
    ((u32 hi * 2 ^ 32 + u32 lo) + (u32 hi' * 2 ^ 32 + u32 lo')) mod 2 ^ 64.
Proof.
  intros Hh Hl Hh' Hl' Hc.
  destruct (L_add_c_carry lo lo' f Hl Hl') as (l & f1 & Heq1 & _ & Hlo). rewrite Hc in Hlo.
  destruct (L_add_c_carry hi hi' f1 Hh Hh') as (h & f2 & Heq2 & _ & Hhi).
  exists h, l, f2. unfold mbind, op_bind. rewrite Heq1, Heq2. split; [done|].
  pose proof (wrap_u_range 32 l ltac:(lia)). pose proof (wrap_u_range 32 h ltac:(lia)).
  change (2 ^ 64) with 18446744073709551616. change (2 ^ 32) with 4294967296 in *. cbn [Z.b2z] in Hlo.
  apply (Z.mod_unique _ _ (Z.b2z (Carry f2))); lia.
Qed.
