(* ===== verification/Oper32.v ===== *)
(** * Double precision and elementary functions of the codec

    [jni/bx16_fixedp/itug729ilib/oper_32b.c]: 32-bit numbers as a high part and a
    15-bit low part.  [jni/bx16_fixedp/bvcommon/mathutil.c] with the tables of
    [mathtables.c]: powers and logarithms to the base 2, square roots.  A
    computation that has no result ([None]) has ended the program or read outside
    a table. *)

From stdpp Require Import base list.
From Stdlib Require Import ZArith Lia ZifyBool Sorted.
From S2P Require Import Prelude BasicOps.

Open Scope Z_scope.

(** ** oper_32b.c *)

Definition L_Extract (L_32 : Z) : op (Z * Z) :=
  let hi := extract_h L_32 in
  half ← L_shr L_32 1;
  lo ← L_msu half hi 16384;
  mret (hi, extract_l lo).

Definition L_Comp (hi lo : Z) : op Z := L_mac (L_deposit_h hi) lo 1.

Definition Mpy_32 (hi1 lo1 hi2 lo2 : Z) : op Z :=
  L_32 ← L_mult hi1 hi2;
  p ← mult hi1 lo2;
  L_32 ← L_mac L_32 p 1;
  p ← mult lo1 hi2;
  L_mac L_32 p 1.

Definition Mpy_32_16 (hi lo n : Z) : op Z :=
  L_32 ← L_mult hi n;
  p ← mult lo n;
  L_mac L_32 p 1.

Definition Div_32 (L_num denom_hi denom_lo : Z) : op Z :=
  approx ← div_s 16383 denom_hi;
  L_32 ← Mpy_32_16 denom_hi denom_lo approx;
  L_32 ← L_sub 2147483647 L_32;
  '(hi, lo) ← L_Extract L_32;
  L_32 ← Mpy_32_16 hi lo approx;
  '(hi, lo) ← L_Extract L_32;
  '(n_hi, n_lo) ← L_Extract L_num;
  L_32 ← Mpy_32 n_hi n_lo hi lo;
  L_shl L_32 2.

(** ** mathtables.c *)

Definition tabpow : list Z :=
  [ 16384; 16562; 16743; 16925; 17109; 17296; 17484; 17674; 17867;
    18061; 18258; 18457; 18658; 18861; 19066; 19274; 19484; 19696;
    19911; 20127; 20347; 20568; 20792; 21019; 21247; 21479; 21713;
    21949; 22188; 22430; 22674; 22921; 23170; 23423; 23678; 23936;
    24196; 24460; 24726; 24995; 25268; 25543; 25821; 26102; 26386;
    26674; 26964; 27258; 27554; 27855; 28158; 28464; 28774; 29088;
    29405; 29725; 30048; 30376; 30706; 31041; 31379; 31720; 32066;
    32415; 32767 ].

Definition tablog : list Z :=
  [ 0; 733; 1455; 2166; 2866; 3556; 4236; 4907; 5568;
    6220; 6863; 7498; 8124; 8742; 9352; 9954; 10549; 11136;
    11716; 12289; 12855; 13415; 13968; 14514; 15055; 15589; 16117;
    16639; 17156; 17667; 18173; 18673; 19168; 19658; 20143; 20623;
    21098; 21568; 22034; 22495; 22952; 23404; 23852; 24296; 24736;
    25172; 25604; 26031; 26455; 26876; 27292; 27705; 28114; 28520;
    28922; 29321; 29717; 30109; 30498; 30884; 31267; 31647; 32024;
    32397; 32767 ].

Definition tabsqrt : list Z :=
  [ 0; 4096; 5793; 7094; 8192; 9159; 10033;
    10837; 11585; 12288; 12953; 13585; 14189; 14768;
    15326; 15864; 16384; 16888; 17378; 17854; 18318;
    18770; 19212; 19644; 20066; 20480; 20886; 21283;
    21674; 22058; 22435; 22806; 23170; 23530; 23884;
    24232; 24576; 24915; 25249; 25580; 25905; 26227;
    26545; 26859; 27170; 27477; 27780; 28081; 28378;
    28672; 28963; 29251; 29537; 29819; 30099; 30377;
    30652; 30924; 31194; 31462; 31727; 31991; 32252;
    32511; 32767 ].

(** An element of a table: nothing is defined outside it. *)
Definition at_ (table : list Z) (i : Z) : op Z :=
  if i <? 0 then ends
  else match table !! Z.to_nat i with Some v => mret v | None => ends end.

(** ** mathutil.c *)

Definition Pow2 (int_comp frac_comp : Z) : op Z :=
  idx_frac ← shr frac_comp 9;
  sub_frac ← shl (Z.land frac_comp 511) 6;
  frac ← at_ tabpow idx_frac;
  next ← at_ tabpow (idx_frac + 1);
  sub_tab ← sub next frac;
  a0 ← L_mac (L_deposit_h frac) sub_frac sub_tab;
  n ← sub 30 int_comp;
  L_shr_r a0 n.

(** The results [*int_comp] and [*frac_comp]. *)
Definition Log2 (x : Z) : op (Z * Z) :=
  if x <=? 0 then mret (0, 0)
  else
    let exp := norm_l x in
    a0 ← L_shl x exp;
    a0 ← L_sub a0 1073741824;
    a0 ← L_shr a0 8;
    let idx_man := extract_h a0 in
    half ← L_shr (Z.land a0 65535) 1;
    let sub_man := extract_l half in
    t0 ← at_ tablog idx_man;
    t1 ← at_ tablog (idx_man + 1);
    sub_tab ← sub t1 t0;
    a0 ← L_mac (L_deposit_h t0) sub_man sub_tab;
    frac_comp ← intround a0;
    int_comp ← sub 30 exp;
    mret (int_comp, frac_comp).

(** Table look-up and interpolation at a normalised [xb]. *)
Definition sqrt_lookup (xb : Z) : op Z :=
  idx ← shr xb 9;
  t0 ← at_ tabsqrt idx;
  sub_frac ← shl (extract_l (Z.land xb 511)) 6;
  t1 ← at_ tabsqrt (idx + 1);
  sub_tab ← sub t1 t0;
  L_mac (L_deposit_h t0) sub_frac sub_tab.

Definition sqrts (x : Z) : op Z :=
  if x <=? 0 then mret 0
  else
    let exp := norm_s x in
    xb ← shl x exp;
    a0 ← sqrt_lookup xb;
    if Z.land exp 1 =? 0 then
      exp ← shr exp 1;
      a0 ← L_shr a0 exp;
      intround a0
    else
      exp ← add exp 1;
      exp ← shr exp 1;
      a0 ← L_shr a0 exp;
      y ← intround a0;
      a0 ← L_mac a0 13573 y;
      intround a0.

(** The results [*y_man] and [*y_exp]. *)
Definition sqrt_i (x_man x_exp : Z) : op (Z * Z) :=
  if x_man <=? 0 then mret (0, 0)
  else
    let exp := norm_s x_man in
    x_manb ← shl x_man exp;
    x_expb ← add x_exp exp;
    x_expb ← sub x_expb 15;
    a0 ← sqrt_lookup x_manb;
    let exp := norm_l a0 in
    a0 ← L_shl a0 exp;
    y ← intround a0;
    exp ← add 15 exp;
    if Z.land x_expb 1 =? 0 then
      s ← shr x_expb 1;
      exp ← add exp s;
      y_man ← div_s 16384 y;
      y_exp ← sub 29 exp;
      mret (y_man, y_exp)
    else if y <? 23170 then
      x1 ← add x_expb 1;
      s ← shr x1 1;
      exp ← add exp s;
      y_man ← div_s 11585 y;
      y_exp ← sub 29 exp;
      mret (y_man, y_exp)
    else
      x1 ← sub x_expb 1;
      s ← shr x1 1;
      exp ← add exp s;
      y_man ← div_s 23170 y;
      y_exp ← sub 29 exp;
      mret (y_man, y_exp).

(** ** Computations that return *)

Definition returns {A} (m : op A) (P : A -> Prop) : Prop :=
  forall f, exists a f', m f = Some (a, f') /\ P a.

Lemma returns_ret {A} (a : A) (P : A -> Prop) : P a -> returns (mret a) P.
Proof. intros H f. by exists a, f. Qed.
Lemma returns_bind {A B} (m : op A) (k : A -> op B) (P : A -> Prop) (Q : B -> Prop) :
  returns m P -> (forall a, P a -> returns (k a) Q) -> returns (m ≫= k) Q.
Proof.
  intros Hm Hk f. destruct (Hm f) as (a & f1 & Heq & Ha). destruct (Hk a Ha f1) as (b & f2 & Heq2 & Hb).
  exists b, f2. unfold mbind, op_bind. by rewrite Heq.
Qed.
Lemma returns_sat (m : op Z) lo hi v : (forall f, m f = sat lo hi v f) -> returns m (fun r => r = clip lo hi v).
Proof. intros H f. rewrite H. unfold sat. by eexists _, _. Qed.

Abbreviation clip16 := (clip (-32768) 32767).
Abbreviation clip32 := (clip (-2147483648) 2147483647).

Lemma clip_in lo hi v : lo <= v <= hi -> clip lo hi v = v.
Proof. unfold clip. lia. Qed.
Lemma clip16_word v : word16 (clip16 v).
Proof. unfold clip. words. lia. Qed.
Lemma clip32_word v : word32 (clip32 v).
Proof. unfold clip. words. lia. Qed.

Lemma returns_add a b : returns (add a b) (fun r => r = clip16 (a + b)).
Proof. apply returns_sat. intros f. apply saturate_sat. Qed.
Lemma returns_sub a b : returns (sub a b) (fun r => r = clip16 (a - b)).
Proof. apply returns_sat. intros f. apply saturate_sat. Qed.
Lemma returns_mult a b : word16 a -> word16 b -> returns (mult a b) (fun r => r = clip16 (a * b / 32768)).
Proof. intros. apply returns_sat. intros f. by apply mult_sat. Qed.
Lemma returns_shl v n : word16 v -> returns (shl v n) (fun r => r = clip16 (shift v n)).
Proof. intros. apply returns_sat. intros f. by apply shl_sat. Qed.
Lemma returns_shr v n : word16 v -> returns (shr v n) (fun r => r = clip16 (shift v (- n))).
Proof. intros. apply returns_sat. intros f. by apply shr_sat. Qed.
Lemma returns_L_add x y : word32 x -> word32 y -> returns (L_add x y) (fun r => r = clip32 (x + y)).
Proof. intros. apply returns_sat. intros f. by apply L_add_sat. Qed.
Lemma returns_L_sub x y : word32 x -> word32 y -> returns (L_sub x y) (fun r => r = clip32 (x - y)).
Proof. intros. apply returns_sat. intros f. by apply L_sub_sat. Qed.
Lemma returns_L_mult a b : word16 a -> word16 b -> returns (L_mult a b) (fun r => r = clip32 (2 * (a * b))).
Proof. intros. apply returns_sat. intros f. by apply L_mult_sat. Qed.
Lemma returns_L_shl x n : word32 x -> returns (L_shl x n) (fun r => r = clip32 (shift x n)).
Proof. intros. apply returns_sat. intros f. by apply L_shl_sat. Qed.
Lemma returns_L_shr x n : word32 x -> returns (L_shr x n) (fun r => r = clip32 (shift x (- n))).
Proof. intros. apply returns_sat. intros f. by apply L_shr_sat. Qed.

Lemma returns_L_mac x a b :
  word32 x -> word16 a -> word16 b ->
  returns (L_mac x a b) (fun r => r = clip32 (x + clip32 (2 * (a * b)))).
Proof.
  intros Hx Ha Hb. unfold L_mac. eapply returns_bind; [by apply returns_L_mult|]. cbn. intros p ->.
  apply returns_L_add; [done|apply clip32_word].
Qed.
Lemma returns_L_msu x a b :
  word32 x -> word16 a -> word16 b ->
  returns (L_msu x a b) (fun r => r = clip32 (x - clip32 (2 * (a * b)))).
Proof.
  intros Hx Ha Hb. unfold L_msu. eapply returns_bind; [by apply returns_L_mult|]. cbn. intros p ->.
  apply returns_L_sub; [done|apply clip32_word].
Qed.
Lemma returns_intround x : word32 x -> returns (intround x) (fun r => r = clip32 (x + 32768) / 65536).
Proof.
  intros Hx. unfold intround. eapply returns_bind; [apply returns_L_add; [done|words; lia]|]. cbn.
  intros r ->. apply returns_ret. apply extract_h_div, clip32_word.
Qed.
Lemma returns_L_shr_r x n : word32 x -> returns (L_shr_r x n) word32.
Proof.
  intros Hx f. rewrite L_shr_r_round by done. destruct (Z.ltb_spec 0 n).
  - eexists _, _. split; [done|]. assert (0 < 2 ^ n) by (apply Z.pow_pos_nonneg; lia).
    assert (2 ^ n = 2 * 2 ^ (n - 1)) by (rewrite <- Z.pow_succ_r by lia; f_equal; lia).
    words. split; [apply Z.div_le_lower_bound; nia|].
    enough ((x + 2 ^ (n - 1)) / 2 ^ n < 2147483648) by lia. apply Z.div_lt_upper_bound; nia.
  - unfold sat. eexists _, _. split; [done|]. apply clip32_word.
Qed.
Lemma returns_div_s a b : word16 a -> word16 b -> 0 <= a <= b -> 0 < b -> returns (div_s a b) (fun r => 0 <= r <= 32767).
Proof.
  intros Ha Hb Hab Hb0 f. rewrite div_s_spec by done.
  rewrite !(proj2 (Z.leb_le _ _)), (proj2 (Z.ltb_lt _ _)) by lia. cbn [andb].
  eexists _, _. split; [done|]. destruct (Z.eqb_spec a b); [words; lia|].
  split; [apply Z.div_pos; lia|]. enough (a * 32768 / b < 32768) by lia.
  apply Z.div_lt_upper_bound; lia.
Qed.
Lemma returns_at table i (P : Z -> Prop) :
  0 <= i < Z.of_nat (length table) -> Forall P table -> returns (at_ table i) P.
Proof.
  intros Hi Hall f. unfold at_. rewrite (proj2 (Z.ltb_ge _ _)) by lia.
  destruct (lookup_lt_is_Some_2 table (Z.to_nat i)) as [v Hv]; [lia|]. rewrite Hv.
  exists v, f. split; [done|]. by eapply Forall_lookup_1.
Qed.

(** [op_step]: the next operator of a sequence, its result named and its value
    substituted. *)
Ltac op_value lem := eapply returns_bind; [apply lem|cbn beta; intros ? ->].

(** ** Double precision *)

Lemma L_Extract_spec x :
  word32 x ->
  returns (L_Extract x) (fun '(hi, lo) => word16 hi /\ 0 <= lo <= 32767 /\ hi * 65536 + 2 * lo = x - x mod 2).
Proof.
  intros Hx. unfold L_Extract. rewrite extract_h_div by done.
  pose proof (Z.div_mod x 65536 ltac:(lia)) as Hd. pose proof (Z.mod_pos_bound x 65536 ltac:(lia)) as Hm.
  set (hi := x / 65536) in *. assert (word16 hi) as Hhi by (words; lia).
  op_value returns_L_shr; [done|]. change (shift x (Z.opp 1)) with (x / 2).
  pose proof (Z.div_mod x 2 ltac:(lia)) as Hd2. pose proof (Z.mod_pos_bound x 2 ltac:(lia)) as Hm2.
  set (h := x / 2) in *. rewrite clip_in by (words; lia).
  op_value returns_L_msu; [words; lia|done|words; lia|].
  rewrite (clip_in _ _ (2 * (hi * 16384))), clip_in by (words; lia).
  apply returns_ret. unfold extract_l. rewrite s16_id by (words; lia). words. lia.
Qed.

Lemma L_deposit_h_word v : word16 v -> L_deposit_h v = v * 65536 /\ word32 (v * 65536).
Proof.
  intros Hv. unfold L_deposit_h. rewrite Z.shiftl_mul_pow2 by lia. change (2 ^ 16) with 65536.
  split; [apply s32_id|]; words; lia.
Qed.

Lemma L_Comp_spec hi lo :
  word16 hi -> 0 <= lo <= 32767 -> returns (L_Comp hi lo) (fun r => r = hi * 65536 + 2 * lo).
Proof.
  intros Hhi Hlo f. unfold L_Comp. destruct (L_deposit_h_word hi Hhi) as [-> Hw].
  destruct (returns_L_mac (hi * 65536) lo 1 Hw ltac:(words; lia) ltac:(words; lia) f) as (r & f' & Heq & ->).
  eexists _, _. split; [done|]. rewrite (Z.mul_1_r lo), (clip_in _ _ (2 * lo)) by lia.
  apply clip_in. words. lia.
Qed.

(** The product with a low part, rounded down: an error of less than 2. *)
Lemma low_product lo n : 0 <= lo <= 32767 -> word16 n -> -32767 <= lo * n / 32768 <= 32766.
Proof.
  intros Hlo Hn. words. split; [apply Z.div_le_lower_bound; nia|].
  enough (lo * n / 32768 < 32767) by lia. apply Z.div_lt_upper_bound; nia.
Qed.

Lemma high_product a b : word16 a -> word16 b -> (a <> -32768 \/ b <> -32768) -> -1073709056 <= a * b <= 1073709056.
Proof. intros Ha Hb Hne. pose proof (word16_product a b Ha Hb). words. nia. Qed.

Lemma low_sign lo n : 0 <= lo <= 32767 -> word16 n -> (n <= 0 -> lo * n / 32768 <= 0) /\ (0 <= n -> 0 <= lo * n / 32768).
Proof.
  intros Hlo Hn. split; intros Hs.
  - apply Z.div_le_upper_bound; nia.
  - apply Z.div_pos; nia.
Qed.

Lemma mac_double x q : word32 x -> word16 q -> word32 (x + 2 * q) -> returns (L_mac x q 1) (fun r => r = x + 2 * q).
Proof.
  intros Hx Hq Hr f. destruct (returns_L_mac x q 1 Hx Hq ltac:(words; lia) f) as (r & f' & Heq & ->).
  eexists _, _. split; [done|]. words. rewrite Z.mul_1_r, (clip_in _ _ (2 * q)) by lia. apply clip_in. lia.
Qed.

Lemma Mpy_32_16_spec hi lo n :
  word16 hi -> 0 <= lo <= 32767 -> word16 n -> (hi <> -32768 \/ n <> -32768) ->
  returns (Mpy_32_16 hi lo n) (fun r => r = 2 * (hi * n) + 2 * (lo * n / 32768)).
Proof.
  intros Hhi Hlo Hn Hne. unfold Mpy_32_16. pose proof (high_product hi n Hhi Hn Hne).
  pose proof (low_product lo n Hlo Hn) as Hq. destruct (low_sign lo n Hlo Hn).
  set (q := lo * n / 32768) in *.
  op_value returns_L_mult; [done..|]. rewrite clip_in by lia.
  op_value returns_mult; [words; lia|done|]. fold q. rewrite clip_in by lia.
  apply mac_double; words; [lia|lia|]. nia.
Qed.

Lemma Mpy_32_spec hi1 lo1 hi2 lo2 :
  word16 hi1 -> 0 <= lo1 <= 32767 -> word16 hi2 -> 0 <= lo2 <= 32767 -> (hi1 <> -32768 \/ hi2 <> -32768) ->
  returns (Mpy_32 hi1 lo1 hi2 lo2)
    (fun r => r = 2 * (hi1 * hi2) + 2 * (lo2 * hi1 / 32768) + 2 * (lo1 * hi2 / 32768)).
Proof.
  intros H1 Hl1 H2 Hl2 Hne. unfold Mpy_32. pose proof (high_product hi1 hi2 H1 H2 Hne) as Hp.
  pose proof (low_product lo2 hi1 Hl2 H1) as Hq. destruct (low_sign lo2 hi1 Hl2 H1) as [Hqn Hqp].
  pose proof (low_product lo1 hi2 Hl1 H2) as Hr. destruct (low_sign lo1 hi2 Hl1 H2) as [Hrn Hrp].
  assert (hi1 <= 0 -> hi2 <= 0 -> 0 <= hi1 * hi2) by nia.
  assert (0 <= hi1 -> 0 <= hi2 -> 0 <= hi1 * hi2 <= 1073676289) by (words; nia).
  assert (hi1 <= 0 -> 0 <= hi2 -> hi1 * hi2 <= 0) by nia.
  assert (0 <= hi1 -> hi2 <= 0 -> hi1 * hi2 <= 0) by nia.
  op_value returns_L_mult; [done..|]. rewrite clip_in by lia.
  op_value returns_mult; [done|words; lia|]. rewrite (Z.mul_comm hi1 lo2).
  set (q := lo2 * hi1 / 32768) in *. set (p := hi1 * hi2) in *. rewrite clip_in by lia.
  eapply returns_bind; [apply mac_double; words; lia|]. cbn beta. intros ? ->.
  op_value returns_mult; [words; lia|done|]. set (r := lo1 * hi2 / 32768) in *. rewrite clip_in by lia.
  apply mac_double; words; lia.
Qed.

(** ** Tables *)

Definition ascending (table : list Z) (lo : Z) : Prop :=
  length table = 65%nat /\ StronglySorted Z.le table /\ Forall (fun v => lo <= v <= 32767) table.

#[local] Instance StronglySorted_dec {A} (R : relation A) `{!forall a b, Decision (R a b)} l :
  Decision (StronglySorted R l).
Proof.
  induction l as [|a l IH]; [left; constructor|].
  destruct IH as [IH|IH]; [|right; by inversion 1].
  destruct (decide (Forall (R a) l)) as [Ha|Ha]; [by left; constructor|right; by inversion 1].
Defined.
#[local] Instance ascending_dec table lo : Decision (ascending table lo).
Proof. unfold ascending. apply _. Defined.

Lemma tabpow_ascending : ascending tabpow 16384.
Proof. apply (bool_decide_unpack _). by vm_compute. Qed.
Lemma tablog_ascending : ascending tablog 0.
Proof. apply (bool_decide_unpack _). by vm_compute. Qed.
Lemma tabsqrt_ascending : ascending tabsqrt 0.
Proof. apply (bool_decide_unpack _). by vm_compute. Qed.

(** Two neighbours of an ascending table. *)
Lemma at_ascending table lo i :
  ascending table lo -> 0 <= i < 64 ->
  exists a b, (forall f, at_ table i f = Some (a, f)) /\ (forall f, at_ table (i + 1) f = Some (b, f)) /\
    table !! Z.to_nat i = Some a /\ lo <= a <= b /\ b <= 32767.
Proof.
  intros (Hlen & Hsorted & Hall) Hi.
  destruct (lookup_lt_is_Some_2 table (Z.to_nat i)) as [a Ha]; [lia|].
  destruct (lookup_lt_is_Some_2 table (Z.to_nat (i + 1))) as [b Hb]; [lia|].
  exists a, b. unfold at_. rewrite !(proj2 (Z.ltb_ge _ _)), Ha, Hb by lia.
  pose proof (StronglySorted_lookup _ _ _ _ _ _ Hsorted Ha Hb ltac:(lia)).
  pose proof (Forall_lookup_1 _ _ _ _ Hall Ha) as Hra. pose proof (Forall_lookup_1 _ _ _ _ Hall Hb) as Hrb.
  cbn beta in Hra, Hrb. split_and!; done || lia.
Qed.

(** Linear interpolation between them. *)
Lemma returns_interpolate a b s :
  0 <= a <= b -> b <= 32767 -> 0 <= s <= 32767 ->
  returns (d ← sub b a; L_mac (L_deposit_h a) s d) (fun r => a * 65536 <= r <= b * 65536).
Proof.
  intros Hab Hb Hs. destruct (L_deposit_h_word a ltac:(words; lia)) as [-> Hw].
  op_value returns_sub. rewrite clip_in by lia. intros f.
  destruct (returns_L_mac (a * 65536) s (b - a) Hw ltac:(words; lia) ltac:(words; lia) f) as (r & f' & Heq & ->).
  eexists _, _. split; [done|]. assert (0 <= s * (b - a) <= 32767 * (b - a)) by nia.
  rewrite (clip_in _ _ (2 * _)), clip_in by lia. lia.
Qed.

Lemma land_ones_range v n : 0 <= n -> 0 <= Z.land v (Z.ones n) < 2 ^ n.
Proof. intros Hn. rewrite Z.land_ones by done. apply Z.mod_pos_bound. by apply Z.pow_pos_nonneg. Qed.

(** The interval of a table of 64, and the position in it, from 15 bits. *)
Lemma returns_index v : 0 <= v <= 32767 -> returns (shr v 9) (fun i => i = v / 512 /\ 0 <= i < 64).
Proof.
  intros Hv f. destruct (returns_shr v 9 ltac:(words; lia) f) as (i & f' & Heq & ->).
  change (shift v (Z.opp 9)) with (v / 512) in *. pose proof (Z.div_mod v 512 ltac:(lia)).
  pose proof (Z.mod_pos_bound v 512 ltac:(lia)). rewrite clip_in in Heq by lia.
  exists (v / 512), f'. split; [done|lia].
Qed.

Lemma land_511 v : 0 <= Z.land v 511 <= 511.
Proof.
  pose proof (land_ones_range v 9 ltac:(lia)) as H. change (Z.ones 9) with 511 in H.
  change (2 ^ 9) with 512 in H. lia.
Qed.

Lemma returns_position v : returns (shl (Z.land v 511) 6) (fun s => 0 <= s <= 32767).
Proof.
  pose proof (land_511 v) as Hl. intros f.
  destruct (returns_shl (Z.land v 511) 6 ltac:(words; lia) f) as (s & f' & Heq & ->).
  unfold shift in Heq. change (0 <=? 6) with true in Heq. cbn match in Heq. change (2 ^ 6) with 64 in Heq.
  rewrite clip_in in Heq by lia. eexists _, _. split; [done|lia].
Qed.

Lemma returns_at_val table i a {B} (k : Z -> op B) P :
  (forall f, at_ table i f = Some (a, f)) -> returns (k a) P -> returns (at_ table i ≫= k) P.
Proof. intros Hat Hk f. unfold mbind, op_bind. rewrite Hat. apply Hk. Qed.

Lemma returns_sub_bind {B} b a (k : Z -> op B) P :
  word16 (b - a) -> returns (k (b - a)) P -> returns (sub b a ≫= k) P.
Proof. intros Hw Hk. op_value returns_sub. rewrite clip_in by (words; lia). done. Qed.

(** ** Square roots *)

Lemma returns_sqrt_lookup xb :
  16384 <= xb <= 32767 -> returns (sqrt_lookup xb) (fun r => 1073741824 <= r <= 2147418112).
Proof.
  intros Hx. unfold sqrt_lookup.
  eapply returns_bind; [apply returns_index; lia|]. intros i (-> & Hi).
  destruct (at_ascending tabsqrt 0 (xb / 512) tabsqrt_ascending Hi) as (a & b & Ha & Hb & Hat & Hab & Hb2).
  apply (returns_at_val _ _ a); [done|]. unfold extract_l. pose proof (land_511 xb).
  rewrite s16_id by (words; lia).
  eapply returns_bind; [apply returns_position|]. cbn beta. intros s Hs.
  apply (returns_at_val _ _ b); [done|].
  assert (16384 <= a) as Ha2.
  { destruct tabsqrt_ascending as (_ & Hsorted & _).
    assert (tabsqrt !! 32%nat = Some 23170) as H32 by done.
    destruct (decide (32 = Z.to_nat (xb / 512))%nat) as [Heq|Hne]; [rewrite <- Heq in Hat; rewrite Hat in H32; injection H32; lia|].
    pose proof (Z.div_le_lower_bound xb 512 32 ltac:(lia) ltac:(lia)).
    pose proof (StronglySorted_lookup _ _ _ _ _ _ Hsorted H32 Hat ltac:(lia)). lia. }
  intros f. destruct (returns_interpolate a b s ltac:(lia) Hb2 Hs f) as (r & f' & Heq & Hr).
  exists r, f'. split; [done|lia].
Qed.

Lemma returns_weaken {A} (m : op A) (P Q : A -> Prop) : returns m P -> (forall a, P a -> Q a) -> returns m Q.
Proof. intros Hm HPQ f. destruct (Hm f) as (a & f' & Heq & Ha). exists a, f'. auto. Qed.

(** Halving and rounding a positive 32-bit value. *)
Lemma returns_round x lo :
  word32 x -> 0 <= lo -> lo * 65536 <= x -> returns (intround x) (fun r => lo <= r <= 32767).
Proof.
  intros Hx Hlo Hl. eapply returns_weaken; [by apply returns_intround|]. cbn beta. intros r ->.
  unfold clip. words. split; [apply Z.div_le_lower_bound; lia|].
  enough (Z.max (-2147483648) (Z.min 2147483647 (x + 32768)) / 65536 < 32768) by lia.
  apply Z.div_lt_upper_bound; lia.
Qed.

Lemma returns_L_shr_pos x n :
  word32 x -> 0 <= x -> 0 <= n -> returns (L_shr x n) (fun r => 0 <= r /\ word32 r).
Proof.
  intros Hx Hpos Hn. eapply returns_weaken; [by apply returns_L_shr|]. cbn beta. intros r ->.
  split; [|apply clip32_word]. unfold clip, shift. destruct (Z.leb_spec 0 (- n)); [|].
  - assert (n = 0) as -> by lia. cbn. lia.
  - pose proof (Z.div_pos x (2 ^ (- - n)) Hpos ltac:(apply Z.pow_pos_nonneg; lia)). lia.
Qed.

Lemma norm_s_pos v : 0 < v <= 32767 -> 0 <= norm_s v <= 15 /\ 16384 <= v * 2 ^ norm_s v <= 32767.
Proof.
  intros Hv. destruct (norm_s_normalised v ltac:(words; lia) ltac:(lia)) as [Hn Hr]. split; [done|].
  unfold normalised in Hr. cbn [Z.sub Z.add Z.opp Z.pos_sub] in Hr.
  change (2 ^ 14) with 16384 in Hr. change (2 ^ 15) with 32768 in Hr.
  pose proof (Z.pow_pos_nonneg 2 (norm_s v) ltac:(lia) ltac:(lia)). nia.
Qed.

Lemma norm_l_pos x : 0 < x <= 2147483647 -> 0 <= norm_l x <= 31 /\ 1073741824 <= x * 2 ^ norm_l x <= 2147483647.
Proof.
  intros Hv. destruct (norm_l_normalised x ltac:(words; lia) ltac:(lia)) as [Hn Hr]. split; [done|].
  unfold normalised in Hr. cbn [Z.sub Z.add Z.opp Z.pos_sub] in Hr.
  change (2 ^ 30) with 1073741824 in Hr. change (2 ^ 31) with 2147483648 in Hr.
  pose proof (Z.pow_pos_nonneg 2 (norm_l x) ltac:(lia) ltac:(lia)). nia.
Qed.

Lemma returns_normal_s v : 0 < v <= 32767 -> returns (shl v (norm_s v)) (fun r => 16384 <= r <= 32767).
Proof.
  intros Hv. destruct (norm_s_pos v Hv) as [Hn Hr]. eapply returns_weaken; [apply returns_shl; words; lia|].
  cbn beta. intros r ->. unfold shift. rewrite (proj2 (Z.leb_le _ _)), clip_in by lia. done.
Qed.

Lemma returns_normal_l x :
  0 < x <= 2147483647 -> returns (L_shl x (norm_l x)) (fun r => r = x * 2 ^ norm_l x /\ 1073741824 <= r <= 2147483647).
Proof.
  intros Hv. destruct (norm_l_pos x Hv) as [Hn Hr]. eapply returns_weaken; [apply returns_L_shl; words; lia|].
  cbn beta. intros r ->. unfold shift. rewrite (proj2 (Z.leb_le _ _)), clip_in by lia. done.
Qed.

Lemma returns_sqrts v : word16 v -> returns (sqrts v) (fun r => 0 <= r <= 32767).
Proof.
  intros Hv. unfold sqrts. destruct (Z.leb_spec v 0); [by apply returns_ret|].
  words. eapply returns_bind; [apply returns_normal_s; lia|]. cbn beta. intros xb Hxb.
  destruct (norm_s_pos v ltac:(lia)) as [Hn _]. set (exp := norm_s v) in *.
  eapply returns_bind; [by apply returns_sqrt_lookup|]. cbn beta. intros a0 Ha0.
  assert (forall e, 0 <= e <= 16 -> returns (shr e 1) (fun r => 0 <= r)) as Hshr.
  { intros e He. eapply returns_weaken; [apply returns_shr; words; lia|]. cbn beta. intros r ->.
    change (shift e (Z.opp 1)) with (e / 2). pose proof (Z.div_pos e 2 ltac:(lia) ltac:(lia)).
    unfold clip. lia. }
  destruct (_ =? 0).
  - eapply returns_bind; [apply Hshr; lia|]. cbn beta. intros e He.
    eapply returns_bind; [apply returns_L_shr_pos; words; lia|]. cbn beta. intros a1 [Ha1 Hw1].
    apply returns_round; [done|lia|lia].
  - op_value returns_add. rewrite clip_in by lia.
    eapply returns_bind; [apply Hshr; lia|]. cbn beta. intros e He.
    eapply returns_bind; [apply returns_L_shr_pos; words; lia|]. cbn beta. intros a1 [Ha1 Hw1].
    eapply returns_bind; [apply (returns_round a1 0); [done|lia|lia]|]. cbn beta. intros y Hy.
    eapply returns_bind; [apply returns_L_mac; [done|words; lia|words; lia]|]. cbn beta. intros a2 ->.
    apply returns_round; [apply clip32_word|lia|]. unfold clip. lia.
Qed.

Lemma returns_sqrt_i m e :
  word16 m -> word16 e -> returns (sqrt_i m e) (fun '(y_man, y_exp) => 0 <= y_man <= 32767 /\ word16 y_exp).
Proof.
  intros Hm He. unfold sqrt_i. destruct (Z.leb_spec m 0); [apply returns_ret; words; lia|].
  words. eapply returns_bind; [apply returns_normal_s; lia|]. cbn beta. intros xb Hxb.
  op_value returns_add. op_value returns_sub. set (x_expb := clip16 (clip16 _ - 15)).
  assert (word16 x_expb) as Hx by apply clip16_word. clearbody x_expb.
  eapply returns_bind; [by apply returns_sqrt_lookup|]. cbn beta. intros a0 Ha0.
  eapply returns_bind; [apply returns_normal_l; lia|]. cbn beta. intros a1 [_ Ha1].
  eapply returns_bind; [apply (returns_round a1 16384); words; lia|]. cbn beta. intros y Hy.
  op_value returns_add. set (exp := clip16 (15 + _)). clearbody exp.
  assert (forall v, word16 v -> returns (shr v 1) word16) as Hshr.
  { intros v Hv. eapply returns_weaken; [by apply returns_shr|]. cbn beta. intros r ->. apply clip16_word. }
  assert (forall v q, word16 v -> 0 <= q <= y ->
            returns (s ← shr v 1; exp ← add exp s; y_man ← div_s q y; y_exp ← sub 29 exp; mret (y_man, y_exp))
              (fun '(y_man, y_exp) => 0 <= y_man <= 32767 /\ -32768 <= y_exp <= 32767)) as Hfinish.
  { intros v q Hv Hq. eapply returns_bind; [by apply Hshr|]. cbn beta. intros s Hs. op_value returns_add.
    eapply returns_bind; [apply returns_div_s; words; lia|]. cbn beta. intros ym Hym.
    op_value returns_sub. apply returns_ret. split; [done|]. apply clip16_word. }
  destruct (_ =? 0); [apply Hfinish; [done|lia]|].
  destruct (Z.ltb_spec y 23170).
  - op_value returns_add. apply Hfinish; [apply clip16_word|lia].
  - op_value returns_sub. apply Hfinish; [apply clip16_word|lia].
Qed.

(** ** Powers and logarithms *)

Lemma returns_Log2 x :
  0 < x -> word32 x ->
  returns (Log2 x) (fun '(int_comp, frac_comp) => int_comp = Z.log2 x /\ 0 <= frac_comp <= 32767).
Proof.
  intros Hpos Hx. unfold Log2. words. rewrite (proj2 (Z.leb_gt _ _)) by lia.
  destruct (norm_l_pos x ltac:(lia)) as [Hn Hr]. set (exp := norm_l x) in *.
  assert (Z.log2 x = 30 - exp /\ exp <= 30) as [Hlog Hexp].
  { assert (exp <= 30) as Hle.
    { destruct (Z.le_gt_cases exp 30); [done|]. exfalso. assert (exp = 31) as He by lia.
      rewrite He in Hr. change (2 ^ 31) with 2147483648 in Hr. lia. }
    split; [|done]. apply Z.log2_unique; [lia|].
    assert (2 ^ (30 - exp) * 2 ^ exp = 1073741824) as H1 by (rewrite <- Z.pow_add_r by lia; by replace (30 - exp + exp) with 30 by lia).
    assert (2 ^ (Z.succ (30 - exp)) = 2 * 2 ^ (30 - exp)) as -> by (rewrite Z.pow_succ_r by lia; done).
    pose proof (Z.pow_pos_nonneg 2 exp ltac:(lia) ltac:(lia)). nia. }
  eapply returns_bind; [apply returns_normal_l; lia|]. cbn beta. intros a0 [_ Ha0].
  op_value returns_L_sub; [words; lia|words; lia|]. rewrite clip_in by lia. set (m := a0 - 1073741824).
  op_value returns_L_shr; [words; lia|]. change (shift m (Z.opp 8)) with (m / 256).
  assert (0 <= m / 256 < 4194304) as Hm.
  { split; [apply Z.div_pos; lia|]. apply Z.div_lt_upper_bound; lia. }
  rewrite clip_in by lia. set (a1 := m / 256) in *. rewrite extract_h_div by (words; lia).
  pose proof (land_ones_range a1 16 ltac:(lia)) as Hland. change (Z.ones 16) with 65535 in Hland.
  change (2 ^ 16) with 65536 in Hland.
  op_value returns_L_shr; [words; lia|]. change (shift (Z.land a1 65535) (Z.opp 1)) with (Z.land a1 65535 / 2).
  assert (0 <= Z.land a1 65535 / 2 <= 32767) as Hs.
  { split; [apply Z.div_pos; lia|]. enough (Z.land a1 65535 / 2 < 32768) by lia. apply Z.div_lt_upper_bound; lia. }
  rewrite clip_in by lia. set (s := Z.land a1 65535 / 2) in *. unfold extract_l. rewrite s16_id by (words; lia).
  assert (0 <= a1 / 65536 < 64) as Hi.
  { split; [apply Z.div_pos; lia|]. apply Z.div_lt_upper_bound; lia. }
  destruct (at_ascending tablog 0 (a1 / 65536) tablog_ascending Hi) as (a & b & Ha & Hb & _ & Hab & Hb2).
  apply (returns_at_val _ _ a); [done|]. apply (returns_at_val _ _ b); [done|].
  apply returns_sub_bind; [words; lia|].
  assert (returns (L_mac (L_deposit_h a) s (b - a)) (fun r => a * 65536 <= r <= b * 65536)) as Hmac.
  { intros f. destruct (returns_interpolate a b s ltac:(lia) Hb2 Hs f) as (r & f' & Heq & Hr').
    unfold mbind, op_bind in Heq. unfold sub in Heq. rewrite saturate_sat, sat_in in Heq by lia. by exists r, f'. }
  eapply returns_bind; [apply Hmac|]. cbn beta. intros a2 Ha2.
  eapply returns_bind; [apply (returns_round a2 0); words; lia|]. cbn beta. intros y Hy.
  apply returns_sub_bind; [words; lia|]. apply returns_ret. by rewrite Hlog.
Qed.

Lemma returns_Pow2 i v : word16 i -> 0 <= v <= 32767 -> returns (Pow2 i v) word32.
Proof.
  intros Hi Hv. unfold Pow2.
  eapply returns_bind; [by apply returns_index|]. intros j (-> & Hj).
  eapply returns_bind; [apply returns_position|]. cbn beta. intros s Hs.
  destruct (at_ascending tabpow 16384 (v / 512) tabpow_ascending Hj) as (a & b & Ha & Hb & _ & Hab & Hb2).
  apply (returns_at_val _ _ a); [done|]. apply (returns_at_val _ _ b); [done|].
  apply returns_sub_bind; [words; lia|].
  destruct (L_deposit_h_word a ltac:(words; lia)) as [-> Hw].
  eapply returns_bind; [apply returns_L_mac; [done|words; lia|words; lia]|]. cbn beta. intros r ->.
  op_value returns_sub. apply returns_L_shr_r, clip32_word.
Qed.

(** ** Theorems *)

(** Splitting a 32-bit number and composing the parts gives the number back
    but for its lowest bit, with a low part that is never negative. *)
Theorem double_precision_roundtrip x :
  word32 x ->
  returns (p ← L_Extract x; y ← L_Comp p.1 p.2; mret (p, y))
    (fun '((hi, lo), y) => word16 hi /\ 0 <= lo <= 32767 /\ y = x - x mod 2).
Proof.
  intros Hx. eapply returns_bind; [by apply L_Extract_spec|]. intros [hi lo] (Hhi & Hlo & Heq).
  eapply returns_bind; [by apply L_Comp_spec|]. cbn beta. intros y ->. apply returns_ret. done.
Qed.

(** The products in double precision are rounded down by less than two units
    (16 by 32 bits) or six (32 by 32), unless both high parts are the least 16-bit
    number, and never saturate; [L_mls] is the exact product shifted down, clipped. *)
Theorem double_precision_products hi1 lo1 hi2 lo2 n x :
  word16 hi1 -> 0 <= lo1 <= 32767 -> word16 hi2 -> 0 <= lo2 <= 32767 -> word16 n -> word32 x ->
  (hi1 <> -32768 \/ n <> -32768) -> (hi1 <> -32768 \/ hi2 <> -32768) -> (x / 65536 <> -32768 \/ n <> -32768) ->
  returns (Mpy_32_16 hi1 lo1 n)
    (fun r => r * 2 ^ 15 <= (hi1 * 65536 + 2 * lo1) * n < (r + 2) * 2 ^ 15) /\
  returns (Mpy_32 hi1 lo1 hi2 lo2)
    (fun r => r * 2 ^ 31 <= (hi1 * 65536 + 2 * lo1) * (hi2 * 65536 + 2 * lo2) < (r + 6) * 2 ^ 31) /\
  returns (L_mls x n) (fun r => r = clip32 (x * n / 2 ^ 15)).
Proof.
  intros H1 Hl1 H2 Hl2 Hn Hx Hne1 Hne2 Hne3. split_and!.
  - eapply returns_weaken; [by apply Mpy_32_16_spec|]. cbn beta. intros r ->. change (2 ^ 15) with 32768.
    pose proof (Z.div_mod (lo1 * n) 32768 ltac:(lia)). pose proof (Z.mod_pos_bound (lo1 * n) 32768 ltac:(lia)).
    lia.
  - eapply returns_weaken; [by apply Mpy_32_spec|]. cbn beta. intros r ->. change (2 ^ 31) with 2147483648.
    pose proof (Z.div_mod (lo1 * hi2) 32768 ltac:(lia)). pose proof (Z.mod_pos_bound (lo1 * hi2) 32768 ltac:(lia)).
    pose proof (Z.div_mod (lo2 * hi1) 32768 ltac:(lia)). pose proof (Z.mod_pos_bound (lo2 * hi1) 32768 ltac:(lia)).
    assert (0 <= lo1 * lo2 <= 1073676289) by nia. lia.
  - unfold L_mls. pose proof (land_ones_range x 16 ltac:(lia)) as Hland. rewrite Z.land_ones in Hland by lia.
    change 65535 with (Z.ones 16). rewrite Z.land_ones by lia. change (2 ^ 16) with 65536 in *.
    pose proof (Z.div_mod x 65536 ltac:(lia)) as Hdm. set (lo := x mod 65536) in *.
    rewrite extract_h_div by done. set (hi := x / 65536) in *.
    assert (word16 hi) as Hhi by (words; lia). pose proof (high_product hi n Hhi Hn Hne3).
    assert (-2147450880 <= lo * n <= 2147450880) as Hp by (words; nia).
    rewrite s32_id by (words; lia).
    op_value returns_L_shr; [words; lia|]. change (shift (lo * n) (Z.opp 15)) with (lo * n / 32768).
    change (2 ^ 15) with 32768.
    assert (-65535 <= lo * n / 32768 <= 65535) as Hq.
    { split; [apply Z.div_le_lower_bound; lia|]. apply Z.div_le_upper_bound; lia. }
    rewrite clip_in by lia. eapply returns_weaken; [apply returns_L_mac; [words; lia|done|done]|].
    cbn beta. intros r ->. rewrite (Z.mul_comm n hi), (clip_in _ _ (2 * (hi * n))) by lia. f_equal.
    replace (x * n) with (lo * n + 2 * (hi * n) * 32768) by (rewrite Hdm; ring).
    rewrite Z.div_add by lia. lia.
Qed.

(** C19. The elementary functions always return: their table indices are within the
    tables and the operands of their divisions in range.  [Log2] splits a positive
    number into the integer part of its logarithm and a fraction; [Pow2] needs a
    fraction that is not negative. *)
Theorem elementary_functions_return x v i fr e :
  0 < x -> word32 x -> word16 v -> word16 i -> 0 <= fr <= 32767 -> word16 e ->
  returns (Log2 x) (fun '(int_comp, frac_comp) => int_comp = Z.log2 x /\ 0 <= frac_comp <= 32767) /\
  returns (Pow2 i fr) word32 /\
  returns (sqrts v) (fun y => 0 <= y <= 32767) /\
  returns (sqrt_i v e) (fun '(y_man, y_exp) => 0 <= y_man <= 32767 /\ word16 y_exp).
Proof.
  intros. split_and!; [by apply returns_Log2|by apply returns_Pow2|by apply returns_sqrts|by apply returns_sqrt_i].
Qed.

(** ** Witnesses *)

Definition f0 : flags := Flags false false.

Lemma basic_operators_saturate_witness :
  add 30000 10000 f0 = Some (32767, Flags true false) /\ L_mult (-32768) (-32768) f0 = Some (2147483647, Flags true false).
Proof.
  destruct (basic_operators_saturate 30000 10000 0 0 f0 ltac:(words; lia) ltac:(words; lia)
              ltac:(words; lia) ltac:(words; lia)) as [[Hadd _] _].
  destruct (basic_operators_saturate (-32768) (-32768) 0 0 f0 ltac:(words; lia) ltac:(words; lia)
              ltac:(words; lia) ltac:(words; lia)) as [_ (_ & _ & Hmul & _)].
  rewrite Hadd, Hmul. split; by vm_compute.
Defined.

Lemma shifts_saturate_witness :
  shr (-5) 1 f0 = Some (-3, f0) /\ shr_r (-5) 1 f0 = Some (-2, f0) /\
  L_shl 1 40 f0 = Some (2147483647, Flags true false).
Proof.
  destruct (shifts_saturate (-5) 1 1 f0 ltac:(words; lia) ltac:(words; lia) ltac:(words; lia)) as (_ & H1 & _ & _ & H2).
  destruct (shifts_saturate 0 1 40 f0 ltac:(words; lia) ltac:(words; lia) ltac:(words; lia)) as (_ & _ & H3 & _).
  destruct (H2 ltac:(lia)) as [H2' _]. rewrite H1, H2', H3. split_and!; by vm_compute.
Defined.

Lemma norm_normalises_witness : norm_s (-5) = 12 /\ shl (-5) 12 f0 = Some (-20480, f0).
Proof.
  destruct (norm_normalises (-5) 1 f0 ltac:(words; lia) ltac:(words; lia) ltac:(lia) ltac:(lia)) as [(_ & H & _) _].
  assert (norm_s (-5) = 12) as Heq by by vm_compute. split; [exact Heq|]. rewrite Heq in H.
  rewrite H. by vm_compute.
Defined.

Lemma divisions_witness : div_s 1 3 f0 = Some (10922, f0) /\ div_s 4 3 f0 = None /\ div_l 100000 7 f0 = Some (7142, f0).
Proof.
  destruct (divisions 1 3 0 f0 ltac:(words; lia) ltac:(words; lia) ltac:(words; lia)) as [H1 _].
  destruct (divisions 4 3 0 f0 ltac:(words; lia) ltac:(words; lia) ltac:(words; lia)) as [H2 _].
  destruct (divisions 0 7 100000 f0 ltac:(words; lia) ltac:(words; lia) ltac:(words; lia)) as [_ H3].
  rewrite H1, H2, H3. split_and!; by vm_compute.
Defined.

Lemma L_add_c_double_witness :
  exists h l f', (l ← L_add_c (-1) 1; h ← L_add_c 0 0; mret (h, l)) f0 = Some ((h, l), f') /\ h = 1 /\ l = 0.
Proof.
  destruct (L_add_c_double 0 (-1) 0 1 f0 ltac:(words; lia) ltac:(words; lia) ltac:(words; lia) ltac:(words; lia) eq_refl)
    as (h & l & f' & Heq & _).
  exists h, l, f'. split; [exact Heq|].
  assert (Some ((1, 0), Flags false false) = Some ((h, l), f')) as [= <- <- <-] by (rewrite <- Heq; by vm_compute).
  done.
Defined.

Lemma double_precision_roundtrip_witness :
  exists f', (p ← L_Extract 1000001; y ← L_Comp p.1 p.2; mret (p, y)) f0 = Some ((15, 8480), 1000000, f').
Proof.
  destruct (double_precision_roundtrip 1000001 ltac:(words; lia) f0) as ([p y] & f' & Heq & _).
  assert (Some ((15, 8480), 1000000, f0) = Some (p, y, f')) as [= <- <- <-] by (rewrite <- Heq; by vm_compute).
  exists f0. exact Heq.
Defined.

Lemma double_precision_products_witness :
  exists r f', Mpy_32_16 16384 0 16384 f0 = Some (r, f') /\ r * 2 ^ 15 <= 16384 * 65536 * 16384 < (r + 2) * 2 ^ 15.
Proof.
  destruct (double_precision_products 16384 0 16384 0 16384 1 ltac:(words; lia) ltac:(lia) ltac:(words; lia) ltac:(lia)
    ltac:(words; lia) ltac:(words; lia) ltac:(left; lia) ltac:(left; lia) ltac:(right; lia)) as [H _].
  destruct (H f0) as (r & f' & Heq & Hr). exists r, f'. split; [exact Heq|]. lia.
Defined.

Lemma elementary_functions_return_witness :
  exists fr f', Log2 1000000 f0 = Some ((19, fr), f') /\ 0 <= fr <= 32767.
Proof.
  destruct (elementary_functions_return 1000000 1 1 1 1 ltac:(lia) ltac:(words; lia) ltac:(words; lia) ltac:(words; lia)
    ltac:(lia) ltac:(words; lia)) as [H _].
  destruct (H f0) as ([e fr] & f' & Heq & -> & Hfr). exists fr, f'. split; [|exact Hfr].
  replace 19 with (Z.log2 1000000) by (by vm_compute). exact Heq.
Defined.
