(* ===== verification/SqliteEncode.v ===== *)
(** * Binary data in SQL strings

    [jni/sqlite3/encode.c].  The encoder is given its input as the list of its
    bytes and its output as a buffer whose length is what was allocated; the
    decoder, which may work in place, is given one memory and the positions of
    its input and output in it. *)

From stdpp Require Import base list.
From Stdlib Require Import ZArith Lia ZifyBool ZifyNat.
From S2P Require Import Prelude.

Open Scope Z_scope.

(** ** The encoder *)

Definition QUOTE : Z := 39.

(** [out[j] = v]. *)
Definition store (out : list Z) (j v : Z) : res (list Z) :=
  if (0 <=? j) && (j <? Z.of_nat (length out)) then Ok (<[Z.to_nat j := v]> out)
  else Err OutOfBounds.

(** [for(i=n-1; i>=0; i--){ cnt[in[i]]++; }]. *)
Fixpoint count (input : list Z) (cnt : list Z) : list Z :=
  match input with
  | [] => cnt
  | c :: input =>
      let cnt := count input cnt in
      <[Z.to_nat c := (cnt !!! Z.to_nat c) + 1]> cnt
  end.

Definition escapes (cnt : list Z) (i : Z) : Z :=
  (cnt !!! Z.to_nat i) + (cnt !!! Z.to_nat (Z.land (i + 1) 255)) +
  (cnt !!! Z.to_nat (Z.land (i + QUOTE) 255)).

(** The loop over the offsets from [i] on, [k] of them; [e] is [None] while it has
    no value. *)
Fixpoint search (k : nat) (cnt : list Z) (i m : Z) (e : option Z) : Z * option Z :=
  match k with
  | O => (m, e)
  | S k =>
      if i =? QUOTE then search k cnt (i + 1) m e
      else
        let sum := escapes cnt i in
        if sum <? m then
          if sum =? 0 then (sum, Some i) else search k cnt (i + 1) sum (Some i)
        else search k cnt (i + 1) m e
  end.

Definition needs_escape (x : Z) : bool := (x =? 0) || (x =? 1) || (x =? QUOTE).

Fixpoint encode_loop (input : list Z) (e j : Z) (out : list Z) : res (Z * list Z) :=
  match input with
  | [] => Ok (j, out)
  | c :: input =>
      let x := u8 (c - e) in
      if needs_escape x then
        out ← store out j 1;
        out ← store out (j + 1) (u8 (x + 1));
        encode_loop input e (j + 2) out
      else
        out ← store out j x;
        encode_loop input e (j + 1) out
  end.

(** The return value, and the output buffer when there is one. *)
Definition sqlite_encode_binary (input : list Z) (out : option (list Z))
    : res (Z * option (list Z)) :=
  let n := Z.of_nat (length input) in
  if n <=? 0 then
    match out with
    | None => Ok (1, None)
    | Some out => out ← store out 0 120; out ← store out 1 0; Ok (1, Some out)
    end
  else
    let cnt := count input (replicate 256 0) in
    let '(m, e) := search 255 cnt 1 n None in
    match out with
    | None => Ok (n + m + 1, None)
    | Some out =>
        match e with
        | None => Err UninitRead
        | Some e =>
            out ← store out 0 e;
            '(j, out) ← encode_loop input e 1 out;
            out ← store out j 0;
            if j =? n + m + 1 then Ok (j, Some out) else Err AssertFailed
        end
    end.

(** ** The decoder *)

(** [mem[p]]. *)
Definition load (mem : list Z) (p : Z) : res Z :=
  if p <? 0 then Err OutOfBounds
  else match mem !! Z.to_nat p with Some v => Ok v | None => Err OutOfBounds end.

(** [input] and [output] are positions in [mem], which may be the same. *)
Fixpoint decode_loop (fuel : nat) (e : Z) (input output i : Z) (mem : list Z) : res (Z * list Z) :=
  match fuel with
  | O => Diverges
  | S fuel =>
      c ← load mem input;
      if c =? 0 then Ok (i, mem)
      else if c =? 1 then
        c ← load mem (input + 1);
        mem ← store mem (output + i) (u8 (u8 (c - 1) + e));
        decode_loop fuel e (input + 2) output (i + 1) mem
      else
        mem ← store mem (output + i) (u8 (c + e));
        decode_loop fuel e (input + 1) output (i + 1) mem
  end.

Definition sqlite_decode_binary (input output : Z) (mem : list Z) : res (Z * list Z) :=
  e ← load mem input;
  decode_loop (S (length mem)) e (input + 1) output 0 mem.

(** ** The encoding of a text, for a given offset *)

Definition byte (c : Z) : Prop := 0 <= c < 256.
Definition bytes (s : list Z) : Prop := Forall byte s.

Definition encode_byte (e c : Z) : list Z :=
  let x := u8 (c - e) in if needs_escape x then [1; x + 1] else [x].
Definition encode_body (e : Z) (s : list Z) : list Z := s ≫= encode_byte e.

(** The number of escapes that an offset costs. *)
Definition cost (e : Z) (s : list Z) : nat :=
  length (filter (fun c => needs_escape (u8 (c - e)) = true) s).

Definition offsets : list Z :=
  filter (fun i => i <> QUOTE) (Z.of_nat <$> seq 1 255).

Lemma byte_u8 c : byte (u8 c).
Proof. apply (wrap_u_range 8 c). lia. Qed.

Lemma u8_id c : byte c -> u8 c = c.
Proof. intros H. by apply wrap_u_id. Qed.

(** A property of bytes that a computation settles. *)
Lemma byte_forall (P : Z -> bool) :
  forallb P (Z.of_nat <$> seq 0 256) = true -> forall c, byte c -> P c = true.
Proof.
  rewrite forallb_forall. intros H c [Hc Hc']. apply H. apply list_elem_of_In.
  replace c with (Z.of_nat (Z.to_nat c)) by lia. apply list_elem_of_fmap_2, elem_of_seq. lia.
Qed.

Lemma needs_escape_succ x : needs_escape x = true -> u8 (x + 1) = x + 1 /\ x + 1 <> 0 /\ x + 1 <> QUOTE /\ byte (x + 1).
Proof.
  unfold needs_escape, QUOTE. rewrite !orb_true_iff, !Z.eqb_eq.
  intros [[-> | ->] | ->]; by vm_compute.
Qed.

Lemma encode_length e s : length (encode_body e s) = (length s + cost e s)%nat.
Proof.
  unfold encode_body, cost. induction s as [|c s IH]; [done|].
  cbn [mbind list_bind]. rewrite length_app, IH. unfold encode_byte.
  destruct (needs_escape (u8 (c - e))) eqn:Hx.
  - rewrite filter_cons_True by done. cbn. lia.
  - rewrite filter_cons_False by (by rewrite Hx). cbn. lia.
Qed.

(** Nothing that the encoding contains ends a string or a quotation. *)
Lemma encode_clean e s : Forall (fun x => byte x /\ x <> 0 /\ x <> QUOTE) (encode_body e s).
Proof.
  unfold encode_body. induction s as [|c s IH]; [constructor|].
  cbn [mbind list_bind]. apply Forall_app. split; [|done]. unfold encode_byte.
  destruct (needs_escape (u8 (c - e))) eqn:Hx.
  - destruct (needs_escape_succ _ Hx) as (_ & ? & ? & ?).
    rewrite !Forall_cons. split; [by vm_compute|]. by split.
  - unfold needs_escape in Hx. rewrite !orb_false_iff, !Z.eqb_neq in Hx. pose proof (byte_u8 (c - e)).
    rewrite Forall_cons. split; [tauto|done].
Qed.

(** ** Counting and choosing the offset *)

Lemma count_spec s cnt i :
  length cnt = 256%nat -> bytes s -> byte i ->
  length (count s cnt) = 256%nat /\
  count s cnt !!! Z.to_nat i = (cnt !!! Z.to_nat i) + Z.of_nat (length (filter (fun c => c = i) s)).
Proof.
  intros Hlen. induction 1 as [|c s Hc _ IH]; intros Hi; [cbn; split; [done|lia]|].
  destruct (IH Hi) as [IHlen IHi]. cbn [count]. rewrite length_insert. split; [done|].
  destruct (decide (c = i)) as [->|Hne].
  - rewrite list_lookup_total_insert_eq, IHi, filter_cons_True by (unfold byte in *; lia || done). cbn. lia.
  - rewrite list_lookup_total_insert_ne, IHi, filter_cons_False by (unfold byte in *; lia || done). done.
Qed.

(** Three byte values need an escape under an offset. *)
Lemma escapes_cost s e :
  bytes s -> byte e -> escapes (count s (replicate 256 0)) e = Z.of_nat (cost e s).
Proof.
  intros Hs He. unfold escapes.
  assert (forall i, byte i -> count s (replicate 256 0) !!! Z.to_nat i =
            Z.of_nat (length (filter (fun c => c = i) s))) as Hcnt.
  { intros i Hi. destruct (count_spec s (replicate 256 0) i) as [_ ->]; [done..|].
    rewrite lookup_total_replicate_2 by (unfold byte in Hi; lia). lia. }
  assert (forall k, Z.land (e + k) 255 = u8 (e + k)) as Hland.
  { intros k. change 255 with (Z.ones 8). by rewrite Z.land_ones. }
  rewrite !Hland, !Hcnt by (done || apply byte_u8). unfold cost.
  assert (forall c, byte c -> needs_escape (u8 (c - e)) = true <-> c = e \/ c = u8 (e + 1) \/ c = u8 (e + QUOTE)) as Hne.
  { intros c Hc. unfold needs_escape, QUOTE, wrap_u, byte in *. rewrite !orb_true_iff, !Z.eqb_eq.
    change (2 ^ 8) with 256.
    pose proof (Z.div_mod (c - e) 256 ltac:(lia)). pose proof (Z.mod_pos_bound (c - e) 256 ltac:(lia)).
    pose proof (Z.div_mod (e + 1) 256 ltac:(lia)). pose proof (Z.mod_pos_bound (e + 1) 256 ltac:(lia)).
    pose proof (Z.div_mod (e + 39) 256 ltac:(lia)). pose proof (Z.mod_pos_bound (e + 39) 256 ltac:(lia)).
    lia. }
  assert (e <> u8 (e + 1) /\ e <> u8 (e + QUOTE) /\ u8 (e + 1) <> u8 (e + QUOTE)) as (Hd1 & Hd2 & Hd3).
  { unfold QUOTE, wrap_u, byte in *. change (2 ^ 8) with 256.
    pose proof (Z.div_mod (e + 1) 256 ltac:(lia)). pose proof (Z.mod_pos_bound (e + 1) 256 ltac:(lia)).
    pose proof (Z.div_mod (e + 39) 256 ltac:(lia)). pose proof (Z.mod_pos_bound (e + 39) 256 ltac:(lia)).
    lia. }
  clear Hcnt. induction Hs as [|c s Hc Hs IH]; [done|]. specialize (Hne c Hc).
  destruct (decide (needs_escape (u8 (c - e)) = true)) as [Hx|Hx].
  - rewrite (filter_cons_True (fun c => needs_escape (u8 (c - e)) = true)) by done.
    destruct (proj1 Hne Hx) as [-> | [-> | ->]];
      repeat first [rewrite filter_cons_True by done | rewrite filter_cons_False by congruence]; cbn [length] in *; lia.
  - rewrite (filter_cons_False (fun c => needs_escape (u8 (c - e)) = true)) by done.
    rewrite !filter_cons_False by (intros ->; tauto). done.
Qed.

(** What the loop over the offsets finds: nothing better than [m], or the best. *)
Lemma search_spec cnt k i m e :
  (forall j, 1 <= j < 256 -> 0 <= escapes cnt j) -> 1 <= i -> i + Z.of_nat k = 256 ->
  let '(m', e') := search k cnt i m e in
  (e' = e /\ m' = m /\ forall j, i <= j < 256 -> j <> QUOTE -> m <= escapes cnt j) \/
  (exists e0, e' = Some e0 /\ i <= e0 < 256 /\ e0 <> QUOTE /\ m' = escapes cnt e0 /\ m' < m /\
    forall j, i <= j < 256 -> j <> QUOTE -> m' <= escapes cnt j).
Proof.
  intros Hpos. revert i m e. induction k as [|k IH]; intros i m e Hi1 Hk.
  { left. split_and!; [done|done|]. intros j Hj. lia. }
  cbn [search]. destruct (Z.eqb_spec i QUOTE) as [Hi|Hi];
    [|destruct (Z.ltb_spec (escapes cnt i) m) as [Hlt|Hge];
      [destruct (Z.eqb_spec (escapes cnt i) 0) as [Hz|Hz]|]].
  2: { right. exists i. split_and!; try done; try lia. intros j Hj _. rewrite Hz. apply Hpos. lia. }
  all: match goal with IH : _ |- context [search ?k ?cnt (?i + 1) ?m ?e] =>
         specialize (IH (i + 1) m e ltac:(lia) ltac:(lia)); destruct (search k cnt (i + 1) m e) as [m' e'] end;
    destruct IH as [(He & Hm & Hall)|(e0 & He & Hr & Hq & Hm & Hlt' & Hall)].
  all: let fin := (split_and!; try done; try lia; intros j Hj Hjq;
         (destruct (decide (j = i)) as [->|]; [lia|]); first [apply Hall; lia | rewrite Hm; apply Hall; lia]) in
    first [solve [left; fin] | solve [right; eexists; split; [exact He|]; fin]].
Qed.

Lemma sum_list_with_add {A} (f g : A -> nat) l :
  sum_list_with (fun a => f a + g a)%nat l = (sum_list_with f l + sum_list_with g l)%nat.
Proof. induction l; cbn; lia. Qed.

Lemma sum_list_with_ext {A} (f g : A -> nat) l :
  (forall a, f a = g a) -> sum_list_with f l = sum_list_with g l.
Proof. intros H. induction l as [|a l IH]; cbn; [done|]. by rewrite H, IH. Qed.

Lemma sum_list_with_le {A} (f : A -> nat) l m :
  Forall (fun a => (m <= f a)%nat) l -> (length l * m <= sum_list_with f l)%nat.
Proof. induction 1; cbn; lia. Qed.

(** Each byte needs an escape under three offsets at most. *)
Lemma total_cost s :
  bytes s -> (sum_list_with (fun e => cost e s) offsets <= 3 * length s)%nat.
Proof.
  induction 1 as [|c s Hc _ IH]; [by vm_compute; lia|].
  assert (sum_list_with (fun e => cost e (c :: s)) offsets =
          (sum_list_with (fun e => cost e s) offsets +
           sum_list_with (fun e => if needs_escape (u8 (c - e)) then 1 else 0) offsets)%nat) as ->.
  { rewrite <- sum_list_with_add. apply sum_list_with_ext. intros e. unfold cost.
    destruct (needs_escape (u8 (c - e))) eqn:Hx;
      [rewrite filter_cons_True by done|rewrite filter_cons_False by (by rewrite Hx)]; cbn; lia. }
  pose proof (byte_forall (fun c =>
    (sum_list_with (fun e => if needs_escape (u8 (c - e)) then 1 else 0) offsets <=? 3)%nat)
    ltac:(by vm_compute) c Hc) as H3. cbn beta in H3. cbn [length]. lia.
Qed.

Lemma offsets_range e : e ∈ offsets <-> 1 <= e < 256 /\ e <> QUOTE.
Proof.
  unfold offsets. rewrite list_elem_of_filter, list_elem_of_fmap. split.
  - intros (Hq & i & -> & Hi%elem_of_seq). lia.
  - intros [Hr Hq]. split; [done|]. exists (Z.to_nat e). rewrite elem_of_seq. lia.
Qed.

(** The offset the encoder takes: the best one, and no more than 3 escapes for
    254 bytes. *)
Lemma search_best s :
  bytes s -> s <> [] ->
  exists e, search 255 (count s (replicate 256 0)) 1 (Z.of_nat (length s)) None =
              (Z.of_nat (cost e s), Some e) /\
    e ∈ offsets /\ (forall e', e' ∈ offsets -> cost e s <= cost e' s)%nat /\
    (254 * cost e s <= 3 * length s)%nat.
Proof.
  intros Hs Hne. assert (0 < length s)%nat as Hlen by (destruct s; [done|cbn; lia]).
  assert (forall j, 1 <= j < 256 -> escapes (count s (replicate 256 0)) j = Z.of_nat (cost j s)) as Hcost.
  { intros j Hj. apply escapes_cost; [done|]. unfold byte. lia. }
  assert (length offsets = 254%nat) as Hoff by by vm_compute.
  pose proof (total_cost s Hs) as Htotal.
  pose proof (search_spec (count s (replicate 256 0)) 255 1 (Z.of_nat (length s)) None) as Hsearch.
  specialize (Hsearch ltac:(intros j Hj; rewrite Hcost by done; lia) ltac:(lia) ltac:(lia)).
  destruct (search 255 _ 1 _ None) as [m' best].
  assert (forall e, e ∈ offsets -> (forall e', e' ∈ offsets -> (cost e s <= cost e' s)%nat) ->
            (254 * cost e s <= 3 * length s)%nat) as Hbest.
  { intros e _ Hmin. rewrite <- Hoff. etrans; [apply (sum_list_with_le (fun e => cost e s))|done].
    apply Forall_forall. intros e' He'. by apply Hmin. }
  destruct Hsearch as [(_ & _ & Hall)|(e0 & -> & Hr & Hq & -> & Hlt & Hall)].
  - exfalso. assert (254 * length s <= 3 * length s)%nat; [|lia]. rewrite <- Hoff.
    etrans; [apply (sum_list_with_le (fun e => cost e s))|done]. apply Forall_forall.
    intros e [He Hq]%offsets_range. specialize (Hall e ltac:(lia) Hq). rewrite Hcost in Hall by lia. lia.
  - assert (forall e', e' ∈ offsets -> (cost e0 s <= cost e' s)%nat) as Hmin.
    { intros i [He' Hq']%offsets_range. specialize (Hall i ltac:(lia) Hq').
      rewrite !Hcost in Hall by lia. lia. }
    assert (e0 ∈ offsets) as Hin by by apply offsets_range.
    exists e0. rewrite Hcost by lia. split_and!; try done. by apply Hbest.
Qed.

(** ** The buffers *)

Lemma store_at pre x post v :
  store (pre ++ x :: post) (Z.of_nat (length pre)) v = Ok (pre ++ v :: post).
Proof.
  unfold store. rewrite length_app. cbn [length].
  replace ((0 <=? _) && (_ <? _)) with true by (symmetry; apply andb_true_iff; lia).
  by rewrite Nat2Z.id, insert_app_r_alt, Nat.sub_diag by done.
Qed.

Lemma store_next pre a x post v :
  store (pre ++ a :: x :: post) (Z.of_nat (length pre) + 1) v = Ok (pre ++ a :: v :: post).
Proof.
  pose proof (store_at (pre ++ [a]) x post v) as H. rewrite length_app, <- !app_assoc in H. cbn in H.
  by rewrite Nat2Z.inj_add in H.
Qed.

Lemma load_at pre x post : load (pre ++ x :: post) (Z.of_nat (length pre)) = Ok x.
Proof.
  unfold load. replace (_ <? _) with false by lia. by rewrite Nat2Z.id, list_lookup_middle.
Qed.

Lemma encode_loop_spec s e pre old post :
  length old = length (encode_body e s) ->
  encode_loop s e (Z.of_nat (length pre)) (pre ++ old ++ post) =
  Ok (Z.of_nat (length pre) + Z.of_nat (length (encode_body e s)), pre ++ encode_body e s ++ post).
Proof.
  revert pre old. induction s as [|c s IH]; intros pre old Hold.
  { destruct old; [|done]. cbn. f_equal. f_equal. lia. }
  unfold encode_body in *. cbn [mbind list_bind encode_loop] in *.
  rewrite length_app in Hold. unfold encode_byte at 1 in Hold. unfold encode_byte at 1 3.
  destruct (needs_escape (u8 (c - e))) eqn:Hx.
  - destruct old as [|o1 [|o2 old]]; try done. cbn in Hold.
    destruct (needs_escape_succ _ Hx) as (Hsucc & _). rewrite Hsucc. cbn [app].
    rewrite store_at. cbn [mbind res_bind]. rewrite store_next. cbn [mbind res_bind].
    specialize (IH (pre ++ [1; u8 (c - e) + 1]) old ltac:(cbn in *; lia)).
    rewrite length_app, <- !app_assoc in IH. cbn [length app] in IH.
    replace (Z.of_nat (length pre) + 2) with (Z.of_nat (length pre + 2)) by lia.
    rewrite IH. cbn [length app]. f_equal. f_equal. lia.
  - destruct old as [|o1 old]; try done. cbn in Hold. cbn [app].
    rewrite store_at. cbn [mbind res_bind].
    specialize (IH (pre ++ [u8 (c - e)]) old ltac:(cbn in *; lia)).
    rewrite length_app, <- !app_assoc in IH. cbn [length app] in IH.
    replace (Z.of_nat (length pre) + 1) with (Z.of_nat (length pre + 1)) by lia.
    rewrite IH. cbn [length app]. f_equal. f_equal. lia.
Qed.

Lemma u8_add_sub c e : byte c -> u8 (u8 (c - e) + e) = c.
Proof.
  intros Hc. unfold wrap_u, byte in *. rewrite Zplus_mod_idemp_l. change (2 ^ 8) with 256.
  replace (c - e + e) with c by lia. by apply Z.mod_small.
Qed.

(** Storing a byte of output in the first place of the room. *)
Lemma store_room pre dec r room rest v :
  store ((pre ++ dec ++ r :: room) ++ rest) (Z.of_nat (length pre) + Z.of_nat (length dec)) v =
  Ok ((pre ++ (dec ++ [v]) ++ room) ++ rest).
Proof.
  rewrite <- Nat2Z.inj_add, <- length_app.
  replace ((pre ++ dec ++ r :: room) ++ rest) with ((pre ++ dec) ++ r :: (room ++ rest))
    by (rewrite <- !app_assoc; done).
  rewrite store_at. f_equal. rewrite <- !app_assoc. done.
Qed.

(** The decoder over the text that is left, with the output so far and some
    room, at least one byte, between it and the reading position. *)
Lemma decode_loop_spec s e fuel dec room pre post :
  bytes s -> room <> [] -> (length s < fuel)%nat ->
  exists tail,
    decode_loop fuel e (Z.of_nat (length (pre ++ dec ++ room))) (Z.of_nat (length pre))
      (Z.of_nat (length dec)) ((pre ++ dec ++ room) ++ encode_body e s ++ 0 :: post) =
    Ok (Z.of_nat (length dec + length s), pre ++ dec ++ s ++ tail).
Proof.
  intros Hs. revert fuel dec room. induction Hs as [|c s Hc Hs IH]; intros fuel dec room Hroom Hfuel.
  - destruct fuel as [|fuel]; [lia|]. exists (room ++ 0 :: post). cbn [decode_loop encode_body mbind list_bind app].
    rewrite load_at. cbn [mbind res_bind Z.eqb]. rewrite <- !app_assoc, Nat.add_0_r. done.
  - destruct fuel as [|fuel]; [lia|]. cbn [decode_loop]. cbn [length] in Hfuel.
    destruct room as [|r room]; [done|].
    assert (forall consumed, consumed <> [] -> exists tail,
              decode_loop fuel e (Z.of_nat (length (pre ++ dec ++ r :: room)) + Z.of_nat (length consumed))
                (Z.of_nat (length pre)) (Z.of_nat (length dec) + 1)
                ((pre ++ (dec ++ [c]) ++ room) ++ consumed ++ encode_body e s ++ 0 :: post) =
              Ok (Z.of_nat (length dec + S (length s)), pre ++ dec ++ (c :: s) ++ tail)) as Hnext.
    { intros consumed Hcons. destruct (IH fuel (dec ++ [c]) (room ++ consumed)) as (tail & Heq); [|lia|].
      { by intros [_ ?]%app_nil. }
      exists tail. etrans; [|etrans; [exact Heq|]].
      - f_equal; [|rewrite length_app; cbn; lia|by rewrite <- !app_assoc].
        rewrite !length_app. cbn [length]. lia.
      - rewrite length_app, <- !app_assoc. cbn [length app]. f_equal. f_equal. lia. }
    unfold encode_body. cbn [mbind list_bind]. change (s ≫= encode_byte e) with (encode_body e s).
    unfold encode_byte. set (P := pre ++ dec ++ r :: room). rewrite <- app_assoc. unfold P. clear P.
    destruct (needs_escape (u8 (c - e))) eqn:Hx.
    + destruct (needs_escape_succ _ Hx) as (_ & Hnz & _). cbn [app]. rewrite load_at. cbn [mbind res_bind Z.eqb].
      pose proof (load_at ((pre ++ dec ++ r :: room) ++ [1]) (u8 (c - e) + 1) (encode_body e s ++ 0 :: post)) as Hload.
      rewrite <- app_assoc in Hload. cbn [app] in Hload. rewrite length_app, Nat2Z.inj_add in Hload.
      change (Z.of_nat (length [1])) with 1 in Hload. rewrite Hload. cbn [mbind res_bind].
      rewrite store_room. cbn [mbind res_bind].
      replace (u8 (c - e) + 1 - 1) with (u8 (c - e)) by lia. rewrite (u8_id (u8 _)) by apply byte_u8.
      rewrite u8_add_sub by done. by apply (Hnext [1; u8 (c - e) + 1]).
    + unfold needs_escape in Hx. rewrite !orb_false_iff in Hx. destruct Hx as [[Hx0 Hx1] _].
      cbn [app]. rewrite load_at. cbn [mbind res_bind]. rewrite Hx0, Hx1, store_room. cbn [mbind res_bind].
      rewrite u8_add_sub by done. by apply (Hnext [u8 (c - e)]).
Qed.

Lemma decode_encode e s room pre post :
  bytes s -> byte e ->
  exists tail,
    sqlite_decode_binary (Z.of_nat (length (pre ++ room))) (Z.of_nat (length pre))
      ((pre ++ room) ++ (e :: encode_body e s) ++ 0 :: post) =
    Ok (Z.of_nat (length s), pre ++ s ++ tail).
Proof.
  intros Hs He. unfold sqlite_decode_binary. rewrite <- app_comm_cons, load_at. cbn [mbind res_bind].
  destruct (decode_loop_spec s e (S (length ((pre ++ room) ++ e :: encode_body e s ++ 0 :: post))) [] (room ++ [e]) pre post Hs)
    as (tail & Heq).
  - by destruct room.
  - rewrite !length_app. cbn [length]. rewrite length_app, encode_length. lia.
  - exists tail. etrans; [|exact Heq]. cbn [app length Z.of_nat].
    assert ((pre ++ room ++ [e]) ++ encode_body e s ++ 0 :: post = (pre ++ room) ++ e :: encode_body e s ++ 0 :: post) as ->
      by (rewrite <- !app_assoc; done).
    f_equal. rewrite !length_app. cbn [length]. lia.
Qed.

Lemma encode_empty a b out :
  sqlite_encode_binary [] (Some (a :: b :: out)) = Ok (1, Some (120 :: 0 :: out)).
Proof.
  pose proof (store_at [] a (b :: out) 120) as Hfirst. pose proof (store_at [120] b out 0) as Hsecond.
  cbn [app length] in Hfirst, Hsecond. change (Z.of_nat 0) with 0 in Hfirst. change (Z.of_nat 1) with 1 in Hsecond.
  unfold sqlite_encode_binary. cbn [length]. change (Z.of_nat 0 <=? 0) with true. cbv iota.
  rewrite Hfirst. cbn [mbind res_bind]. by rewrite Hsecond.
Qed.

(** The whole encoder, in a buffer of at least the length it needs. *)
Lemma encode_binary_spec s out :
  bytes s -> s <> [] ->
  exists e, e ∈ offsets /\ (forall e', e' ∈ offsets -> cost e s <= cost e' s)%nat /\
    (254 * cost e s <= 3 * length s)%nat /\
    sqlite_encode_binary s None = Ok (Z.of_nat (length s + cost e s + 1), None) /\
    ((length s + cost e s + 2 <= length out)%nat -> exists rest,
     (length s + cost e s + 2 + length rest = length out)%nat /\
     sqlite_encode_binary s (Some out) =
     Ok (Z.of_nat (length s + cost e s + 1), Some ((e :: encode_body e s) ++ 0 :: rest))).
Proof.
  intros Hs Hne. destruct (search_best s Hs Hne) as (e & Hsearch & Hin & Hmin & Hbound).
  exists e. split; [exact Hin|]. split; [exact Hmin|]. split; [exact Hbound|].
  assert ((Z.of_nat (length s) <=? 0) = false) as Hpos by (apply Z.leb_gt; destruct s; [done|cbn; lia]).
  split; unfold sqlite_encode_binary; rewrite Hpos, Hsearch.
  { f_equal. f_equal. lia. }
  intros Hlen. destruct out as [|o out]; [cbn in Hlen; lia|]. cbn [length] in Hlen.
  pose proof (encode_length e s) as Hbody.
  assert (exists old z rest, out = old ++ z :: rest /\ length old = length (encode_body e s)) as (old & z & rest & -> & Hold).
  { pose proof (take_drop (length (encode_body e s)) out) as Hout.
    destruct (drop (length (encode_body e s)) out) as [|z rest] eqn:Hdrop.
    - apply (f_equal length) in Hdrop. rewrite length_drop in Hdrop. cbn in Hdrop. lia.
    - exists (take (length (encode_body e s)) out), z, rest. rewrite length_take. split; [done|lia]. }
  exists rest. split; [cbn [length]; rewrite length_app; cbn [length]; lia|].
  pose proof (store_at [] o (old ++ z :: rest) e) as Hstore.
  cbn [app length] in Hstore. change (Z.of_nat 0) with 0 in Hstore. rewrite Hstore. cbn [mbind res_bind].
  pose proof (encode_loop_spec s e [e] old (z :: rest) Hold) as Hloop.
  cbn [app length] in Hloop. change (Z.of_nat 1) with 1 in Hloop.
  rewrite Hloop. cbn [mbind res_bind].
  pose proof (store_at (e :: encode_body e s) z rest 0) as Hend. cbn [app length] in Hend.
  rewrite Nat2Z.inj_succ, Z.add_1_l in *. rewrite Hend. cbn [mbind res_bind].
  rewrite (proj2 (Z.eqb_eq _ _)) by lia. f_equal. f_equal. lia.
Qed.

(** ** Theorems *)

(** C21. Encoding any bytes in a buffer of the size the comment asks for, 2 plus
    257/254 of the input rounded down, never writes past it and never fails the
    assertion; it returns the length of the string, which holds no quote and ends
    at its first zero; called without a buffer it returns the same length; and no
    other offset gives a shorter string. *)
Theorem sqlite_encode_correct s out :
  bytes s -> 2 + 257 * Z.of_nat (length s) / 254 <= Z.of_nat (length out) ->
  exists text rest,
    sqlite_encode_binary s (Some out) = Ok (Z.of_nat (length text), Some (text ++ 0 :: rest)) /\
    (length text + S (length rest) = length out)%nat /\
    sqlite_encode_binary s None = Ok (Z.of_nat (length text), None) /\
    Forall (fun c => byte c /\ c <> 0 /\ c <> QUOTE) text /\
    (s <> [] -> forall e, e ∈ offsets -> (length text <= 1 + length (encode_body e s))%nat).
Proof.
  intros Hs Hlen. destruct (decide (s = [])) as [->|Hne].
  { destruct out as [|a [|b out]]; [cbn in Hlen; lia..|]. exists [120], out.
    split_and!; [apply encode_empty|done|done| |done].
    rewrite Forall_singleton. unfold byte, QUOTE. lia. }
  destruct (encode_binary_spec s out Hs Hne) as (e & Hin & Hmin & Hbound & Hnone & Hsome).
  assert (length s + cost e s + 2 <= length out)%nat as Hfit.
  { enough (Z.of_nat (length s + cost e s) <= 257 * Z.of_nat (length s) / 254) by lia.
    apply Z.div_le_lower_bound; lia. }
  destruct (Hsome Hfit) as (rest & Hrest & Heq). exists (e :: encode_body e s), rest.
  assert (length (e :: encode_body e s) = length s + cost e s + 1)%nat as Htext
    by (cbn [length]; rewrite encode_length; lia).
  rewrite Htext. split_and!; [done|lia|done| |].
  - apply Forall_cons. split; [|apply encode_clean]. apply offsets_range in Hin. unfold byte. lia.
  - intros _ e' He'. rewrite encode_length. specialize (Hmin e' He'). lia.
Qed.

(** C20. Decoding restores the bytes that were encoded, in place or to any position
    before the encoded text in the same memory, and stays inside it. *)
Theorem sqlite_decode_encode s out room pre :
  bytes s -> 2 + 257 * Z.of_nat (length s) / 254 <= Z.of_nat (length out) ->
  exists len text,
    sqlite_encode_binary s (Some out) = Ok (len, Some text) /\
    exists tail,
      sqlite_decode_binary (Z.of_nat (length (pre ++ room))) (Z.of_nat (length pre)) ((pre ++ room) ++ text) =
      Ok (Z.of_nat (length s), pre ++ s ++ tail).
Proof.
  intros Hs Hlen. destruct (decide (s = [])) as [->|Hne].
  { destruct out as [|a [|b out]]; [cbn in Hlen; lia..|].
    exists 1, (120 :: encode_body 120 [] ++ 0 :: out). split; [apply encode_empty|].
    by apply (decode_encode 120 [] room pre out). }
  destruct (encode_binary_spec s out Hs Hne) as (e & Hin & Hmin & Hbound & Hnone & Hsome).
  assert (length s + cost e s + 2 <= length out)%nat as Hfit.
  { enough (Z.of_nat (length s + cost e s) <= 257 * Z.of_nat (length s) / 254) by lia.
    apply Z.div_le_lower_bound; lia. }
  destruct (Hsome Hfit) as (rest & _ & Heq). eexists _, _. split; [exact Heq|].
  apply decode_encode; [done|]. apply offsets_range in Hin. unfold byte. lia.
Qed.

(** ** Witnesses *)

Definition ex_bytes : list Z := [0; 1; 39; 39; 255].
Definition ex_out : list Z := replicate 8 238.

Lemma ex_bytes_ok : bytes ex_bytes /\ 2 + 257 * Z.of_nat (length ex_bytes) / 254 <= Z.of_nat (length ex_out).
Proof.
  split; [|by vm_compute]. unfold bytes, ex_bytes, byte. rewrite !Forall_cons, Forall_nil. lia.
Qed.

Lemma sqlite_encode_correct_witness :
  exists text rest, sqlite_encode_binary ex_bytes (Some ex_out) = Ok (6, Some (text ++ 0 :: rest)) /\
    text = [2; 254; 255; 37; 37; 253].
Proof.
  destruct (sqlite_encode_correct ex_bytes ex_out (proj1 ex_bytes_ok) (proj2 ex_bytes_ok))
    as (text & rest & Heq & Hlen & _).
  exists [2; 254; 255; 37; 37; 253], [238].
  assert (Ok (6, Some ([2; 254; 255; 37; 37; 253] ++ [0; 238])) = Ok (Z.of_nat (length text), Some (text ++ 0 :: rest)))
    as Hv by (rewrite <- Heq; by vm_compute).
  split; [|done]. rewrite Hv. exact Heq.
Defined.

Lemma sqlite_decode_encode_witness :
  exists len text, sqlite_encode_binary ex_bytes (Some ex_out) = Ok (len, Some text) /\
    exists tail, sqlite_decode_binary 0 0 text = Ok (5, ex_bytes ++ tail).
Proof. exact (sqlite_decode_encode ex_bytes ex_out [] [] (proj1 ex_bytes_ok) (proj2 ex_bytes_ok)). Defined.
