(* ===== verification/BitStream.v ===== *)
(** * The encoded frames of the BV16 codec

    [jni/bx16_fixedp/bv16/bitpack.c] and [g192.c]: the 15 indices of a frame, packed
    in the 10 bytes that are sent over the network, or written in the ITU-T G.192
    format, a 16-bit word for each bit. *)

From stdpp Require Import base list.
From Stdlib Require Import ZArith Lia.
From S2P Require Import Prelude.

Open Scope Z_scope.

(** [lia] knows division and remainder. *)
Ltac Zify.zify_post_hook ::= Z.to_euclidean_division_equations.

(** ** The indices of a frame *)

Record BV16_Bit_Stream := BitStruct {
  lspidx : list Z;
  ppidx : Z;
  bqidx : Z;
  gidx : Z;
  qvidx : list Z;
}.

(** [pbs = (Word16 * ) bs]: the structure as the array of its 15 words. *)
Definition words (bs : BV16_Bit_Stream) : list Z :=
  lspidx bs ++ [ppidx bs; bqidx bs; gidx bs] ++ qvidx bs.

(** The other direction, for words stored through such a pointer. *)
Definition of_words (ws : list Z) : BV16_Bit_Stream :=
  BitStruct (take 2 ws) (ws !!! 2%nat) (ws !!! 3%nat) (ws !!! 4%nat) (drop 5 ws).

(** ** Packed frames *)

(** The two bytes that a step stores, and the register it leaves. *)
Definition store2 (temppack : Z) : list Z * Z :=
  ([u8 (Z.shiftr temppack 24); u8 (Z.shiftr (u32 (Z.shiftl temppack 8)) 24)],
   u32 (Z.shiftl temppack 16)).

(** [temppack |= ( ((UWord32)index) << n )]. *)
Definition insert_at (temppack index n : Z) : Z :=
  Z.lor temppack (u32 (Z.shiftl (u32 index) n)).

Definition BV16_BitPack (bs : BV16_Bit_Stream) : list Z :=
  let temppack := u32 (Z.shiftl (u32 (lspidx bs !!! 0%nat)) 25) in
  let temppack := insert_at temppack (lspidx bs !!! 1%nat) 18 in
  let temppack := insert_at temppack (ppidx bs) 11 in
  let '(bytes1, temppack) := store2 temppack in
  let temppack := insert_at temppack (bqidx bs) 22 in
  let temppack := insert_at temppack (gidx bs) 18 in
  let temppack := insert_at temppack (qvidx bs !!! 0%nat) 13 in
  let '(bytes2, temppack) := store2 temppack in
  let temppack := insert_at temppack (qvidx bs !!! 1%nat) 24 in
  let temppack := insert_at temppack (qvidx bs !!! 2%nat) 19 in
  let temppack := insert_at temppack (qvidx bs !!! 3%nat) 14 in
  let '(bytes3, temppack) := store2 temppack in
  let temppack := insert_at temppack (qvidx bs !!! 4%nat) 25 in
  let temppack := insert_at temppack (qvidx bs !!! 5%nat) 20 in
  let temppack := insert_at temppack (qvidx bs !!! 6%nat) 15 in
  let '(bytes4, temppack) := store2 temppack in
  let temppack := insert_at temppack (qvidx bs !!! 7%nat) 26 in
  let temppack := insert_at temppack (qvidx bs !!! 8%nat) 21 in
  let temppack := insert_at temppack (qvidx bs !!! 9%nat) 16 in
  let '(bytes5, _) := store2 temppack in
  bytes1 ++ bytes2 ++ bytes3 ++ bytes4 ++ bytes5.

(** [bitword32 = (bitword32 << 8) | (UWord32)*PackedStream++]. *)
Definition append_byte (bitword32 byte : Z) : Z :=
  Z.lor (u32 (Z.shiftl bitword32 8)) byte.

Definition BV16_BitUnPack (PackedStream : list Z) : res BV16_Bit_Stream :=
  match PackedStream with
  | b1 :: b2 :: b3 :: b4 :: b5 :: b6 :: b7 :: b8 :: b9 :: b10 :: _ =>
      let bitword32 := append_byte b1 b2 in
      let lsp0 := s16 (Z.shiftr bitword32 9) in
      let lsp1 := s16 (Z.shiftr (Z.land bitword32 0x01FF) 2) in
      let bitword32 := append_byte (append_byte (Z.land bitword32 0x0003) b3) b4 in
      let pp := s16 (Z.shiftr bitword32 11) in
      let bq := s16 (Z.shiftr (Z.land bitword32 0x07FF) 6) in
      let g := s16 (Z.shiftr (Z.land bitword32 0x003F) 2) in
      let bitword32 := append_byte (append_byte (Z.land bitword32 0x0003) b5) b6 in
      let qv0 := s16 (Z.shiftr bitword32 13) in
      let qv1 := s16 (Z.shiftr (Z.land bitword32 0x1FFF) 8) in
      let qv2 := s16 (Z.shiftr (Z.land bitword32 0x00FF) 3) in
      let bitword32 := append_byte (append_byte (Z.land bitword32 0x0007) b7) b8 in
      let qv3 := s16 (Z.shiftr bitword32 14) in
      let qv4 := s16 (Z.shiftr (Z.land bitword32 0x3FFF) 9) in
      let qv5 := s16 (Z.shiftr (Z.land bitword32 0x01FF) 4) in
      let bitword32 := append_byte (append_byte (Z.land bitword32 0x000F) b9) b10 in
      let qv6 := s16 (Z.shiftr bitword32 15) in
      let qv7 := s16 (Z.shiftr (Z.land bitword32 0x7FFF) 10) in
      let qv8 := s16 (Z.shiftr (Z.land bitword32 0x03FF) 5) in
      let qv9 := s16 (Z.land bitword32 0x001F) in
      Ok (BitStruct [lsp0; lsp1] pp bq g [qv0; qv1; qv2; qv3; qv4; qv5; qv6; qv7; qv8; qv9])
  | _ => Err OutOfBounds
  end.

(** ** Frames in the G.192 format *)

Definition NBIT : Z := 80.
Definition BIT_0 : Z := 0x007f.
Definition BIT_1 : Z := 0x0081.
Definition SYNC_WORD : Z := 0x6b21.

Definition bit_table_16 : list nat := [7; 7; 7; 5; 4; 5; 5; 5; 5; 5; 5; 5; 5; 5; 5]%nat.

(** The loop reads its bits from the front of [bitstream]. *)
Fixpoint bin2int_loop (no_of_bits : nat) (bitstream : list Z) (index : Z) : res Z :=
  match no_of_bits with
  | O => Ok index
  | S n =>
      match bitstream with
      | [] => Err UninitRead
      | b :: bitstream =>
          let index := s16 (Z.shiftl index 1) in
          bin2int_loop n bitstream (if b =? BIT_1 then s16 (index + 1) else index)
      end
  end.

Definition bin2int_16 (no_of_bits : nat) (bitstream : list Z) : res Z :=
  bin2int_loop no_of_bits bitstream 0.

(** The loop stores its bits from the back, so each one goes before those stored. *)
Fixpoint int2bin_loop (index : Z) (no_of_bits : nat) (stored : list Z) : list Z :=
  match no_of_bits with
  | O => stored
  | S n =>
      int2bin_loop (Z.shiftr index 1) n
        ((if Z.land index 1 =? 0 then BIT_0 else BIT_1) :: stored)
  end.

Definition int2bin_16 (index : Z) (no_of_bits : nat) : list Z :=
  int2bin_loop index no_of_bits [].

(** [bv16_fwrite_g192bitstrm]: the words it writes. *)
Fixpoint write_indices (table : list nat) (pbs : list Z) : list Z :=
  match table, pbs with
  | m :: table, index :: pbs => int2bin_16 index m ++ write_indices table pbs
  | _, _ => []
  end.

Definition bv16_fwrite_g192bitstrm (bs : BV16_Bit_Stream) : list Z :=
  SYNC_WORD :: NBIT :: write_indices bit_table_16 (words bs).

Fixpoint read_indices (table : list nat) (p_bitstream : list Z) : res (list Z) :=
  match table with
  | [] => Ok []
  | m :: table =>
      index ← bin2int_16 m p_bitstream;
      pbs ← read_indices table (drop m p_bitstream);
      Ok (index :: pbs)
  end.

(** [bv16_fread_g192bitstrm] on a file with the words [fi] left: the number of
    synchronisation words read, [bfi], the frame and what is left of the file. *)
Definition bv16_fread_g192bitstrm (fi : list Z) : res (Z * Z * BV16_Bit_Stream * list Z) :=
  match fi with
  | [] => Err UninitRead
  | sync_word :: fi =>
      let bfi := if sync_word =? SYNC_WORD then 0 else 1 in
      let bitstream := take 81 fi in
      pbs ← read_indices bit_table_16 (drop 1 bitstream);
      Ok (1, bfi, of_words pbs, drop 81 fi)
  end.

(** ** The frames the codec makes *)

(** The shape of the structure, and each index within its number of bits. *)
Definition in_bits (m : nat) (x : Z) : Prop := 0 <= x < 2 ^ Z.of_nat m.
Definition valid_frame (bs : BV16_Bit_Stream) : Prop :=
  length (lspidx bs) = 2%nat /\ length (qvidx bs) = 10%nat /\ Forall2 in_bits bit_table_16 (words bs).

(** The indices one after the other, as one number of 80 bits; bytes as a number,
    the first the most significant. *)
Fixpoint concat_bits (table : list nat) (ws : list Z) (acc : Z) : Z :=
  match table, ws with
  | m :: table, x :: ws => concat_bits table ws (acc * 2 ^ Z.of_nat m + x)
  | _, _ => acc
  end.
Definition frame_number (bs : BV16_Bit_Stream) : Z := concat_bits bit_table_16 (words bs) 0.

Lemma valid_frame_inv bs :
  valid_frame bs ->
  exists l0 l1 pp bq g q0 q1 q2 q3 q4 q5 q6 q7 q8 q9,
    bs = BitStruct [l0; l1] pp bq g [q0; q1; q2; q3; q4; q5; q6; q7; q8; q9] /\
    (0 <= l0 < 128 /\ 0 <= l1 < 128 /\ 0 <= pp < 128 /\ 0 <= bq < 32 /\ 0 <= g < 16) /\
    (0 <= q0 < 32 /\ 0 <= q1 < 32 /\ 0 <= q2 < 32 /\ 0 <= q3 < 32 /\ 0 <= q4 < 32) /\
    (0 <= q5 < 32 /\ 0 <= q6 < 32 /\ 0 <= q7 < 32 /\ 0 <= q8 < 32 /\ 0 <= q9 < 32).
Proof.
  destruct bs as [lsp pp bq g qv]. unfold valid_frame, words. cbn [lspidx ppidx bqidx gidx qvidx].
  intros (Hlsp & Hqv & Hw). destruct lsp as [|l0 [|l1 [|]]]; try done.
  do 10 (destruct qv as [|? qv]; [done|]). destruct qv; [|done].
  unfold bit_table_16 in Hw. cbn [app] in Hw. rewrite !Forall2_cons in Hw. unfold in_bits in Hw.
  do 15 eexists. split; [done|]. cbn in Hw. intuition.
Qed.

(** *** The register, as arithmetic *)


Lemma insert_at_spec T x n w :
  0 <= n -> 0 <= w -> n + w <= 32 -> T mod 2 ^ (n + w) = 0 -> 0 <= x < 2 ^ w ->
  insert_at T x n = T + x * 2 ^ n.
Proof.
  intros Hn Hw Hnw HT Hx. unfold insert_at.
  assert (x * 2 ^ n < 2 ^ (n + w)) as Hlt.
  { rewrite Z.pow_add_r, Z.mul_comm by lia. apply Z.mul_lt_mono_pos_l; lia. }
  pose proof (Z.pow_le_mono_r 2 (n + w) 32). pose proof (Z.pow_le_mono_r 2 w 32).
  rewrite (wrap_u_id 32 x) by lia. rewrite Z.shiftl_mul_pow2 by lia.
  rewrite wrap_u_id by lia. apply (lor_disjoint _ _ (n + w)); lia.
Qed.

Lemma store2_spec T :
  0 <= T < 4294967296 ->
  store2 T = ([T / 16777216; T / 65536 mod 256], (T mod 65536) * 65536).
Proof.
  intros HT. unfold store2. rewrite !Z.shiftr_div_pow2, !Z.shiftl_mul_pow2 by lia.
  unfold wrap_u. change (2 ^ 32) with (65536 * 65536) at 2. change (2 ^ 16) with 65536.
  rewrite Z.mul_mod_distr_r by lia.
  change (2 ^ 32) with (65536 * 256 * 256). change (2 ^ 8) with 256. rewrite Z.mul_mod_distr_r by lia.
  change (2 ^ 24) with (65536 * 256) at 2. rewrite Z.div_mul_cancel_r by lia. rewrite Z.rem_mul_r by lia.
  rewrite (Z.mul_comm 65536 (_ mod _)), Z.div_add by lia.
  rewrite (Z.div_small (T mod 65536)) by (apply Z.mod_pos_bound; lia).
  rewrite Z.add_0_l, Zmod_mod. change (2 ^ 24) with 16777216.
  rewrite (Z.mod_small (T / 16777216)) by lia. done.
Qed.

Lemma append_byte_spec w b :
  0 <= w < 2 ^ 24 -> 0 <= b < 256 -> append_byte w b = w * 256 + b.
Proof.
  intros Hw Hb. unfold append_byte. rewrite Z.shiftl_mul_pow2 by lia.
  rewrite wrap_u_id by lia. apply (lor_disjoint _ _ 8); lia.
Qed.

(** The bits that stay in the register after a step. *)
Ltac leftover t :=
  cbv beta iota;
  match goal with
  | |- context [store2 (insert_at (insert_at (insert_at ?T _ _) _ _) _ _)] => replace T with t by lia
  end.

Lemma BV16_BitPack_spec l0 l1 pp bq g q0 q1 q2 q3 q4 q5 q6 q7 q8 q9 :
  0 <= l0 < 128 /\ 0 <= l1 < 128 /\ 0 <= pp < 128 /\ 0 <= bq < 32 /\ 0 <= g < 16 ->
  0 <= q0 < 32 /\ 0 <= q1 < 32 /\ 0 <= q2 < 32 /\ 0 <= q3 < 32 /\ 0 <= q4 < 32 ->
  0 <= q5 < 32 /\ 0 <= q6 < 32 /\ 0 <= q7 < 32 /\ 0 <= q8 < 32 /\ 0 <= q9 < 32 ->
  BV16_BitPack (BitStruct [l0; l1] pp bq g [q0; q1; q2; q3; q4; q5; q6; q7; q8; q9]) =
  [l0 * 2 + l1 / 64; l1 mod 64 * 4 + pp / 32; pp mod 32 * 8 + bq / 4;
   bq mod 4 * 64 + g * 4 + q0 / 8; q0 mod 8 * 32 + q1; q2 * 8 + q3 / 4;
   q3 mod 4 * 64 + q4 * 2 + q5 / 16; q5 mod 16 * 16 + q6 / 2;
   q6 mod 2 * 128 + q7 * 4 + q8 / 8; q8 mod 8 * 32 + q9].
Proof.
  intros H1 H2 H3. unfold BV16_BitPack. cbn [lspidx ppidx bqidx gidx qvidx].
  cbn [lookup_total list_lookup_total].
  change (u32 (Z.shiftl (u32 l0) 25)) with (insert_at 0 l0 25). cbv zeta.
  rewrite (insert_at_spec _ l0 25 7), (insert_at_spec _ l1 18 7), (insert_at_spec _ pp 11 7) by lia.
  rewrite store2_spec by lia. leftover (pp mod 32 * 134217728).
  rewrite (insert_at_spec _ bq 22 5), (insert_at_spec _ g 18 4), (insert_at_spec _ q0 13 5) by lia.
  rewrite store2_spec by lia. leftover (q0 mod 8 * 536870912).
  rewrite (insert_at_spec _ q1 24 5), (insert_at_spec _ q2 19 5), (insert_at_spec _ q3 14 5) by lia.
  rewrite store2_spec by lia. leftover (q3 mod 4 * 1073741824).
  rewrite (insert_at_spec _ q4 25 5), (insert_at_spec _ q5 20 5), (insert_at_spec _ q6 15 5) by lia.
  rewrite store2_spec by lia. leftover (q6 mod 2 * 2147483648).
  rewrite (insert_at_spec _ q7 26 5), (insert_at_spec _ q8 21 5), (insert_at_spec _ q9 16 5) by lia.
  rewrite store2_spec by lia. cbv beta iota. cbn [app].
  repeat (apply f_equal2; [lia|]). done.
Qed.

Lemma BV16_BitUnPack_spec b1 b2 b3 b4 b5 b6 b7 b8 b9 b10 rest :
  0 <= b1 < 256 /\ 0 <= b2 < 256 /\ 0 <= b3 < 256 /\ 0 <= b4 < 256 /\ 0 <= b5 < 256 ->
  0 <= b6 < 256 /\ 0 <= b7 < 256 /\ 0 <= b8 < 256 /\ 0 <= b9 < 256 /\ 0 <= b10 < 256 ->
  BV16_BitUnPack (b1 :: b2 :: b3 :: b4 :: b5 :: b6 :: b7 :: b8 :: b9 :: b10 :: rest) =
  Ok (BitStruct [b1 / 2; b1 mod 2 * 64 + b2 / 4] (b2 mod 4 * 32 + b3 / 8) (b3 mod 8 * 4 + b4 / 64) (b4 / 4 mod 16)
        [b4 mod 4 * 8 + b5 / 32; b5 mod 32; b6 / 8; b6 mod 8 * 4 + b7 / 64; b7 / 2 mod 32;
         b7 mod 2 * 16 + b8 / 16; b8 mod 16 * 2 + b9 / 128; b9 / 4 mod 32; b9 mod 4 * 8 + b10 / 32; b10 mod 32]).
Proof.
  intros H1 H2. unfold BV16_BitUnPack. cbv zeta.
  rewrite !(mask 2 0x0003), !(mask 3 0x0007), !(mask 4 0x000F), !(mask 5 0x001F), !(mask 6 0x003F),
    !(mask 8 0x00FF), !(mask 9 0x01FF), !(mask 10 0x03FF), !(mask 11 0x07FF), !(mask 13 0x1FFF),
    !(mask 14 0x3FFF), !(mask 15 0x7FFF) by done.
  rewrite !Z.shiftr_div_pow2 by lia.
  rewrite (append_byte_spec b1 b2) by lia. replace ((b1 * 256 + b2) mod 2 ^ 2) with (b2 mod 4) by lia.
  rewrite (append_byte_spec (b2 mod 4) b3), (append_byte_spec _ b4) by lia.
  replace (((b2 mod 4 * 256 + b3) * 256 + b4) mod 2 ^ 2) with (b4 mod 4) by lia.
  rewrite (append_byte_spec (b4 mod 4) b5), (append_byte_spec _ b6) by lia.
  replace (((b4 mod 4 * 256 + b5) * 256 + b6) mod 2 ^ 3) with (b6 mod 8) by lia.
  rewrite (append_byte_spec (b6 mod 8) b7), (append_byte_spec _ b8) by lia.
  replace (((b6 mod 8 * 256 + b7) * 256 + b8) mod 2 ^ 4) with (b8 mod 16) by lia.
  rewrite (append_byte_spec (b8 mod 16) b9), (append_byte_spec _ b10) by lia.
  rewrite !(wrap_s_id 16) by lia.
  do 2 f_equal; [|lia..|]; repeat (apply f_equal2; [lia|]); done.
Qed.

(** *** The words of the G.192 format *)

Definition push_bit (index b : Z) : Z :=
  if b =? BIT_1 then s16 (s16 (Z.shiftl index 1) + 1) else s16 (Z.shiftl index 1).

Lemma bin2int_loop_spec n p index :
  bin2int_loop n p index =
  if decide (n <= length p)%nat then Ok (fold_left push_bit (take n p) index) else Err UninitRead.
Proof.
  revert p index. induction n as [|n IH]; intros [|b p] index; try done.
  cbn [bin2int_loop length take fold_left]. rewrite IH.
  unfold push_bit at 3. by repeat case_decide; try lia.
Qed.

Lemma int2bin_loop_app index n stored :
  int2bin_loop index n stored = int2bin_16 index n ++ stored.
Proof.
  unfold int2bin_16. revert index stored. induction n as [|n IH]; intros index stored; [done|].
  cbn [int2bin_loop]. rewrite IH, (IH _ [_]). by rewrite <- app_assoc.
Qed.

Lemma int2bin_16_length index n : length (int2bin_16 index n) = n.
Proof.
  revert index. induction n as [|n IH]; intros index; [done|].
  unfold int2bin_16. cbn [int2bin_loop]. rewrite int2bin_loop_app, length_app, IH. cbn. lia.
Qed.

Lemma push_bit_arith index b :
  0 <= index < 16384 -> push_bit index b = 2 * index + (if b =? BIT_1 then 1 else 0).
Proof.
  intros Hi. unfold push_bit. rewrite Z.shiftl_mul_pow2 by lia. change (2 ^ 1) with 2.
  rewrite (wrap_s_id 16 (index * 2)) by lia. rewrite (wrap_s_id 16 (index * 2 + 1)) by lia.
  destruct (b =? BIT_1); lia.
Qed.

Lemma int2bin_16_value index n :
  (n <= 15)%nat -> in_bits n index -> fold_left push_bit (int2bin_16 index n) 0 = index.
Proof.
  unfold in_bits. revert index. induction n as [|n IH]; intros index Hn Hx; [cbn in *; lia|].
  unfold int2bin_16. cbn [int2bin_loop]. rewrite int2bin_loop_app, fold_left_app.
  rewrite Nat2Z.inj_succ, Z.pow_succ_r in Hx by lia.
  rewrite Z.shiftr_div_pow2 by lia. change (2 ^ 1) with 2.
  pose proof (Z.pow_le_mono_r 2 (Z.of_nat n) 14) as Hmono. change (2 ^ 14) with 16384 in Hmono.
  rewrite IH by lia. cbn [fold_left]. rewrite push_bit_arith by lia.
  change 1 with (Z.ones 1) at 1. rewrite Z.land_ones by lia. change (2 ^ 1) with 2.
  destruct (Z.eqb_spec (index mod 2) 0); cbn; lia.
Qed.

Lemma write_indices_length table ws :
  length ws = length table -> length (write_indices table ws) = sum_list table.
Proof.
  revert ws. induction table as [|m table IH]; intros [|x ws]; try done. cbn. intros [= Hlen].
  by rewrite length_app, int2bin_16_length, IH.
Qed.

Lemma read_write_indices table ws rest :
  Forall (fun m => m <= 15)%nat table -> Forall2 in_bits table ws ->
  read_indices table (write_indices table ws ++ rest) = Ok ws.
Proof.
  intros Ht Hw. revert Ht. induction Hw as [|m x table ws Hx _ IH]; [done|].
  intros [Hm Ht]%Forall_cons. cbn [write_indices read_indices].
  rewrite <- app_assoc. pose proof (int2bin_16_length x m) as Hlen.
  unfold bin2int_16. rewrite bin2int_loop_spec, decide_True by (rewrite length_app; lia).
  rewrite take_app_length', drop_app_length', int2bin_16_value by done.
  cbn [mbind res_bind]. by rewrite IH.
Qed.

Lemma read_indices_short table p :
  (length p < sum_list table)%nat -> read_indices table p = Err UninitRead.
Proof.
  revert p. induction table as [|m table IH]; intros p; [cbn; lia|].
  change (sum_list (m :: table)) with (m + sum_list table)%nat. intros Hp.
  cbn [read_indices]. unfold bin2int_16. rewrite bin2int_loop_spec.
  case_decide; [|done]. cbn [mbind res_bind]. rewrite IH; [done|]. rewrite length_drop. lia.
Qed.

Lemma of_words_words bs : length (lspidx bs) = 2%nat -> of_words (words bs) = bs.
Proof. destruct bs as [[|l0 [|l1 []]] pp bq g qv]; done. Qed.

(** ** Theorems *)

(** C22. The packed format is a bijection between the frames whose indices are in
    their ranges and ten bytes: unpacking gives back the frame packed, packing gives
    back the ten bytes unpacked, and the bytes are the 80 bits of the indices in the
    order of the structure, the most significant first. *)
Theorem packed_frames_bijection :
  (forall bs rest, valid_frame bs ->
     BV16_BitUnPack (BV16_BitPack bs ++ rest) = Ok bs /\
     length (BV16_BitPack bs) = 10%nat /\ Forall (fun b => 0 <= b < 256) (BV16_BitPack bs) /\
     bytes_number (BV16_BitPack bs) = frame_number bs) /\
  (forall bytes, length bytes = 10%nat -> Forall (fun b => 0 <= b < 256) bytes ->
     exists bs, BV16_BitUnPack bytes = Ok bs /\ valid_frame bs /\ BV16_BitPack bs = bytes).
Proof.
  split.
  - intros bs rest Hbs.
    destruct (valid_frame_inv bs Hbs) as (l0 & l1 & pp & bq & g & q0 & q1 & q2 & q3 & q4 & q5 & q6 & q7 & q8 & q9
      & -> & H1 & H2 & H3).
    rewrite BV16_BitPack_spec by done. split_and!.
    + cbn [app]. rewrite BV16_BitUnPack_spec by lia.
      do 2 f_equal; [|lia..|]; repeat (apply f_equal2; [lia|]); done.
    + done.
    + rewrite !Forall_cons. split_and!; try lia. done.
    + unfold bytes_number, frame_number, words, bit_table_16. cbn -[Z.mul Z.add Z.div Z.modulo]. lia.
  - intros bytes Hlen Hb. do 10 (destruct bytes as [|? bytes]; [done|]). destruct bytes; [|done].
    rewrite !Forall_cons in Hb. destruct Hb as (H1 & H2 & H3 & H4 & H5 & H6 & H7 & H8 & H9 & H10 & _).
    eexists. split; [apply BV16_BitUnPack_spec; lia|]. split.
    + unfold valid_frame, words, bit_table_16, in_bits. cbn -[Z.div Z.modulo Z.mul Z.add].
      split_and!; [done|done|]. rewrite !Forall2_cons. cbn -[Z.div Z.modulo Z.mul Z.add]. split_and!; try lia. done.
    + rewrite BV16_BitPack_spec by lia. repeat (apply f_equal2; [lia|]). done.
Qed.

(** A frame written in the G.192 format takes 82 words, and reading them gives
    the frame back with [bfi] clear; a frame that is cut short, at the end of the
    file in particular, makes the reader use variables it has not set. *)
Theorem g192_roundtrip bs fi :
  valid_frame bs ->
  length (bv16_fwrite_g192bitstrm bs) = 82%nat /\
  bv16_fread_g192bitstrm (bv16_fwrite_g192bitstrm bs ++ fi) = Ok (1, 0, bs, fi) /\
  forall n, (n < 82)%nat -> bv16_fread_g192bitstrm (take n (bv16_fwrite_g192bitstrm bs)) = Err UninitRead.
Proof.
  intros (Hlsp & Hqv & Hw). unfold bv16_fwrite_g192bitstrm.
  assert (length (write_indices bit_table_16 (words bs)) = 80%nat) as Hlen
    by (rewrite write_indices_length; [done|symmetry; by eapply Forall2_length]).
  split_and!; [cbn [length]; lia| |].
  - unfold bv16_fread_g192bitstrm. cbn [app]. rewrite Z.eqb_refl.
    change (NBIT :: write_indices bit_table_16 (words bs) ++ fi)
      with ((NBIT :: write_indices bit_table_16 (words bs)) ++ fi).
    rewrite take_app_length', drop_app_length' by (cbn [length]; lia). cbn [drop].
    rewrite drop_0, <- (app_nil_r (write_indices _ _)), read_write_indices; [|by repeat (constructor; [lia|])|done].
    cbn [mbind res_bind]. by rewrite of_words_words.
  - intros n Hn. destruct n as [|n]; [done|]. cbn [take]. unfold bv16_fread_g192bitstrm.
    rewrite read_indices_short; [done|]. change (sum_list bit_table_16) with 80%nat.
    rewrite length_drop, !length_take. cbn [length]. rewrite Hlen. lia.
Qed.

(** ** Witnesses *)

Definition ex_frame : BV16_Bit_Stream :=
  BitStruct [100; 3] 127 17 9 [1; 2; 3; 4; 5; 6; 7; 8; 9; 31].

Lemma ex_frame_valid : valid_frame ex_frame.
Proof.
  split_and!; [done|done|]. unfold bit_table_16, words, ex_frame. cbn [lspidx ppidx bqidx gidx qvidx app].
  rewrite !Forall2_cons. unfold in_bits. cbn. split_and!; try lia. done.
Qed.

Lemma packed_frames_bijection_witness :
  BV16_BitUnPack (BV16_BitPack ex_frame ++ [0]) = Ok ex_frame /\
  bytes_number (BV16_BitPack ex_frame) = frame_number ex_frame.
Proof.
  destruct (proj1 packed_frames_bijection ex_frame [0] ex_frame_valid) as (Hun & _ & _ & Hnum).
  by split.
Defined.

Lemma g192_roundtrip_witness :
  bv16_fread_g192bitstrm (bv16_fwrite_g192bitstrm ex_frame ++ [5]) = Ok (1, 0, ex_frame, [5]).
Proof. exact (proj1 (proj2 (g192_roundtrip ex_frame [5] ex_frame_valid))). Defined.
