(* ===== verification/SpeexBits.v ===== *)
(** The bit streams of the Speex codec, [libspeex/bits.c].

    A stream is a buffer of 8-bit characters with a byte and a bit cursor.  The
    buffer is a list of characters some of which are indeterminate: [malloc]'d
    memory grown by [realloc] holds nothing until it is stored to.  [Stream] is
    the specification: a stream that is written holds a sequence of bits, one
    that is read holds a sequence of bits and a position in it. *)
From stdpp Require Import base list.
From Stdlib Require Import ZArith Lia.
From S2P Require Import Prelude.

Open Scope Z_scope.

Definition BITS_PER_CHAR : Z := 8.
Definition LOG2_BITS_PER_CHAR : Z := 3.
Definition BYTES_PER_CHAR : Z := 1.
Definition MAX_CHARS_PER_FRAME : Z := Z.quot 2000 BYTES_PER_CHAR.

Record SpeexBits := Bits {
  chars : list (option Z); nbBits : Z; charPtr : Z; bitPtr : Z;
  owner : bool; overflow : bool; buf_size : Z
}.

(** ** Memory *)

Definition get_char (i : Z) (m : list (option Z)) : res Z :=
  if i <? 0 then Err OutOfBounds
  else match m !! Z.to_nat i with
       | None => Err OutOfBounds
       | Some None => Err UninitRead
       | Some (Some c) => Ok c
       end.

Definition set_char (i c : Z) (m : list (option Z)) : res (list (option Z)) :=
  if (i <? 0) || (Z.of_nat (length m) <=? i) then Err OutOfBounds
  else Ok (<[Z.to_nat i := Some (u8 c)]> m).

(** The characters of an array of the caller. *)
Definition char_at (i : nat) (l : list Z) : res Z :=
  match l !! i with Some c => Ok c | None => Err OutOfBounds end.

(** [for (i=0;i<n;i++) bits->chars[pos+i]=chars[i]] *)
Fixpoint copy_in (n i : nat) (pos : Z) (src : list Z) (m : list (option Z)) : res (list (option Z)) :=
  match n with
  | O => Ok m
  | S n =>
      c ← char_at i src;
      m ← set_char (pos + Z.of_nat i) c m;
      copy_in n (S i) pos src m
  end.

(** [for (i=0;i<n;i++) chars[i]=bits->chars[i]]: what the caller's array gets. *)
Fixpoint copy_out (n : nat) (i : Z) (m : list (option Z)) : res (list Z) :=
  match n with
  | O => Ok []
  | S n => c ← get_char i m; l ← copy_out n (i + 1) m; Ok (c :: l)
  end.

(** Memory that [realloc] has moved: what was there, then indeterminate. *)
Definition resize (n : Z) (m : list (option Z)) : list (option Z) :=
  let n := Z.to_nat n in
  take n m ++ replicate (n - length m) None.

(** A 32-bit word shifted right, by a legal amount. *)
Definition shr_u32 (d n : Z) : res Z :=
  if (0 <=? n) && (n <? 32) then Ok (Z.shiftr d n) else Err BadShift.

(** [a >> LOG2_BITS_PER_CHAR], [a << LOG2_BITS_PER_CHAR] *)
Definition chars_of (a : Z) : Z := Z.shiftr a LOG2_BITS_PER_CHAR.
Definition bits_in (a : Z) : Z := Z.shiftl a LOG2_BITS_PER_CHAR.
Definition chars_needed (b : SpeexBits) : Z := chars_of (nbBits b + BITS_PER_CHAR - 1).

Definition with_chars (m : list (option Z)) (b : SpeexBits) : SpeexBits :=
  Bits m (nbBits b) (charPtr b) (bitPtr b) (owner b) (overflow b) (buf_size b).
Definition with_cursor (n c p : Z) (b : SpeexBits) : SpeexBits :=
  Bits (chars b) n c p (owner b) (overflow b) (buf_size b).
Definition with_overflow (o : bool) (b : SpeexBits) : SpeexBits :=
  Bits (chars b) (nbBits b) (charPtr b) (bitPtr b) (owner b) o (buf_size b).

Section speex_bits.

(** Whether the heap can provide a block of a size: [calloc] and [realloc]. *)
Variable can_alloc : Z -> bool.

(** ** Life of a stream *)

Definition speex_bits_reset (b : SpeexBits) : res SpeexBits :=
  m ← set_char 0 0 (chars b);
  Ok (Bits m 0 0 0 (owner b) false (buf_size b)).

Definition speex_bits_init (b : SpeexBits) : res SpeexBits :=
  if can_alloc MAX_CHARS_PER_FRAME
  then speex_bits_reset
         (Bits (replicate (Z.to_nat MAX_CHARS_PER_FRAME) (Some 0)) (nbBits b) (charPtr b) (bitPtr b)
               true (overflow b) MAX_CHARS_PER_FRAME)
  else Ok (with_chars [] b).

Definition speex_bits_init_buffer (buff : list (option Z)) (size : Z) (b : SpeexBits) : res SpeexBits :=
  speex_bits_reset (Bits buff (nbBits b) (charPtr b) (bitPtr b) false (overflow b) size).

Definition speex_bits_set_bit_buffer (buff : list (option Z)) (size : Z) (b : SpeexBits) : SpeexBits :=
  Bits buff (bits_in size) 0 0 false false size.

(** Freed memory holds nothing. *)
Definition speex_bits_destroy (b : SpeexBits) : SpeexBits :=
  if owner b then with_chars [] b else b.

Definition speex_bits_rewind (b : SpeexBits) : SpeexBits :=
  Bits (chars b) (nbBits b) 0 0 (owner b) false (buf_size b).

(** ** Writing *)

(** One round of the loop of [speex_bits_pack]. *)
Definition pack_bit (d n : Z) (b : SpeexBits) : res SpeexBits :=
  s ← shr_u32 d (n - 1);
  let bit := Z.land s 1 in
  c ← get_char (charPtr b) (chars b);
  m ← set_char (charPtr b) (Z.lor c (Z.shiftl bit (BITS_PER_CHAR - 1 - bitPtr b))) (chars b);
  if bitPtr b + 1 =? BITS_PER_CHAR then
    m ← set_char (charPtr b + 1) 0 m;
    Ok (with_cursor (nbBits b + 1) (charPtr b + 1) 0 (with_chars m b))
  else Ok (with_cursor (nbBits b + 1) (charPtr b) (bitPtr b + 1) (with_chars m b)).

Fixpoint pack_loop (n : nat) (d : Z) (b : SpeexBits) : res SpeexBits :=
  match n with
  | O => Ok b
  | S n' => b ← pack_bit d (Z.of_nat n) b; pack_loop n' d b
  end.

(** The room for the bits: [None] when they are not packed. *)
Definition make_room (n : Z) (b : SpeexBits) : option SpeexBits :=
  if buf_size b <=? charPtr b + chars_of (n + bitPtr b) then
    if owner b then
      let new_nchars := Z.shiftr ((buf_size b + 5) * 3) 1 in
      if can_alloc new_nchars
      then Some (Bits (resize new_nchars (chars b)) (nbBits b) (charPtr b) (bitPtr b)
                      (owner b) (overflow b) new_nchars)
      else None
    else None
  else Some b.

(** A negative count shifts by a negative amount in the first round. *)
Definition speex_bits_pack (data n : Z) (b : SpeexBits) : res SpeexBits :=
  match make_room n b with
  | None => Ok b
  | Some b => if n <? 0 then Err BadShift else pack_loop (Z.to_nat n) (u32 data) b
  end.

(** [while (bits->bitPtr) speex_bits_pack(bits, 1, 1)]; at most seven rounds
    pack a bit. *)
Fixpoint pack_ones (fuel : nat) (b : SpeexBits) : res SpeexBits :=
  if bitPtr b =? 0 then Ok b
  else match fuel with
       | O => Diverges
       | S fuel => b ← speex_bits_pack 1 1 b; pack_ones fuel b
       end.

Definition speex_bits_insert_terminator (b : SpeexBits) : res SpeexBits :=
  b ← (if bitPtr b =? 0 then Ok b else speex_bits_pack 0 1 b);
  pack_ones 8 b.

(** The number of bytes written, and the bytes. *)
Definition speex_bits_write (max_nbytes : Z) (b : SpeexBits) : res (Z * list Z * SpeexBits) :=
  let max_nchars := Z.quot max_nbytes BYTES_PER_CHAR in
  b' ← speex_bits_insert_terminator b;
  let b' := with_cursor (nbBits b) (charPtr b) (bitPtr b) b' in
  let max_nchars := Z.min max_nchars (chars_needed b') in
  l ← copy_out (Z.to_nat max_nchars) 0 (chars b');
  Ok (max_nchars * BYTES_PER_CHAR, l, b').

Definition speex_bits_write_whole_bytes (max_nbytes : Z) (b : SpeexBits) : res (Z * list Z * SpeexBits) :=
  let max_nchars := Z.min (Z.quot max_nbytes BYTES_PER_CHAR) (chars_of (nbBits b)) in
  l ← copy_out (Z.to_nat max_nchars) 0 (chars b);
  c ← (if 0 <? bitPtr b then get_char max_nchars (chars b) else Ok 0);
  m ← set_char 0 c (chars b);
  Ok (max_nchars * BYTES_PER_CHAR, l,
      with_cursor (Z.land (nbBits b) (BITS_PER_CHAR - 1)) 0 (bitPtr b) (with_chars m b)).

(** ** Reading *)

Definition speex_bits_read_from (src : list Z) (len : Z) (b : SpeexBits) : res SpeexBits :=
  let nchars := Z.quot len BYTES_PER_CHAR in
  let '(nchars, b) :=
    if buf_size b <? nchars then
      if owner b then
        if can_alloc nchars
        then (nchars, Bits (resize nchars (chars b)) (nbBits b) (charPtr b) (bitPtr b)
                           (owner b) (overflow b) nchars)
        else (buf_size b, b)
      else (buf_size b, b)
    else (nchars, b) in
  m ← copy_in (Z.to_nat nchars) 0 0 src (chars b);
  Ok (Bits m (bits_in nchars) 0 0 (owner b) false (buf_size b)).

(** [memmove] of the characters from the cursor to the front. *)
Definition speex_bits_flush (b : SpeexBits) : res SpeexBits :=
  let nchars := chars_needed b in
  m ← (if 0 <? charPtr b then
         let n := nchars - charPtr b in
         if (n <? 0) || (Z.of_nat (length (chars b)) <? nchars) then Err OutOfBounds
         else Ok (take (Z.to_nat n) (drop (Z.to_nat (charPtr b)) (chars b))
                  ++ drop (Z.to_nat n) (chars b))
       else Ok (chars b));
  Ok (with_cursor (nbBits b - bits_in (charPtr b)) 0 (bitPtr b) (with_chars m b)).

Definition speex_bits_read_whole_bytes (src : list Z) (nbytes : Z) (b : SpeexBits) : res SpeexBits :=
  let nchars := Z.quot nbytes BYTES_PER_CHAR in
  let '(nchars, b) :=
    if buf_size b <? chars_needed b + nchars then
      if owner b then
        let size := chars_of (nbBits b) + nchars + 1 in
        if can_alloc size
        then (nchars, Bits (resize size (chars b)) (nbBits b) (charPtr b) (bitPtr b)
                           (owner b) (overflow b) size)
        else (buf_size b - chars_of (nbBits b) - 1, b)
      else (buf_size b, b)
    else (nchars, b) in
  b ← speex_bits_flush b;
  let pos := chars_of (nbBits b) in
  m ← copy_in (Z.to_nat nchars) 0 pos src (chars b);
  Ok (with_cursor (nbBits b + bits_in nchars) (charPtr b) (bitPtr b) (with_chars m b)).

(** The check of every reader: an attempt to pass the end sets the flag. *)
Definition past_end (n : Z) (b : SpeexBits) : bool :=
  overflow b || (nbBits b <? bits_in (charPtr b) + bitPtr b + n).

(** The bit under a cursor. *)
Definition bit_at (c p : Z) (m : list (option Z)) : res Z :=
  ch ← get_char c m; Ok (Z.land (Z.shiftr ch (BITS_PER_CHAR - 1 - p)) 1).

(** The cursor one bit further. *)
Definition next_cursor (c p : Z) : Z * Z :=
  if p + 1 =? BITS_PER_CHAR then (c + 1, 0) else (c, p + 1).

(** The loop of the unpacking functions. *)
Fixpoint unpack_loop (n : nat) (d c p : Z) (m : list (option Z)) : res (Z * Z * Z) :=
  match n with
  | O => Ok (d, c, p)
  | S n =>
      bit ← bit_at c p m;
      let '(c, p) := next_cursor c p in
      unpack_loop n (Z.lor (u32 (Z.shiftl d 1)) bit) c p m
  end.

Definition speex_bits_unpack_unsigned (n : Z) (b : SpeexBits) : res (Z * SpeexBits) :=
  if past_end n b then Ok (0, with_overflow true b)
  else if n <? 0 then Diverges
  else
    '(d, c, p) ← unpack_loop (Z.to_nat n) 0 (charPtr b) (bitPtr b) (chars b);
    Ok (d, with_cursor (nbBits b) c p b).

(** The sign is extended when the top bit is set; the result is an [int]. *)
Definition speex_bits_unpack_signed (n : Z) (b : SpeexBits) : res (Z * SpeexBits) :=
  '(d, b) ← speex_bits_unpack_unsigned n b;
  s ← shr_u32 d (n - 1);
  if s =? 0 then Ok (s32 d, b)
  else if n <? 32 then Ok (s32 (Z.lor d (u32 (Z.shiftl (-1) n))), b)
  else Err BadShift.

Definition speex_bits_peek_unsigned (n : Z) (b : SpeexBits) : res (Z * SpeexBits) :=
  if past_end n b then Ok (0, with_overflow true b)
  else if n <? 0 then Diverges
  else
    '(d, _, _) ← unpack_loop (Z.to_nat n) 0 (charPtr b) (bitPtr b) (chars b);
    Ok (d, b).

Definition speex_bits_peek (b : SpeexBits) : res (Z * SpeexBits) :=
  if past_end 1 b then Ok (0, with_overflow true b)
  else d ← bit_at (charPtr b) (bitPtr b) (chars b); Ok (d, b).

Definition speex_bits_advance (n : Z) (b : SpeexBits) : SpeexBits :=
  if past_end n b then with_overflow true b
  else with_cursor (nbBits b) (charPtr b + chars_of (bitPtr b + n))
         (Z.land (bitPtr b + n) (BITS_PER_CHAR - 1)) b.

Definition speex_bits_remaining (b : SpeexBits) : Z :=
  if overflow b then -1 else nbBits b - (bits_in (charPtr b) + bitPtr b).

Definition speex_bits_nbytes (b : SpeexBits) : Z := chars_needed b.

End speex_bits.

(** ** Specification: sequences of bits *)

(** The [n] low bits of [d], the highest first, and the number bits stand for. *)
Fixpoint bits_of (n : nat) (d : Z) : list bool :=
  match n with
  | O => []
  | S n => Z.testbit d (Z.of_nat n) :: bits_of n d
  end.

Definition push (a : Z) (x : bool) : Z := 2 * a + Z.b2z x.
Definition num (l : list bool) : Z := foldl push 0 l.

Definition byte (c : Z) : Prop := 0 <= c < 256.
Definition bits_of_chars (l : list Z) : list bool := flat_map (bits_of 8) l.

(** A stream that holds the bits [bs], with its cursor behind them; the
    character under the cursor has zeros where no bit is written. *)
Definition writes (bs : list bool) (b : SpeexBits) : Prop :=
  exists full tail rest,
    bs = bits_of_chars full ++ tail /\ (length tail < 8)%nat /\ Forall byte full /\
    chars b = (Some <$> full) ++ Some (num tail * 2 ^ (8 - Z.of_nat (length tail))) :: rest /\
    Z.of_nat (length (chars b)) = buf_size b /\
    nbBits b = Z.of_nat (length bs) /\
    charPtr b = Z.of_nat (length full) /\ bitPtr b = Z.of_nat (length tail).

(** A stream that holds the bits [bs], with its cursor before bit [pos]. *)
Definition reads (bs : list bool) (pos : nat) (b : SpeexBits) : Prop :=
  exists bytes rest,
    chars b = (Some <$> bytes) ++ rest /\ Forall byte bytes /\
    bs = take (length bs) (bits_of_chars bytes) /\
    nbBits b = Z.of_nat (length bs) /\ (pos <= length bs)%nat /\
    charPtr b = Z.of_nat (pos / 8) /\ bitPtr b = Z.of_nat (pos mod 8) /\ overflow b = false.

(** ** Bits and numbers *)

Lemma bits_of_length n d : length (bits_of n d) = n.
Proof. induction n as [|n IH]; [done|]. cbn. by rewrite IH. Qed.

Lemma bits_of_chars_length l : length (bits_of_chars l) = (8 * length l)%nat.
Proof.
  induction l as [|c l IH]; [done|]. cbn [bits_of_chars flat_map].
  rewrite length_app, bits_of_length. fold (bits_of_chars l). rewrite IH. cbn [length]. lia.
Qed.

Lemma bits_of_chars_app l l' : bits_of_chars (l ++ l') = bits_of_chars l ++ bits_of_chars l'.
Proof. apply flat_map_app. Qed.

Lemma num_snoc l x : num (l ++ [x]) = push (num l) x.
Proof. unfold num. by rewrite foldl_app. Qed.

Lemma foldl_push a l : foldl push a l = a * 2 ^ Z.of_nat (length l) + num l.
Proof.
  revert a. induction l as [|x l IH] using rev_ind; intros a; [cbn; lia|].
  rewrite num_snoc, foldl_app, length_app. cbn [foldl length]. rewrite IH. unfold push.
  rewrite Nat2Z.inj_add, Z.pow_add_r by lia. lia.
Qed.

Lemma num_cons x l : num (x :: l) = Z.b2z x * 2 ^ Z.of_nat (length l) + num l.
Proof. unfold num. cbn [foldl]. rewrite foldl_push. unfold push. f_equal. Qed.

Lemma num_range l : 0 <= num l < 2 ^ Z.of_nat (length l).
Proof.
  induction l as [|x l IH] using rev_ind; [cbn; lia|].
  rewrite num_snoc, length_app, Nat2Z.inj_add, Z.pow_add_r by lia.
  unfold push. destruct x; cbn [Z.b2z length]; lia.
Qed.

Lemma num_bits_of n d : num (bits_of n d) = d mod 2 ^ Z.of_nat n.
Proof.
  induction n as [|n IH]; [cbn; by rewrite Z.mod_1_r|].
  cbn [bits_of]. rewrite num_cons, bits_of_length, IH.
  rewrite Z.testbit_spec' by lia. rewrite Nat2Z.inj_succ, Z.pow_succ_r, Z.mul_comm by lia.
  rewrite (Z.mul_comm 2), Z.rem_mul_r by lia. lia.
Qed.

Lemma bits_of_num l : bits_of (length l) (num l) = l.
Proof.
  assert (forall n d e, (forall i, 0 <= i < Z.of_nat n -> Z.testbit d i = Z.testbit e i) ->
    bits_of n d = bits_of n e) as Hext.
  { induction n as [|n IH]; intros d e H; [done|]. cbn. f_equal; [apply H; lia|].
    apply IH. intros i Hi. apply H. lia. }
  induction l as [|x l IH]; [done|]. cbn [length bits_of]. rewrite num_cons.
  pose proof (num_range l) as Hl. f_equal.
  - rewrite Z.testbit_odd, Z.shiftr_div_pow2, Z.add_comm, Z.div_add by lia.
    rewrite Z.div_small by lia. by destruct x.
  - etrans; [|exact IH]. apply Hext. intros i Hi.
    rewrite <- (Z.mod_pow2_bits_low _ (Z.of_nat (length l))) by lia.
    rewrite Z.add_comm, Z.mod_add, Z.mod_small by lia. done.
Qed.

Lemma bits_of_u32 n d : (n <= 32)%nat -> bits_of n (u32 d) = bits_of n d.
Proof.
  intros Hn. induction n as [|n IH]; [done|]. cbn [bits_of]. rewrite IH by lia. f_equal.
  unfold wrap_u. apply Z.mod_pow2_bits_low. lia.
Qed.

(** ** Cells of the buffer *)

Lemma get_char_lookup i m c : m !! Z.to_nat i = Some (Some c) -> 0 <= i -> get_char i m = Ok c.
Proof. intros H Hi. unfold get_char. rewrite (proj2 (Z.ltb_ge _ _)) by lia. by rewrite H. Qed.

Lemma set_char_insert i c m :
  0 <= i < Z.of_nat (length m) -> set_char i c m = Ok (<[Z.to_nat i := Some (u8 c)]> m).
Proof.
  intros Hi. unfold set_char.
  rewrite (proj2 (Z.ltb_ge _ _)), (proj2 (Z.leb_gt _ _)) by lia. done.
Qed.

(** The cell behind a prefix. *)
Lemma get_char_middle (l : list (option Z)) c rest i :
  i = Z.of_nat (length l) -> get_char i (l ++ Some c :: rest) = Ok c.
Proof. intros ->. apply get_char_lookup; [|lia]. rewrite Nat2Z.id. by apply list_lookup_middle. Qed.

Lemma set_char_middle (l : list (option Z)) x c rest i :
  i = Z.of_nat (length l) -> set_char i c (l ++ x :: rest) = Ok (l ++ Some (u8 c) :: rest).
Proof.
  intros ->. rewrite set_char_insert by (rewrite length_app; cbn; lia).
  rewrite Nat2Z.id. f_equal. by apply list_insert_middle || rewrite insert_app_r_alt, Nat.sub_diag.
Qed.

(** ** Writing *)

(** Storing one bit behind [tail]. *)
Lemma store_bit tail x :
  (length tail < 8)%nat ->
  u8 (Z.lor (num tail * 2 ^ (8 - Z.of_nat (length tail)))
            (Z.shiftl (Z.b2z x) (BITS_PER_CHAR - 1 - Z.of_nat (length tail))))
  = num (tail ++ [x]) * 2 ^ (7 - Z.of_nat (length tail)).
Proof.
  intros Ht. set (k := Z.of_nat (length tail)). unfold BITS_PER_CHAR.
  replace (8 - 1 - k) with (7 - k) by lia.
  assert (0 <= 7 - k) as Hk by lia.
  rewrite num_snoc. unfold push.
  replace (num tail * 2 ^ (8 - k)) with (Z.shiftl (2 * num tail) (7 - k)).
  2: { rewrite Z.shiftl_mul_pow2 by lia. replace (8 - k) with (Z.succ (7 - k)) by lia.
       rewrite Z.pow_succ_r by lia. lia. }
  rewrite <- Z.shiftl_lor.
  replace (Z.lor (2 * num tail) (Z.b2z x)) with (2 * num tail + Z.b2z x).
  2: { symmetry. destruct x; [|by rewrite Z.lor_0_r, Z.add_0_r].
       destruct (num tail) as [|p|p] eqn:E; try done. pose proof (num_range tail). lia. }
  rewrite Z.shiftl_mul_pow2 by lia. apply wrap_u_id.
  pose proof (num_range tail) as Hr. fold k in Hr.
  assert (2 ^ 8 = 2 ^ k * 2 * 2 ^ (7 - k)) as ->.
  { replace 8 with (k + 1 + (7 - k)) by lia. rewrite !Z.pow_add_r by lia. done. }
  assert (0 < 2 ^ (7 - k)) by (apply Z.pow_pos_nonneg; lia).
  split; [apply Z.mul_nonneg_nonneg; destruct x; cbn [Z.b2z]; lia|].
  apply Z.mul_lt_mono_pos_r; [done|]. destruct x; cbn [Z.b2z]; lia.
Qed.

Lemma bits_of_byte tail : length tail = 8%nat -> bits_of 8 (num tail) = tail.
Proof. intros H. rewrite <- H. apply bits_of_num. Qed.

Lemma pack_bit_appends bs b d n :
  writes bs b -> 0 < n <= 32 -> Z.of_nat (length bs) + 1 < 8 * buf_size b ->
  exists b', pack_bit d n b = Ok b' /\ writes (bs ++ [Z.testbit d (n - 1)]) b' /\
    buf_size b' = buf_size b /\ owner b' = owner b /\ overflow b' = overflow b.
Proof.
  intros (full & tail & rest & Hbs & Ht & Hbytes & Hch & Hlen & Hnb & Hcp & Hbp) Hn Hroom.
  unfold pack_bit, shr_u32. rewrite (proj2 (andb_true_iff _ _)) by lia. rewrite bind_Ok.
  rewrite Hch, Hcp, Hbp. rewrite get_char_middle by (by rewrite length_fmap). rewrite bind_Ok.
  rewrite set_char_middle by (by rewrite length_fmap). rewrite bind_Ok.
  assert (Z.land (Z.shiftr d (n - 1)) 1 = Z.b2z (Z.testbit d (n - 1))) as ->.
  { rewrite Z.testbit_spec' by lia. change 1 with (Z.ones 1) at 2.
    by rewrite Z.land_ones, Z.shiftr_div_pow2 by lia. }
  set (x := Z.testbit d (n - 1)). rewrite store_bit by done.
  assert (length bs = 8 * length full + length tail)%nat as Hl.
  { by rewrite Hbs, length_app, bits_of_chars_length. }
  rewrite Hch, length_app, length_fmap in Hlen. cbn [length] in Hlen.
  unfold BITS_PER_CHAR. case_match eqn:Hfull.
  - apply Z.eqb_eq in Hfull. assert (length tail = 7)%nat as H7 by lia.
    destruct rest as [|r rest]; [cbn [length] in Hlen; lia|].
    set (c := num (tail ++ [x])). rewrite H7. replace (c * 2 ^ (7 - Z.of_nat 7)) with c by (cbn; lia).
    rewrite cons_middle, app_assoc, set_char_middle
      by (rewrite length_app, length_fmap; cbn [length]; lia).
    rewrite bind_Ok. eexists. split; [reflexivity|]. split; [|done].
    exists (full ++ [c]), [], rest. cbn [chars nbBits charPtr bitPtr buf_size with_cursor with_chars].
    assert (length (tail ++ [x]) = 8)%nat as H8 by (rewrite length_app; cbn [length]; lia).
    split_and!; [|cbn; lia|..].
    + rewrite bits_of_chars_app, app_nil_r, Hbs, <- app_assoc. f_equal.
      unfold bits_of_chars, c. cbn [flat_map]. by rewrite app_nil_r, bits_of_byte.
    + apply Forall_app_2; [done|]. apply Forall_singleton. unfold byte, c.
      pose proof (num_range (tail ++ [x])) as Hr. by rewrite H8 in Hr.
    + by rewrite fmap_app.
    + rewrite !length_app, length_fmap. cbn [length] in *. lia.
    + rewrite length_app. cbn [length]. lia.
    + rewrite length_app. cbn [length]. lia.
    + done.
  - apply Z.eqb_neq in Hfull. eexists. split; [reflexivity|]. split; [|done].
    exists full, (tail ++ [x]), rest. cbn [chars nbBits charPtr bitPtr buf_size with_cursor with_chars].
    rewrite !length_app. cbn [length]. split_and!; [|lia|done|..|done|lia].
    + by rewrite Hbs, app_assoc.
    + by replace (8 - Z.of_nat (length tail + 1)) with (7 - Z.of_nat (length tail)) by lia.
    + rewrite length_fmap. cbn [length]. lia.
    + lia.
Qed.

Lemma pack_loop_appends n bs b d :
  writes bs b -> (n <= 32)%nat -> Z.of_nat (length bs) + Z.of_nat n < 8 * buf_size b ->
  exists b', pack_loop n d b = Ok b' /\ writes (bs ++ bits_of n d) b' /\
    buf_size b' = buf_size b /\ owner b' = owner b /\ overflow b' = overflow b.
Proof.
  revert bs b. induction n as [|n IH]; intros bs b Hw Hn Hroom.
  { exists b. by rewrite app_nil_r. }
  destruct (pack_bit_appends bs b d (Z.of_nat (S n)) Hw ltac:(lia) ltac:(lia))
    as (b1 & E1 & Hw1 & Hs1 & Ho1 & Hov1).
  destruct (IH _ _ Hw1 ltac:(lia)) as (b2 & E2 & Hw2 & Hs2 & Ho2 & Hov2).
  { rewrite length_app, Hs1. cbn [length]. lia. }
  exists b2. cbn [pack_loop bits_of]. rewrite E1, bind_Ok, E2.
  replace (Z.of_nat (S n) - 1) with (Z.of_nat n) in Hw2 by lia.
  rewrite <- app_assoc in Hw2. split_and!; [done|done|congruence..].
Qed.

Section allocation.
Variable can_alloc : Z -> bool.

(** Whether [n] more bits find room, now or after growing the buffer. *)
Definition has_room (n : Z) (b : SpeexBits) : bool :=
  (nbBits b + n <? 8 * buf_size b)
  || owner b && can_alloc (Z.shiftr ((buf_size b + 5) * 3) 1).

Lemma grown_size s : 0 <= s -> s + 7 <= Z.shiftr ((s + 5) * 3) 1.
Proof. intros Hs. rewrite Z.shiftr_div_pow2 by lia. apply Z.div_le_lower_bound; lia. Qed.

Lemma writes_position bs b : writes bs b ->
  0 <= bitPtr b < 8 /\ nbBits b = Z.of_nat (length bs) /\ nbBits b = 8 * charPtr b + bitPtr b /\
  Z.of_nat (length (chars b)) = buf_size b /\ charPtr b < buf_size b.
Proof.
  intros (full & tail & rest & Hbs & Ht & _ & Hch & Hlen & Hnb & Hcp & Hbp).
  assert (length bs = 8 * length full + length tail)%nat as Hl.
  { by rewrite Hbs, length_app, bits_of_chars_length. }
  split_and!; [lia..|done|].
  rewrite <- Hlen, Hch, length_app, length_fmap. cbn [length]. lia.
Qed.

Lemma writes_grow bs b n :
  writes bs b -> buf_size b <= n ->
  writes bs (Bits (resize n (chars b)) (nbBits b) (charPtr b) (bitPtr b) (owner b) (overflow b) n).
Proof.
  intros Hw Hn. destruct (writes_position _ _ Hw) as (_ & _ & _ & Hl & _).
  destruct Hw as (full & tail & rest & Hbs & Ht & Hb & Hch & Hlen & Hnb & Hcp & Hbp).
  exists full, tail, (rest ++ replicate (Z.to_nat n - length (chars b)) None).
  cbn [chars nbBits charPtr bitPtr buf_size]. split_and!; try done.
  - unfold resize. rewrite take_ge by lia. rewrite Hch at 1. by rewrite <- app_assoc.
  - unfold resize. rewrite length_app, length_take, length_replicate. lia.
Qed.

(** [make_room] finds room exactly when [has_room] says so. *)
Lemma make_room_spec bs b n :
  writes bs b -> 0 <= n <= 32 ->
  match make_room can_alloc n b with
  | Some b' => has_room n b = true /\ writes bs b' /\ nbBits b' + n < 8 * buf_size b' /\
      buf_size b <= buf_size b' /\ (buf_size b' = buf_size b \/ buf_size b + 7 <= buf_size b') /\
      owner b' = owner b /\ overflow b' = overflow b
  | None => has_room n b = false
  end.
Proof.
  intros Hw Hn. pose proof (writes_position _ _ Hw) as (Hp & _ & Hnb & Hl & Hc).
  pose proof (grown_size (buf_size b) ltac:(lia)) as Hg.
  unfold make_room, has_room, chars_of, LOG2_BITS_PER_CHAR.
  rewrite (Z.shiftr_div_pow2 (n + bitPtr b)) by lia. change (2 ^ 3) with 8.
  pose proof (Z.div_mod (n + bitPtr b) 8 ltac:(lia)) as Hdiv.
  pose proof (Z.mod_pos_bound (n + bitPtr b) 8 ltac:(lia)) as Hmod.
  destruct (Z.leb_spec (buf_size b) (charPtr b + (n + bitPtr b) / 8)) as [Hfull|Hroom].
  - rewrite (proj2 (Z.ltb_ge (nbBits b + n) _)) by lia. cbn [orb].
    destruct (owner b) eqn:Ho; [|done]. cbn [andb].
    destruct (can_alloc _); [|done]. cbn [nbBits buf_size owner overflow].
    split_and!; [done|rewrite <- Ho; apply writes_grow; [done|lia]|lia|lia|lia|done|done].
  - rewrite (proj2 (Z.ltb_lt (nbBits b + n) _)) by lia. split_and!; try done; lia.
Qed.

Lemma speex_bits_pack_spec bs b data n :
  writes bs b -> 0 <= n <= 32 ->
  exists b', speex_bits_pack can_alloc data n b = Ok b' /\
    writes (bs ++ if has_room n b then bits_of (Z.to_nat n) data else []) b' /\
    (buf_size b' = buf_size b \/ buf_size b + 7 <= buf_size b') /\
    owner b' = owner b /\ overflow b' = overflow b.
Proof.
  intros Hw Hn. unfold speex_bits_pack. pose proof (make_room_spec bs b n Hw Hn) as Hm.
  destruct (make_room can_alloc n b) as [b1|].
  - destruct Hm as (-> & Hw1 & Hroom & _ & Hsz & Ho & Hov).
    rewrite (proj2 (Z.ltb_ge _ _)) by lia.
    destruct (writes_position _ _ Hw1) as (_ & Hnb & _).
    destruct (pack_loop_appends (Z.to_nat n) bs b1 (u32 data) Hw1) as (b2 & E & Hw2 & Hs2 & Ho2 & Hov2);
      [lia..|].
    exists b2. rewrite bits_of_u32 in Hw2 by lia. split_and!; [done|done|lia|congruence..].
  - exists b. rewrite Hm, app_nil_r. split_and!; [done|done|lia|done..].
Qed.

(** Room for [k] bits, whatever the way they are packed. *)
Definition ample (k : Z) (b : SpeexBits) : Prop :=
  nbBits b + k < 8 * buf_size b \/ (owner b = true /\ forall n, can_alloc n = true).

Lemma ample_has_room k n b : ample k b -> n <= k -> has_room n b = true.
Proof.
  intros [H|[Ho Ha]] Hn; unfold has_room.
  - by rewrite (proj2 (Z.ltb_lt _ _)) by lia.
  - by rewrite Ho, Ha, orb_true_r.
Qed.

Lemma pack_ample bs b data n k :
  writes bs b -> 0 <= n <= 32 -> n <= k -> ample k b ->
  exists b', speex_bits_pack can_alloc data n b = Ok b' /\
    writes (bs ++ bits_of (Z.to_nat n) data) b' /\ ample (k - n) b'.
Proof.
  intros Hw Hn Hk Ha.
  destruct (speex_bits_pack_spec bs b data n Hw Hn) as (b' & E & Hw' & Hs & Ho & _).
  rewrite (ample_has_room k n b Ha Hk) in Hw'. exists b'. split_and!; [done..|].
  destruct Ha as [Ha|[Hb Ha]]; [left|right; by rewrite Ho].
  destruct (writes_position _ _ Hw) as (_ & Hnb & _), (writes_position _ _ Hw') as (_ & Hnb' & _).
  rewrite length_app, bits_of_length in Hnb'. lia.
Qed.

Lemma writes_bitPtr bs b : writes bs b -> bitPtr b = Z.of_nat (length bs mod 8).
Proof.
  intros (full & tail & rest & Hbs & Ht & _ & _ & _ & _ & _ & Hbp). rewrite Hbp. f_equal.
  rewrite Hbs, length_app, bits_of_chars_length, Nat.mul_comm, Nat.Div0.add_mod, Nat.Div0.mod_mul.
  rewrite Nat.add_0_l, Nat.Div0.mod_mod. by rewrite Nat.mod_small.
Qed.

(** The bits from [k] to the next character boundary. *)
Definition gap (k : nat) : nat := (7 - (k + 7) mod 8)%nat.
Definition terminator (k : nat) : list bool :=
  match gap k with O => [] | S g => false :: replicate g true end.

Lemma terminator_length k : length (terminator k) = gap k.
Proof. unfold terminator. destruct (gap k); [done|]. cbn [length]. by rewrite length_replicate. Qed.

Lemma gap_range k : (gap k < 8)%nat.
Proof. unfold gap. lia. Qed.

Lemma gap_zero k : gap k = O <-> (k mod 8 = 0)%nat.
Proof.
  unfold gap. pose proof (Nat.div_mod k 8 ltac:(lia)). pose proof (Nat.div_mod (k + 7) 8 ltac:(lia)).
  pose proof (Nat.mod_upper_bound k 8 ltac:(lia)). pose proof (Nat.mod_upper_bound (k + 7) 8 ltac:(lia)).
  lia.
Qed.

Lemma gap_succ k g : gap k = S g -> gap (k + 1) = g.
Proof.
  unfold gap. replace (k + 1 + 7)%nat with (k + 7 + 1)%nat by lia.
  pose proof (Nat.div_mod (k + 7 + 1) 8 ltac:(lia)). pose proof (Nat.div_mod (k + 7) 8 ltac:(lia)).
  pose proof (Nat.mod_upper_bound (k + 7 + 1) 8 ltac:(lia)).
  pose proof (Nat.mod_upper_bound (k + 7) 8 ltac:(lia)). lia.
Qed.

Lemma pack_ones_spec fuel bs b g :
  writes bs b -> gap (length bs) = g -> (g <= fuel)%nat -> ample (Z.of_nat g) b ->
  exists b', pack_ones can_alloc fuel b = Ok b' /\ writes (bs ++ replicate g true) b'.
Proof.
  revert bs b g. induction fuel as [|fuel IH]; intros bs b g Hw Hg Hf Ha;
    cbn [pack_ones]; rewrite (writes_bitPtr bs b Hw).
  - assert (g = O) as -> by lia. rewrite (proj1 (gap_zero _) Hg). exists b. by rewrite app_nil_r.
  - destruct g as [|g].
    { rewrite (proj1 (gap_zero _) Hg). exists b. by rewrite app_nil_r. }
    assert (length bs mod 8 <> 0)%nat as Hm by (intros H%gap_zero; lia).
    rewrite (proj2 (Z.eqb_neq _ _)) by lia.
    destruct (pack_ample bs b 1 1 (Z.of_nat (S g)) Hw ltac:(lia) ltac:(lia) Ha) as (b1 & -> & Hw1 & Ha1).
    rewrite bind_Ok. destruct (IH _ b1 g Hw1) as (b2 & E2 & Hw2).
    + rewrite length_app. by apply gap_succ.
    + lia.
    + by replace (Z.of_nat g) with (Z.of_nat (S g) - 1) by lia.
    + exists b2. by rewrite <- app_assoc in Hw2.
Qed.

(** A zero and ones up to the next boundary. *)
Lemma insert_terminator_spec bs b :
  writes bs b -> ample 8 b ->
  exists b', speex_bits_insert_terminator can_alloc b = Ok b' /\
    writes (bs ++ terminator (length bs)) b'.
Proof.
  intros Hw Ha. unfold speex_bits_insert_terminator, terminator. rewrite (writes_bitPtr bs b Hw).
  pose proof (gap_range (length bs)) as Hr. destruct (gap (length bs)) as [|g] eqn:Hg.
  - rewrite (proj1 (gap_zero _) Hg).
    destruct (pack_ones_spec 8 bs b 0 Hw Hg ltac:(lia)) as (b' & E & Hw'); [|by exists b'].
    destruct Ha as [Ha|Ha]; [left; cbn in *; lia|by right].
  - assert (length bs mod 8 <> 0)%nat as Hm by (intros H%gap_zero; lia).
    rewrite (proj2 (Z.eqb_neq _ _)) by lia.
    destruct (pack_ample bs b 0 1 8 Hw ltac:(lia) ltac:(lia) Ha) as (b1 & -> & Hw1 & Ha1).
    rewrite bind_Ok. destruct (pack_ones_spec 8 _ b1 g Hw1) as (b2 & E2 & Hw2).
    + rewrite length_app. by apply gap_succ.
    + lia.
    + destruct Ha1 as [Ha1|Ha1]; [left; lia|by right].
    + exists b2. by rewrite <- app_assoc in Hw2.
Qed.

(** The characters of the buffer that hold the bits. *)
Lemma copy_out_prefix pre l rest :
  copy_out (length l) (Z.of_nat (length pre)) ((Some <$> pre) ++ (Some <$> l) ++ rest) = Ok l.
Proof.
  revert pre. induction l as [|c l IH]; intros pre; [done|].
  cbn [length copy_out fmap list_fmap]. change (list_fmap _ _ Some l) with (Some <$> l).
  rewrite <- app_comm_cons, get_char_middle by (by rewrite length_fmap). rewrite bind_Ok.
  specialize (IH (pre ++ [c])). rewrite length_app, fmap_app, <- app_assoc in IH. cbn [length] in IH.
  replace (Z.of_nat (length pre) + 1) with (Z.of_nat (length pre + 1)) by lia.
  cbn in IH |- *. by rewrite IH.
Qed.

(** What is written out: the bits, the terminator, cut at the end of the
    caller's array. *)
Lemma speex_bits_write_spec bs b max :
  writes bs b -> ample 8 b -> 0 <= max ->
  exists out b', speex_bits_write can_alloc max b = Ok (Z.of_nat (length out), out, b') /\
    Forall byte out /\
    bits_of_chars out = take (8 * Z.to_nat max) (bs ++ terminator (length bs)) /\
    nbBits b' = nbBits b /\ charPtr b' = charPtr b /\ bitPtr b' = bitPtr b.
Proof.
  intros Hw Ha Hmax. destruct (insert_terminator_spec bs b Hw Ha) as (b1 & E & Hw1).
  unfold speex_bits_write. rewrite E, bind_Ok.
  destruct (writes_position _ _ Hw) as (_ & Hnb & _).
  pose proof (gap_range (length bs)) as Hg.
  pose proof (terminator_length (length bs)) as Hterm.
  destruct Hw1 as (full & tail & rest & Hbs & Ht & Hbytes & Hch & _).
  assert (tail = []) as ->.
  { apply length_zero_iff_nil. apply (f_equal length) in Hbs.
    rewrite !length_app, bits_of_chars_length, Hterm in Hbs. unfold gap in Hbs, Hg.
    pose proof (Nat.div_mod (length bs + 7) 8 ltac:(lia)).
    pose proof (Nat.mod_upper_bound (length bs + 7) 8 ltac:(lia)). lia. }
  rewrite app_nil_r in Hbs.
  assert (chars_needed (with_cursor (nbBits b) (charPtr b) (bitPtr b) b1) = Z.of_nat (length full)) as Hneed.
  { unfold chars_needed, chars_of, LOG2_BITS_PER_CHAR, BITS_PER_CHAR. cbn [nbBits with_cursor].
    rewrite Z.shiftr_div_pow2 by lia. change (2 ^ 3) with 8. rewrite Hnb.
    apply (f_equal length) in Hbs. rewrite length_app, bits_of_chars_length, Hterm in Hbs.
    pose proof (Z.div_mod (Z.of_nat (length bs) + 8 - 1) 8 ltac:(lia)).
    pose proof (Z.mod_pos_bound (Z.of_nat (length bs) + 8 - 1) 8 ltac:(lia)). lia. }
  rewrite Hneed. replace (Z.quot max BYTES_PER_CHAR) with max by (by rewrite Z.quot_1_r).
  set (k := Z.to_nat (Z.min max (Z.of_nat (length full)))).
  assert (length (take k full) = k) as Hk by (rewrite length_take; lia).
  cbn [chars with_cursor]. rewrite Hch.
  generalize (Some (num [] * 2 ^ (8 - Z.of_nat (length (A := bool) []))) :: rest). intros rest'.
  pose proof (copy_out_prefix [] (take k full) ((Some <$> drop k full) ++ rest')) as Hcopy.
  rewrite Hk, (app_assoc (Some <$> take k full)), <- fmap_app, take_drop in Hcopy.
  change (copy_out k 0 ((Some <$> full) ++ rest') = Ok (take k full)) in Hcopy. rewrite Hcopy.
  exists (take k full), (with_cursor (nbBits b) (charPtr b) (bitPtr b) b1). rewrite bind_Ok. split_and!; [|by apply Forall_take| |done..].
  - rewrite Hk. replace (Z.of_nat k) with (Z.min max (Z.of_nat (length full)) * BYTES_PER_CHAR); [done|].
    unfold k, BYTES_PER_CHAR. lia.
  - rewrite Hbs. rewrite <- (take_drop k full) at 2. rewrite bits_of_chars_app.
    destruct (decide (length full <= Z.to_nat max)%nat).
    + assert (k = length full) as Hkf by (unfold k; lia).
      rewrite Hkf, take_ge, drop_ge, app_nil_r by lia.
      by rewrite take_ge by (rewrite bits_of_chars_length; lia).
    + assert (k = Z.to_nat max) as Hkm by (unfold k; lia).
      rewrite take_app_length'; [done|]. rewrite bits_of_chars_length, Hk. lia.
Qed.

(** ** Reading *)

Lemma copy_in_spec n i pos (src : list Z) (m : list (option Z)) :
  (i + n <= length src)%nat -> 0 <= pos -> pos + Z.of_nat (i + n) <= Z.of_nat (length m) ->
  Forall byte src ->
  copy_in n i pos src m =
    Ok (take (Z.to_nat pos + i) m ++ (Some <$> take n (drop i src)) ++ drop (Z.to_nat pos + i + n) m).
Proof.
  intros Hi Hp Hm Hb. revert i m Hi Hm.
  induction n as [|n IH]; intros i m Hi Hm; cbn [copy_in].
  { rewrite Nat.add_0_r, take_0. cbn [fmap list_fmap app]. by rewrite take_drop. }
  destruct (lookup_lt_is_Some_2 src i ltac:(lia)) as [c Hc].
  unfold char_at. rewrite Hc, bind_Ok, set_char_insert, bind_Ok by lia.
  replace (Z.to_nat (pos + Z.of_nat i)) with (Z.to_nat pos + i)%nat by lia.
  rewrite (wrap_u_id 8 c) by (by eapply Forall_lookup_1 in Hb).
  rewrite IH; [|lia|by rewrite length_insert; lia].
  rewrite (drop_S src c i Hc). cbn [take fmap list_fmap].
  change (list_fmap _ _ Some ?l) with (Some <$> l).
  set (j := (Z.to_nat pos + i)%nat). replace (Z.to_nat pos + S i)%nat with (S j) by lia.
  rewrite drop_insert_lt by lia. rewrite (take_S_r _ j (Some c)).
  2: { apply list_lookup_insert_eq. lia. }
  rewrite take_insert_ge by lia. rewrite <- app_assoc. cbn [app].
  by replace (S j + n)%nat with (j + S n)%nat by lia.
Qed.

Lemma speex_bits_read_from_spec (src : list Z) b :
  Z.of_nat (length (chars b)) = buf_size b -> Forall byte src ->
  let len := Z.of_nat (length src) in
  let n := if (len <=? buf_size b) || owner b && can_alloc len then len else buf_size b in
  exists b', speex_bits_read_from can_alloc src len b = Ok b' /\
    reads (bits_of_chars (take (Z.to_nat n) src)) 0 b'.
Proof.
  intros Hlen Hsrc len n. destruct b as [ch nb cp bp ow ov sz].
  cbn [chars buf_size owner] in Hlen, n. unfold speex_bits_read_from, BYTES_PER_CHAR. rewrite Z.quot_1_r.
  cbn [chars nbBits charPtr bitPtr owner overflow buf_size].
  set (fin := if sz <? len then _ else _).
  assert (exists m, fin = (n, Bits m nb cp bp ow ov (Z.of_nat (length m)))
            /\ n <= Z.of_nat (length m) /\ 0 <= n <= len) as (m & -> & Hm & Hn).
  { unfold fin, n. rewrite Z.leb_antisym.
    destruct (Z.ltb_spec sz len); cbn [negb orb];
      [destruct ow; cbn [andb]; [destruct (can_alloc len)|]|].
    1: exists (resize len ch);
         assert (Z.of_nat (length (resize len ch)) = len) as ->
           by (unfold resize; rewrite length_app, length_take, length_replicate; lia).
    2-4: exists ch; rewrite Hlen.
    all: split_and!; [done|lia..]. }
  cbn [chars]. rewrite (copy_in_spec (Z.to_nat n) 0 0 src m) by (done || lia). rewrite bind_Ok.
  eexists. split; [reflexivity|].
  assert (length (take (Z.to_nat n) src) = Z.to_nat n) as Hk by (rewrite length_take; lia).
  exists (take (Z.to_nat n) src), (drop (Z.to_nat n) m).
  cbn [chars nbBits charPtr bitPtr overflow Z.to_nat Nat.add]. rewrite drop_0, take_0.
  rewrite bits_of_chars_length, Hk. split_and!; [done|by apply Forall_take| |..]; [|unfold bits_in, LOG2_BITS_PER_CHAR|lia|done..].
  - symmetry. apply take_ge. by rewrite bits_of_chars_length, Hk.
  - rewrite Z.shiftl_mul_pow2 by lia. lia.
Qed.

Lemma bits_of_lookup n d i :
  (i < n)%nat -> bits_of n d !! i = Some (Z.testbit d (Z.of_nat (n - 1 - i))).
Proof.
  revert i. induction n as [|n IH]; intros i Hi; [lia|].
  destruct i as [|i]; cbn [bits_of lookup list_lookup].
  - do 3 f_equal. lia.
  - change (bits_of n d !! i = Some (Z.testbit d (Z.of_nat (S n - 1 - S i)))).
    rewrite IH by lia. do 3 f_equal. lia.
Qed.

Lemma bits_of_chars_lookup l c p :
  l !! (p / 8)%nat = Some c ->
  bits_of_chars l !! p = Some (Z.testbit c (Z.of_nat (7 - p mod 8))).
Proof.
  revert p. induction l as [|c' l IH]; intros p H; [done|].
  unfold bits_of_chars. cbn [flat_map]. fold (bits_of_chars l).
  destruct (decide (p < 8)%nat) as [Hp|Hp].
  - rewrite Nat.div_small in H by done. injection H as ->.
    rewrite lookup_app_l by (by rewrite bits_of_length). rewrite bits_of_lookup by done.
    by rewrite Nat.mod_small.
  - replace p with (1 * 8 + (p - 8))%nat in H |- * by lia.
    rewrite Nat.div_add_l in H by lia.
    rewrite lookup_app_r, bits_of_length by (rewrite bits_of_length; lia).
    replace (1 * 8 + (p - 8) - 8)%nat with (p - 8)%nat by lia. rewrite IH by exact H.
    by rewrite (Nat.add_comm (1 * 8)), Nat.Div0.mod_add.
Qed.

(** The bit of a buffer under the cursor of position [p]. *)
Lemma bit_at_lookup (bytes : list Z) rest p x :
  bits_of_chars bytes !! p = Some x ->
  bit_at (Z.of_nat (p / 8)) (Z.of_nat (p mod 8)) ((Some <$> bytes) ++ rest) = Ok (Z.b2z x).
Proof.
  intros Hx. pose proof (lookup_lt_Some _ _ _ Hx) as Hp. rewrite bits_of_chars_length in Hp.
  pose proof (Nat.div_mod p 8 ltac:(lia)). pose proof (Nat.mod_upper_bound p 8 ltac:(lia)).
  destruct (lookup_lt_is_Some_2 bytes (p / 8) ltac:(lia)) as [c Hc].
  rewrite (bits_of_chars_lookup bytes c p Hc) in Hx. apply (inj Some) in Hx as <-.
  assert (Z.of_nat (7 - p mod 8) = 8 - 1 - Z.of_nat (p mod 8)) as Hk by lia.
  unfold bit_at. rewrite (get_char_lookup _ _ c), bind_Ok; [|..|lia].
  - unfold BITS_PER_CHAR. rewrite Hk. f_equal. rewrite Z.testbit_spec' by lia.
    change 1 with (Z.ones 1) at 2. by rewrite Z.land_ones, Z.shiftr_div_pow2 by lia.
  - rewrite Nat2Z.id, lookup_app_l by (rewrite length_fmap; lia).
    by rewrite list_lookup_fmap, Hc.
Qed.

Lemma next_cursor_spec p :
  next_cursor (Z.of_nat (p / 8)) (Z.of_nat (p mod 8)) =
    (Z.of_nat ((p + 1) / 8), Z.of_nat ((p + 1) mod 8)).
Proof.
  unfold next_cursor, BITS_PER_CHAR.
  pose proof (Nat.div_mod p 8 ltac:(lia)). pose proof (Nat.mod_upper_bound p 8 ltac:(lia)).
  pose proof (Nat.div_mod (p + 1) 8 ltac:(lia)). pose proof (Nat.mod_upper_bound (p + 1) 8 ltac:(lia)).
  case_match eqn:E; [apply Z.eqb_eq in E|apply Z.eqb_neq in E]; f_equal; lia.
Qed.

Lemma unpack_loop_spec n (bytes : list Z) rest d p :
  (p + n <= 8 * length bytes)%nat -> 0 <= d -> (d + 1) * 2 ^ Z.of_nat n <= 2 ^ 32 ->
  unpack_loop n d (Z.of_nat (p / 8)) (Z.of_nat (p mod 8)) ((Some <$> bytes) ++ rest) =
    Ok (foldl push d (take n (drop p (bits_of_chars bytes))),
        Z.of_nat ((p + n) / 8), Z.of_nat ((p + n) mod 8)).
Proof.
  revert d p. induction n as [|n IH]; intros d p Hp Hd Hm; cbn [unpack_loop].
  { by rewrite Nat.add_0_r. }
  destruct (lookup_lt_is_Some_2 (bits_of_chars bytes) p) as [x Hx]; [rewrite bits_of_chars_length; lia|].
  rewrite (bit_at_lookup bytes rest p x Hx), bind_Ok, next_cursor_spec.
  rewrite Nat2Z.inj_succ, Z.pow_succ_r in Hm by lia.
  assert (0 < 2 ^ Z.of_nat n) as Hpos by (apply Z.pow_pos_nonneg; lia).
  assert (Z.lor (u32 (Z.shiftl d 1)) (Z.b2z x) = push d x) as ->.
  { rewrite Z.shiftl_mul_pow2, wrap_u_id by (try lia; change (2 ^ 1) with 2; nia).
    unfold push. destruct x; [|rewrite Z.lor_0_r; cbn [Z.b2z]; lia].
    rewrite Z.mul_comm. change (2 ^ 1) with 2. by destruct d. }
  rewrite IH; [|lia|unfold push; destruct x; cbn [Z.b2z]; lia|unfold push; destruct x; cbn [Z.b2z]; nia].
  rewrite (drop_S _ x p Hx). cbn [take foldl]. replace (p + 1)%nat with (S p) by lia.
  by replace (S p + n)%nat with (p + S n)%nat by lia.
Qed.
End allocation.

(** The stream with its cursor before bit [pos]. *)
Definition at_bit (pos : nat) (b : SpeexBits) : SpeexBits :=
  with_cursor (nbBits b) (Z.of_nat (pos / 8)) (Z.of_nat (pos mod 8)) b.

(** The signed number bits stand for, in two's complement. *)
Definition signed (l : list bool) : Z :=
  num l - match l with true :: _ => 2 ^ Z.of_nat (length l) | _ => 0 end.

Lemma reads_past_end bs pos b n :
  reads bs pos b -> past_end n b = (Z.of_nat (length bs) <? Z.of_nat pos + n).
Proof.
  intros (bytes & rest & _ & _ & _ & Hnb & Hpos & Hcp & Hbp & Hov).
  unfold past_end, bits_in, LOG2_BITS_PER_CHAR. rewrite Hov, Hnb, Hcp, Hbp. cbn [orb].
  rewrite Z.shiftl_mul_pow2 by lia. change (2 ^ 3) with 8. f_equal.
  pose proof (Nat.div_mod pos 8 ltac:(lia)). lia.
Qed.

Lemma reads_at_bit bs pos pos' b :
  reads bs pos b -> (pos' <= length bs)%nat -> reads bs pos' (at_bit pos' b).
Proof.
  intros (bytes & rest & Hch & Hb & Hbs & Hnb & Hpos & Hcp & Hbp & Hov) Hp'.
  by exists bytes, rest.
Qed.

(** What the loop delivers in a stream that is read. *)
Lemma reads_unpack bs pos b n :
  reads bs pos b -> (pos + n <= length bs)%nat -> (n <= 32)%nat ->
  unpack_loop n 0 (charPtr b) (bitPtr b) (chars b) =
    Ok (num (take n (drop pos bs)), Z.of_nat ((pos + n) / 8), Z.of_nat ((pos + n) mod 8)).
Proof.
  intros (bytes & rest & Hch & Hb & Hbs & Hnb & Hpos & Hcp & Hbp & Hov) Hn H32.
  assert (length bs <= 8 * length bytes)%nat as Hl.
  { rewrite Hbs, length_take, bits_of_chars_length. lia. }
  rewrite Hcp, Hbp, Hch, unpack_loop_spec; [|lia|lia|].
  - do 3 f_equal. fold (num (take n (drop pos (bits_of_chars bytes)))). rewrite Hbs.
    f_equal. rewrite skipn_firstn_comm, firstn_firstn. f_equal. lia.
  - rewrite Z.mul_1_l. apply Z.pow_le_mono_r; lia.
Qed.

Lemma num_top l :
  (0 < length l)%nat ->
  Z.shiftr (num l) (Z.of_nat (length l) - 1) = match l with true :: _ => 1 | _ => 0 end.
Proof.
  destruct l as [|x l]; [cbn; lia|]. intros _. rewrite num_cons. cbn [length].
  replace (Z.of_nat (S (length l)) - 1) with (Z.of_nat (length l)) by lia.
  pose proof (num_range l).
  rewrite Z.shiftr_div_pow2, Z.add_comm, Z.div_add, Z.div_small by lia. by destruct x.
Qed.

(** The sign extension of [speex_bits_unpack_signed]. *)
Lemma sign_extend l (b : SpeexBits) :
  (0 < length l <= 32)%nat ->
  (if match l with true :: _ => 1 | _ => 0 end =? 0 then Ok (s32 (num l), b)
   else if Z.of_nat (length l) <? 32
        then Ok (s32 (Z.lor (num l) (u32 (Z.shiftl (-1) (Z.of_nat (length l))))), b)
        else Err BadShift)
  = if (length l =? 32)%nat && bool_decide (head l = Some true)
    then Err BadShift else Ok (signed l, b).
Proof.
  intros Hl. destruct l as [|x l]; [cbn in Hl; lia|].
  pose proof (num_range (x :: l)) as Hr. set (k := Z.of_nat (length (x :: l))) in *.
  assert (2 ^ k <= 2 ^ 32) as Hp by (apply Z.pow_le_mono_r; lia).
  unfold signed. fold k. cbn [head].
  destruct x; cbn [Z.eqb]; [rewrite bool_decide_true by done|rewrite bool_decide_false by done].
  - destruct (Nat.eqb_spec (length (true :: l)) 32) as [H32|H32]; cbn [andb].
    { by rewrite (proj2 (Z.ltb_ge _ _)) by lia. }
    rewrite (proj2 (Z.ltb_lt k 32)) by lia. do 2 f_equal.
    assert (2 ^ 32 = 2 ^ k * 2 ^ (32 - k)) as Hk by (rewrite <- Z.pow_add_r by lia; f_equal; lia).
    assert (2 <= 2 ^ (32 - k)) by (change 2 with (2 ^ 1) at 1; apply Z.pow_le_mono_r; lia).
    assert (u32 (Z.shiftl (-1) k) = 2 ^ 32 - 2 ^ k) as ->.
    { unfold wrap_u. rewrite Z.shiftl_mul_pow2 by lia.
      rewrite <- (Z.mod_add _ 1), Z.mod_small by lia. lia. }
    rewrite Z.lor_comm, (lor_disjoint _ _ k) by
      (try lia; rewrite Hk; replace (2 ^ k * 2 ^ (32 - k) - 2 ^ k) with ((2 ^ (32 - k) - 1) * 2 ^ k) by lia;
       apply Z.mod_mul; lia).
    unfold wrap_s. rewrite <- (Z.mod_add _ (-1)) by lia.
    assert (2 ^ (k - 1) <= num (true :: l)) as Htop.
    { rewrite num_cons. pose proof (num_range l). cbn [Z.b2z].
      replace (Z.of_nat (length l)) with (k - 1) in * by (unfold k; cbn [length]; lia). lia. }
    assert (2 ^ k <= 2 ^ (32 - 1)) by (apply Z.pow_le_mono_r; lia).
    change (2 ^ 32) with (2 * 2 ^ (32 - 1)) in *.
    rewrite Z.mod_small; lia.
  - rewrite andb_false_r, Z.sub_0_r. do 2 f_equal. apply wrap_s_id; [lia|].
    rewrite num_cons in Hr |- *. cbn [Z.b2z] in *. pose proof (num_range l) as Hl'.
    assert (2 ^ Z.of_nat (length l) <= 2 ^ (32 - 1)) by (apply Z.pow_le_mono_r; cbn [length] in Hl; lia).
    lia.
Qed.

Lemma unpack_unsigned_spec bs pos b n :
  reads bs pos b -> (pos + n <= length bs)%nat -> (n <= 32)%nat ->
  speex_bits_unpack_unsigned (Z.of_nat n) b = Ok (num (take n (drop pos bs)), at_bit (pos + n) b).
Proof.
  intros Hr Hin Hn. unfold speex_bits_unpack_unsigned. rewrite (reads_past_end bs pos b _ Hr).
  rewrite (proj2 (Z.ltb_ge (Z.of_nat (length bs)) (Z.of_nat pos + Z.of_nat n))),
    (proj2 (Z.ltb_ge (Z.of_nat n) 0)) by lia.
  by rewrite Nat2Z.id, (reads_unpack bs pos b n Hr Hin Hn), bind_Ok.
Qed.

(** What every reader gives in a stream with the cursor before bit [pos]. *)
Definition readers_agree (bs : list bool) (pos n : nat) (b : SpeexBits) : Prop :=
  let l := take n (drop pos bs) in
  if decide (pos + n <= length bs)%nat then
    let b' := at_bit (pos + n) b in
    reads bs (pos + n) b' /\
    speex_bits_unpack_unsigned (Z.of_nat n) b = Ok (num l, b') /\
    speex_bits_peek_unsigned (Z.of_nat n) b = Ok (num l, b) /\
    speex_bits_advance (Z.of_nat n) b = b' /\
    speex_bits_unpack_signed (Z.of_nat n) b =
      (if (n =? 0)%nat || (n =? 32)%nat && bool_decide (head l = Some true)
       then Err BadShift else Ok (signed l, b'))
  else
    let b' := with_overflow true b in
    speex_bits_unpack_unsigned (Z.of_nat n) b = Ok (0, b') /\
    speex_bits_peek_unsigned (Z.of_nat n) b = Ok (0, b') /\
    speex_bits_advance (Z.of_nat n) b = b' /\
    speex_bits_unpack_signed (Z.of_nat n) b = Ok (0, b') /\
    speex_bits_remaining b' = -1 /\
    forall k, speex_bits_unpack_unsigned k b' = Ok (0, b').

Lemma speex_bits_peek_spec bs pos b x :
  reads bs pos b -> bs !! pos = Some x -> speex_bits_peek b = Ok (Z.b2z x, b).
Proof.
  intros Hr Hx. pose proof (lookup_lt_Some _ _ _ Hx). unfold speex_bits_peek.
  rewrite (reads_past_end bs pos b 1 Hr), (proj2 (Z.ltb_ge _ _)) by lia.
  destruct Hr as (bytes & rest & Hch & _ & Hbs & _ & _ & Hcp & Hbp & _).
  rewrite Hch, Hcp, Hbp, (bit_at_lookup bytes rest pos x); [done|].
  rewrite Hbs in Hx. by apply lookup_take_Some in Hx as [? _].
Qed.

(** In a stream that is read, every reader delivers the next bits as a
    number, unsigned or signed, and moves the cursor over them or leaves it;
    what would pass the end gives 0 and sets the overflow flag, for good.
    Signed reads of no bits, and of 32 bits with the sign set, shift by an
    illegal amount. *)
Theorem speex_readers bs pos n b :
  reads bs pos b -> (n <= 32)%nat ->
  readers_agree bs pos n b /\
  speex_bits_remaining b = Z.of_nat (length bs) - Z.of_nat pos.
Proof.
  intros Hr Hn. pose proof (reads_past_end bs pos b (Z.of_nat n) Hr) as Hpast. split.
  2: { destruct Hr as (bytes & rest & _ & _ & _ & Hnb & Hpos & Hcp & Hbp & Hov).
       unfold speex_bits_remaining, bits_in, LOG2_BITS_PER_CHAR. rewrite Hov, Hnb, Hcp, Hbp.
       rewrite Z.shiftl_mul_pow2 by lia. pose proof (Nat.div_mod pos 8 ltac:(lia)). lia. }
  unfold readers_agree, speex_bits_unpack_signed, speex_bits_peek_unsigned, speex_bits_advance,
    speex_bits_unpack_unsigned.
  rewrite Hpast. case_decide as Hin.
  - rewrite (proj2 (Z.ltb_ge (Z.of_nat (length bs)) (Z.of_nat pos + Z.of_nat n))),
      (proj2 (Z.ltb_ge (Z.of_nat n) 0)) by lia.
    rewrite Nat2Z.id, (reads_unpack bs pos b n Hr Hin Hn), !bind_Ok.
    split_and!; [by apply (reads_at_bit bs pos)|done|done| |].
    + destruct Hr as (bytes & rest & _ & _ & _ & _ & _ & Hcp & Hbp & _). unfold at_bit, chars_of, LOG2_BITS_PER_CHAR.
      rewrite Hcp, Hbp, Z.shiftr_div_pow2 by lia.
      change (BITS_PER_CHAR - 1) with (Z.ones 3). rewrite Z.land_ones by lia. change (2 ^ 3) with 8.
      pose proof (Nat.div_mod pos 8 ltac:(lia)). pose proof (Nat.mod_upper_bound pos 8 ltac:(lia)).
      pose proof (Nat.div_mod (pos + n) 8 ltac:(lia)).
      pose proof (Nat.mod_upper_bound (pos + n) 8 ltac:(lia)).
      f_equal; Z.to_euclidean_division_equations; lia.
    + set (l := take n (drop pos bs)).
      assert (length l = n) as Hl by (unfold l; rewrite length_take, length_drop; lia).
      unfold shr_u32. destruct n as [|n]; [done|].
      rewrite (proj2 (Z.leb_le 0 (Z.of_nat (S n) - 1))), (proj2 (Z.ltb_lt (Z.of_nat (S n) - 1) 32)) by lia.
      cbn [andb].
      rewrite bind_Ok.
      rewrite <- Hl. rewrite num_top by lia. rewrite sign_extend by lia.
      by destruct (length l) as [|k] eqn:E; [lia|].
  - rewrite (proj2 (Z.ltb_lt (Z.of_nat (length bs)) (Z.of_nat pos + Z.of_nat n))) by lia.
    rewrite bind_Ok. unfold shr_u32. split_and!; try done.
    assert (0 < n)%nat as H0 by (destruct Hr as (? & ? & _ & _ & _ & _ & Hpos & _); lia).
    rewrite (proj2 (Z.leb_le 0 (Z.of_nat n - 1))), (proj2 (Z.ltb_lt (Z.of_nat n - 1) 32)) by lia.
    cbn [andb]. by rewrite Z.shiftr_0_l, bind_Ok.
Qed.

(** ** From one end to the other *)

(** Fields packed in order, and unpacked with the same widths. *)
Fixpoint pack_all (can_alloc : Z -> bool) (fields : list (Z * Z)) (b : SpeexBits) : res SpeexBits :=
  match fields with
  | [] => Ok b
  | (d, n) :: fields => b ← speex_bits_pack can_alloc d n b; pack_all can_alloc fields b
  end.

Fixpoint unpack_all (widths : list Z) (b : SpeexBits) : res (list Z * SpeexBits) :=
  match widths with
  | [] => Ok ([], b)
  | n :: widths =>
      '(d, b) ← speex_bits_unpack_unsigned n b;
      '(l, b) ← unpack_all widths b;
      Ok (d :: l, b)
  end.

Definition field_bits (f : Z * Z) : list bool := bits_of (Z.to_nat f.2) f.1.
Definition width_ok (f : Z * Z) : Prop := 0 <= f.2 <= 32.
Definition total (fields : list (Z * Z)) : Z := foldr (fun f s => f.2 + s) 0 fields.

Lemma total_length fields :
  Forall width_ok fields -> total fields = Z.of_nat (length (flat_map field_bits fields)).
Proof.
  induction 1 as [|f fields Hn _ IH]; [done|]. unfold width_ok in Hn.
  cbn [flat_map]. rewrite length_app, Nat2Z.inj_add, <- IH. unfold field_bits.
  rewrite bits_of_length, Z2Nat.id by lia. done.
Qed.

Lemma pack_all_spec can_alloc fields bs b k :
  writes bs b -> Forall width_ok fields -> 0 <= k -> ample can_alloc (total fields + k) b ->
  exists b', pack_all can_alloc fields b = Ok b' /\
    writes (bs ++ flat_map field_bits fields) b' /\ ample can_alloc k b'.
Proof.
  intros Hw Hf Hk. revert bs b Hw. induction Hf as [|[d n] fields Hn Hf IH]; intros bs b Hw Ha.
  { exists b. by rewrite app_nil_r. }
  pose proof (total_length fields Hf) as Ht.
  cbn [pack_all flat_map]. unfold width_ok in Hn. cbn [snd] in Hn.
  destruct (pack_ample can_alloc bs b d n (total ((d, n) :: fields) + k) Hw) as (b1 & -> & Hw1 & Ha1);
    [done|change (total ((d, n) :: fields)) with (n + total fields); lia|done|].
  rewrite bind_Ok. change (total ((d, n) :: fields)) with (n + total fields) in Ha1. destruct (IH _ b1 Hw1) as (b2 & E2 & Hw2 & Ha2).
  - by replace (total fields + k) with (n + total fields + k - n) by lia.
  - exists b2. rewrite <- app_assoc in Hw2. by split_and!.
Qed.

Lemma unpack_all_spec fields bs pos b :
  reads bs pos b -> Forall width_ok fields ->
  (exists rest, drop pos bs = flat_map field_bits fields ++ rest) ->
  exists b', unpack_all (snd <$> fields) b = Ok ((fun f => f.1 mod 2 ^ f.2) <$> fields, b').
Proof.
  intros Hr Hf. revert pos b Hr. induction Hf as [|[d n] fields Hn Hf IH]; intros pos b Hr [rest Hd].
  { by exists b. }
  unfold width_ok in Hn. cbn [snd] in Hn. cbn [flat_map] in Hd.
  assert (length (field_bits (d, n)) = Z.to_nat n) as Hl by apply bits_of_length.
  assert (pos + Z.to_nat n <= length bs)%nat as Hin.
  { apply (f_equal length) in Hd. rewrite length_drop, !length_app, Hl in Hd.
    destruct Hr as (? & ? & _ & _ & _ & _ & Hpos & _). lia. }
  cbn [fmap list_fmap unpack_all snd fst]. change (list_fmap _ _ snd fields) with (snd <$> fields).
  pose proof (unpack_unsigned_spec bs pos b (Z.to_nat n) Hr Hin ltac:(lia)) as E.
  rewrite Z2Nat.id in E by lia. rewrite E, bind_Ok.
  destruct (IH (pos + Z.to_nat n)%nat (at_bit (pos + Z.to_nat n) b)) as [b' E'].
  - by apply (reads_at_bit bs pos).
  - exists rest. by rewrite <- drop_drop, Hd, <- app_assoc, drop_app_length'.
  - exists b'. rewrite E', bind_Ok. do 3 f_equal.
    rewrite Hd, <- app_assoc, take_app_length' by done. unfold field_bits. cbn [fst snd].
    by rewrite num_bits_of, Z2Nat.id by lia.
Qed.

(** ** Whole bytes *)

(** A stream of whole bytes, as the bytes it holds. *)
Lemma reads_whole bs pos b m :
  reads bs pos b -> length bs = (8 * m)%nat ->
  exists bytes rest, chars b = (Some <$> bytes) ++ rest /\ Forall byte bytes /\
    bs = bits_of_chars bytes /\ length bytes = m.
Proof.
  intros (bytes & rest & Hch & Hb & Hbs & _) Hm.
  assert (m <= length bytes)%nat as Hle.
  { apply (f_equal length) in Hbs. rewrite length_take, bits_of_chars_length in Hbs. lia. }
  exists (take m bytes), ((Some <$> drop m bytes) ++ rest). split_and!.
  - by rewrite app_assoc, <- fmap_app, take_drop.
  - by apply Forall_take.
  - rewrite Hbs, Hm. rewrite <- (take_drop m bytes) at 1. rewrite bits_of_chars_app.
    apply take_app_length'. rewrite bits_of_chars_length, length_take. lia.
  - rewrite length_take. lia.
Qed.

Lemma whole_chars_needed b m : nbBits b = Z.of_nat (8 * m) -> chars_needed b = Z.of_nat m.
Proof.
  intros Hnb. unfold chars_needed, chars_of, LOG2_BITS_PER_CHAR, BITS_PER_CHAR.
  rewrite Hnb, Z.shiftr_div_pow2 by lia. change (2 ^ 3) with 8.
  symmetry. apply (Z.div_unique _ _ _ 7); lia.
Qed.

(** The bytes from the cursor on move to the front. *)
Lemma speex_bits_flush_spec (bytes : list Z) rest q b :
  chars b = (Some <$> bytes) ++ rest -> nbBits b = Z.of_nat (8 * length bytes) ->
  charPtr b = Z.of_nat q -> (q <= length bytes)%nat ->
  speex_bits_flush b =
    Ok (with_cursor (Z.of_nat (8 * (length bytes - q))) 0 (bitPtr b)
          (with_chars ((Some <$> drop q bytes) ++ drop (length bytes - q) (chars b)) b)).
Proof.
  intros Hch Hnb Hcp Hq. pose proof (whole_chars_needed b (length bytes) Hnb) as Hneed.
  assert (length bytes <= length (chars b))%nat as Hl by (rewrite Hch, length_app, length_fmap; lia).
  set (m := length bytes) in *. unfold speex_bits_flush, bits_in, LOG2_BITS_PER_CHAR.
  rewrite Hneed, Hcp, Hnb, Z.shiftl_mul_pow2 by lia. change (2 ^ 3) with 8.
  replace (Z.of_nat (8 * m) - Z.of_nat q * 8) with (Z.of_nat (8 * (m - q))) by lia.
  destruct (Z.ltb_spec 0 (Z.of_nat q)) as [Hq0|Hq0].
  - rewrite (proj2 (Z.ltb_ge (Z.of_nat m - Z.of_nat q) 0)),
      (proj2 (Z.ltb_ge (Z.of_nat (length (chars b))) (Z.of_nat m))) by lia.
    cbn [orb]. rewrite bind_Ok. do 3 f_equal. rewrite Nat2Z.id.
    replace (Z.to_nat (Z.of_nat m - Z.of_nat q)) with (m - q)%nat by lia. f_equal.
    rewrite Hch, skipn_app, length_fmap, <- fmap_drop.
    apply take_app_length'. rewrite length_fmap, length_drop. lia.
  - rewrite bind_Ok. assert (q = O) as -> by lia. rewrite drop_0, Nat.sub_0_r. do 3 f_equal.
    rewrite Hch. f_equal. rewrite drop_app_length'; [done|by rewrite length_fmap].
Qed.

(** [speex_bits_read_whole_bytes] drops the bytes before the cursor and appends
    the bytes of the caller, when there is room for both. *)
Theorem read_whole_bytes_appends can_alloc bs pos b m (src : list Z) :
  reads bs pos b -> length bs = (8 * m)%nat -> Forall byte src ->
  Z.of_nat (length (chars b)) = buf_size b -> Z.of_nat m + Z.of_nat (length src) <= buf_size b ->
  exists b', speex_bits_read_whole_bytes can_alloc src (Z.of_nat (length src)) b = Ok b' /\
    reads (drop (8 * (pos / 8)) bs ++ bits_of_chars src) (pos mod 8) b'.
Proof.
  intros Hr Hm Hsrc Hlen Hfit. destruct (reads_whole bs pos b m Hr Hm) as (bytes & rest & Hch & Hb & -> & <-).
  destruct Hr as (_ & _ & _ & _ & _ & Hnb & Hpos & Hcp & Hbp & Hov). clear Hm.
  rewrite bits_of_chars_length in Hnb, Hpos. set (q := (pos / 8)%nat) in *. set (m := length bytes) in *.
  pose proof (Nat.div_mod pos 8 ltac:(lia)) as Hdiv. fold q in Hdiv.
  pose proof (Nat.mod_upper_bound pos 8 ltac:(lia)) as Hmod.
  pose proof (whole_chars_needed b m Hnb) as Hneed.
  unfold speex_bits_read_whole_bytes, BYTES_PER_CHAR. rewrite Z.quot_1_r, Hneed.
  rewrite (proj2 (Z.ltb_ge (buf_size b) (Z.of_nat m + Z.of_nat (length src)))) by lia.
  rewrite (speex_bits_flush_spec bytes rest q b Hch Hnb Hcp ltac:(fold m; lia)). fold m.
  set (kept := (Some <$> drop q bytes) ++ drop (m - q) (chars b)).
  rewrite bind_Ok. cbn [nbBits chars charPtr bitPtr with_cursor with_chars].
  assert (length kept = length (chars b)) as Hkept.
  { unfold kept. rewrite length_app, length_fmap, !length_drop. fold m. lia. }
  assert (chars_of (Z.of_nat (8 * (m - q))) = Z.of_nat (m - q)) as ->.
  { unfold chars_of, LOG2_BITS_PER_CHAR. rewrite Z.shiftr_div_pow2 by lia. change (2 ^ 3) with 8.
    symmetry. apply (Z.div_unique _ _ _ 0); lia. }
  rewrite (copy_in_spec (Z.to_nat (Z.of_nat (length src))) 0 _ src kept) by (done || lia).
  rewrite bind_Ok, !Nat2Z.id, Nat.add_0_r, drop_0, firstn_all.
  eexists. split; [reflexivity|].
  exists (drop q bytes ++ src), (drop (m - q + length src) kept).
  cbn [nbBits chars charPtr bitPtr overflow with_cursor with_chars].
  assert (drop (8 * q) (bits_of_chars bytes) = bits_of_chars (drop q bytes)) as ->.
  { rewrite <- (take_drop q bytes) at 1. rewrite bits_of_chars_app. apply drop_app_length'.
    rewrite bits_of_chars_length, length_take. fold m. lia. }
  rewrite <- bits_of_chars_app, bits_of_chars_length, length_app, length_drop. fold m.
  split_and!; [|apply Forall_app_2; [by apply Forall_drop|done]| | |lia|..|done].
  - rewrite app_assoc. f_equal. rewrite fmap_app. f_equal. unfold kept.
    apply take_app_length'. rewrite length_fmap, length_drop. fold m. lia.
  - symmetry. apply take_ge. rewrite bits_of_chars_length, length_app, length_drop. fold m. lia.
  - unfold bits_in, LOG2_BITS_PER_CHAR. rewrite Z.shiftl_mul_pow2 by lia. lia.
  - by rewrite Nat.div_small.
  - rewrite Hbp. by rewrite Nat.Div0.mod_mod.
Qed.

(** [speex_bits_write_whole_bytes] hands out the whole bytes and keeps the bits
    behind them, when the caller has space for all of them. *)
Theorem write_whole_bytes_removes bs b max :
  writes bs b -> Z.of_nat (length bs) <= 8 * max + 7 ->
  exists out b', speex_bits_write_whole_bytes max b = Ok (Z.of_nat (length out), out, b') /\
    bs = bits_of_chars out ++ drop (8 * length out) bs /\
    length out = (length bs / 8)%nat /\ writes (drop (8 * length out) bs) b'.
Proof.
  intros (full & tail & rest & -> & Ht & Hb & Hch & Hlen & Hnb & Hcp & Hbp) Hmax.
  rewrite length_app, bits_of_chars_length in *. unfold speex_bits_write_whole_bytes, BYTES_PER_CHAR.
  assert (chars_of (nbBits b) = Z.of_nat (length full)) as ->.
  { unfold chars_of, LOG2_BITS_PER_CHAR. rewrite Hnb, Z.shiftr_div_pow2 by lia. change (2 ^ 3) with 8.
    symmetry. apply (Z.div_unique _ _ _ (Z.of_nat (length tail))); lia. }
  rewrite Z.quot_1_r, Z.min_r, Z.mul_1_r, Nat2Z.id by lia.
  set (cell := num tail * 2 ^ (8 - Z.of_nat (length tail))) in *.
  pose proof (copy_out_prefix [] full (Some cell :: rest)) as Hcopy.
  change (copy_out (length full) 0 ((Some <$> full) ++ Some cell :: rest) = Ok full) in Hcopy.
  rewrite Hch, Hcopy, bind_Ok, Hbp.
  replace (if 0 <? Z.of_nat (length tail) then get_char (Z.of_nat (length full)) _ else Ok 0) with (Ok cell).
  2: { destruct tail as [|x tail]; [done|]. cbn [length Z.of_nat Z.ltb Z.compare].
       by rewrite get_char_middle by (by rewrite length_fmap). }
  rewrite bind_Ok.
  assert (0 <= cell < 256) as Hcell.
  { pose proof (num_range tail). unfold cell.
    assert (256 = 2 ^ Z.of_nat (length tail) * 2 ^ (8 - Z.of_nat (length tail))) as ->.
    { rewrite <- Z.pow_add_r by lia. change 256 with (2 ^ 8). f_equal. lia. }
    assert (0 < 2 ^ (8 - Z.of_nat (length tail))) by (apply Z.pow_pos_nonneg; lia).
    nia. }
  rewrite set_char_insert by (rewrite length_app; cbn [length]; lia). rewrite bind_Ok.
  rewrite (wrap_u_id 8) by done. eexists full, _. split; [reflexivity|].
  rewrite drop_app_length' by (by rewrite bits_of_chars_length). split_and!; [done| |].
  { apply (Nat.div_unique _ _ _ (length tail)); lia. }
  rewrite Hch, length_app, length_fmap in Hlen. cbn [length] in Hlen.
  exists [], tail, (drop 1 ((Some <$> full) ++ Some cell :: rest)).
  cbn [chars nbBits charPtr bitPtr buf_size with_cursor with_chars].
  split_and!; try done.
  - by destruct full.
  - rewrite length_insert, length_app, length_fmap. cbn [length]. lia.
  - rewrite Hnb. change (BITS_PER_CHAR - 1) with (Z.ones 3). rewrite Z.land_ones by lia. change (2 ^ 3) with 8.
    symmetry. apply (Z.mod_unique _ _ (Z.of_nat (length full))); lia.
Qed.

(** C23.  What is packed comes back: fields of up to 32 bits packed in any
    stream that has or can get the room, written out with enough space for
    them and read into another stream, are unpacked to the low bits of the
    packed numbers, in order.  The bytes are the bits of the fields, high bits
    first, with a zero and ones up to the byte boundary. *)
Theorem speex_bits_roundtrip can_alloc can_alloc' fields b max b' :
  writes [] b -> Forall width_ok fields -> ample can_alloc (total fields + 8) b ->
  total fields + 7 <= 8 * max ->
  Z.of_nat (length (chars b')) = buf_size b' -> max <= buf_size b' ->
  exists b1 b2 out b3 b4,
    pack_all can_alloc fields b = Ok b1 /\
    speex_bits_write can_alloc max b1 = Ok (Z.of_nat (length out), out, b2) /\
    speex_bits_read_from can_alloc' out (Z.of_nat (length out)) b' = Ok b3 /\
    unpack_all (snd <$> fields) b3 = Ok ((fun f => f.1 mod 2 ^ f.2) <$> fields, b4) /\
    let bits := flat_map field_bits fields in
    bits_of_chars out = bits ++ terminator (length bits).
Proof.
  intros Hw Hf Ha Hmax Hlen Hsize.
  destruct (pack_all_spec can_alloc fields [] b 8 Hw Hf ltac:(lia) Ha) as (b1 & E1 & Hw1 & Ha1).
  cbn [app] in Hw1. set (bits := flat_map field_bits fields) in *.
  pose proof (total_length fields Hf) as Hl. fold bits in Hl.
  destruct (speex_bits_write_spec can_alloc bits b1 max Hw1 Ha1 ltac:(lia))
    as (out & b2 & E2 & Hout & Hbits & _).
  rewrite take_ge in Hbits by (rewrite length_app, terminator_length; unfold gap; lia).
  assert (Z.of_nat (length out) <= buf_size b') as Hfit.
  { apply (f_equal length) in Hbits.
    rewrite bits_of_chars_length, length_app, terminator_length in Hbits. pose proof (gap_range (length bits)).
    lia. }
  pose proof (speex_bits_read_from_spec can_alloc' out b' Hlen Hout) as (b3 & E3 & Hr3).
  rewrite (proj2 (Z.leb_le _ _) Hfit) in Hr3. cbn [orb] in Hr3.
  rewrite Nat2Z.id, firstn_all, Hbits in Hr3.
  destruct (unpack_all_spec fields _ 0 b3 Hr3 Hf) as [b4 E4]; [by eexists|].
  by exists b1, b2, out, b3, b4.
Qed.

(** ** Where the code does not do what it promises *)

(** In a buffer of the caller whose last character lacks one bit, the
    terminator is never complete: each round of its loop packs nothing. *)
Theorem insert_terminator_hangs can_alloc bs b :
  writes bs b -> owner b = false -> charPtr b + 1 = buf_size b -> bitPtr b = 7 ->
  speex_bits_pack can_alloc 1 1 b = Ok b /\
  (forall fuel, pack_ones can_alloc fuel b = Diverges) /\
  speex_bits_insert_terminator can_alloc b = Diverges.
Proof.
  intros Hw Ho Hc Hp.
  assert (forall d, speex_bits_pack can_alloc d 1 b = Ok b) as Hpack.
  { intros d. unfold speex_bits_pack, make_room. rewrite Hp, Ho.
    by rewrite (proj2 (Z.leb_le (buf_size b) (charPtr b + chars_of (1 + 7)))) by (change (chars_of (1 + 7)) with 1; lia). }
  assert (forall fuel, pack_ones can_alloc fuel b = Diverges) as Hones.
  { induction fuel as [|fuel IH]; cbn [pack_ones]; rewrite Hp; [done|].
    cbn [Z.eqb]. by rewrite Hpack, bind_Ok. }
  split_and!; [done..|]. unfold speex_bits_insert_terminator. rewrite Hp. cbn [Z.eqb].
  by rewrite Hpack, bind_Ok.
Qed.

Module Examples.

Definition heap (n : Z) : bool := true.

(** A buffer of [n] characters of the caller, after [speex_bits_init_buffer]. *)
Definition fresh (n : nat) : SpeexBits :=
  Bits (Some 0 :: replicate (n - 1) None) 0 0 0 false false (Z.of_nat n).

Lemma fresh_writes n : (0 < n)%nat -> writes [] (fresh n).
Proof.
  intros Hn. exists [], [], (replicate (n - 1) None). cbn [fresh chars nbBits charPtr bitPtr buf_size].
  split_and!; try done; [cbn; lia|]. cbn [length]. rewrite length_replicate. lia.
Qed.

(** [speex_bits_write] puts the cursors back but not the character: the
    terminator stays under the bits packed next. *)
Example write_leaves_terminator :
  (b1 ← speex_bits_pack heap 0 1 (fresh 10);
   '(_, _, b2) ← speex_bits_write heap 10 b1;
   b3 ← speex_bits_pack heap 0 3 b2;
   speex_bits_unpack_unsigned 4 (speex_bits_rewind b3))
  ≫= (fun r => Ok r.1) = Ok 3.
Proof. reflexivity. Qed.

(** [speex_bits_read_whole_bytes] takes the size of the buffer for the room
    behind the bytes that are there. *)
Example read_whole_bytes_overflows :
  (b1 ← speex_bits_read_from heap [1; 2] 2 (fresh 4);
   speex_bits_read_whole_bytes heap [3; 4; 5; 6] 4 b1) = Err OutOfBounds.
Proof. reflexivity. Qed.

Lemma speex_bits_roundtrip_witness :
  (exists b1 b2 out b3 b4,
    pack_all heap [(5, 3); (0, 1); (1000, 10)] (fresh 4) = Ok b1 /\
    speex_bits_write heap 3 b1 = Ok (Z.of_nat (length out), out, b2) /\
    speex_bits_read_from heap out (Z.of_nat (length out)) (fresh 3) = Ok b3 /\
    unpack_all [3; 1; 10] b3 = Ok ([5; 0; 1000], b4) /\
    let bits := flat_map field_bits [(5, 3); (0, 1); (1000, 10)] in
    bits_of_chars out = bits ++ terminator (length bits)) /\
  flat_map field_bits [(5, 3); (0, 1)] = [true; false; true; false].
Proof.
  split; [|reflexivity].
  apply (speex_bits_roundtrip heap heap [(5, 3); (0, 1); (1000, 10)] (fresh 4) 3 (fresh 3)).
  - apply fresh_writes. lia.
  - by repeat constructor.
  - left. cbn. lia.
  - cbn. lia.
  - reflexivity.
  - cbn. lia.
Defined.

(** The two bytes 0xA5, 0x3C, read from bit 4. *)
Definition two_bytes : SpeexBits := Bits [Some 165; Some 60] 16 0 4 true false 2.

Lemma speex_readers_witness :
  reads (bits_of_chars [165; 60]) 4 two_bytes /\
  (readers_agree (bits_of_chars [165; 60]) 4 6 two_bytes /\
   speex_bits_remaining two_bytes = 16 - 4) /\
  num (take 6 (drop 4 (bits_of_chars [165; 60]))) = 20.
Proof.
  assert (reads (bits_of_chars [165; 60]) 4 two_bytes) as Hr.
  { exists [165; 60], []. split_and!; try done; [|cbn; lia]. by repeat constructor. }
  split; [exact Hr|]. split; [|reflexivity].
  exact (speex_readers (bits_of_chars [165; 60]) 4 6 two_bytes Hr ltac:(lia)).
Defined.

End Examples.
