(* ===== verification/EdifyParser.v ===== *)
(** * The parser of the script language

    [jni/adhoc-edify/edify/y.tab.c] and [yydefs.h]: the LALR automaton with its
    tables, the semantic actions of [parser.y] and the error recovery.  The three
    stacks move together and are one list of entries, the top first, above the
    bottom entry of state 0, whose value and location are never set.  [yylex] is the
    list of the tokens it returns, each with the globals as the call leaves them; at
    the end of the list it returns 0, with the globals as they are then.  [malloc]
    succeeds. *)

From stdpp Require Import base list strings.
From Stdlib Require Import ZArith Lia ZifyBool ZifyNat Ascii.
From S2P Require Import Prelude CString Edify.

Open Scope Z_scope.

(** ** The tables *)

Definition YYFINAL : Z := 13.
Definition YYLAST : Z := 129.
Definition YYNTOKENS : Z := 21.
Definition YYPACT_NINF : Z := -16.
Definition YYTABLE_NINF : Z := -18.
Definition YYEMPTY : Z := -2.
Definition YYEOF : Z := 0.
Definition YYTERROR : Z := 1.
Definition YYINITDEPTH : Z := 200.
Definition YYMAXDEPTH : Z := 10000.

(** [YYTRANSLATE[YYLEX]]: the symbol of a character or token code. *)
Definition yytranslate : list Z :=
  [0; 2; 2; 2; 2; 2; 2; 2; 2; 2; 2; 2; 2; 2; 2; 2; 2; 2; 2; 2; 2; 2; 2; 2; 2; 2; 2; 2; 2;
   2; 2; 2; 2; 18; 2; 2; 2; 2; 2; 2; 19; 20; 2; 17; 16; 2; 2; 2; 2; 2; 2; 2; 2; 2; 2; 2; 2;
   2; 2; 15; 2; 2; 2; 2; 2; 2; 2; 2; 2; 2; 2; 2; 2; 2; 2; 2; 2; 2; 2; 2; 2; 2; 2; 2; 2; 2;
   2; 2; 2; 2; 2; 2; 2; 2; 2; 2; 2; 2; 2; 2; 2; 2; 2; 2; 2; 2; 2; 2; 2; 2; 2; 2; 2; 2; 2;
   2; 2; 2; 2; 2; 2; 2; 2; 2; 2; 2; 2; 2; 2; 2; 2; 2; 2; 2; 2; 2; 2; 2; 2; 2; 2; 2; 2; 2;
   2; 2; 2; 2; 2; 2; 2; 2; 2; 2; 2; 2; 2; 2; 2; 2; 2; 2; 2; 2; 2; 2; 2; 2; 2; 2; 2; 2; 2;
   2; 2; 2; 2; 2; 2; 2; 2; 2; 2; 2; 2; 2; 2; 2; 2; 2; 2; 2; 2; 2; 2; 2; 2; 2; 2; 2; 2; 2;
   2; 2; 2; 2; 2; 2; 2; 2; 2; 2; 2; 2; 2; 2; 2; 2; 2; 2; 2; 2; 2; 2; 2; 2; 2; 2; 2; 2; 2;
   2; 2; 2; 2; 2; 2; 2; 2; 2; 2; 2; 2; 2; 2; 2; 2; 2; 2; 2; 2; 2; 2; 2; 2; 2; 1; 2; 3; 4;
   5; 6; 7; 8; 9; 10; 11; 12; 13; 14].

(** The symbol that a rule derives. *)
Definition yyr1 : list Z :=
  [0; 21; 22; 23; 23; 23; 23; 23; 23; 23; 23; 23; 23; 23; 23; 23; 23; 24; 24; 24].

(** The number of symbols of the right hand side of a rule. *)
Definition yyr2 : list Z :=
  [0; 2; 1; 1; 3; 2; 3; 3; 3; 3; 3; 3; 3; 2; 5; 7; 4; 0; 1; 3].

(** The rule to reduce with when nothing else is specified; 0 is an error. *)
Definition yydefact : list Z :=
  [0; 0; 0; 3; 0; 0; 0; 2; 0; 0; 0; 13; 0; 1; 0; 0; 0; 0; 0; 0; 7; 0; 18; 0; 4; 11; 12; 9;
   10; 6; 8; 0; 0; 16; 0; 14; 19; 0; 15].

Definition yydefgoto : list Z :=
  [-1; 6; 7; 23].

(** Where the portion of [yytable] for a state starts. *)
Definition yypact : list Z :=
  [46; -11; 46; -12; 46; 46; 11; 95; 46; 74; 9; -16; 53; -16; 46; 46; 46; 46; 33; 46; 110;
   46; 95; -15; -16; 112; 108; -8; -8; 110; -16; 68; 46; -16; 46; -16; 95; 89; -16].

Definition yypgoto : list Z :=
  [-16; -16; -2; -16].

(** What to do: shift if positive, reduce if negative. *)
Definition yytable : list Z :=
  [9; 32; 11; 12; 8; 33; 20; 10; 22; 19; 1; 13; 25; 26; 27; 28; 29; 30; 2; 31; 0; 0; 3; 0;
   0; -17; 0; 4; 5; -17; 36; 0; 37; -5; 1; 0; -5; -5; 0; 0; -5; -5; 2; -5; -5; -5; 3; 1;
   -5; -5; -5; 4; 5; -5; 0; 2; 14; 15; 0; 3; 16; 17; 0; 0; 4; 5; 0; 0; 18; 0; 19; 14; 15;
   24; 0; 16; 17; 14; 15; 34; 35; 16; 17; 18; 21; 19; 0; 0; 0; 18; 0; 19; 14; 15; 0; 0; 16;
   17; 14; 15; 0; 38; 16; 17; 18; 0; 19; 0; 0; 0; 18; 14; 19; 14; 15; 16; 17; 16; 17; 16;
   17; 0; 0; 0; 0; 19; 0; 19; 0; 19].

Definition yycheck : list Z :=
  [2; 16; 4; 5; 15; 20; 8; 19; 10; 17; 1; 0; 14; 15; 16; 17; 18; 19; 9; 21; -1; -1; 13; -1;
   -1; 16; -1; 18; 19; 20; 32; -1; 34; 0; 1; -1; 3; 4; -1; -1; 7; 8; 9; 10; 11; 12; 13; 1;
   15; 16; 17; 18; 19; 20; -1; 9; 3; 4; -1; 13; 7; 8; -1; -1; 18; 19; -1; -1; 15; -1; 17;
   3; 4; 20; -1; 7; 8; 3; 4; 11; 12; 7; 8; 15; 10; 17; -1; -1; -1; 15; -1; 17; 3; 4; -1;
   -1; 7; 8; 3; 4; -1; 12; 7; 8; 15; -1; 17; -1; -1; -1; 15; 3; 17; 3; 4; 7; 8; 7; 8; 7; 8;
   -1; -1; -1; -1; 17; -1; 17; -1; 17].

(** The accessing symbol of a state. *)
Definition yystos : list Z :=
  [0; 1; 9; 13; 18; 19; 22; 23; 15; 23; 19; 23; 23; 0; 3; 4; 7; 8; 15; 17; 23; 10; 23; 24;
   20; 23; 23; 23; 23; 23; 23; 23; 16; 20; 11; 12; 23; 23; 12].

Definition yytname : list string :=
  ["$end"; "error"; "$undefined"; "AND"; "OR"; "SUBSTR"; "SUPERSTR"; "EQ"; "NE"; "IF"; "THEN";
   "ELSE"; "ENDIF"; "STRING"; "BAD"; "';'"; "','"; "'+'"; "'!'"; "'('"; "')'"; "$accept"; "input";
   "expr"; "arglist"]%string.

(** [t[i]]. *)
Definition at_index {A} (t : list A) (i : Z) : res A :=
  if i <? 0 then Err OutOfBounds
  else match t !! Z.to_nat i with Some v => Ok v | None => Err OutOfBounds end.

(** [YYTRANSLATE]; the conversion to [unsigned int] sends negative codes beyond
    [YYMAXUTOK]. *)
Definition YYTRANSLATE (yychar : Z) : res Z :=
  if u32 yychar <=? 269 then at_index yytranslate (u32 yychar) else Ok 2.

(** *** Token codes *)

Definition AND : Z := 258.
Definition OR : Z := 259.
Definition EQ : Z := 262.
Definition NE : Z := 263.
Definition IF : Z := 264.
Definition THEN : Z := 265.
Definition ELSE : Z := 266.
Definition ENDIF : Z := 267.
Definition STRING : Z := 268.
Definition BAD : Z := 269.

(** *** Error messages *)

(** [yytnamerr]: the loop after an opening quote, [None] where quotes are not
    stripped. *)
Fixpoint strip_quotes (yyp : string) : res (option string) :=
  match yyp with
  | EmptyString => Err OutOfBounds
  | String c yyp =>
      if Ascii.eqb c "'" || Ascii.eqb c "," then Ok None
      else if Ascii.eqb c "\" then
        match yyp with
        | EmptyString => Ok None
        | String c' yyp =>
            if Ascii.eqb c' "\" then t ← strip_quotes yyp; Ok (option_map (String c') t) else Ok None
        end
      else if Ascii.eqb c "034" then Ok (Some EmptyString)
      else t ← strip_quotes yyp; Ok (option_map (String c) t)
  end.

(** The text [yytnamerr] copies; the value it returns is its length. *)
Definition yytnamerr (yystr : string) : res string :=
  match yystr with
  | String c yyp =>
      if Ascii.eqb c "034" then t ← strip_quotes yyp; Ok (default yystr t) else Ok yystr
  | EmptyString => Ok yystr
  end.

(** [yysyntax_error]: the loop over the expected tokens, with the names found so
    far, the format and the size; [None] where there are too many. *)
Fixpoint expected_loop (k : nat) (yyn yyx : Z) (yyarg : list string) (yyformat : string) (yysize : Z)
    : res (option (list string * string * Z)) :=
  match k with
  | O => Ok (Some (yyarg, yyformat, yysize))
  | S k =>
      c ← at_index yycheck (yyx + yyn);
      if (c =? yyx) && negb (yyx =? YYTERROR) then
        if (length yyarg =? 5)%nat then Ok None
        else
          name ← at_index yytname yyx;
          text ← yytnamerr name;
          expected_loop k yyn (yyx + 1) (yyarg ++ [name])
            (yyformat +:+ (if (length yyarg =? 1)%nat then ", expecting %s" else " or %s"))
            (yysize + strlen text)
      else expected_loop k yyn (yyx + 1) yyarg yyformat yysize
  end.

(** The copy of the format with each [%s] replaced. *)
Fixpoint fill_format (yyf : string) (yyarg : list string) : res string :=
  match yyf with
  | EmptyString => Ok EmptyString
  | String c yyf' =>
      match yyf', yyarg with
      | String c' yyf'', name :: yyarg =>
          if Ascii.eqb c "%" && Ascii.eqb c' "s" then
            text ← yytnamerr name; t ← fill_format yyf'' yyarg; Ok (text +:+ t)
          else t ← fill_format yyf' (name :: yyarg); Ok (String c t)
      | _, _ => t ← fill_format yyf' yyarg; Ok (String c t)
      end
  end.

(** [yysyntax_error] for the portion [yyn] of the table and a symbol: the size it
    returns and the text it stores. *)
Definition unexpected_message (yyn yytype : Z) : res (Z * string) :=
  name ← at_index yytname yytype;
  text ← yytnamerr name;
  let yysize0 := strlen text in
  let yyxbegin := if yyn <? 0 then - yyn else 0 in
  let yychecklim := YYLAST - yyn + 1 in
  let yyxend := if yychecklim <? YYNTOKENS then yychecklim else YYNTOKENS in
  let unexpected := "syntax error, unexpected %s"%string in
  found ← expected_loop (Z.to_nat (yyxend - yyxbegin)) yyn yyxbegin [name] unexpected yysize0;
  let '(yyarg, yyformat, yysize) := default ([name], unexpected, yysize0) found in
  message ← fill_format yyformat yyarg;
  Ok (yysize + strlen yyformat, message).

Definition yysyntax_error (yystate yychar : Z) : res (Z * string) :=
  yyn ← at_index yypact yystate;
  if negb ((YYPACT_NINF <? yyn) && (yyn <=? YYLAST)) then Ok (0, EmptyString)
  else yytype ← YYTRANSLATE yychar; unexpected_message yyn yytype.

(** ** The parser *)

(** [YYLTYPE]. *)
Record YYLTYPE := mkLoc { loc_start : Z; loc_end : Z }.

Section parser.
Context {F : Type}.

(** [YYSTYPE], with the member it was last given; [Unset] when it has none. *)
Inductive YYSTYPE :=
  | Str (s : string)
  | Tree (e : Expr F)
  | Args (argv : list (Expr F))
  | Unset.

(** What a call of [yylex] returns, and [yylval], [yylloc], [gLine] and [gColumn]
    after it; a token without a string leaves [yylval] alone. *)
Record token := mkToken {
  tk_char : Z;
  tk_str : option string;
  tk_loc : YYLTYPE;
  tk_line : Z;
  tk_column : Z
}.

(** One level of [yyss], [yyvs] and [yyls]. *)
Record entry := mkEntry { ss : Z; vs : YYSTYPE; ls : YYLTYPE }.

Record parser := mkParser {
  stack : list entry;
  yystacksize : Z;
  yychar : Z;
  yytoken : Z;
  yylval : YYSTYPE;
  yylloc : YYLTYPE;
  yyerrstatus : Z;
  root : option (Expr F);
  error_count : Z;
  printed : list string;
  gLine : Z;
  gColumn : Z;
  input : list token;
  at_end : YYLTYPE * Z * Z
}.

(** [*yyssp]. *)
Definition yystate (stack : list entry) : Z :=
  match stack with [] => 0 | e :: _ => ss e end.

Definition set_stack (s : list entry) (p : parser) : parser :=
  mkParser s (yystacksize p) (yychar p) (yytoken p) (yylval p) (yylloc p) (yyerrstatus p)
    (root p) (error_count p) (printed p) (gLine p) (gColumn p) (input p) (at_end p).
Definition set_stacksize (n : Z) (p : parser) : parser :=
  mkParser (stack p) n (yychar p) (yytoken p) (yylval p) (yylloc p) (yyerrstatus p)
    (root p) (error_count p) (printed p) (gLine p) (gColumn p) (input p) (at_end p).
Definition set_yychar (c : Z) (p : parser) : parser :=
  mkParser (stack p) (yystacksize p) c (yytoken p) (yylval p) (yylloc p) (yyerrstatus p)
    (root p) (error_count p) (printed p) (gLine p) (gColumn p) (input p) (at_end p).
Definition set_yytoken (t : Z) (p : parser) : parser :=
  mkParser (stack p) (yystacksize p) (yychar p) t (yylval p) (yylloc p) (yyerrstatus p)
    (root p) (error_count p) (printed p) (gLine p) (gColumn p) (input p) (at_end p).
Definition set_yyerrstatus (n : Z) (p : parser) : parser :=
  mkParser (stack p) (yystacksize p) (yychar p) (yytoken p) (yylval p) (yylloc p) n
    (root p) (error_count p) (printed p) (gLine p) (gColumn p) (input p) (at_end p).
Definition set_root (r : option (Expr F)) (p : parser) : parser :=
  mkParser (stack p) (yystacksize p) (yychar p) (yytoken p) (yylval p) (yylloc p) (yyerrstatus p)
    r (error_count p) (printed p) (gLine p) (gColumn p) (input p) (at_end p).

(** [yychar = YYLEX]. *)
Definition read_token (p : parser) : parser :=
  match input p with
  | [] =>
      let '(loc, line, column) := at_end p in
      mkParser (stack p) (yystacksize p) YYEOF (yytoken p) (yylval p) loc (yyerrstatus p)
        (root p) (error_count p) (printed p) line column [] (at_end p)
  | t :: rest =>
      mkParser (stack p) (yystacksize p) (tk_char t) (yytoken p)
        (match tk_str t with Some s => Str s | None => yylval p end) (tk_loc t)
        (yyerrstatus p) (root p) (error_count p) (printed p) (tk_line t) (tk_column t) rest (at_end p)
  end.

Definition yyerror (s : string) (p : parser) : parser :=
  let s := if strlen s =? 0 then "syntax error"%string else s in
  mkParser (stack p) (yystacksize p) (yychar p) (yytoken p) (yylval p) (yylloc p) (yyerrstatus p)
    (root p) (error_count p + 1)
    (printed p ++ ["line "%string +:+ dec (gLine p) +:+ " col " +:+ dec (gColumn p) +:+ ": " +:+ s +:+ str_lf])
    (gLine p) (gColumn p) (input p) (at_end p).

(** *** Semantic actions *)

(** The operators are built-in functions; [FindFunction] searches the table. *)
Context (builtin : Builtin -> F) (functions : registry F).

Definition str_of (v : YYSTYPE) : res string :=
  match v with Str s => Ok s | _ => Err UninitRead end.
Definition tree_of (v : YYSTYPE) : res (Expr F) :=
  match v with Tree e => Ok e | _ => Err UninitRead end.
Definition args_of (v : YYSTYPE) : res (list (Expr F)) :=
  match v with Args l => Ok l | _ => Err UninitRead end.

(** [$$->start = start; $$->end = end]. *)
Definition set_range (l : YYLTYPE) (e : Expr F) : Expr F :=
  let 'mkExpr fn name argv _ _ := e in mkExpr fn name argv (loc_start l) (loc_end l).

Definition operator (f : Builtin) (yyloc : YYLTYPE) (argv : list (Expr F)) : Expr F :=
  mkExpr (builtin f) "(operator)" argv (loc_start yyloc) (loc_end yyloc).

(** [yyvsp[(i) - (n)]], [yylsp[(i) - (n)]]: [rhs] is the right hand side in order. *)
Definition rhs_entry (rhs : list entry) (i : nat) : res entry :=
  match rhs !! (i - 1)%nat with Some e => Ok e | None => Err OutOfBounds end.
Definition rhs_str (rhs : list entry) (i : nat) : res string := e ← rhs_entry rhs i; str_of (vs e).
Definition rhs_tree (rhs : list entry) (i : nat) : res (Expr F) := e ← rhs_entry rhs i; tree_of (vs e).
Definition rhs_args (rhs : list entry) (i : nat) : res (list (Expr F)) := e ← rhs_entry rhs i; args_of (vs e).
Definition rhs_loc (rhs : list entry) (i : nat) : res YYLTYPE := e ← rhs_entry rhs i; Ok (ls e).

Definition binary_action (f : Builtin) (yyloc : YYLTYPE) (rhs : list entry) : res YYSTYPE :=
  a ← rhs_tree rhs 1; b ← rhs_tree rhs 3; Ok (Tree (operator f yyloc [a; b])).

(** [YYERROR] with the message of the action, or [$$]. *)
Inductive action_result :=
  | Value (v : YYSTYPE)
  | Accepted (r : Expr F) (v : YYSTYPE)
  | Raised (message : string).

(** The action of rule [yyn]; [yyval] is the default [$$ = $1]. *)
Definition yyaction (yyn : Z) (yyval : YYSTYPE) (yyloc : YYLTYPE) (rhs : list entry) : res action_result :=
  match yyn with
  | 2 => e ← rhs_tree rhs 1; Ok (Accepted e yyval)
  | 3 =>
      s ← rhs_str rhs 1;
      Ok (Value (Tree (mkExpr (builtin Fn_Literal) s [] (loc_start yyloc) (loc_end yyloc))))
  | 4 => e ← rhs_tree rhs 2; Ok (Value (Tree (set_range yyloc e)))
  | 5 => e ← rhs_tree rhs 1; l ← rhs_loc rhs 1; Ok (Value (Tree (set_range l e)))
  | 6 => Value <$> binary_action Fn_Sequence yyloc rhs
  | 7 => e ← rhs_tree rhs 3; Ok (Value (Tree (set_range yyloc e)))
  | 8 => Value <$> binary_action Fn_Concat yyloc rhs
  | 9 => Value <$> binary_action Fn_Equality yyloc rhs
  | 10 => Value <$> binary_action Fn_Inequality yyloc rhs
  | 11 => Value <$> binary_action Fn_LogicalAnd yyloc rhs
  | 12 => Value <$> binary_action Fn_LogicalOr yyloc rhs
  | 13 => a ← rhs_tree rhs 2; Ok (Value (Tree (operator Fn_LogicalNot yyloc [a])))
  | 14 =>
      a ← rhs_tree rhs 2; b ← rhs_tree rhs 4;
      Ok (Value (Tree (operator Fn_IfElse yyloc [a; b])))
  | 15 =>
      a ← rhs_tree rhs 2; b ← rhs_tree rhs 4; c ← rhs_tree rhs 6;
      Ok (Value (Tree (operator Fn_IfElse yyloc [a; b; c])))
  | 16 =>
      s ← rhs_str rhs 1;
      f ← FindFunction s functions;
      match f with
      | None => Ok (Raised (str_take 255 ("unknown function " +:+ String "034" s +:+ String "034" EmptyString)))
      | Some f =>
          argv ← rhs_args rhs 3;
          Ok (Value (Tree (mkExpr f s argv (loc_start yyloc) (loc_end yyloc))))
      end
  | 17 => Ok (Value (Args []))
  | 18 => e ← rhs_tree rhs 1; Ok (Value (Args [e]))
  | 19 => l ← rhs_args rhs 1; e ← rhs_tree rhs 3; Ok (Value (Args (l ++ [e])))
  | _ => Ok (Value yyval)
  end.

(** *** The automaton

    A step goes from one entry of a state on the stack ([yynewstate]) to the next. *)

Inductive outcome :=
  | Running (p : parser)
  | Returned (yyresult : Z) (p : parser).

(** The loop of [yyerrlab1]: states are popped until one shifts the error token,
    [yyerror_start] is the start of the range of the error. *)
Fixpoint recover (stack : list entry) (yyerror_start : Z) : res (option (Z * list entry * Z)) :=
  let pop :=
    match stack with
    | [] => Ok None
    | e :: stack => recover stack (loc_start (ls e))
    end in
  yyn ← at_index yypact (yystate stack);
  if yyn =? YYPACT_NINF then pop
  else
    let yyn := yyn + YYTERROR in
    if (0 <=? yyn) && (yyn <=? YYLAST) then
      c ← at_index yycheck yyn;
      if c =? YYTERROR then
        yyn ← at_index yytable yyn;
        if 0 <? yyn then Ok (Some (yyn, stack, yyerror_start)) else pop
      else pop
    else pop.

(** A push moves the three stack pointers up and stores at the new level. *)
Definition push (e : entry) (below : list entry) (p : parser) : res outcome :=
  if Z.of_nat (length below) + 1 <? yystacksize p then Ok (Running (set_stack (e :: below) p))
  else Err OutOfBounds.

Definition yyerrlab1 (yyerror_start : Z) (p : parser) : res outcome :=
  let p := set_yyerrstatus 3 p in
  found ← recover (stack p) yyerror_start;
  match found with
  | None => Ok (Returned 1 (set_stack [] p))
  | Some (yyn, rest, yyerror_start) =>
      if yyn =? YYFINAL then Ok (Returned 0 (set_stack rest p))
      else
        let yyloc := mkLoc yyerror_start (loc_end (yylloc p)) in
        push (mkEntry yyn (yylval p) yyloc) rest p
  end.

Definition yyerrlab (p : parser) : res outcome :=
  p ← (if yyerrstatus p =? 0 then
         '(yysize, yymsg) ← yysyntax_error (yystate (stack p)) (yychar p);
         Ok (yyerror (if 0 <? yysize then yymsg else "syntax error") p)
       else Ok p);
  let yyerror_start := loc_start (yylloc p) in
  if yyerrstatus p =? 3 then
    if yychar p <=? YYEOF then
      if yychar p =? YYEOF then Ok (Returned 1 p) else yyerrlab1 yyerror_start p
    else yyerrlab1 yyerror_start (set_yychar YYEMPTY p)
  else yyerrlab1 yyerror_start p.

(** The state after a reduction to symbol [yyn], from the state uncovered. *)
Definition yygoto (yyn top : Z) : res Z :=
  base ← at_index yypgoto (yyn - YYNTOKENS);
  let yystate := base + top in
  if (0 <=? yystate) && (yystate <=? YYLAST) then
    c ← at_index yycheck yystate;
    if c =? top then at_index yytable yystate
    else at_index yydefgoto (yyn - YYNTOKENS)
  else at_index yydefgoto (yyn - YYNTOKENS).

(** The default value and location of a rule whose right hand side is [rhs]. *)
Definition default_value (rhs : list entry) : YYSTYPE :=
  match rhs with [] => Unset | e :: _ => vs e end.
Definition default_loc (stack rhs : list entry) : res YYLTYPE :=
  match rhs, last rhs with
  | first :: _, Some last => Ok (mkLoc (loc_start (ls first)) (loc_end (ls last)))
  | _, _ =>
      match stack with
      | e :: _ => Ok (mkLoc (loc_start (ls e)) (loc_end (ls e)))
      | [] => Err UninitRead
      end
  end.

Definition yyreduce (yyn : Z) (p : parser) : res outcome :=
  yylen ← at_index yyr2 yyn;
  let rhs := reverse (take (Z.to_nat yylen) (stack p)) in
  if Z.of_nat (length (stack p)) <? yylen then Err OutOfBounds
  else
    let popped := drop (Z.to_nat yylen) (stack p) in
    yyloc ← default_loc popped rhs;
    result ← yyaction yyn (default_value rhs) yyloc rhs;
    match result with
    | Raised message =>
        first ← rhs_loc rhs 1;
        yyerrlab1 (loc_start first) (set_stack popped (yyerror message p))
    | Value v =>
        lhs ← at_index yyr1 yyn;
        s ← yygoto lhs (yystate popped);
        push (mkEntry s v yyloc) popped p
    | Accepted r v =>
        lhs ← at_index yyr1 yyn;
        s ← yygoto lhs (yystate popped);
        push (mkEntry s v yyloc) popped (set_root (Some r) p)
    end.

Definition yydefault (p : parser) : res outcome :=
  yyn ← at_index yydefact (yystate (stack p));
  if yyn =? 0 then yyerrlab p else yyreduce yyn p.

(** The look-ahead token, read if there is none yet. *)
Definition yylookahead (p : parser) : res parser :=
  let p := if yychar p =? YYEMPTY then read_token p else p in
  if yychar p <=? YYEOF then Ok (set_yytoken YYEOF (set_yychar YYEOF p))
  else t ← YYTRANSLATE (yychar p); Ok (set_yytoken t p).

Definition yybackup (p : parser) : res outcome :=
  yyn ← at_index yypact (yystate (stack p));
  if yyn =? YYPACT_NINF then yydefault p
  else
    p ← yylookahead p;
    let yyn := yyn + yytoken p in
    if (yyn <? 0) || (YYLAST <? yyn) then yydefault p
    else
      c ← at_index yycheck yyn;
      if negb (c =? yytoken p) then yydefault p
      else
        yyn ← at_index yytable yyn;
        if yyn <=? 0 then
          if (yyn =? 0) || (yyn =? YYTABLE_NINF) then yyerrlab p else yyreduce (- yyn) p
        else if yyn =? YYFINAL then Ok (Returned 0 p)
        else
          let p := if yyerrstatus p =? 0 then p else set_yyerrstatus (yyerrstatus p - 1) p in
          let entry := mkEntry yyn (yylval p) (yylloc p) in
          let p := if yychar p =? YYEOF then p else set_yychar YYEMPTY p in
          push entry (stack p) p.

(** [yysetstate]: the stack is made to hold another entry first. *)
Definition yysetstate (p : parser) : res outcome :=
  if yystacksize p - 1 <=? Z.of_nat (length (stack p)) then
    if YYMAXDEPTH <=? yystacksize p then Ok (Returned 2 (yyerror "memory exhausted" p))
    else
      let p := set_stacksize (Z.min (yystacksize p * 2) YYMAXDEPTH) p in
      if yystacksize p - 1 <=? Z.of_nat (length (stack p)) then Ok (Returned 1 p)
      else yybackup p
  else yybackup p.

Fixpoint yyloop (fuel : nat) (p : parser) : res (Z * parser) :=
  match fuel with
  | O => Diverges
  | S fuel =>
      o ← yysetstate p;
      match o with
      | Running p => yyloop fuel p
      | Returned yyresult p => Ok (yyresult, p)
      end
  end.

(** [yyparse]: [yylval], [yylloc], [gLine] and [gColumn] are as the program starts. *)
Definition start_parser (yylex : list token) (at_end : YYLTYPE * Z * Z) (root : option (Expr F))
    (error_count : Z) : parser :=
  mkParser [] YYINITDEPTH YYEMPTY 0 Unset (mkLoc 0 0) 0 root error_count [] 1 1 yylex at_end.

Definition yyparse (yylex : list token) (at_end : YYLTYPE * Z * Z) (root : option (Expr F))
    (error_count : Z) : res (Z * parser) :=
  yyloop (6 * length yylex + 4) (start_parser yylex at_end root error_count).
End parser.
