(* ===== verification/EdifyLexer.v ===== *)
(** * The scanner of the script language

    [jni/adhoc-edify/edify/lex.yy.c], the scanner that [Android.mk] compiles, and the
    globals of [lexer.l] in it: the tables, the loop over the characters of a token,
    the handling of the end of the buffer and the actions of the rules.  The buffer is
    the one [yy_scan_bytes] makes, its characters and two NULs; positions count from
    its start.  The terminator that an action sees behind its text is put back before
    the next character is read, so the buffer does not change.  The counters of lines
    and columns do not overflow, as scripts have at most 128000 characters. *)

From stdpp Require Import base list strings.
From Stdlib Require Import ZArith Lia ZifyBool ZifyNat Ascii.
From S2P Require Import Prelude CString Edify EdifyParser.

Open Scope Z_scope.

(** ** The tables *)

(** The rule a state accepts, 0 for none. *)
Definition yy_accept : list Z :=
  [0; 0; 0; 0; 0; 24; 22; 20; 21; 19; 1; 22; 22; 19; 14; 22; 14; 14; 14; 22; 9; 8; 9; 2; 9;
   20; 18; 0; 21; 15; 14; 17; 14; 14; 10; 14; 16; 8; 5; 6; 3; 4; 0; 14; 14; 14; 0; 12; 14;
   11; 7; 13; 0].

(** The class of a character. *)
Definition yy_ec : list Z :=
  [0; 1; 1; 1; 1; 1; 1; 1; 1; 2; 3; 1; 1; 4; 1; 1; 1; 1; 1; 1; 1; 1; 1; 1; 1; 1; 1; 1; 1;
   1; 1; 1; 2; 5; 6; 7; 1; 1; 8; 1; 9; 9; 1; 9; 9; 1; 10; 10; 11; 11; 11; 11; 11; 11; 11;
   11; 11; 11; 10; 9; 1; 12; 1; 1; 1; 11; 11; 11; 11; 11; 11; 10; 10; 10; 10; 10; 10; 10;
   10; 10; 10; 10; 10; 10; 10; 10; 10; 10; 10; 10; 10; 1; 13; 1; 1; 10; 1; 11; 11; 11; 14;
   15; 16; 10; 17; 18; 10; 10; 19; 10; 20; 10; 10; 10; 10; 21; 22; 10; 10; 10; 23; 10; 10;
   1; 24; 1; 1; 1; 1; 1; 1; 1; 1; 1; 1; 1; 1; 1; 1; 1; 1; 1; 1; 1; 1; 1; 1; 1; 1; 1; 1; 1;
   1; 1; 1; 1; 1; 1; 1; 1; 1; 1; 1; 1; 1; 1; 1; 1; 1; 1; 1; 1; 1; 1; 1; 1; 1; 1; 1; 1; 1;
   1; 1; 1; 1; 1; 1; 1; 1; 1; 1; 1; 1; 1; 1; 1; 1; 1; 1; 1; 1; 1; 1; 1; 1; 1; 1; 1; 1; 1;
   1; 1; 1; 1; 1; 1; 1; 1; 1; 1; 1; 1; 1; 1; 1; 1; 1; 1; 1; 1; 1; 1; 1; 1; 1; 1; 1; 1; 1;
   1; 1; 1; 1; 1; 1; 1; 1; 1; 1; 1; 1; 1; 1; 1; 1; 1].

(** The class of a class in the templates. *)
Definition yy_meta : list Z :=
  [0; 1; 1; 1; 1; 1; 1; 1; 1; 1; 2; 3; 1; 1; 3; 3; 3; 2; 2; 2; 2; 2; 2; 2; 1].

(** Where the entries of a state start. *)
Definition yy_base : list Z :=
  [0; 0; 0; 22; 33; 57; 73; 54; 73; 43; 73; 50; 44; 73; 0; 39; 10; 34; 32; 24; 73; 73; 42;
   73; 41; 42; 73; 40; 73; 73; 0; 73; 21; 27; 0; 25; 73; 73; 73; 73; 73; 73; 0; 23; 16; 13;
   0; 0; 16; 0; 73; 0; 73; 64; 67; 69; 28; 24].

(** The state whose entries a state falls back to. *)
Definition yy_def : list Z :=
  [0; 52; 1; 53; 53; 52; 52; 52; 52; 52; 52; 54; 52; 52; 55; 52; 55; 55; 55; 52; 52; 52;
   52; 52; 52; 52; 52; 54; 52; 52; 55; 52; 55; 55; 55; 55; 52; 52; 52; 52; 52; 52; 56; 55;
   55; 55; 57; 55; 55; 55; 52; 55; 0; 52; 52; 52; 52; 52].

(** The next state. *)
Definition yy_nxt : list Z :=
  [0; 6; 7; 8; 6; 9; 10; 11; 12; 13; 14; 14; 15; 6; 14; 16; 14; 14; 17; 14; 14; 14; 18; 14;
   19; 21; 22; 50; 23; 32; 33; 46; 51; 49; 48; 24; 21; 22; 47; 23; 45; 44; 43; 28; 25; 37;
   24; 38; 36; 35; 34; 31; 29; 28; 39; 26; 25; 52; 52; 52; 52; 40; 52; 41; 42; 20; 20; 20;
   27; 27; 27; 30; 30; 5; 52; 52; 52; 52; 52; 52; 52; 52; 52; 52; 52; 52; 52; 52; 52; 52;
   52; 52; 52; 52; 52; 52; 52; 52].

(** The state an entry belongs to. *)
Definition yy_chk : list Z :=
  [0; 1; 1; 1; 1; 1; 1; 1; 1; 1; 1; 1; 1; 1; 1; 1; 1; 1; 1; 1; 1; 1; 1; 1; 1; 3; 3; 57; 3;
   16; 16; 56; 48; 45; 44; 3; 4; 4; 43; 4; 35; 33; 32; 27; 25; 22; 4; 24; 19; 18; 17; 15;
   12; 11; 24; 9; 7; 5; 0; 0; 0; 24; 0; 24; 24; 53; 53; 53; 54; 54; 54; 55; 55; 52; 52; 52;
   52; 52; 52; 52; 52; 52; 52; 52; 52; 52; 52; 52; 52; 52; 52; 52; 52; 52; 52; 52; 52; 52].

Definition YY_END_OF_BUFFER : Z := 24.

(** ** The state of the scanner *)

(** [BEGIN]: [yy_start] is one more than twice the start condition. *)
Definition INITIAL : Z := 0.
Definition STR : Z := 1.

(** The variables of the scanner and of [lexer.l].  [string_buffer] is what was stored
    in it so far, up to [string_pos]. *)
Record lexer := mkLexer {
  yy_ch_buf : list ascii;
  yy_n_chars : nat;
  yy_c_buf_p : nat;
  yy_start : Z;
  yy_last_accepting_state : Z;
  yy_last_accepting_cpos : nat;
  lx_line : Z;
  lx_column : Z;
  gPos : Z;
  string_buffer : list ascii;
  lx_loc : YYLTYPE
}.

Definition set_c_buf_p (n : nat) (lx : lexer) : lexer :=
  mkLexer (yy_ch_buf lx) (yy_n_chars lx) n (yy_start lx) (yy_last_accepting_state lx)
    (yy_last_accepting_cpos lx) (lx_line lx) (lx_column lx) (gPos lx) (string_buffer lx) (lx_loc lx).
Definition BEGIN (s : Z) (lx : lexer) : lexer :=
  mkLexer (yy_ch_buf lx) (yy_n_chars lx) (yy_c_buf_p lx) (1 + 2 * s) (yy_last_accepting_state lx)
    (yy_last_accepting_cpos lx) (lx_line lx) (lx_column lx) (gPos lx) (string_buffer lx) (lx_loc lx).
Definition set_last_accepting (state : Z) (cpos : nat) (lx : lexer) : lexer :=
  mkLexer (yy_ch_buf lx) (yy_n_chars lx) (yy_c_buf_p lx) (yy_start lx) state cpos
    (lx_line lx) (lx_column lx) (gPos lx) (string_buffer lx) (lx_loc lx).
Definition set_position (line column pos : Z) (lx : lexer) : lexer :=
  mkLexer (yy_ch_buf lx) (yy_n_chars lx) (yy_c_buf_p lx) (yy_start lx) (yy_last_accepting_state lx)
    (yy_last_accepting_cpos lx) line column pos (string_buffer lx) (lx_loc lx).
Definition set_string_buffer (s : list ascii) (lx : lexer) : lexer :=
  mkLexer (yy_ch_buf lx) (yy_n_chars lx) (yy_c_buf_p lx) (yy_start lx) (yy_last_accepting_state lx)
    (yy_last_accepting_cpos lx) (lx_line lx) (lx_column lx) (gPos lx) s (lx_loc lx).
Definition set_loc (l : YYLTYPE) (lx : lexer) : lexer :=
  mkLexer (yy_ch_buf lx) (yy_n_chars lx) (yy_c_buf_p lx) (yy_start lx) (yy_last_accepting_state lx)
    (yy_last_accepting_cpos lx) (lx_line lx) (lx_column lx) (gPos lx) (string_buffer lx) l.

(** ** Transitions *)

Definition char_code (c : ascii) : Z := Z.of_nat (nat_of_ascii c).

(** The inner loop of a transition; a chain of fallbacks visits each state once. *)
Fixpoint yy_next (fuel : nat) (yy_current_state yy_c : Z) : res Z :=
  match fuel with
  | O => Diverges
  | S fuel =>
      base ← at_index yy_base yy_current_state;
      chk ← at_index yy_chk (base + yy_c);
      if chk =? yy_current_state then at_index yy_nxt (base + yy_c)
      else
        yy_current_state ← at_index yy_def yy_current_state;
        if 53 <=? yy_current_state then
          yy_c ← at_index yy_meta yy_c; yy_next fuel yy_current_state yy_c
        else yy_next fuel yy_current_state yy_c
  end.

Definition transition (yy_current_state yy_c : Z) : res Z := yy_next 58 yy_current_state yy_c.

(** The state and the position are remembered where a rule has matched. *)
Definition note_accept (yy_current_state : Z) (yy_cp : nat) (lx : lexer) : res lexer :=
  a ← at_index yy_accept yy_current_state;
  Ok (if a =? 0 then lx else set_last_accepting yy_current_state yy_cp lx).

(** [yy_match]: [rest] is the buffer from [yy_cp] on. *)
Fixpoint yy_match (rest : list ascii) (yy_cp : nat) (yy_current_state : Z) (lx : lexer)
    : res (Z * nat * lexer) :=
  match rest with
  | [] => Err OutOfBounds
  | c :: rest =>
      yy_c ← at_index yy_ec (char_code c);
      lx ← note_accept yy_current_state yy_cp lx;
      yy_current_state ← transition yy_current_state yy_c;
      base ← at_index yy_base yy_current_state;
      if base =? 73 then Ok (yy_current_state, S yy_cp, lx)
      else yy_match rest (S yy_cp) yy_current_state lx
  end.

(** [yy_get_previous_state]: [text] is what lies between [yytext] and [yy_c_buf_p]. *)
Fixpoint previous_state_loop (text : list ascii) (yy_cp : nat) (yy_current_state : Z) (lx : lexer)
    : res (Z * lexer) :=
  match text with
  | [] => Ok (yy_current_state, lx)
  | c :: text =>
      yy_c ← (if char_code c =? 0 then Ok 1 else at_index yy_ec (char_code c));
      lx ← note_accept yy_current_state yy_cp lx;
      yy_current_state ← transition yy_current_state yy_c;
      previous_state_loop text (S yy_cp) yy_current_state lx
  end.

Definition yy_get_previous_state (yytext : nat) (lx : lexer) : res (Z * lexer) :=
  previous_state_loop (take (yy_c_buf_p lx - yytext) (drop yytext (yy_ch_buf lx))) yytext
    (yy_start lx) lx.

(** [yy_try_NUL_trans]: 0 is a jam. *)
Definition yy_try_NUL_trans (yy_current_state : Z) (lx : lexer) : res (Z * lexer) :=
  lx ← note_accept yy_current_state (yy_c_buf_p lx) lx;
  yy_current_state ← transition yy_current_state 1;
  Ok (if yy_current_state =? 52 then 0 else yy_current_state, lx).

(** ** One token

    The labels of [yylex] that the handling of the end of the buffer jumps back to. *)
Inductive label := L_yy_match | L_yy_find_action.

(** [yyterminate], or the rule whose action is to run on the text from [yytext] to
    [yy_c_buf_p]. *)
Inductive scanned :=
  | End_of_file (lx : lexer)
  | Matched (yy_act : Z) (yytext : nat) (lx : lexer).

(** [yy_get_next_buffer] where there is nothing to fill the buffer from: [true] for
    [EOB_ACT_END_OF_FILE], [false] for [EOB_ACT_LAST_MATCH]. *)
Definition yy_get_next_buffer (yytext : nat) (lx : lexer) : res bool :=
  if (yy_n_chars lx + 1 <? yy_c_buf_p lx)%nat then Err AssertFailed
  else Ok (yy_c_buf_p lx - yytext =? 1)%nat.

(** [yy_find_action]: the rule that matched, and the end of its text. *)
Definition yy_find_action (yy_current_state : Z) (yy_cp : nat) (lx : lexer) : res (Z * nat) :=
  yy_act ← at_index yy_accept yy_current_state;
  if yy_act =? 0 then
    yy_act ← at_index yy_accept (yy_last_accepting_state lx);
    Ok (yy_act, yy_last_accepting_cpos lx)
  else Ok (yy_act, yy_cp).

Fixpoint scan (fuel : nat) (l : label) (yytext yy_cp : nat) (yy_current_state : Z) (lx : lexer)
    : res scanned :=
  match fuel with
  | O => Diverges
  | S fuel =>
      '(yy_current_state, yy_cp, lx) ←
        match l with
        | L_yy_match => yy_match (drop yy_cp (yy_ch_buf lx)) yy_cp yy_current_state lx
        | L_yy_find_action => Ok (yy_current_state, yy_cp, lx)
        end;
      '(yy_act, yy_cp) ← yy_find_action yy_current_state yy_cp lx;
      let lx := set_c_buf_p yy_cp lx in
      if negb (yy_act =? YY_END_OF_BUFFER) then Ok (Matched yy_act yytext lx)
      else
        let yy_amount_of_matched_text := (yy_cp - yytext - 1)%nat in
        if (yy_c_buf_p lx <=? yy_n_chars lx)%nat then
          let lx := set_c_buf_p (yytext + yy_amount_of_matched_text) lx in
          '(yy_current_state, lx) ← yy_get_previous_state yytext lx;
          '(yy_next_state, lx) ← yy_try_NUL_trans yy_current_state lx;
          if negb (yy_next_state =? 0) then
            let lx := set_c_buf_p (S (yy_c_buf_p lx)) lx in
            scan fuel L_yy_match yytext (yy_c_buf_p lx) yy_next_state lx
          else scan fuel L_yy_find_action yytext (yy_c_buf_p lx) yy_current_state lx
        else
          at_end ← yy_get_next_buffer yytext lx;
          if (at_end : bool) then Ok (End_of_file (set_c_buf_p yytext lx))
          else
            let lx := set_c_buf_p (yy_n_chars lx) lx in
            '(yy_current_state, lx) ← yy_get_previous_state yytext lx;
            scan fuel L_yy_find_action yytext (yy_c_buf_p lx) yy_current_state lx
  end.

(** ** The actions *)

(** [ADVANCE]. *)
Definition ADVANCE (yytext : list ascii) (lx : lexer) : lexer :=
  let yyleng := Z.of_nat (length yytext) in
  let lx := set_loc (mkLoc (gPos lx) (gPos lx + yyleng)) lx in
  set_position (lx_line lx) (lx_column lx + yyleng) (gPos lx + yyleng) lx.

Definition MAX_STRING_LEN : nat := 1024.

(** [*string_pos++ = c]. *)
Definition put_char (c : ascii) (lx : lexer) : res lexer :=
  if (length (string_buffer lx) <? MAX_STRING_LEN)%nat then
    Ok (set_string_buffer (string_buffer lx ++ [c]) lx)
  else Err OutOfBounds.

(** [strdup]: the characters up to a NUL. *)
Fixpoint c_string (s : list ascii) : string :=
  match s with
  | [] => EmptyString
  | c :: s => if char_code c =? 0 then EmptyString else String c (c_string s)
  end.

(** The value of a hexadecimal digit. *)
Definition hex_digit (c : ascii) : Z :=
  let n := char_code c in
  if n <? 58 then n - 48 else if n <? 97 then n - 55 else n - 87.

(** [gColumn += yyleng; gPos += yyleng]. *)
Definition move_on (n : Z) (lx : lexer) : lexer :=
  set_position (lx_line lx) (lx_column lx + n) (gPos lx + n) lx.
(** [++gLine; ++gPos; gColumn = 1]. *)
Definition next_line (n : Z) (lx : lexer) : lexer :=
  set_position (lx_line lx + 1) 1 (gPos lx + n) lx.

Definition text_head (yytext : list ascii) : res ascii :=
  match yytext with c :: _ => Ok c | [] => Err OutOfBounds end.

(** What an action leaves: the scanner goes on, or [yylex] returns a token. *)
Inductive lexed :=
  | Continue (lx : lexer)
  | Return (t : token) (lx : lexer).

Definition return_token (c : Z) (s : option string) (lx : lexer) : lexed :=
  Return (mkToken c s (lx_loc lx) (lx_line lx) (lx_column lx)) lx.

(** The action of a rule on its text. *)
Definition do_action (yy_act : Z) (yytext : list ascii) (lx : lexer) : res lexed :=
  let yyleng := Z.of_nat (length yytext) in
  match yy_act with
  | 1 =>
      let lx := set_loc (mkLoc (gPos lx) (loc_end (lx_loc lx))) (set_string_buffer [] (BEGIN STR lx)) in
      Ok (Continue (move_on 1 lx))
  | 2 =>
      let lx := BEGIN INITIAL (move_on 1 lx) in
      if (length (string_buffer lx) <? MAX_STRING_LEN)%nat then
        let lx := set_loc (mkLoc (loc_start (lx_loc lx)) (gPos lx)) lx in
        Ok (return_token STRING (Some (c_string (string_buffer lx))) lx)
      else Err OutOfBounds
  | 3 => Continue <$> put_char "010" (move_on yyleng lx)
  | 4 => Continue <$> put_char "009" (move_on yyleng lx)
  | 5 => Continue <$> put_char "034" (move_on yyleng lx)
  | 6 => Continue <$> put_char "\" (move_on yyleng lx)
  | 7 =>
      match yytext with
      | [_; _; h; l] =>
          Continue <$> put_char (ascii_of_nat (Z.to_nat (16 * hex_digit h + hex_digit l))) (move_on yyleng lx)
      | _ => Err UninitRead
      end
  | 8 => c ← text_head yytext; Continue <$> put_char c (next_line 1 lx)
  | 9 => c ← text_head yytext; Continue <$> put_char c (move_on 1 lx)
  | 10 => Ok (return_token IF None (ADVANCE yytext lx))
  | 11 => Ok (return_token THEN None (ADVANCE yytext lx))
  | 12 => Ok (return_token ELSE None (ADVANCE yytext lx))
  | 13 => Ok (return_token ENDIF None (ADVANCE yytext lx))
  | 14 => Ok (return_token STRING (Some (c_string yytext)) (ADVANCE yytext lx))
  | 15 => Ok (return_token AND None (ADVANCE yytext lx))
  | 16 => Ok (return_token OR None (ADVANCE yytext lx))
  | 17 => Ok (return_token EQ None (ADVANCE yytext lx))
  | 18 => Ok (return_token NE None (ADVANCE yytext lx))
  | 19 => c ← text_head yytext; Ok (return_token (char_code c) None (ADVANCE yytext lx))
  | 20 => Ok (Continue (ADVANCE yytext lx))
  | 21 => Ok (Continue (next_line yyleng lx))
  | 22 => Ok (return_token BAD None lx)
  | 23 => Ok (Continue lx)
  | _ => Err AssertFailed
  end.

(** The text of a match. *)
Definition matched_text (yytext : nat) (lx : lexer) : list ascii :=
  take (yy_c_buf_p lx - yytext) (drop yytext (yy_ch_buf lx)).

(** [yylex]: [None] is the return of 0 at the end of the input. *)
Fixpoint yylex (fuel : nat) (lx : lexer) : res (option token * lexer) :=
  match fuel with
  | O => Diverges
  | S fuel =>
      let yytext := yy_c_buf_p lx in
      s ← scan (2 + length (yy_ch_buf lx)) L_yy_match yytext yytext (yy_start lx) lx;
      match s with
      | End_of_file lx => Ok (None, lx)
      | Matched yy_act yytext lx =>
          r ← do_action yy_act (matched_text yytext lx) lx;
          match r with
          | Continue lx => yylex fuel lx
          | Return t lx => Ok (Some t, lx)
          end
      end
  end.

(** ** Buffers *)

(** [yy_scan_bytes]: a new buffer, from its start; the rest of the scanner's state
    stays. *)
Definition yy_scan_bytes (bytes : list ascii) (lx : lexer) : lexer :=
  mkLexer (bytes ++ ["000"; "000"]%char) (length bytes) 0 (yy_start lx)
    (yy_last_accepting_state lx) (yy_last_accepting_cpos lx) (lx_line lx) (lx_column lx)
    (gPos lx) (string_buffer lx) (lx_loc lx).

Definition yy_scan_string (s : string) (lx : lexer) : lexer := yy_scan_bytes (String.list_ascii_of_string s) lx.

(** The scanner as the program starts. *)
Definition start_lexer : lexer := mkLexer [] 0 0 1 0 0 1 1 0 [] (mkLoc 0 0).

(** The calls of [yylex] up to the end of the input. *)
Fixpoint lex_loop (fuel : nat) (lx : lexer) : res (list token * lexer) :=
  match fuel with
  | O => Diverges
  | S fuel =>
      '(t, lx) ← yylex (2 + length (yy_ch_buf lx)) lx;
      match t with
      | None => Ok ([], lx)
      | Some t => '(toks, lx) ← lex_loop fuel lx; Ok (t :: toks, lx)
      end
  end.

Definition lex_all (lx : lexer) : res (list token * lexer) := lex_loop (2 + length (yy_ch_buf lx)) lx.
