(* ===== verification/EdifyRules.v ===== *)
(** * The rules of the scanner

    The patterns of the scanner as regular expressions with their derivatives: those of
    [lexer.l], and those that [lex.yy.c] was generated from, which lack the rule for a
    lone carriage return in a string.  [EdifyScan] proves that the tables of [lex.yy.c]
    choose between the latter as flex promises, the longest match, and the first rule of
    those that match it; [EdifyTokens] relates them to the former. *)

From stdpp Require Import base list strings.
From Stdlib Require Import ZArith Lia ZifyBool ZifyNat Ascii.
From S2P Require Import Prelude CString Edify EdifyParser EdifyLexer.

Open Scope Z_scope.

(** ** Regular expressions *)

(** A character, and the character classes of the rules. *)
Inductive atom := A_char (c : ascii) | A_word | A_hex | A_punct | A_blank | A_dot.

#[export] Instance atom_eq_dec : EqDecision atom.
Proof. solve_decision. Defined.

Definition between (lo hi c : ascii) : bool := (char_code lo <=? char_code c) && (char_code c <=? char_code hi).

Definition one_of (l : list ascii) (c : ascii) : bool := existsb (Ascii.eqb c) l.

(** [[a-zA-Z0-9_:/.]], [[0-9a-fA-F]], [[+(),!;]], [[ \t]] and the dot. *)
Definition in_atom (a : atom) (c : ascii) : bool :=
  match a with
  | A_char c' => Ascii.eqb c c'
  | A_word => between "a" "z" c || between "A" "Z" c || between "0" "9" c || one_of ["_"; ":"; "/"; "."]%char c
  | A_hex => between "0" "9" c || between "a" "f" c || between "A" "F" c
  | A_punct => one_of ["+"; "("; ")"; ","; "!"; ";"]%char c
  | A_blank => one_of [" "; "009"]%char c
  | A_dot => negb (Ascii.eqb c "010")
  end.

Inductive regex :=
  | R_empty | R_eps | R_atom (a : atom) | R_seq (r s : regex) | R_alt (r s : regex) | R_star (r : regex).

#[export] Instance regex_eq_dec : EqDecision regex.
Proof. solve_decision. Defined.

Inductive matches : regex -> list ascii -> Prop :=
  | matches_eps : matches R_eps []
  | matches_atom a c : in_atom a c = true -> matches (R_atom a) [c]
  | matches_seq r s u v : matches r u -> matches s v -> matches (R_seq r s) (u ++ v)
  | matches_left r s u : matches r u -> matches (R_alt r s) u
  | matches_right r s u : matches s u -> matches (R_alt r s) u
  | matches_nil r : matches (R_star r) []
  | matches_more r u v : matches r u -> matches (R_star r) v -> matches (R_star r) (u ++ v).

(** ** The rules *)

Definition word (s : string) : regex :=
  foldr (fun c r => R_seq (R_atom (A_char c)) r) R_eps (String.list_ascii_of_string s).
Definition plus (r : regex) : regex := R_seq r (R_star r).
Definition optional (r : regex) : regex := R_alt r R_eps.
Definition chr (c : ascii) : regex := R_atom (A_char c).

(** The patterns of [lexer.l], with the numbers that their order gives them. *)
Definition any_char : regex := R_alt (R_atom A_dot) (chr "010").

Definition lexer_INITIAL : list (Z * regex) :=
  [ (1, chr "034"); (11, word "if"); (12, word "then"); (13, word "else"); (14, word "endif");
    (15, plus (R_atom A_word)); (16, word "&&"); (17, word "||"); (18, word "=="); (19, word "!=");
    (20, R_atom A_punct); (21, plus (R_atom A_blank));
    (22, R_seq (optional (R_seq (chr "#") (R_star (R_atom A_dot)))) (chr "010"));
    (23, R_atom A_dot); (24, any_char) ]%char.

Definition lexer_STR : list (Z * regex) :=
  [ (2, chr "034"); (3, word "\n"); (4, word "\t"); (5, R_seq (chr "\") (chr "034")); (6, word "\\");
    (7, R_seq (word "\x") (R_seq (R_atom A_hex) (R_atom A_hex)));
    (8, R_seq (optional (chr "013")) (chr "010")); (9, chr "013"); (10, R_atom A_dot); (24, any_char) ]%char.

Definition lexer_rules (start : Z) : list (Z * regex) := if start =? 3 then lexer_STR else lexer_INITIAL.

(** The rules of [lex.yy.c], with the numbers of its actions. *)
Definition default_rule : Z * regex := (23, any_char).

Definition rules_INITIAL : list (Z * regex) :=
  [ (1, chr "034"); (10, word "if"); (11, word "then"); (12, word "else"); (13, word "endif");
    (14, plus (R_atom A_word)); (15, word "&&"); (16, word "||"); (17, word "=="); (18, word "!=");
    (19, R_atom A_punct); (20, plus (R_atom A_blank));
    (21, R_seq (optional (R_seq (chr "#") (R_star (R_atom A_dot)))) (chr "010"));
    (22, R_atom A_dot); default_rule ]%char.

Definition rules_STR : list (Z * regex) :=
  [ (2, chr "034"); (3, word "\n"); (4, word "\t"); (5, R_seq (chr "\") (chr "034")); (6, word "\\");
    (7, R_seq (word "\x") (R_seq (R_atom A_hex) (R_atom A_hex)));
    (8, R_seq (optional (chr "013")) (chr "010")); (9, R_atom A_dot); default_rule ]%char.

(** The rules that are active where [yy_start] is [start]. *)
Definition rules_of (start : Z) : list (Z * regex) := if start =? 3 then rules_STR else rules_INITIAL.

(** Rule [act] matches the first [len] characters of [w]; every other match is
    shorter, or as long and of a later rule. *)
Definition longest (rules : list (Z * regex)) (w : list ascii) (act : Z) (len : nat) : Prop :=
  (0 < len <= length w)%nat /\ (exists r, (act, r) ∈ rules /\ matches r (take len w)) /\
  forall act' r' len', (act', r') ∈ rules -> (len' <= length w)%nat -> matches r' (take len' w) ->
    (len' < len)%nat \/ len' = len /\ act <= act'.

(** ** Derivatives *)

Definition seq (r s : regex) : regex :=
  match r, s with
  | R_empty, _ | _, R_empty => R_empty
  | R_eps, _ => s
  | _, _ => R_seq r s
  end.
Definition alt (r s : regex) : regex :=
  match r, s with
  | R_empty, _ => s
  | _, R_empty => r
  | _, _ => R_alt r s
  end.

Fixpoint nullable (r : regex) : bool :=
  match r with
  | R_empty | R_atom _ => false
  | R_eps | R_star _ => true
  | R_seq r s => nullable r && nullable s
  | R_alt r s => nullable r || nullable s
  end.

Fixpoint deriv (c : ascii) (r : regex) : regex :=
  match r with
  | R_empty | R_eps => R_empty
  | R_atom a => if in_atom a c then R_eps else R_empty
  | R_seq r s => if nullable r then alt (seq (deriv c r) s) (deriv c s) else seq (deriv c r) s
  | R_alt r s => alt (deriv c r) (deriv c s)
  | R_star r => seq (deriv c r) (R_star r)
  end.

#[local] Hint Constructors matches : core.

Lemma matches_eps_inv w : matches R_eps w -> w = [].
Proof. by inversion 1. Qed.
Lemma matches_empty_inv w : ~ matches R_empty w.
Proof. by inversion 1. Qed.

Lemma matches_smart_seq r s w : matches (seq r s) w <-> matches (R_seq r s) w.
Proof.
  split; intros H.
  - destruct r, s; cbn in H; try (by apply matches_empty_inv in H); try done;
      match goal with H : matches ?s w |- matches (R_seq R_eps ?s) w => by apply (matches_seq R_eps s [] w) end.
  - inversion H as [| |r' s' u v Hu Hv| | | |]; subst.
    destruct r, s; cbn; try (by apply matches_empty_inv in Hu); try (by apply matches_empty_inv in Hv); try done;
      apply matches_eps_inv in Hu as ->; done.
Qed.

Lemma matches_smart_alt r s w : matches (alt r s) w <-> matches r w \/ matches s w.
Proof.
  assert (matches (R_alt r s) w <-> matches r w \/ matches s w) as Halt.
  { split; [by inversion 1; auto|by intros [H|H]; auto]. }
  destruct r, s; cbn; try done; split; intros H; auto; destruct H as [H|H]; auto; by apply matches_empty_inv in H.
Qed.

Lemma nullable_spec r : nullable r = true <-> matches r [].
Proof.
  induction r as [| |a|r IHr s IHs|r IHr s IHs|r IHr]; cbn.
  - split; [done|by inversion 1].
  - by split; auto.
  - split; [done|by inversion 1].
  - rewrite andb_true_iff, IHr, IHs. split.
    + intros [Hr Hs]. by apply (matches_seq r s [] []).
    + inversion 1 as [| |r' s' u v Hu Hv Hrs Huv| | | |]. apply app_eq_nil in Huv as [-> ->]. done.
  - rewrite orb_true_iff, IHr, IHs. split; [by intros [H|H]; auto|by inversion 1; auto].
  - by split; auto.
Qed.

Lemma deriv_seq r s c w :
  matches (R_seq r s) (c :: w) <->
  matches r [] /\ matches s (c :: w) \/ exists u v, w = u ++ v /\ matches r (c :: u) /\ matches s v.
Proof.
  split.
  - inversion 1 as [| |r' s' u v Hu Hv Hrs Huv| | | |]. destruct u as [|c' u]; cbn in Huv.
    + left. by subst.
    + right. injection Huv as <- <-. by exists u, v.
  - intros [[Hr Hs]|(u & v & -> & Hr & Hs)]; [by apply (matches_seq r s [] _)|].
    by apply (matches_seq r s (c :: u) v).
Qed.

Lemma deriv_star r c w :
  matches (R_star r) (c :: w) <-> exists u v, w = u ++ v /\ matches r (c :: u) /\ matches (R_star r) v.
Proof.
  split.
  - intros H. remember (R_star r) as s eqn:Hs. remember (c :: w) as x eqn:Hx. revert c w Hx.
    induction H as [|a0 c0 Hac| | | | |r' u v Hu _ Hv IH]; intros c w Hx; try done; injection Hs as ->.
    destruct u as [|c' u]; cbn in Hx; [by apply IH|]. injection Hx as -> <-. by exists u, v.
  - intros (u & v & -> & Hu & Hv). by apply (matches_more r (c :: u) v).
Qed.

Lemma deriv_spec r c w : matches (deriv c r) w <-> matches r (c :: w).
Proof.
  revert w. induction r as [| |a|r IHr s IHs|r IHr s IHs|r IHr]; intros w; cbn.
  - split; by inversion 1.
  - split; by inversion 1.
  - destruct (in_atom a c) eqn:Ha; split.
    + intros H%matches_eps_inv. subst. auto.
    + inversion 1; subst. auto.
    + by intros H%matches_empty_inv.
    + inversion 1; congruence.
  - assert (matches (seq (deriv c r) s) w <-> exists u v, w = u ++ v /\ matches r (c :: u) /\ matches s v) as Hseq.
    { rewrite matches_smart_seq. split.
      - inversion 1 as [| |r' s' u v Hu Hv| | | |]; subst. exists u, v. by rewrite <- IHr.
      - intros (u & v & -> & Hu & Hv). apply matches_seq; [by apply IHr|done]. }
    rewrite deriv_seq, <- nullable_spec. destruct (nullable r).
    + rewrite matches_smart_alt, Hseq, IHs. tauto.
    + rewrite Hseq. naive_solver.
  - rewrite matches_smart_alt, IHr, IHs. split; [by intros [H|H]; auto|by inversion 1; auto].
  - rewrite deriv_star, matches_smart_seq. split.
    + inversion 1 as [| |r' s' u v Hu Hv| | | |]; subst. exists u, v. by rewrite <- IHr.
    + intros (u & v & -> & Hu & Hv). apply matches_seq; [by apply IHr|done].
Qed.

(** *** Sets of rules *)

Abbreviation rules := (list (Z * regex)).

Definition rderiv (c : ascii) (v : rules) : rules := map (fun '(n, r) => (n, deriv c r)) v.
Definition rderivs (w : list ascii) (v : rules) : rules := fold_left (fun v c => rderiv c v) w v.

(** The first rule that matches the empty text; 0 if none does. *)
Fixpoint accepts (v : rules) : Z :=
  match v with
  | [] => 0
  | (n, r) :: v => if nullable r then n else accepts v
  end.

(** No text leads to a match. *)
Definition dead (v : rules) : bool := forallb (fun '(_, r) => bool_decide (r = R_empty)) v.

(** The best match: [last] is the rule and the end of the best one so far. *)
Fixpoint munch (v : rules) (w : list ascii) (pos : nat) (last : Z * nat) : Z * nat :=
  let last := if accepts v =? 0 then last else (accepts v, pos) in
  match w with
  | [] => last
  | c :: w => if dead (rderiv c v) then last else munch (rderiv c v) w (S pos) last
  end.

Lemma rderiv_fst c v : (rderiv c v).*1 = v.*1.
Proof. unfold rderiv. induction v as [|[n r] v IH]; cbn; [done|]. by rewrite IH. Qed.

Lemma rderivs_elem w (v : rules) act :
  (exists r, (act, r) ∈ v /\ matches r w) <-> exists r, (act, r) ∈ rderivs w v /\ nullable r = true.
Proof.
  revert v. induction w as [|c w IH]; intros v; cbn.
  - split; intros (r & Hr & Hn); exists r; by rewrite ?nullable_spec in *.
  - change (fold_left _ w (rderiv c v)) with (rderivs w (rderiv c v)). rewrite <- IH. unfold rderiv. split.
    + intros (r & Hr & Hm). exists (deriv c r). rewrite deriv_spec. split; [|done].
      apply list_elem_of_fmap. by exists (act, r).
    + intros (r' & Hr & Hm). apply list_elem_of_fmap in Hr as ((n & r) & [= -> ->] & Hr).
      exists r. by rewrite <- deriv_spec.
Qed.

(** The rules are in the order of their numbers, which are positive. *)
Definition ordered (v : rules) : Prop := Sorted.StronglySorted Z.lt (0 :: v.*1).

Lemma accepts_spec (v : rules) act :
  Sorted.StronglySorted Z.lt v.*1 -> accepts v = act -> act <> 0 ->
  (exists r, (act, r) ∈ v /\ nullable r = true) /\
  forall act' r, (act', r) ∈ v -> nullable r = true -> act <= act'.
Proof.
  induction v as [|[n r] v IH]; cbn; intros Hs Ha H0; [done|].
  apply Sorted.StronglySorted_inv in Hs as [Hs Hn]. destruct (nullable r) eqn:Hr.
  - subst n. split; [exists r; split; [by left|done]|]. intros act' r' [[= -> ->]|Hin]%elem_of_cons _; [lia|].
    rewrite Forall_forall in Hn. apply Z.lt_le_incl, Hn. apply list_elem_of_fmap. by exists (act', r').
  - destruct (IH Hs Ha H0) as [(r1 & Hin & Hr1) Hle]. split; [exists r1; split; [by right|done]|].
    intros act' r' [[= -> ->]|Hin']%elem_of_cons Hr'; [congruence|by eapply Hle].
Qed.

Lemma accepts_none (v : rules) act r :
  Sorted.StronglySorted Z.lt (0 :: v.*1) -> accepts v = 0 -> (act, r) ∈ v -> nullable r = false.
Proof.
  intros Hs Ha Hin. apply Sorted.StronglySorted_inv in Hs as [_ Hn]. revert Ha Hin.
  induction v as [|[n r0] v IH]; cbn in *; [by intros _ []%elem_of_nil|].
  apply Forall_cons in Hn as [Hn0 Hn]. destruct (nullable r0) eqn:Hr; intros Ha [[= -> ->]|Hin]%elem_of_cons;
    [lia|lia|done|by apply IH].
Qed.

Lemma dead_elem (v : rules) : dead v = true <-> forall act r, (act, r) ∈ v -> r = R_empty.
Proof.
  unfold dead. rewrite forallb_forall. split.
  - intros H act r Hin%list_elem_of_In%H. by apply bool_decide_eq_true in Hin.
  - intros H [act r] Hin%list_elem_of_In. apply bool_decide_eq_true. by eapply H.
Qed.

Lemma dead_accepts (v : rules) : dead v = true -> accepts v = 0.
Proof.
  intros H. induction v as [|[n r] v IH]; cbn in *; [done|]. apply andb_true_iff in H as [->%bool_decide_eq_true Hd].
  cbn. by apply IH.
Qed.

Lemma dead_rderivs (v : rules) w : dead v = true -> dead (rderivs w v) = true.
Proof.
  revert v. induction w as [|c w IH]; intros v H; [done|]. cbn. apply IH. rewrite dead_elem in H |- *.
  intros act r Hin. unfold rderiv in Hin. apply list_elem_of_fmap in Hin as ((n & r0) & [= -> ->] & Hin).
  by rewrite (H _ _ Hin).
Qed.

(** What [munch] returns. *)
Lemma munch_spec w v pos last :
  (exists k, (k <= length w)%nat /\ munch v w pos last = (accepts (rderivs (take k w) v), (pos + k)%nat) /\
     accepts (rderivs (take k w) v) <> 0 /\
     forall k', (k < k' <= length w)%nat -> accepts (rderivs (take k' w) v) = 0) \/
  munch v w pos last = last /\ forall k', (k' <= length w)%nat -> accepts (rderivs (take k' w) v) = 0.
Proof.
  revert v pos last. induction w as [|c w IH]; intros v pos last; cbn [munch].
  - destruct (Z.eqb_spec (accepts v) 0) as [Ha|Ha].
    + right. split; [done|]. intros k' Hk. cbn in Hk. by replace k' with 0%nat by lia.
    + left. exists 0%nat. rewrite Nat.add_0_r. cbn. split_and!; try done; lia.
  - set (l := if accepts v =? 0 then last else (accepts v, pos)).
    assert ((forall k, (0 < k <= S (length w))%nat -> accepts (rderivs (take k (c :: w)) v) = 0) ->
      (exists k, (k <= length (c :: w))%nat /\ l = (accepts (rderivs (take k (c :: w)) v), (pos + k)%nat) /\
         accepts (rderivs (take k (c :: w)) v) <> 0 /\
         forall k', (k < k' <= length (c :: w))%nat -> accepts (rderivs (take k' (c :: w)) v) = 0) \/
      l = last /\ forall k', (k' <= length (c :: w))%nat -> accepts (rderivs (take k' (c :: w)) v) = 0) as Hl.
    { intros H. unfold l. destruct (Z.eqb_spec (accepts v) 0) as [Ha|Ha].
      - right. split; [done|]. intros [|k'] Hk; [done|]. apply H. cbn in Hk. lia.
      - left. exists 0%nat. rewrite Nat.add_0_r. split_and!; [cbn; lia|done|done|]. intros k' Hk. apply H. cbn in Hk. lia. }
    destruct (dead (rderiv c v)) eqn:Hd.
    + apply Hl. intros [|k] Hk; [lia|]. cbn. apply dead_accepts, dead_rderivs, Hd.
    + destruct (IH (rderiv c v) (S pos) l) as [(k & Hk & -> & Hn & Hlast)|[-> Hz]].
      * left. exists (S k). cbn. split_and!; [lia|f_equal; lia|done|]. intros [|k'] Hk'; [lia|]. cbn. apply Hlast. lia.
      * apply Hl. intros [|k] Hk; [lia|]. cbn. apply Hz. lia.
Qed.

Lemma rderivs_fst w (v : rules) : (rderivs w v).*1 = v.*1.
Proof. revert v. induction w as [|c w IH]; intros v; cbn; [done|]. by rewrite IH, rderiv_fst. Qed.

(** If no rule matches the empty text, the best match is the longest. *)
Lemma munch_longest (v : rules) w pos act cp :
  ordered v -> accepts v = 0 -> munch v w pos (0, pos) = (act, cp) -> act <> 0 ->
  exists len, cp = (pos + len)%nat /\ longest v w act len.
Proof.
  intros Ho H0 Hm Ha. destruct (munch_spec w v pos (0, pos)) as [(k & Hk & Heq & Hn & Hlast)|[Heq _]];
    rewrite Hm in Heq; injection Heq as -> ->; [|done].
  assert (forall u, ordered (rderivs u v)) as Hou by (intros u; unfold ordered; by rewrite rderivs_fst).
  exists k. split; [done|]. assert (k <> 0%nat) as Hk0 by (intros ->; by cbn in Hn).
  destruct (accepts_spec _ _ (proj1 (Sorted.StronglySorted_inv (Hou (take k w)))) eq_refl Hn) as [Hex Hmin].
  split; [lia|]. split; [by apply rderivs_elem|].
  intros act' r' len' Hin Hlen Hmatch.
  destruct (proj1 (rderivs_elem (take len' w) v act')) as (r & Hr & Hnull); [by exists r'|].
  destruct (decide (len' <= k)%nat).
  - destruct (decide (len' = k)) as [->|]; [right; split; [done|by eapply Hmin]|left; lia].
  - rewrite (accepts_none _ _ _ (Hou _) (Hlast len' ltac:(lia)) Hr) in Hnull. done.
Qed.
