(* ===== verification/EdifyScan.v ===== *)
(** * The scanner splits a script as its rules say

    The tables of [lex.yy.c] follow the rules of [EdifyRules], the scanner handles the
    end of its buffer, and so the calls of [yylex] cut a script into the longest
    matches of the rules, one after the other. *)

From stdpp Require Import base list strings.
From Stdlib Require Import ZArith Lia ZifyBool ZifyNat Ascii.
From S2P Require Import Prelude CString Edify EdifyParser EdifyLexer EdifyRules.

Open Scope Z_scope.

(** ** The tables and the rules *)

Definition ok_or {A} (d : A) (r : res A) : A := match r with Ok a => a | _ => d end.

Definition class_of (c : ascii) : Z := ok_or 0 (at_index yy_ec (char_code c)).
Definition accept_of (s : Z) : Z := ok_or 0 (at_index yy_accept s).

Definition all_chars : list ascii := map ascii_of_nat (List.seq 0 256).

Lemma all_chars_spec c : c ∈ all_chars.
Proof.
  apply list_elem_of_fmap. exists (nat_of_ascii c). split; [by rewrite ascii_nat_embedding|].
  apply elem_of_seq. pose proof (nat_ascii_bounded c). lia.
Qed.

(** A character of every class but the one of NUL. *)
Definition reps : list ascii :=
  ["001"; "009"; "010"; "013"; "!"; "034"; "#"; "&"; "("; "/"; "0"; "="; "\"; "d"; "e"; "f"; "h"; "i"; "l";
   "n"; "s"; "t"; "x"; "|"; "a"]%char.
(** The atoms of the rules. *)
Definition atoms : list atom :=
  [A_word; A_hex; A_punct; A_blank; A_dot] ++
  map A_char ["034"; "010"; "013"; "#"; "&"; "|"; "="; "!"; "\"; "d"; "e"; "f"; "h"; "i"; "l"; "n"; "s"; "t"; "x"]%char.

Definition agree (c c' : ascii) : bool :=
  bool_decide (class_of c = class_of c') && forallb (fun a => Bool.eqb (in_atom a c) (in_atom a c')) atoms.

Lemma reps_spec c : c <> "000"%char -> exists r, r ∈ reps /\ agree c r = true.
Proof.
  intros Hc. assert (forallb (fun c => Ascii.eqb c "000" || existsb (agree c) reps) all_chars = true) as H
    by by vm_compute.
  rewrite forallb_forall in H. specialize (H c (proj1 (list_elem_of_In _ _) (all_chars_spec c))).
  destruct (Ascii.eqb_spec c "000"); [done|]. apply existsb_exists in H as (r & Hr & Ha).
  exists r. by rewrite list_elem_of_In.
Qed.

Fixpoint atoms_in (r : regex) : bool :=
  match r with
  | R_empty | R_eps => true
  | R_atom a => bool_decide (a ∈ atoms)
  | R_seq r s | R_alt r s => atoms_in r && atoms_in s
  | R_star r => atoms_in r
  end.

Lemma agree_atom c c' a : agree c c' = true -> a ∈ atoms -> in_atom a c = in_atom a c'.
Proof.
  intros [_ H]%andb_true_iff Ha. rewrite forallb_forall in H.
  by apply Bool.eqb_prop, H, list_elem_of_In.
Qed.

Lemma agree_deriv c c' r : agree c c' = true -> atoms_in r = true -> deriv c r = deriv c' r.
Proof.
  intros Hc. induction r as [| |a|r IHr s IHs|r IHr s IHs|r IHr]; cbn; intros Hr; try done.
  - apply bool_decide_eq_true in Hr. by rewrite (agree_atom _ _ _ Hc Hr).
  - apply andb_true_iff in Hr as [Hr Hs]. by rewrite (IHr Hr), (IHs Hs).
  - apply andb_true_iff in Hr as [Hr Hs]. by rewrite (IHr Hr), (IHs Hs).
  - by rewrite (IHr Hr).
Qed.

Definition ratoms_in (v : rules) : bool := forallb (fun '(_, r) => atoms_in r) v.

Lemma agree_rderiv c c' v : agree c c' = true -> ratoms_in v = true -> rderiv c v = rderiv c' v.
Proof.
  intros Hc. induction v as [|[n r] v IH]; [done|]. intros [Hr Hv]%andb_true_iff.
  change (rderiv ?x ((n, r) :: v)) with ((n, deriv x r) :: rderiv x v). by rewrite (agree_deriv _ _ _ Hc Hr), (IH Hv).
Qed.

(** The states with the rules they stand for. *)
Fixpoint explore (fuel : nat) (todo seen : list (Z * rules)) : list (Z * rules) :=
  match fuel, todo with
  | S fuel, (s, v) :: todo =>
      if decide ((s, v) ∈ seen) then explore fuel todo seen
      else
        explore fuel
          (flat_map (fun r =>
             let s' := ok_or 52 (transition s (class_of r)) in
             if ok_or 73 (at_index yy_base s') =? 73 then [] else [(s', rderiv r v)]) reps ++ todo)
          ((s, v) :: seen)
  | _, _ => seen
  end.

(** The loop stops in a state: at a dead end, where no rule can match any more, or
    where nothing longer can match. *)
Definition check_next (known : list (Z * rules)) (s' b a : Z) (v' : rules) : bool :=
  if s' =? 52 then (b =? 73) && (a =? 0) && dead v'
  else
    negb (dead v') && (a =? accepts v') && (a <=? 23) && ratoms_in v' &&
    if b =? 73 then forallb (fun c' => dead (rderiv c' v')) reps else bool_decide ((s', v') ∈ known).
Definition check_step (known : list (Z * rules)) (s : Z) (v : rules) (c : ascii) : bool :=
  match transition s (class_of c) with
  | Ok s' =>
      match at_index yy_base s', at_index yy_accept s' with
      | Ok b, Ok a => check_next known s' b a (rderiv c v)
      | _, _ => false
      end
  | _ => false
  end.
Definition returns (n : Z) (r : res Z) : bool := match r with Ok m => m =? n | _ => false end.

Definition check_pair (known : list (Z * rules)) (p : Z * rules) : bool :=
  let '(s, v) := p in
  returns (accepts v) (at_index yy_accept s) && (accepts v <=? 23) && ratoms_in v &&
  returns 5 (transition s 0) &&
  forallb (check_step known s v) reps.

Lemma returns_ok n r : returns n r = true -> r = Ok n.
Proof. destruct r; cbn; [|done..]. by intros ->%Z.eqb_eq. Qed.

Lemma agree_class c c' : agree c c' = true -> class_of c = class_of c'.
Proof. intros [H _]%andb_true_iff. by apply bool_decide_eq_true in H. Qed.

Lemma agree_check known s v c c' :
  agree c c' = true -> ratoms_in v = true -> check_step known s v c = check_step known s v c'.
Proof.
  intros Hc Hv. unfold check_step. by rewrite (agree_class _ _ Hc), (agree_rderiv _ _ _ Hc Hv).
Qed.

Lemma pair_spec_of known s v :
  forallb (check_pair known) known = true -> (s, v) ∈ known ->
  at_index yy_accept s = Ok (accepts v) /\ accepts v <= 23 /\ transition s 0 = Ok 5 /\
  forall c, c <> "000"%char -> check_step known s v c = true.
Proof.
  rewrite forallb_forall. intros H Hin%list_elem_of_In%H.
  apply andb_true_iff in Hin as [Hin Hc]. apply andb_true_iff in Hin as [Hin Hn%returns_ok].
  apply andb_true_iff in Hin as [Hin Hat]. apply andb_true_iff in Hin as [Ha%returns_ok Hle%Z.leb_le].
  split_and!; [exact Ha|exact Hle|exact Hn|]. intros c H0.
  destruct (reps_spec c H0) as (r & Hr%list_elem_of_In & Hag). rewrite forallb_forall in Hc.
  rewrite (agree_check _ _ _ _ _ Hag Hat). exact (Hc r Hr).
Qed.

(** What the lemmas below use of the tables: a list of pairs that passes the check. *)
Section scanner.
#[local] Opaque transition yy_next.
Context (pairs : list (Z * rules)) (Hchecked : forallb (check_pair pairs) pairs = true).

(** The state [s] stands for the rules [v]. *)
Lemma pair_spec s v :
  (s, v) ∈ pairs ->
  at_index yy_accept s = Ok (accepts v) /\ accepts v <= 23 /\ transition s 0 = Ok 5 /\
  forall c, c <> "000"%char -> check_step pairs s v c = true.
Proof. exact (pair_spec_of pairs s v Hchecked). Qed.

(** ** Reading a text *)

Definition NULs : list ascii := ["000"; "000"]%char.
Definition no_NUL (w : list ascii) : Prop := Forall (fun c => c <> "000"%char) w.

Lemma class_ok c : at_index yy_ec (char_code c) = Ok (class_of c).
Proof.
  assert (forallb (fun c => returns (class_of c) (at_index yy_ec (char_code c))) all_chars = true) as H by by vm_compute.
  rewrite forallb_forall in H. apply returns_ok, H, list_elem_of_In, all_chars_spec.
Qed.

Lemma char_code_NUL c : c <> "000"%char -> (char_code c =? 0) = false.
Proof.
  intros Hc. apply Z.eqb_neq. unfold char_code. intros H. apply Hc.
  rewrite <- (ascii_nat_embedding c). by replace (nat_of_ascii c) with 0%nat by lia.
Qed.


(** What the last accepting state and position of the scanner stand for. *)
Definition valid_state (a : Z) : Prop := at_index yy_accept a = Ok (accept_of a).

(** The rule and the end of the text that [yy_find_action] settles for. *)
Definition found (s : Z) (cp : nat) (a : Z) (b : nat) : Z * nat :=
  if accept_of s =? 0 then (accept_of a, b) else (accept_of s, cp).

Lemma set_last_twice a b a' b' lx :
  set_last_accepting a' b' (set_last_accepting a b lx) = set_last_accepting a' b' lx.
Proof. done. Qed.

Lemma set_last_self lx : set_last_accepting (yy_last_accepting_state lx) (yy_last_accepting_cpos lx) lx = lx.
Proof. by destruct lx. Qed.

Lemma note_accept_pair s v cp a b lx :
  (s, v) ∈ pairs -> valid_state a ->
  exists a' b', note_accept s cp (set_last_accepting a b lx) = Ok (set_last_accepting a' b' lx) /\
    valid_state a' /\ (accept_of a', b') = if accepts v =? 0 then (accept_of a, b) else (accepts v, cp).
Proof.
  intros (Ha & _ & _ & _)%pair_spec Hv. unfold note_accept. rewrite Ha. rewrite !bind_Ok.
  destruct (accepts v =? 0) eqn:E; [by exists a, b|]. exists s, cp. rewrite set_last_twice.
  unfold valid_state, accept_of. by rewrite Ha.
Qed.

(** One character. *)
Inductive stepped (s : Z) (v : rules) (c : ascii) : Prop :=
  | step_jam : transition s (class_of c) = Ok 52 -> dead (rderiv c v) = true -> stepped s v c
  | step_stop s' :
      transition s (class_of c) = Ok s' -> at_index yy_base s' = Ok 73 -> valid_state s' ->
      accept_of s' = accepts (rderiv c v) -> accept_of s' <= 23 -> dead (rderiv c v) = false ->
      (forall c', c' <> "000"%char -> dead (rderiv c' (rderiv c v)) = true) -> stepped s v c
  | step_on s' b :
      transition s (class_of c) = Ok s' -> at_index yy_base s' = Ok b -> (b =? 73) = false ->
      dead (rderiv c v) = false -> (s', rderiv c v) ∈ pairs -> stepped s v c.

Lemma check_step_inv s v c :
  check_step pairs s v c = true ->
  exists s' b a, transition s (class_of c) = Ok s' /\ at_index yy_base s' = Ok b /\
    at_index yy_accept s' = Ok a /\ check_next pairs s' b a (rderiv c v) = true.
Proof.
  unfold check_step. intros H.
  destruct (transition s (class_of c)) as [s'| |]; [|done..].
  destruct (at_index yy_base s') as [b| |] eqn:Hb; [|done..].
  destruct (at_index yy_accept s') as [a| |] eqn:Ha; [|done..]. by exists s', b, a.
Qed.

Lemma check_next_inv s' b a v' :
  check_next pairs s' b a v' = true ->
  s' = 52 /\ dead v' = true \/
  a = accepts v' /\ a <= 23 /\ dead v' = false /\
  (b = 73 /\ (forall c', c' <> "000"%char -> dead (rderiv c' v') = true) \/
   (b =? 73) = false /\ (s', v') ∈ pairs).
Proof.
  unfold check_next. destruct (Z.eqb_spec s' 52) as [->|Hs].
  { intros [_ H]%andb_true_iff. by left. }
  intros [H Hr]%andb_true_iff. right. apply andb_true_iff in H as [H Hat]. apply andb_true_iff in H as [H Hle%Z.leb_le].
  apply andb_true_iff in H as [Hd%negb_true_iff Hacc%Z.eqb_eq]. split_and!; [exact Hacc|exact Hle|exact Hd|].
  destruct (Z.eqb_spec b 73) as [->|Hb].
  - left. split; [done|]. intros c' Hc'. destruct (reps_spec c' Hc') as (r & Hr'%list_elem_of_In & Hag).
    rewrite forallb_forall in Hr. rewrite (agree_rderiv _ _ _ Hag Hat). exact (Hr r Hr').
  - right. apply bool_decide_eq_true in Hr. by split.
Qed.

Lemma accept_of_ok s a : at_index yy_accept s = Ok a -> valid_state s /\ accept_of s = a.
Proof. unfold valid_state, accept_of. by intros ->. Qed.

Lemma pair_step s v c : (s, v) ∈ pairs -> c <> "000"%char -> stepped s v c.
Proof.
  intros (_ & _ & _ & H)%pair_spec Hc.
  destruct (check_step_inv s v c (H c Hc)) as (s' & b & a & Ht & Hb & [Hv <-]%accept_of_ok & Hn).
  apply check_next_inv in Hn as [[-> Hd]|(Ha & Hle & Hd & [[-> Hr]|[Hb73 Hp]])].
  - by apply step_jam.
  - by eapply step_stop.
  - by eapply step_on.
Qed.

Lemma munch_cons v c w pos last :
  munch v (c :: w) pos last =
  let last := if accepts v =? 0 then last else (accepts v, pos) in
  if dead (rderiv c v) then last else munch (rderiv c v) w (S pos) last.
Proof. done. Qed.

Lemma munch_stop v w pos last :
  no_NUL w -> (forall c, c <> "000"%char -> dead (rderiv c v) = true) ->
  munch v w pos last = if accepts v =? 0 then last else (accepts v, pos).
Proof. intros Hw H. destruct Hw as [|c w Hc Hw]; [done|]. rewrite munch_cons. by rewrite H. Qed.

Lemma class_NUL : class_of "000" = 0.
Proof. by vm_compute. Qed.
Lemma base_52 : at_index yy_base 52 = Ok 73.
Proof. by vm_compute. Qed.
Lemma base_5 : at_index yy_base 5 = Ok 57.
Proof. by vm_compute. Qed.

Lemma yy_match_cons c rest cp s lx :
  yy_match (c :: rest) cp s lx =
    (yy_c ← at_index yy_ec (char_code c);
     lx ← note_accept s cp lx;
     s ← transition s yy_c;
     base ← at_index yy_base s;
     if base =? 73 then Ok (s, S cp, lx) else yy_match rest (S cp) s lx).
Proof. done. Qed.

Lemma previous_state_cons c text cp s lx :
  c <> "000"%char ->
  previous_state_loop (c :: text) cp s lx =
    (lx ← note_accept s cp lx; s ← transition s (class_of c); previous_state_loop text (S cp) s lx).
Proof. intros Hc. cbn [previous_state_loop]. by rewrite (char_code_NUL c Hc), class_ok. Qed.

Definition last_NUL : list ascii := ["000"]%char.

Lemma match_last_NUL cp lx : yy_match last_NUL cp 5 lx = Ok (52, S cp, set_last_accepting 5 cp lx).
Proof. by vm_compute. Qed.

Lemma match_NULs s v cp a b lx :
  (s, v) ∈ pairs -> valid_state a ->
  yy_match NULs cp s (set_last_accepting a b lx) = Ok (52, S (S cp), set_last_accepting 5 (S cp) lx).
Proof.
  intros Hp Hv. destruct (pair_spec _ _ Hp) as (_ & _ & Hn & _).
  destruct (note_accept_pair s v cp a b lx Hp Hv) as (a' & b' & Heq & _ & _).
  unfold NULs. rewrite yy_match_cons, class_ok, class_NUL. rewrite !bind_Ok.
  rewrite Heq. rewrite !bind_Ok, Hn. rewrite !bind_Ok.
  rewrite base_5, bind_Ok. change (57 =? 73) with false. cbv iota.
  fold last_NUL. by rewrite match_last_NUL, set_last_twice.
Qed.

(** [yy_match] up to the end of a text, or to where the match is decided. *)
Definition settles (v : rules) (w : list ascii) (cp : nat) (last : Z * nat) (s' : Z) (cp' : nat) (a' : Z) (b' : nat) : Prop :=
  valid_state s' /\ valid_state a' /\ accept_of s' <= 23 /\ found s' cp' a' b' = munch v w cp last.

(** The loop of [yy_get_previous_state] over a whole text, from any last match. *)
Definition replays (s : Z) (v : rules) (w : list ascii) (cp : nat) : Prop :=
  forall a b lx, valid_state a ->
  exists s' a' b', previous_state_loop w cp s (set_last_accepting a b lx) = Ok (s', set_last_accepting a' b' lx) /\
    settles v w cp (accept_of a, b) s' (cp + length w) a' b'.

Lemma match_run lx w : forall s v cp a b,
  (s, v) ∈ pairs -> no_NUL w -> valid_state a ->
  (exists s' cp' a' b',
     yy_match (w ++ NULs) cp s (set_last_accepting a b lx) = Ok (s', cp', set_last_accepting a' b' lx) /\
     settles v w cp (accept_of a, b) s' cp' a' b') \/
  yy_match (w ++ NULs) cp s (set_last_accepting a b lx) =
    Ok (52, (cp + length w + 2)%nat, set_last_accepting 5 (cp + length w + 1) lx) /\
  replays s v w cp.
Proof.
  induction w as [|c w IH]; intros s v cp a b Hp Hw Hv.
  - destruct (pair_spec _ _ Hp) as ([Hvs Has]%accept_of_ok & Hle & _ & _). right.
    cbn [app length]. rewrite (match_NULs s v cp a b lx Hp Hv). split; [do 2 f_equal; f_equal; lia|].
    intros a0 b0 lx0 Hv0. exists s, a0, b0. split; [done|]. split_and!; [exact Hvs|exact Hv0|lia|].
    unfold found. rewrite Has, Nat.add_0_r. done.
  - apply Forall_cons in Hw as [Hc Hw]. destruct (note_accept_pair s v cp a b lx Hp Hv) as (a1 & b1 & Hnote & Hv1 & Hl).
    change ((c :: w) ++ NULs) with (c :: (w ++ NULs)).
    rewrite yy_match_cons, class_ok, bind_Ok, Hnote, bind_Ok.
    destruct (pair_step s v c Hp Hc) as [Ht Hd|s' Ht Hb Hvs Has Hle Hd Hstop|s' base Ht Hb Hb73 Hd Hp'].
    + left. rewrite Ht, bind_Ok, base_52, bind_Ok. exists 52, (S cp), a1, b1. split; [done|].
      split_and!; [by vm_compute|exact Hv1|by vm_compute|]. rewrite munch_cons. cbv zeta. by rewrite <- Hl, Hd.
    + left. rewrite Ht, bind_Ok, Hb, bind_Ok. exists s', (S cp), a1, b1. split; [done|].
      split_and!; [exact Hvs|exact Hv1|exact Hle|]. rewrite munch_cons. cbv zeta.
      rewrite <- Hl, Hd, munch_stop by done. unfold found. by rewrite Has.
    + rewrite Ht, bind_Ok, Hb, bind_Ok, Hb73.
      destruct (IH s' (rderiv c v) (S cp) a1 b1 Hp' Hw Hv1) as [(s2 & cp2 & a2 & b2 & Heq & H1 & H2 & H3 & H4)|[Heq Hrep]].
      * left. exists s2, cp2, a2, b2. split; [exact Heq|]. split_and!; [done|done|done|].
        rewrite munch_cons. cbv zeta. by rewrite <- Hl, Hd.
      * right. rewrite Heq. split; [cbn [length]; do 2 f_equal; f_equal; lia|].
        intros a0 b0 lx0 Hv0. destruct (note_accept_pair s v cp a0 b0 lx0 Hp Hv0) as (a2 & b2 & Hnote' & Hv2 & Hl').
        destruct (Hrep a2 b2 lx0 Hv2) as (s3 & a3 & b3 & Heq3 & H1 & H2 & H3 & H4).
        exists s3, a3, b3. split.
        { rewrite (previous_state_cons c w _ _ _ Hc), Hnote', bind_Ok, Ht, bind_Ok. exact Heq3. }
        split_and!; [done|done|done|]. rewrite munch_cons. cbv zeta. rewrite <- Hl', Hd, <- H4.
        f_equal. cbn [length]. lia.
Qed.

(** ** One token *)

Context (Hstart : forall start, start = 1 \/ start = 3 ->
  (start, rules_of start) ∈ pairs /\ accepts (rules_of start) = 0 /\
  forall c, c <> "000"%char -> accepts (rderiv c (rules_of start)) <> 0).

(** The scanner stands before the text [w], which is all that is left. *)
Definition at_text (lx : lexer) (w : list ascii) : Prop :=
  exists pre, yy_ch_buf lx = pre ++ w ++ NULs /\ yy_n_chars lx = (length pre + length w)%nat /\
    yy_c_buf_p lx = length pre.
Definition ready (lx : lexer) : Prop :=
  valid_state (yy_last_accepting_state lx) /\ (yy_start lx = 1 \/ yy_start lx = 3).

Lemma munch_any v c w pos last last' :
  accepts v = 0 -> accepts (rderiv c v) <> 0 -> munch v (c :: w) pos last = munch v (c :: w) pos last'.
Proof.
  intros H0 Hc. rewrite !munch_cons, H0. cbv zeta. change (0 =? 0) with true. cbv iota.
  destruct (dead (rderiv c v)) eqn:Hd; [by rewrite (dead_accepts _ Hd) in Hc|].
  assert (forall l, munch (rderiv c v) w (S pos) l =
            match w with
            | [] => (accepts (rderiv c v), S pos)
            | c' :: w => if dead (rderiv c' (rderiv c v)) then (accepts (rderiv c v), S pos)
                         else munch (rderiv c' (rderiv c v)) w (S (S pos)) (accepts (rderiv c v), S pos)
            end) as H by (intros l; destruct w; cbn [munch]; by rewrite (proj2 (Z.eqb_neq _ _) Hc)).
  by rewrite !H.
Qed.

Lemma accept_52 : at_index yy_accept 52 = Ok 0.
Proof. by vm_compute. Qed.
Lemma accept_5 : at_index yy_accept 5 = Ok YY_END_OF_BUFFER.
Proof. by vm_compute. Qed.

(** [yy_find_action] once the text is settled. *)
Lemma find_action_settled v w yytext last s' cp' a' b' lx :
  settles v w yytext last s' cp' a' b' ->
  yy_find_action s' cp' (set_last_accepting a' b' lx) = Ok (munch v w yytext last).
Proof.
  intros (Hvs & Hva & _ & <-). unfold yy_find_action, valid_state, found in *. rewrite Hvs, bind_Ok.
  destruct (accept_of s' =? 0); [|done].
  change (yy_last_accepting_state (set_last_accepting a' b' lx)) with a'. by rewrite Hva, bind_Ok.
Qed.

(** At the end of the buffer the remembered state is the end-of-buffer state. *)
Lemma find_action_end cp cp' lx :
  yy_find_action 52 cp (set_last_accepting 5 cp' lx) = Ok (YY_END_OF_BUFFER, cp').
Proof.
  unfold yy_find_action. rewrite accept_52, bind_Ok. change (0 =? 0) with true. cbv iota.
  change (yy_last_accepting_state (set_last_accepting 5 cp' lx)) with 5. by rewrite accept_5, bind_Ok.
Qed.

Definition after_action (fuel : nat) (yytext yy_cp : nat) (yy_act : Z) (lx : lexer) : res scanned :=
  let lx := set_c_buf_p yy_cp lx in
  if negb (yy_act =? YY_END_OF_BUFFER) then Ok (Matched yy_act yytext lx)
  else
    let yy_amount_of_matched_text := (yy_cp - yytext - 1)%nat in
    if (yy_c_buf_p lx <=? yy_n_chars lx)%nat then
      let lx := set_c_buf_p (yytext + yy_amount_of_matched_text) lx in
      '(yy_current_state, lx) ← yy_get_previous_state yytext lx;
      '(yy_next_state, lx) ← yy_try_NUL_trans yy_current_state lx;
      if negb (yy_next_state =? 0) then
        let lx := set_c_buf_p (S (yy_c_buf_p lx)) lx in
        scan fuel L_yy_match yytext (yy_c_buf_p lx) yy_next_state lx
      else scan fuel L_yy_find_action yytext (yy_c_buf_p lx) yy_current_state lx
    else
      at_end ← yy_get_next_buffer yytext lx;
      if (at_end : bool) then Ok (End_of_file (set_c_buf_p yytext lx))
      else
        let lx := set_c_buf_p (yy_n_chars lx) lx in
        '(yy_current_state, lx) ← yy_get_previous_state yytext lx;
        scan fuel L_yy_find_action yytext (yy_c_buf_p lx) yy_current_state lx.

Lemma scan_match fuel yytext cp s lx :
  scan (S fuel) L_yy_match yytext cp s lx =
    ('(s, cp, lx) ← yy_match (drop cp (yy_ch_buf lx)) cp s lx;
     '(act, cp) ← yy_find_action s cp lx; after_action fuel yytext cp act lx).
Proof. done. Qed.
Lemma scan_found fuel yytext cp s lx :
  scan (S fuel) L_yy_find_action yytext cp s lx =
    ('(act, cp) ← yy_find_action s cp lx; after_action fuel yytext cp act lx).
Proof. done. Qed.

Lemma after_match fuel yytext cp act lx :
  act <= 23 -> after_action fuel yytext cp act lx = Ok (Matched act yytext (set_c_buf_p cp lx)).
Proof.
  intros Ha. unfold after_action. destruct (Z.eqb_spec act YY_END_OF_BUFFER) as [->|_]; [|done].
  unfold YY_END_OF_BUFFER in Ha. lia.
Qed.

Lemma accepts_bound (v : rules) : Forall (fun n => n <= 23) v.*1 -> accepts v <= 23.
Proof.
  induction v as [|[n r] v IH]; cbn; [lia|]. intros [Hn Hv]%Forall_cons. destruct (nullable r); [done|by apply IH].
Qed.

Lemma rules_bound start w : Forall (fun n => n <= 23) (rderivs w (rules_of start)).*1.
Proof.
  rewrite rderivs_fst. unfold rules_of. apply Forall_forall. destruct (start =? 3);
    intros n Hn; repeat (apply elem_of_cons in Hn as [->|Hn]; [done|]); by apply elem_of_nil in Hn.
Qed.

(** The best match of a text that is not empty, whatever was remembered before. *)
Lemma munch_start lx c w pos last :
  ready lx -> c <> "000"%char ->
  exists act cp, munch (rules_of (yy_start lx)) (c :: w) pos (0, pos) = (act, cp) /\
    munch (rules_of (yy_start lx)) (c :: w) pos last = (act, cp) /\ act <> 0 /\ act <= 23.
Proof.
  intros [_ Hs] Hc. destruct (Hstart _ Hs) as (_ & H0 & H1). specialize (H1 c Hc).
  rewrite (munch_any _ c w pos last (0, pos) H0 H1).
  destruct (munch_spec (c :: w) (rules_of (yy_start lx)) pos (0, pos)) as [(k & _ & -> & Hn & _)|[_ Hz]].
  - do 2 eexists. split; [done|]. split; [done|]. split; [done|]. apply accepts_bound, rules_bound.
  - by specialize (Hz 1%nat ltac:(cbn; lia)).
Qed.

(** The end of the buffer behind a text of [len] characters. *)
Lemma after_end fuel yytext len lx :
  yy_n_chars lx = (yytext + len)%nat ->
  after_action fuel yytext (yytext + len + 1) YY_END_OF_BUFFER lx =
    if (len =? 0)%nat then Ok (End_of_file (set_c_buf_p yytext lx))
    else
      '(s, lx) ← yy_get_previous_state yytext (set_c_buf_p (yytext + len) lx);
      scan fuel L_yy_find_action yytext (yy_c_buf_p lx) s lx.
Proof.
  intros Hn. unfold after_action, yy_get_next_buffer.
  change (negb (YY_END_OF_BUFFER =? YY_END_OF_BUFFER)) with false. cbv iota zeta.
  change (yy_n_chars (set_c_buf_p ?n lx)) with (yy_n_chars lx). change (yy_c_buf_p (set_c_buf_p ?n lx)) with n. rewrite Hn.
  rewrite (proj2 (Nat.leb_gt _ _)) by lia. rewrite (proj2 (Nat.ltb_ge _ _)) by lia. rewrite bind_Ok.
  replace (yytext + len + 1 - yytext =? 1)%nat with (len =? 0)%nat by lia. done.
Qed.

(** What a call of [yylex] finds first: the end of the input, or the best match. *)
Lemma scan_end lx fuel :
  at_text lx [] -> ready lx ->
  exists a b, valid_state a /\
    scan (S fuel) L_yy_match (yy_c_buf_p lx) (yy_c_buf_p lx) (yy_start lx) lx =
      Ok (End_of_file (set_last_accepting a b lx)).
Proof.
  intros (pre & Hbuf & Hn & Hcp) [Hv Hs]. destruct (Hstart _ Hs) as (Hp & _ & _).
  exists 5, (S (yy_c_buf_p lx)). split; [by vm_compute|].
  pose proof (match_NULs _ _ (yy_c_buf_p lx) _ (yy_last_accepting_cpos lx) lx Hp Hv) as Heq. rewrite set_last_self in Heq.
  rewrite scan_match, Hbuf. rewrite Hcp at 1. rewrite drop_app_length, app_nil_l, Heq, bind_Ok. cbv iota beta.
  rewrite find_action_end, bind_Ok. cbv iota beta. replace (S (yy_c_buf_p lx)) with (yy_c_buf_p lx + 0 + 1)%nat at 1 by lia.
  rewrite after_end by (cbn in Hn |- *; lia). by destruct lx.
Qed.

Lemma scan_text lx c w fuel :
  at_text lx (c :: w) -> ready lx -> no_NUL (c :: w) ->
  exists act cp a b, munch (rules_of (yy_start lx)) (c :: w) (yy_c_buf_p lx) (0, yy_c_buf_p lx) = (act, cp) /\
    act <> 0 /\ act <= 23 /\ valid_state a /\
    scan (2 + fuel) L_yy_match (yy_c_buf_p lx) (yy_c_buf_p lx) (yy_start lx) lx =
      Ok (Matched act (yy_c_buf_p lx) (set_c_buf_p cp (set_last_accepting a b lx))).
Proof.
  intros (pre & Hbuf & Hn & Hcp) Hready Hw. pose proof Hready as [Hv Hs]. destruct (Hstart _ Hs) as (Hp & _ & _).
  pose proof Hw as [Hc _]%Forall_cons.
  destruct (munch_start lx c w (yy_c_buf_p lx) (0, yy_c_buf_p lx) Hready Hc) as (act & cp & Hm & _ & Ha & Hle).
  exists act, cp. set (p := yy_c_buf_p lx) in *.
  assert (drop p (yy_ch_buf lx) = (c :: w) ++ NULs) as Hdrop by (rewrite Hbuf, Hcp; apply drop_app_length).
  cbn [Nat.add]. rewrite scan_match, Hdrop.
  destruct (match_run lx (c :: w) _ _ p _ (yy_last_accepting_cpos lx) Hp Hw Hv)
    as [(s' & cp' & a & b & Heq & Hset)|[Heq Hrep]]; rewrite set_last_self in Heq; rewrite Heq, bind_Ok; cbv iota beta.
  - exists a, b. split_and!; [done|done|done|by apply Hset|].
    rewrite (find_action_settled _ _ _ _ _ _ _ _ _ Hset), bind_Ok.
    destruct (munch_start lx c w p (accept_of (yy_last_accepting_state lx), yy_last_accepting_cpos lx) Hready Hc)
      as (act' & cp1 & Hm' & -> & _). rewrite Hm in Hm'. injection Hm' as <- <-. by apply after_match.
  - rewrite find_action_end, bind_Ok. cbv iota beta.
    rewrite (after_end _ p (length (c :: w)))
      by (change (yy_n_chars lx = (p + length (c :: w))%nat); rewrite Hcp; exact Hn).
    change (length (c :: w) =? 0)%nat with false. cbv iota.
    set (q := (p + length (c :: w))%nat).
    destruct (Hrep 5 (q + 1)%nat (set_c_buf_p q lx)) as (s' & a & b & Heq' & Hset); [by vm_compute|].
    exists a, b. split_and!; [done|done|done|by apply Hset|].
    assert (yy_get_previous_state p (set_c_buf_p q (set_last_accepting 5 (q + 1) lx)) =
              Ok (s', set_last_accepting a b (set_c_buf_p q lx))) as ->.
    { unfold yy_get_previous_state. rewrite <- Heq'. cbn [yy_c_buf_p set_c_buf_p yy_ch_buf set_last_accepting yy_start].
      rewrite Hdrop. replace (q - p)%nat with (length (c :: w)) by (unfold q; lia). by rewrite take_app_length. }
    rewrite bind_Ok. cbv iota beta. change (yy_c_buf_p (set_last_accepting a b (set_c_buf_p q lx))) with q.
    rewrite scan_found, (find_action_settled _ _ _ _ _ _ _ _ _ Hset), bind_Ok.
    destruct (munch_start lx c w p (accept_of 5, (q + 1)%nat) Hready Hc) as (act' & cp1 & Hm' & -> & _).
    rewrite Hm in Hm'. injection Hm' as <- <-. by rewrite after_match.
Qed.

End scanner.

(** ** The states of the tables *)

Definition pairs : list (Z * rules) := explore 1000 [(1, rules_INITIAL); (3, rules_STR)] [].

Lemma pairs_checked : forallb (check_pair pairs) pairs = true.
Proof. by vm_compute. Qed.

Lemma start_chars v :
  ratoms_in v = true -> forallb (fun r => negb (accepts (rderiv r v) =? 0)) reps = true ->
  forall c, c <> "000"%char -> accepts (rderiv c v) <> 0.
Proof.
  intros Hat H c Hc. rewrite forallb_forall in H. destruct (reps_spec c Hc) as (r & Hr%list_elem_of_In & Hag).
  rewrite (agree_rderiv _ _ _ Hag Hat). specialize (H r Hr). by apply negb_true_iff, Z.eqb_neq in H.
Qed.

Lemma pairs_start start :
  start = 1 \/ start = 3 ->
  (start, rules_of start) ∈ pairs /\ accepts (rules_of start) = 0 /\
  forall c, c <> "000"%char -> accepts (rderiv c (rules_of start)) <> 0.
Proof.
  intros [->| ->]; (split; [apply (bool_decide_unpack _); by vm_compute|]);
    (split; [by vm_compute|apply start_chars; by vm_compute]).
Qed.

Lemma rules_ordered start : ordered (rules_of start).
Proof. unfold ordered, rules_of. destruct (start =? 3); cbn; repeat constructor. Qed.

(** A call of [scan] in the middle of a script takes the longest match. *)
Lemma scan_longest lx c w fuel :
  at_text lx (c :: w) -> ready lx -> no_NUL (c :: w) ->
  exists act len a b, valid_state a /\ longest (rules_of (yy_start lx)) (c :: w) act len /\
    scan (2 + fuel) L_yy_match (yy_c_buf_p lx) (yy_c_buf_p lx) (yy_start lx) lx =
      Ok (Matched act (yy_c_buf_p lx) (set_c_buf_p (yy_c_buf_p lx + len) (set_last_accepting a b lx))).
Proof.
  intros Ht Hr Hw. destruct (scan_text pairs pairs_checked pairs_start lx c w fuel Ht Hr Hw)
    as (act & cp & a & b & Hm & Ha & _ & Hv & Hs).
  destruct (pairs_start _ (proj2 Hr)) as (_ & H0 & _).
  destruct (munch_longest _ _ _ _ _ (rules_ordered _) H0 Hm Ha) as (len & -> & Hl).
  exists act, len, a, b. split; [exact Hv|]. split; [exact Hl|exact Hs].
Qed.
