(* ===== verification/EdifyGrammar.v ===== *)
(** * The parser implements its grammar

    The automaton of [EdifyParser] as a function of a state and a symbol, the
    validation of its tables, and from it: the parser never leaves its tables or
    stacks, stops on every sequence of tokens, and what it accepts without an error
    is derived by the grammar of [parser.y]. *)

From stdpp Require Import base list strings relations.
From Stdlib Require Import ZArith Lia ZifyBool ZifyNat.
From S2P Require Import Prelude CString Edify EdifyParser.

Open Scope Z_scope.

Lemma Ok_inj {A} (a b : A) : Ok a = Ok b -> a = b.
Proof. by intros [=]. Qed.

(** ** The automaton *)

Inductive action : Set := Shift (s : Z) | Reduce (n : Z) | Accept | Error.

#[export] Instance action_eq_dec : EqDecision action.
Proof. solve_decision. Defined.

Definition lr_default (s : Z) : res action :=
  n ← at_index yydefact s;
  Ok (if n =? 0 then Error else Reduce n).

Definition lr_action (s tok : Z) : res action :=
  n ← at_index yypact s;
  if n =? YYPACT_NINF then lr_default s
  else
    let i := n + tok in
    if (i <? 0) || (YYLAST <? i) then lr_default s
    else
      c ← at_index yycheck i;
      if negb (c =? tok) then lr_default s
      else
        t ← at_index yytable i;
        Ok (if t <=? 0 then if (t =? 0) || (t =? YYTABLE_NINF) then Error else Reduce (- t)
            else if t =? YYFINAL then Accept else Shift t).

(** The state that the error token leads to. *)
Definition lr_error (s : Z) : res (option Z) :=
  n ← at_index yypact s;
  if n =? YYPACT_NINF then Ok None
  else
    let i := n + YYTERROR in
    if (0 <=? i) && (i <=? YYLAST) then
      c ← at_index yycheck i;
      if c =? YYTERROR then
        t ← at_index yytable i;
        Ok (if 0 <? t then Some t else None)
      else Ok None
    else Ok None.

(** ** The grammar *)

(** The symbols. *)
Abbreviation S_error := 1.
Abbreviation S_AND := 3.
Abbreviation S_OR := 4.
Abbreviation S_EQ := 7.
Abbreviation S_NE := 8.
Abbreviation S_IF := 9.
Abbreviation S_THEN := 10.
Abbreviation S_ELSE := 11.
Abbreviation S_ENDIF := 12.
Abbreviation S_STRING := 13.
Abbreviation S_semi := 15.
Abbreviation S_comma := 16.
Abbreviation S_plus := 17.
Abbreviation S_not := 18.
Abbreviation S_lpar := 19.
Abbreviation S_rpar := 20.
Abbreviation S_input := 22.
Abbreviation S_expr := 23.
Abbreviation S_arglist := 24.

(** The rules of [parser.y]: left and right hand sides. *)
Definition rules : list (Z * Z * list Z) :=
  [(2, S_input, [S_expr]); (3, S_expr, [S_STRING]); (4, S_expr, [S_lpar; S_expr; S_rpar]);
   (5, S_expr, [S_expr; S_semi]); (6, S_expr, [S_expr; S_semi; S_expr]);
   (7, S_expr, [S_error; S_semi; S_expr]); (8, S_expr, [S_expr; S_plus; S_expr]);
   (9, S_expr, [S_expr; S_EQ; S_expr]); (10, S_expr, [S_expr; S_NE; S_expr]);
   (11, S_expr, [S_expr; S_AND; S_expr]); (12, S_expr, [S_expr; S_OR; S_expr]);
   (13, S_expr, [S_not; S_expr]); (14, S_expr, [S_IF; S_expr; S_THEN; S_expr; S_ENDIF]);
   (15, S_expr, [S_IF; S_expr; S_THEN; S_expr; S_ELSE; S_expr; S_ENDIF]);
   (16, S_expr, [S_STRING; S_lpar; S_arglist; S_rpar]); (17, S_arglist, []);
   (18, S_arglist, [S_expr]); (19, S_arglist, [S_arglist; S_comma; S_expr])].

Fixpoint find_rule (n : Z) (l : list (Z * Z * list Z)) : option (Z * list Z) :=
  match l with
  | [] => None
  | (m, lhs, rhs) :: l => if n =? m then Some (lhs, rhs) else find_rule n l
  end.

(** ** The validation of the tables *)

(** The states that can be on the stack, and the symbols a token can have. *)
Definition states : list Z := Z.of_nat <$> (seq 0 13 ++ seq 14 25).
Definition symbols : list Z := Z.of_nat <$> (0 :: seq 2 19)%nat.

(** The states in which an expression starts. *)
Definition starts : list Z := [0; 2; 4; 5; 8; 10; 14; 15; 16; 17; 18; 19; 21; 32; 34].

Definition of_res {A} (d : A) (r : res A) : A := match r with Ok a => a | _ => d end.

Definition shifts_from (s : Z) : list (Z * Z) :=
  symbols ≫= (fun tok => match lr_action s tok with Ok (Shift t) => [(s, t)] | _ => [] end).
Definition gotos_from (s : Z) : list (Z * Z) :=
  (if bool_decide (s ∈ starts) then [(s, of_res 0 (yygoto S_expr s))] else []) ++
  (if s =? 0 then [(s, of_res 0 (yygoto S_input s))] else []) ++
  (if s =? 10 then [(s, of_res 0 (yygoto S_arglist s))] else []).
Definition errors_from (s : Z) : list (Z * Z) :=
  match lr_error s with Ok (Some t) => [(s, t)] | _ => [] end.

(** The pairs of states that are one on top of the other. *)
Definition edges : list (Z * Z) :=
  Eval vm_compute in states ≫= (fun s => shifts_from s ++ gotos_from s ++ errors_from s).

Definition edge (s t : Z) : bool := existsb (fun '(a, b) => (a =? s) && (b =? t)) edges.
Definition preds (t : Z) : list Z := fst <$> filter (fun e => snd e =? t) edges.
Definition sym_of (s : Z) : Z := of_res 0 (at_index yystos s).

(** Below any stack with [s] on top that ends with the symbols of [rhs], the last
    first, there is a state from which [lhs] leads to a state it accesses. *)
Fixpoint validate (rhs : list Z) (lhs s : Z) : bool :=
  match rhs with
  | [] =>
      match yygoto lhs s with
      | Ok t => edge s t && (sym_of t =? lhs) && negb (t =? 10)
      | _ => false
      end
  | x :: rhs => (0 <? x) && (sym_of s =? x) && forallb (validate rhs lhs) (preds s)
  end.

Definition valid_reduction (s n : Z) : bool :=
  match find_rule n rules with
  | Some (lhs, rhs) =>
      match at_index yyr1 n, at_index yyr2 n with
      | Ok lhs', Ok len =>
          (lhs =? lhs') && (len =? Z.of_nat (length rhs)) && validate (reverse rhs) lhs s &&
          (negb (n =? 17) || (s =? 10))
      | _, _ => false
      end
  | None => false
  end.

Definition valid_action (s tok : Z) : bool :=
  match lr_action s tok with
  | Ok (Shift t) => edge s t && (sym_of t =? tok) && (0 <? tok)
  | Ok (Reduce n) => valid_reduction s n
  | Ok Accept => (s =? 6) && (tok =? 0)
  | Ok Error =>
      match at_index yypact s with
      | Ok yyn => negb (yyn =? YYPACT_NINF) && is_ok (unexpected_message yyn tok)
      | _ => false
      end
  | _ => false
  end.

Definition valid_error (s : Z) : bool :=
  match lr_error s with
  | Ok (Some t) => edge s t && (t =? 1)
  | Ok None => true
  | _ => false
  end.

Lemma tables_valid :
  forallb (fun s => valid_error s && forallb (valid_action s) symbols) states = true.
Proof. by vm_compute. Qed.

Lemma forallb_elem {A} (f : A -> bool) l x : forallb f l = true -> x ∈ l -> f x = true.
Proof. rewrite forallb_forall. intros H Hx. by apply H, list_elem_of_In. Qed.

Lemma state_valid s :
  s ∈ states -> valid_error s = true /\ forall tok, tok ∈ symbols -> valid_action s tok = true.
Proof.
  intros Hs. pose proof (forallb_elem _ _ s tables_valid Hs) as H. cbn beta in H.
  apply andb_prop in H as [He Ha]. split; [done|]. intros tok Htok. by apply (forallb_elem _ _ _ Ha).
Qed.

Lemma edges_valid :
  forallb (fun '(s, t) => bool_decide (s ∈ states) && bool_decide (t ∈ states)) edges = true.
Proof. by vm_compute. Qed.

Lemma edge_in s t : edge s t = true <-> (s, t) ∈ edges.
Proof.
  unfold edge. rewrite existsb_exists. split.
  - intros ((a & b) & Hin & Heq). rewrite andb_true_iff, !Z.eqb_eq in Heq. destruct Heq as [-> ->].
    by apply list_elem_of_In.
  - intros Hin. exists (s, t). rewrite !Z.eqb_refl. split; [by apply list_elem_of_In|done].
Qed.

Lemma edge_states s t : edge s t = true -> s ∈ states /\ t ∈ states.
Proof.
  intros Hin%edge_in. pose proof (forallb_elem _ _ _ edges_valid Hin) as H. cbn in H.
  by rewrite andb_true_iff, !bool_decide_eq_true in H.
Qed.

Lemma edge_preds s t : edge s t = true -> s ∈ preds t.
Proof.
  intros Hin%edge_in. unfold preds. apply list_elem_of_fmap. exists (s, t). split; [done|].
  apply list_elem_of_filter. split; [|done]. apply Is_true_eq_left. by apply Z.eqb_eq.
Qed.

(** ** Tokens and the look-ahead *)

Definition tok_sym (t : token) : Z := of_res 2 (YYTRANSLATE (tk_char t)).

(** What the parser takes for a token: any code but those of the end and of [error].  A
    code of no symbol is [$undefined] (2) to it, an error like another; a string comes
    with its text.  [EdifyTokens] says which of them the scanner returns. *)
Definition readable_token (t : token) : Prop :=
  0 < tk_char t /\ (exists s, YYTRANSLATE (tk_char t) = Ok s /\ 2 <= s <= 20) /\
  (tok_sym t = S_STRING -> is_Some (tk_str t)).

Definition sym_ahead (toks : list token) : Z :=
  match toks with [] => 0 | t :: _ => tok_sym t end.

Lemma symbols_spec tok : tok ∈ symbols <-> tok = 0 \/ 2 <= tok <= 20.
Proof.
  unfold symbols. rewrite list_elem_of_fmap. split.
  - intros (n & -> & Hn). rewrite elem_of_cons, elem_of_seq in Hn. lia.
  - intros H. exists (Z.to_nat tok). rewrite elem_of_cons, elem_of_seq. lia.
Qed.

Lemma readable_sym t : readable_token t -> 2 <= tok_sym t <= 20.
Proof. intros (_ & (s & Hs & Hr) & _). unfold tok_sym. by rewrite Hs. Qed.

Lemma sym_ahead_readable toks : Forall readable_token toks -> sym_ahead toks ∈ symbols.
Proof.
  intros H. apply symbols_spec. destruct H as [|t toks Ht _]; [by left|]. right. by apply readable_sym.
Qed.

Section grammar.
Context {F : Type} (builtin : Builtin -> F) (functions : registry F).
Local Abbreviation parser := (@parser F).
Local Abbreviation entry := (@entry F).
Local Abbreviation YYSTYPE := (@YYSTYPE F).
Local Abbreviation Expr := (Expr F).
Local Abbreviation yybackup := (yybackup builtin functions).
Local Abbreviation yyreduce := (yyreduce builtin functions).

(** The tokens that are not shifted yet; the first may have been read. *)
Definition loaded (p : parser) (toks : list token) : Prop :=
  match toks with
  | [] => yychar p = YYEOF /\ input p = []
  | t :: rest =>
      yychar p = tk_char t /\ yylloc p = tk_loc t /\ input p = rest /\
      forall s, tk_str t = Some s -> yylval p = Str s
  end.
Definition ahead (p : parser) (toks : list token) : Prop :=
  (yychar p = YYEMPTY /\ input p = toks) \/ loaded p toks.

(** What reading a token does not change. *)
Definition same (p p' : parser) : Prop :=
  stack p' = stack p /\ yystacksize p' = yystacksize p /\ yyerrstatus p' = yyerrstatus p /\
  root p' = root p /\ error_count p' = error_count p.

Lemma yylookahead_spec p toks :
  ahead p toks -> Forall readable_token toks ->
  exists p', yylookahead p = Ok p' /\ same p p' /\ loaded p' toks /\ yytoken p' = sym_ahead toks.
Proof.
  intros Hp Hv. unfold yylookahead.
  set (p1 := if yychar p =? YYEMPTY then read_token p else p).
  assert (same p p1 /\ loaded p1 toks) as [Hsame Hload].
  { unfold p1. destruct Hp as [[-> <-]|Hp].
    - change (YYEMPTY =? YYEMPTY) with true. cbv iota. unfold read_token, loaded, same.
      destruct (input p) as [|t rest] eqn:Hi; [by destruct (at_end p) as [[loc line] column]|cbn]. split_and!; try done. by intros s ->.
    - destruct (Z.eqb_spec (yychar p) YYEMPTY) as [He|He]; [|done].
      destruct toks as [|t rest]; cbn in Hp; [destruct Hp as [Hp _]; rewrite Hp in He; done|].
      apply Forall_cons in Hv as [(Hpos & _) _]. destruct Hp as [Hp _]. unfold YYEMPTY in He. lia. }
  destruct Hv as [|t toks Ht Hv].
  - destruct Hload as [Hc Hi]. rewrite Hc. change (YYEOF <=? YYEOF) with true. cbv iota.
    eexists. split; [done|]. split; [done|]. by split.
  - destruct Hload as (Hc & Hl & Hi & Hs). destruct Ht as (Hpos & (s & Htr & Hr) & Hstr).
    rewrite Hc. rewrite (proj2 (Z.leb_gt _ _)) by (unfold YYEOF; lia). rewrite Htr. cbn [mbind res_bind].
    eexists. split; [done|]. split; [done|]. split; [done|]. cbn. unfold tok_sym. by rewrite Htr.
Qed.

(** The status after a token is shifted. *)
Definition shifted (p : parser) : parser :=
  if yyerrstatus p =? 0 then p else set_yyerrstatus (yyerrstatus p - 1) p.

(** One action of the automaton. *)
Lemma yybackup_spec p toks a :
  ahead p toks -> Forall readable_token toks -> yystate (stack p) ∈ states ->
  lr_action (yystate (stack p)) (sym_ahead toks) = Ok a ->
  exists p',
  match a with
  | Reduce n => same p p' /\ ahead p' toks /\ yybackup p = yyreduce n p'
  | Error => same p p' /\ loaded p' toks /\ yybackup p = yyerrlab p'
  | Accept => same p p' /\ loaded p' toks /\ yybackup p = Ok (Returned 0 p')
  | Shift s =>
      match toks with
      | [] => True
      | t :: rest => exists v,
          same (shifted p) p' /\ ahead p' rest /\
          yybackup p = push (mkEntry s v (tk_loc t)) (stack p) p' /\
          forall str, tk_str t = Some str -> v = Str str
      end
  end.
Proof.
  intros Hp Hv Hs Ha. destruct (state_valid _ Hs) as [_ Hvalid].
  specialize (Hvalid _ (sym_ahead_readable _ Hv)). unfold valid_action in Hvalid. rewrite Ha in Hvalid.
  set (s := yystate (stack p)) in *. unfold EdifyParser.yybackup. fold s.
  unfold lr_action in Ha. destruct (at_index yypact s) as [n| |] eqn:Hn; cbn [mbind res_bind] in Ha; [|done..].
  destruct (n =? YYPACT_NINF) eqn:Hninf; cbn [mbind res_bind].
  { rewrite Hninf. unfold EdifyParser.yydefault. fold s. unfold lr_default in Ha.
    destruct (at_index yydefact s) as [d| |]; cbn [mbind res_bind] in *; [|done..].
    destruct (d =? 0); injection Ha as <-; [done|]. exists p. by split_and!. }
  rewrite Hninf. destruct (yylookahead_spec p toks Hp Hv) as (p' & -> & Hsame & Hload & Htok).
  cbn [mbind res_bind]. rewrite Htok. set (i := n + sym_ahead toks) in *.
  assert (stack p' = stack p) as Hstack by apply Hsame.
  assert (lr_default s = Ok a -> exists p'',
    match a with
    | Reduce n => same p p'' /\ ahead p'' toks /\ yydefault builtin functions p' = yyreduce n p''
    | Error => same p p'' /\ loaded p'' toks /\ yydefault builtin functions p' = yyerrlab p''
    | Accept => same p p'' /\ loaded p'' toks /\ yydefault builtin functions p' = Ok (Returned 0 p'')
    | Shift s => False
    end) as Hdefault.
  { intros Hd. exists p'. unfold EdifyParser.yydefault. rewrite Hstack. fold s. unfold lr_default in Hd.
    destruct (at_index yydefact s) as [d| |]; cbn [mbind res_bind] in *; [|done..].
    destruct (d =? 0); injection Hd as <-; (split; [done|split; [(done || by right)|done]]). }
  destruct ((i <? 0) || (YYLAST <? i)).
  { destruct (Hdefault Ha) as (p'' & H). exists p''. by destruct a. }
  destruct (at_index yycheck i) as [c| |]; cbn [mbind res_bind] in *; [|done..].
  destruct (negb (c =? sym_ahead toks)).
  { destruct (Hdefault Ha) as (p'' & H). exists p''. by destruct a. }
  destruct (at_index yytable i) as [t| |]; cbn [mbind res_bind] in *; [|done..].
  injection Ha as <-. destruct (t <=? 0) eqn:Ht0.
  { exists p'. destruct ((t =? 0) || (t =? YYTABLE_NINF)); (split; [done|split; [(done || by right)|done]]). }
  destruct (t =? YYFINAL) eqn:Hfin; [by exists p'|].
  destruct toks as [|tk rest]; [done|]. cbn in Hload. destruct Hload as (Hc & Hl & Hi & Hstr).
  destruct (Forall_inv Hv) as (Hpos & _).
  assert ((yychar p' =? YYEOF) = false) as Hne by (rewrite Hc; apply Z.eqb_neq; unfold YYEOF; lia).
  destruct Hsame as (H1 & H2 & H3 & H4 & H5). unfold shifted. rewrite H3.
  exists (set_yychar YYEMPTY (if yyerrstatus p =? 0 then p' else set_yyerrstatus (yyerrstatus p - 1) p')), (yylval p').
  destruct (yyerrstatus p =? 0); cbn; rewrite Hne, ?Hl;
    (split; [by unfold same|split; [by left|split; [cbn; by rewrite H1|done]]]).
Qed.

(** *** The derivations of the grammar *)

(** The range of some tokens. *)
Definition span (toks : list token) : YYLTYPE :=
  mkLoc (match toks with [] => 0 | t :: _ => loc_start (tk_loc t) end)
        (match last toks with None => 0 | Some t => loc_end (tk_loc t) end).

Arguments span : simpl never.

(** The function behind an operator. *)
Definition operator_of (sym : Z) : option Builtin :=
  if sym =? S_semi then Some Fn_Sequence
  else if sym =? S_plus then Some Fn_Concat
  else if sym =? S_EQ then Some Fn_Equality
  else if sym =? S_NE then Some Fn_Inequality
  else if sym =? S_AND then Some Fn_LogicalAnd
  else if sym =? S_OR then Some Fn_LogicalOr
  else None.

(** The tokens and the tree of an expression, of an argument list: the rules of
    [parser.y] without the one for errors.  A separator before the first argument
    is accepted. *)
Inductive derives : list token -> Expr -> Prop :=
  | derives_literal t s :
      tok_sym t = S_STRING -> tk_str t = Some s ->
      derives [t] (mkExpr (builtin Fn_Literal) s [] (loc_start (span [t])) (loc_end (span [t])))
  | derives_paren l toks r e :
      tok_sym l = S_lpar -> tok_sym r = S_rpar -> derives toks e ->
      derives (l :: toks ++ [r]) (set_range (span (l :: toks ++ [r])) e)
  | derives_end toks t e :
      tok_sym t = S_semi -> derives toks e ->
      derives (toks ++ [t]) (set_range (span toks) e)
  | derives_operator toks1 t toks2 f e1 e2 :
      operator_of (tok_sym t) = Some f -> derives toks1 e1 -> derives toks2 e2 ->
      derives (toks1 ++ t :: toks2) (operator builtin f (span (toks1 ++ t :: toks2)) [e1; e2])
  | derives_not t toks e :
      tok_sym t = S_not -> derives toks e ->
      derives (t :: toks) (operator builtin Fn_LogicalNot (span (t :: toks)) [e])
  | derives_if t1 toks1 t2 toks2 t3 e1 e2 :
      tok_sym t1 = S_IF -> tok_sym t2 = S_THEN -> tok_sym t3 = S_ENDIF ->
      derives toks1 e1 -> derives toks2 e2 ->
      derives (t1 :: toks1 ++ t2 :: toks2 ++ [t3])
        (operator builtin Fn_IfElse (span (t1 :: toks1 ++ t2 :: toks2 ++ [t3])) [e1; e2])
  | derives_ifelse t1 toks1 t2 toks2 t3 toks3 t4 e1 e2 e3 :
      tok_sym t1 = S_IF -> tok_sym t2 = S_THEN -> tok_sym t3 = S_ELSE -> tok_sym t4 = S_ENDIF ->
      derives toks1 e1 -> derives toks2 e2 -> derives toks3 e3 ->
      derives (t1 :: toks1 ++ t2 :: toks2 ++ t3 :: toks3 ++ [t4])
        (operator builtin Fn_IfElse (span (t1 :: toks1 ++ t2 :: toks2 ++ t3 :: toks3 ++ [t4])) [e1; e2; e3])
  | derives_call t s f l toks r argv :
      tok_sym t = S_STRING -> tk_str t = Some s -> tok_sym l = S_lpar -> tok_sym r = S_rpar ->
      FindFunction s functions = Ok (Some f) -> derives_args toks argv ->
      derives (t :: l :: toks ++ [r])
        (mkExpr f s argv (loc_start (span (t :: l :: toks ++ [r]))) (loc_end (span (t :: l :: toks ++ [r]))))
with derives_args : list token -> list Expr -> Prop :=
  | derives_none : derives_args [] []
  | derives_first toks e : derives toks e -> derives_args toks [e]
  | derives_more toks argv t toks' e :
      tok_sym t = S_comma -> derives_args toks argv -> derives toks' e ->
      derives_args (toks ++ t :: toks') (argv ++ [e]).

(** What a symbol on the stack stands for. *)
Definition denotes (sym : Z) (toks : list token) (v : YYSTYPE) (l : YYLTYPE) : Prop :=
  if sym =? S_error then False
  else if (sym =? S_expr) || (sym =? S_input) then exists e, v = Tree e /\ derives toks e /\ l = span toks
  else if sym =? S_arglist then exists argv, v = Args argv /\ derives_args toks argv
  else exists t, toks = [t] /\ tok_sym t = sym /\ l = span [t] /\
    (forall s, tk_str t = Some s -> v = Str s) /\ (sym = S_STRING -> is_Some (tk_str t)).

Inductive spells : list entry -> list token -> Prop :=
  | spells_nil : spells [] []
  | spells_cons e stack done toks :
      spells stack done -> denotes (sym_of (ss e)) toks (vs e) (ls e) ->
      spells (e :: stack) (done ++ toks).

Lemma derives_nonempty toks e : derives toks e -> toks <> [].
Proof. induction 1; by (done || destruct toks || destruct toks1). Qed.

Lemma span_ends a m b :
  a <> [] -> b <> [] -> span (a ++ m ++ b) = mkLoc (loc_start (span a)) (loc_end (span b)).
Proof.
  intros Ha Hb. unfold span. f_equal; [by destruct a|].
  rewrite app_assoc, last_app. destruct (last b) eqn:Hl; [done|]. by apply last_None in Hl.
Qed.

Ltac nonempty := first [done | by eapply derives_nonempty].

(** *** The semantic actions *)

Definition entry_sym (e : entry) : Z := sym_of (ss e).
Definition entry_denotes (e : entry) (toks : list token) : Prop := denotes (entry_sym e) toks (vs e) (ls e).

(** The rule found, with the entries and segments of its right hand side. *)
Ltac rule_cases :=
  repeat match goal with
  | H : (if ?n =? ?k then Some _ else _) = Some _ |- _ =>
      destruct (Z.eqb_spec n k) as [->|_]; [injection H as <- <-|]
  | H : None = Some _ |- _ => discriminate H
  | H : entry_sym <$> ?rhs = [] |- _ => destruct rhs; [clear H|discriminate H]
  | H : entry_sym <$> ?rhs = _ :: _ |- _ =>
      let e := fresh "e" in let He := fresh "He" in
      destruct rhs as [|e rhs]; [discriminate H|]; rewrite fmap_cons in H; injection H as He H
  | H : Forall2 entry_denotes [] _ |- _ => apply Forall2_nil_inv_l in H as ->
  | H : Forall2 entry_denotes (_ :: _) _ |- _ =>
      let seg := fresh "seg" in let Hd := fresh "Hd" in
      apply Forall2_cons_inv_l in H as (seg & ? & Hd & H & ->)
  end.

(** The entries of the right hand side, with their values and locations. *)
Ltac open_entries :=
  repeat match goal with
  | Hd : entry_denotes ?e _, He : entry_sym ?e = _ |- _ =>
      let s := fresh "s" in let v := fresh "v" in let l := fresh "l" in
      unfold entry_denotes in Hd; rewrite He in Hd; clear He; destruct e as [s v l];
      cbn [denotes Z.eqb orb vs ls] in Hd; cbv iota in Hd
  | H : denotes _ _ _ _ |- _ => unfold denotes in H; cbn [Z.eqb Pos.eqb orb] in H
  | H : False |- _ => destruct H
  | H : exists _, _ |- _ => destruct H as (? & H)
  | H : _ /\ _ |- _ => destruct H
  | H : ?s = S_STRING -> is_Some _ |- _ =>
      first [specialize (H eq_refl); destruct H as (? & H) | clear H]
  | H : forall s, ?o = Some s -> ?v = Str s, Ho : ?o = Some _ |- _ => specialize (H _ Ho)
  end; subst.

Lemma action_derives n lhs syms stk rhs segs yyloc r :
  find_rule n rules = Some (lhs, syms) -> entry_sym <$> rhs = syms -> Forall2 entry_denotes rhs segs ->
  default_loc stk rhs = Ok yyloc ->
  yyaction builtin functions n (default_value rhs) yyloc rhs = Ok r ->
  match r with
  | Value v => denotes lhs (concat segs) v yyloc
  | Accepted e v => denotes lhs (concat segs) v yyloc /\ derives (concat segs) e
  | Raised _ => True
  end.
Proof.
  intros Hn Hsyms Hsegs Hloc Hact. cbn [find_rule rules] in Hn. rule_cases; open_entries;
    unfold yyaction, binary_action, rhs_tree, rhs_str, rhs_args, rhs_loc, rhs_entry in Hact;
    cbn -[span FindFunction] in Hact; cbn -[span] in Hloc; try (apply Ok_inj in Hloc as <-); cbn [concat]; rewrite ?app_nil_r.
  all: try match type of Hact with context [FindFunction ?s ?t] =>
         destruct (FindFunction s t) as [[]| |] eqn:Hfind; cbn -[span] in Hact; try done end.
  all: apply Ok_inj in Hact as <-.
  5-10: match goal with H : tok_sym ?t = _ |- denotes _ (?a ++ [?t] ++ ?b) _ _ =>
    rewrite <- (span_ends a [t] b) by nonempty; eexists; (split; [reflexivity|]); (split; [|done]);
    apply derives_operator; [unfold operator_of; by rewrite H|done..] end.
  - split; [|done]. unfold denotes. cbn [Z.eqb Pos.eqb orb]. by eexists.
  - eexists. split; [reflexivity|]. split; [by apply derives_literal|done].
  - rewrite <- (span_ends [x1] seg0 [x]) by nonempty. eexists. split; [reflexivity|]. split; [by apply derives_paren|done].
  - rewrite <- (span_ends seg [] [x]) by nonempty. eexists. split; [reflexivity|]. split; [by apply derives_end|done].
  - rewrite <- (span_ends [x0] [] seg0) by nonempty. eexists. split; [reflexivity|]. split; [by apply derives_not|done].
  - rewrite <- (span_ends [x3] (seg0 ++ [x1] ++ seg2) [x]), <- !app_assoc by nonempty.
    eexists. split; [reflexivity|]. split; [by apply derives_if|done].
  - rewrite <- (span_ends [x5] (seg0 ++ [x3] ++ seg2 ++ [x1] ++ seg4) [x]), <- !app_assoc by nonempty.
    eexists. split; [reflexivity|]. split; [by apply derives_ifelse|done].
  - pose proof (span_ends [x2] ([x1] ++ seg1) [x]) as Hspan. rewrite <- !app_assoc in Hspan.
    pose proof (derives_call x2 x3 f x1 seg1 x x0) as Hcall. cbn [app] in Hspan. rewrite Hspan in Hcall by nonempty.
    cbn [loc_start loc_end] in Hcall. cbn [app]. eexists. split; [reflexivity|]. split; [by apply Hcall|].
    by rewrite Hspan by nonempty.
  - done.
  - eexists. split; [reflexivity|]. apply derives_none.
  - eexists. split; [reflexivity|]. by apply derives_first.
  - eexists. split; [reflexivity|]. by apply derives_more.
Qed.

(** ** Safety *)

(** The functions were registered, under different names, and sorted. *)
Context (Hregistered : registered functions).

Lemma functions_total name : exists f, FindFunction name functions = Ok f.
Proof. apply FindFunction_total, Hregistered. Qed.

(** The member of the union that is set for a symbol. *)
Definition value_ok (sym : Z) (v : YYSTYPE) : Prop :=
  if sym =? S_STRING then exists s, v = Str s
  else if sym =? S_expr then exists e, v = Tree e
  else if sym =? S_arglist then exists argv, v = Args argv
  else True.
Definition entry_ok (e : entry) : Prop := value_ok (entry_sym e) (vs e).

(** A stack as the automaton makes it. *)
Fixpoint linked (stack : list entry) : Prop :=
  match stack with
  | [] => True
  | e :: rest => edge (yystate rest) (ss e) = true /\ entry_ok e /\ linked rest
  end.

Lemma linked_state stack : linked stack -> yystate stack ∈ states.
Proof.
  destruct stack as [|e rest]; cbn [linked yystate].
  - intros _. apply (bool_decide_eq_true_1 (0 ∈ states)). by vm_compute.
  - intros [He _]. by apply edge_states in He as [_ He].
Qed.

Lemma linked_app top rest : linked (top ++ rest) -> linked rest.
Proof. induction top as [|e top IH]; [done|]. cbn. intros (_ & _ & H). by apply IH. Qed.

Lemma action_typed n lhs syms rhs yyloc :
  find_rule n rules = Some (lhs, syms) -> entry_sym <$> rhs = syms -> Forall entry_ok rhs ->
  exists r, yyaction builtin functions n (default_value rhs) yyloc rhs = Ok r /\
    match r with
    | Value v => value_ok lhs v
    | Accepted _ v => value_ok lhs v
    | Raised _ => n = 16
    end.
Proof.
  intros Hn Hsyms Hok. cbn [find_rule rules] in Hn. rule_cases.
  all: repeat match goal with
    | H : Forall entry_ok (_ :: _) |- _ => apply Forall_cons in H as [? H]
    | H : entry_ok ?e, He : entry_sym ?e = _ |- _ =>
        unfold entry_ok in H; rewrite He in H; unfold value_ok in H; cbn [Z.eqb Pos.eqb] in H
    | H : exists _, vs _ = _ |- _ => destruct H as (? & H)
    end.
  all: unfold yyaction, binary_action, rhs_tree, rhs_str, rhs_args, rhs_loc, rhs_entry; cbn -[FindFunction].
  all: repeat match goal with H : vs ?e = _ |- context [vs ?e] => rewrite H; cbn -[FindFunction] end.
  all: try match goal with |- context [FindFunction ?s ?t] =>
    let Hf := fresh "Hf" in destruct (functions_total s) as ([f|] & Hf); rewrite Hf; cbn end.
  all: eexists; (split; [reflexivity|]); try done; unfold value_ok; cbn; by eexists.
Qed.

(** *** Reductions *)

(** The entries on top that a rule takes. *)
Lemma validate_sound rhs lhs stack :
  linked stack -> validate rhs lhs (yystate stack) = true ->
  exists top rest, stack = top ++ rest /\ entry_sym <$> top = rhs /\ Forall entry_ok top /\ linked rest /\
    exists t, yygoto lhs (yystate rest) = Ok t /\ edge (yystate rest) t = true /\ sym_of t = lhs /\ t <> 10.
Proof.
  revert stack. induction rhs as [|x rhs IH]; intros stack Hl; cbn [validate].
  - destruct (yygoto lhs (yystate stack)) as [t| |] eqn:Hgoto; [|done..].
    intros H. rewrite !andb_true_iff, negb_true_iff, Z.eqb_eq, Z.eqb_neq in H. destruct H as [[He Hs] Ht].
    exists [], stack. split_and!; try done. by exists t.
  - rewrite !andb_true_iff, Z.ltb_lt, Z.eqb_eq. intros [[Hx Hs] Hp].
    destruct stack as [|e rest]; [subst x; by vm_compute in Hx|]. destruct Hl as (He & Hok & Hl).
    cbn [yystate] in *. apply edge_preds in He.
    destruct (IH rest Hl (forallb_elem _ _ _ Hp He)) as (top & rest' & -> & Htop & Hall & Hrest & Hgoto).
    exists (e :: top), rest'. split_and!; try done.
    + rewrite fmap_cons, Htop. by rewrite <- Hs.
    + by constructor.
Qed.

(** *** Error recovery *)

Lemma recover_unfold (stack : list entry) n0 :
  recover stack n0 =
  r ← lr_error (yystate stack);
  match r, stack with
  | Some t, _ => Ok (Some (t, stack, n0))
  | None, [] => Ok None
  | None, e :: rest => recover rest (loc_start (ls e))
  end.
Proof.
  destruct stack as [|e rest]; cbn [recover]; unfold lr_error.
  all: destruct (at_index yypact _) as [n| |]; cbn [mbind res_bind]; [|done..].
  all: destruct (n =? YYPACT_NINF); [done|].
  all: destruct ((0 <=? n + YYTERROR) && (n + YYTERROR <=? YYLAST)); [|done].
  all: destruct (at_index yycheck _) as [c| |]; cbn [mbind res_bind]; [|done..].
  all: destruct (c =? YYTERROR); [|done].
  all: destruct (at_index yytable _) as [t| |]; cbn [mbind res_bind]; [|done..].
  all: by destruct (0 <? t).
Qed.

Lemma recover_spec stack0 n0 :
  linked stack0 ->
  exists r, recover stack0 n0 = Ok r /\
    match r with
    | None => True
    | Some (t, rest, _) =>
        t = 1 /\ edge (yystate rest) t = true /\ linked rest /\ exists top, stack0 = top ++ rest
    end.
Proof.
  revert n0. induction stack0 as [|e rest IH]; intros n0 Hl; rewrite recover_unfold.
  all: destruct (state_valid _ (linked_state _ Hl)) as [Hv _]; unfold valid_error in Hv.
  all: destruct (lr_error _) as [[t|]| |]; cbn [mbind res_bind]; try done.
  all: try (apply andb_true_iff in Hv as [He Ht%Z.eqb_eq]; eexists; split; [reflexivity|];
            split_and!; [done|done|done|by exists []]).
  - by exists None.
  - destruct (IH (loc_start (ls e)) (proj2 (proj2 Hl))) as (r & Hr & Hspec). exists r. split; [done|].
    destruct r as [[[t rest'] n]|]; [|done]. destruct Hspec as (? & ? & ? & top & ->).
    split_and!; try done. by exists (e :: top).
Qed.

(** *** One step *)

(** The capacity of the stacks, with the bottom entry. *)
Definition roomy (p : parser) : Prop :=
  YYINITDEPTH <= yystacksize p <= YYMAXDEPTH /\ Z.of_nat (length (stack p)) + 1 < yystacksize p.

Definition weight (sym : Z) : Z := if sym =? S_STRING then 3 else if sym =? S_expr then 2 else 1.
Definition stack_weight (stack : list entry) : Z := foldr (fun e n => weight (entry_sym e) + n) 0 stack.

(** A bound on the steps that are left. *)
Definition measure (p : parser) (toks : list token) : Z :=
  6 * Z.of_nat (length toks) + stack_weight (stack p) +
  (if yystate (stack p) =? 10 then 2 else 0) + (if yyerrstatus p =? 3 then 0 else 2).

Lemma weight_range sym : 1 <= weight sym <= 3.
Proof. unfold weight. destruct (sym =? S_STRING), (sym =? S_expr); lia. Qed.

Lemma stack_weight_app a b : stack_weight (a ++ b) = stack_weight a + stack_weight b.
Proof. unfold stack_weight. induction a as [|e a IH]; cbn in *; lia. Qed.

Lemma stack_weight_nonneg a : 0 <= stack_weight a.
Proof. unfold stack_weight. induction a as [|e a IH]; cbn in *; [lia|]. pose proof (weight_range (entry_sym e)). lia. Qed.

Lemma stack_weight_syms a : stack_weight a = foldr (fun x n => weight x + n) 0 (entry_sym <$> a).
Proof. unfold stack_weight. induction a as [|e a IH]; [done|]. cbn in *. by rewrite <- IH. Qed.

(** The error token is pushed on what is left of a stack [below]. *)
Lemma yyerrlab1_spec p n :
  roomy p -> linked (stack p) ->
  exists o, yyerrlab1 n p = Ok o /\
    match o with
    | Returned r p' => r = 1 /\ error_count p' = error_count p
    | Running p' =>
        exists v l rest, stack p' = mkEntry 1 v l :: rest /\ linked (stack p') /\
        (exists top, stack p = top ++ rest) /\
        yyerrstatus p' = 3 /\ error_count p' = error_count p /\ yystacksize p' = yystacksize p /\
        forall toks, ahead p toks -> ahead p' toks
    end.
Proof.
  intros [Hsize Hroom] Hl. unfold yyerrlab1. cbn [set_yyerrstatus stack yylloc yylval].
  destruct (recover_spec (stack p) n Hl) as (r & -> & Hr). cbn [mbind res_bind].
  destruct r as [[[t rest] n']|]; [|by eexists]. destruct Hr as (-> & He & Hrest & top & Hstack).
  change (1 =? YYFINAL) with false. cbv iota. unfold push. cbn [yystacksize set_yyerrstatus].
  rewrite Hstack, length_app in Hroom. rewrite (proj2 (Z.ltb_lt _ _)) by lia.
  eexists. split; [done|]. do 3 eexists. cbn [set_stack stack]. split; [done|]. split; [|split; [by exists top|done]].
  split_and!; try done.
Qed.

(** A reduction that raised no error. *)
Definition reduced (p p' : parser) : Prop :=
  exists n lhs syms rhs below yyloc t v act,
    find_rule n rules = Some (lhs, syms) /\ stack p = reverse rhs ++ below /\ entry_sym <$> rhs = syms /\
    default_loc below rhs = Ok yyloc /\ yyaction builtin functions n (default_value rhs) yyloc rhs = Ok act /\
    stack p' = mkEntry t v yyloc :: below /\ sym_of t = lhs /\
    (act = Value v /\ root p' = root p \/ exists e, act = Accepted e v /\ root p' = Some e).

Lemma rule_weight n lhs syms :
  find_rule n rules = Some (lhs, syms) -> n <> 17 -> weight lhs < foldr (fun x n => weight x + n) 0 syms.
Proof.
  intros Hn Hne. cbn [find_rule rules] in Hn.
  repeat match goal with
  | H : (if ?n =? ?k then Some _ else _) = Some _ |- _ =>
      destruct (Z.eqb_spec n k) as [->|_]; [by injection H as <- <-|]
  end. done.
Qed.

Lemma foldr_weight_reverse syms :
  foldr (fun x n => weight x + n) 0 (reverse syms) = foldr (fun x n => weight x + n) 0 syms.
Proof.
  induction syms as [|x syms IH]; [done|]. rewrite reverse_cons. cbn. rewrite <- IH.
  generalize (reverse syms). intros l. induction l as [|y l IHl]; cbn; lia.
Qed.

Lemma rule_reverse_nil n lhs syms : find_rule n rules = Some (lhs, syms) -> reverse syms = [] -> n = 17.
Proof.
  intros Hn Hnil. destruct (decide (n = 17)); [done|]. pose proof (rule_weight _ _ _ Hn) as Hw.
  rewrite <- foldr_weight_reverse, Hnil in Hw. cbn in Hw. pose proof (weight_range lhs). lia.
Qed.

Lemma default_loc_ok (stack rhs : list entry) : stack ++ rhs <> [] -> exists l, default_loc stack rhs = Ok l.
Proof.
  unfold default_loc. destruct rhs as [|e rhs].
  - destruct stack as [|e stack]; [done|]. intros _. by eexists.
  - intros _. rewrite last_cons. destruct (last rhs); by eexists.
Qed.

Lemma push_ok (e : entry) (below : list entry) p :
  Z.of_nat (length below) + 1 < yystacksize p -> push e below p = Ok (Running (set_stack (e :: below) p)).
Proof. intros H. unfold push. by rewrite (proj2 (Z.ltb_lt _ _)). Qed.

Lemma raised_rule n lhs syms :
  find_rule n rules = Some (lhs, syms) -> n = 16 -> syms = [S_STRING; S_lpar; S_arglist; S_rpar].
Proof. intros Hn ->. by injection Hn as <- <-. Qed.

(** What every step that goes on keeps. *)
Definition progress (p p' : parser) : Prop :=
  linked (stack p') /\ yystacksize p' = yystacksize p /\ (length (stack p') <= S (length (stack p)))%nat /\
  forall toks, ahead p toks -> ahead p' toks /\ measure p' toks < measure p toks.

Lemma yyreduce_spec p n :
  roomy p -> linked (stack p) -> valid_reduction (yystate (stack p)) n = true ->
  exists o, yyreduce n p = Ok o /\
    match o with
    | Returned r p' => r = 1 /\ error_count p' = error_count p + 1
    | Running p' =>
        progress p p' /\
        (error_count p' = error_count p + 1 \/
         error_count p' = error_count p /\ yyerrstatus p' = yyerrstatus p /\ reduced p p')
    end.
Proof.
  intros Hroom Hl Hvalid. unfold valid_reduction in Hvalid.
  destruct (find_rule n rules) as [[lhs syms]|] eqn:Hrule; [|done].
  destruct (at_index yyr1 n) as [lhs'| |] eqn:Hr1; [|done..].
  destruct (at_index yyr2 n) as [len| |] eqn:Hr2; [|done..].
  rewrite !andb_true_iff, !Z.eqb_eq in Hvalid. destruct Hvalid as [[[<- ->] Hval] H17].
  destruct (validate_sound _ _ _ Hl Hval) as (top & below & Hstack & Htop & Hok & Hbelow & t & Hgoto & Hedge & Ht & Ht10).
  assert (length top = length syms) as Hlen by (rewrite <- (length_reverse syms), <- Htop; by rewrite length_fmap).
  unfold EdifyParser.yyreduce. rewrite Hr2. cbn [mbind res_bind]. rewrite Nat2Z.id, Hstack, take_app_length', drop_app_length', length_app by done.
  rewrite (proj2 (Z.ltb_ge _ _)) by lia.
  assert (entry_sym <$> reverse top = syms) as Hsyms by (by rewrite fmap_reverse, Htop, reverse_involutive).
  destruct (default_loc_ok below (reverse top)) as (yyloc & Hloc).
  { intros [-> Hnil]%app_eq_nil. rewrite Hnil in Hsyms. subst syms.
    pose proof (rule_reverse_nil _ _ _ Hrule eq_refl) as ->. apply (f_equal reverse) in Hnil.
    rewrite reverse_involutive in Hnil. subst top. rewrite Hstack in H17. done. }
  rewrite Hloc. cbn [mbind res_bind].
  destruct (action_typed n lhs syms (reverse top) yyloc Hrule Hsyms) as (act & Hact & Htyped).
  { by rewrite Forall_reverse. }
  rewrite Hact. cbn [mbind res_bind]. destruct Hroom as [Hsize Hroom]. rewrite Hstack, length_app in Hroom.
  assert (forall v p1, value_ok lhs v -> stack p1 = mkEntry t v yyloc :: below -> yystacksize p1 = yystacksize p ->
    yyerrstatus p1 = yyerrstatus p -> (forall toks, ahead p toks -> ahead p1 toks) -> progress p p1) as Hprogress.
  { intros v p1 Hv Hp1 Hs1 He1 Ha1. unfold progress. rewrite Hp1, Hstack. split_and!.
    - cbn [linked ss yystate]. split; [done|]. split; [|done]. unfold entry_ok, entry_sym. cbn [ss vs]. by rewrite Ht.
    - done.
    - cbn [length]. rewrite length_app. lia.
    - intros toks Htoks. split; [by apply Ha1|]. unfold measure. rewrite Hp1, He1. cbn [yystate ss].
      rewrite (proj2 (Z.eqb_neq t 10)) by done. rewrite Hstack, stack_weight_app.
      pose proof (stack_weight_syms top) as Hw. rewrite Htop, foldr_weight_reverse in Hw.
      change (stack_weight (mkEntry t v yyloc :: below)) with (weight (sym_of t) + stack_weight below). rewrite Ht, Hw.
      destruct (Z.eqb_spec n 17) as [->|Hn].
      + cbn in H17. injection Hrule as <- <-. apply Z.eqb_eq in H17. rewrite Hstack in H17. rewrite H17. cbn. lia.
      + pose proof (rule_weight _ _ _ Hrule Hn). destruct (yystate (top ++ below) =? 10); lia. }
  destruct act as [v|e v|message].
  - rewrite Hr1. cbn [mbind res_bind]. rewrite Hgoto. cbn [mbind res_bind].
    rewrite push_ok by lia. eexists. split; [done|]. split; [by eapply Hprogress|]. right. split_and!; [done|done|].
    exists n, lhs, syms, (reverse top), below, yyloc, t, v, (Value v). rewrite reverse_involutive.
    split_and!; try done. by left.
  - rewrite Hr1. cbn [mbind res_bind]. rewrite Hgoto. cbn [mbind res_bind].
    rewrite push_ok by (cbn; lia). eexists. split; [done|]. split; [by eapply Hprogress|]. right. split_and!; [done|done|].
    exists n, lhs, syms, (reverse top), below, yyloc, t, v, (Accepted e v). rewrite reverse_involutive.
    split_and!; try done. right. by exists e.
  - pose proof (raised_rule _ _ _ Hrule Htyped) as Hsyms16. rewrite Hsyms16 in Hlen, Htop. cbn in Hlen.
    assert (exists first, rhs_loc (reverse top) 1 = Ok first) as (first & ->).
    { destruct (reverse top) as [|e rhs]; [by rewrite Hsyms16 in Hsyms|]. by eexists. }
    cbn [mbind res_bind].
    destruct (yyerrlab1_spec (set_stack below (yyerror message p)) (loc_start first)) as (o & -> & Ho); [by split; cbn; lia|done|].
    exists o. split; [done|]. destruct o as [p1|r p1]; [|by cbn in Ho].
    destruct Ho as (v & l & rest & Hst & Hlink & (top' & Htop') & Herr & Hcount & Hss & Hahead).
    cbn in Htop', Hcount, Hss. split; [|by left]. unfold progress. split_and!; [done|done| |].
    + rewrite Hst, Hstack, Htop'. cbn [length]. rewrite !length_app. lia.
    + intros toks Htoks. split; [by apply Hahead|]. unfold measure. rewrite Hst, Herr, Hstack. cbn [yystate ss Z.eqb Pos.eqb].
      rewrite stack_weight_app, (stack_weight_syms top), Htop.
      change (stack_weight (mkEntry 1 v l :: rest)) with (weight S_error + stack_weight rest).
      rewrite Htop', stack_weight_app. pose proof (stack_weight_nonneg top').
      change (foldr _ 0 (reverse _)) with 6. change (weight S_error) with 1.
      repeat case_match; lia.
Qed.

Lemma loaded_char p toks :
  loaded p toks -> Forall readable_token toks ->
  YYTRANSLATE (yychar p) = Ok (sym_ahead toks) /\
  match toks with [] => yychar p = YYEOF | _ => YYEOF < yychar p end.
Proof.
  intros Hl Hv. destruct Hv as [|t toks Ht _]; cbn in Hl.
  - destruct Hl as [-> _]. by split.
  - destruct Hl as [-> _]. destruct Ht as (Hpos & (s & Hs & _) & _). split; [|done].
    unfold sym_ahead, tok_sym. by rewrite Hs.
Qed.

(** The error is reported, unless the parser still recovers from another. *)
Definition report (p p' : parser) : Prop :=
  error_count p <= error_count p' /\ (yyerrstatus p = 0 -> error_count p' = error_count p + 1).

Lemma yyerrlab_spec p toks :
  roomy p -> linked (stack p) -> loaded p toks -> Forall readable_token toks ->
  lr_action (yystate (stack p)) (sym_ahead toks) = Ok Error ->
  exists o, yyerrlab p = Ok o /\
    match o with
    | Returned r p' => r = 1 /\ report p p'
    | Running p' =>
        linked (stack p') /\ yystacksize p' = yystacksize p /\ (length (stack p') <= S (length (stack p)))%nat /\
        report p p' /\
        exists toks', (exists read, toks = read ++ toks') /\ ahead p' toks' /\ measure p' toks' < measure p toks
    end.
Proof.
  intros [Hsize Hroom] Hl Hload Hv Herror.
  destruct (state_valid _ (linked_state _ Hl)) as [_ Hvalid].
  specialize (Hvalid _ (sym_ahead_readable _ Hv)). unfold valid_action in Hvalid. rewrite Herror in Hvalid.
  destruct (at_index yypact (yystate (stack p))) as [n| |] eqn:Hn; [|done..].
  apply andb_true_iff in Hvalid as [_ Hmsg].
  destruct (unexpected_message n (sym_ahead toks)) as [[size msg]| |] eqn:Hmessage; [|done..].
  destruct (loaded_char _ _ Hload Hv) as [Htr Hchar].
  assert (exists p1, (if yyerrstatus p =? 0 then
         '(yysize, yymsg) ← yysyntax_error (yystate (stack p)) (yychar p);
         Ok (yyerror (if 0 <? yysize then yymsg else "syntax error") p)
       else Ok p) = Ok p1 /\ report p p1 /\ loaded p1 toks /\ stack p1 = stack p /\
       yystacksize p1 = yystacksize p /\ yyerrstatus p1 = yyerrstatus p /\ yychar p1 = yychar p)
    as (p1 & Hp1 & Hreport & Hload1 & Hst & Hss & Hes & Hyc).
  { destruct (Z.eqb_spec (yyerrstatus p) 0) as [He|He].
    - unfold yysyntax_error. rewrite Hn. cbn [mbind res_bind].
      destruct (negb _); cbn [mbind res_bind].
      + eexists. split; [done|]. split; [|done]. split; cbn; lia.
      + rewrite Htr. cbn [mbind res_bind]. rewrite Hmessage. cbn [mbind res_bind].
        eexists. split; [done|]. split; [|done]. split; cbn; lia.
    - eexists. split; [done|]. split; [|done]. split; lia. }
  unfold yyerrlab. rewrite Hp1. cbn [mbind res_bind].
  assert (forall p2 toks2, stack p2 = stack p -> yystacksize p2 = yystacksize p -> error_count p2 = error_count p1 ->
    ahead p2 toks2 -> (exists read, toks = read ++ toks2) ->
    6 * Z.of_nat (length toks2) + 1 < 6 * Z.of_nat (length toks) + (if yyerrstatus p =? 3 then 0 else 2) ->
    exists o, yyerrlab1 (loc_start (yylloc p1)) p2 = Ok o /\
    match o with
    | Returned r p' => r = 1 /\ report p p'
    | Running p' =>
        linked (stack p') /\ yystacksize p' = yystacksize p /\ (length (stack p') <= S (length (stack p)))%nat /\
        report p p' /\
        exists toks', (exists read, toks = read ++ toks') /\ ahead p' toks' /\ measure p' toks' < measure p toks
    end) as Hrecover.
  { intros p2 toks2 H1 H2 H3 H4 H5 H6.
    destruct (yyerrlab1_spec p2 (loc_start (yylloc p1))) as (o & -> & Ho); [by split; rewrite ?H1, ?H2|by rewrite H1|].
    exists o. split; [done|]. destruct o as [p'|r p'].
    - destruct Ho as (v & l & rest & Hst' & Hlink & (top & Htop) & Herr & Hcount & Hss' & Hahead).
      rewrite H1 in Htop. split_and!; [done|congruence| | |].
      + rewrite Hst', Htop. cbn [length]. rewrite length_app. lia.
      + unfold report in *. by rewrite Hcount, H3.
      + exists toks2. split_and!; [done|by apply Hahead|]. unfold measure. rewrite Hst', Herr. cbn [yystate ss Z.eqb Pos.eqb].
        change (stack_weight (mkEntry 1 v l :: rest)) with (1 + stack_weight rest).
        rewrite Htop, stack_weight_app. pose proof (stack_weight_nonneg top). repeat case_match; lia.
    - destruct Ho as [-> Hcount]. split; [done|]. unfold report in *. by rewrite Hcount, H3. }
  rewrite Hes, Hyc. destruct (yyerrstatus p =? 3) eqn:H3.
  - destruct toks as [|t toks].
    + rewrite Hchar. cbn. by eexists.
    + rewrite (proj2 (Z.leb_gt _ _)) by done. apply Hrecover with toks; try done.
      * cbn in Hload1. left. by split; [|apply Hload1].
      * by exists [t].
      * cbn [length]. lia.
  - apply Hrecover with toks; try done; [by right|by exists []|lia].
Qed.

(** ** Soundness *)

Lemma spells_app top rest done :
  spells (top ++ rest) done ->
  exists done' segs, done = done' ++ concat segs /\ spells rest done' /\ Forall2 entry_denotes (reverse top) segs.
Proof.
  revert done. induction top as [|e top IH]; intros done; cbn [app].
  - intros H. exists done, []. by rewrite app_nil_r.
  - inversion 1 as [|e' stack' done1 toks Hrest Hd]; subst.
    destruct (IH _ Hrest) as (done' & segs & -> & Hspells & Hsegs).
    exists done', (segs ++ [toks]). split; [by rewrite concat_app, <- app_assoc; cbn; rewrite app_nil_r|].
    split; [done|]. rewrite reverse_cons. apply Forall2_app; [done|]. by repeat constructor.
Qed.

(** What holds as long as no error was raised: the stack spells the tokens that were
    shifted, and the root is set when the start symbol is on it. *)
Definition sound (all toks : list token) (p : parser) : Prop :=
  yyerrstatus p = 0 /\ exists done, all = done ++ toks /\ spells (stack p) done /\
  (yystate (stack p) = 6 -> exists e, root p = Some e /\ derives done e).

Lemma linked_input t rest : linked rest -> edge (yystate rest) t = true -> sym_of t = S_input -> rest = [].
Proof.
  intros Hl He Hs.
  assert (yystate rest = 0) as H0.
  { apply edge_in in He.
    assert (forallb (fun '(a, b) => negb (sym_of b =? S_input) || (a =? 0)) edges = true) as Hall by by vm_compute.
    pose proof (forallb_elem _ _ _ Hall He) as Hb. cbn in Hb. rewrite Hs in Hb. by apply Z.eqb_eq in Hb. }
  destruct rest as [|e rest]; [done|]. destruct Hl as [Hedge _]. cbn [yystate] in H0. rewrite H0 in Hedge.
  apply edge_in in Hedge.
  assert (forallb (fun '(a, b) => negb (b =? 0)) edges = true) as Hall by by vm_compute.
  by pose proof (forallb_elem _ _ _ Hall Hedge).
Qed.

Lemma sound_reduced all toks p p' :
  linked (stack p') -> reduced p p' -> yyerrstatus p' = yyerrstatus p -> sound all toks p -> sound all toks p'.
Proof.
  intros Hl (n & lhs & syms & rhs & below & yyloc & t & v & act & Hrule & Hstack & Hsyms & Hloc & Hact & Hstack' & Ht & Hroot)
    Herr (He & done & -> & Hspells & _).
  split; [by rewrite Herr|]. exists done. split; [done|]. rewrite Hstack in Hspells.
  destruct (spells_app _ _ _ Hspells) as (done' & segs & -> & Hbelow & Hsegs). rewrite reverse_involutive in Hsegs.
  pose proof (action_derives n lhs syms below rhs segs yyloc act Hrule Hsyms Hsegs Hloc Hact) as Hd.
  rewrite Hstack'. split.
  - constructor; [done|]. cbn [ss vs ls]. rewrite Ht. destruct Hroot as [[-> _]|(e & -> & _)]; [done|apply Hd].
  - cbn [yystate ss]. intros ->. rewrite Hstack' in Hl. destruct Hl as (Hedge & _ & Hl). cbn [ss] in Hedge.
    assert (sym_of 6 = S_input) as H6 by by vm_compute. rewrite H6 in Ht. subst lhs.
    pose proof (linked_input 6 below Hl Hedge H6) as ->. inversion Hbelow; subst. cbn [app].
    destruct Hroot as [[-> _]|(e & -> & ->)].
    + exfalso. assert (n = 2) as ->.
      { cbn [find_rule rules] in Hrule. repeat match goal with
        | H : (if ?n =? ?k then Some _ else _) = Some _ |- _ => destruct (Z.eqb_spec n k) as [->|_]; [first [discriminate H|done]|]
        end. done. }
      cbn in Hact. by destruct (rhs_tree rhs 1).
    + exists e. split; [done|]. apply Hd.
Qed.

Definition Inv (c0 : Z) (all toks : list token) (p : parser) : Prop :=
  ahead p toks /\ Forall readable_token toks /\ linked (stack p) /\
  YYINITDEPTH <= yystacksize p <= YYMAXDEPTH /\ Z.of_nat (length (stack p)) < yystacksize p /\
  c0 <= error_count p /\ (error_count p = c0 -> sound all toks p).

(** The end of a run: without errors the root is a tree of all the tokens. *)
Definition final (c0 : Z) (all : list token) (yyresult : Z) (p : parser) : Prop :=
  yyresult ∈ [0; 1; 2] /\ c0 <= error_count p /\
  (error_count p = c0 -> yyresult = 0 /\ exists e, root p = Some e /\ derives all e).

Definition step_to (c0 : Z) (all toks : list token) (p : parser) (o : outcome) : Prop :=
  match o with
  | Returned r p' => final c0 all r p'
  | Running p' => exists toks', Inv c0 all toks' p' /\ measure p' toks' < measure p toks
  end.

Lemma denotes_token sym t v l :
  readable_token t -> sym = tok_sym t -> (forall s, tk_str t = Some s -> v = Str s) -> l = tk_loc t ->
  denotes sym [t] v l.
Proof.
  intros Ht -> Hv ->. pose proof (readable_sym _ Ht). unfold denotes.
  rewrite !(proj2 (Z.eqb_neq _ _)) by lia. cbn [orb]. exists t. split_and!; try done.
  - unfold span. cbn. by destruct (tk_loc t).
  - apply Ht.
Qed.

Lemma yybackup_step c0 all p toks :
  Inv c0 all toks p -> roomy p -> exists o, yybackup p = Ok o /\ step_to c0 all toks p o.
Proof.
  intros (Hahead & Hv & Hl & Hsize & Hlen & Hc0 & Hsound) Hroom.
  destruct (state_valid _ (linked_state _ Hl)) as [_ Hvalid].
  pose proof (Hvalid _ (sym_ahead_readable _ Hv)) as Hact. unfold valid_action in Hact.
  destruct (lr_action (yystate (stack p)) (sym_ahead toks)) as [a| |] eqn:Ha; [|done..].
  destruct (yybackup_spec p toks a Hahead Hv (linked_state _ Hl) Ha) as (p1 & Hp1).
  assert (forall p2, same p p2 -> roomy p2 /\ linked (stack p2)) as Hsame.
  { intros p2 (H1 & H2 & _). unfold roomy. by rewrite H1, H2. }
  assert (forall p2, same p p2 -> error_count p2 = c0 -> sound all toks p2) as Hsound2.
  { intros p2 (H1 & H2 & H3 & H4 & H5) Hc. rewrite H5 in Hc. unfold sound. rewrite H1, H3, H4. by apply Hsound. }
  destruct a as [s|n| |].
  - (* shift *) rewrite !andb_true_iff, Z.eqb_eq, Z.ltb_lt in Hact. destruct Hact as [[Hedge Hsym] Hpos].
    destruct toks as [|t rest]; [done|]. cbn [sym_ahead] in Hsym.
    destruct Hp1 as (v & (H1 & H2 & H3 & H4 & H5) & Ha1 & -> & Hstr). destruct Hroom as [Hs1 Hs2].
    assert (stack (shifted p) = stack p /\ yystacksize (shifted p) = yystacksize p /\ root (shifted p) = root p /\
      error_count (shifted p) = error_count p) as (Hst & Hss & Hr & Hc) by (unfold shifted; by destruct (_ =? 0)).
    rewrite push_ok by (rewrite H2, Hss; lia). eexists. split; [done|]. exists rest.
    apply Forall_cons in Hv as [Ht Hv].
    assert (tok_sym t = S_STRING -> exists s', tk_str t = Some s') as Hstring by apply Ht.
    split; [unfold Inv; cbn [set_stack stack yystacksize error_count]; split_and!; try done; try lia|].
    + cbn [linked ss]. split; [done|]. split; [|done]. unfold entry_ok, entry_sym, value_ok. cbn [ss vs]. rewrite Hsym.
      destruct (Z.eqb_spec (tok_sym t) S_STRING) as [Hts|_].
      { destruct (Hstring Hts) as (s' & Hs'). exists s'. by apply Hstr. }
      pose proof (readable_sym _ Ht). by rewrite !(proj2 (Z.eqb_neq _ _)) by lia.
    + cbn [length]. lia.
    + intros Hce. destruct (Hsound ltac:(lia)) as (He & done & -> & Hspells & _).
      split; [cbn; rewrite H3; unfold shifted; by rewrite He|].
      exists (done ++ [t]). split; [by rewrite <- app_assoc|]. split.
      * constructor; [done|]. by apply denotes_token.
      * cbn [set_stack stack yystate ss]. intros ->. change (sym_of 6) with S_input in Hsym. pose proof (readable_sym _ Ht). lia.
    + unfold measure. cbn [set_stack stack yystate ss yyerrstatus length]. rewrite H3.
      change (stack_weight (mkEntry s v (tk_loc t) :: stack p)) with (weight (sym_of s) + stack_weight (stack p)).
      assert (weight (sym_of s) + (if s =? 10 then 2 else 0) <= 3) as Hw.
      { destruct (Z.eqb_spec s 10) as [->|_]; [by vm_compute|]. pose proof (weight_range (sym_of s)). lia. }
      unfold shifted. destruct (yyerrstatus p =? 0); cbn; repeat case_match; lia.
  - (* reduce *) destruct Hp1 as (Hs & Ha1 & ->). destruct (Hsame _ Hs) as [Hroom1 Hl1].
    assert (stack p1 = stack p) as Hst by apply Hs. rewrite <- Hst in Hact.
    destruct (yyreduce_spec p1 n Hroom1 Hl1 Hact) as (o & -> & Ho). exists o. split; [done|].
    assert (error_count p1 = error_count p /\ yyerrstatus p1 = yyerrstatus p /\ yystacksize p1 = yystacksize p) as (Hc1 & He1 & Hz1)
      by (split_and!; apply Hs).
    destruct o as [p2|r p2].
    + destruct Ho as [(Hl2 & Hss2 & Hlen2 & Hprog) Hcase]. destruct (Hprog toks Ha1) as [Ha2 Hm2].
      exists toks. split; [|unfold measure in *; rewrite Hst, He1 in Hm2; lia].
      destruct Hroom as [_ Hroom]. unfold Inv. rewrite Hst in Hlen2. split_and!; try done; try lia.
      intros Hc2. destruct Hcase as [Hc|(Hc & Herr & Hred)]; [lia|].
      apply (sound_reduced all toks p1 p2); try done. apply Hsound2; [done|lia].
    + destruct Ho as [-> Hc2]. split; [by rewrite !elem_of_cons; auto|]. split; [lia|]. lia.
  - (* accept *) rewrite andb_true_iff, !Z.eqb_eq in Hact. destruct Hact as [H6 H0].
    destruct Hp1 as (Hs & _ & ->). eexists. split; [done|]. destruct Hs as (H1 & H2 & H3 & H4 & H5).
    split; [by rewrite elem_of_cons; left|]. rewrite H4, H5. split; [done|]. intros Hc. split; [done|].
    destruct (Hsound Hc) as (_ & done & -> & _ & Hroot). destruct (Hroot H6) as (e & He & Hd). exists e.
    destruct Hv as [|t toks Ht _]; [by rewrite app_nil_r|]. cbn in H0. pose proof (readable_sym _ Ht). lia.
  - (* error *) destruct Hp1 as (Hs & Hl1 & ->). destruct (Hsame _ Hs) as [Hroom1 Hlk1].
    destruct Hs as (H1 & H2 & H3 & H4 & H5). rewrite <- H1 in Ha.
    destruct (yyerrlab_spec p1 toks Hroom1 Hlk1 Hl1 Hv Ha) as (o & -> & Ho). exists o. split; [done|].
    assert (forall p2, report p1 p2 -> c0 <= error_count p2 /\ error_count p2 <> c0) as Hreport.
    { intros p2 [Hle Hz]. destruct (decide (error_count p = c0)) as [Hc|Hc]; [|lia].
      destruct (Hsound Hc) as [He _]. rewrite <- H3 in He. specialize (Hz He). lia. }
    destruct o as [p2|r p2].
    + destruct Ho as (Hl2 & Hss2 & Hlen2 & Hrep & toks' & (read & ->) & Ha2 & Hm2). apply Hreport in Hrep as [Hge Hne].
      apply Forall_app in Hv as [_ Hv]. destruct Hroom as [_ Hroom]. exists toks'. unfold Inv. rewrite H1 in Hlen2.
      split; [|unfold measure in *; rewrite H1, H3 in Hm2; lia]. split_and!; try done; [lia..|rewrite Hss2, H2; lia].
    + destruct Ho as [-> Hrep]. apply Hreport in Hrep as [Hge Hne]. split; [by rewrite !elem_of_cons; auto|]. by split.
Qed.

Lemma measure_nonneg p toks : 0 <= measure p toks.
Proof. unfold measure. pose proof (stack_weight_nonneg (stack p)). repeat case_match; lia. Qed.

Lemma yysetstate_step c0 all p toks :
  Inv c0 all toks p ->
  exists o, yysetstate builtin functions p = Ok o /\ step_to c0 all toks p o.
Proof.
  intros HI. pose proof HI as (Hahead & Hv & Hl & Hsize & Hlen & Hc0 & Hsound).
  unfold yysetstate. destruct (Z.leb_spec (yystacksize p - 1) (Z.of_nat (length (stack p)))) as [Hfull|Hroom].
  - destruct (Z.leb_spec YYMAXDEPTH (yystacksize p)) as [Hmax|Hmax].
    + eexists. split; [done|]. split; [by rewrite !elem_of_cons; auto|]. cbn. lia.
    + set (n := Z.min (yystacksize p * 2) YYMAXDEPTH).
      assert (YYINITDEPTH <= n <= YYMAXDEPTH /\ Z.of_nat (length (stack p)) + 1 < n) as [Hn Hn1]
        by (unfold n, YYINITDEPTH, YYMAXDEPTH in *; lia).
      cbn [yystacksize set_stacksize stack]. rewrite (proj2 (Z.leb_gt _ _)) by lia.
      destruct (yybackup_step c0 all (set_stacksize n p) toks) as (o & Ho & Hstep); [|done|by exists o].
      unfold Inv. cbn. split_and!; try done; lia.
  - apply yybackup_step; [done|]. split; [done|lia].
Qed.

Lemma yyloop_final c0 all fuel p toks :
  Inv c0 all toks p -> measure p toks < Z.of_nat fuel ->
  exists r p', yyloop builtin functions fuel p = Ok (r, p') /\ final c0 all r p'.
Proof.
  revert p toks. induction fuel as [|fuel IH]; intros p toks HI Hm; [pose proof (measure_nonneg p toks); lia|].
  cbn [yyloop]. destruct (yysetstate_step c0 all p toks HI) as (o & -> & Ho). cbn [mbind res_bind].
  destruct o as [p'|r p']; [|by exists r, p']. destruct Ho as (toks' & HI' & Hm'). apply (IH p' toks' HI'). lia.
Qed.

Lemma start_inv c0 toks fin r :
  Forall readable_token toks -> Inv c0 toks toks (start_parser toks fin r c0).
Proof.
  intros Hv. unfold Inv, start_parser. cbn. split_and!; try done; try lia; [by left|].
  intros _. split; [done|]. exists []. split_and!; [done|constructor|done].
Qed.

Lemma yyparse_final toks fin root0 c0 :
  Forall readable_token toks ->
  exists r p, yyparse builtin functions toks fin root0 c0 = Ok (r, p) /\ final c0 toks r p.
Proof.
  intros Hv. apply (yyloop_final c0 toks _ _ toks); [by apply start_inv|].
  unfold measure. cbn. lia.
Qed.

(** ** Theorems *)

(** C24. On any tokens the scanner can return, the parser stops with no access
    outside its tables, its stacks or the union of values, and returns 0, 1 or 2;
    when no error was counted it has returned 0 and set the root to a tree that the
    grammar derives from exactly these tokens, with the source ranges of the tokens
    it covers. *)
Theorem parser_correct toks fin root0 c0 :
  Forall readable_token toks ->
  exists yyresult p,
    yyparse builtin functions toks fin root0 c0 = Ok (yyresult, p) /\ yyresult ∈ [0; 1; 2] /\ c0 <= error_count p /\
    (error_count p = c0 -> yyresult = 0 /\ exists e, root p = Some e /\ derives toks e).
Proof. apply yyparse_final. Qed.
End grammar.

(** ** Witness *)

(** The table of the built-in functions. *)
Definition builtins : registry Builtin :=
  match register_all RegisterBuiltins empty_registry ≫= FinishRegistration with
  | Ok r => r
  | _ => empty_registry
  end.

Lemma builtins_registered : registered builtins.
Proof.
  assert (register_all RegisterBuiltins empty_registry ≫= FinishRegistration = Ok builtins) as H by by vm_compute.
  apply res_bind_ok in H as (r & H1 & H2). exists RegisterBuiltins, r.
  split; [apply (bool_decide_unpack _); by vm_compute|]. by split.
Qed.

(** A token that covers one character and ends at [i]. *)
Definition one_token (c : Z) (s : option string) (i : Z) : token := mkToken c s (mkLoc (i - 1) i) 1 i.

(** [a + b == concat(c)]. *)
Definition ex_tokens : list token :=
  [one_token STRING (Some "a"%string) 1; one_token 43 None 2; one_token STRING (Some "b"%string) 3;
   one_token EQ None 4; one_token STRING (Some "concat"%string) 5; one_token 40 None 6;
   one_token STRING (Some "c"%string) 7; one_token 41 None 8].

Definition ex_end : YYLTYPE * Z * Z := (mkLoc 7 8, 1, 9).

Ltac check_token :=
  split; [done|split; [eexists; split; [by vm_compute|lia]|first [done|by intros _; eexists]]].

Lemma ex_tokens_valid : Forall readable_token ex_tokens.
Proof. unfold ex_tokens. repeat (apply Forall_cons; split; [check_token|]). constructor. Qed.

Lemma parser_correct_witness :
  exists p e, yyparse id builtins ex_tokens ex_end None 0 = Ok (0, p) /\ root p = Some e /\
    derives id builtins ex_tokens e.
Proof.
  destruct (parser_correct id builtins builtins_registered ex_tokens ex_end None 0 ex_tokens_valid)
    as (r & p & Heq & _ & _ & Hok).
  assert (error_count p = 0) as Hc.
  { assert (match yyparse id builtins ex_tokens ex_end None 0 with
            | Ok (_, p) => error_count p | _ => 1 end = 0) as H by by vm_compute.
    by rewrite Heq in H. }
  destruct (Hok Hc) as (-> & e & Hr & He). exists p, e. split; [exact Heq|]. by split.
Defined.
