(* ===== verification/EdifyTokens.v ===== *)
(** * The tokens of a script

    What the calls of [yylex] return for a script, against the rules of the scanner:
    the script is cut into longest matches, the actions run on them in order, and the
    tokens are those the parser expects.  The rules are those [lex.yy.c] was generated
    from, and then those of [lexer.l]. *)

From stdpp Require Import base list strings.
From Stdlib Require Import ZArith Lia ZifyBool ZifyNat Ascii.
From S2P Require Import Prelude CString Edify EdifyParser EdifyLexer EdifyRules EdifyScan EdifyGrammar.

Open Scope Z_scope.

(** ** What the actions depend on *)

(** A scanner without its buffer. *)
Definition with_buffer (lx0 lx : lexer) : lexer :=
  mkLexer (yy_ch_buf lx0) (yy_n_chars lx0) (yy_c_buf_p lx0) (yy_start lx) (yy_last_accepting_state lx0)
    (yy_last_accepting_cpos lx0) (lx_line lx) (lx_column lx) (gPos lx) (string_buffer lx) (lx_loc lx).
Definition core (lx : lexer) : lexer := with_buffer (mkLexer [] 0 0 0 0 0 0 0 0 [] (mkLoc 0 0)) lx.

Definition lexed_map (f : lexer -> lexer) (r : lexed) : lexed :=
  match r with Continue lx => Continue (f lx) | Return t lx => Return t (f lx) end.

(** The scanner that goes on after an action. *)
Definition lexer_after (r : lexed) : lexer := match r with Continue lx | Return _ lx => lx end.

Lemma action_core act text lx : do_action act text lx = lexed_map (with_buffer lx) <$> do_action act text (core lx).
Proof.
  destruct lx. unfold do_action, put_char, text_head. cbn. repeat case_match; try done; simplify_eq; done.
Qed.

Lemma action_forget act text lx : do_action act text (core lx) = lexed_map core <$> do_action act text lx.
Proof.
  destruct lx. unfold do_action, put_char, text_head. cbn. repeat case_match; try done; simplify_eq; done.
Qed.

Definition same_buffer (lx lx' : lexer) : Prop :=
  yy_ch_buf lx' = yy_ch_buf lx /\ yy_n_chars lx' = yy_n_chars lx /\ yy_c_buf_p lx' = yy_c_buf_p lx /\
  yy_last_accepting_state lx' = yy_last_accepting_state lx.

Lemma action_buffer act text lx r : do_action act text lx = Ok r -> same_buffer lx (lexer_after r).
Proof.
  rewrite action_core. destruct (do_action act text (core lx)) as [[]| |]; cbn; [|intros [= <-]..]; done || by intros [= <-].
Qed.

(** *** Texts of the rules *)

Lemma matches_atom_inv a text : matches (R_atom a) text -> exists c, text = [c] /\ in_atom a c = true.
Proof. inversion 1; subst. by eexists. Qed.
Lemma matches_seq_inv r s text :
  matches (R_seq r s) text -> exists u v, text = u ++ v /\ matches r u /\ matches s v.
Proof. inversion 1; subst. by do 2 eexists. Qed.

(** The text of a hexadecimal escape has four characters. *)
Lemma hex_text text :
  matches (R_seq (word "\x") (R_seq (R_atom A_hex) (R_atom A_hex))) text -> exists a b h l, text = [a; b; h; l].
Proof.
  intros (u & v & -> & Hu & Hv)%matches_seq_inv. unfold word in Hu. cbn in Hu.
  apply matches_seq_inv in Hu as (u1 & u2 & -> & (a & -> & _)%matches_atom_inv & Hu).
  apply matches_seq_inv in Hu as (u3 & u4 & -> & (b & -> & _)%matches_atom_inv & ->%matches_eps_inv).
  apply matches_seq_inv in Hv as (v1 & v2 & -> & (h & -> & _)%matches_atom_inv & (l & -> & _)%matches_atom_inv).
  by exists a, b, h, l.
Qed.

Definition punctuation : list ascii := ["+"; "("; ")"; ","; "!"; ";"]%char.

Lemma punct_text text : matches (R_atom A_punct) text -> exists c, text = [c] /\ c ∈ punctuation.
Proof.
  intros (c & -> & H)%matches_atom_inv. exists c. split; [done|]. apply list_elem_of_In.
  apply existsb_exists in H as (c' & Hin & ->%Ascii.eqb_eq). done.
Qed.

Ltac find_rule H :=
  repeat (let Heq := fresh in apply elem_of_cons in H as [Heq|H]; [first [discriminate Heq|by injection Heq as ->]|]);
  by apply elem_of_nil in H.

(** What the actions use of the rules: their numbers and the form of some texts. *)
Lemma rule_text start act r text :
  start = 1 \/ start = 3 -> (act, r) ∈ rules_of start -> matches r text ->
  (start = 1 /\ act ∈ [1; 10; 11; 12; 13; 14; 15; 16; 17; 18; 19; 20; 21; 22; 23] \/
   start = 3 /\ act ∈ [2; 3; 4; 5; 6; 7; 8; 9; 23]) /\
  (act = 7 -> exists a b h l, text = [a; b; h; l]) /\
  (act = 19 -> exists c, text = [c] /\ c ∈ punctuation).
Proof.
  intros Hs Hin Hm. split.
  - assert (act ∈ (rules_of start).*1) as H by (apply list_elem_of_fmap; by exists (act, r)).
    destruct Hs as [->| ->]; [left|right]; (split; [done|exact H]).
  - assert ((7, r) ∈ rules_of start -> r = R_seq (word "\x") (R_seq (R_atom A_hex) (R_atom A_hex))) as H7.
    { intros H. destruct Hs as [->| ->]; unfold rules_of, rules_INITIAL, rules_STR in H; cbn [Z.eqb Pos.eqb] in H;
        find_rule H. }
    assert ((19, r) ∈ rules_of start -> r = R_atom A_punct) as H19.
    { intros H. destruct Hs as [->| ->]; unfold rules_of, rules_INITIAL, rules_STR in H; cbn [Z.eqb Pos.eqb] in H;
        find_rule H. }
    split; intros ->.
    + rewrite (H7 Hin) in Hm. by apply hex_text.
    + rewrite (H19 Hin) in Hm. by apply punct_text.
Qed.

(** The codes of the tokens without a text: keywords, operators, [BAD], and the characters
    that are tokens. *)
Definition plain_codes : list Z := [IF; THEN; ELSE; ENDIF; AND; OR; EQ; NE; BAD] ++ map char_code punctuation.

(** What the scanner returns: a string with its text, which holds no NUL, or one of the
    other tokens that [lexer.l] names. *)
Definition scanner_token (t : token) : Prop :=
  match tk_str t with
  | Some s => tk_char t = STRING /\ no_NUL (String.list_ascii_of_string s)
  | None => tk_char t ∈ plain_codes
  end.

Lemma c_string_no_NUL l : no_NUL (String.list_ascii_of_string (c_string l)).
Proof.
  induction l as [|c l IH]; cbn [c_string]; [constructor|]. destruct (char_code c =? 0) eqn:Hc; [constructor|].
  cbn. constructor; [|exact IH]. intros ->. done.
Qed.

(** The symbols of their codes, and that the parser can read them. *)
Lemma plain_symbol code : code ∈ plain_codes ->
  0 < code /\ exists sym, YYTRANSLATE code = Ok sym /\ 3 <= sym <= 20 /\ sym <> S_STRING.
Proof.
  intros Hin. assert (forallb (fun code => (0 <? code) &&
    match YYTRANSLATE code with Ok s => (3 <=? s) && (s <=? 20) && negb (s =? S_STRING) | _ => false end) plain_codes = true)
    as Hall by by vm_compute.
  pose proof (proj1 (forallb_forall _ _) Hall code (proj1 (list_elem_of_In _ _) Hin)) as H. cbn beta in H.
  destruct (YYTRANSLATE code) as [s| |]; [|by rewrite andb_false_r in H..]. split; [lia|].
  exists s. split; [done|]. lia.
Qed.

Lemma scanner_token_symbol t : scanner_token t ->
  exists sym, YYTRANSLATE (tk_char t) = Ok sym /\ 3 <= sym <= 20 /\ (sym = S_STRING <-> is_Some (tk_str t)).
Proof.
  unfold scanner_token. destruct t as [code [s|] loc line column]; cbn [tk_char tk_str].
  - intros [-> _]. exists S_STRING. by split_and!.
  - intros (_ & sym & Hsym & Hr & Hne)%plain_symbol. exists sym. split_and!; [done|lia|lia|]. split; [done|by intros []].
Qed.

Lemma scanner_token_readable t : scanner_token t -> readable_token t.
Proof.
  intros Ht. destruct (scanner_token_symbol t Ht) as (sym & Hsym & Hr & Hs). unfold readable_token, tok_sym. rewrite Hsym. cbn.
  split; [|split; [exists sym; split; [done|lia]|apply Hs]].
  unfold scanner_token in Ht. destruct (tk_str t); [by destruct Ht as [-> _]|by apply plain_symbol].
Qed.

Lemma scanner_tokens_readable toks : Forall scanner_token toks -> Forall readable_token toks.
Proof. intros H. eapply Forall_impl; [exact H|]. exact scanner_token_readable. Qed.

Lemma put_char_result c lx :
  match put_char c lx with
  | Ok lx' => yy_start lx' = yy_start lx /\ length (string_buffer lx') = S (length (string_buffer lx))
  | Err e => e = OutOfBounds /\ (1024 <= length (string_buffer lx))%nat
  | Diverges => False
  end.
Proof.
  unfold put_char, MAX_STRING_LEN. destruct (Nat.ltb_spec (length (string_buffer lx)) 1024) as [H|H]; [|done].
  split; [done|]. cbn. rewrite length_app. cbn. lia.
Qed.

(** What an action leaves: a start condition, a buffer that is new or one longer, and
    a token of the scanner; it fails only where the buffer of the string is full. *)
Definition action_ok (lx : lexer) (r : res lexed) : Prop :=
  match r with
  | Ok r =>
      (yy_start (lexer_after r) = 1 \/ yy_start (lexer_after r) = 3) /\
      (yy_start (lexer_after r) = 3 ->
         string_buffer (lexer_after r) = [] \/
         yy_start lx = 3 /\ (length (string_buffer (lexer_after r)) <= S (length (string_buffer lx)))%nat) /\
      match r with Return t _ => scanner_token t | Continue _ => True end
  | Err e => e = OutOfBounds /\ yy_start lx = 3 /\ (1024 <= length (string_buffer lx))%nat
  | Diverges => False
  end.

Lemma put_char_ok c lx lx' :
  yy_start lx = 3 -> yy_start lx' = 3 -> string_buffer lx' = string_buffer lx ->
  action_ok lx (Continue <$> put_char c lx').
Proof.
  intros Hs Hs' Hb. pose proof (put_char_result c lx') as H. rewrite Hs', Hb in H.
  destruct (put_char c lx') as [lx2|e|]; cbn; [|intuition|done].
  destruct H as [H1 H2]. split; [by right|]. split; [|done]. intros _. right. split; [done|lia].
Qed.

Lemma return_ok lx lx' code s :
  yy_start lx' = 1 ->
  match s with
  | Some s => code = STRING /\ no_NUL (String.list_ascii_of_string s)
  | None => code ∈ plain_codes
  end ->
  action_ok lx (Ok (return_token code s lx')).
Proof. intros Hs Hc. cbn. split; [by left|]. split; [congruence|done]. Qed.

Lemma continue_ok lx lx' :
  yy_start lx' = yy_start lx -> string_buffer lx' = string_buffer lx -> yy_start lx = 1 \/ yy_start lx = 3 ->
  action_ok lx (Ok (Continue lx')).
Proof. intros Hs Hb H. cbn. rewrite Hs, Hb. split; [done|]. split; [|done]. intros H3. right. split; [done|lia]. Qed.

Ltac known_token :=
  first [by apply (bool_decide_eq_true_1 (_ ∈ plain_codes))|split; [done|apply c_string_no_NUL]].

Lemma action_result act r text lx :
  yy_start lx = 1 \/ yy_start lx = 3 -> (act, r) ∈ rules_of (yy_start lx) -> matches r text -> text <> [] ->
  action_ok lx (do_action act text lx).
Proof.
  intros Hs Hin Hm Hne. destruct (rule_text _ _ _ _ Hs Hin Hm) as (Hact & H7 & H19). clear Hin Hm.
  destruct Hact as [[Hst Hact]|[Hst Hact]].
  - repeat (apply elem_of_cons in Hact as [->|Hact]; [|]); [..|by apply elem_of_nil in Hact].
    all: try (by apply continue_ok; cbn; auto).
    all: try (apply return_ok; [done|known_token]).
    + cbn. split; [by right|]. split; [|done]. intros _. by left.
    + destruct (H19 eq_refl) as (c & -> & Hc). apply return_ok; [done|].
      unfold plain_codes. apply elem_of_app. right. apply list_elem_of_fmap. by exists c.
  - repeat (apply elem_of_cons in Hact as [->|Hact]; [|]); [..|by apply elem_of_nil in Hact].
    all: try (by apply put_char_ok).
    all: try (by apply continue_ok; cbn; auto).
    + cbn -[Nat.ltb MAX_STRING_LEN]. destruct (Nat.ltb_spec (length (string_buffer lx)) MAX_STRING_LEN) as [H|H]; [|done].
      apply return_ok; [done|known_token].
    + destruct (H7 eq_refl) as (a & b & h & l & ->). by apply put_char_ok.
    + destruct text as [|c text]; [done|]. by apply put_char_ok.
    + destruct text as [|c text]; [done|]. by apply put_char_ok.
Qed.

(** ** The specification

    A scanner in a start condition with nothing but its counters, before a text:
    the tokens it returns up to the end, and how it is left, by some rules with their
    actions. *)

Record scanner_rules := ScannerRules {
  sr_rules : Z -> list (Z * regex);
  sr_action : Z -> list ascii -> lexer -> res lexed
}.

Inductive scans (sr : scanner_rules) : lexer -> list ascii -> list token -> lexer -> Prop :=
  | scans_end lx : scans sr lx [] [] lx
  | scans_continue lx w act len lx' toks lx'' :
      longest (sr_rules sr (yy_start lx)) w act len -> sr_action sr act (take len w) lx = Ok (Continue lx') ->
      scans sr lx' (drop len w) toks lx'' -> scans sr lx w toks lx''
  | scans_return lx w act len t lx' toks lx'' :
      longest (sr_rules sr (yy_start lx)) w act len -> sr_action sr act (take len w) lx = Ok (Return t lx') ->
      scans sr lx' (drop len w) toks lx'' -> scans sr lx w (t :: toks) lx''.

(** The actions run into one that stores outside the buffer of the string. *)
Inductive scan_overflows (sr : scanner_rules) : lexer -> list ascii -> Prop :=
  | overflows_here lx w act len :
      longest (sr_rules sr (yy_start lx)) w act len -> sr_action sr act (take len w) lx = Err OutOfBounds ->
      scan_overflows sr lx w
  | overflows_later lx w act len r :
      longest (sr_rules sr (yy_start lx)) w act len -> sr_action sr act (take len w) lx = Ok r ->
      scan_overflows sr (lexer_after r) (drop len w) -> scan_overflows sr lx w.

(** The rules that [lex.yy.c] was generated from, and those of [lexer.l].  The actions
    are the same; that of the lone carriage return is the one of the rule before. *)
Definition generated : scanner_rules := ScannerRules rules_of do_action.
Definition lexer_action (n : Z) (yytext : list ascii) (lx : lexer) : res lexed :=
  do_action (if n <? 9 then n else n - 1) yytext lx.
Definition lexer_l : scanner_rules := ScannerRules lexer_rules lexer_action.

Abbreviation tokenises := (scans generated).
Abbreviation overflows := (scan_overflows generated).

(** ** One match *)

Lemma matched_take lx len w a b :
  at_text lx w -> matched_text (yy_c_buf_p lx) (set_c_buf_p (yy_c_buf_p lx + len) (set_last_accepting a b lx)) = take len (w ++ NULs).
Proof.
  intros (pre & Hbuf & _ & Hcp). unfold matched_text. cbn. rewrite Hbuf, Hcp, drop_app_length. f_equal. lia.
Qed.

Lemma at_text_drop lx len w a b :
  at_text lx w -> (len <= length w)%nat ->
  at_text (set_c_buf_p (yy_c_buf_p lx + len) (set_last_accepting a b lx)) (drop len w).
Proof.
  intros (pre & Hbuf & Hn & Hcp) Hlen. exists (pre ++ take len w). cbn.
  rewrite Hbuf, Hn, Hcp, !length_app, length_take, length_drop, <- app_assoc, (app_assoc (take len w)), take_drop.
  split_and!; [done|lia|lia].
Qed.

Lemma at_text_same lx lx' w : same_buffer lx lx' -> at_text lx w -> at_text lx' w.
Proof. intros (H1 & H2 & H3 & _) (pre & Hb & Hn & Hc). exists pre. by rewrite H1, H2, H3. Qed.

(** A call of [scan] and its action. *)
Lemma scan_action lx c w fuel :
  at_text lx (c :: w) -> ready lx -> no_NUL (c :: w) ->
  exists act len lx1, longest (rules_of (yy_start lx)) (c :: w) act len /\ core lx1 = core lx /\
    scan (2 + fuel) L_yy_match (yy_c_buf_p lx) (yy_c_buf_p lx) (yy_start lx) lx = Ok (Matched act (yy_c_buf_p lx) lx1) /\
    matched_text (yy_c_buf_p lx) lx1 = take len (c :: w) /\
    action_ok lx (do_action act (take len (c :: w)) lx1) /\
    (forall r, do_action act (take len (c :: w)) lx1 = Ok r ->
       at_text (lexer_after r) (drop len (c :: w)) /\ ready (lexer_after r)).
Proof.
  intros Ht Hr Hw. destruct (scan_longest lx c w fuel Ht Hr Hw) as (act & len & a & b & Hv & Hl & Hs).
  pose proof Hl as (Hlen & (r & Hin & Hm) & _).
  set (lx1 := set_c_buf_p (yy_c_buf_p lx + len) (set_last_accepting a b lx)) in *.
  assert (action_ok lx1 (do_action act (take len (c :: w)) lx1)) as Hok.
  { eapply (action_result act r); [apply Hr|exact Hin|exact Hm|]. destruct len; [lia|done]. }
  exists act, len, lx1. split; [exact Hl|]. split; [done|]. split; [exact Hs|]. split.
  { unfold lx1. rewrite (matched_take _ _ _ _ _ Ht). rewrite take_app_le; [done|lia]. }
  split; [exact Hok|]. intros res Hres. pose proof (action_buffer _ _ _ _ Hres) as Hb.
  split; [eapply at_text_same; [exact Hb|apply at_text_drop; [exact Ht|lia]]|].
  rewrite Hres in Hok. destruct Hok as [Hst _]. split; [|exact Hst].
  destruct Hb as (_ & _ & _ & ->). exact Hv.
Qed.

(** [fits]: the rest of the script cannot fill the buffer of the string. *)
Definition fits (lx : lexer) (w : list ascii) : Prop :=
  (length w <= 1025)%nat /\ (yy_start lx = 3 -> (length (string_buffer lx) + length w <= 1024)%nat).

Lemma fits_after lx w len r :
  fits lx w -> action_ok lx (Ok r) -> (0 < len <= length w)%nat -> fits (lexer_after r) (drop len w).
Proof.
  intros [H1 H2] (_ & Hb & _) Hlen. unfold fits. rewrite length_drop. split; [lia|]. intros H3.
  destruct (Hb H3) as [->|[Hs Hle]]; [cbn; lia|]. specialize (H2 Hs). lia.
Qed.

Lemma fits_safe lx w e : fits lx w -> action_ok lx (Err e) -> w <> [] -> False.
Proof. intros [_ H2] (_ & Hs & Hle) Hw. specialize (H2 Hs). destruct w; [done|]. cbn in H2. lia. Qed.

(** ** Calls of [yylex] *)

Definition lexes (lx : lexer) (w : list ascii) (r : res (option token * lexer)) : Prop :=
  match r with
  | Ok (None, lx') => tokenises (core lx) w [] (core lx')
  | Ok (Some t, lx') =>
      exists w', at_text lx' w' /\ ready lx' /\ no_NUL w' /\ (length w' < length w)%nat /\ scanner_token t /\
        (fits lx w -> fits lx' w') /\
        (forall toks lx2, tokenises (core lx') w' toks lx2 -> tokenises (core lx) w (t :: toks) lx2) /\
        (overflows (core lx') w' -> overflows (core lx) w)
  | Err e => e = OutOfBounds /\ overflows (core lx) w /\ ~ fits lx w
  | Diverges => False
  end.

Lemma yylex_S fuel lx :
  yylex (S fuel) lx =
    (s ← scan (2 + length (yy_ch_buf lx)) L_yy_match (yy_c_buf_p lx) (yy_c_buf_p lx) (yy_start lx) lx;
     match s with
     | End_of_file lx => Ok (None, lx)
     | Matched act yytext lx =>
         r ← do_action act (matched_text yytext lx) lx;
         match r with Continue lx => yylex fuel lx | Return t lx => Ok (Some t, lx) end
     end).
Proof. done. Qed.

Lemma yylex_lexes fuel : forall lx w,
  (length w < fuel)%nat -> at_text lx w -> ready lx -> no_NUL w -> lexes lx w (yylex fuel lx).
Proof.
  induction fuel as [|fuel IH]; intros lx w Hf Ht Hr Hw; [lia|]. rewrite yylex_S.
  destruct w as [|c w].
  - destruct (scan_end pairs pairs_checked pairs_start lx (S (length (yy_ch_buf lx))) Ht Hr) as (a & b & _ & Heq).
    change (2 + length (yy_ch_buf lx))%nat with (S (S (length (yy_ch_buf lx)))). rewrite Heq, bind_Ok. cbn. constructor.
  - destruct (scan_action lx c w (length (yy_ch_buf lx)) Ht Hr Hw) as (act & len & lx1 & Hl & Hcore & Hs & Hm & Hok & Hnext).
    rewrite Hs, bind_Ok, Hm. pose proof Hl as [Hlen _].
    pose proof (action_forget act (take len (c :: w)) lx1) as Hforget. rewrite Hcore in Hforget.
    destruct (do_action act (take len (c :: w)) lx1) as [r|e|] eqn:Hact; [| |done].
    + rewrite bind_Ok. destruct (Hnext r eq_refl) as [Ht' Hr'].
      assert (no_NUL (drop len (c :: w))) as Hw' by (by apply Forall_drop).
      assert (length (drop len (c :: w)) < length (c :: w))%nat as Hlt by (rewrite length_drop; lia).
      assert (fits lx (c :: w) -> fits (lexer_after r) (drop len (c :: w))) as Hfit by (intros H; eapply fits_after; done).
      destruct r as [lx'|t lx']; cbn [lexer_after lexed_map] in *.
      * assert (length (drop len (c :: w)) < fuel)%nat as Hf' by (cbn [length] in *; lia).
        specialize (IH lx' (drop len (c :: w)) Hf' Ht' Hr' Hw'). destruct (yylex fuel lx') as [[[t|] lx2]|e|]; [| | |done].
        -- destruct IH as (w' & H1 & H2 & H3 & H4 & H5 & H6 & H7 & H8). exists w'. split_and!; try done; [lia|tauto| |].
           ++ intros toks lx3 Htok. eapply scans_continue; [exact Hl|exact Hforget|by apply H7].
           ++ intros Hov. eapply overflows_later; [exact Hl|exact Hforget|by apply H8].
        -- eapply scans_continue; [exact Hl|exact Hforget|exact IH].
        -- destruct IH as (-> & Hov & Hnf). split; [done|]. split; [|tauto].
           eapply overflows_later; [exact Hl|exact Hforget|exact Hov].
      * exists (drop len (c :: w)). split_and!; try done.
        -- apply Hok.
        -- intros toks lx3 Htok. eapply scans_return; [exact Hl|exact Hforget|exact Htok].
        -- intros Hov. eapply overflows_later; [exact Hl|exact Hforget|exact Hov].
    + cbn. destruct Hok as (-> & Hok). split; [done|]. split; [by eapply overflows_here|].
      intros H. eapply (fits_safe lx (c :: w) OutOfBounds); [done|by split|done].
Qed.

(** ** All calls *)

Definition lexes_all (lx : lexer) (w : list ascii) (r : res (list token * lexer)) : Prop :=
  match r with
  | Ok (toks, lx') => tokenises (core lx) w toks (core lx') /\ Forall scanner_token toks /\ (length toks <= length w)%nat
  | Err e => e = OutOfBounds /\ overflows (core lx) w /\ ~ fits lx w
  | Diverges => False
  end.

Lemma lex_loop_lexes fuel : forall lx w,
  (length w < fuel)%nat -> at_text lx w -> ready lx -> no_NUL w -> lexes_all lx w (lex_loop fuel lx).
Proof.
  induction fuel as [|fuel IH]; intros lx w Hf Ht Hr Hw; [lia|]. cbn [lex_loop].
  assert (length w < 2 + length (yy_ch_buf lx))%nat as Hlen.
  { destruct Ht as (pre & -> & _). rewrite !length_app. lia. }
  pose proof (yylex_lexes _ lx w Hlen Ht Hr Hw) as Hlex.
  destruct (yylex (2 + length (yy_ch_buf lx)) lx) as [[[t|] lx1]|e|]; [| |by cbn|done].
  - rewrite bind_Ok. cbv iota beta. destruct Hlex as (w' & H1 & H2 & H3 & H4 & H5 & H6 & H7 & H8).
    assert (length w' < fuel)%nat as Hf' by lia. specialize (IH lx1 w' Hf' H1 H2 H3).
    destruct (lex_loop fuel lx1) as [[toks lx2]|e|]; [| |done].
    + rewrite bind_Ok. destruct IH as (Htok & Hval & Hle). split; [by apply H7|]. split; [by constructor|cbn; lia].
    + destruct IH as (-> & Hov & Hnf). split; [done|]. split; [by apply H8|tauto].
  - rewrite bind_Ok. split; [exact Hlex|]. split; [constructor|cbn; lia].
Qed.

Lemma lex_bytes_lexes w lx : no_NUL w -> ready lx -> lexes_all lx w (lex_all (yy_scan_bytes w lx)).
Proof.
  intros Hw Hr. apply (lex_loop_lexes _ (yy_scan_bytes w lx)); [|by exists []|done|done].
  cbn. rewrite length_app. lia.
Qed.

Lemma lex_all_lexes s lx :
  no_NUL (String.list_ascii_of_string s) -> ready lx ->
  lexes_all lx (String.list_ascii_of_string s) (lex_all (yy_scan_string s lx)).
Proof. apply lex_bytes_lexes. Qed.

(** ** The rules of [lexer.l]

    The same tokens with the same texts and places; only the counts of lines and columns
    differ behind a lone carriage return in a string. *)

Definition CR : ascii := "013"%char.

Definition lone_CR (w : list ascii) : Prop := exists i, w !! i = Some CR /\ w !! S i <> Some "010"%char.

Lemma lone_CR_drop n w : lone_CR (drop n w) -> lone_CR w.
Proof. intros (i & Hi & Hs). exists (n + i)%nat. rewrite !lookup_drop in *. by rewrite <- Nat.add_succ_r. Qed.

(** The number that a rule of [lex.yy.c] has in [lexer.l]. *)
Definition lexer_number (n : Z) : Z := if n <? 9 then n else n + 1.

Lemma lexer_rules_of start : start = 1 \/ start = 3 ->
  (fun '(n, r) => (lexer_number n, r)) <$> rules_of start = filter (fun x => x.1 <> 9) (lexer_rules start).
Proof. by intros [->| ->]. Qed.

Lemma lexer_rule start n r :
  start = 1 \/ start = 3 -> (n, r) ∈ lexer_rules start ->
  (exists act, n = lexer_number act /\ (act, r) ∈ rules_of start) \/ start = 3 /\ n = 9 /\ r = chr CR.
Proof.
  intros Hs Hin. destruct (decide (n = 9)) as [->|Hn].
  - right. destruct Hs as [->| ->]; unfold lexer_rules, lexer_INITIAL, lexer_STR in Hin; cbn [Z.eqb Pos.eqb] in Hin;
      repeat (apply elem_of_cons in Hin as [Heq|Hin]; [first [discriminate Heq|injection Heq as ->; done]|]); by apply elem_of_nil in Hin.
  - left. assert ((n, r) ∈ filter (fun x => x.1 <> 9) (lexer_rules start)) as H by (by apply list_elem_of_filter).
    rewrite <- lexer_rules_of in H by done. apply list_elem_of_fmap in H as ([act r'] & [= -> ->] & H). by exists act.
Qed.

Lemma rule_lexer start act r :
  start = 1 \/ start = 3 -> (act, r) ∈ rules_of start -> (lexer_number act, r) ∈ lexer_rules start.
Proof.
  intros Hs Hin. assert ((lexer_number act, r) ∈ filter (fun x => x.1 <> 9) (lexer_rules start)) as H.
  { rewrite <- lexer_rules_of by done. apply list_elem_of_fmap. by exists (act, r). }
  by apply list_elem_of_filter in H as [_ H].
Qed.

Lemma lexer_number_le a b : a <= b <-> lexer_number a <= lexer_number b.
Proof. unfold lexer_number. destruct (Z.ltb_spec a 9), (Z.ltb_spec b 9); lia. Qed.

Lemma matches_CR text : matches (chr CR) text -> text = [CR].
Proof. intros (c & -> & H)%matches_atom_inv. by apply Ascii.eqb_eq in H as ->. Qed.

Lemma take_one (w : list ascii) c len : take len w = [c] -> (len <= length w)%nat -> len = 1%nat /\ take 1 w = [c].
Proof.
  intros H Hlen. apply (f_equal length) in H as Hl. rewrite length_take in Hl. cbn in Hl.
  assert (len = 1%nat) as -> by lia. done.
Qed.

(** Only the state of strings has the rules 9. *)
Lemma rule_9 start r : start = 1 \/ start = 3 -> (9, r) ∈ rules_of start -> start = 3.
Proof.
  intros [->| ->] Hin; [|done]. exfalso. unfold rules_of, rules_INITIAL in Hin. cbn [Z.eqb Pos.eqb] in Hin. find_rule Hin.
Qed.

Lemma dot_in_rules : (9, R_atom A_dot) ∈ rules_of 3.
Proof. by apply (bool_decide_eq_true_1 (_ ∈ _)). Qed.
Lemma CRLF_in_rules : (8, R_seq (optional (chr CR)) (chr "010")) ∈ rules_of 3.
Proof. by apply (bool_decide_eq_true_1 (_ ∈ _)). Qed.
Lemma CR_in_lexer : (9, chr CR) ∈ lexer_rules 3.
Proof. by apply (bool_decide_eq_true_1 (_ ∈ _)). Qed.

(** The rule of [lexer.l] that matches where one of [lex.yy.c] does. *)
Definition lexer_rule_of (act : Z) (text : list ascii) : Z :=
  if bool_decide (act = 9 /\ text = [CR]) then 9 else lexer_number act.

Lemma longest_lexer start w act len :
  start = 1 \/ start = 3 -> longest (rules_of start) w act len ->
  longest (lexer_rules start) w (lexer_rule_of act (take len w)) len.
Proof.
  intros Hs (Hlen & (r & Hin & Hm) & Hmax). unfold lexer_rule_of.
  assert (start = 3 -> forall k, (k <= length w)%nat -> take k w = [CR] -> k = 1%nat /\ ((1 < len)%nat \/ len = 1%nat /\ act <= 9)) as HCR.
  { intros -> k Hk Htext. destruct (take_one w CR k Htext Hk) as [-> _]. split; [done|].
    destruct (Hmax 9 (R_atom A_dot) 1%nat) as [Hlt|[Heq Hle]]; [exact dot_in_rules|done|rewrite Htext; by apply (matches_atom A_dot)| |];
      [by left|right; by split]. }
  case_bool_decide as Hcr.
  - destruct Hcr as [-> Htext]. apply rule_9 in Hin as ->; [|done].
    split; [done|]. split; [exists (chr CR); split; [exact CR_in_lexer|rewrite Htext; by apply (matches_atom (A_char CR))]|].
    intros n r' len' [(act' & -> & Hin')|(_ & -> & ->)]%lexer_rule Hlen' Hm'; [| |by right].
    + destruct (Hmax act' r' len' Hin' Hlen' Hm') as [Hlt|[-> Hle]]; [by left|right; split; [done|]].
      unfold lexer_number. destruct (Z.ltb_spec act' 9); lia.
    + apply matches_CR in Hm'. destruct (HCR eq_refl _ Hlen' Hm') as [-> [?|[-> _]]]; [by left|by right].
  - split; [done|]. split; [exists r; split; [by apply rule_lexer|done]|].
    intros n r' len' [(act' & -> & Hin')|(-> & -> & ->)]%lexer_rule Hlen' Hm'; [| |done].
    + destruct (Hmax act' r' len' Hin' Hlen' Hm') as [Hlt|[-> Hle]]; [by left|right; split; [done|]]. by apply (proj1 (lexer_number_le _ _)).
    + apply matches_CR in Hm'. destruct (HCR eq_refl _ Hlen' Hm') as [-> [?|[-> Hle]]]; [by left|right; split; [done|]].
      unfold lexer_number. destruct (Z.ltb_spec act 9); [lia|]. destruct Hcr. split; [lia|done].
Qed.

(** The rule 9 of [lexer.l] is used only where a carriage return is alone. *)
Lemma rule_9_lone start w act len :
  start = 1 \/ start = 3 -> longest (rules_of start) w act len ->
  ~ lone_CR w -> lexer_rule_of act (take len w) = lexer_number act.
Proof.
  intros Hs (Hlen & (r & Hin & _) & Hmax) Hcr. unfold lexer_rule_of. case_bool_decide as H; [|done].
  destruct H as [-> Htext]. apply rule_9 in Hin as ->; [|done]. destruct (take_one w CR len Htext (proj2 Hlen)) as [-> _].
  destruct w as [|c w]; [done|]. cbn in Htext. injection Htext as ->. destruct Hcr. exists 0%nat. split; [done|].
  cbn. intros Hw. destruct w as [|c w]; [done|]. injection Hw as ->.
  destruct (Hmax 8 _ 2%nat CRLF_in_rules) as [H|[H _]]; [cbn; lia| |lia..].
  by apply (proj1 (deriv_spec _ _ _)), (proj1 (deriv_spec _ _ _)), (proj1 (nullable_spec _)).
Qed.

(** *** Lines and columns *)

(** A scanner and a token without the counts of lines and columns. *)
Definition no_lines (lx : lexer) : lexer := set_position 0 0 (gPos lx) lx.
Definition token_no_lines (t : token) : token := mkToken (tk_char t) (tk_str t) (tk_loc t) 0 0.
Definition lexed_no_lines (r : lexed) : lexed :=
  match r with Continue lx => Continue (no_lines lx) | Return t lx => Return (token_no_lines t) (no_lines lx) end.

Lemma Continue_no_lines r lx : lexed_no_lines r = lexed_no_lines (Continue lx) ->
  exists lx2, r = Continue lx2 /\ no_lines lx2 = no_lines lx.
Proof. destruct r as [lx2|]; [|done]. intros H. exists lx2. split; [done|exact (f_equal lexer_after H)]. Qed.

Lemma Return_no_lines r t lx : lexed_no_lines r = lexed_no_lines (Return t lx) ->
  exists t2 lx2, r = Return t2 lx2 /\ token_no_lines t2 = token_no_lines t /\ no_lines lx2 = no_lines lx.
Proof.
  destruct r as [|t2 lx2]; [done|]. intros H. exists t2, lx2. split; [done|]. split; [|exact (f_equal lexer_after H)].
  exact (f_equal (fun r => match r with Return t _ => t | Continue _ => t end) H).
Qed.

(** No action looks at the counts. *)
Lemma action_no_lines act text lx :
  lexed_no_lines <$> do_action act text lx = lexed_no_lines <$> do_action act text (no_lines lx).
Proof.
  destruct lx. unfold do_action, put_char, text_head. cbn. repeat case_match; try done; simplify_eq; done.
Qed.

(** The action of the lone carriage return counts another line, and does else what that
    of the other characters does. *)
Lemma lone_CR_action lx :
  lexed_no_lines <$> lexer_action 9 [CR] lx = lexed_no_lines <$> do_action 9 [CR] lx.
Proof. change (lexer_action 9) with (do_action 8). destruct lx. cbn. unfold put_char. cbn. by case_match. Qed.

Lemma lexer_action_number act : lexer_action (lexer_number act) = do_action act.
Proof.
  unfold lexer_action, lexer_number. destruct (Z.ltb_spec act 9).
  - by rewrite (proj2 (Z.ltb_lt _ _)).
  - rewrite (proj2 (Z.ltb_ge _ _)) by lia. by rewrite Z.add_simpl_r.
Qed.

Lemma action_lexer act text lx lx2 :
  no_lines lx2 = no_lines lx ->
  lexed_no_lines <$> lexer_action (lexer_rule_of act text) text lx2 = lexed_no_lines <$> do_action act text lx.
Proof.
  intros Heq. rewrite (action_no_lines _ _ lx), <- Heq, <- action_no_lines. unfold lexer_rule_of. case_bool_decide as H.
  - destruct H as [-> ->]. apply lone_CR_action.
  - by rewrite lexer_action_number.
Qed.

(** *** The two sets of rules *)

(** What the rules of [lexer.l] make of a text that those of [lex.yy.c] make tokens of,
    from a scanner that differs at most in the counts. *)
Definition scans_alike (lx2 lx : lexer) (w : list ascii) (toks : list token) (lx' : lexer) : Prop :=
  exists toks2 lx2', scans lexer_l lx2 w toks2 lx2' /\
    token_no_lines <$> toks2 = token_no_lines <$> toks /\ no_lines lx2' = no_lines lx' /\
    (~ lone_CR w -> lx2 = lx -> toks2 = toks /\ lx2' = lx').

Lemma step_lexer lx lx2 w act len r :
  yy_start lx = 1 \/ yy_start lx = 3 -> no_lines lx2 = no_lines lx ->
  longest (rules_of (yy_start lx)) w act len -> do_action act (take len w) lx = Ok r ->
  exists r2, longest (lexer_rules (yy_start lx2)) w (lexer_rule_of act (take len w)) len /\
    lexer_action (lexer_rule_of act (take len w)) (take len w) lx2 = Ok r2 /\ lexed_no_lines r2 = lexed_no_lines r /\
    (~ lone_CR w -> lx2 = lx -> r2 = r) /\ (yy_start (lexer_after r) = 1 \/ yy_start (lexer_after r) = 3).
Proof.
  intros Hs Heq Hl Ha. pose proof (action_lexer act (take len w) lx lx2 Heq) as Hact. rewrite Ha in Hact.
  destruct (lexer_action _ _ lx2) as [r2| |] eqn:H2; [|discriminate Hact..]. injection Hact as Hr.
  exists r2. split.
  { replace (yy_start lx2) with (yy_start lx) by apply (f_equal yy_start (eq_sym Heq)). by apply longest_lexer. }
  split; [done|]. split; [done|]. split.
  - intros Hcr ->. rewrite (rule_9_lone _ _ _ _ Hs Hl Hcr), lexer_action_number in H2. congruence.
  - pose proof Hl as (Hlen & (re & Hin & Hm) & _).
    pose proof (action_result act re (take len w) lx Hs Hin Hm) as Hok. rewrite Ha in Hok. apply Hok.
    destruct w, len; cbn in *; [lia..|done].
Qed.

Lemma scans_lexer lx w toks lx' :
  tokenises lx w toks lx' -> yy_start lx = 1 \/ yy_start lx = 3 ->
  forall lx2, no_lines lx2 = no_lines lx -> scans_alike lx2 lx w toks lx'.
Proof.
  induction 1 as [lx|lx w act len lx1 toks lx' Hl Ha _ IH|lx w act len t lx1 toks lx' Hl Ha _ IH]; intros Hs lx2 Heq.
  - exists [], lx2. split; [constructor|]. by split_and!.
  - destruct (step_lexer _ _ _ _ _ _ Hs Heq Hl Ha) as (r2 & Hl2 & Ha2 & Hr & Hsame & Hs1).
    apply Continue_no_lines in Hr as (lx3 & -> & Hr).
    destruct (IH Hs1 lx3 Hr) as (toks2 & lx2' & H1 & H2 & H3 & H4). exists toks2, lx2'. split; [by eapply scans_continue|].
    split_and!; try done. intros Hcr H. specialize (Hsame Hcr H). injection Hsame as Hsame.
    apply H4; [|done]. by intros Hd%lone_CR_drop.
  - destruct (step_lexer _ _ _ _ _ _ Hs Heq Hl Ha) as (r2 & Hl2 & Ha2 & Hr & Hsame & Hs1).
    apply Return_no_lines in Hr as (t2 & lx3 & -> & Ht & Hr).
    destruct (IH Hs1 lx3 Hr) as (toks2 & lx2' & H1 & H2 & H3 & H4). exists (t2 :: toks2), lx2'.
    split; [by eapply scans_return|]. split_and!; [cbn; by f_equal|done|].
    intros Hcr H. specialize (Hsame Hcr H). injection Hsame as -> Hsame.
    destruct H4 as [-> ->]; [by intros Hd%lone_CR_drop|done|done].
Qed.

Lemma overflows_lexer lx w :
  overflows lx w -> yy_start lx = 1 \/ yy_start lx = 3 ->
  forall lx2, no_lines lx2 = no_lines lx -> scan_overflows lexer_l lx2 w.
Proof.
  induction 1 as [lx w act len Hl Ha|lx w act len r Hl Ha _ IH]; intros Hs lx2 Heq.
  - apply (overflows_here lexer_l lx2 w (lexer_rule_of act (take len w)) len).
    + change (longest (lexer_rules (yy_start lx2)) w (lexer_rule_of act (take len w)) len).
      replace (yy_start lx2) with (yy_start lx) by apply (f_equal yy_start (eq_sym Heq)). by apply longest_lexer.
    + cbn in Ha |- *. pose proof (action_lexer act (take len w) lx lx2 Heq) as Hact. rewrite Ha in Hact.
      destruct (lexer_action _ _ lx2); [discriminate Hact|by injection Hact as ->|discriminate Hact].
  - destruct (step_lexer _ _ _ _ _ _ Hs Heq Hl Ha) as (r2 & Hl2 & Ha2 & Hr & _ & Hs1).
    eapply (overflows_later lexer_l lx2 w); [exact Hl2|exact Ha2|]. apply IH; [done|].
    destruct r; [apply Continue_no_lines in Hr as (? & -> & Hr)|apply Return_no_lines in Hr as (? & ? & -> & _ & Hr)]; exact Hr.
Qed.

(** ** Long strings *)

Lemma longest_unique v w act len act' len' : longest v w act len -> longest v w act' len' -> act = act' /\ len = len'.
Proof.
  intros (Hl & (r & Hin & Hm) & Hmax) (Hl' & (r' & Hin' & Hm') & Hmax').
  specialize (Hmax _ _ _ Hin' (proj2 Hl') Hm'). specialize (Hmax' _ _ _ Hin (proj2 Hl) Hm). lia.
Qed.

(** The characters that are themselves in a string. *)
Definition plain (c : ascii) : Prop := c ∉ ["000"; "034"; "\"; "010"; "013"]%char.

Lemma plain_rules c : plain c -> rderiv c rules_STR = rderiv "a" rules_STR.
Proof.
  intros Hc. assert (forallb (fun c => bool_decide (c ∈ ["000"; "034"; "\"; "010"; "013"]%char) ||
    bool_decide (rderiv c rules_STR = rderiv "a" rules_STR)) all_chars = true) as H by by vm_compute.
  rewrite forallb_forall in H. specialize (H c (proj1 (list_elem_of_In _ _) (all_chars_spec c))).
  apply orb_true_iff in H as [H|H]; apply bool_decide_eq_true in H; [done|exact H].
Qed.

Lemma longest_one rs start c w v act :
  start = 1 /\ rs = rules_INITIAL \/ start = 3 /\ rs = rules_STR ->
  rderiv c rs = v -> no_NUL w -> accepts v = act -> act <> 0 ->
  (forall c, c <> "000"%char -> dead (rderiv c v) = true) -> longest rs (c :: w) act 1.
Proof.
  intros Hrs Hv Hw Ha H0 Hd.
  assert (ordered rs /\ (accepts rs =? 0) = true) as [Ho Hz].
  { destruct Hrs as [[_ ->]|[_ ->]]; (split; [|done]); [apply (rules_ordered 1)|apply (rules_ordered 3)]. }
  destruct (munch_longest rs (c :: w) 0 act 1) as (len & Hlen & Hl);
    [done|lia| |done|cbn in Hlen; by rewrite Hlen].
  rewrite munch_cons, Hz. cbv iota zeta. rewrite Hv.
  destruct (dead v) eqn:Hdv; [by rewrite (dead_accepts _ Hdv) in Ha; subst|].
  rewrite munch_stop, Ha by done. by rewrite (proj2 (Z.eqb_neq _ _) H0).
Qed.

Lemma longest_plain c w : plain c -> no_NUL w -> longest rules_STR (c :: w) 9 1.
Proof.
  intros Hc Hw. apply (longest_one rules_STR 3 c w (rderiv "a" rules_STR)); [by right|by apply plain_rules|done|done|done|done].
Qed.

Lemma longest_quote w : no_NUL w -> longest rules_STR ("034"%char :: w) 2 1.
Proof. intros Hw. by apply (longest_one rules_STR 3 _ w (rderiv "034" rules_STR)); [right| | | | |]. Qed.

Lemma longest_opening w : no_NUL w -> longest rules_INITIAL ("034"%char :: w) 1 1.
Proof. intros Hw. by apply (longest_one rules_INITIAL 1 _ w (rderiv "034" rules_INITIAL)); [left| | | | |]. Qed.

Lemma length_list_ascii s : length (String.list_ascii_of_string s) = String.length s.
Proof. induction s as [|c s IH]; [done|]. cbn. by rewrite IH. Qed.

Lemma plain_no_NUL s : Forall plain s -> no_NUL s.
Proof. intros H. eapply Forall_impl; [exact H|]. intros c Hc ->. apply Hc. by left. Qed.

(** A string of 1024 characters does not fit. *)
Lemma long_string s : forall lx toks lx',
  Forall plain s -> yy_start lx = 3 -> (1024 <= length (string_buffer lx) + length s)%nat ->
  ~ tokenises lx (s ++ ["034"%char]) toks lx'.
Proof.
  induction s as [|c s IH]; intros lx toks lx' Hs Hst Hlen Htok.
  - assert (forall act len, longest (rules_of (yy_start lx)) ["034"%char] act len ->
              do_action act (take len ["034"%char]) lx = Err OutOfBounds) as Hact.
    { rewrite Hst. intros act len Hl. destruct (longest_unique _ _ _ _ _ _ Hl (longest_quote [] ltac:(constructor))) as [-> ->].
      cbn -[Nat.ltb MAX_STRING_LEN]. rewrite (proj2 (Nat.ltb_ge _ _)); [done|]. cbn [length] in Hlen. unfold MAX_STRING_LEN. lia. }
    cbn [app] in Htok. inversion Htok as [|? ? ? ? ? ? ? Hl Ha|? ? ? ? ? ? ? ? Hl Ha]; subst; change (sr_action generated) with do_action in Ha; by rewrite (Hact _ _ Hl) in Ha.
  - apply Forall_cons in Hs as [Hc Hs].
    assert (forall act len, longest (rules_of (yy_start lx)) (c :: s ++ ["034"%char]) act len -> act = 9 /\ len = 1%nat) as Hact.
    { rewrite Hst. intros act len Hl. apply (longest_unique _ _ _ _ _ _ Hl), longest_plain; [done|].
      apply Forall_app. split; [by apply plain_no_NUL|]. by repeat constructor. }
    cbn [app] in Htok. inversion Htok as [|? ? ? ? lx1 ? ? Hl Ha Hrest|? ? ? ? ? ? ? ? Hl Ha]; subst;
      destruct (Hact _ _ Hl) as [-> ->]; cbn [take generated sr_action do_action text_head] in Ha; rewrite bind_Ok in Ha.
    + pose proof (put_char_result c (move_on 1 lx)) as Hput. destruct (put_char c (move_on 1 lx)) as [lx2| |]; [|done..].
      injection Ha as <-. destruct Hput as [H1 H2]. cbn [drop] in Hrest. apply (IH _ _ _ Hs) in Hrest; [done|by rewrite H1|].
      rewrite H2. cbn in Hlen |- *. lia.
    + by destruct (put_char c (move_on 1 lx)).
Qed.

(** ** Theorems *)

(** C26. The generated scanner against its rules: on a script without NULs it stops, and
    the tokens it has returned are those of the longest matches of the rules that
    [lex.yy.c] was generated from, the first rule on a tie, one behind the other from
    the start of the script to its end; the only other outcome is a store behind the end
    of [string_buffer], and that needs a rule that stores into the full buffer.

    [lexer.l] has one rule more, the lone carriage return in a string.  Its longest
    matches give tokens with the same codes, texts and places, and only the counts of
    lines and columns may differ; where no carriage return of the script is alone,
    everything is the same.  The buffer overflows under both. *)
Theorem scanner_tokenises script lx :
  no_NUL (String.list_ascii_of_string script) -> ready lx ->
  let w := String.list_ascii_of_string script in
  (exists toks lx', lex_all (yy_scan_string script lx) = Ok (toks, lx') /\
     tokenises (core lx) w toks (core lx') /\
     exists toks2 lx2, scans lexer_l (core lx) w toks2 lx2 /\
       token_no_lines <$> toks2 = token_no_lines <$> toks /\ no_lines lx2 = no_lines (core lx') /\
       (~ lone_CR w -> toks2 = toks /\ lx2 = core lx')) \/
  lex_all (yy_scan_string script lx) = Err OutOfBounds /\ overflows (core lx) w /\ scan_overflows lexer_l (core lx) w.
Proof.
  intros Hw Hr w. pose proof (lex_all_lexes script lx Hw Hr) as H.
  destruct (lex_all (yy_scan_string script lx)) as [[toks lx']|e|]; [| |done].
  - left. destruct H as [Htok _]. exists toks, lx'. split; [done|]. split; [exact Htok|].
    destruct (scans_lexer _ _ _ _ Htok (proj2 Hr) _ eq_refl) as (toks2 & lx2 & H1 & H2 & H3 & H4).
    exists toks2, lx2. split_and!; try done. intros Hcr. by apply H4.
  - right. destruct H as (-> & Hov & _). split; [done|]. split; [exact Hov|]. by apply (overflows_lexer _ _ Hov (proj2 Hr)).
Qed.

(** C27. Every token the scanner returns is one that [lexer.l] names: a string with its
    text, or without a text a keyword, an operator, one of the six characters [+(),!;],
    or [BAD].  So its code is that of one of the terminals of the grammar, never of an
    unknown character, and it has a text exactly if it is a string. *)
Theorem tokens_well_typed script lx toks lx' :
  no_NUL (String.list_ascii_of_string script) -> ready lx ->
  lex_all (yy_scan_string script lx) = Ok (toks, lx') ->
  Forall (fun t => scanner_token t /\
    exists sym, YYTRANSLATE (tk_char t) = Ok sym /\ 3 <= sym <= 20 /\ (sym = S_STRING <-> is_Some (tk_str t))) toks.
Proof.
  intros Hw Hr Heq. pose proof (lex_all_lexes script lx Hw Hr) as H. rewrite Heq in H. destruct H as (_ & H & _).
  eapply Forall_impl; [exact H|]. intros t Ht. split; [exact Ht|by apply scanner_token_symbol].
Qed.

(** C28. [string_buffer] is not checked: scripts of up to 1025 characters are always
    scanned, but every quoted string of 1024 or more characters makes the scanner
    store behind the end of the buffer, although nothing limits a script below 128000
    characters. *)
Theorem string_buffer_bound :
  (forall script, no_NUL (String.list_ascii_of_string script) -> (String.length script <= 1025)%nat ->
     exists toks lx', lex_all (yy_scan_string script start_lexer) = Ok (toks, lx')) /\
  (forall s, Forall plain s -> (1024 <= length s)%nat ->
     lex_all (yy_scan_bytes ("034"%char :: s ++ ["034"%char]) start_lexer) = Err OutOfBounds).
Proof.
  split.
  - intros script Hw Hlen. pose proof (lex_all_lexes script start_lexer Hw ltac:(by split; [|left])) as H.
    destruct (lex_all (yy_scan_string script start_lexer)) as [[toks lx']|e|]; [by do 2 eexists| |done].
    destruct H as (_ & _ & []). split; [|done]. by rewrite length_list_ascii.
  - intros s Hs Hlen. set (w := s ++ ["034"%char]).
    assert (no_NUL w) as Hw by (apply Forall_app; split; [by apply plain_no_NUL|by repeat constructor]).
    assert (no_NUL ("034"%char :: w)) as Hw' by (by constructor).
    pose proof (lex_bytes_lexes ("034"%char :: w) start_lexer Hw' ltac:(by split; [|left])) as H.
    destruct (lex_all (yy_scan_bytes ("034"%char :: w) start_lexer)) as [[toks lx']|e|]; [|by destruct H as [-> _]|done].
    destruct H as [H _].
    assert (forall act len, longest (rules_of (yy_start (core start_lexer))) ("034"%char :: w) act len -> act = 1 /\ len = 1%nat)
      as Hact by (intros act len Hl; by apply (longest_unique _ _ _ _ _ _ Hl), longest_opening).
    inversion H as [|? ? ? ? ? ? ? Hl Ha Hrest|? ? ? ? ? ? ? ? Hl Ha]; subst; destruct (Hact _ _ Hl) as [-> ->]; [|done].
    injection Ha as <-. by apply long_string in Hrest.
Qed.

(** ** Witnesses *)

(** [if a+b then "c\x64" endif # end], with a line feed. *)
Definition ex_text : string :=
  "if a+b then " +:+ String "034" ("c\x64" +:+ String "034" (" endif # end" +:+ str_lf)).

Lemma ex_text_no_NUL : no_NUL (String.list_ascii_of_string ex_text).
Proof. by repeat constructor. Qed.

Lemma scanner_tokenises_witness :
  exists toks lx', lex_all (yy_scan_string ex_text start_lexer) = Ok (toks, lx') /\
    map tk_char toks = [IF; STRING; 43; STRING; THEN; STRING; ENDIF] /\
    tokenises (core start_lexer) (String.list_ascii_of_string ex_text) toks (core lx') /\
    scans lexer_l (core start_lexer) (String.list_ascii_of_string ex_text) toks (core lx').
Proof.
  destruct (scanner_tokenises ex_text start_lexer ex_text_no_NUL ltac:(by split; [|left]))
    as [(toks & lx' & Heq & Htok & toks2 & lx2 & Hlexer & _ & _ & Hsame)|[Herr _]].
  - exists toks, lx'. split; [exact Heq|]. split; [|split; [exact Htok|]].
    + assert (match lex_all (yy_scan_string ex_text start_lexer) with
              | Ok (toks, _) => map tk_char toks | _ => [] end = [IF; STRING; 43; STRING; THEN; STRING; ENDIF]) as H
        by by vm_compute.
      rewrite Heq in H. exact H.
    + destruct Hsame as [-> ->]; [|exact Hlexer]. intros (i & Hi & _). apply list_elem_of_lookup_2 in Hi.
      apply (bool_decide_pack _) in Hi. by vm_compute in Hi.
  - exfalso. assert (is_ok (lex_all (yy_scan_string ex_text start_lexer)) = true) as H by by vm_compute.
    by rewrite Herr in H.
Defined.

Lemma tokens_well_typed_witness :
  exists toks lx', lex_all (yy_scan_string ex_text start_lexer) = Ok (toks, lx') /\ length toks = 7%nat /\
    Forall (fun t => scanner_token t /\
      exists sym, YYTRANSLATE (tk_char t) = Ok sym /\ 3 <= sym <= 20 /\ (sym = S_STRING <-> is_Some (tk_str t))) toks.
Proof.
  destruct (lex_all (yy_scan_string ex_text start_lexer)) as [[toks lx']| |] eqn:Heq; [|by vm_compute in Heq..].
  exists toks, lx'. split; [done|]. split.
  - assert (match lex_all (yy_scan_string ex_text start_lexer) with
            | Ok (toks, _) => length toks | _ => 0%nat end = 7%nat) as H by by vm_compute.
    rewrite Heq in H. exact H.
  - exact (tokens_well_typed ex_text start_lexer toks lx' ex_text_no_NUL ltac:(by split; [|left]) Heq).
Defined.

Lemma string_buffer_bound_witness :
  (exists toks lx', lex_all (yy_scan_string ex_text start_lexer) = Ok (toks, lx')) /\
  lex_all (yy_scan_bytes ("034"%char :: replicate 1024 "a"%char ++ ["034"%char]) start_lexer) = Err OutOfBounds.
Proof.
  destruct string_buffer_bound as [Hshort Hlong]. split.
  - apply Hshort; [exact ex_text_no_NUL|by vm_compute; lia].
  - apply Hlong; [|by rewrite length_replicate].
    apply Forall_replicate. intros H. apply (bool_decide_pack _) in H. by vm_compute in H.
Defined.
