(* ===== verification/EdifyRanges.v ===== *)
(** * The source ranges of a script's expressions

    The positions that the scanner gives to its tokens lie inside the script and in
    order, so the ranges of the parsed expressions do too, which is what the message
    of a failed [assert] copies. *)

From stdpp Require Import base list strings.
From Stdlib Require Import ZArith Lia ZifyBool ZifyNat Ascii.
From S2P Require Import Prelude CString Edify EdifyParser EdifyLexer EdifyRules EdifyScan EdifyGrammar EdifyTokens.

Open Scope Z_scope.

(** ** Tokens *)

(** The ranges of the tokens are inside [0..hi], none is inverted, and their ends do
    not decrease from [lo] on. *)
Fixpoint ranged (lo hi : Z) (toks : list token) : Prop :=
  match toks with
  | [] => lo <= hi
  | t :: toks =>
      0 <= loc_start (tk_loc t) <= loc_end (tk_loc t) /\ lo <= loc_end (tk_loc t) /\ ranged (loc_end (tk_loc t)) hi toks
  end.

(** The scanner before [n] characters of a script that ends at [hi], after a token
    that ended at [lo]. *)
Definition in_range (lo hi : Z) (lx : lexer) (n : nat) : Prop :=
  0 <= gPos lx /\ gPos lx + Z.of_nat n <= hi /\ lo <= gPos lx /\ 0 <= loc_start (lx_loc lx) <= gPos lx /\
  (yy_start lx = 1 -> loc_start (lx_loc lx) <= loc_end (lx_loc lx) /\ lo <= loc_end (lx_loc lx) <= gPos lx).

Lemma put_char_range c lx lx' : put_char c lx = Ok lx' ->
  gPos lx' = gPos lx /\ lx_loc lx' = lx_loc lx /\ yy_start lx' = yy_start lx.
Proof. unfold put_char. case_match; [|done]. by intros [= <-]. Qed.

(** What an action does to the positions. *)
Definition range_ok (lo hi : Z) (n : nat) (r : res lexed) : Prop :=
  match r with
  | Ok (Continue lx) => in_range lo hi lx n
  | Ok (Return t lx) =>
      0 <= loc_start (tk_loc t) <= loc_end (tk_loc t) /\ lo <= loc_end (tk_loc t) /\ in_range (loc_end (tk_loc t)) hi lx n
  | _ => True
  end.

Lemma put_char_range_ok lo hi n c lx :
  in_range lo hi lx n -> range_ok lo hi n (Continue <$> put_char c lx).
Proof.
  intros H. destruct (put_char c lx) as [lx'| |] eqn:Hp; [|done..]. apply put_char_range in Hp as (H1 & H2 & H3).
  cbn. unfold in_range in *. by rewrite H1, H2, H3.
Qed.

Lemma move_range lo hi n m k lx :
  in_range lo hi lx (n + m) -> 0 <= k <= Z.of_nat m -> in_range lo hi (move_on k lx) n /\ in_range lo hi (next_line k lx) n.
Proof. unfold in_range. cbn. intros H Hk. split; lia. Qed.

Lemma advance_range lo hi n text code s lx :
  in_range lo hi lx (n + length text) -> yy_start lx = 1 ->
  in_range lo hi (ADVANCE text lx) n /\ range_ok lo hi n (Ok (return_token code s (ADVANCE text lx))).
Proof. unfold in_range, range_ok. cbn. unfold in_range. cbn. intros H Hs. specialize (proj2 (proj2 (proj2 (proj2 H))) Hs). lia. Qed.

Lemma action_range lo hi n act r text lx :
  yy_start lx = 1 \/ yy_start lx = 3 -> (act, r) ∈ rules_of (yy_start lx) -> matches r text -> text <> [] ->
  in_range lo hi lx (n + length text) -> range_ok lo hi n (do_action act text lx).
Proof.
  intros Hs Hin Hm Hne Hr. destruct (rule_text _ _ _ _ Hs Hin Hm) as (Hact & H7 & H19). clear Hin Hm.
  assert (1 <= Z.of_nat (length text)) as Hlen by (destruct text; [done|cbn; lia]).
  destruct (move_range lo hi n (length text) 1 lx Hr ltac:(lia)) as [Hone Hline].
  destruct (move_range lo hi n (length text) (Z.of_nat (length text)) lx Hr ltac:(lia)) as [Hall Hallline].
  destruct Hact as [[Hst Hact]|[Hst Hact]].
  - repeat (apply elem_of_cons in Hact as [->|Hact]; [|]); [..|by apply elem_of_nil in Hact].
    all: try (apply (advance_range lo hi n text); [exact Hr|exact Hst]).
    + pose proof (proj2 (proj2 (proj2 (proj2 Hr))) Hst). unfold in_range in Hr. cbn. unfold in_range. cbn. unfold STR, INITIAL. lia.
    + destruct (H19 eq_refl) as (c & -> & _). by apply (advance_range lo hi n [c]).
    + by apply (advance_range lo hi n text 0 None).
    + exact Hallline.
    + pose proof (proj2 (proj2 (proj2 (proj2 Hr))) Hst). unfold in_range in Hr. cbn. unfold in_range. lia.
    + unfold in_range in Hr. cbn. unfold in_range. lia.
  - repeat (apply elem_of_cons in Hact as [->|Hact]; [|]); [..|by apply elem_of_nil in Hact].
    all: try by apply put_char_range_ok.
    + cbn -[Nat.ltb MAX_STRING_LEN]. case_match; [|done]. unfold in_range in Hr. cbn. unfold in_range. cbn. unfold STR, INITIAL. lia.
    + destruct (H7 eq_refl) as (a & b & h & l & ->). by apply put_char_range_ok.
    + destruct text as [|c text]; [done|]. by apply put_char_range_ok.
    + destruct text as [|c text]; [done|]. by apply put_char_range_ok.
    + unfold in_range in Hr. cbn. unfold in_range. lia.
Qed.

Lemma tokenises_ranged lx w toks lx' :
  tokenises lx w toks lx' -> forall lo hi, yy_start lx = 1 \/ yy_start lx = 3 -> in_range lo hi lx (length w) -> ranged lo hi toks.
Proof.
  assert (forall lx w act len lo hi, longest (rules_of (yy_start lx)) w act len -> yy_start lx = 1 \/ yy_start lx = 3 ->
    in_range lo hi lx (length w) ->
    range_ok lo hi (length (drop len w)) (sr_action generated act (take len w) lx) /\
    action_ok lx (sr_action generated act (take len w) lx)) as Hstep.
  { intros lx0 w0 act len lo hi (Hlen & (r & Hin & Hm) & _) Hs Hr.
    assert (take len w0 <> []) as Hne by (intros H; apply (f_equal length) in H; rewrite length_take in H; cbn in H; lia).
    split; [|by eapply action_result]. eapply action_range; [done..|].
    rewrite length_drop, length_take. by replace (length w0 - len + len `min` length w0)%nat with (length w0) by lia. }
  induction 1 as [lx|lx w act len lx1 toks lx2 Hl Ha _ IH|lx w act len t lx1 toks lx2 Hl Ha _ IH]; intros lo hi Hs Hr.
  - unfold in_range in Hr. cbn in *. lia.
  - destruct (Hstep _ _ _ _ _ _ Hl Hs Hr) as [Hr' Hok]. rewrite Ha in Hr', Hok. destruct Hok as [Hs' _]. by apply IH.
  - destruct (Hstep _ _ _ _ _ _ Hl Hs Hr) as [Hr' Hok]. rewrite Ha in Hr', Hok. destruct Hok as [Hs' _].
    destruct Hr' as (H1 & H2 & H3). cbn [ranged]. split; [done|]. split; [done|]. by apply IH.
Qed.

(** ** Parts of a script *)

Lemma ranged_hi lo hi a : ranged lo hi a -> lo <= hi.
Proof. revert lo. induction a as [|t a IH]; intros lo; cbn; [done|]. intros (_ & Hlo & Ha). apply IH in Ha. lia. Qed.

Lemma ranged_app lo hi a b : ranged lo hi (a ++ b) -> exists mid, ranged lo mid a /\ ranged mid hi b /\ mid <= hi.
Proof.
  revert lo. induction a as [|t a IH]; intros lo; cbn [app ranged].
  - intros H. exists lo. pose proof (ranged_hi _ _ _ H). by split_and!.
  - intros (H1 & H2 & H3). destruct (IH _ H3) as (mid & Ha & Hb & Hle). by exists mid.
Qed.

(** The expressions of a part of the script have ranges inside it. *)
Definition inside (hi : Z) (l : YYLTYPE) : Prop := 0 <= loc_start l <= loc_end l /\ loc_end l <= hi.

Lemma ranged_span lo hi toks : toks <> [] -> ranged lo hi toks -> inside hi (span toks) /\ lo <= loc_end (span toks).
Proof.
  destruct toks as [|t toks]; [done|]. intros _ (H1 & H2 & H3). unfold inside, span. cbn [loc_start loc_end].
  enough (loc_end (tk_loc t) <= match last (t :: toks) with Some t => loc_end (tk_loc t) | None => 0 end <= hi) by lia.
  clear H1 H2. revert t H3. induction toks as [|t' toks IH]; intros t H3; cbn [ranged] in H3; [cbn; lia|].
  destruct H3 as (_ & Hlo & H3). specialize (IH t' H3). cbn [last] in IH |- *. lia.
Qed.

Definition part (hi : Z) (toks : list token) : Prop := exists lo, ranged lo hi toks.

Lemma ranged_weaken lo mid hi a : ranged lo mid a -> mid <= hi -> ranged lo hi a.
Proof. revert lo. induction a as [|t a IH]; intros lo; cbn; [lia|]. intros (H1 & H2 & H3) Hle. by auto. Qed.

Lemma part_app hi a b : part hi (a ++ b) -> part hi a /\ part hi b.
Proof.
  intros (lo & H). apply ranged_app in H as (mid & Ha & Hb & Hle).
  split; [exists lo; by eapply ranged_weaken|by exists mid].
Qed.
Lemma part_cons hi t a : part hi (t :: a) -> part hi a.
Proof. intros (lo & _ & _ & H). by eexists. Qed.
Lemma part_span hi toks : toks <> [] -> part hi toks -> inside hi (span toks).
Proof. intros Hne (lo & H). by eapply ranged_span. Qed.

Section ranges.
Context (functions : registry Builtin).

Fixpoint enough_arguments (e : Expr Builtin) : bool :=
  match e with mkExpr f _ argv _ _ => arity_ok f (length argv) && forallb enough_arguments argv end.

(** The range of every node is inside [0..hi]. *)
Fixpoint ranges_inside (hi : Z) (e : Expr Builtin) : bool :=
  match e with
  | mkExpr _ _ argv s t => (0 <=? s) && (s <=? t) && (t <=? hi) && forallb (ranges_inside hi) argv
  end.

Lemma well_formed_split hi e : well_formed hi e = enough_arguments e && ranges_inside hi e.
Proof.
  induction e as [f name argv s t IH] using expr_nested_ind. cbn [well_formed enough_arguments ranges_inside].
  assert (forallb (well_formed hi) argv = forallb enough_arguments argv && forallb (ranges_inside hi) argv) as ->.
  { induction IH as [|a argv Ha _ IHargv]; [done|]. cbn [forallb]. rewrite Ha, IHargv.
    destruct (enough_arguments a), (ranges_inside hi a), (forallb enough_arguments argv); done. }
  destruct (arity_ok f (length argv)), (forallb enough_arguments argv), (0 <=? s), (s <=? t), (t <=? hi); done.
Qed.

Lemma inside_node hi f name (argv : list (Expr Builtin)) l :
  inside hi l -> forallb (ranges_inside hi) argv = true ->
  ranges_inside hi (mkExpr f name argv (loc_start l) (loc_end l)) = true.
Proof. unfold inside. intros H Ha. cbn. rewrite Ha. lia. Qed.

Lemma set_range_inside hi l e : inside hi l -> ranges_inside hi e = true -> ranges_inside hi (set_range l e) = true.
Proof. destruct e as [f name argv s t]. cbn [set_range]. intros Hl H. apply inside_node; [done|]. cbn in H. lia. Qed.

Scheme derives_mind := Minimality for derives Sort Prop
  with derives_args_mind := Minimality for derives_args Sort Prop.
Combined Scheme derives_mutind from derives_mind, derives_args_mind.

(** The parts of a part of a script. *)
Ltac parts :=
  repeat match goal with
  | H : part _ (_ :: _) |- _ => apply part_cons in H
  | H : part _ (_ ++ _) |- _ => apply part_app in H as [? ?]
  end.

Lemma derives_ranges hi :
  (forall toks e, derives id functions toks e -> part hi toks -> ranges_inside hi e = true) /\
  (forall toks argv, derives_args id functions toks argv -> part hi toks -> forallb (ranges_inside hi) argv = true).
Proof.
  assert (forall a t (b : list token), a ++ t :: b <> []) as Happ by (by intros [] ? ? ?).
  apply derives_mutind; unfold operator; intros;
    match goal with Hp : part hi ?toks |- _ => pose proof (fun H => part_span hi toks H Hp) as Hspan end.
  - by apply inside_node; [apply Hspan|].
  - apply set_range_inside; [by apply Hspan|]. parts. auto.
  - parts. apply set_range_inside; [apply part_span; [by eapply derives_nonempty|done]|auto].
  - apply inside_node; [by apply Hspan|]. parts. cbn. rewrite !andb_true_iff. auto.
  - apply inside_node; [by apply Hspan|]. parts. cbn. rewrite !andb_true_iff. auto.
  - apply inside_node; [by apply Hspan|]. parts. cbn. rewrite !andb_true_iff. auto.
  - apply inside_node; [by apply Hspan|]. parts. cbn. rewrite !andb_true_iff. auto 6.
  - apply inside_node; [by apply Hspan|]. parts. auto.
  - done.
  - cbn. rewrite andb_true_iff. auto.
  - parts. rewrite forallb_app. cbn. rewrite !andb_true_iff. auto.
Qed.
End ranges.
