(* ===== verification/EdifyScript.v ===== *)
(** * Scripts from text to result

    [jni/adhoc-edify/adhoc.c] and [jni/adhoc-edify/edify/main.c]: the scanner, the
    parser and the evaluation put together.  The tokens are scanned before the parser
    takes them; where it stops early, the program would leave the rest of the script
    unread. *)

From stdpp Require Import base list strings.
From Stdlib Require Import ZArith Lia ZifyBool ZifyNat Ascii.
From S2P Require Import Prelude CString Edify EdifyInstall EdifySafety EdifyConfig EdifyParser EdifyLexer.
From S2P Require Import EdifyRules EdifyScan EdifyGrammar EdifyTokens EdifyRanges.

Open Scope Z_scope.

(** ** Parsing a text *)

(** [yy_scan_string] and [yyparse], with the root and the count of errors they are
    given; the scanner as it is left. *)
Definition parse_script {F} (builtin : Builtin -> F) (functions : registry F) (script : string) (lx : lexer)
    (root : option (Expr F)) (error_count : Z) : res (Z * @parser F * lexer) :=
  '(toks, lx) ← lex_all (yy_scan_string script lx);
  '(error, p) ← yyparse builtin functions toks (lx_loc lx, lx_line lx, lx_column lx) root error_count;
  Ok (error, p, lx).

(** ** The test program *)

Section test.
Context {W : Type} `{!ScriptOs W}.

(** What [expect] and [test] change: the scanner's globals, the outside world and the
    count of errors. *)
Record testing := mkTesting { t_lexer : lexer; t_world : W; t_errors : Z }.

Definition print (f : stream) (s : string) (t : testing) : testing :=
  mkTesting (t_lexer t) (os_fputs f s (t_world t)) (t_errors t).
Definition count_error (t : testing) : testing :=
  mkTesting (t_lexer t) (t_world t) (t_errors t + 1).

Definition print_all (lines : list string) (w : W) : W := fold_left (fun w s => os_fputs Stdout s w) lines w.

Definition quoted (s : string) : string := String "034" s +:+ String "034" EmptyString.

(** [expect(expr_str, expected, errors)]; the result is whether the script did what
    was expected.  A result where NULL was expected is compared with it. *)
Definition expect (functions : registry Builtin) (expr_str : string) (expected : option string) (t : testing)
    : res (bool * testing) :=
  let t := print Stdout "." t in
  '(error, p, lx) ← parse_script id functions expr_str (t_lexer t) None 0;
  let t := mkTesting lx (print_all (printed p) (t_world t)) (t_errors t) in
  if (0 <? error) || (0 <? error_count p) then
    Ok (false, count_error (print Stderr ("error parsing " +:+ quoted expr_str +:+ " (" +:+ dec (error_count p) +:+
      " errors)" +:+ str_lf) t))
  else
    e ← (match root p with Some e => Ok e | None => Err UninitRead end);
    '(result, st) ← Evaluate (C := unit) e (mkState None expr_str None (t_world t));
    let t := mkTesting (t_lexer t) (world st) (t_errors t) in
    match result, expected with
    | None, Some _ =>
        Ok (false, count_error (print Stderr ("error evaluating " +:+ quoted expr_str +:+ str_lf) t))
    | None, None => Ok (true, t)
    | Some _, None => Err NullDeref
    | Some result, Some expected =>
        if bool_decide (result = expected) then Ok (true, t)
        else
          Ok (false, count_error (print Stderr ("evaluating " +:+ quoted expr_str +:+ ": expected " +:+
            quoted expected +:+ ", got " +:+ quoted result +:+ str_lf) t))
    end.

(** A sequence of calls of [expect]. *)
Fixpoint expect_all (functions : registry Builtin) (tests : list (string * option string)) (t : testing)
    : res testing :=
  match tests with
  | [] => Ok t
  | (expr_str, expected) :: tests => '(_, t) ← expect functions expr_str expected t; expect_all functions tests t
  end.
End test.

(** A double quote. *)
Definition dq : string := String "034" EmptyString.

(** The calls of [test], in order. *)
Definition tests : list (string * option string) :=
  [("a", Some "a");
   ((dq +:+ "a" +:+ dq), Some "a");
   ((dq +:+ "\x61" +:+ dq), Some "a");
   (("# this is a comment" +:+ str_lf +:+ "  a" +:+ str_lf +:+ "   " +:+ str_lf), Some "a");
   ("a; b; c", Some "c");
   ("a + b", Some "ab");
   (("a + " +:+ str_lf +:+ " " +:+ dq +:+ "b" +:+ dq), Some "ab");
   (("a + b +" +:+ str_lf +:+ "c" +:+ str_lf), Some "abc");
   ("concat(a, b)", Some "ab");
   (("concat(a," +:+ str_lf +:+ " " +:+ dq +:+ "b" +:+ dq +:+ ")"), Some "ab");
   (("concat(a + b," +:+ str_lf +:+ "c," +:+ dq +:+ "d" +:+ dq +:+ ")"), Some "abcd");
   ((dq +:+ "concat" +:+ dq +:+ "(a + b," +:+ str_lf +:+ "c," +:+ dq +:+ "d" +:+ dq +:+ ")"), Some "abcd");
   ("a && b", Some "b");
   (("a && " +:+ dq +:+ dq), Some "");
   ((dq +:+ dq +:+ " && b"), Some "");
   ((dq +:+ dq +:+ " && " +:+ dq +:+ dq), Some "");
   ((dq +:+ dq +:+ " && abort()"), Some "");
   ("t && abort()", None);
   ("a || b", Some "a");
   (("a || " +:+ dq +:+ dq), Some "a");
   ((dq +:+ dq +:+ " || b"), Some "b");
   ((dq +:+ dq +:+ " || " +:+ dq +:+ dq), Some "");
   ("a || abort()", Some "a");
   ((dq +:+ dq +:+ " || abort()"), None);
   ("!a", Some "");
   (("! " +:+ dq +:+ dq), Some "t");
   ("!!a", Some "t");
   ((dq +:+ dq +:+ " == " +:+ dq +:+ dq +:+ " && b"), Some "b");
   ("a + b == ab", Some "t");
   ("ab == a + b", Some "t");
   ("a + (b == ab)", Some "a");
   ("(ab == a) + b", Some "b");
   ("is_substring(cad, abracadabra)", Some "t");
   ("is_substring(abrac, abracadabra)", Some "t");
   ("is_substring(dabra, abracadabra)", Some "t");
   ("is_substring(cad, abracxadabra)", Some "");
   ("is_substring(abrac, axbracadabra)", Some "");
   ("is_substring(dabra, abracadabrxa)", Some "");
   ("ifelse(t, yes, no)", Some "yes");
   ("ifelse(!t, yes, no)", Some "no");
   ("ifelse(t, yes, abort())", Some "yes");
   ("ifelse(!t, abort(), no)", Some "no");
   ("if t then yes else no endif", Some "yes");
   (("if " +:+ dq +:+ dq +:+ " then yes else no endif"), Some "no");
   (("if " +:+ dq +:+ dq +:+ " then yes endif"), Some "");
   (("if " +:+ dq +:+ dq +:+ "; t then yes endif"), Some "yes");
   ("less_than_int(3, 14)", Some "t");
   ("less_than_int(14, 3)", Some "");
   ("less_than_int(x, 3)", Some "");
   ("less_than_int(3, x)", Some "");
   ("greater_than_int(3, 14)", Some "");
   ("greater_than_int(14, 3)", Some "t");
   ("greater_than_int(x, 3)", Some "");
   ("greater_than_int(3, x)", Some "")]%string.

(** [test]: the count of errors, behind the scanner and the world it leaves. *)
Definition test {W} `{!ScriptOs W} (functions : registry Builtin) (w : W) : res (Z * testing) :=
  t ← expect_all functions tests (mkTesting start_lexer w 0);
  let t := print Stdout str_lf t in
  Ok (t_errors t, t).

(** ** The program that runs the script of the application *)

Section adhoc.
Context {W : Type} `{!InstallOs W}.

Definition SCRIPT_NAME : string := "/data/data/org.servalproject/conf/adhoc.edify".
Definition LOG_NAME : string := "/data/data/org.servalproject/var/adhoc.log".

(** [argv[i]]: NULL behind the arguments, and nothing behind that. *)
Definition argument (argv : list string) (i : nat) : res string :=
  match argv !! i with
  | Some s => Ok s
  | None => if (i =? length argv)%nat then Err NullDeref else Err OutOfBounds
  end.

(** [RegisterBuiltins], [RegisterInstallFunctions] and [FinishRegistration]. *)
Definition all_functions : list (string * (Builtin + Install)) :=
  map (fun '(name, f) => (name, inl f)) RegisterBuiltins ++
  map (fun '(name, f) => (name, inr f)) RegisterInstallFunctions.
Definition register_functions : res (registry (Builtin + Install)) :=
  r ← register_all all_functions empty_registry; FinishRegistration r.

(** The end of [main] with the result of the script: the messages it prints, and the
    exit status.  The message ends at its first NUL. *)
Definition report (cmd : stream) (result errmsg : option string) (w : W) : res (Z * W) :=
  match result with
  | Some result => Ok (0, os_fputs Stderr ("script result was [" +:+ result +:+ "]" +:+ str_lf) w)
  | None =>
      match errmsg with
      | None =>
          let w := os_fputs Stderr ("script aborted (no error message)" +:+ str_lf) w in
          Ok (7, os_fputs cmd ("ui_print script aborted (no error message)" +:+ str_lf) w)
      | Some m =>
          let m := c_string (chars m) in
          let w := os_fputs Stderr ("script aborted: " +:+ m +:+ str_lf) w in
          '(lines, _) ← ui_print_scan m;
          let w := fold_left (fun w line => os_fputs cmd ("ui_print " +:+ line +:+ str_lf) w) lines w in
          Ok (7, os_fputs cmd ("ui_print" +:+ str_lf) w)
      end
  end.

(** [main] from the script on. *)
Definition run_script (cmd : stream) (argv : list string) (script : string) (w : W) : res (Z * W) :=
  functions ← register_functions;
  '(error, p, _) ← parse_script inl functions script start_lexer None 0;
  let w := print_all (printed p) w in
  if negb (error =? 0) || (0 <? error_count p) then
    Ok (6, os_fputs Stderr (dec (error_count p) +:+ " parse errors" +:+ str_lf) w)
  else
    root ← (match root p with Some e => Ok e | None => Err UninitRead end);
    let '(log, w) := match os_create LOG_NAME w with Some w => (Some LogFd, w) | None => (None, w) end in
    action ← argument argv 1;
    '(result, st) ← Evaluate root (mkState (Some (mkUpdaterInfo cmd log action)) script None w);
    report cmd result (errmsg st) (world st).

(** [main]; [fdopen] gives the stream of a descriptor, or NULL. *)
Definition adhoc_main (fdopen : Z -> option stream) (argv : list string) (w : W) : res (Z * W) :=
  a ← argument argv 2;
  match fdopen (atoi a) with
  | None => Err NullDeref
  | Some cmd =>
      match os_stat SCRIPT_NAME w with
      | None => Ok (1, os_fputs Stderr ("Could not stat " +:+ SCRIPT_NAME +:+ ": " +:+ os_strerror w) w)
      | Some st_size =>
          if 128000 <? st_size then Ok (1, os_fputs Stderr (SCRIPT_NAME +:+ " too large (max 128k)") w)
          else
            match os_fopen SCRIPT_NAME w with
            | None => Ok (1, os_fputs Stderr ("Cannot read " +:+ SCRIPT_NAME +:+ str_lf) w)
            | Some contents =>
                let read := take (Z.to_nat st_size) contents in
                if negb (Z.of_nat (length read) =? st_size) then
                  Ok (1, os_fputs Stderr ("Failed to read " +:+ dec (st_size + 1) +:+ " bytes from " +:+ SCRIPT_NAME) w)
                else run_script cmd argv (c_string read) w
            end
      end
  end.
End adhoc.

(** ** From text to tree *)

Lemma start_ready : ready start_lexer.
Proof. by split; [|left]. Qed.

Lemma list_ascii_bytes s : length (String.list_ascii_of_string s) = String.length s.
Proof. apply length_list_ascii. Qed.

Section compose.
Context {F : Type} (builtin : Builtin -> F) (functions : registry F) (Hregistered : registered functions).

(** The scanner and the parser together, on any script that the scanner survives. *)
Lemma parse_script_outcome script lx root0 c0 :
  no_NUL (String.list_ascii_of_string script) -> ready lx ->
  match parse_script builtin functions script lx root0 c0 with
  | Ok (error, p, lx') =>
      error ∈ [0; 1; 2] /\ c0 <= error_count p /\
      (error_count p = c0 -> error = 0 /\ exists toks e, root p = Some e /\ derives builtin functions toks e /\
         tokenises (core lx) (String.list_ascii_of_string script) toks (core lx'))
  | Err e => e = OutOfBounds /\ overflows (core lx) (String.list_ascii_of_string script) /\
      ~ fits lx (String.list_ascii_of_string script)
  | Diverges => False
  end.
Proof.
  intros Hw Hr. unfold parse_script. pose proof (lex_all_lexes script lx Hw Hr) as H.
  destruct (lex_all (yy_scan_string script lx)) as [[toks lx']|e|]; [|exact H|done].
  destruct H as (Htok & Hv%scanner_tokens_readable & _). rewrite bind_Ok. cbv iota beta.
  destruct (yyparse_final builtin functions Hregistered toks (lx_loc lx', lx_line lx', lx_column lx') root0 c0 Hv)
    as (error & p & -> & Hres & Hc & Hroot).
  rewrite bind_Ok. cbv iota beta. split; [done|]. split; [done|]. intros Heq.
  destruct (Hroot Heq) as (-> & e & Hroot' & He). split; [done|]. by exists toks, e.
Qed.
End compose.

Lemma start_fits script : (String.length script <= 1025)%nat -> fits start_lexer (String.list_ascii_of_string script).
Proof. intros H. split; [by rewrite length_list_ascii|done]. Qed.

(** The trees of a script that is parsed as the program starts have ranges inside it. *)
Lemma script_ranges functions script toks e lx' :
  tokenises (core start_lexer) (String.list_ascii_of_string script) toks lx' -> derives id functions toks e ->
  ranges_inside (strlen script) e = true.
Proof.
  intros Htok He. apply (proj1 (derives_ranges functions (strlen script)) toks e He). exists 0.
  eapply tokenises_ranged; [exact Htok|by left|]. unfold in_range, strlen. cbn -[Z.add Z.of_nat].
  rewrite length_list_ascii. lia.
Qed.

(** ** The functions of the program *)

Definition program_functions : registry (Builtin + Install) :=
  match register_functions with Ok r => r | _ => empty_registry end.

Lemma program_functions_ok : register_functions = Ok program_functions.
Proof. by vm_compute. Qed.

Lemma program_functions_registered : registered program_functions.
Proof.
  pose proof program_functions_ok as H. unfold register_functions in H. apply res_bind_ok in H as (r & H1 & H2).
  exists all_functions, r. split; [apply (bool_decide_unpack _); by vm_compute|]. by split.
Qed.

Lemma c_string_text l : exists s, c_string l = to_string s /\ no_nul s.
Proof.
  induction l as [|c l (s & IH & Hs)]; cbn; [exists []; by split; constructor|].
  destruct (char_code c =? 0) eqn:Hc; [exists []; by split; constructor|].
  exists (c :: s). cbn. rewrite IH. split; [done|]. constructor; [|done]. intros ->. done.
Qed.

(** What [report] returns for a result that goes with its message. *)
Lemma report_outcome {W} `{!InstallOs W} cmd result m (w : W) :
  (result = None <-> m <> None) ->
  exists status w', report cmd result m w = Ok (status, w') /\
    (result <> None /\ status = 0 \/ result = None /\ m <> None /\ status = 7).
Proof.
  intros H. destruct result as [r|]; [by exists 0; eexists; split; [done|left]|].
  destruct m as [m|]; [|by destruct (proj1 H eq_refl)]. unfold report. cbv zeta.
  destruct (c_string_text (chars m)) as (s & -> & Hs). rewrite ui_print_scan_spec, bind_Ok by done.
  cbv iota beta. exists 7. eexists. split; [done|]. by right.
Qed.

(** ** Theorems *)

(** C29. From text to result: any script of at most 1025 characters, NUL-free, is
    scanned and parsed without undefined behaviour; if no error was counted, its tree
    is one the grammar derives from the tokens of the script, and when its calls have
    the arguments that [sleep] and [is_substring] take for granted, its evaluation
    returns, with NULL exactly when there is a message. *)
Theorem script_runs {C W} `{!ScriptOs W} script (st : State C W) :
  no_NUL (String.list_ascii_of_string script) -> (String.length script <= 1025)%nat ->
  Edify.script st = script -> errmsg st = None ->
  exists error p lx', parse_script id builtins script start_lexer None 0 = Ok (error, p, lx') /\
    (error_count p = 0 -> error = 0 /\
     exists toks e, root p = Some e /\ tokenises (core start_lexer) (String.list_ascii_of_string script) toks (core lx') /\
       derives id builtins toks e /\
       (enough_arguments e = true ->
        exists r st', Evaluate e st = Ok (r, st') /\ (r = None <-> errmsg st' <> None))).
Proof.
  intros Hw Hlen Hst Hmsg.
  pose proof (parse_script_outcome id builtins builtins_registered script start_lexer None 0 Hw start_ready) as H.
  destruct (parse_script id builtins script start_lexer None 0) as [[[error p] lx']|e|]; [| |done];
    [|by destruct H as (_ & _ & []); apply start_fits].
  exists error, p, lx'. split; [done|]. destruct H as (_ & _ & H). intros Hc.
  destruct (H Hc) as (-> & toks & e & Hroot & He & Htok). split; [done|]. exists toks, e. split_and!; try done.
  intros Hargs. apply evaluation_reports; [|done].
  by rewrite well_formed_split, Hargs, Hst, (script_ranges builtins script toks e _ Htok He).
Qed.

(** The test program of the interpreter passes: in any outside world, all of its
    scripts are scanned, parsed and evaluated to the results it expects, and it counts
    no error. *)
Theorem self_test_passes {W} `{!ScriptOs W} (w : W) : exists t, test builtins w = Ok (0, t).
Proof. eexists. by vm_compute. Qed.

(** C30. The program of the application, for any script it has read, of any length: it
    terminates; it exits with 6 when the parse counted errors, and otherwise evaluates a
    tree that the grammar derives from the tokens of the script, exiting with 0 for a
    result and with 7 for an abort, which always comes with a message.  Undefined
    behaviour can only come from a function of the script, or, and only for a script of
    more than 1025 characters, from a quoted string that does not fit [string_buffer]:
    then the longest matches of the rules lead to a store behind its end. *)
Theorem run_script_outcome {W} `{!InstallOs W} cmd argv script (w : W) :
  no_NUL (String.list_ascii_of_string script) -> (2 <= length argv)%nat ->
  match parse_script inl program_functions script start_lexer None 0 with
  | Ok (error, p, lx') =>
      if 0 <? error_count p then exists w', run_script cmd argv script w = Ok (6, w')
      else
        exists toks root st, tokenises (core start_lexer) (String.list_ascii_of_string script) toks (core lx') /\
          derives inl program_functions toks root /\ Edify.script st = script /\ errmsg st = None /\
          match run_script cmd argv script w with
          | Ok (status, _) =>
              exists result st', Evaluate root st = Ok (result, st') /\
                (result <> None /\ status = 0 \/ result = None /\ errmsg st' <> None /\ status = 7)
          | Err e => Evaluate root st = Err e
          | Diverges => False
          end
  | Err e =>
      e = OutOfBounds /\ run_script cmd argv script w = Err OutOfBounds /\
      overflows (core start_lexer) (String.list_ascii_of_string script) /\ (1025 < String.length script)%nat
  | Diverges => False
  end.
Proof.
  intros Hw Hargs.
  pose proof (parse_script_outcome inl program_functions program_functions_registered script start_lexer None 0 Hw start_ready) as H.
  unfold run_script. rewrite program_functions_ok, bind_Ok.
  destruct (parse_script inl program_functions script start_lexer None 0) as [[[error p] lx']|e|]; [| |done].
  2:{ destruct H as (-> & Hov & Hfit). split; [done|]. split; [done|]. split; [exact Hov|].
      destruct (Nat.ltb_spec 1025 (String.length script)) as [|Hlen]; [done|]. by destruct Hfit; apply start_fits. }
  destruct H as (_ & Hc & H). rewrite bind_Ok. cbv iota beta.
  destruct (Z.ltb_spec 0 (error_count p)) as [Hpos|Hle]; [rewrite orb_true_r; by eexists|].
  destruct (H ltac:(lia)) as (-> & toks & root & Hroot & He & Htok).
  change (negb (0 =? 0) || false) with false. cbv iota. rewrite Hroot, bind_Ok. unfold argument.
  destruct argv as [|a0 [|a1 argv]]; [cbn in Hargs; lia..|]. change ((a0 :: a1 :: argv) !! 1%nat) with (Some a1).
  destruct (match os_create LOG_NAME _ with Some w => (Some LogFd, w) | None => (None, _) end) as [log w1].
  rewrite bind_Ok. set (st := mkState _ script None w1). exists toks, root, st. split_and!; try done.
  destruct (Evaluate root st) as [[r st']|e|] eqn:Heq; [|done|by apply (Evaluate_halts root st)].
  rewrite bind_Ok. cbv iota beta. apply Evaluate_honest in Heq as Hhonest. destruct Hhonest as [_ Hr].
  destruct (report_outcome cmd r (errmsg st') (world st')) as (status & w' & -> & Hst); [by destruct r; rewrite ?Hr|].
  by exists r, st'.
Qed.

(** ** Witnesses *)

(** [concat(a, b) == ab && is_substring(a, ab)]. *)
Definition ex_source : string := "concat(a, b) == ab && is_substring(a, ab)".

Lemma ex_source_no_NUL : no_NUL (String.list_ascii_of_string ex_source).
Proof. by repeat constructor. Qed.

Lemma script_runs_witness :
  exists p lx' e, parse_script id builtins ex_source start_lexer None 0 = Ok (0, p, lx') /\ root p = Some e /\
    exists r st', Evaluate e (ex_state ex_source) = Ok (r, st') /\ (r = None <-> errmsg st' <> None).
Proof.
  destruct (script_runs ex_source (ex_state ex_source) ex_source_no_NUL ltac:(by vm_compute; lia) eq_refl eq_refl)
    as (error & p & lx' & Heq & Hok).
  assert (match parse_script id builtins ex_source start_lexer None 0 with
          | Ok (_, p, _) =>
              (error_count p =? 0) && match root p with Some e => enough_arguments e | None => false end
          | _ => false end = true) as Hcheck by by vm_compute.
  rewrite Heq in Hcheck. apply andb_true_iff in Hcheck as [Hc%Z.eqb_eq Hargs]. destruct (Hok Hc) as (-> & toks & e & Hroot & _ & _ & Hev).
  rewrite Hroot in Hargs. exists p, lx', e. split; [exact Heq|]. split; [exact Hroot|exact (Hev Hargs)].
Defined.

(** A comment of 1200 characters and [setprop(a, b) ; abort(c)], in a world without
    files; and a string that is too long. *)
Definition ex_program : string :=
  String.string_of_list_ascii ("#"%char :: replicate 1199 "x"%char) +:+ str_lf +:+ "setprop(a, b) ; abort(c)".
Definition ex_long : string := dq +:+ String.string_of_list_ascii (replicate 1024 "x"%char) +:+ dq.

Lemma ex_program_no_NUL : no_NUL (String.list_ascii_of_string ex_program).
Proof. by apply (bool_decide_unpack _); vm_compute. Qed.
Lemma ex_long_no_NUL : no_NUL (String.list_ascii_of_string ex_long).
Proof. by apply (bool_decide_unpack _); vm_compute. Qed.

Lemma run_script_outcome_witness :
  (exists w' st (root : Expr (Builtin + Install)) st',
     run_script CmdPipe ["adhoc"; "start"; "3"]%string ex_program (mkSim [] []) = Ok (7, w') /\
     Evaluate root st = Ok (None, st') /\ errmsg st' <> None) /\
  run_script CmdPipe ["adhoc"; "start"; "3"]%string ex_long (mkSim [] []) = Err OutOfBounds.
Proof.
  split.
  - pose proof (run_script_outcome CmdPipe ["adhoc"; "start"; "3"]%string ex_program (mkSim [] []) ex_program_no_NUL
                  ltac:(by vm_compute; lia)) as H.
    assert (match parse_script inl program_functions ex_program start_lexer None 0 with
            | Ok (_, p, _) => error_count p =? 0 | _ => false end = true) as Hc by by vm_compute.
    destruct (parse_script inl program_functions ex_program start_lexer None 0) as [[[error p] lx']| |]; [|discriminate Hc..].
    apply Z.eqb_eq in Hc. rewrite Hc in H. destruct H as (toks & root & st & _ & _ & _ & _ & H).
    assert (match run_script CmdPipe ["adhoc"; "start"; "3"]%string ex_program (mkSim [] []) with
            | Ok (status, _) => status =? 7 | _ => false end = true) as Hst by by vm_compute.
    destruct (run_script CmdPipe ["adhoc"; "start"; "3"]%string ex_program (mkSim [] [])) as [[status w']| |];
      [|discriminate Hst..].
    apply Z.eqb_eq in Hst as ->. destruct H as (result & st' & Hev & [[_ Hbad]|(-> & Hm & _)]); [discriminate Hbad|].
    exists w', st, root, st'. split; [reflexivity|]. split; [exact Hev|exact Hm].
  - pose proof (run_script_outcome CmdPipe ["adhoc"; "start"; "3"]%string ex_long (mkSim [] []) ex_long_no_NUL
                  ltac:(by vm_compute; lia)) as H.
    assert (match parse_script inl program_functions ex_long start_lexer None 0 with Ok _ => false | _ => true end = true)
      as Hlong by by vm_compute.
    destruct (parse_script inl program_functions ex_long start_lexer None 0) as [[[error p] lx']|e|];
      [discriminate Hlong|apply H|destruct H].
Defined.
