(* ===== verification/EdifyPrecedence.v ===== *)
(** * The parser resolves the precedences as declared

    The other direction of [EdifyGrammar]: the grammar of [parser.y] without its
    ambiguities, after the precedences it declares, and a run of the automaton for
    every derivation. *)

From stdpp Require Import base list strings relations.
From Stdlib Require Import ZArith Lia ZifyBool ZifyNat.
From S2P Require Import Prelude CString Edify EdifyParser EdifyGrammar.

Open Scope Z_scope.

Section precedence.
Context {F : Type} (builtin : Builtin -> F) (functions : registry F).
Local Abbreviation parser := (@parser F).
Local Abbreviation entry := (@entry F).
Local Abbreviation YYSTYPE := (@YYSTYPE F).
Local Abbreviation Expr := (Expr F).
Local Abbreviation yybackup := (yybackup builtin functions).
Local Abbreviation yyreduce := (yyreduce builtin functions).
Local Abbreviation yybackup_spec := (yybackup_spec builtin functions).
Local Abbreviation yyparse_final := (yyparse_final builtin functions).

(** ** The grammar

    The operators with the precedences and the associativity
    that [parser.y] declares. *)

Definition prec (sym : Z) : Z :=
  if sym =? S_semi then 1
  else if sym =? S_OR then 3
  else if sym =? S_AND then 4
  else if (sym =? S_EQ) || (sym =? S_NE) then 5
  else if sym =? S_plus then 6
  else 0.

(** An expression behind an operator of precedence [q] (0: behind none, 7: behind
    [!]), which the tokens do not extend to the left; an operator after it of a
    precedence of at most [r] leaves it a whole.  A semicolon may end an expression
    that stands behind no operator, and a comma may stand before the first argument. *)
Inductive parses : Z -> Z -> list token -> Expr -> Prop :=
  | parses_literal q t s :
      tok_sym t = S_STRING -> tk_str t = Some s ->
      parses q 7 [t] (mkExpr (builtin Fn_Literal) s [] (loc_start (span [t])) (loc_end (span [t])))
  | parses_paren q l r0 toks r e :
      tok_sym l = S_lpar -> tok_sym r = S_rpar -> parses 0 r0 toks e ->
      parses q 7 (l :: toks ++ [r]) (set_range (span (l :: toks ++ [r])) e)
  | parses_end r0 toks t e :
      tok_sym t = S_semi -> parses 0 r0 toks e ->
      parses 0 7 (toks ++ [t]) (set_range (span toks) e)
  | parses_operator q r1 r2 toks1 t toks2 f e1 e2 :
      operator_of (tok_sym t) = Some f -> q < prec (tok_sym t) <= r1 ->
      parses q r1 toks1 e1 -> parses (prec (tok_sym t)) r2 toks2 e2 ->
      parses q (prec (tok_sym t)) (toks1 ++ t :: toks2)
        (operator builtin f (span (toks1 ++ t :: toks2)) [e1; e2])
  | parses_not q r0 t toks e :
      tok_sym t = S_not -> parses 7 r0 toks e ->
      parses q 7 (t :: toks) (operator builtin Fn_LogicalNot (span (t :: toks)) [e])
  | parses_if q ra rb t1 toks1 t2 toks2 t3 e1 e2 :
      tok_sym t1 = S_IF -> tok_sym t2 = S_THEN -> tok_sym t3 = S_ENDIF ->
      parses 0 ra toks1 e1 -> parses 0 rb toks2 e2 ->
      parses q 7 (t1 :: toks1 ++ t2 :: toks2 ++ [t3])
        (operator builtin Fn_IfElse (span (t1 :: toks1 ++ t2 :: toks2 ++ [t3])) [e1; e2])
  | parses_ifelse q ra rb rc t1 toks1 t2 toks2 t3 toks3 t4 e1 e2 e3 :
      tok_sym t1 = S_IF -> tok_sym t2 = S_THEN -> tok_sym t3 = S_ELSE -> tok_sym t4 = S_ENDIF ->
      parses 0 ra toks1 e1 -> parses 0 rb toks2 e2 -> parses 0 rc toks3 e3 ->
      parses q 7 (t1 :: toks1 ++ t2 :: toks2 ++ t3 :: toks3 ++ [t4])
        (operator builtin Fn_IfElse (span (t1 :: toks1 ++ t2 :: toks2 ++ t3 :: toks3 ++ [t4])) [e1; e2; e3])
  | parses_call q t s f l toks r argv :
      tok_sym t = S_STRING -> tk_str t = Some s -> tok_sym l = S_lpar -> tok_sym r = S_rpar ->
      FindFunction s functions = Ok (Some f) -> parses_args toks argv ->
      parses q 7 (t :: l :: toks ++ [r])
        (mkExpr f s argv (loc_start (span (t :: l :: toks ++ [r]))) (loc_end (span (t :: l :: toks ++ [r]))))
with parses_args : list token -> list Expr -> Prop :=
  | parses_none : parses_args [] []
  | parses_first r toks e : parses 0 r toks e -> parses_args toks [e]
  | parses_next r toks argv t toks' e :
      tok_sym t = S_comma -> parses_args toks argv -> parses 0 r toks' e ->
      parses_args (toks ++ t :: toks') (argv ++ [e]).

(** The states an expression starts in, with the precedence of the operator before. *)
Definition contexts : list (Z * Z) :=
  [(0, 0); (2, 0); (5, 0); (10, 0); (21, 0); (32, 0); (34, 0); (18, 1); (15, 3); (14, 4); (16, 5); (17, 5);
   (19, 6); (4, 7)].
(** The symbols that can follow an expression. *)
Definition follow : list Z :=
  [0; S_AND; S_OR; S_EQ; S_NE; S_THEN; S_ELSE; S_ENDIF; S_semi; S_comma; S_plus; S_rpar].
Definition operators : list (Z * Z) :=
  [(S_semi, 18); (S_OR, 15); (S_AND, 14); (S_EQ, 16); (S_NE, 17); (S_plus, 19)].

Definition expr_state (s : Z) : Z := of_res 0 (yygoto S_expr s).
Definition acts (s tok : Z) (a : action) : bool := bool_decide (of_res Error (lr_action s tok) = a).

(** What the tables do in a context. *)
Definition context_ok (s q : Z) : bool :=
  acts s S_STRING (Shift 3) && acts s S_lpar (Shift 5) && acts s S_not (Shift 4) && acts s S_IF (Shift 2) &&
  forallb (fun '(op, t) => negb (q <? prec op) || acts (expr_state s) op (Shift t)) operators &&
  bool_decide (expr_state s ∈ states).
Definition operator_ok (op s : Z) (n : Z) : bool :=
  forallb (fun tok => negb (prec tok <=? prec op) || acts (expr_state s) tok (Reduce n)) follow.

Lemma contexts_ok : forallb (fun '(s, q) => context_ok s q) contexts = true.
Proof. by vm_compute. Qed.

Lemma operators_ok :
  operator_ok S_semi 18 6 && operator_ok S_plus 19 8 && operator_ok S_EQ 16 9 && operator_ok S_NE 17 10 &&
  operator_ok S_AND 14 11 && operator_ok S_OR 15 12 = true.
Proof. by vm_compute. Qed.

Lemma others_ok :
  forallb (fun tok => acts 3 tok (Reduce 3) && acts 18 tok (Reduce 5) && acts 11 tok (Reduce 13)) follow &&
  forallb (fun tok => acts 24 tok (Reduce 4) && acts 35 tok (Reduce 14) && acts 38 tok (Reduce 15) &&
                      acts 33 tok (Reduce 16)) follow = true.
Proof. by vm_compute. Qed.

(** *** Runs of the automaton *)

Definition step (p p' : parser) : Prop := yysetstate builtin functions p = Ok (Running p').

(** A run that has raised no error stands at a stack and the tokens left. *)
Definition stands (c0 : Z) (p : parser) (stk : list entry) (toks : list token) : Prop :=
  stack p = stk /\ ahead p toks /\ YYINITDEPTH <= yystacksize p <= YYMAXDEPTH /\
  Z.of_nat (length stk) < yystacksize p /\ yyerrstatus p = 0 /\ error_count p = c0.

Lemma acts_spec s tok a : acts s tok a = true -> a <> Error -> lr_action s tok = Ok a.
Proof.
  unfold acts. rewrite bool_decide_eq_true. destruct (lr_action s tok); cbn; by (intros <- || intros <- ?).
Qed.

(** Growing the stacks does not change what the step does. *)
Lemma yysetstate_roomy c0 p stk toks :
  stands c0 p stk toks -> Z.of_nat (length stk) < 9999 ->
  exists p', stands c0 p' stk toks /\ root p' = root p /\ roomy p' /\
    yysetstate builtin functions p = yybackup p'.
Proof.
  intros (Hst & Ha & Hs & Hlen & He & Hc) Hmax. unfold yysetstate. rewrite Hst.
  destruct (Z.leb_spec (yystacksize p - 1) (Z.of_nat (length stk))) as [Hfull|Hroom].
  - unfold YYMAXDEPTH, YYINITDEPTH in *. rewrite (proj2 (Z.leb_gt _ _)) by lia.
    cbn [yystacksize set_stacksize stack]. rewrite Hst, (proj2 (Z.leb_gt _ _)) by lia.
    exists (set_stacksize (Z.min (yystacksize p * 2) 10000) p). unfold stands, roomy, YYINITDEPTH, YYMAXDEPTH.
    cbn [stack yystacksize set_stacksize root yyerrstatus error_count]. rewrite Hst. split_and!; try done; lia.
  - exists p. unfold stands, roomy. rewrite Hst. split_and!; try done; lia.
Qed.

Lemma step_shift c0 p stk t rest s :
  stands c0 p stk (t :: rest) -> Z.of_nat (length stk) < 9999 -> Forall readable_token (t :: rest) ->
  yystate stk ∈ states -> acts (yystate stk) (tok_sym t) (Shift s) = true ->
  exists p' v, step p p' /\ stands c0 p' (mkEntry s v (tk_loc t) :: stk) rest /\
    forall str, tk_str t = Some str -> v = Str str.
Proof.
  intros Hp Hlen Hv Hs Hact%acts_spec; [|done].
  destruct (yysetstate_roomy _ _ _ _ Hp Hlen) as (p1 & (Hst & Ha & Hz & Hlz & He & Hc) & _ & [_ Hroom] & Hstep).
  rewrite <- Hst in Hs, Hact.
  destruct (yybackup_spec p1 (t :: rest) (Shift s) Ha Hv Hs Hact) as (p2 & v & Hsame & Ha2 & Hb & Hstr).
  unfold shifted in Hsame. rewrite He in Hsame. cbn [Z.eqb] in Hsame. destruct Hsame as (H1 & H2 & H3 & H4 & H5).
  rewrite push_ok in Hb by (rewrite H2; lia). rewrite Hb in Hstep. eexists _, v. split; [exact Hstep|].
  rewrite Hst. split; [|done]. unfold stands. cbn [set_stack stack yystacksize yyerrstatus error_count length].
  rewrite <- Hst. split_and!; try done; try (rewrite H2; lia); congruence.
Qed.

(** The entries of the right hand side, in order, and the result. *)
Lemma step_action c0 p rhs below toks n lhs yyloc act v t :
  stands c0 p (reverse rhs ++ below) toks -> Z.of_nat (length (reverse rhs ++ below)) < 9999 ->
  Forall readable_token toks -> yystate (reverse rhs ++ below) ∈ states ->
  acts (yystate (reverse rhs ++ below)) (sym_ahead toks) (Reduce n) = true ->
  at_index yyr1 n = Ok lhs -> at_index yyr2 n = Ok (Z.of_nat (length rhs)) ->
  default_loc below rhs = Ok yyloc ->
  yyaction builtin functions n (default_value rhs) yyloc rhs = Ok act ->
  act = Value v \/ (exists e, act = Accepted e v) ->
  yygoto lhs (yystate below) = Ok t ->
  exists p', step p p' /\ stands c0 p' (mkEntry t v yyloc :: below) toks /\
    match act with Accepted e _ => root p' = Some e | _ => True end.
Proof.
  intros Hp Hlen Hv Hs Hact%acts_spec Hr1 Hr2 Hloc Hval Hv' Hgoto; [|done].
  destruct (yysetstate_roomy _ _ _ _ Hp Hlen) as (p1 & (Hst & Ha & Hz & Hlz & He & Hc) & _ & [_ Hroom] & Hstep).
  rewrite <- Hst in Hs, Hact.
  destruct (yybackup_spec p1 toks (Reduce n) Ha Hv Hs Hact) as (p2 & (H1 & H2 & H3 & H4 & H5) & Ha2 & Hb).
  rewrite Hst in H1, Hroom. rewrite Hb in Hstep. revert Hstep. unfold EdifyParser.yyreduce.
  rewrite Hr2. cbn [mbind res_bind]. rewrite Nat2Z.id, H1.
  rewrite take_app_length', drop_app_length' by (by rewrite length_reverse). rewrite reverse_involutive.
  rewrite length_app, length_reverse in *. rewrite (proj2 (Z.ltb_ge _ _)) by lia.
  rewrite Hloc. cbn [mbind res_bind]. rewrite Hval. cbn [mbind res_bind].
  destruct Hv' as [->|(e & ->)]; rewrite Hr1; cbn [mbind res_bind]; rewrite Hgoto; cbn [mbind res_bind];
    (rewrite push_ok by (cbn; lia)); intros Hstep; eexists; (split; [exact Hstep|]);
    (split; [|done]); unfold stands; cbn [set_stack set_root stack yystacksize yyerrstatus error_count length];
    rewrite H2, H3, H5; split_and!; try done; lia.
Qed.

Lemma step_reduce c0 p rhs below toks n lhs yyloc v t :
  stands c0 p (reverse rhs ++ below) toks -> Z.of_nat (length (reverse rhs ++ below)) < 9999 ->
  Forall readable_token toks -> yystate (reverse rhs ++ below) ∈ states ->
  acts (yystate (reverse rhs ++ below)) (sym_ahead toks) (Reduce n) = true ->
  at_index yyr1 n = Ok lhs -> at_index yyr2 n = Ok (Z.of_nat (length rhs)) ->
  default_loc below rhs = Ok yyloc ->
  yyaction builtin functions n (default_value rhs) yyloc rhs = Ok (Value v) ->
  yygoto lhs (yystate below) = Ok t ->
  exists p', step p p' /\ stands c0 p' (mkEntry t v yyloc :: below) toks.
Proof.
  intros Hp Hlen Hv Hs Hact Hr1 Hr2 Hloc Hval Hgoto.
  destruct (step_action c0 p rhs below toks n lhs yyloc (Value v) v t) as (p' & Hstep & Hp' & _); try done; [by left|].
  by exists p'.
Qed.
Scheme parses_mut := Induction for parses Sort Prop
  with parses_args_mut := Induction for parses_args Sort Prop.
Combined Scheme parses_all from parses_mut, parses_args_mut.

(** From a state where an expression starts, the tokens of one are replaced by it. *)
Definition simulates (q r : Z) (toks : list token) (e : Expr) : Prop :=
  forall c0 stk rest p,
    (yystate stk, q) ∈ contexts -> sym_ahead rest ∈ follow -> prec (sym_ahead rest) <= r ->
    Forall readable_token (toks ++ rest) -> Z.of_nat (length stk + length toks) < 9998 ->
    stands c0 p stk (toks ++ rest) ->
    exists p', rtc step p p' /\
      stands c0 p' (mkEntry (expr_state (yystate stk)) (Tree e) (span toks) :: stk) rest.

(** With what the enclosing expressions need to know. *)
Definition claim (q r : Z) (toks : list token) (e : Expr) : Prop :=
  (0 < length toks)%nat /\ (q < r \/ r = 7) /\ simulates q r toks e.

(** The same for arguments, behind an opening parenthesis.  No arguments take an entry of
    the stack as well, before a comma. *)
Definition simulates_args (toks : list token) (argv : list Expr) : Prop :=
  forall c0 stk rest p,
    yystate stk = 10 -> sym_ahead rest ∈ [S_comma; S_rpar] -> Forall readable_token (toks ++ rest) ->
    Z.of_nat (length stk + length toks) < 9997 -> stands c0 p stk (toks ++ rest) ->
    exists p' l, rtc step p p' /\ stands c0 p' (mkEntry 23 (Args argv) l :: stk) rest.

Lemma context_facts s q :
  (s, q) ∈ contexts ->
  s ∈ states /\ expr_state s ∈ states /\ yygoto S_expr s = Ok (expr_state s) /\
  acts s S_STRING (Shift 3) = true /\ acts s S_lpar (Shift 5) = true /\ acts s S_not (Shift 4) = true /\
  acts s S_IF (Shift 2) = true.
Proof.
  intros Hin. pose proof (forallb_elem _ _ _ contexts_ok Hin) as H. cbn beta iota in H.
  unfold context_ok in H. rewrite !andb_true_iff, bool_decide_eq_true in H. destruct H as [[[[[H1 H2] H3] H4] _] H6].
  assert (forallb (fun '(s, _) => bool_decide (s ∈ states) && is_ok (yygoto S_expr s)) contexts = true) as Hall by by vm_compute.
  pose proof (forallb_elem _ _ _ Hall Hin) as Hs. cbn in Hs. rewrite andb_true_iff, bool_decide_eq_true in Hs.
  destruct Hs as [Hs Hok]. split_and!; try done. unfold expr_state. by destruct (yygoto S_expr s).
Qed.

Lemma follow_facts tok :
  tok ∈ follow ->
  acts 3 tok (Reduce 3) = true /\ acts 18 tok (Reduce 5) = true /\ acts 11 tok (Reduce 13) = true /\
  acts 24 tok (Reduce 4) = true /\ acts 35 tok (Reduce 14) = true /\ acts 38 tok (Reduce 15) = true /\
  acts 33 tok (Reduce 16) = true.
Proof.
  intros Hin. pose proof others_ok as H. apply andb_true_iff in H as [H1 H2].
  pose proof (forallb_elem _ _ _ H1 Hin) as Ha. pose proof (forallb_elem _ _ _ H2 Hin) as Hb. cbn beta in Ha, Hb.
  rewrite !andb_true_iff in Ha, Hb. tauto.
Qed.

Lemma state_in s : bool_decide (s ∈ states) = true -> s ∈ states.
Proof. apply bool_decide_eq_true_1. Qed.

(** Side conditions of the runs. *)
Ltac in_list := by apply (bool_decide_eq_true_1 (_ ∈ _)).
Ltac valid := repeat rewrite ?Forall_app, ?Forall_cons in *; tauto.
Ltac lengths := repeat (progress (cbn [length app] in *; rewrite ?length_app, ?length_reverse in *)); lia.
Ltac run :=
  repeat first [ eapply rtc_l; [eassumption|] | etrans; [eassumption|] ]; apply rtc_refl.

Lemma prec_range sym : 0 <= prec sym <= 6.
Proof. unfold prec. repeat case_match; lia. Qed.

Lemma operator_shift q s op os :
  (s, q) ∈ contexts -> (op, os) ∈ operators -> q < prec op -> acts (expr_state s) op (Shift os) = true.
Proof.
  intros Hin Hop Hq. pose proof (forallb_elem _ _ _ contexts_ok Hin) as H. cbn beta iota in H.
  unfold context_ok in H. rewrite !andb_true_iff in H. destruct H as [[_ H] _].
  pose proof (forallb_elem _ _ _ H Hop) as Ha. cbn beta iota in Ha.
  by rewrite (proj2 (Z.ltb_lt _ _) Hq) in Ha.
Qed.

Lemma operator_facts op f :
  operator_of op = Some f ->
  exists os n, (op, os) ∈ operators /\ (os, prec op) ∈ contexts /\ op ∈ follow /\
    at_index yyr2 n = Ok 3 /\ at_index yyr1 n = Ok S_expr /\
    (forall yyval yyloc rhs, yyaction builtin functions n yyval yyloc rhs = Value <$> binary_action builtin f yyloc rhs) /\
    (forall tok, tok ∈ follow -> prec tok <= prec op -> acts (expr_state os) tok (Reduce n) = true).
Proof.
  intros Hop.
  assert (forall op os n, operator_ok op os n = true ->
    forall tok, tok ∈ follow -> prec tok <= prec op -> acts (expr_state os) tok (Reduce n) = true) as Hred.
  { intros op' os n Hok tok Hin Hp. pose proof (forallb_elem _ _ _ Hok Hin) as H. cbn beta in H.
    by rewrite (proj2 (Z.leb_le _ _) Hp) in H. }
  pose proof operators_ok as H. rewrite !andb_true_iff in H. destruct H as [[[[[H1 H2] H3] H4] H5] H6].
  unfold operator_of in Hop.
  repeat match type of Hop with (if ?a =? ?b then _ else _) = _ =>
    destruct (Z.eqb_spec a b) as [->|_]; [injection Hop as <-|] end; [..|done].
  - exists 18, 6. split_and!; first [in_list | by apply Hred | done].
  - exists 19, 8. split_and!; first [in_list | by apply Hred | done].
  - exists 16, 9. split_and!; first [in_list | by apply Hred | done].
  - exists 17, 10. split_and!; first [in_list | by apply Hred | done].
  - exists 14, 11. split_and!; first [in_list | by apply Hred | done].
  - exists 15, 12. split_and!; first [in_list | by apply Hred | done].
Qed.

Lemma simulates_literal q t s :
  tok_sym t = S_STRING -> tk_str t = Some s ->
  simulates q 7 [t] (mkExpr (builtin Fn_Literal) s [] (loc_start (span [t])) (loc_end (span [t]))).
Proof.
  intros Ht Hs c0 stk rest p Hctx Hf Hprec Hv Hlen Hp.
  destruct (context_facts _ _ Hctx) as (Hst & _ & Hgoto & Hstring & _).
  destruct (follow_facts _ Hf) as (H3 & _). cbn [app] in *.
  destruct (step_shift c0 p stk t rest 3) as (p1 & v1 & Hstep1 & Hp1 & Hv1); [done|lengths|done|done|by rewrite Ht|].
  rewrite (Hv1 _ Hs) in Hp1.
  destruct (step_reduce c0 p1 [mkEntry 3 (Str s) (tk_loc t)] stk rest 3 S_expr (span [t])
    (Tree (mkExpr (builtin Fn_Literal) s [] (loc_start (span [t])) (loc_end (span [t])))) (expr_state (yystate stk)))
    as (p2 & Hstep2 & Hp2); [done|lengths|valid|by apply state_in|done|done|done| |done|done|].
  - done.
  - exists p2. split; [run|done].
Qed.
(** A location computed from the first and the last entry. *)
Lemma located a m b :
  (0 < length a)%nat -> (0 < length b)%nat ->
  Ok (mkLoc (loc_start (span a)) (loc_end (span b))) = Ok (span (a ++ m ++ b)).
Proof. intros Ha Hb. rewrite span_ends; [done|intros ->; cbn in *; lia..]. Qed.

(** What comes next is the token of [H], which may follow an expression. *)
Ltac next H := cbn [sym_ahead]; rewrite H; in_list.
Ltac next_prec H := cbn [sym_ahead]; rewrite H; cbn; lia.

Lemma simulates_paren q r0 l toks r e :
  tok_sym l = S_lpar -> tok_sym r = S_rpar -> claim 0 r0 toks e ->
  simulates q 7 (l :: toks ++ [r]) (set_range (span (l :: toks ++ [r])) e).
Proof.
  intros Hl Hr (Hne & Hr0 & IH) c0 stk rest p Hctx Hf Hprec Hv Hlen Hp.
  destruct (context_facts _ _ Hctx) as (Hst & _ & Hgoto & _ & Hlpar & _).
  destruct (follow_facts _ Hf) as (_ & _ & _ & H24 & _). cbn [app] in *. rewrite <- app_assoc in *. cbn [app] in *.
  destruct (step_shift c0 p stk l (toks ++ r :: rest) 5) as (p1 & v1 & Hstep1 & Hp1 & _); [done|lengths|done|done|by rewrite Hl|].
  destruct (IH c0 (mkEntry 5 v1 (tk_loc l) :: stk) (r :: rest) p1) as (p2 & Hrun2 & Hp2);
    [in_list|next Hr|next_prec Hr|valid|lengths|done|].
  destruct (step_shift c0 p2 _ r rest 24 Hp2) as (p3 & v3 & Hstep3 & Hp3 & _); [lengths|valid|by apply state_in|by cbn; rewrite Hr|].
  destruct (step_reduce c0 p3 [mkEntry 5 v1 (tk_loc l); mkEntry 12 (Tree e) (span toks); mkEntry 24 v3 (tk_loc r)]
    stk rest 4 S_expr (span (l :: toks ++ [r])) (Tree (set_range (span (l :: toks ++ [r])) e)) (expr_state (yystate stk)))
    as (p4 & Hstep4 & Hp4); [done|lengths|valid|by apply state_in|done|done|done| |done|done|].
  - apply (located [l] toks [r]); lengths.
  - exists p4. split; [run|done].
Qed.
Lemma simulates_end r0 toks t e :
  tok_sym t = S_semi -> claim 0 r0 toks e -> simulates 0 7 (toks ++ [t]) (set_range (span toks) e).
Proof.
  intros Ht (Hne & Hr0 & IH) c0 stk rest p Hctx Hf Hprec Hv Hlen Hp.
  destruct (context_facts _ _ Hctx) as (Hst & Hst' & Hgoto & _).
  destruct (follow_facts _ Hf) as (_ & H18 & _). rewrite <- app_assoc in *. cbn [app] in *.
  destruct (IH c0 stk (t :: rest) p) as (p1 & Hrun1 & Hp1); [done|next Ht|next_prec Ht|valid|lengths|done|].
  assert (acts (expr_state (yystate stk)) S_semi (Shift 18) = true) as Hsemi by (apply (operator_shift 0); [done|in_list|done]).
  destruct (step_shift c0 p1 _ t rest 18 Hp1) as (p2 & v2 & Hstep2 & Hp2 & _); [lengths|valid|done|by cbn [yystate ss]; rewrite Ht|].
  destruct (step_reduce c0 p2 [mkEntry (expr_state (yystate stk)) (Tree e) (span toks); mkEntry 18 v2 (tk_loc t)]
    stk rest 5 S_expr (span (toks ++ [t])) (Tree (set_range (span toks) e)) (expr_state (yystate stk)))
    as (p3 & Hstep3 & Hp3); [done|lengths|valid|in_list|done|done|done| |done|done|].
  - apply (located toks [] [t]); lengths.
  - exists p3. split; [run|done].
Qed.

Lemma simulates_operator q r1 r2 toks1 t toks2 f e1 e2 :
  operator_of (tok_sym t) = Some f -> q < prec (tok_sym t) <= r1 ->
  claim q r1 toks1 e1 -> claim (prec (tok_sym t)) r2 toks2 e2 ->
  simulates q (prec (tok_sym t)) (toks1 ++ t :: toks2)
    (operator builtin f (span (toks1 ++ t :: toks2)) [e1; e2]).
Proof.
  intros Hop Hq (Hne1 & _ & IH1) (Hne2 & Hr2 & IH2) c0 stk rest p Hctx Hf Hprec Hv Hlen Hp.
  destruct (context_facts _ _ Hctx) as (Hst & Hst' & Hgoto & _).
  destruct (operator_facts _ _ Hop) as (os & n & Hos & Hosctx & Hfollow & Hr & Hl & Hact & Hreduce).
  destruct (context_facts _ _ Hosctx) as (_ & Hst2 & _). pose proof (prec_range (tok_sym t)) as Hrange.
  rewrite <- app_assoc in *. cbn [app] in *.
  destruct (IH1 c0 stk (t :: toks2 ++ rest) p) as (p1 & Hrun1 & Hp1); [done|done|cbn; lia|valid|lengths|done|].
  destruct (step_shift c0 p1 _ t (toks2 ++ rest) os Hp1) as (p2 & v2 & Hstep2 & Hp2 & _);
    [lengths|valid|done|by cbn [yystate ss]; apply (operator_shift q); [done..|lia]|].
  destruct (IH2 c0 (mkEntry os v2 (tk_loc t) :: mkEntry (expr_state (yystate stk)) (Tree e1) (span toks1) :: stk) rest p2)
    as (p3 & Hrun3 & Hp3); [done|done|lia|valid|lengths|done|]. cbn [yystate ss] in Hp3.
  destruct (step_reduce c0 p3 [mkEntry (expr_state (yystate stk)) (Tree e1) (span toks1); mkEntry os v2 (tk_loc t);
      mkEntry (expr_state os) (Tree e2) (span toks2)]
    stk rest n S_expr (span (toks1 ++ t :: toks2)) (Tree (operator builtin f (span (toks1 ++ t :: toks2)) [e1; e2]))
    (expr_state (yystate stk)))
    as (p4 & Hstep4 & Hp4); [done|lengths|valid|done|by apply Hreduce|done|done| |by rewrite Hact|done|].
  - apply (located toks1 [t] toks2); lengths.
  - exists p4. split; [run|done].
Qed.
Lemma simulates_not q r0 t toks e :
  tok_sym t = S_not -> claim 7 r0 toks e ->
  simulates q 7 (t :: toks) (operator builtin Fn_LogicalNot (span (t :: toks)) [e]).
Proof.
  intros Ht (Hne & Hr0 & IH) c0 stk rest p Hctx Hf Hprec Hv Hlen Hp.
  destruct (context_facts _ _ Hctx) as (Hst & _ & Hgoto & _ & _ & Hnot & _).
  destruct (follow_facts _ Hf) as (_ & _ & H11 & _). cbn [app] in *.
  destruct (step_shift c0 p stk t (toks ++ rest) 4) as (p1 & v1 & Hstep1 & Hp1 & _); [done|lengths|done|done|by rewrite Ht|].
  destruct (IH c0 (mkEntry 4 v1 (tk_loc t) :: stk) rest p1) as (p2 & Hrun2 & Hp2); [in_list|done|lia|valid|lengths|done|].
  destruct (step_reduce c0 p2 [mkEntry 4 v1 (tk_loc t); mkEntry 11 (Tree e) (span toks)]
    stk rest 13 S_expr (span (t :: toks)) (Tree (operator builtin Fn_LogicalNot (span (t :: toks)) [e])) (expr_state (yystate stk)))
    as (p3 & Hstep3 & Hp3); [done|lengths|valid|in_list|done|done|done| |done|done|].
  - apply (located [t] [] toks); lengths.
  - exists p3. split; [run|done].
Qed.

Lemma simulates_if q ra rb t1 toks1 t2 toks2 t3 e1 e2 :
  tok_sym t1 = S_IF -> tok_sym t2 = S_THEN -> tok_sym t3 = S_ENDIF ->
  claim 0 ra toks1 e1 -> claim 0 rb toks2 e2 ->
  simulates q 7 (t1 :: toks1 ++ t2 :: toks2 ++ [t3])
    (operator builtin Fn_IfElse (span (t1 :: toks1 ++ t2 :: toks2 ++ [t3])) [e1; e2]).
Proof.
  intros Ht1 Ht2 Ht3 (Hne1 & Hra & IH1) (Hne2 & Hrb & IH2) c0 stk rest p Hctx Hf Hprec Hv Hlen Hp.
  destruct (context_facts _ _ Hctx) as (Hst & _ & Hgoto & _ & _ & _ & Hif).
  destruct (follow_facts _ Hf) as (_ & _ & _ & _ & H35 & _).
  cbn [app] in *. rewrite <- !app_assoc in *. cbn [app] in *. rewrite <- !app_assoc in *. cbn [app] in *.
  destruct (step_shift c0 p stk t1 (toks1 ++ t2 :: toks2 ++ t3 :: rest) 2) as (p1 & v1 & Hstep1 & Hp1 & _);
    [done|lengths|done|done|by rewrite Ht1|].
  destruct (IH1 c0 (mkEntry 2 v1 (tk_loc t1) :: stk) (t2 :: toks2 ++ t3 :: rest) p1) as (p2 & Hrun2 & Hp2);
    [in_list|next Ht2|next_prec Ht2|valid|lengths|done|].
  destruct (step_shift c0 p2 _ t2 (toks2 ++ t3 :: rest) 21 Hp2) as (p3 & v3 & Hstep3 & Hp3 & _);
    [lengths|valid|in_list|by cbn; rewrite Ht2|].
  destruct (IH2 c0 (mkEntry 21 v3 (tk_loc t2) :: mkEntry 9 (Tree e1) (span toks1) :: mkEntry 2 v1 (tk_loc t1) :: stk)
    (t3 :: rest) p3) as (p4 & Hrun4 & Hp4); [in_list|next Ht3|next_prec Ht3|valid|lengths|done|].
  destruct (step_shift c0 p4 _ t3 rest 35 Hp4) as (p5 & v5 & Hstep5 & Hp5 & _); [lengths|valid|in_list|by cbn; rewrite Ht3|].
  destruct (step_reduce c0 p5 [mkEntry 2 v1 (tk_loc t1); mkEntry 9 (Tree e1) (span toks1); mkEntry 21 v3 (tk_loc t2);
      mkEntry 31 (Tree e2) (span toks2); mkEntry 35 v5 (tk_loc t3)]
    stk rest 14 S_expr (span (t1 :: toks1 ++ t2 :: toks2 ++ [t3]))
    (Tree (operator builtin Fn_IfElse (span (t1 :: toks1 ++ t2 :: toks2 ++ [t3])) [e1; e2])) (expr_state (yystate stk)))
    as (p6 & Hstep6 & Hp6); [done|lengths|valid|in_list|done|done|done| |done|done|].
  - pose proof (located [t1] (toks1 ++ t2 :: toks2) [t3]) as Hloc. rewrite <- !app_assoc in Hloc. apply Hloc; lengths.
  - exists p6. split; [run|done].
Qed.
Lemma simulates_ifelse q ra rb rc t1 toks1 t2 toks2 t3 toks3 t4 e1 e2 e3 :
  tok_sym t1 = S_IF -> tok_sym t2 = S_THEN -> tok_sym t3 = S_ELSE -> tok_sym t4 = S_ENDIF ->
  claim 0 ra toks1 e1 -> claim 0 rb toks2 e2 -> claim 0 rc toks3 e3 ->
  simulates q 7 (t1 :: toks1 ++ t2 :: toks2 ++ t3 :: toks3 ++ [t4])
    (operator builtin Fn_IfElse (span (t1 :: toks1 ++ t2 :: toks2 ++ t3 :: toks3 ++ [t4])) [e1; e2; e3]).
Proof.
  intros Ht1 Ht2 Ht3 Ht4 (Hne1 & Hra & IH1) (Hne2 & Hrb & IH2) (Hne3 & Hrc & IH3) c0 stk rest p Hctx Hf Hprec Hv Hlen Hp.
  destruct (context_facts _ _ Hctx) as (Hst & _ & Hgoto & _ & _ & _ & Hif).
  destruct (follow_facts _ Hf) as (_ & _ & _ & _ & _ & H38 & _).
  do 3 (cbn [app] in *; rewrite <- !app_assoc in *). cbn [app] in *.
  destruct (step_shift c0 p stk t1 (toks1 ++ t2 :: toks2 ++ t3 :: toks3 ++ t4 :: rest) 2) as (p1 & v1 & Hstep1 & Hp1 & _);
    [done|lengths|done|done|by rewrite Ht1|].
  destruct (IH1 c0 (mkEntry 2 v1 (tk_loc t1) :: stk) (t2 :: toks2 ++ t3 :: toks3 ++ t4 :: rest) p1) as (p2 & Hrun2 & Hp2);
    [in_list|next Ht2|next_prec Ht2|valid|lengths|done|].
  destruct (step_shift c0 p2 _ t2 (toks2 ++ t3 :: toks3 ++ t4 :: rest) 21 Hp2) as (p3 & v3 & Hstep3 & Hp3 & _);
    [lengths|valid|in_list|by cbn; rewrite Ht2|].
  destruct (IH2 c0 (mkEntry 21 v3 (tk_loc t2) :: mkEntry 9 (Tree e1) (span toks1) :: mkEntry 2 v1 (tk_loc t1) :: stk)
    (t3 :: toks3 ++ t4 :: rest) p3) as (p4 & Hrun4 & Hp4); [in_list|next Ht3|next_prec Ht3|valid|lengths|done|].
  destruct (step_shift c0 p4 _ t3 (toks3 ++ t4 :: rest) 34 Hp4) as (p5 & v5 & Hstep5 & Hp5 & _);
    [lengths|valid|in_list|by cbn; rewrite Ht3|].
  destruct (IH3 c0 (mkEntry 34 v5 (tk_loc t3) :: mkEntry 31 (Tree e2) (span toks2) :: mkEntry 21 v3 (tk_loc t2) ::
    mkEntry 9 (Tree e1) (span toks1) :: mkEntry 2 v1 (tk_loc t1) :: stk)
    (t4 :: rest) p5) as (p6 & Hrun6 & Hp6); [in_list|next Ht4|next_prec Ht4|valid|lengths|done|].
  destruct (step_shift c0 p6 _ t4 rest 38 Hp6) as (p7 & v7 & Hstep7 & Hp7 & _); [lengths|valid|in_list|by cbn; rewrite Ht4|].
  destruct (step_reduce c0 p7 [mkEntry 2 v1 (tk_loc t1); mkEntry 9 (Tree e1) (span toks1); mkEntry 21 v3 (tk_loc t2);
      mkEntry 31 (Tree e2) (span toks2); mkEntry 34 v5 (tk_loc t3); mkEntry 37 (Tree e3) (span toks3); mkEntry 38 v7 (tk_loc t4)]
    stk rest 15 S_expr (span (t1 :: toks1 ++ t2 :: toks2 ++ t3 :: toks3 ++ [t4]))
    (Tree (operator builtin Fn_IfElse (span (t1 :: toks1 ++ t2 :: toks2 ++ t3 :: toks3 ++ [t4])) [e1; e2; e3]))
    (expr_state (yystate stk)))
    as (p8 & Hstep8 & Hp8); [done|lengths|valid|in_list|done|done|done| |done|done|].
  - pose proof (located [t1] (toks1 ++ t2 :: toks2 ++ t3 :: toks3) [t4]) as Hloc.
    do 2 (cbn [app] in Hloc; rewrite <- !app_assoc in Hloc). apply Hloc; lengths.
  - exists p8. split; [run|done].
Qed.

(** *** Arguments *)

Lemma two_of {A} (x a b : A) : x ∈ [a; b] -> x = a \/ x = b.
Proof. rewrite !elem_of_cons, elem_of_nil. tauto. Qed.

Lemma simulates_none : simulates_args [] [].
Proof.
  intros c0 stk rest p H10 Hf Hv Hlen Hp. cbn [app] in *.
  apply two_of in Hf. destruct stk as [|e stk]; [done|].
  destruct (step_reduce c0 p [] (e :: stk) rest 17 S_arglist (mkLoc (loc_start (ls e)) (loc_end (ls e))) (Args []) 23)
    as (p1 & Hstep1 & Hp1); 
    [done|lengths|done|change (yystate (e :: stk) ∈ states); rewrite H10; in_list
    |change (acts (yystate (e :: stk)) (sym_ahead rest) (Reduce 17) = true); rewrite H10; by destruct Hf as [-> | ->]
    |done|done|done|done|by rewrite H10|].
  exists p1. eexists. split; [run|exact Hp1].
Qed.

Lemma simulates_first r toks e : claim 0 r toks e -> simulates_args toks [e].
Proof.
  intros (Hne & Hr & IH) c0 stk rest p H10 Hf Hv Hlen Hp.
  assert (sym_ahead rest ∈ follow /\ prec (sym_ahead rest) = 0 /\ acts 22 (sym_ahead rest) (Reduce 18) = true) as (Hf' & Hp0 & Hact).
  { apply two_of in Hf as [-> | ->]; (split_and!; [in_list|done|done]). }
  destruct (IH c0 stk rest p) as (p1 & Hrun1 & Hp1); [rewrite H10; in_list|done|lia|done|lengths|done|]. rewrite H10 in Hp1.
  destruct (step_reduce c0 p1 [mkEntry 22 (Tree e) (span toks)] stk rest 18 S_arglist (span toks) (Args [e]) 23)
    as (p2 & Hstep2 & Hp2); [done|lengths|valid|in_list|done|done|done|done|done|by rewrite H10|].
  exists p2. eexists. split; [run|exact Hp2].
Qed.

Lemma simulates_next r toks argv t toks' e :
  tok_sym t = S_comma -> simulates_args toks argv -> claim 0 r toks' e ->
  simulates_args (toks ++ t :: toks') (argv ++ [e]).
Proof.
  intros Ht IH1 (Hne & Hr & IH2) c0 stk rest p H10 Hf Hv Hlen Hp.
  assert (sym_ahead rest ∈ follow /\ prec (sym_ahead rest) = 0 /\ acts 36 (sym_ahead rest) (Reduce 19) = true) as (Hf' & Hp0 & Hact).
  { apply two_of in Hf as [-> | ->]; (split_and!; [in_list|done|done]). }
  rewrite <- app_assoc in *. cbn [app] in *.
  destruct (IH1 c0 stk (t :: toks' ++ rest) p) as (p1 & l1 & Hrun1 & Hp1); [done|next Ht|valid|lengths|done|].
  destruct (step_shift c0 p1 _ t (toks' ++ rest) 32 Hp1) as (p2 & v2 & Hstep2 & Hp2 & _); [lengths|valid|in_list|by cbn; rewrite Ht|].
  destruct (IH2 c0 (mkEntry 32 v2 (tk_loc t) :: mkEntry 23 (Args argv) l1 :: stk) rest p2) as (p3 & Hrun3 & Hp3);
    [in_list|done|lia|valid|lengths|done|].
  destruct (step_reduce c0 p3 [mkEntry 23 (Args argv) l1; mkEntry 32 v2 (tk_loc t); mkEntry 36 (Tree e) (span toks')]
    stk rest 19 S_arglist (mkLoc (loc_start l1) (loc_end (span toks'))) (Args (argv ++ [e])) 23)
    as (p4 & Hstep4 & Hp4); [done|lengths|valid|in_list|done|done|done|done|done|by rewrite H10|].
  exists p4. eexists. split; [run|exact Hp4].
Qed.

Lemma simulates_call q t s f l toks r argv :
  tok_sym t = S_STRING -> tk_str t = Some s -> tok_sym l = S_lpar -> tok_sym r = S_rpar ->
  FindFunction s functions = Ok (Some f) -> simulates_args toks argv ->
  simulates q 7 (t :: l :: toks ++ [r])
    (mkExpr f s argv (loc_start (span (t :: l :: toks ++ [r]))) (loc_end (span (t :: l :: toks ++ [r])))).
Proof.
  intros Ht Hs Hl Hr Hfind IH c0 stk rest p Hctx Hf Hprec Hv Hlen Hp.
  destruct (context_facts _ _ Hctx) as (Hst & _ & Hgoto & Hstring & _).
  destruct (follow_facts _ Hf) as (_ & _ & _ & _ & _ & _ & H33).
  cbn [app] in *. rewrite <- app_assoc in *. cbn [app] in *.
  destruct (step_shift c0 p stk t (l :: toks ++ r :: rest) 3) as (p1 & v1 & Hstep1 & Hp1 & Hv1);
    [done|lengths|done|done|by rewrite Ht|]. rewrite (Hv1 _ Hs) in Hp1.
  destruct (step_shift c0 p1 _ l (toks ++ r :: rest) 10 Hp1) as (p2 & v2 & Hstep2 & Hp2 & _); [lengths|valid|in_list|by cbn; rewrite Hl|].
  destruct (IH c0 (mkEntry 10 v2 (tk_loc l) :: mkEntry 3 (Str s) (tk_loc t) :: stk) (r :: rest) p2) as (p3 & l3 & Hrun3 & Hp3);
    [done|next Hr|valid|lengths|done|].
  destruct (step_shift c0 p3 _ r rest 33 Hp3) as (p4 & v4 & Hstep4 & Hp4 & _); [lengths|valid|in_list|by cbn; rewrite Hr|].
  set (toks' := t :: l :: toks ++ [r]).
  destruct (step_reduce c0 p4 [mkEntry 3 (Str s) (tk_loc t); mkEntry 10 v2 (tk_loc l); mkEntry 23 (Args argv) l3; mkEntry 33 v4 (tk_loc r)]
    stk rest 16 S_expr (span toks') (Tree (mkExpr f s argv (loc_start (span toks')) (loc_end (span toks')))) (expr_state (yystate stk)))
    as (p5 & Hstep5 & Hp5); [done|lengths|valid|in_list|done|done|done| | |done|].
  - apply (located [t] (l :: toks) [r]); lengths.
  - cbn -[FindFunction]. by rewrite Hfind.
  - exists p5. split; [run|done].
Qed.
Lemma parses_simulates :
  (forall q r toks e, parses q r toks e -> claim q r toks e) /\
  (forall toks argv, parses_args toks argv -> simulates_args toks argv).
Proof.
  apply parses_all; intros.
  - split; [cbn; lia|]. split; [by right|]. by apply simulates_literal.
  - split; [cbn; lia|]. split; [by right|]. by eapply simulates_paren.
  - split; [rewrite length_app; cbn; lia|]. split; [by right|]. by eapply simulates_end.
  - split; [rewrite length_app; cbn; lia|]. split; [left; lia|]. by eapply simulates_operator.
  - split; [cbn; lia|]. split; [by right|]. by eapply simulates_not.
  - split; [cbn; lia|]. split; [by right|]. by eapply simulates_if.
  - split; [cbn; lia|]. split; [by right|]. by eapply simulates_ifelse.
  - split; [cbn; lia|]. split; [by right|]. by apply simulates_call.
  - apply simulates_none.
  - by eapply simulates_first.
  - by eapply simulates_next.
Qed.

(** The end of the input behind a whole expression. *)
Lemma step_input c0 p e l :
  stands c0 p [mkEntry 7 (Tree e) l] [] ->
  exists p', step p p' /\ root p' = Some e /\ exists l', stands c0 p' [mkEntry 6 (Tree e) l'] [].
Proof.
  intros Hp.
  destruct (step_action c0 p [mkEntry 7 (Tree e) l] [] [] 2 S_input (mkLoc (loc_start l) (loc_end l)) (Accepted e (Tree e)) (Tree e) 6)
    as (p' & Hstep & Hp' & Hroot); [done|done|done|in_list|done|done|done|done|done|by right; eexists|done|].
  exists p'. split_and!; [done|done|by eexists].
Qed.

Lemma step_accept c0 p e l :
  stands c0 p [mkEntry 6 (Tree e) l] [] ->
  exists p', yysetstate builtin functions p = Ok (Returned 0 p') /\ root p' = root p /\ error_count p' = c0.
Proof.
  intros Hp. destruct (yysetstate_roomy _ _ _ _ Hp) as (p1 & (Hst & Ha & Hz & Hlz & He & Hc) & Hroot & [_ Hroom] & Hstep); [done|].
  assert (lr_action (yystate (stack p1)) (sym_ahead []) = Ok Accept) as Hact by by rewrite Hst.
  assert (yystate (stack p1) ∈ states) as Hs by (rewrite Hst; in_list).
  destruct (yybackup_spec p1 [] _ Ha (Forall_nil_2 _) Hs Hact) as (p2 & (H1 & H2 & H3 & H4 & H5) & _ & Hb).
  exists p2. rewrite Hstep, Hb, H4, H5. done.
Qed.

Lemma yyloop_run p p' r pf fuel res :
  rtc step p p' -> yysetstate builtin functions p' = Ok (Returned r pf) ->
  yyloop builtin functions fuel p = Ok res -> res = (r, pf).
Proof.
  intros Hrun Hret. revert fuel. induction Hrun as [p|p p1 p' Hstep _ IH]; intros [|fuel]; try done; cbn [yyloop].
  - rewrite Hret. cbn. by intros [= <-].
  - unfold step in Hstep. rewrite Hstep. cbn. by apply IH.
Qed.

(** ** Theorem *)

Context (Hregistered : registered functions).

(** C25. The parser resolves the ambiguities of the grammar as its declarations say:
    the tokens of an expression in the grammar with precedences, all operators
    associating to the left, are parsed without an error to that expression, as long
    as they are fewer than the stacks can grow to hold. *)
Theorem parser_complete r toks fin e root0 c0 :
  parses 0 r toks e -> Forall readable_token toks -> Z.of_nat (length toks) < 9998 ->
  exists p, yyparse builtin functions toks fin root0 c0 = Ok (0, p) /\ root p = Some e /\ error_count p = c0.
Proof.
  intros Hparses Hv Hlen. destruct (proj1 parses_simulates _ _ _ _ Hparses) as (_ & Hr & Hsim).
  destruct (Hsim c0 [] [] (start_parser toks fin root0 c0)) as (p1 & Hrun1 & Hp1);
    [in_list|in_list|cbn; lia|by rewrite app_nil_r|cbn; lia|rewrite app_nil_r; split_and!; try done; by left|].
  destruct (step_input c0 p1 e (span toks) Hp1) as (p2 & Hstep2 & Hroot2 & l & Hp2).
  destruct (step_accept c0 p2 e l Hp2) as (p3 & Hret & Hroot3 & Hc3).
  destruct (yyparse_final Hregistered toks fin root0 c0 Hv) as (res & pf & Heq & _).
  assert (rtc step (start_parser toks fin root0 c0) p2) as Hrun by (etrans; [exact Hrun1|by apply rtc_once]).
  pose proof (yyloop_run _ _ _ _ _ _ Hrun Hret Heq) as [= -> ->]. exists p3. rewrite Hroot3. by split_and!.
Qed.
End precedence.

(** ** Witness *)

Lemma parser_complete_witness :
  exists p e1 e2 l, yyparse id builtins ex_tokens ex_end None 0 = Ok (0, p) /\
    root p = Some (operator id Fn_Equality l [e1; e2]) /\ fn e1 = Fn_Concat /\ fn e2 = Fn_Concat.
Proof.
  assert (exists e1 e2, parses id builtins 0 (prec S_EQ) ex_tokens
            (operator id Fn_Equality (span ex_tokens) [e1; e2]) /\ fn e1 = Fn_Concat /\ fn e2 = Fn_Concat)
    as (e1 & e2 & Hp & H1 & H2).
  { pose (tok i := default (one_token 0 None 0) (ex_tokens !! i)).
    do 2 eexists. split.
    - apply (parses_operator id builtins 0 (prec S_plus) 7 (take 3 ex_tokens) (tok 3%nat) (drop 4 ex_tokens));
        [by vm_compute|by vm_compute| |].
      + apply (parses_operator id builtins 0 7 7 [tok 0%nat] (tok 1%nat) [tok 2%nat]);
          [by vm_compute|by vm_compute|by apply parses_literal..].
      + apply (parses_call id builtins _ (tok 4%nat) "concat" Fn_Concat (tok 5%nat) [tok 6%nat] (tok 7%nat));
          try by vm_compute. apply parses_first with 7. by apply parses_literal.
    - by split. }
  destruct (parser_complete id builtins builtins_registered _ ex_tokens ex_end _ None 0 Hp ex_tokens_valid)
    as (p & Heq & Hr & _); [by vm_compute|].
  exists p, e1, e2, (span ex_tokens). split; [exact Heq|]. split; [exact Hr|]. split; [exact H1|exact H2].
Defined.
