(* ===== verification/SilkRange.v ===== *)
(** * The range coder of the SILK codec

    [jni/silk/src/SKP_Silk_range_coder.c]: symbols with given cumulative
    distributions, coded into the bytes of a payload.  The encoder narrows an
    interval, whose lower limit it keeps in [base_Q32] and in the bytes already
    written; the decoder follows it. *)
From Stdlib Require Import ZArith Lia Btauto.
From stdpp Require Import base list.
From S2P Require Import Prelude.

Open Scope Z_scope.

(** [lia] knows division and remainder. *)
Ltac Zify.zify_post_hook ::= Z.to_euclidean_division_equations.

(** ** The code *)

Definition MAX_ARITHM_BYTES : Z := 1024.

Definition RANGE_CODER_WRITE_BEYOND_BUFFER : Z := -1.
Definition RANGE_CODER_CDF_OUT_OF_RANGE : Z := -2.
Definition RANGE_CODER_NORMALIZATION_FAILED : Z := -3.
Definition RANGE_CODER_ZERO_INTERVAL_WIDTH : Z := -4.
Definition RANGE_CODER_DECODER_CHECK_FAILED : Z := -5.
Definition RANGE_CODER_DEC_PAYLOAD_TOO_LONG : Z := -8.

Record SKP_Silk_range_coder_state := RangeCoder {
  bufferLength : Z;
  bufferIx : Z;
  base_Q32 : Z;
  range_Q16 : Z;
  error : Z;
  buffer : list Z
}.

Definition set_buffer (s : SKP_Silk_range_coder_state) (b : list Z) : SKP_Silk_range_coder_state :=
  RangeCoder (bufferLength s) (bufferIx s) (base_Q32 s) (range_Q16 s) (error s) b.
Definition set_error (s : SKP_Silk_range_coder_state) (e : Z) : SKP_Silk_range_coder_state :=
  RangeCoder (bufferLength s) (bufferIx s) (base_Q32 s) (range_Q16 s) e (buffer s).
(** The copies of the members, stored back at the end of a call. *)
Definition copy_back (s : SKP_Silk_range_coder_state) (base range ix : Z) (b : list Z)
    : SKP_Silk_range_coder_state :=
  RangeCoder (bufferLength s) ix base range (error s) b.

Definition test_bits (x m : Z) : bool := negb (Z.land x m =? 0).

(** [while ((++buffer[--ix]) == 0);] *)
Fixpoint propagate_carry (ix : nat) (buffer : list Z) : res (list Z) :=
  match ix with
  | O => Err OutOfBounds
  | S ix =>
      b ← fetch buffer (Z.of_nat ix);
      let b := u8 (b + 1) in
      let buffer := <[ix := b]> buffer in
      if b =? 0 then propagate_carry ix buffer else Ok buffer
  end.

(** Writing the top byte of the base; [None] when the buffer is full. *)
Definition write_byte (bufferLength : Z) (st : Z * Z * list Z) : res (option (Z * Z * list Z)) :=
  let '(base, ix, buffer) := st in
  if bufferLength <=? ix then Ok None
  else
    buffer ← store_at buffer ix (u8 (Z.shiftr base 24));
    Ok (Some (u32 (Z.shiftl base 8), ix + 1, buffer)).

Definition SKP_Silk_range_encoder (psRC : SKP_Silk_range_coder_state) (data : Z) (prob : list Z)
    : res SKP_Silk_range_coder_state :=
  if negb (error psRC =? 0) then Ok psRC
  else
    low_Q16 ← fetch prob data;
    high_Q16 ← fetch prob (data + 1);
    let base_tmp := base_Q32 psRC in
    let base := u32 (base_Q32 psRC + u32 (range_Q16 psRC * low_Q16)) in
    let range_Q32 := u32 (range_Q16 psRC * u32 (high_Q16 - low_Q16)) in
    buf ← (if base <? base_tmp then propagate_carry (Z.to_nat (bufferIx psRC)) (buffer psRC)
           else Ok (buffer psRC));
    if test_bits range_Q32 0xFF000000 then
      Ok (copy_back psRC base (Z.shiftr range_Q32 16) (bufferIx psRC) buf)
    else
      '(range, st) ←
        (if test_bits range_Q32 0xFFFF0000 then
           Ok (Z.shiftr range_Q32 8, Some (base, bufferIx psRC, buf))
         else
           st ← write_byte (bufferLength psRC) (base, bufferIx psRC, buf);
           Ok (range_Q32, st));
      match st with
      | None => Ok (set_error (set_buffer psRC buf) RANGE_CODER_WRITE_BEYOND_BUFFER)
      | Some (base, ix, buf) =>
          st ← write_byte (bufferLength psRC) (base, ix, buf);
          match st with
          | None => Ok (set_error (set_buffer psRC buf) RANGE_CODER_WRITE_BEYOND_BUFFER)
          | Some (base, ix, buf) => Ok (copy_back psRC base range ix buf)
          end
      end.

(** Symbols with their distributions. *)
Fixpoint SKP_Silk_range_encoder_multi (psRC : SKP_Silk_range_coder_state) (l : list (Z * list Z))
    : res SKP_Silk_range_coder_state :=
  match l with
  | [] => Ok psRC
  | (data, prob) :: l =>
      psRC ← SKP_Silk_range_encoder psRC data prob;
      SKP_Silk_range_encoder_multi psRC l
  end.

(** The search of the symbol, below the entry [probIx]: its index and limits.
    [None]: out of range. *)
Fixpoint search_down (range base : Z) (prob : list Z) (probIx : nat) (high_Q16 : Z)
    : res (option (Z * Z * Z)) :=
  match probIx with
  | O => Err OutOfBounds
  | S probIx =>
      low_Q16 ← fetch prob (Z.of_nat probIx);
      if u32 (range * low_Q16) <=? base then Ok (Some (Z.of_nat probIx, low_Q16, high_Q16))
      else if low_Q16 =? 0 then Ok None
      else search_down range base prob probIx low_Q16
  end.

(** And above; the distribution has at most [fuel] further entries. *)
Fixpoint search_up (fuel : nat) (range base : Z) (prob : list Z) (probIx : Z) (low_Q16 : Z)
    : res (option (Z * Z * Z)) :=
  match fuel with
  | O => Diverges
  | S fuel =>
      high_Q16 ← fetch prob (probIx + 1);
      if base <? u32 (range * high_Q16) then Ok (Some (probIx, low_Q16, high_Q16))
      else if high_Q16 =? 0xFFFF then Ok None
      else search_up fuel range base prob (probIx + 1) high_Q16
  end.

(** Reading the next byte, as long as there is one. *)
Definition read_byte (psRC : SKP_Silk_range_coder_state) (st : Z * Z) : res (Z * Z) :=
  let '(base, ix) := st in
  let base := u32 (Z.shiftl base 8) in
  if ix <? bufferLength psRC then
    b ← fetch (buffer psRC) (4 + ix);
    Ok (Z.lor base b, ix + 1)
  else Ok (base, ix).

(** The failures of the decoder give the symbol 0. *)
Definition decoder_failed (psRC : SKP_Silk_range_coder_state) (e : Z) : res (Z * SKP_Silk_range_coder_state) :=
  Ok (0, set_error psRC e).

Definition SKP_Silk_range_decoder (psRC : SKP_Silk_range_coder_state) (prob : list Z) (probIx : Z)
    : res (Z * SKP_Silk_range_coder_state) :=
  if negb (error psRC =? 0) then Ok (0, psRC)
  else
    let range := range_Q16 psRC in
    let base := base_Q32 psRC in
    high_Q16 ← fetch prob probIx;
    found ← (if base <? u32 (range * high_Q16)
             then search_down range base prob (Z.to_nat probIx) high_Q16
             else search_up (length prob) range base prob probIx high_Q16);
    match found with
    | None => decoder_failed psRC RANGE_CODER_CDF_OUT_OF_RANGE
    | Some (data, low_Q16, high_Q16) =>
        let base := u32 (base - u32 (range * low_Q16)) in
        let range_Q32 := u32 (range * u32 (high_Q16 - low_Q16)) in
        r ← (if test_bits range_Q32 0xFF000000 then
               Ok (Some (Z.shiftr range_Q32 16, (base, bufferIx psRC)))
             else if test_bits range_Q32 0xFFFF0000 then
               if negb (Z.shiftr base 24 =? 0) then Ok None
               else st ← read_byte psRC (base, bufferIx psRC); Ok (Some (Z.shiftr range_Q32 8, st))
             else
               if negb (Z.shiftr base 16 =? 0) then Ok None
               else
                 st ← read_byte psRC (base, bufferIx psRC);
                 st ← read_byte psRC st;
                 Ok (Some (range_Q32, st)));
        match r with
        | None => decoder_failed psRC RANGE_CODER_NORMALIZATION_FAILED
        | Some (range, (base, ix)) =>
            if range =? 0 then decoder_failed psRC RANGE_CODER_ZERO_INTERVAL_WIDTH
            else Ok (data, copy_back psRC base range ix (buffer psRC))
        end
    end.

(** Distributions with the entries where their searches start. *)
Fixpoint SKP_Silk_range_decoder_multi (psRC : SKP_Silk_range_coder_state) (l : list (list Z * Z))
    : res (list Z * SKP_Silk_range_coder_state) :=
  match l with
  | [] => Ok ([], psRC)
  | (prob, probStartIx) :: l =>
      '(d, psRC) ← SKP_Silk_range_decoder psRC prob probStartIx;
      '(ds, psRC) ← SKP_Silk_range_decoder_multi psRC l;
      Ok (d :: ds, psRC)
  end.

Definition SKP_Silk_range_enc_init (psRC : SKP_Silk_range_coder_state) : SKP_Silk_range_coder_state :=
  RangeCoder MAX_ARITHM_BYTES 0 0 0xFFFF 0 (buffer psRC).

(** [memcpy] of [n] bytes. *)
Definition memcpy (dst src : list Z) (n : Z) : res (list Z) :=
  if (n <? 0) || (Z.of_nat (length src) <? n) || (Z.of_nat (length dst) <? n) then Err OutOfBounds
  else Ok (take (Z.to_nat n) src ++ drop (Z.to_nat n) dst).

(** [buf] is the memory from the pointer on. *)
Definition SKP_Silk_range_dec_init (psRC : SKP_Silk_range_coder_state) (buf : list Z) (length : Z)
    : res SKP_Silk_range_coder_state :=
  if MAX_ARITHM_BYTES <? length then Ok (set_error psRC RANGE_CODER_DEC_PAYLOAD_TOO_LONG)
  else
    b ← memcpy (buffer psRC) buf length;
    b0 ← fetch buf 0;
    b1 ← fetch buf 1;
    b2 ← fetch buf 2;
    b3 ← fetch buf 3;
    Ok (RangeCoder length 0
          (Z.lor (Z.lor (Z.lor (Z.shiftl b0 24) (Z.shiftl b1 16)) (Z.shiftl b2 8)) b3)
          0xFFFF 0 b).

(** ** The length of the stream, and its end *)

Definition SKP_Silk_CLZ16 (in16 : Z) : Z :=
  if in16 =? 0 then 16
  else
    let '(out32, in16) :=
      if test_bits in16 0xFF00 then
        if test_bits in16 0xF000 then (0, Z.shiftr in16 12) else (4, Z.shiftr in16 8)
      else
        if test_bits in16 0xFFF0 then (8, Z.shiftr in16 4) else (12, in16) in
    if test_bits in16 0xC then
      if test_bits in16 0x8 then out32 + 0 else out32 + 1
    else
      if test_bits in16 0xE then out32 + 2 else out32 + 3.

Definition SKP_Silk_CLZ32 (in32 : Z) : Z :=
  if test_bits in32 0xFFFF0000 then SKP_Silk_CLZ16 (s16 (Z.shiftr in32 16))
  else SKP_Silk_CLZ16 (s16 in32) + 16.

(** The bits, and the bytes. *)
Definition SKP_Silk_range_coder_get_length (psRC : SKP_Silk_range_coder_state) : Z * Z :=
  let nBits := Z.shiftl (bufferIx psRC) 3 + SKP_Silk_CLZ32 (s32 (u32 (range_Q16 psRC - 1))) - 14 in
  (nBits, Z.shiftr (nBits + 7) 3).

Definition store_byte (psRC : SKP_Silk_range_coder_state) (b : Z) : res SKP_Silk_range_coder_state :=
  if bufferIx psRC <? bufferLength psRC then
    buf ← store_at (buffer psRC) (bufferIx psRC) (u8 b);
    Ok (copy_back psRC (base_Q32 psRC) (range_Q16 psRC) (bufferIx psRC + 1) buf)
  else Ok psRC.

(** Or a mask into a byte of the buffer. *)
Definition or_byte (buf : list Z) (i mask : Z) : res (list Z) :=
  b ← fetch buf i;
  store_at buf i (u8 (Z.lor b mask)).

(** The last bytes, not beyond the buffer. *)
Definition store_end (psRC : SKP_Silk_range_coder_state) (bits_to_store base_Q24 : Z)
    : res SKP_Silk_range_coder_state :=
  if bufferIx psRC <? bufferLength psRC then
    psRC ← store_byte psRC (Z.shiftr base_Q24 16);
    if 8 <? bits_to_store then store_byte psRC (Z.shiftr base_Q24 8) else Ok psRC
  else Ok psRC.

(** The remaining bits of the last byte, with ones. *)
Definition fill_end (psRC : SKP_Silk_range_coder_state) (bits_in_stream nBytes : Z)
    : res SKP_Silk_range_coder_state :=
  if test_bits bits_in_stream 7 then
    if nBytes - 1 <? bufferLength psRC then
      buf ← or_byte (buffer psRC) (nBytes - 1) (Z.shiftr 0xFF (Z.land bits_in_stream 7));
      Ok (set_buffer psRC buf)
    else Ok psRC
  else Ok psRC.

Definition SKP_Silk_range_enc_wrap_up (psRC : SKP_Silk_range_coder_state) : res SKP_Silk_range_coder_state :=
  let base_Q24 := Z.shiftr (base_Q32 psRC) 8 in
  let '(bits_in_stream, nBytes) := SKP_Silk_range_coder_get_length psRC in
  let bits_to_store := bits_in_stream - Z.shiftl (bufferIx psRC) 3 in
  let base_Q24 := u32 (base_Q24 + Z.shiftr 0x00800000 (bits_to_store - 1)) in
  let base_Q24 := Z.land base_Q24 (u32 (Z.shiftl 0xFFFFFFFF (24 - bits_to_store))) in
  buf ← (if test_bits base_Q24 0x01000000
         then propagate_carry (Z.to_nat (bufferIx psRC)) (buffer psRC)
         else Ok (buffer psRC));
  psRC ← store_end (set_buffer psRC buf) bits_to_store base_Q24;
  fill_end psRC bits_in_stream nBytes.

Definition SKP_Silk_range_coder_check_after_decoding (psRC : SKP_Silk_range_coder_state)
    : res SKP_Silk_range_coder_state :=
  let '(bits_in_stream, nBytes) := SKP_Silk_range_coder_get_length psRC in
  if bufferLength psRC <=? nBytes - 1 then Ok (set_error psRC RANGE_CODER_DECODER_CHECK_FAILED)
  else if test_bits bits_in_stream 7 then
    b ← fetch (buffer psRC) (nBytes - 1);
    let mask := Z.shiftr 0xFF (Z.land bits_in_stream 7) in
    if negb (Z.land b mask =? mask) then Ok (set_error psRC RANGE_CODER_DECODER_CHECK_FAILED)
    else Ok psRC
  else Ok psRC.

(** ** Intervals

    What encoder and decoder agree on: a lower limit, with as many bytes before
    its last 32 bits as have been written or read, and a width in units of
    [2^16]. *)

Record interval := Interval { low : Z; width : Z; count : nat }.

Definition top (i : interval) : Z := low i + width i * 2 ^ 16.

Definition start : interval := Interval 0 0xFFFF 0.

(** The interval of a symbol with the limits [l] and [h]. *)
Definition narrow (i : interval) (l h : Z) : interval :=
  let lo := low i + width i * l in
  let r := width i * (h - l) in
  if 2 ^ 24 <=? r then Interval lo (r / 2 ^ 16) (count i)
  else if 2 ^ 16 <=? r then Interval (lo * 2 ^ 8) (r / 2 ^ 8) (S (count i))
  else Interval (lo * 2 ^ 16) r (S (S (count i))).

Definition wide (i : interval) : Prop := 0 <= low i /\ 256 <= width i <= 65535.

(** A distribution: entries that do not decrease, from 0 to 65535. *)
Definition cdf_ok (prob : list Z) : Prop :=
  prob !! O = Some 0 /\ last prob = Some 65535 /\ Sorted.StronglySorted Z.le prob.

(** A symbol of positive probability. *)
Definition symbol_in (prob : list Z) (d l h : Z) : Prop :=
  0 <= d /\ prob !! Z.to_nat d = Some l /\ prob !! Z.to_nat (d + 1) = Some h /\ l < h.

Lemma cdf_bounds prob i x : cdf_ok prob -> prob !! i = Some x -> 0 <= x <= 65535.
Proof.
  intros (H0 & Hl & Hs) Hx. split.
  - destruct i as [|i]; [replace x with 0 by congruence; lia|].
    eapply (StronglySorted_lookup Z.le prob 0 (S i)); [done..|lia].
  - rewrite last_lookup in Hl. pose proof (lookup_lt_Some _ _ _ Hx).
    destruct (decide (i = pred (length prob))) as [->|]; [replace x with 65535 by congruence; lia|].
    eapply (StronglySorted_lookup Z.le prob i (pred (length prob))); [done..|lia].
Qed.

Lemma symbol_bounds prob d l h :
  cdf_ok prob -> symbol_in prob d l h -> 0 <= l /\ l < h /\ h <= 65535.
Proof.
  intros Hp (_ & Hl & Hh & Hlt).
  pose proof (cdf_bounds _ _ _ Hp Hl). pose proof (cdf_bounds _ _ _ Hp Hh). lia.
Qed.

Lemma narrow_wide i l h :
  wide i -> 0 <= l -> l < h -> h <= 65535 -> wide (narrow i l h).
Proof.
  intros [Hlo Hw] Hl Hlh Hh. unfold wide, narrow.
  assert (0 <= width i * l) by nia. assert (256 <= width i * (h - l) <= 65535 * 65535) by nia.
  destruct (Z.leb_spec (2 ^ 24) (width i * (h - l))); [cbn; lia|].
  destruct (Z.leb_spec (2 ^ 16) (width i * (h - l))); cbn; lia.
Qed.

(** The units of the narrowed interval are as fine or finer. *)
Lemma narrow_inside i l h :
  wide i -> 0 <= l -> l < h -> h <= 65535 ->
  let j := narrow i l h in
  (count i <= count j)%nat /\
  (low i + width i * l) * 256 ^ Z.of_nat (count j - count i) = low j /\
  top j <= (low i + width i * h) * 256 ^ Z.of_nat (count j - count i).
Proof.
  intros [Hlo Hw] Hl Hlh Hh. unfold narrow, top.
  assert (width i * h = width i * l + width i * (h - l)) as E by ring.
  set (r := width i * (h - l)) in *. set (p := low i + width i * l) in *.
  replace (low i + width i * h) with (p + r) by lia. assert (0 <= r) by (unfold r; nia).
  destruct (Z.leb_spec (2 ^ 24) r); [|destruct (Z.leb_spec (2 ^ 16) r)]; cbn [low width count].
  - rewrite Nat.sub_diag. cbn. lia.
  - replace (S (count i) - count i)%nat with 1%nat by lia. cbn. lia.
  - replace (S (S (count i)) - count i)%nat with 2%nat by lia. cbn. lia.
Qed.

(** ** The encoder narrows its interval *)

Definition byte (b : Z) : Prop := 0 <= b < 256.

(** The number in the first [n] bytes and the base. *)
Definition holds (n : nat) (N base : Z) (buf : list Z) : Prop :=
  Z.of_nat (length buf) = MAX_ARITHM_BYTES /\ Forall byte buf /\ Z.of_nat n <= MAX_ARITHM_BYTES /\
  0 <= base < 2 ^ 32 /\ N = bytes_number (take n buf) * 2 ^ 32 + base.

Record encodes (s : SKP_Silk_range_coder_state) (i : interval) : Prop := {
  enc_error : error s = 0;
  enc_length : bufferLength s = MAX_ARITHM_BYTES;
  enc_count : bufferIx s = Z.of_nat (count i);
  enc_range : range_Q16 s = width i;
  enc_holds : holds (count i) (low i) (base_Q32 s) (buffer s);
  enc_wide : wide i;
  enc_top : top i <= 256 ^ Z.of_nat (count i) * 2 ^ 32
}.

Lemma take_S_bytes n (buf : list Z) b :
  buf !! n = Some b -> bytes_number (take (S n) buf) = bytes_number (take n buf) * 256 + b.
Proof. intros Hb. by rewrite (take_S_r _ _ _ Hb), bytes_number_snoc. Qed.

Lemma pow_S n : 256 ^ Z.of_nat (S n) = 256 * 256 ^ Z.of_nat n.
Proof. rewrite Nat2Z.inj_succ, Z.pow_succ_r by lia. done. Qed.

Lemma propagate_carry_spec n buf :
  (n <= length buf)%nat -> Forall byte buf ->
  bytes_number (take n buf) + 1 < 256 ^ Z.of_nat n ->
  exists buf', propagate_carry n buf = Ok buf' /\ length buf' = length buf /\ Forall byte buf' /\
    drop n buf' = drop n buf /\
    bytes_number (take n buf') = bytes_number (take n buf) + 1.
Proof.
  revert buf. induction n as [|n IH]; intros buf Hn Hb Hlt; [change (0 + 1 < 1) in Hlt; lia|].
  destruct (lookup_lt_is_Some_2 buf n) as [b E]; [lia|]. cbn [propagate_carry].
  rewrite (fetch_ok _ _ b) by (try rewrite Nat2Z.id; first [lia|done]). rewrite bind_Ok.
  pose proof (Forall_lookup_1 _ _ _ _ Hb E) as Hbyte. unfold byte in Hbyte.
  rewrite (take_S_bytes _ _ _ E), pow_S in *. cbn zeta.
  set (b' := u8 (b + 1)). set (buf1 := <[n:=b']> buf).
  assert (Forall byte buf1) as Hb' by (apply Forall_insert; [done|exact (wrap_u_range 8 (b + 1) ltac:(lia))]).
  assert (buf1 !! n = Some b') as E' by (apply list_lookup_insert_eq; lia).
  assert (take n buf1 = take n buf) as Et by (apply take_insert_ge; lia).
  assert (length buf1 = length buf) as El by apply length_insert.
  assert (drop (S n) buf1 = drop (S n) buf) as Ed by (apply drop_insert_lt; lia).
  destruct (Z.eqb_spec b' 0) as [H0|H0]; unfold b', wrap_u in H0.
  - destruct (IH buf1) as (buf2 & -> & Hl & Hf & Hd & Hv); [lia|done|rewrite Et; lia|].
    exists buf2. split_and!; try done; [congruence| |].
    + rewrite <- Ed. by rewrite <- !(Nat.add_1_r n), <- !drop_drop, Hd.
    + rewrite (take_S_bytes n buf2 b'), Hv, Et; [unfold b', wrap_u; lia|].
      pose proof (f_equal (fun l => l !! O) Hd) as Hd0. cbn beta in Hd0. rewrite !lookup_drop, Nat.add_0_r in Hd0. by rewrite Hd0.
  - exists buf1. split_and!; try done. rewrite (take_S_bytes _ _ _ E'), Et. unfold b', wrap_u. lia.
Qed.

(** Masks of high bits, written as numbers. *)
Lemma high_mask w s m x :
  m = Z.ldiff (Z.ones w) (Z.ones s) -> (0 <=? w) = true -> (0 <=? s) = true -> 0 <= x < 2 ^ w ->
  Z.land x m = x / 2 ^ s * 2 ^ s.
Proof.
  intros -> Hw%Z.leb_le Hs%Z.leb_le Hx.
  replace (Z.land x (Z.ldiff (Z.ones w) (Z.ones s))) with (Z.ldiff (Z.land x (Z.ones w)) (Z.ones s)).
  - rewrite Z.land_ones, Z.mod_small by done.
    by rewrite Z.ldiff_ones_r, Z.shiftl_mul_pow2, Z.shiftr_div_pow2 by done.
  - apply Z.bits_inj'. intros k Hk. rewrite !Z.land_spec, !Z.ldiff_spec, Z.land_spec. by btauto.
Qed.

Lemma test_high_8 x : 0 <= x < 2 ^ 32 -> test_bits x 0xFF000000 = (2 ^ 24 <=? x).
Proof.
  intros Hx. unfold test_bits. rewrite (high_mask 32 24) by done.
  destruct (Z.leb_spec (2 ^ 24) x), (Z.eqb_spec (x / 2 ^ 24 * 2 ^ 24) 0); cbn [negb]; lia.
Qed.

Lemma test_high_16 x : 0 <= x < 2 ^ 32 -> test_bits x 0xFFFF0000 = (2 ^ 16 <=? x).
Proof.
  intros Hx. unfold test_bits. rewrite (high_mask 32 16) by done.
  destruct (Z.leb_spec (2 ^ 16) x), (Z.eqb_spec (x / 2 ^ 16 * 2 ^ 16) 0); cbn [negb]; lia.
Qed.

Lemma write_byte_spec n N base buf :
  holds n N base buf -> Z.of_nat n < MAX_ARITHM_BYTES ->
  exists base' buf', write_byte MAX_ARITHM_BYTES (base, Z.of_nat n, buf) =
      Ok (Some (base', Z.of_nat (S n), buf')) /\
    holds (S n) (N * 256) base' buf'.
Proof.
  intros (Hlen & Hb & Hn & Hbase & HN) Hlt. unfold write_byte.
  rewrite (proj2 (Z.leb_gt MAX_ARITHM_BYTES (Z.of_nat n))), store_at_ok by lia. rewrite bind_Ok.
  rewrite Nat2Z.id, Z.shiftr_div_pow2, Z.shiftl_mul_pow2 by lia.
  rewrite (wrap_u_id 8) by lia.
  assert (<[n:=base / 2 ^ 24]> buf !! n = Some (base / 2 ^ 24)) as E by (apply list_lookup_insert_eq; lia).
  eexists _, _. split; [by rewrite Nat2Z.inj_succ|]. unfold holds.
  rewrite length_insert, (take_S_bytes _ _ _ E), take_insert_ge by lia.
  pose proof (wrap_u_range 32 (base * 2 ^ 8) ltac:(lia)). split_and!; try lia.
  - apply Forall_insert; [done|]. unfold byte. lia.
  - subst N. unfold wrap_u. lia.
Qed.

Lemma write_byte_full n base buf :
  MAX_ARITHM_BYTES <= Z.of_nat n -> write_byte MAX_ARITHM_BYTES (base, Z.of_nat n, buf) = Ok None.
Proof. intros Hn. unfold write_byte. by rewrite (proj2 (Z.leb_le _ _) Hn). Qed.

(** Adding to the base, with the carry into the bytes. *)
Lemma add_to_base n N base buf a :
  holds n N base buf -> 0 <= a < 2 ^ 32 -> N + a < 256 ^ Z.of_nat n * 2 ^ 32 ->
  exists buf',
    (if u32 (base + a) <? base then propagate_carry (Z.to_nat (Z.of_nat n)) buf else Ok buf) = Ok buf' /\
    holds n (N + a) (u32 (base + a)) buf'.
Proof.
  intros (Hlen & Hb & Hn & Hbase & ->) Ha Hlt. rewrite Nat2Z.id.
  pose proof (wrap_u_range 32 (base + a) ltac:(lia)) as Hr. unfold holds.
  destruct (Z.ltb_spec (u32 (base + a)) base) as [Hc|Hc]; unfold wrap_u in Hc, Hr |- *.
  - destruct (propagate_carry_spec n buf) as (buf' & E & Hl & Hb' & Hd & Hv); [lia|done|lia|].
    exists buf'. rewrite Hv, Hl. split_and!; try done; lia.
  - exists buf. split_and!; try done; lia.
Qed.

Lemma holds_fits n N base buf : holds n N base buf -> 0 <= N.
Proof.
  intros (_ & Hb & _ & Hbase & ->).
  pose proof (bytes_number_bound (take n buf) (Forall_take _ _ _ Hb)). lia.
Qed.

Lemma narrow_top i l h :
  wide i -> 0 <= l -> l < h -> h <= 65535 -> top i <= 256 ^ Z.of_nat (count i) * 2 ^ 32 ->
  top (narrow i l h) <= 256 ^ Z.of_nat (count (narrow i l h)) * 2 ^ 32.
Proof.
  intros Hw Hl Hlh Hh Ht. destruct (narrow_inside i l h Hw Hl Hlh Hh) as (Hc & _ & Htop).
  cbn zeta in Hc, Htop. etransitivity; [exact Htop|].
  replace (count (narrow i l h)) with (count i + (count (narrow i l h) - count i))%nat at 2 by lia.
  rewrite Nat2Z.inj_add, Z.pow_add_r by lia.
  set (P := 256 ^ Z.of_nat (count (narrow i l h) - count i)).
  assert (0 < P) by (apply Z.pow_pos_nonneg; lia).
  replace (256 ^ Z.of_nat (count i) * P * 2 ^ 32) with (256 ^ Z.of_nat (count i) * 2 ^ 32 * P) by ring.
  apply Z.mul_le_mono_nonneg_r; [lia|]. etransitivity; [|exact Ht]. unfold top.
  destruct Hw as [_ Hw]. nia.
Qed.

(** What the members say when a call has narrowed the interval. *)
Lemma encodes_copy_back s j base r ix buf :
  error s = 0 -> bufferLength s = MAX_ARITHM_BYTES -> wide j ->
  top j <= 256 ^ Z.of_nat (count j) * 2 ^ 32 ->
  r = width j -> ix = Z.of_nat (count j) -> holds (count j) (low j) base buf ->
  encodes (copy_back s base r ix buf) j.
Proof. intros He Hlen Hw Ht -> -> Hh. by constructor. Qed.

Lemma range_encoder_narrows s i d prob l h :
  encodes s i -> cdf_ok prob -> symbol_in prob d l h ->
  exists s', SKP_Silk_range_encoder s d prob = Ok s' /\
    (encodes s' (narrow i l h) \/
     error s' = RANGE_CODER_WRITE_BEYOND_BUFFER /\ MAX_ARITHM_BYTES < Z.of_nat (count (narrow i l h))).
Proof.
  intros [He Hlen Hcount Hrange Hh Hw Ht] Hp Hd.
  destruct (symbol_bounds _ _ _ _ Hp Hd) as (Hl & Hlh & Hh').
  pose proof (narrow_wide i l h Hw Hl Hlh Hh') as Hw'.
  pose proof (narrow_top i l h Hw Hl Hlh Hh' Ht) as Ht'.
  destruct Hd as (Hd0 & Hdl & Hdh & _).
  unfold SKP_Silk_range_encoder. rewrite He, (fetch_ok prob d l Hd0 Hdl), (fetch_ok prob (d + 1) h ltac:(lia) Hdh), !bind_Ok.
  cbn [Z.eqb negb]. rewrite Hcount, Hrange, Hlen.
  destruct Hw as [Hlo [Hw1 Hw2]]. unfold top in Ht.
  assert (0 <= width i * l <= 65535 * 65535) by nia.
  assert (256 <= width i * (h - l) <= 65535 * 65535) by nia.
  assert (width i * l + width i * (h - l) <= width i * 65535) by nia.
  rewrite (wrap_u_id 32 (width i * l)) by lia. rewrite (wrap_u_id 32 (h - l)) by lia.
  rewrite (wrap_u_id 32 (width i * (h - l))) by lia.
  destruct (add_to_base _ _ _ _ (width i * l) Hh) as (buf & E & Hh1); [lia|lia|].
  rewrite E, bind_Ok, test_high_8, test_high_16 by lia. clear E. cbv zeta.
  set (base := u32 (base_Q32 s + width i * l)) in *. clearbody base.
  pose proof (encodes_copy_back s (narrow i l h)) as Henc. specialize (Henc) with (1 := He) (2 := Hlen) (3 := Hw') (4 := Ht').
  unfold narrow in *. rewrite !Z.shiftr_div_pow2 by lia.
  set (lo := low i + width i * l) in *. set (r := width i * (h - l)) in *. clearbody lo r.
  destruct (Z.leb_spec (2 ^ 24) r); [|destruct (Z.leb_spec (2 ^ 16) r)]; cbn [low width count] in *.
  - eexists. split; [done|]. left. by apply Henc.
  - rewrite bind_Ok. destruct (decide (Z.of_nat (count i) < MAX_ARITHM_BYTES)) as [Hn|Hn].
    + destruct (write_byte_spec _ _ _ _ Hh1 Hn) as (base1 & buf1 & -> & Hh2). rewrite bind_Ok.
      eexists. split; [done|]. left. by apply Henc.
    + rewrite write_byte_full, bind_Ok by lia. eexists. split; [done|]. right. split; [done|lia].
  - destruct (decide (Z.of_nat (count i) < MAX_ARITHM_BYTES)) as [Hn|Hn].
    + destruct (write_byte_spec _ _ _ _ Hh1 Hn) as (base1 & buf1 & -> & Hh2). rewrite !bind_Ok.
      destruct (decide (Z.of_nat (S (count i)) < MAX_ARITHM_BYTES)) as [Hn'|Hn'].
      * destruct (write_byte_spec _ _ _ _ Hh2 Hn') as (base2 & buf2 & -> & Hh3). rewrite bind_Ok.
        eexists. split; [done|]. left. apply Henc; try done.
        by replace (lo * 2 ^ 16) with (lo * 256 * 256) by ring.
      * rewrite write_byte_full, bind_Ok by lia. eexists. split; [done|]. right. split; [done|lia].
    + rewrite write_byte_full, !bind_Ok by lia. eexists. split; [done|]. right. split; [done|lia].
Qed.

(** ** Sequences of symbols *)

Definition limits (prob : list Z) (d : Z) : Z * Z := (prob !!! Z.to_nat d, prob !!! Z.to_nat (d + 1)).

Definition narrow_by (i : interval) (sym : Z * list Z) : interval :=
  narrow i (limits sym.2 sym.1).1 (limits sym.2 sym.1).2.

Definition narrow_all (i : interval) (l : list (Z * list Z)) : interval := foldl narrow_by i l.

(** The symbol can be coded: a distribution, and a symbol of positive probability. *)
Definition codable (sym : Z * list Z) : Prop :=
  cdf_ok sym.2 /\ symbol_in sym.2 sym.1 (limits sym.2 sym.1).1 (limits sym.2 sym.1).2.

Lemma codable_bounds sym :
  codable sym -> let '(l, h) := limits sym.2 sym.1 in 0 <= l /\ l < h /\ h <= 65535.
Proof. intros [Hp Hd]. exact (symbol_bounds _ _ _ _ Hp Hd). Qed.

Lemma narrow_by_wide i sym : wide i -> codable sym -> wide (narrow_by i sym).
Proof. intros Hw Hs. destruct (codable_bounds _ Hs) as (? & ? & ?). by apply narrow_wide. Qed.

Lemma narrow_by_count i sym :
  wide i -> codable sym -> (count i <= count (narrow_by i sym))%nat.
Proof.
  intros Hw Hs. destruct (codable_bounds _ Hs) as (? & ? & ?). by apply narrow_inside.
Qed.

Lemma narrow_all_wide i l : wide i -> Forall codable l -> wide (narrow_all i l).
Proof.
  intros Hw Hl. revert i Hw. induction Hl as [|sym l Hs _ IH]; intros i Hw; [done|].
  by apply IH, narrow_by_wide.
Qed.

Lemma narrow_all_count i l :
  wide i -> Forall codable l -> (count i <= count (narrow_all i l))%nat.
Proof.
  intros Hw Hl. revert i Hw. induction Hl as [|sym l Hs _ IH]; intros i Hw; [done|].
  etransitivity; [by apply (narrow_by_count i sym)|]. by apply IH, narrow_by_wide.
Qed.

Lemma encoder_stuck s l :
  error s <> 0 -> SKP_Silk_range_encoder_multi s l = Ok s.
Proof.
  intros He. induction l as [|[d prob] l IH]; [done|]. cbn [SKP_Silk_range_encoder_multi].
  unfold SKP_Silk_range_encoder. by rewrite (proj2 (Z.eqb_neq _ _) He).
Qed.

Lemma encoder_multi_narrows s i l :
  encodes s i -> Forall codable l ->
  exists s', SKP_Silk_range_encoder_multi s l = Ok s' /\
    (encodes s' (narrow_all i l) \/
     error s' = RANGE_CODER_WRITE_BEYOND_BUFFER /\ MAX_ARITHM_BYTES < Z.of_nat (count (narrow_all i l))).
Proof.
  intros Hs Hl. revert s i Hs. induction Hl as [|[d prob] l Hsym Hl IH]; intros s i Hs.
  - exists s. split; [done|by left].
  - cbn [SKP_Silk_range_encoder_multi]. pose proof (enc_wide _ _ Hs) as Hw.
    destruct (range_encoder_narrows s i d prob _ _ Hs (proj1 Hsym) (proj2 Hsym)) as (s' & -> & H).
    rewrite bind_Ok. destruct H as [H|[He Hc]]; [by apply IH|].
    exists s'. rewrite encoder_stuck by (rewrite He; done). split; [done|]. right. split; [done|].
    apply (Z.lt_le_trans _ _ _ Hc), inj_le.
    exact (narrow_all_count (narrow_by i (d, prob)) l (narrow_by_wide _ _ Hw Hsym) Hl).
Qed.

(** A value that is inside the last interval is inside all of them: [val n] is
    the number in the first [n + 4] bytes of the stream. *)
Definition inside (val : nat -> Z) (i : interval) : Prop := low i <= val (count i) < top i.

Definition stream_value (val : nat -> Z) : Prop :=
  forall m n, (m <= n)%nat ->
    val m * 256 ^ Z.of_nat (n - m) <= val n < (val m + 1) * 256 ^ Z.of_nat (n - m).

Lemma inside_narrow val i l h :
  stream_value val -> wide i -> 0 <= l -> l < h -> h <= 65535 -> inside val (narrow i l h) ->
  low i + width i * l <= val (count i) < low i + width i * h.
Proof.
  intros Hv Hw Hl Hlh Hh [Hi1 Hi2]. destruct (narrow_inside i l h Hw Hl Hlh Hh) as (Hc & Hlow & Htop).
  cbn zeta in Hc, Hlow, Htop. specialize (Hv _ _ Hc).
  set (P := 256 ^ Z.of_nat (count (narrow i l h) - count i)) in *.
  assert (0 < P) as HP by (apply Z.pow_pos_nonneg; lia). clearbody P.
  set (a := low i + width i * l) in *. set (b := low i + width i * h) in *. clearbody a b. split.
  - apply Z.lt_succ_r, (Z.mul_lt_mono_pos_r P); [done|]. unfold Z.succ. lia.
  - apply (Z.mul_lt_mono_pos_r P); [done|]. lia.
Qed.

Lemma inside_outer val i sym :
  stream_value val -> wide i -> codable sym -> inside val (narrow_by i sym) -> inside val i.
Proof.
  intros Hv Hw Hs Hi. pose proof (codable_bounds _ Hs) as Hb. unfold narrow_by in Hi.
  destruct (limits sym.2 sym.1) as [l h]. destruct Hb as (Hl & Hlh & Hh). cbn [fst snd] in Hi.
  apply inside_narrow in Hi; [|done..]. destruct Hw as [? [? ?]]. unfold inside, top.
  assert (0 <= width i * l) by nia. assert (width i * h <= width i * 2 ^ 16) by nia. lia.
Qed.

Lemma inside_all val i l :
  stream_value val -> wide i -> Forall codable l -> inside val (narrow_all i l) -> inside val i.
Proof.
  intros Hv Hw Hl. revert i Hw. induction Hl as [|sym l Hs _ IH]; intros i Hw Hi; [done|].
  eapply inside_outer; [done..|]. apply IH; [by apply narrow_by_wide|done].
Qed.

(** ** The decoder follows *)

(** An entry where a search may start. *)
Definition start_ok (prob : list Z) (ix : Z) : Prop := 0 <= ix /\ ix + 1 < Z.of_nat (length prob).

Lemma symbol_le prob n m x y :
  cdf_ok prob -> prob !! n = Some x -> prob !! m = Some y -> (n <= m)%nat -> x <= y.
Proof.
  intros (_ & _ & Hs) Hx Hy Hnm. destruct (decide (n = m)) as [->|Hne]; [replace y with x by congruence; lia|].
  eapply (StronglySorted_lookup Z.le prob n m); [done..|lia].
Qed.

(** A value lies in one symbol only. *)
Lemma symbol_unique prob w base d l h d' l' h' :
  cdf_ok prob -> 0 < w -> symbol_in prob d l h -> symbol_in prob d' l' h' ->
  w * l <= base < w * h -> w * l' <= base < w * h' -> d = d' /\ l = l' /\ h = h'.
Proof.
  intros Hp Hw (Hd & Hl & Hh & _) (Hd' & Hl' & Hh' & _) Hb Hb'.
  assert (d = d') as <-; [|replace l' with l by congruence; by replace h' with h by congruence].
  destruct (Z.lt_trichotomy d d') as [H|[H|H]]; [|done|].
  - pose proof (symbol_le prob (Z.to_nat (d + 1)) (Z.to_nat d') _ _ Hp Hh Hl' ltac:(lia)). nia.
  - pose proof (symbol_le prob (Z.to_nat (d' + 1)) (Z.to_nat d) _ _ Hp Hh' Hl ltac:(lia)). nia.
Qed.

Section search.
Context (prob : list Z) (w base : Z).
Hypothesis prob_ok : cdf_ok prob.
Hypothesis w_range : 0 < w <= 65535.
Hypothesis base_pos : 0 <= base.

Definition found (r : option (Z * Z * Z)) : Prop :=
  match r with
  | Some (d, l, h) => symbol_in prob d l h /\ w * l <= base < w * h
  | None => w * 65535 <= base
  end.

Lemma product_u32 x i : prob !! i = Some x -> u32 (w * x) = w * x.
Proof. intros Hx. pose proof (cdf_bounds _ _ _ prob_ok Hx). apply wrap_u_id. nia. Qed.

Lemma fetch_at n x : prob !! n = Some x -> fetch prob (Z.of_nat n) = Ok x.
Proof. intros Hx. apply fetch_ok; [lia|by rewrite Nat2Z.id]. Qed.

Lemma search_down_finds n high :
  prob !! n = Some high -> base < w * high ->
  exists r, search_down w base prob n high = Ok r /\ found r.
Proof.
  revert high. induction n as [|n IH]; intros high Hh Hlt.
  - pose proof (proj1 prob_ok). replace high with 0 in Hlt by congruence. lia.
  - destruct (lookup_lt_is_Some_2 prob n) as [x Hx]; [apply lookup_lt_Some in Hh; lia|].
    cbn [search_down]. rewrite (fetch_at _ _ Hx), bind_Ok, (product_u32 _ _ Hx).
    destruct (Z.leb_spec (w * x) base) as [Hle|Hgt].
    + eexists. split; [done|]. split; [|done]. split; [lia|].
      replace (Z.of_nat n + 1) with (Z.of_nat (S n)) by lia. rewrite !Nat2Z.id.
      split_and!; try done. nia.
    + destruct (Z.eqb_spec x 0) as [->|]; [lia|]. by apply IH.
Qed.

Lemma search_up_finds fuel n lo :
  prob !! n = Some lo -> w * lo <= base -> (S n < length prob)%nat -> (length prob <= fuel + n)%nat ->
  exists r, search_up fuel w base prob (Z.of_nat n) lo = Ok r /\ found r.
Proof.
  revert n lo. induction fuel as [|fuel IH]; intros n lo Hlo Hle Hn Hfuel; [lia|].
  destruct (lookup_lt_is_Some_2 prob (S n)) as [x Hx]; [lia|]. cbn [search_up].
  replace (Z.of_nat n + 1) with (Z.of_nat (S n)) by lia.
  rewrite (fetch_at _ _ Hx), bind_Ok, (product_u32 _ _ Hx).
  destruct (Z.ltb_spec base (w * x)) as [Hlt|Hge].
  - eexists. split; [done|]. split; [|done]. split; [lia|].
    replace (Z.of_nat n + 1) with (Z.of_nat (S n)) by lia. rewrite !Nat2Z.id. split_and!; try done. nia.
  - destruct (Z.eqb_spec x 0xFFFF) as [->|Hne]; [by exists None|].
    apply IH; [done..| |lia]. destruct prob_ok as (_ & Hlast & _). rewrite last_lookup in Hlast.
    destruct (decide (S n = pred (length prob))) as [E|]; [|lia]. congruence.
Qed.

Lemma search_finds ix high :
  start_ok prob ix -> fetch prob ix = Ok high ->
  exists r, (if base <? u32 (w * high) then search_down w base prob (Z.to_nat ix) high
             else search_up (length prob) w base prob ix high) = Ok r /\ found r.
Proof.
  intros [Hix Hlen] [_ Hh]%fetch_inv. rewrite (product_u32 _ _ Hh).
  destruct (Z.ltb_spec base (w * high)); [by apply search_down_finds|].
  pose proof (search_up_finds (length prob) (Z.to_nat ix) high Hh) as Hup.
  rewrite Z2Nat.id in Hup by done. apply Hup; lia.
Qed.
End search.

(** The bytes that the decoder has not read yet continue [val]; behind the
    payload nothing is added. *)
Definition feeds (val : nat -> Z) (s : SKP_Silk_range_coder_state) : Prop :=
  Forall byte (buffer s) /\
  forall k, val (S k) = val k * 256 +
    (if Z.of_nat k <? bufferLength s then buffer s !!! (4 + k)%nat else 0).

Record decodes (val : nat -> Z) (s : SKP_Silk_range_coder_state) (i : interval) : Prop := {
  dec_error : error s = 0;
  dec_range : range_Q16 s = width i;
  dec_base : base_Q32 s = val (count i) - low i;
  dec_pos : 0 <= base_Q32 s;
  dec_count : bufferIx s = Z.min (Z.of_nat (count i)) (bufferLength s);
  dec_wide : wide i;
  dec_feeds : feeds val s
}.

(** The decoder stays inside the buffer when it follows to [n] bytes. *)
Definition reads_ok (s : SKP_Silk_range_coder_state) (n : nat) : Prop :=
  Z.of_nat (4 + n) <= Z.of_nat (length (buffer s)) \/ bufferLength s + 4 <= Z.of_nat (length (buffer s)).

Lemma read_byte_spec val s n base :
  feeds val s -> 0 <= bufferLength s -> 0 <= base < 2 ^ 24 -> reads_ok s (S n) ->
  read_byte s (base, Z.min (Z.of_nat n) (bufferLength s)) =
    Ok (base * 256 + (val (S n) - val n * 256), Z.min (Z.of_nat (S n)) (bufferLength s)) /\
  0 <= val (S n) - val n * 256 < 256.
Proof.
  intros [Hb Hv] Hlen Hbase Hr. rewrite Hv. cbn [read_byte]. rewrite Z.shiftl_mul_pow2, wrap_u_id by lia.
  destruct (Z.ltb_spec (Z.of_nat n) (bufferLength s)) as [Hlt|Hge].
  - rewrite (proj2 (Z.ltb_lt _ _)) by lia. unfold reads_ok in Hr.
    destruct (lookup_lt_is_Some_2 (buffer s) (4 + n)) as [b E]; [lia|].
    pose proof (Forall_lookup_1 _ _ _ _ Hb E) as Hbyte. unfold byte in Hbyte.
    rewrite (list_lookup_total_correct _ _ _ E).
    rewrite (fetch_ok _ _ b) by (try (replace (Z.to_nat _) with (4 + n)%nat by lia); first [lia|done]).
    rewrite bind_Ok, (lor_disjoint _ _ 8) by lia. split; [|lia]. f_equal. f_equal; lia.
  - rewrite (proj2 (Z.ltb_ge _ _)) by lia. split; [|lia]. f_equal. f_equal; lia.
Qed.

Lemma decodes_copy_back val s j base r ix :
  error s = 0 -> feeds val s -> wide j -> r = width j -> 0 <= base -> base = val (count j) - low j ->
  ix = Z.min (Z.of_nat (count j)) (bufferLength s) ->
  decodes val (copy_back s base r ix (buffer s)) j.
Proof. intros He Hf Hw -> Hp -> ->. by constructor. Qed.

Lemma reads_ok_le s n m : reads_ok s n -> (m <= n)%nat -> reads_ok s m.
Proof. unfold reads_ok. lia. Qed.

Lemma range_decoder_follows val s i prob ix :
  decodes val s i -> 0 <= bufferLength s -> cdf_ok prob -> start_ok prob ix ->
  (width i * 65535 <= base_Q32 s /\
   SKP_Silk_range_decoder s prob ix = Ok (0, set_error s RANGE_CODER_CDF_OUT_OF_RANGE)) \/
  exists d l h, symbol_in prob d l h /\ width i * l <= base_Q32 s < width i * h /\
    (reads_ok s (count (narrow i l h)) ->
     exists s', SKP_Silk_range_decoder s prob ix = Ok (d, s') /\ decodes val s' (narrow i l h) /\
       buffer s' = buffer s /\ bufferLength s' = bufferLength s).
Proof.
  intros [He Hr Hb Hpos Hc Hw Hf] Hlen Hp Hix. unfold SKP_Silk_range_decoder.
  rewrite He, Hr. cbn [Z.eqb negb].
  destruct (lookup_lt_is_Some_2 prob (Z.to_nat ix)) as [hi Hhi]; [destruct Hix; lia|].
  rewrite (fetch_ok prob ix hi (proj1 Hix) Hhi), bind_Ok.
  pose proof Hw as [Hlo Hwid].
  destruct (search_finds prob (width i) (base_Q32 s) Hp ltac:(lia) Hpos ix hi Hix) as (r & E & Hfound).
  { exact (fetch_ok prob ix hi (proj1 Hix) Hhi). }
  rewrite E, bind_Ok. clear E. destruct r as [[[d l] h]|]; [right|by left].
  destruct Hfound as [Hd Hin]. exists d, l, h. do 2 (split; [done|]). intros Hreads.
  destruct (symbol_bounds _ _ _ _ Hp Hd) as (Hl & Hlh & Hh).
  pose proof (narrow_wide i l h Hw Hl Hlh Hh) as Hw'.
  assert (256 <= width i * (h - l) <= 65535 * 65535) by nia.
  assert (0 <= width i * l <= 65535 * 65535) by nia.
  assert (0 <= base_Q32 s - width i * l < width i * (h - l)) by nia.
  rewrite (wrap_u_id 32 (width i * l)) by lia. rewrite (wrap_u_id 32 (h - l)) by lia.
  rewrite (wrap_u_id 32 (width i * (h - l))), (wrap_u_id 32 (base_Q32 s - width i * l)) by lia.
  rewrite test_high_8, test_high_16, Hc, !Z.shiftr_div_pow2 by lia.
  pose proof (decodes_copy_back val s (narrow i l h)) as Hdec. specialize Hdec with (1 := He) (2 := Hf) (3 := Hw').
  unfold narrow in *. set (lo := low i + width i * l) in *. set (r := width i * (h - l)) in *.
  replace (base_Q32 s - width i * l) with (val (count i) - lo) in * by (unfold lo; lia). clearbody lo r.
  destruct (Z.leb_spec (2 ^ 24) r); [|destruct (Z.leb_spec (2 ^ 16) r)]; cbn [low width count] in *.
  - rewrite bind_Ok, (proj2 (Z.eqb_neq (r / 2 ^ 16) 0)) by lia. eexists. split; [done|].
    split; [|done]. apply Hdec; lia.
  - rewrite (proj2 (Z.eqb_eq ((val (count i) - lo) / 2 ^ 24) 0)) by lia. cbn [negb].
    destruct (read_byte_spec val s (count i) (val (count i) - lo)) as [-> Hv]; [done|done|lia|done|].
    rewrite !bind_Ok, (proj2 (Z.eqb_neq (r / 2 ^ 8) 0)) by lia. eexists. split; [done|].
    split; [|done]. apply Hdec; lia.
  - rewrite (proj2 (Z.eqb_eq ((val (count i) - lo) / 2 ^ 16) 0)) by lia. cbn [negb].
    destruct (read_byte_spec val s (count i) (val (count i) - lo)) as [-> Hv]; [done|done|lia| |].
    { by eapply reads_ok_le; [|apply Nat.le_succ_diag_r]. }
    rewrite !bind_Ok.
    destruct (read_byte_spec val s (S (count i)) ((val (count i) - lo) * 256 + (val (S (count i)) - val (count i) * 256)))
      as [-> Hv']; [done|done|lia|done|].
    rewrite !bind_Ok, (proj2 (Z.eqb_neq r 0)) by lia. eexists. split; [done|].
    split; [|done]. apply Hdec; lia.
Qed.

Lemma feeds_stream val s : feeds val s -> stream_value val.
Proof.
  intros [Hb Hv]. assert (forall k, val k * 256 <= val (S k) < (val k + 1) * 256) as Hstep.
  { intros k. rewrite Hv. destruct (_ <? _); [|lia].
    assert (byte (buffer s !!! (4 + k)%nat)) as Hbyte; [|unfold byte in Hbyte; lia].
    destruct (decide (4 + k < length (buffer s))%nat) as [Hlt|Hge].
    - by apply Forall_lookup_total_1.
    - rewrite list_lookup_total_alt, lookup_ge_None_2 by lia. by vm_compute. }
  intros m n Hmn. replace n with (m + (n - m))%nat at 2 3 by lia.
  induction (n - m)%nat as [|d IH]; [rewrite Nat.add_0_r; cbn; lia|].
  rewrite Nat.add_succ_r, pow_S. specialize (Hstep (m + d)%nat). lia.
Qed.

(** The symbols that decoding delivers from a state, wherever their searches start. *)
Inductive carries : SKP_Silk_range_coder_state -> list (Z * list Z) -> SKP_Silk_range_coder_state -> Prop :=
  | carries_nil s : carries s [] s
  | carries_cons s d prob s1 l s2 :
      (forall ix, start_ok prob ix -> SKP_Silk_range_decoder s prob ix = Ok (d, s1)) ->
      carries s1 l s2 -> carries s ((d, prob) :: l) s2.

Lemma carries_app s1 l1 l2 s3 :
  carries s1 (l1 ++ l2) s3 <-> exists s2, carries s1 l1 s2 /\ carries s2 l2 s3.
Proof.
  split.
  - revert s1. induction l1 as [|[d p] l1 IH]; intros s1; cbn [app].
    + intros H. exists s1. split; [constructor|done].
    + inversion_clear 1 as [|? ? ? s' ? ? Hd Hl]. destruct (IH _ Hl) as (s2 & H1 & H2).
      exists s2. split; [by econstructor|done].
  - intros (s2 & H1 & H2). induction H1; [done|]. cbn [app]. econstructor; [done|]. auto.
Qed.

(** The state is determined by the interval. *)
Lemma decodes_state val s s' i :
  decodes val s i -> decodes val s' i -> buffer s' = buffer s -> bufferLength s' = bufferLength s -> s' = s.
Proof.
  intros [] [] ? ?. destruct s, s'. cbn in *. subst. f_equal; congruence.
Qed.

Lemma decoder_any_start val s i d prob l h :
  decodes val s i -> 0 <= bufferLength s -> cdf_ok prob -> symbol_in prob d l h ->
  width i * l <= base_Q32 s < width i * h -> reads_ok s (count (narrow i l h)) ->
  exists s', (forall ix, start_ok prob ix -> SKP_Silk_range_decoder s prob ix = Ok (d, s')) /\
    decodes val s' (narrow i l h) /\ buffer s' = buffer s /\ bufferLength s' = bufferLength s.
Proof.
  intros Hs Hlen Hp Hd Hb Hr. destruct (dec_wide _ _ _ Hs) as [Hlo Hw].
  assert (forall ix, start_ok prob ix -> exists s', SKP_Silk_range_decoder s prob ix = Ok (d, s') /\
    decodes val s' (narrow i l h) /\ buffer s' = buffer s /\ bufferLength s' = bufferLength s) as Hall.
  { intros ix Hix. destruct (range_decoder_follows val s i prob ix Hs Hlen Hp Hix) as
      [[Hge _]|(d' & l' & h' & Hd' & Hb' & H)].
    - destruct (symbol_bounds _ _ _ _ Hp Hd) as (? & ? & ?). nia.
    - destruct (symbol_unique prob (width i) (base_Q32 s) d l h d' l' h') as (-> & -> & ->); [done|lia|done..|].
      by apply H. }
  assert (start_ok prob 0) as H0.
  { destruct Hd as (Hd0 & _ & Hh%lookup_lt_Some & _). unfold start_ok. lia. }
  destruct (Hall 0 H0) as (s' & _ & Hs' & Eb & El). exists s'. split; [|done]. intros ix Hix.
  destruct (Hall ix Hix) as (s2 & -> & Hs2 & Eb2 & El2). do 2 f_equal.
  eapply decodes_state; [done..| |]; congruence.
Qed.

Lemma decoder_carries val s i l :
  decodes val s i -> 0 <= bufferLength s -> Forall codable l ->
  inside val (narrow_all i l) -> reads_ok s (count (narrow_all i l)) ->
  exists s', carries s l s' /\ decodes val s' (narrow_all i l) /\
    buffer s' = buffer s /\ bufferLength s' = bufferLength s.
Proof.
  intros Hs Hlen Hl. revert s i Hs Hlen. induction Hl as [|[d prob] l Hsym Hl IH]; intros s i Hs Hlen Hi Hr.
  - exists s. split; [constructor|done].
  - pose proof (dec_wide _ _ _ Hs) as Hw. pose proof (feeds_stream _ _ (dec_feeds _ _ _ Hs)) as Hv.
    change (narrow_all i ((d, prob) :: l)) with (narrow_all (narrow_by i (d, prob)) l) in *.
    pose proof (narrow_by_wide _ _ Hw Hsym) as Hw'.
    pose proof (inside_all _ _ _ Hv Hw' Hl Hi) as Hi1.
    pose proof (codable_bounds _ Hsym) as Hb. destruct Hsym as [Hp Hd]. unfold narrow_by in Hi1.
    cbn [fst snd] in *. destruct (limits prob d) as [lo hi] eqn:El. destruct Hb as (Hlo & Hlh & Hhi). cbn [fst snd] in *.
    apply inside_narrow in Hi1; [|done..].
    assert (width i * lo <= base_Q32 s < width i * hi) as Hbase by (rewrite (dec_base _ _ _ Hs); lia).
    assert (reads_ok s (count (narrow i lo hi))) as Hr1.
    { eapply reads_ok_le; [exact Hr|]. unfold narrow_by in *. cbn [fst snd] in *. rewrite El in *.
      by apply narrow_all_count. }
    assert (exists s1, (forall ix, start_ok prob ix -> SKP_Silk_range_decoder s prob ix = Ok (d, s1)) /\
      decodes val s1 (narrow i lo hi) /\ buffer s1 = buffer s /\ bufferLength s1 = bufferLength s) as (s1 & Hd1 & Hs1 & Eb & El1).
    { by apply decoder_any_start. }
    unfold narrow_by in IH, Hi, Hr. cbn [fst snd] in *. rewrite El in *.
    destruct (IH s1 (narrow i lo hi)) as (s2 & Hc & Hs2 & Eb2 & El2); [done|lia|done| |].
    { unfold reads_ok in *. by rewrite Eb, El1. }
    exists s2. unfold narrow_by. cbn [fst snd]. rewrite El.
    split_and!; [by econstructor|done|congruence|congruence].
Qed.

(** The symbols determine the state behind them. *)
Lemma carries_det s l s1 s2 : carries s l s1 -> Forall codable l -> carries s l s2 -> s1 = s2.
Proof.
  induction 1 as [s|s d prob s' l s1 Hd _ IH]; intros Hl H2; inversion_clear H2 as [|? ? ? s'' ? ? Hd' Hc]; [done|].
  apply Forall_cons in Hl as [[_ (H0 & _ & Hh%lookup_lt_Some & _)] Hl]. cbn [fst snd] in *.
  assert (start_ok prob 0) as H by (unfold start_ok; lia). specialize (Hd 0 H). rewrite (Hd' 0 H) in Hd.
  injection Hd as ->. by apply IH.
Qed.

(** Part of the way. *)
Lemma carries_progress val s i l1 l2 s' :
  decodes val s i -> 0 <= bufferLength s -> Forall codable (l1 ++ l2) ->
  inside val (narrow_all i (l1 ++ l2)) -> reads_ok s (count (narrow_all i (l1 ++ l2))) -> carries s l1 s' ->
  decodes val s' (narrow_all i l1) /\ bufferLength s' = bufferLength s.
Proof.
  intros Hs Hlen [Hl1 Hl2]%Forall_app Hin Hr Hc. pose proof (dec_wide _ _ _ Hs) as Hw.
  pose proof (narrow_all_wide _ _ Hw Hl1) as Hw1. unfold narrow_all in Hin, Hr. rewrite foldl_app in Hin, Hr.
  pose proof (inside_all _ _ _ (feeds_stream _ _ (dec_feeds _ _ _ Hs)) Hw1 Hl2 Hin) as Hin1.
  destruct (decoder_carries val s i l1) as (s1 & Hc1 & Hd1 & _ & El); [done..| |].
  { eapply reads_ok_le; [exact Hr|]. by apply narrow_all_count. }
  by rewrite <- (carries_det _ _ _ _ Hc1 Hl1 Hc).
Qed.

(** ** The end of the stream *)

(** The low [w] bits decide a test with a mask of [w] bits. *)
Lemma test_bits_mod w x m :
  m = Z.land (Z.ones w) m -> (0 <=? w) = true -> test_bits x m = test_bits (x mod 2 ^ w) m.
Proof.
  intros Hm Hw%Z.leb_le. unfold test_bits. rewrite <- Z.land_ones by done.
  rewrite <- Z.land_assoc. by rewrite <- Hm.
Qed.

(** The first bit that is set in a nibble. *)
Definition nibble (out32 x : Z) : Z :=
  if test_bits x 0xC then if test_bits x 0x8 then out32 + 0 else out32 + 1
  else if test_bits x 0xE then out32 + 2 else out32 + 3.

Lemma nibble_spec out32 x q : x mod 16 = q -> 1 <= q <= 15 -> nibble out32 x = out32 + 3 - Z.log2 q.
Proof.
  intros Hx Hq. unfold nibble. rewrite !(test_bits_mod 4 x) by done. change (2 ^ 4) with 16. rewrite Hx.
  assert (q = 1 \/ q = 2 \/ q = 3 \/ q = 4 \/ q = 5 \/ q = 6 \/ q = 7 \/ q = 8 \/ q = 9 \/ q = 10 \/
          q = 11 \/ q = 12 \/ q = 13 \/ q = 14 \/ q = 15) as H by lia.
  destruct H as [->|[->|[->|[->|[->|[->|[->|[->|[->|[->|[->|[->|[->|[->| ->]]]]]]]]]]]]]];
    match goal with |- context [Z.log2 ?n] => let v := eval vm_compute in (Z.log2 n) in change (Z.log2 n) with v end;
    repeat match goal with |- context [test_bits ?a ?b] =>
      let v := eval vm_compute in (test_bits a b) in change (test_bits a b) with v end;
    cbn match; lia.
Qed.

Lemma CLZ16_spec x : 1 <= x <= 65535 -> SKP_Silk_CLZ16 (s16 x) = 15 - Z.log2 x.
Proof.
  intros Hx. assert (s16 x = x - (if 32768 <=? x then 65536 else 0)) as Hs.
  { unfold wrap_s. destruct (Z.leb_spec 32768 x); cbn -[Z.add Z.sub Z.modulo]; lia. }
  unfold SKP_Silk_CLZ16. rewrite (proj2 (Z.eqb_neq (s16 x) 0)) by (destruct (Z.leb_spec 32768 x); lia).
  assert (s16 x mod 2 ^ 16 = x) as Hm by (destruct (Z.leb_spec 32768 x); lia).
  rewrite !(test_bits_mod 16 (s16 x) 0xFF00), !(test_bits_mod 16 (s16 x) 0xF000),
    !(test_bits_mod 16 (s16 x) 0xFFF0), Hm, !Z.shiftr_div_pow2 by first [done|lia].
  assert (forall s m, 0 <= s -> m = Z.ldiff (Z.ones 16) (Z.ones s) -> test_bits x m = (2 ^ s <=? x)) as Ht.
  { intros s m Hs0 Em. unfold test_bits. rewrite (high_mask 16 s); [|done|done|by apply Z.leb_le|lia].
    assert (0 < 2 ^ s) by (apply Z.pow_pos_nonneg; lia).
    destruct (Z.leb_spec (2 ^ s) x) as [Hle|Hlt].
    - rewrite (proj2 (Z.eqb_neq _ 0)); [done|]. assert (0 < x / 2 ^ s) by (apply Z.div_str_pos; lia). nia.
    - by rewrite Z.div_small by lia. }
  rewrite (Ht 8), (Ht 12), (Ht 4) by done. clear Ht.
  assert (forall s, 0 <= s -> 1 <= x / 2 ^ s -> Z.log2 (x / 2 ^ s) = Z.log2 x - s) as Hlog.
  { intros s Hs0 Hq. rewrite <- Z.shiftr_div_pow2, Z.log2_shiftr by lia.
    assert (s <= Z.log2 x); [|lia]. apply Z.log2_le_pow2; [lia|].
    assert (0 < 2 ^ s) by (apply Z.pow_pos_nonneg; lia). pose proof (Z.mul_div_le x (2 ^ s) ltac:(lia)). nia. }
  destruct (Z.leb_spec (2 ^ 8) x); [destruct (Z.leb_spec (2 ^ 12) x)|destruct (Z.leb_spec (2 ^ 4) x)].
  - change (nibble 0 (s16 x / 2 ^ 12) = 15 - Z.log2 x).
    rewrite (nibble_spec _ _ (x / 2 ^ 12)) by (destruct (Z.leb_spec 32768 x); lia). rewrite Hlog; lia.
  - change (nibble 4 (s16 x / 2 ^ 8) = 15 - Z.log2 x).
    rewrite (nibble_spec _ _ (x / 2 ^ 8)) by (destruct (Z.leb_spec 32768 x); lia). rewrite Hlog; lia.
  - change (nibble 8 (s16 x / 2 ^ 4) = 15 - Z.log2 x).
    rewrite (nibble_spec _ _ (x / 2 ^ 4)) by (destruct (Z.leb_spec 32768 x); lia). rewrite Hlog; lia.
  - change (nibble 12 (s16 x) = 15 - Z.log2 x).
    rewrite (nibble_spec _ _ x) by (destruct (Z.leb_spec 32768 x); lia). lia.
Qed.

Lemma CLZ32_spec x : 1 <= x <= 65535 -> SKP_Silk_CLZ32 x = 31 - Z.log2 x.
Proof.
  intros Hx. unfold SKP_Silk_CLZ32. rewrite test_high_16, (proj2 (Z.leb_gt (2 ^ 16) x)) by lia.
  rewrite CLZ16_spec by done. lia.
Qed.

(** The number of bits that determine an interval of width [r]. *)
Definition end_bits (r : Z) : Z := SKP_Silk_CLZ32 (s32 (u32 (r - 1))) - 14.

Lemma end_bits_spec r :
  256 <= r <= 65535 -> 2 <= end_bits r <= 10 /\ 2 ^ (17 - end_bits r) <= r - 1 < 2 ^ (18 - end_bits r).
Proof.
  intros Hr. unfold end_bits. rewrite (wrap_u_id 32 (r - 1)), wrap_s_id by lia.
  rewrite CLZ32_spec by lia.
  pose proof (Z.log2_spec (r - 1) ltac:(lia)) as Hlog. unfold Z.succ in Hlog.
  replace (17 - (31 - Z.log2 (r - 1) - 14)) with (Z.log2 (r - 1)) by lia.
  replace (18 - (31 - Z.log2 (r - 1) - 14)) with (Z.log2 (r - 1) + 1) by lia.
  pose proof (Z.log2_le_mono 255 (r - 1) ltac:(lia)) as H1.
  pose proof (Z.log2_le_mono (r - 1) 65535 ltac:(lia)) as H2. cbn in H1, H2. lia.
Qed.

(** [bits_cases H]: the nine numbers of bits, one by one. *)
Ltac bits_cases k H :=
  let H' := fresh in
  assert (k = 2 \/ k = 3 \/ k = 4 \/ k = 5 \/ k = 6 \/ k = 7 \/ k = 8 \/ k = 9 \/ k = 10) as H' by lia;
  clear H; destruct H' as [->|[->|[->|[->|[->|[->|[->|[->| ->]]]]]]]].

(** The lower limit, rounded up to the resolution of [k] bits. *)
Definition rounded (k base : Z) : Z := (base / 2 ^ 8 / 2 ^ (24 - k) + 1) * 2 ^ (24 - k).

Lemma unit_spec k :
  2 <= k <= 10 ->
  Z.shiftr 0x00800000 (k - 1) = 2 ^ (24 - k) /\ 2 ^ 14 <= 2 ^ (24 - k) <= 2 ^ 22 /\
  u32 (Z.shiftl 0xFFFFFFFF (24 - k)) = Z.ldiff (Z.ones 32) (Z.ones (24 - k)).
Proof. intros Hk. bits_cases k Hk; split_and!; done. Qed.

Lemma rounded_code k base :
  2 <= k <= 10 -> 0 <= base < 2 ^ 32 ->
  Z.land (u32 (base / 2 ^ 8 + Z.shiftr 0x00800000 (k - 1))) (u32 (Z.shiftl 0xFFFFFFFF (24 - k))) =
    rounded k base.
Proof.
  intros Hk Hb. unfold rounded. destruct (unit_spec k Hk) as (E & Hu & Em).
  rewrite E, wrap_u_id by lia.
  rewrite (high_mask 32 (24 - k)); [|exact Em|done|by apply Z.leb_le; lia|lia].
  rewrite <- (Z.mul_1_l (2 ^ (24 - k))) at 1. by rewrite Z.div_add by lia.
Qed.

Lemma rounded_range k base :
  2 <= k <= 10 -> 0 <= base < 2 ^ 32 ->
  base < rounded k base * 2 ^ 8 /\ rounded k base * 2 ^ 8 + 2 ^ (32 - k) <= base + 2 ^ (33 - k) /\
  0 < rounded k base <= 2 ^ 24 /\ rounded k base mod 2 ^ (24 - k) = 0.
Proof.
  intros Hk Hb. unfold rounded.
  bits_cases k Hk; cbn -[Z.div Z.add Z.mul Z.modulo]; lia.
Qed.

(** The bytes that the end adds: one or two. *)
Definition end_bytes (r : Z) : nat := if 8 <? end_bits r then 2 else 1.

Lemma get_length_spec s i :
  bufferIx s = Z.of_nat (count i) -> range_Q16 s = width i -> wide i ->
  SKP_Silk_range_coder_get_length s =
    (8 * Z.of_nat (count i) + end_bits (width i), Z.of_nat (count i + end_bytes (width i))).
Proof.
  intros Hc Hr [_ Hw]. unfold SKP_Silk_range_coder_get_length. rewrite Hc, Hr, Z.shiftl_mul_pow2 by lia.
  destruct (end_bits_spec _ Hw) as [Hk _]. unfold end_bytes.
  assert (SKP_Silk_CLZ32 (s32 (u32 (width i - 1))) = end_bits (width i) + 14) as -> by (unfold end_bits; lia).
  rewrite Z.shiftr_div_pow2 by lia. set (k := end_bits (width i)) in *. clearbody k. f_equal; [lia|].
  destruct (Z.ltb_spec 8 k); lia.
Qed.

(** The carry out of the rounded limit. *)
Lemma end_carry i base buf k :
  holds (count i) (low i) base buf -> k = end_bits (width i) -> wide i ->
  top i <= 256 ^ Z.of_nat (count i) * 2 ^ 32 ->
  exists buf',
    (if test_bits (rounded k base) 0x01000000 then propagate_carry (Z.to_nat (Z.of_nat (count i))) buf
     else Ok buf) = Ok buf' /\
    length buf' = length buf /\ Forall byte buf' /\
    bytes_number (take (count i) buf') * 2 ^ 24 + rounded k base mod 2 ^ 24 =
      bytes_number (take (count i) buf) * 2 ^ 24 + rounded k base.
Proof.
  intros (Hlen & Hb & Hn & Hbase & Hlow) -> [Hlo Hw] Ht. rewrite Nat2Z.id. unfold top in Ht.
  destruct (end_bits_spec _ Hw) as [Hk Hr].
  destruct (rounded_range _ base Hk Hbase) as (H1 & H2 & H3 & _).
  set (X := rounded (end_bits (width i)) base) in *. set (k := end_bits (width i)) in *.
  assert (2 ^ (33 - k) = 2 ^ (17 - k) * 2 ^ 16) as E33 by (rewrite <- Z.pow_add_r by lia; f_equal; lia).
  assert (0 < 2 ^ (32 - k)) by (apply Z.pow_pos_nonneg; lia).
  assert (test_bits X 0x01000000 = (X =? 2 ^ 24)) as ->.
  { unfold test_bits. rewrite (high_mask 25 24) by first [done|lia].
    destruct (Z.eqb_spec X (2 ^ 24)), (Z.eqb_spec (X / 2 ^ 24 * 2 ^ 24) 0); cbn [negb]; lia. }
  clearbody X k. destruct (Z.eqb_spec X (2 ^ 24)) as [->|Hne].
  - destruct (propagate_carry_spec (count i) buf) as (buf' & E & Hl & Hb' & _ & Hv); [lia|done|lia|].
    exists buf'. split_and!; try done. lia.
  - exists buf. split_and!; try done. lia.
Qed.

Lemma or_byte_spec buf i b j :
  Forall byte buf -> buf !! i = Some b -> 0 <= j <= 8 -> b mod 2 ^ j = 0 ->
  or_byte buf (Z.of_nat i) (2 ^ j - 1) = Ok (<[i := b + (2 ^ j - 1)]> buf) /\ byte (b + (2 ^ j - 1)).
Proof.
  intros Hb E Hj Hm. pose proof (Forall_lookup_1 _ _ _ _ Hb E) as Hbyte. unfold byte in *.
  unfold or_byte. pose proof (lookup_lt_Some _ _ _ E) as Hlt.
  assert (0 < 2 ^ j) by (apply Z.pow_pos_nonneg; lia).
  assert (2 ^ 8 = 2 ^ j * 2 ^ (8 - j)) as E8 by (rewrite <- Z.pow_add_r by lia; f_equal; lia).
  rewrite (fetch_ok _ _ b), bind_Ok by (try rewrite Nat2Z.id; first [lia|done]).
  rewrite (lor_disjoint _ _ j), store_at_ok, Nat2Z.id by lia.
  assert (b + 2 ^ j <= 2 ^ 8) as Hle.
  { pose proof (Z.div_mod b (2 ^ j) ltac:(lia)) as Hd. rewrite Hm in Hd.
    assert (b / 2 ^ j < 2 ^ (8 - j)) by nia. nia. }
  rewrite wrap_u_id by lia. split; [done|lia].
Qed.

Lemma store_byte_spec s n b :
  bufferIx s = Z.of_nat n -> bufferLength s = MAX_ARITHM_BYTES -> Z.of_nat n < MAX_ARITHM_BYTES ->
  Z.of_nat (length (buffer s)) = MAX_ARITHM_BYTES ->
  store_byte s b = Ok (copy_back s (base_Q32 s) (range_Q16 s) (Z.of_nat (S n)) (<[n := u8 b]> (buffer s))).
Proof.
  intros Hix Hl Hn Hb. unfold store_byte. rewrite Hix, Hl, (proj2 (Z.ltb_lt _ _) Hn), store_at_ok by lia.
  rewrite bind_Ok, Nat2Z.id. do 2 f_equal. lia.
Qed.

Lemma end_mask n k : 2 <= k <= 10 -> 0 <= n ->
  test_bits (8 * n + k) 7 = negb (k mod 8 =? 0) /\
  Z.shiftr 0xFF (Z.land (8 * n + k) 7) = 2 ^ (8 - k mod 8) - 1.
Proof.
  intros Hk Hn. unfold test_bits. rewrite (mask 3) by done. change (2 ^ 3) with 8.
  replace ((8 * n + k) mod 8) with (k mod 8) by lia. split; [done|].
  bits_cases k Hk; reflexivity.
Qed.

(** The parts of a limit with three bytes of which the last bits are zero. *)
Lemma rounded_parts k X :
  2 <= k <= 10 -> X mod 2 ^ (24 - k) = 0 ->
  (k <= 8 -> u8 (X / 2 ^ 16) mod 2 ^ (8 - k) = 0 /\ X mod 2 ^ 24 = u8 (X / 2 ^ 16) * 2 ^ 16) /\
  (8 < k -> u8 (X / 2 ^ 8) mod 2 ^ (16 - k) = 0 /\
     X mod 2 ^ 24 = u8 (X / 2 ^ 16) * 2 ^ 16 + u8 (X / 2 ^ 8) * 2 ^ 8).
Proof.
  intros Hk Hm. unfold wrap_u. split; intros H8.
  - assert (k = 2 \/ k = 3 \/ k = 4 \/ k = 5 \/ k = 6 \/ k = 7 \/ k = 8) as
      [->|[->|[->|[->|[->|[->| ->]]]]]] by lia; cbn -[Z.div Z.modulo Z.mul] in *; lia.
  - assert (k = 9 \/ k = 10) as [->| ->] by lia; cbn -[Z.div Z.modulo Z.mul Z.add] in *; lia.
Qed.

(** Filling the last byte with ones. *)
Lemma fill_end_spec s n p b k j :
  buffer s !! p = Some b -> Forall byte (buffer s) -> bufferLength s = MAX_ARITHM_BYTES ->
  Z.of_nat p < MAX_ARITHM_BYTES -> 2 <= k <= 10 -> 0 <= n ->
  j = (if k mod 8 =? 0 then 0 else 8 - k mod 8) -> b mod 2 ^ j = 0 ->
  fill_end s (8 * n + k) (Z.of_nat (S p)) = Ok (set_buffer s (<[p := b + (2 ^ j - 1)]> (buffer s))) /\
  byte (b + (2 ^ j - 1)).
Proof.
  intros E Hb Hl Hp Hk Hn Hj Hm. unfold fill_end. destruct (end_mask n k Hk Hn) as [-> ->].
  replace (Z.of_nat (S p) - 1) with (Z.of_nat p) by lia.
  destruct (or_byte_spec (buffer s) p b j Hb E) as [Eo Hbyte]; [destruct (Z.eqb_spec (k mod 8) 0); lia|done|].
  split; [|done]. destruct (Z.eqb_spec (k mod 8) 0) as [H0|H0]; cbn [negb].
  - rewrite Hj. cbn. rewrite Z.add_0_r, list_insert_id by done. by destruct s.
  - by rewrite Hl, (proj2 (Z.ltb_lt _ _) Hp), <- Hj, Eo.
Qed.

(** The state [s'] when the [m] bytes [P] stand behind the [n] bytes of [s]. *)
Definition ends (s s' : SKP_Silk_range_coder_state) (n m : nat) (P : Z) : Prop :=
  error s' = error s /\ bufferIx s' = Z.of_nat (n + m) /\ bufferLength s' = MAX_ARITHM_BYTES /\
  Z.of_nat (length (buffer s')) = MAX_ARITHM_BYTES /\ Forall byte (buffer s') /\
  bytes_number (take (n + m) (buffer s')) = bytes_number (take n (buffer s)) * 256 ^ Z.of_nat m + P.

Lemma ends_trans s1 s2 s3 n m1 m2 P1 P2 :
  ends s1 s2 n m1 P1 -> ends s2 s3 (n + m1) m2 P2 ->
  ends s1 s3 n (m1 + m2) (P1 * 256 ^ Z.of_nat m2 + P2).
Proof.
  intros (E1 & _ & _ & _ & _ & H1) (E2 & H2 & H3 & H4 & H5 & H6). unfold ends.
  rewrite Nat.add_assoc. split_and!; try done; [congruence|].
  rewrite H6, H1, Nat2Z.inj_add, Z.pow_add_r by lia. ring.
Qed.

(** A byte stored, as it is or filled with ones. *)
Lemma ends_store s n b :
  bufferIx s = Z.of_nat n -> bufferLength s = MAX_ARITHM_BYTES -> Z.of_nat n < MAX_ARITHM_BYTES ->
  Z.of_nat (length (buffer s)) = MAX_ARITHM_BYTES -> Forall byte (buffer s) ->
  exists s', store_byte s b = Ok s' /\ ends s s' n 1 (u8 b) /\ buffer s' !! n = Some (u8 b).
Proof.
  intros Hix Hl Hn Hlen Hb. rewrite (store_byte_spec s n) by done. eexists. split; [done|].
  assert (<[n:=u8 b]> (buffer s) !! n = Some (u8 b)) as E by (apply list_lookup_insert_eq; lia).
  split; [|done]. unfold ends. cbn [copy_back error bufferIx bufferLength buffer].
  rewrite length_insert, Nat.add_1_r, (take_S_bytes _ _ _ E), take_insert_ge by lia.
  split_and!; try done. apply Forall_insert; [done|]. exact (wrap_u_range 8 _ ltac:(lia)).
Qed.

Lemma ends_fill s s' n0 n m b k j P :
  ends s s' n (S m) P -> buffer s' !! (n + m)%nat = Some b -> 2 <= k <= 10 -> 0 <= n0 ->
  Z.of_nat (n + m) < MAX_ARITHM_BYTES ->
  j = (if k mod 8 =? 0 then 0 else 8 - k mod 8) -> b mod 2 ^ j = 0 ->
  exists s2, fill_end s' (8 * n0 + k) (Z.of_nat (n + S m)) = Ok s2 /\ ends s s2 n (S m) (P + (2 ^ j - 1)).
Proof.
  intros (He & Hix & Hl & Hlen & Hb & HP) E Hk Hn0 Hn Hj Hm. rewrite Nat.add_succ_r in *.
  destruct (fill_end_spec s' n0 (n + m) b k j) as [-> Hbyte]; [done..|]. eexists. split; [done|].
  unfold ends. cbn [set_buffer error bufferIx bufferLength buffer]. rewrite length_insert, !Nat.add_succ_r.
  split_and!; try done; [by apply Forall_insert|].
  rewrite (take_S_bytes _ _ (b + (2 ^ j - 1))) by (apply list_lookup_insert_eq; lia).
  rewrite take_insert_ge by lia. rewrite (take_S_bytes _ _ _ E) in HP. lia.
Qed.

(** The end of a stream of [n] bytes: the [m] bytes that hold [k] bits of the
    limit [X], and ones behind them. *)
Lemma end_stored s n k X :
  bufferIx s = Z.of_nat n -> bufferLength s = MAX_ARITHM_BYTES ->
  Z.of_nat (length (buffer s)) = MAX_ARITHM_BYTES -> Forall byte (buffer s) ->
  2 <= k <= 10 -> X mod 2 ^ (24 - k) = 0 ->
  let m := if 8 <? k then 2%nat else 1%nat in Z.of_nat (n + m) <= MAX_ARITHM_BYTES ->
  exists s' P, (s ← store_end s k X; fill_end s (8 * Z.of_nat n + k) (Z.of_nat (n + m))) = Ok s' /\
    ends s s' n m P /\ P * 256 ^ Z.of_nat (4 - m) = X mod 2 ^ 24 * 2 ^ 8 + 2 ^ (32 - k) - 256 ^ Z.of_nat (4 - m).
Proof.
  intros Hix Hl Hlen Hb Hk HX m Hn. destruct (rounded_parts k X Hk HX) as [H1 H2]. unfold store_end.
  assert (1 <= m)%nat as Hm1 by (unfold m; destruct (8 <? k); lia).
  rewrite Hix, Hl, (proj2 (Z.ltb_lt _ _)), !Z.shiftr_div_pow2 by lia.
  destruct (ends_store s n (X / 2 ^ 16)) as (s1 & -> & Hs1 & E1); [done..|lia|done|done|]. rewrite bind_Ok.
  pose proof Hs1 as (_ & Hix1 & Hl1 & Hlen1 & Hb1 & _). unfold m in *. clear m Hm1.
  destruct (Z.ltb_spec 8 k) as [Hk8|Hk8].
  - destruct (H2 Hk8) as [Hm ->]. clear H1 H2.
    destruct (ends_store s1 (n + 1) (X / 2 ^ 8)) as (s2 & -> & Hs2 & E2); [done..|lia|done|done|].
    rewrite bind_Ok. pose proof (ends_trans _ _ _ _ _ _ _ _ Hs1 Hs2) as Hs12.
    destruct (ends_fill s s2 (Z.of_nat n) n 1 _ k (16 - k) _ Hs12 E2) as (s3 & E3 & Hs3);
      [done|lia|lia|destruct (Z.eqb_spec (k mod 8) 0); lia|done|].
    eexists _, _. split; [exact E3|]. split; [exact Hs3|].
    replace (32 - k) with (16 - k + 16) by lia. rewrite (Z.pow_add_r 2 (16 - k) 16) by lia.
    change (256 ^ Z.of_nat (4 - 2)) with (2 ^ 16). change (256 ^ Z.of_nat 1) with 256. lia.
  - destruct (H1 Hk8) as [Hm ->]. clear H1 H2. rewrite bind_Ok.
    destruct (ends_fill s s1 (Z.of_nat n) n 0 (u8 (X / 2 ^ 16)) k (8 - k) _ Hs1) as (s2 & E2 & Hs2);
      [by rewrite Nat.add_0_r|done|lia|lia|destruct (Z.eqb_spec (k mod 8) 0); lia|done|].
    eexists _, _. split; [exact E2|]. split; [exact Hs2|].
    replace (32 - k) with (8 - k + 24) by lia. rewrite (Z.pow_add_r 2 (8 - k) 24) by lia.
    change (256 ^ Z.of_nat (4 - 1)) with (2 ^ 24). lia.
Qed.

Lemma wrap_up_bytes s i :
  encodes s i -> Z.of_nat (count i + end_bytes (width i)) <= MAX_ARITHM_BYTES ->
  let k := end_bits (width i) in let m := end_bytes (width i) in
  exists s', SKP_Silk_range_enc_wrap_up s = Ok s' /\ error s' = 0 /\
    bufferIx s' = Z.of_nat (count i + m) /\ bufferLength s' = MAX_ARITHM_BYTES /\
    Z.of_nat (length (buffer s')) = MAX_ARITHM_BYTES /\ Forall byte (buffer s') /\
    bytes_number (take (count i + m) (buffer s')) * 256 ^ Z.of_nat (4 - m) =
      (bytes_number (take (count i) (buffer s)) * 2 ^ 24 + rounded k (base_Q32 s)) * 2 ^ 8 +
      2 ^ (32 - k) - 256 ^ Z.of_nat (4 - m).
Proof.
  intros Hs Hfit k m. destruct Hs as [He Hlen Hc Hr Hh Hw Ht].
  destruct (end_bits_spec _ (proj2 Hw)) as [Hk _]. fold k in Hk.
  pose proof Hh as (Hblen & Hbytes & _ & Hbase & Hlow).
  unfold SKP_Silk_range_enc_wrap_up. rewrite (get_length_spec s i) by done. fold k m in Hfit |- *.
  rewrite Hc, Z.shiftl_mul_pow2 by lia.
  replace (8 * Z.of_nat (count i) + k - Z.of_nat (count i) * 2 ^ 3) with k by lia.
  rewrite !Z.shiftr_div_pow2 with (a := base_Q32 s) by lia. rewrite (rounded_code k _ Hk Hbase).
  destruct (end_carry i _ _ k Hh eq_refl Hw Ht) as (buf & E & Hl & Hb & Hv). rewrite E, bind_Ok.
  destruct (rounded_range k _ Hk Hbase) as (_ & _ & _ & Hmod).
  destruct (end_stored (set_buffer s buf) (count i) k (rounded k (base_Q32 s))) as (s' & P & E' & Hs' & HP);
    [done|done|cbn; lia|done|done|done|done|].
  exists s'. split; [exact E'|]. destruct Hs' as (He' & Hix' & Hl' & Hlen' & Hb' & HP').
  split_and!; try done; [by rewrite He'|]. fold k in HP', HP |- *. unfold m, end_bytes. fold k.
  rewrite HP'. cbn [set_buffer buffer] in *. rewrite <- Hv.
  assert (256 ^ Z.of_nat (if 8 <? k then 2%nat else 1%nat) * 256 ^ Z.of_nat (4 - (if 8 <? k then 2%nat else 1%nat)) = 2 ^ 32) as Hpow
    by by destruct (8 <? k).
  rewrite Z.mul_add_distr_r, HP, <- Z.mul_assoc, Hpow. lia.
Qed.

(** Every continuation of the bytes written lies inside the interval. *)
Lemma wrap_up_inside i base B P w :
  let k := end_bits (width i) in let m := end_bytes (width i) in
  wide i -> 0 <= base < 2 ^ 32 -> low i = B * 2 ^ 32 + base ->
  P * 256 ^ Z.of_nat (4 - m) = (B * 2 ^ 24 + rounded k base) * 2 ^ 8 + 2 ^ (32 - k) - 256 ^ Z.of_nat (4 - m) ->
  Forall byte w -> (count i + 4 <= length w)%nat -> bytes_number (take (count i + m) w) = P ->
  low i <= bytes_number (take (count i + 4) w) < top i.
Proof.
  intros k m [Hlo Hw] Hbase Hlow HP Hb Hlen E. unfold top.
  destruct (end_bits_spec _ Hw) as [Hk Hr]. fold k in Hk, Hr.
  destruct (rounded_range k base Hk Hbase) as (H1 & H2 & _).
  assert ((1 <= m <= 2)%nat /\ k <= 8 * Z.of_nat m) as [Hm Hkm].
  { unfold m, end_bytes. fold k. destruct (Z.ltb_spec 8 k); lia. }
  assert (take (count i + 4) w = take (count i + m) w ++ take (4 - m) (drop (count i + m) w)) as ->.
  { rewrite <- (take_drop (count i + m) w) at 1. rewrite take_app_ge by (rewrite length_take; lia).
    rewrite length_take_le by lia. do 2 f_equal. lia. }
  rewrite bytes_number_app, E. rewrite length_take, length_drop.
  replace ((4 - m) `min` (length w - (count i + m)))%nat with (4 - m)%nat by lia.
  pose proof (bytes_number_bound (take (4 - m) (drop (count i + m) w))
    (Forall_take _ _ _ (Forall_drop _ _ _ Hb))) as Ht.
  rewrite length_take, length_drop in Ht.
  replace ((4 - m) `min` (length w - (count i + m)))%nat with (4 - m)%nat in Ht by lia.
  assert (256 ^ Z.of_nat (4 - m) <= 2 ^ (32 - k)) as Hpow.
  { change 256 with (2 ^ 8). rewrite <- Z.pow_mul_r by lia. apply Z.pow_le_mono_r; lia. }
  assert (2 ^ (33 - k) = 2 ^ (17 - k) * 2 ^ 16) as E33 by (rewrite <- Z.pow_add_r by lia; f_equal; lia).
  rewrite HP. lia.
Qed.

(** The last byte ends in ones. *)
Lemma wrap_up_ones k m B base P c :
  2 <= k <= 10 -> 0 <= base < 2 ^ 32 -> m = (if 8 <? k then 2%nat else 1%nat) ->
  P * 256 ^ Z.of_nat (4 - m) = (B * 2 ^ 24 + rounded k base) * 2 ^ 8 + 2 ^ (32 - k) - 256 ^ Z.of_nat (4 - m) ->
  P mod 256 = c -> c mod 2 ^ (8 * Z.of_nat m - k) = 2 ^ (8 * Z.of_nat m - k) - 1.
Proof.
  intros Hk Hb -> HP Hc. destruct (rounded_range k base Hk Hb) as (_ & _ & _ & Hmod).
  set (X := rounded k base) in *. clearbody X.
  bits_cases k Hk; cbn -[Z.mul Z.add Z.sub Z.modulo] in *; lia.
Qed.

(** A stream as a number for each count of bytes: what the decoder has taken at
    the start, and the bytes it reads afterwards. *)
Definition next_byte (s : SKP_Silk_range_coder_state) (k : nat) : Z :=
  if Z.of_nat k <? bufferLength s then buffer s !!! (4 + k)%nat else 0.
Fixpoint stream (s : SKP_Silk_range_coder_state) (n : nat) : Z :=
  match n with
  | O => base_Q32 s
  | S k => stream s k * 256 + next_byte s k
  end.

Lemma stream_bytes s b n :
  base_Q32 s = bytes_number b -> stream s n = bytes_number (b ++ (next_byte s <$> seq 0 n)).
Proof.
  intros Hb. induction n as [|n IH]; [cbn; by rewrite app_nil_r|].
  rewrite seq_S, fmap_app, app_assoc. cbn [fmap list_fmap stream]. by rewrite bytes_number_snoc, IH.
Qed.

Lemma decoder_starts s :
  error s = 0 -> range_Q16 s = 0xFFFF -> 0 <= base_Q32 s -> bufferIx s = 0 -> 0 <= bufferLength s ->
  Forall byte (buffer s) -> decodes (stream s) s start.
Proof. intros. constructor; cbn; try lia; done. Qed.

Lemma dec_init_spec d mem n :
  Z.of_nat (length (buffer d)) = MAX_ARITHM_BYTES -> Forall byte (buffer d) -> Forall byte mem ->
  (4 <= length mem)%nat -> (n <= length mem)%nat -> Z.of_nat n <= MAX_ARITHM_BYTES ->
  exists d1, SKP_Silk_range_dec_init d mem (Z.of_nat n) = Ok d1 /\
    decodes (stream d1) d1 start /\ bufferLength d1 = Z.of_nat n /\
    base_Q32 d1 = bytes_number (take 4 mem) /\ buffer d1 = take n mem ++ drop n (buffer d).
Proof.
  intros Hlen Hb Hmem H4 Hn Hmax. unfold SKP_Silk_range_dec_init, memcpy.
  rewrite (proj2 (Z.ltb_ge MAX_ARITHM_BYTES (Z.of_nat n))) by lia.
  rewrite (proj2 (Z.ltb_ge (Z.of_nat n) 0)), (proj2 (Z.ltb_ge (Z.of_nat (length mem)) (Z.of_nat n))),
    (proj2 (Z.ltb_ge (Z.of_nat (length (buffer d))) (Z.of_nat n))) by lia.
  cbn [orb]. rewrite bind_Ok, Nat2Z.id.
  destruct mem as [|b0 [|b1 [|b2 [|b3 mem]]]]; cbn [length] in H4; try lia.
  set (buf := take n (b0 :: b1 :: b2 :: b3 :: mem) ++ drop n (buffer d)).
  assert (Forall byte buf) as Hbuf by (apply Forall_app_2; [by apply Forall_take|by apply Forall_drop]).
  clearbody buf.
  rewrite (fetch_ok _ 0 b0), (fetch_ok _ 1 b1), (fetch_ok _ 2 b2), (fetch_ok _ 3 b3), !bind_Ok by done.
  rewrite !Forall_cons in Hmem. destruct Hmem as (H0 & H1 & H2 & H3 & _). unfold byte in H0, H1, H2, H3.
  rewrite !Z.shiftl_mul_pow2, (lor_disjoint (b0 * 2 ^ 24) _ 24) by lia.
  rewrite (lor_disjoint (b0 * 2 ^ 24 + b1 * 2 ^ 16) _ 16) by lia.
  rewrite (lor_disjoint (b0 * 2 ^ 24 + b1 * 2 ^ 16 + b2 * 2 ^ 8) _ 8) by lia.
  eexists. split; [done|]. split_and!; [apply decoder_starts; cbn; first [done|lia]|done| |done].
  change (take 4 _) with [b0; b1; b2; b3]. unfold bytes_number. cbn [base_Q32 fold_left]. lia.
Qed.

(** What an encoder has written, as the decoder takes it: the bytes of the
    payload, and whatever stands behind them in the memory and in the buffer. *)
Lemma payload_stream d1 mem buf N n c w0 :
  buffer d1 = take N mem ++ drop N buf -> bufferLength d1 = Z.of_nat N -> length buf = Z.to_nat MAX_ARITHM_BYTES ->
  base_Q32 d1 = bytes_number (take 4 mem) -> take n mem = take n w0 -> (4 <= length mem)%nat ->
  (n <= N)%nat -> (N <= length mem)%nat -> Forall byte mem -> Forall byte (buffer d1) -> (n <= c + 4)%nat ->
  exists w, stream d1 c = bytes_number (take (c + 4) w) /\ (c + 4 <= length w)%nat /\
    Forall byte w /\ take n w = take n w0.
Proof.
  intros Hbuf Hl Hblen Hbase Hw0 H4 HnN Hn Hmem Hb Hc.
  exists (take 4 mem ++ (next_byte d1 <$> seq 0 c)).
  assert (length (take 4 mem ++ (next_byte d1 <$> seq 0 c)) = c + 4)%nat as Hlen.
  { rewrite length_app, length_take, length_fmap, length_seq. lia. }
  split_and!.
  - rewrite take_ge by lia. by apply stream_bytes.
  - lia.
  - apply Forall_app_2; [by apply Forall_take|]. apply Forall_fmap, Forall_forall. intros k _.
    unfold next_byte, compose. destruct (_ <? _); [|done].
    destruct (decide (4 + k < length (buffer d1))%nat) as [Hlt|Hge]; [by apply Forall_lookup_total_1|].
    by rewrite list_lookup_total_alt, lookup_ge_None_2 by lia.
  - rewrite <- Hw0. apply list_eq. intros j. destruct (decide (j < n)%nat) as [Hj|Hj].
    + rewrite !lookup_take_lt by lia. destruct (decide (j < 4)%nat) as [Hj4|Hj4].
      * rewrite lookup_app_l by (rewrite length_take; lia). by rewrite lookup_take_lt.
      * rewrite lookup_app_r, length_take by (rewrite length_take; lia).
        replace (4 `min` length mem)%nat with 4%nat by lia.
        rewrite list_lookup_fmap, lookup_seq_lt by lia. cbn [fmap option_fmap option_map]. unfold next_byte.
        rewrite (proj2 (Z.ltb_lt _ _)) by lia.
        replace (4 + (0 + (j - 4)))%nat with j by lia.
        rewrite list_lookup_total_alt, Hbuf, lookup_app_l by (rewrite length_take; lia).
        rewrite lookup_take_lt by lia. destruct (lookup_lt_is_Some_2 mem j) as [x ->]; [lia|done].
    + by rewrite !lookup_take_ge by lia.
Qed.

(** ** What the coder promises *)

(** An encoder with the buffer [buf], ready for a packet. *)
Definition packet_start (s : SKP_Silk_range_coder_state) : Prop :=
  Z.of_nat (length (buffer s)) = MAX_ARITHM_BYTES /\ Forall byte (buffer s).

Lemma enc_init_encodes s : packet_start s -> encodes (SKP_Silk_range_enc_init s) start.
Proof.
  intros [Hl Hb]. constructor; try done; unfold holds, wide, top; cbn; split_and?; try done; lia.
Qed.

Lemma check_after_decoding_ones s i c :
  bufferIx s = Z.of_nat (count i) -> range_Q16 s = width i -> wide i ->
  bufferLength s = Z.of_nat (count i + end_bytes (width i)) ->
  buffer s !! (count i + end_bytes (width i) - 1)%nat = Some c -> 0 <= c ->
  (let j := 8 * Z.of_nat (end_bytes (width i)) - end_bits (width i) in c mod 2 ^ j = 2 ^ j - 1) ->
  SKP_Silk_range_coder_check_after_decoding s = Ok s.
Proof.
  intros Hc Hr Hw Hl E Hc0 Hm. cbn zeta in Hm. destruct (end_bits_spec _ (proj2 Hw)) as [Hk _].
  unfold SKP_Silk_range_coder_check_after_decoding. rewrite (get_length_spec s i) by done. rewrite Hl.
  unfold end_bytes in *. set (k := end_bits (width i)) in *. clearbody k. set (n := count i) in *. clearbody n.
  rewrite (proj2 (Z.leb_gt _ _)) by lia.
  destruct (end_mask (Z.of_nat n) k Hk ltac:(lia)) as [-> ->].
  destruct (Z.eqb_spec (k mod 8) 0) as [H0|H0]; [done|]. cbn [negb].
  rewrite (fetch_ok _ _ c), bind_Ok; cycle 1; [destruct (Z.ltb_spec 8 k); lia|by rewrite <- E; f_equal; destruct (Z.ltb_spec 8 k); lia|].
  assert (8 * Z.of_nat (if 8 <? k then 2%nat else 1%nat) - k = 8 - k mod 8) as Ej
    by (destruct (Z.ltb_spec 8 k); cbn; lia).
  rewrite Ej in Hm. rewrite (mask (8 - k mod 8)), Hm, Z.eqb_refl; [done| |apply Z.leb_le; lia].
  rewrite Z.ones_equiv. lia.
Qed.

(** What the decoder finds in the payload of an encoder that has come to the
    interval of the symbols [l], when it is given [N] bytes that begin with it. *)
Lemma packet_decodes l s1 :
  encodes s1 (narrow_all start l) -> Forall codable l -> bufferIx s1 <= 1020 ->
  exists s2 nBits nBytes, SKP_Silk_range_enc_wrap_up s1 = Ok s2 /\
    SKP_Silk_range_coder_get_length s1 = (nBits, Z.of_nat nBytes) /\
    nBytes = (count (narrow_all start l) + end_bytes (width (narrow_all start l)))%nat /\
    Z.of_nat nBytes <= MAX_ARITHM_BYTES /\
    forall d0 mem N, packet_start d0 -> Forall byte mem -> (4 <= length mem)%nat ->
      (nBytes <= N)%nat -> (N <= length mem)%nat -> Z.of_nat N <= MAX_ARITHM_BYTES ->
      take nBytes mem = take nBytes (buffer s2) ->
      exists d1 d2, SKP_Silk_range_dec_init d0 mem (Z.of_nat N) = Ok d1 /\
        carries d1 l d2 /\ SKP_Silk_range_coder_get_length d2 = (nBits, Z.of_nat nBytes) /\
        (N = nBytes -> SKP_Silk_range_coder_check_after_decoding d2 = Ok d2) /\ error d2 = 0 /\
        forall l1 l2 s, l = l1 ++ l2 -> carries d1 l1 s ->
          decodes (stream d1) s (narrow_all start l1) /\ bufferLength s = Z.of_nat N.
Proof.
  intros H1 Hl Hix. set (i := narrow_all start l) in *.
  rewrite (enc_count _ _ H1) in Hix. pose proof (enc_wide _ _ H1) as Hw.
  destruct (end_bits_spec _ (proj2 Hw)) as [Hk _].
  assert (1 <= end_bytes (width i) <= 2)%nat as Hm by (unfold end_bytes; destruct (8 <? _); lia).
  destruct (wrap_up_bytes s1 i H1) as (s2 & E2 & He2 & Hix2 & Hl2 & Hb2 & Hbytes2 & HP).
  { unfold MAX_ARITHM_BYTES. lia. }
  exists s2, (8 * Z.of_nat (count i) + end_bits (width i)), (count i + end_bytes (width i))%nat.
  split; [done|]. split; [apply get_length_spec; by destruct H1|].
  split; [done|]. split; [unfold MAX_ARITHM_BYTES; lia|].
  intros d0 mem N [Hd0 Hd0b] Hmem H4 HN HNm HN' Ht.
  destruct (dec_init_spec d0 mem N) as (d1 & E3 & Hdec & Hdl & Hdb & Hdbuf);
    [done..|].
  assert (length (buffer d1) = Z.to_nat MAX_ARITHM_BYTES) as Hd1.
  { rewrite Hdbuf, length_app, length_take, length_drop. unfold MAX_ARITHM_BYTES in *. lia. }
  pose proof (enc_holds _ _ H1) as (_ & _ & _ & Hbase & Hlow).
  assert (Forall byte (buffer d1)) as Hd1b by (rewrite Hdbuf; by apply Forall_app_2; [apply Forall_take|apply Forall_drop]).
  destruct (payload_stream d1 mem (buffer d0) N (count i + end_bytes (width i)) (count i) (buffer s2))
    as (w & Ew & Hwl & Hwb & Hwt); [done..|lia|done|done|done|done|done|done|done|lia|].
  assert (inside (stream d1) i) as Hin.
  { unfold inside. rewrite Ew. eapply (wrap_up_inside i _ _ _ w Hw Hbase Hlow HP); [done|lia|by rewrite Hwt]. }
  destruct (decoder_carries (stream d1) d1 start l) as (d2 & Hcar & Hd2 & Eb & El); [done|lia|done|done| |].
  { left. fold i. rewrite Hd1. unfold MAX_ARITHM_BYTES. lia. }
  fold i in Hd2. exists d1, d2.
  assert (bufferIx d2 = Z.of_nat (count i)) as Hix' by (rewrite (dec_count _ _ _ Hd2), El, Hdl; lia).
  split_and!; [done|done|apply get_length_spec; by destruct Hd2| |by destruct Hd2|]; cycle 1.
  { intros l1 l2 s El2 Hc. rewrite <- Hdl. apply (carries_progress _ d1 start l1 l2); [done|lia|by rewrite <- El2|by rewrite <- El2| |done].
    left. rewrite <- El2. fold i. rewrite Hd1. unfold MAX_ARITHM_BYTES. lia. }
  intros ->.
  destruct (lookup_lt_is_Some_2 (buffer s2) (count i + end_bytes (width i) - 1)) as [c Hc];
    [unfold MAX_ARITHM_BYTES in *; lia|].
  pose proof (Forall_lookup_1 _ _ _ _ Hbytes2 Hc) as Hbyte. unfold byte in Hbyte.
  apply (check_after_decoding_ones d2 i c); [done|by destruct Hd2|done|congruence| |lia|].
  - rewrite Eb, Hdbuf, lookup_app_l by (rewrite length_take; lia). rewrite Ht, lookup_take_lt by lia. done.
  - eapply (wrap_up_ones (end_bits (width i)) (end_bytes (width i))); [done|exact Hbase|done|exact HP|].
    replace (count i + end_bytes (width i))%nat with (S (count i + end_bytes (width i) - 1)) by lia.
    rewrite (take_S_bytes _ _ _ Hc), Z.add_comm, Z_mod_plus_full. by apply Z.mod_small.
Qed.

(** C31.  The range coder is lossless.  Whatever symbols of positive probability
    are encoded, the encoder returns; it reports an error exactly by its error
    member, when the payload would not fit its buffer.  If it reports none and
    has written at most 1020 bytes, closing the stream gives a payload from which
    the decoder delivers exactly these symbols, wherever its searches start and
    whatever stands behind the payload in memory and in its own buffer; it agrees
    with the encoder on the length of the stream, and its final check succeeds. *)
Theorem range_coder_lossless l s0 :
  packet_start s0 -> Forall codable l ->
  exists s1, SKP_Silk_range_encoder_multi (SKP_Silk_range_enc_init s0) l = Ok s1 /\
    (error s1 = 0 \/ error s1 = RANGE_CODER_WRITE_BEYOND_BUFFER) /\
    (error s1 = 0 -> bufferIx s1 <= 1020 ->
     exists s2 nBits nBytes, SKP_Silk_range_enc_wrap_up s1 = Ok s2 /\
       SKP_Silk_range_coder_get_length s1 = (nBits, Z.of_nat nBytes) /\
       forall d0 mem, packet_start d0 -> Forall byte mem -> (4 <= length mem)%nat ->
         (nBytes <= length mem)%nat -> take nBytes mem = take nBytes (buffer s2) ->
         exists d1 d2, SKP_Silk_range_dec_init d0 mem (Z.of_nat nBytes) = Ok d1 /\
           carries d1 l d2 /\ SKP_Silk_range_coder_get_length d2 = (nBits, Z.of_nat nBytes) /\
           SKP_Silk_range_coder_check_after_decoding d2 = Ok d2 /\ error d2 = 0).
Proof.
  intros Hs0 Hl. destruct (encoder_multi_narrows _ _ l (enc_init_encodes s0 Hs0) Hl) as (s1 & E1 & H1).
  exists s1. split; [done|]. destruct H1 as [H1|[He _]]; [|split; [by right|rewrite He; done]].
  split; [left; apply (enc_error _ _ H1)|]. intros _ Hix.
  destruct (packet_decodes l s1 H1 Hl Hix) as (s2 & nBits & nBytes & Hw & Hlen & _ & Hmax & Hdec).
  exists s2, nBits, nBytes. split; [done|]. split; [done|]. intros d0 mem H2 H3 H4 H5 H6.
  destruct (Hdec d0 mem nBytes H2 H3 H4 ltac:(lia) H5 ltac:(lia) H6) as (d1 & d2 & ? & ? & ? & Hck & ? & _).
  exists d1, d2. split_and!; auto.
Qed.

Lemma decoder_multi_stuck s l :
  error s <> 0 -> SKP_Silk_range_decoder_multi s l = Ok (replicate (length l) 0, s).
Proof.
  intros He. induction l as [|[p ix] l IH]; [done|]. cbn [SKP_Silk_range_decoder_multi].
  unfold SKP_Silk_range_decoder. rewrite (proj2 (Z.eqb_neq _ _) He). cbn [negb].
  by rewrite bind_Ok, IH.
Qed.

(** A symbol of the distribution. *)
Definition symbol_of (d : Z) (p : list Z * Z) : Prop := 0 <= d /\ d + 1 < Z.of_nat (length p.1).

Lemma decoder_multi_safe val s i l :
  decodes val s i -> 0 <= bufferLength s -> bufferLength s + 4 <= Z.of_nat (length (buffer s)) ->
  Forall (fun p => cdf_ok p.1 /\ start_ok p.1 p.2) l ->
  exists ds s', SKP_Silk_range_decoder_multi s l = Ok (ds, s') /\
    (error s' = 0 \/ error s' = RANGE_CODER_CDF_OUT_OF_RANGE) /\ Forall2 symbol_of ds l.
Proof.
  intros Hs Hlen Hbuf Hl. revert s i Hs Hlen Hbuf.
  induction Hl as [|[prob ix] l [Hp Hix] Hl IH]; intros s i Hs Hlen Hbuf.
  - exists [], s. split_and!; [done|left; by destruct Hs|constructor].
  - cbn [SKP_Silk_range_decoder_multi fst snd] in *.
    destruct (range_decoder_follows val s i prob ix Hs Hlen Hp Hix) as [[_ ->]|(d & lo & hi & Hd & _ & H)].
    + rewrite bind_Ok, decoder_multi_stuck by done. rewrite bind_Ok. eexists _, _. split; [done|].
      split; [by right|]. constructor.
      * destruct Hix. unfold symbol_of. cbn [fst]. lia.
      * clear -Hl. induction Hl as [|[p jx] l [_ [Hj1 Hj2]] _ IH]; [constructor|]. constructor; [|done].
        unfold symbol_of. cbn [fst snd] in *. lia.
    + destruct H as (s1 & -> & Hs1 & Eb & El); [by right|]. rewrite bind_Ok.
      destruct (IH s1 _ Hs1) as (ds & s2 & -> & He & Hds); [lia|by rewrite Eb, El|].
      rewrite bind_Ok. exists (d :: ds), s2. split_and!; [done|done|]. constructor; [|done].
      destruct Hd as (Hd0 & _ & Hh%lookup_lt_Some & _). unfold symbol_of. cbn [fst]. lia.
Qed.

(** C32.  The decoder is safe on any payload of at most 1020 bytes, whoever sent
    it: it stays inside its buffer and inside the distributions, delivers symbols
    of these, and the only error it can find in a payload is a value above the
    last entry of a distribution; its checks of the normalisation and of the width
    of the interval never fail. *)
Theorem range_decoder_safe d0 mem n l :
  packet_start d0 -> Forall byte mem -> (4 <= length mem)%nat -> (n <= length mem)%nat ->
  Z.of_nat n <= 1020 -> Forall (fun p => cdf_ok p.1 /\ start_ok p.1 p.2) l ->
  exists d1 ds d2, SKP_Silk_range_dec_init d0 mem (Z.of_nat n) = Ok d1 /\
    SKP_Silk_range_decoder_multi d1 l = Ok (ds, d2) /\
    (error d2 = 0 \/ error d2 = RANGE_CODER_CDF_OUT_OF_RANGE) /\ Forall2 symbol_of ds l.
Proof.
  intros [Hd0 Hb0] Hmem H4 Hn Hmax Hl. unfold MAX_ARITHM_BYTES in Hd0.
  destruct (dec_init_spec d0 mem n) as (d1 & E & Hdec & Hdl & _ & Hdbuf);
    [done..|unfold MAX_ARITHM_BYTES; lia|].
  destruct (decoder_multi_safe _ d1 _ l Hdec) as (ds & d2 & E2 & He & Hds); [lia| |done|].
  { rewrite Hdl, Hdbuf, length_app, length_take, length_drop. lia. }
  by exists d1, ds, d2.
Qed.

(** ** Distributions inside longer tables

    Many distributions are parts of a table; the coder is given a pointer into it. *)

Lemma range_encoder_app s d prob rest s' :
  SKP_Silk_range_encoder s d prob = Ok s' -> SKP_Silk_range_encoder s d (prob ++ rest) = Ok s'.
Proof.
  unfold SKP_Silk_range_encoder. destruct (negb _); [done|].
  destruct (fetch prob d) as [l| |] eqn:E1; [|done..]. rewrite (fetch_app _ rest _ _ E1), !bind_Ok.
  destruct (fetch prob (d + 1)) as [h| |] eqn:E2; [|done..]. by rewrite (fetch_app _ rest _ _ E2).
Qed.

Lemma search_down_app range base prob rest n hi r :
  search_down range base prob n hi = Ok r -> search_down range base (prob ++ rest) n hi = Ok r.
Proof.
  revert hi. induction n as [|n IH]; intros hi; cbn [search_down]; [done|].
  destruct (fetch prob _) as [l| |] eqn:E1; [|done..]. rewrite (fetch_app _ rest _ _ E1), !bind_Ok.
  destruct (_ <=? _); [done|]. destruct (_ =? _); [done|]. apply IH.
Qed.

Lemma search_up_app k f range base prob rest n lo r :
  search_up f range base prob n lo = Ok r -> search_up (f + k) range base (prob ++ rest) n lo = Ok r.
Proof.
  revert n lo. induction f as [|f IH]; intros n lo; cbn [Nat.add search_up]; [done|].
  destruct (fetch prob _) as [h| |] eqn:E1; [|done..]. rewrite (fetch_app _ rest _ _ E1), !bind_Ok.
  destruct (_ <? _); [done|]. destruct (_ =? _); [done|]. apply IH.
Qed.

Lemma range_decoder_app s prob rest ix r :
  SKP_Silk_range_decoder s prob ix = Ok r -> SKP_Silk_range_decoder s (prob ++ rest) ix = Ok r.
Proof.
  unfold SKP_Silk_range_decoder. destruct (negb _); [done|].
  destruct (fetch prob ix) as [h| |] eqn:E1; [|done..]. rewrite (fetch_app _ rest _ _ E1), !bind_Ok, length_app.
  destruct (_ <? _).
  - destruct (search_down _ _ prob _ _) as [o| |] eqn:E2; [|done..]. by rewrite (search_down_app _ _ _ rest _ _ _ E2).
  - destruct (search_up _ _ _ prob _ _) as [o| |] eqn:E2; [|done..].
    by rewrite (search_up_app (length rest) _ _ _ _ rest _ _ _ E2).
Qed.

Lemma encoder_multi_app s l1 l2 :
  SKP_Silk_range_encoder_multi s (l1 ++ l2) =
    (s ← SKP_Silk_range_encoder_multi s l1; SKP_Silk_range_encoder_multi s l2).
Proof.
  revert s. induction l1 as [|[d p] l1 IH]; intros s; [done|]. cbn [app SKP_Silk_range_encoder_multi].
  rewrite res_bind_assoc. destruct (SKP_Silk_range_encoder s d p); [|done..]. by rewrite !bind_Ok, IH.
Qed.

(** Deciding that a symbol can be coded. *)
Fixpoint sorted_b (l : list Z) : bool :=
  match l with
  | x :: ((y :: _) as k) => (x <=? y) && sorted_b k
  | _ => true
  end.

Definition cdf_b (prob : list Z) : bool :=
  bool_decide (prob !! O = Some 0) && bool_decide (last prob = Some 65535) && sorted_b prob.

Definition codable_b (sym : Z * list Z) : bool :=
  let '(d, prob) := sym in
  cdf_b prob && (0 <=? d) && (d + 1 <? Z.of_nat (length prob)) &&
  ((limits prob d).1 <? (limits prob d).2).

Lemma sorted_b_spec l : sorted_b l = true -> Sorted.StronglySorted Z.le l.
Proof.
  intros H. apply Sorted.Sorted_StronglySorted; [intros x y z; lia|].
  induction l as [|x [|y l] IH]; [constructor|by repeat constructor|].
  cbn [sorted_b] in H. apply andb_prop in H as [H1%Z.leb_le H2]. constructor; [by apply IH|by constructor].
Qed.

Lemma cdf_b_spec prob : cdf_b prob = true -> cdf_ok prob.
Proof.
  unfold cdf_b. rewrite !andb_true_iff, !bool_decide_eq_true. intros [[H1 H2] H3].
  split_and!; [done|done|by apply sorted_b_spec].
Qed.

Lemma codable_b_spec sym : codable_b sym = true -> codable sym.
Proof.
  destruct sym as [d prob]. cbn. rewrite !andb_true_iff, Z.leb_le, !Z.ltb_lt.
  intros [[[H1 H2] H3] H4]. split; [by apply cdf_b_spec|]. cbn. split_and!; [done|..|done];
    apply list_lookup_lookup_total_lt; lia.
Qed.

(** ** What it does not promise *)

(** The first four bytes are read whatever the length of the payload. *)
Lemma dec_init_reads_beyond_payload d0 mem :
  Z.of_nat (length (buffer d0)) = MAX_ARITHM_BYTES -> (length mem < 4)%nat ->
  SKP_Silk_range_dec_init d0 mem (Z.of_nat (length mem)) = Err OutOfBounds.
Proof.
  intros Hb Hl. unfold MAX_ARITHM_BYTES in Hb. unfold SKP_Silk_range_dec_init, memcpy, MAX_ARITHM_BYTES.
  rewrite (proj2 (Z.ltb_ge 1024 _)), (proj2 (Z.ltb_ge _ 0)), Z.ltb_irrefl,
    (proj2 (Z.ltb_ge (Z.of_nat (length (buffer d0))) _)) by lia.
  cbn [orb]. rewrite bind_Ok.
  by destruct mem as [|b0 [|b1 [|b2 [|b3 mem]]]]; [..|cbn [length] in Hl; lia].
Qed.

(** A payload of more than 1020 bytes is accepted, and the decoder reads up to four
    bytes behind its buffer. *)
Definition rare : list Z := [0; 1; 65535].

Lemma decoder_reads_beyond_buffer :
  let d0 := RangeCoder 0 0 0 0 0 (replicate (Z.to_nat 1024) 0) in
  exists d1, SKP_Silk_range_dec_init d0 (replicate (Z.to_nat 1024) 0) 1024 = Ok d1 /\
    (exists ds d2, SKP_Silk_range_decoder_multi d1 (replicate 510 (rare, 1)) = Ok (ds, d2) /\ error d2 = 0) /\
    SKP_Silk_range_decoder_multi d1 (replicate 511 (rare, 1)) = Err OutOfBounds.
Proof. eexists. split; [vm_compute; reflexivity|]. split; [eexists _, _; split; vm_compute; reflexivity|]. vm_compute. reflexivity. Qed.

(** When the buffer is full, closing the stream drops its last bits, without an error. *)
Lemma wrap_up_full_buffer s i :
  encodes s i -> Z.of_nat (count i) = MAX_ARITHM_BYTES ->
  exists s', SKP_Silk_range_enc_wrap_up s = Ok s' /\ error s' = 0 /\ bufferIx s' = bufferIx s.
Proof.
  intros Hs Hn. destruct Hs as [He Hlen Hc Hr Hh Hw Ht].
  pose proof Hw as [Hlo Hwid]. destruct (end_bits_spec _ Hwid) as [Hk _].
  pose proof Hh as (Hblen & Hbytes & _ & Hbase & Hlow).
  unfold SKP_Silk_range_enc_wrap_up. rewrite (get_length_spec s i) by done.
  rewrite Hc, Z.shiftl_mul_pow2 by lia.
  replace (8 * Z.of_nat (count i) + end_bits (width i) - Z.of_nat (count i) * 2 ^ 3) with (end_bits (width i)) by lia.
  rewrite !Z.shiftr_div_pow2 with (a := base_Q32 s) by lia. rewrite (rounded_code _ _ Hk Hbase).
  destruct (end_carry i _ _ _ Hh eq_refl Hw Ht) as (buf & E & _). rewrite E, bind_Ok.
  unfold store_end, fill_end. cbn [set_buffer bufferIx bufferLength]. rewrite Hc, Hlen, Hn.
  rewrite Z.ltb_irrefl, bind_Ok. cbn [set_buffer bufferLength]. rewrite Hlen.
  rewrite (proj2 (Z.ltb_ge _ MAX_ARITHM_BYTES)) by (unfold end_bytes; destruct (8 <? _); lia).
  clear E. exists (set_buffer s buf). split; [by destruct (test_bits _ _)|]. split; [exact He|]. cbn. lia.
Qed.

(** ** A packet *)

Definition ex_cdf : list Z := [0; 1000; 40000; 65000; 65535].
Definition ex_symbols : list (Z * list Z) := (fun d => (d, ex_cdf)) <$> [0; 3; 1; 2; 3; 3; 0; 1].
Definition ex_coder : SKP_Silk_range_coder_state := RangeCoder 7 7 7 7 7 (replicate (Z.to_nat 1024) 0).

Lemma ex_cdf_ok : cdf_ok ex_cdf.
Proof. split_and!; [done|done|]. repeat constructor; lia. Qed.

Lemma ex_codable : Forall codable ex_symbols.
Proof. repeat constructor; cbn; try lia; apply ex_cdf_ok. Qed.

Lemma ex_packet_start : packet_start ex_coder.
Proof. split; [done|]. apply Forall_replicate. unfold byte. lia. Qed.

(** The payload of the eight symbols has 5 bytes. *)
Lemma range_coder_lossless_witness :
  (exists s1 s2, SKP_Silk_range_encoder_multi (SKP_Silk_range_enc_init ex_coder) ex_symbols = Ok s1 /\
     SKP_Silk_range_enc_wrap_up s1 = Ok s2 /\ error s1 = 0 /\ bufferIx s1 = 4 /\
     SKP_Silk_range_coder_get_length s1 = (37, 5) /\ take 5 (buffer s2) = [3; 227; 194; 152; 55]) /\
  exists s1, SKP_Silk_range_encoder_multi (SKP_Silk_range_enc_init ex_coder) ex_symbols = Ok s1 /\
    (error s1 = 0 \/ error s1 = RANGE_CODER_WRITE_BEYOND_BUFFER) /\
    (error s1 = 0 -> bufferIx s1 <= 1020 ->
     exists s2 nBits nBytes, SKP_Silk_range_enc_wrap_up s1 = Ok s2 /\
       SKP_Silk_range_coder_get_length s1 = (nBits, Z.of_nat nBytes) /\
       forall d0 mem, packet_start d0 -> Forall byte mem -> (4 <= length mem)%nat ->
         (nBytes <= length mem)%nat -> take nBytes mem = take nBytes (buffer s2) ->
         exists d1 d2, SKP_Silk_range_dec_init d0 mem (Z.of_nat nBytes) = Ok d1 /\
           carries d1 ex_symbols d2 /\ SKP_Silk_range_coder_get_length d2 = (nBits, Z.of_nat nBytes) /\
           SKP_Silk_range_coder_check_after_decoding d2 = Ok d2 /\ error d2 = 0).
Proof.
  split; [|exact (range_coder_lossless ex_symbols ex_coder ex_packet_start ex_codable)].
  eexists _, _. split; [vm_compute; reflexivity|]. split; [vm_compute; reflexivity|].
  split_and!; vm_compute; reflexivity.
Defined.

Lemma range_decoder_safe_witness :
  exists d1 ds d2,
    SKP_Silk_range_dec_init ex_coder (replicate 20 255) (Z.of_nat 20) = Ok d1 /\
    SKP_Silk_range_decoder_multi d1 (replicate 4 (ex_cdf, 2)) = Ok (ds, d2) /\
    (error d2 = 0 \/ error d2 = RANGE_CODER_CDF_OUT_OF_RANGE) /\
    Forall2 symbol_of ds (replicate 4 (ex_cdf, 2)).
Proof.
  apply (range_decoder_safe ex_coder (replicate 20 255) 20 (replicate 4 (ex_cdf, 2)) ex_packet_start).
  - apply Forall_replicate. unfold byte. lia.
  - cbn. lia.
  - cbn. lia.
  - lia.
  - apply Forall_replicate. split; [exact ex_cdf_ok|split; cbn; lia].
Defined.
