(* ===== verification/SilkMath.v ===== *)
(** * The fixed-point arithmetic of the SILK codec

    The macros of [jni/silk/src/SKP_Silk_macros.h] and [SKP_Silk_SigProc_FIX.h], the
    inline functions of [SKP_Silk_Inlines.h] and the logarithms of
    [SKP_Silk_lin2log.c] and [SKP_Silk_log2lin.c], as far as the coding of the
    parameters uses them.  An [int] that overflows is an [Err]. *)

From Stdlib Require Import ZArith Lia.
From stdpp Require Import base list.
From S2P Require Import Prelude.
From S2P Require Import SilkRange.

Open Scope Z_scope.

(** ** Macros *)

Definition SKP_SMULBB (a b : Z) : Z := s16 a * s16 b.
(** The top and the bottom half of [a32], times the low half of [b32]. *)
Definition SKP_SMULWB (a32 b32 : Z) : Z :=
  Z.shiftr a32 16 * s16 b32 + Z.shiftr (Z.land a32 0xFFFF * s16 b32) 16.
Definition SKP_SMLAWB (a32 b32 c32 : Z) : res Z := add_s32 a32 (SKP_SMULWB b32 c32).
(** [shift] is a positive constant wherever it is used. *)
Definition SKP_RSHIFT_ROUND (a shift : Z) : Z :=
  if shift =? 1 then Z.shiftr a 1 + Z.land a 1 else Z.shiftr (Z.shiftr a (shift - 1) + 1) 1.
Definition SKP_MUL (a b : Z) : res Z := int32 (a * b).
Definition SKP_MLA (a b c : Z) : res Z := p ← SKP_MUL b c; add_s32 a p.
Definition SKP_SMULWW (a b : Z) : res Z := SKP_MLA (SKP_SMULWB a b) a (SKP_RSHIFT_ROUND b 16).
Definition SKP_SMLAWW (a b c : Z) : res Z :=
  x ← SKP_SMLAWB a b c;
  SKP_MLA x b (SKP_RSHIFT_ROUND c 16).
Definition SKP_SMMUL (a b : Z) : Z := s32 (Z.shiftr (a * b) 32).

Definition SKP_abs (a : Z) : Z := if 0 <? a then a else - a.
Definition SKP_min (a b : Z) : Z := if a <? b then a else b.
Definition SKP_max (a b : Z) : Z := if b <? a then a else b.
Definition SKP_LIMIT (a limit1 limit2 : Z) : Z :=
  if limit2 <? limit1
  then if limit1 <? a then limit1 else if a <? limit2 then limit2 else a
  else if limit2 <? a then limit2 else if a <? limit1 then limit1 else a.
Definition SKP_SAT16 (a : Z) : Z := if 32767 <? a then 32767 else if a <? -32768 then -32768 else a.
Definition SKP_LSHIFT_SAT32 (a shift : Z) : res Z :=
  shl_s32 (SKP_LIMIT a (Z.shiftr INT32_MIN shift) (Z.shiftr INT32_MAX shift)) shift.

(** ** Logarithms *)

(** The number of leading zeros, and the 7 bits behind the leading one. *)
Definition SKP_Silk_CLZ_FRAC (inp : Z) : res (Z * Z) :=
  let lz := SKP_Silk_CLZ32 inp in
  if lz <? 24 then Ok (lz, Z.land (Z.shiftr inp (24 - lz)) 0x7F)
  else x ← shl_s32 inp (lz - 24); Ok (lz, Z.land x 0x7F).

Definition SKP_Silk_lin2log (inLin : Z) : res Z :=
  '(lz, frac_Q7) ← SKP_Silk_CLZ_FRAC inLin;
  int ← shl_s32 (31 - lz) 7;
  p ← SKP_MUL frac_Q7 (128 - frac_Q7);
  frac ← SKP_SMLAWB frac_Q7 p 179;
  add_s32 int frac.

Definition SKP_Silk_log2lin (inLog_Q7 : Z) : res Z :=
  if inLog_Q7 <? 0 then Ok 0
  else
    out ← shl_s32 1 (Z.shiftr inLog_Q7 7);
    let frac_Q7 := Z.land inLog_Q7 0x7F in
    p ← SKP_MUL frac_Q7 (128 - frac_Q7);
    frac ← SKP_SMLAWB frac_Q7 p (-174);
    if inLog_Q7 <? 2048 then x ← SKP_MUL out frac; add_s32 out (Z.shiftr x 7)
    else SKP_MLA out (Z.shiftr out 7) frac.

(** ** Division *)

Definition SKP_DIV32 (a b : Z) : res Z := div_s32 a b.

Definition SKP_INVERSE32_varQ (b32 Qres : Z) : res Z :=
  let b_headrm := SKP_Silk_CLZ32 (SKP_abs b32) - 1 in
  b32_nrm ← shl_s32 b32 b_headrm;
  b32_inv ← div_s32 (Z.shiftr INT32_MAX 2) (Z.shiftr b32_nrm 16);
  result ← shl_s32 b32_inv 16;
  let err_Q32 := s32 (- SKP_SMULWB b32_nrm b32_inv * 2 ^ 3) in
  result ← SKP_SMLAWW result err_Q32 b32_inv;
  let lshift := 61 - b_headrm - Qres in
  if lshift <=? 0 then SKP_LSHIFT_SAT32 result (- lshift)
  else if lshift <? 32 then Ok (Z.shiftr result lshift) else Ok 0.

(** ** Bandwidth expansion *)

(** The loop over all but the last coefficient, and the last. *)
Fixpoint bwexpander_32_loop (ar : list Z) (chirp_Q16 tmp_chirp_Q16 : Z) : res (list Z) :=
  match ar with
  | [] => Err OutOfBounds
  | [x] => x ← SKP_SMULWW x tmp_chirp_Q16; Ok [x]
  | x :: ar =>
      x ← SKP_SMULWW x tmp_chirp_Q16;
      tmp ← SKP_SMULWW chirp_Q16 tmp_chirp_Q16;
      ar ← bwexpander_32_loop ar chirp_Q16 tmp;
      Ok (x :: ar)
  end.
Definition SKP_Silk_bwexpander_32 (ar : list Z) (chirp_Q16 : Z) : res (list Z) :=
  bwexpander_32_loop ar chirp_Q16 chirp_Q16.

Fixpoint bwexpander_loop (ar : list Z) (chirp_Q16 chirp_minus_one_Q16 : Z) : res (list Z) :=
  match ar with
  | [] => Err OutOfBounds
  | [x] => x ← SKP_MUL chirp_Q16 x; Ok [s16 (SKP_RSHIFT_ROUND x 16)]
  | x :: ar =>
      x ← SKP_MUL chirp_Q16 x;
      c ← SKP_MUL chirp_Q16 chirp_minus_one_Q16;
      chirp ← add_s32 chirp_Q16 (SKP_RSHIFT_ROUND c 16);
      ar ← bwexpander_loop ar chirp chirp_minus_one_Q16;
      Ok (s16 (SKP_RSHIFT_ROUND x 16) :: ar)
  end.
Definition SKP_Silk_bwexpander (ar : list Z) (chirp_Q16 : Z) : res (list Z) :=
  m ← add_s32 chirp_Q16 (- 65536);
  bwexpander_loop ar chirp_Q16 m.

(** ** Lemmas *)

(** The low half of a factor is used as a 16-bit number: the product, over 2^16. *)
Lemma SMULWB_spec a b : SKP_SMULWB a b = a * s16 b / 2 ^ 16.
Proof.
  unfold SKP_SMULWB. rewrite (mask 16), !Z.shiftr_div_pow2 by done.
  rewrite <- Z.div_add_l by lia. f_equal.
  rewrite (Z_div_mod_eq_full a (2 ^ 16)) at 3. lia.
Qed.

(** Bounds. *)
Lemma min_le a b : SKP_min a b <= b.
Proof. unfold SKP_min. destruct (Z.ltb_spec a b); lia. Qed.

Lemma SKP_max_spec a b : SKP_max a b = Z.max a b.
Proof. unfold SKP_max. destruct (Z.ltb_spec b a); lia. Qed.

Lemma limit_spec a l h : l <= h -> SKP_LIMIT a l h = Z.max l (Z.min a h).
Proof.
  intros Hl. unfold SKP_LIMIT. rewrite (proj2 (Z.ltb_ge h l)) by lia.
  destruct (Z.ltb_spec h a), (Z.ltb_spec a l); lia.
Qed.

Lemma SKP_min_spec a b : SKP_min a b = Z.min a b.
Proof. unfold SKP_min. destruct (Z.ltb_spec a b); lia. Qed.

Lemma CLZ32_log x : 1 <= x < 2 ^ 31 -> SKP_Silk_CLZ32 x = 31 - Z.log2 x.
Proof.
  intros Hx. unfold SKP_Silk_CLZ32. rewrite test_high_16 by lia.
  destruct (Z.leb_spec (2 ^ 16) x).
  - assert (1 <= x / 2 ^ 16) by (apply Z.div_le_lower_bound; lia).
    assert (x / 2 ^ 16 < 2 ^ 15) by (apply Z.div_lt_upper_bound; lia).
    rewrite Z.shiftr_div_pow2 by lia. rewrite CLZ16_spec by lia.
    rewrite <- Z.shiftr_div_pow2, Z.log2_shiftr by lia.
    assert (16 <= Z.log2 x) by (apply Z.log2_le_pow2; lia). lia.
  - rewrite CLZ16_spec by lia. lia.
Qed.

Lemma CLZ32_range x : 0 <= x < 2 ^ 31 -> 1 <= SKP_Silk_CLZ32 x <= 32 /\ x < 2 ^ (32 - SKP_Silk_CLZ32 x).
Proof.
  intros Hx. destruct (Z.eq_dec x 0) as [->|Hn]; [vm_compute; intuition discriminate|].
  rewrite CLZ32_log by lia. pose proof (Z.log2_spec x ltac:(lia)) as Hl.
  pose proof (Z.log2_nonneg x). assert (Z.log2 x < 31) by (apply Z.log2_lt_pow2; lia).
  replace (32 - (31 - Z.log2 x)) with (Z.succ (Z.log2 x)) by lia. lia.
Qed.

(** The fraction of the logarithm, for each of its 128 values. *)
Definition frac_ok (f : Z) : bool :=
  match p ← SKP_MUL f (128 - f); SKP_SMLAWB f p 179 with
  | Ok x => (f <=? x) && (x <=? 127)
  | _ => false
  end.

Lemma frac_all : forallb (fun k => frac_ok (Z.of_nat k)) (seq 0 128) = true.
Proof. vm_compute. reflexivity. Qed.

(** A property of a few numbers, from a computation. *)
Lemma forallb_below (P : Z -> bool) n x :
  forallb (fun k => P (Z.of_nat k)) (seq 0 n) = true -> 0 <= x < Z.of_nat n -> P x = true.
Proof.
  intros H Hx. rewrite forallb_forall in H. rewrite <- (Z2Nat.id x) by lia. apply H. apply in_seq. lia.
Qed.

Lemma CLZ_FRAC_spec x :
  0 <= x < 2 ^ 31 -> exists f, SKP_Silk_CLZ_FRAC x = Ok (SKP_Silk_CLZ32 x, f) /\ 0 <= f < 128.
Proof.
  intros Hx. destruct (CLZ32_range x Hx) as [Hl Hb]. unfold SKP_Silk_CLZ_FRAC.
  assert (forall y, 0 <= Z.land y 0x7F < 128) as Hland
    by (intros y; rewrite (mask 7) by done; apply Z.mod_pos_bound; lia).
  destruct (Z.ltb_spec (SKP_Silk_CLZ32 x) 24); [by eexists|].
  rewrite shl_s32_ok; [rewrite bind_Ok; by eexists|lia|].
  assert (x * 2 ^ (SKP_Silk_CLZ32 x - 24) < 2 ^ (32 - SKP_Silk_CLZ32 x) * 2 ^ (SKP_Silk_CLZ32 x - 24)).
  { apply Z.mul_lt_mono_pos_r; [apply Z.pow_pos_nonneg; lia|done]. }
  rewrite <- Z.pow_add_r in H0 by lia. replace (_ + _) with 8 in H0 by lia.
  assert (0 <= x * 2 ^ (SKP_Silk_CLZ32 x - 24)) by (apply Z.mul_nonneg_nonneg; [lia|apply Z.pow_nonneg; lia]).
  unfold INT32_MIN, INT32_MAX. lia.
Qed.

(** The logarithm is total on the gains, and 31 in Q7 bounds it. *)
Lemma lin2log_total x : 0 <= x < 2 ^ 31 -> exists l, SKP_Silk_lin2log x = Ok l /\ -128 <= l <= 3967.
Proof.
  intros Hx. destruct (CLZ_FRAC_spec x Hx) as (f & Ef & Hf). destruct (CLZ32_range x Hx) as [Hl _].
  unfold SKP_Silk_lin2log. rewrite Ef, bind_Ok. rewrite shl_s32_ok by (unfold INT32_MIN, INT32_MAX; lia).
  rewrite bind_Ok. pose proof (forallb_below frac_ok 128 f frac_all ltac:(lia)) as Hp. unfold frac_ok in Hp.
  destruct (SKP_MUL f (128 - f)) as [p| |]; [|done..]. rewrite !bind_Ok in *.
  destruct (SKP_SMLAWB f p 179) as [y| |]; [|done..]. rewrite bind_Ok.
  apply andb_true_iff in Hp as [H1%Z.leb_le H2%Z.leb_le].
  exists ((31 - SKP_Silk_CLZ32 x) * 2 ^ 7 + y). rewrite add_s32_ok by (unfold INT32_MIN, INT32_MAX; lia).
  split; [done|lia].
Qed.

(** The whole domain of the exponential: positive, and a near inverse of the logarithm. *)
Definition exp_ok (y : Z) : bool :=
  match SKP_Silk_log2lin y with
  | Ok x => (1 <=? x) && (x <=? INT32_MAX) &&
            match SKP_Silk_lin2log x with Ok z => (z <=? y + 1) && ((y <? 896) || (y - 3 <=? z)) | _ => false end
  | _ => false
  end.

Lemma exp_all : forallb (fun k => exp_ok (Z.of_nat k)) (seq 0 (Z.to_nat 3968)) = true.
Proof. vm_compute. reflexivity. Qed.

Lemma log2lin_total y : y <= 3967 -> exists x, SKP_Silk_log2lin y = Ok x /\ 0 <= x <= INT32_MAX.
Proof.
  intros Hy. destruct (Z.ltb_spec y 0) as [Hn|Hn].
  - exists 0. unfold SKP_Silk_log2lin. rewrite (proj2 (Z.ltb_lt y 0) Hn). split; [done|by unfold INT32_MAX].
  - pose proof (forallb_below exp_ok (Z.to_nat 3968) y exp_all ltac:(lia)) as H. unfold exp_ok in H.
    destruct (SKP_Silk_log2lin y) as [x| |]; [|done..]. exists x. split; [done|].
    apply andb_true_iff in H as [[H1%Z.leb_le H2%Z.leb_le]%andb_true_iff _]. lia.
Qed.
