(* ===== verification/SilkGains.v ===== *)
(** * The gains of the SILK codec

    [jni/silk/src/SKP_Silk_gain_quant.c]: the gains of the four parts of a frame are
    indices on a logarithmic scale, the first absolute at the beginning of a packet,
    the others relative to the index before. *)
From Stdlib Require Import ZArith Lia.
From stdpp Require Import base list.
From S2P Require Import Prelude.
From S2P Require Import SilkRange.
From S2P Require Import SilkMath.

Open Scope Z_scope.

Definition NB_SUBFR : nat := 4.
Definition MIN_QGAIN_DB : Z := 6.
Definition MAX_QGAIN_DB : Z := 86.
Definition N_LEVELS_QGAIN : Z := 64.
Definition MAX_DELTA_GAIN_QUANT : Z := 40.
Definition MIN_DELTA_GAIN_QUANT : Z := -4.

Definition OFFSET : Z := (MIN_QGAIN_DB * 128) / 6 + 16 * 128.
Definition SCALE_Q16 : Z := (65536 * (N_LEVELS_QGAIN - 1)) / (((MAX_QGAIN_DB - MIN_QGAIN_DB) * 128) / 6).
Definition INV_SCALE_Q16 : Z := (65536 * (((MAX_QGAIN_DB - MIN_QGAIN_DB) * 128) / 6)) / (N_LEVELS_QGAIN - 1).

(** The gain of an index. *)
Definition gain_of (prev_ind : Z) : res Z :=
  SKP_Silk_log2lin (SKP_min (SKP_SMULWB INV_SCALE_Q16 prev_ind + OFFSET) 3967).

(** The index of a gain, rounded towards the index before. *)
Definition level_of (gain_Q16 prev_ind : Z) : res Z :=
  l ← SKP_Silk_lin2log gain_Q16;
  let ind := SKP_SMULWB SCALE_Q16 (l - OFFSET) in
  Ok (if ind <? prev_ind then ind + 1 else ind).

(** One round of [SKP_Silk_gains_quant]; [full] is [k == 0 && conditional == 0]. *)
Definition quant_gain (full : bool) (gain_Q16 prev_ind : Z) : res (Z * Z * Z) :=
  ind ← level_of gain_Q16 prev_ind;
  let '(ind, prev_ind) :=
    if full then
      let ind := SKP_LIMIT ind 0 (N_LEVELS_QGAIN - 1) in
      let ind := SKP_max ind (prev_ind + MIN_DELTA_GAIN_QUANT) in
      (ind, ind)
    else
      let ind := SKP_LIMIT (ind - prev_ind) MIN_DELTA_GAIN_QUANT MAX_DELTA_GAIN_QUANT in
      (ind - MIN_DELTA_GAIN_QUANT, prev_ind + ind) in
  g ← gain_of prev_ind;
  Ok (ind, g, prev_ind).

Fixpoint gains_quant_loop (full : bool) (n : nat) (gain_Q16 : list Z) (prev_ind : Z)
    : res (list Z * list Z * Z) :=
  match n, gain_Q16 with
  | O, _ => Ok ([], [], prev_ind)
  | S n, g :: gain_Q16 =>
      '(i, g, prev_ind) ← quant_gain full g prev_ind;
      '(ind, gain_Q16, prev_ind) ← gains_quant_loop false n gain_Q16 prev_ind;
      Ok (i :: ind, g :: gain_Q16, prev_ind)
  | S _, [] => Err OutOfBounds
  end.

(** The indices, the quantised gains and the last index. *)
Definition SKP_Silk_gains_quant (gain_Q16 : list Z) (prev_ind conditional : Z) : res (list Z * list Z * Z) :=
  gains_quant_loop (conditional =? 0) NB_SUBFR gain_Q16 prev_ind.

Definition dequant_gain (full : bool) (ind prev_ind : Z) : res (Z * Z) :=
  let prev_ind := if full then ind else prev_ind + (ind + MIN_DELTA_GAIN_QUANT) in
  g ← gain_of prev_ind;
  Ok (g, prev_ind).

Fixpoint gains_dequant_loop (full : bool) (n : nat) (ind : list Z) (prev_ind : Z) : res (list Z * Z) :=
  match n, ind with
  | O, _ => Ok ([], prev_ind)
  | S n, i :: ind =>
      '(g, prev_ind) ← dequant_gain full i prev_ind;
      '(gain_Q16, prev_ind) ← gains_dequant_loop false n ind prev_ind;
      Ok (g :: gain_Q16, prev_ind)
  | S _, [] => Err OutOfBounds
  end.

Definition SKP_Silk_gains_dequant (ind : list Z) (prev_ind conditional : Z) : res (list Z * Z) :=
  gains_dequant_loop (conditional =? 0) NB_SUBFR ind prev_ind.

(** What [SKP_Silk_decode_core] does first with a gain. *)
Definition inv_gain_Q16 (Gain_Q16 : Z) : res Z :=
  x ← SKP_DIV32 INT32_MAX (Z.shiftr Gain_Q16 1);
  Ok (SKP_min x 32767).

(** ** The two sides agree *)

Lemma gain_of_total prev : exists g, gain_of prev = Ok g /\ 0 <= g <= INT32_MAX.
Proof. unfold gain_of. apply log2lin_total, min_le. Qed.

Lemma level_of_total g prev :
  0 <= g < 2 ^ 31 -> -86 <= prev <= 66 -> exists i, level_of g prev = Ok i /\ -86 <= i <= 66.
Proof.
  intros Hg Hp. destruct (lin2log_total g Hg) as (l & El & Hl). unfold level_of. rewrite El, bind_Ok.
  assert (-86 <= SKP_SMULWB SCALE_Q16 (l - OFFSET) <= 66) as Hi.
  { rewrite SMULWB_spec. change OFFSET with 2176. change SCALE_Q16 with 2420.
    rewrite wrap_s_id by lia. lia. }
  eexists. split; [done|]. destruct (Z.ltb_spec (SKP_SMULWB SCALE_Q16 (l - OFFSET)) prev); lia.
Qed.

(** The range of an index, at the beginning of a packet and elsewhere. *)
Definition gain_index (full : bool) (i : Z) : Prop := 0 <= i < if full then 64 else 45.

Lemma quant_gain_spec full g prev :
  0 <= g < 2 ^ 31 -> -86 <= prev <= 66 ->
  exists i g' prev', quant_gain full g prev = Ok (i, g', prev') /\
    dequant_gain full i prev = Ok (g', prev') /\ gain_index full i /\ -86 <= prev' <= 66.
Proof.
  intros Hg Hp. destruct (level_of_total g prev Hg Hp) as (i & Ei & Hi).
  unfold quant_gain, dequant_gain, gain_index. rewrite Ei, bind_Ok.
  unfold N_LEVELS_QGAIN, MIN_DELTA_GAIN_QUANT, MAX_DELTA_GAIN_QUANT.
  destruct full; rewrite ?SKP_max_spec, limit_spec by lia.
  - destruct (gain_of_total (Z.max (Z.max 0 (Z.min i (64 - 1))) (prev + -4))) as (g' & Eg & _).
    rewrite Eg, bind_Ok. eexists _, _, _. split; [done|]. rewrite Eg, bind_Ok. split; [done|]. lia.
  - destruct (gain_of_total (prev + Z.max (-4) (Z.min (i - prev) 40))) as (g' & Eg & _).
    rewrite Eg, bind_Ok. eexists _, _, _. split; [done|].
    replace (prev + (_ - -4 + -4)) with (prev + Z.max (-4) (Z.min (i - prev) 40)) by lia.
    rewrite Eg, bind_Ok. split; [done|]. lia.
Qed.

Lemma gains_quant_loop_spec full n gains prev :
  Forall (fun g => 0 <= g < 2 ^ 31) gains -> (n <= length gains)%nat -> -86 <= prev <= 66 ->
  exists ind gains' prev', gains_quant_loop full n gains prev = Ok (ind, gains', prev') /\
    gains_dequant_loop full n ind prev = Ok (gains', prev') /\ length ind = n /\
    (forall j i, ind !! j = Some i -> gain_index (full && (j =? 0)%nat) i) /\ -86 <= prev' <= 66.
Proof.
  assert (forall full prev, -86 <= prev <= 66 ->
    exists ind gains' prev', Ok ([] : list Z, [] : list Z, prev) = Ok (ind, gains', prev') /\
      Ok ([] : list Z, prev) = Ok (gains', prev') /\ length ind = O /\
      (forall j i, ind !! j = Some i -> gain_index (full && (j =? 0)%nat) i) /\ -86 <= prev' <= 66) as empty.
  { clear. intros full prev Hp. exists [], [], prev. split_and!; try done; lia. }
  intros Hg. revert full n prev. induction Hg as [|g gains Hg _ IH]; intros full n prev Hn Hp.
  - destruct n; [|cbn in Hn; lia]. by apply empty.
  - destruct n as [|n]; [by apply empty|]. cbn [gains_quant_loop gains_dequant_loop].
    destruct (quant_gain_spec full g prev Hg Hp) as (i & g' & p' & -> & Ed & Hi & Hp').
    destruct (IH false n p' ltac:(cbn in Hn; lia) Hp') as (ind & gs & p'' & Eq & Edq & Hlen & Hind & Hp'').
    rewrite bind_Ok, Eq, bind_Ok. exists (i :: ind), (g' :: gs), p''. rewrite Ed, bind_Ok, Edq, bind_Ok.
    split_and!; [done|done|cbn; lia| |lia|lia]. intros [|j] x Hx; cbn in Hx.
    + injection Hx as <-. by rewrite andb_true_r.
    + rewrite andb_false_r. by apply Hind in Hx.
Qed.

(** C34.  The gains of the two sides stay the same.  From any gains that fit an [int]
    and any index that quantising can have left, the encoder finds indices, each in
    the range its distribution codes, and the decoder that starts from the same last
    index restores from them the gains the encoder goes on with and the same last
    index, whether or not the first one is relative to the frame before. *)
Theorem gains_synchronised gains prev conditional :
  length gains = NB_SUBFR -> Forall (fun g => 0 <= g <= INT32_MAX) gains -> -86 <= prev <= 66 ->
  exists ind gains' prev', SKP_Silk_gains_quant gains prev conditional = Ok (ind, gains', prev') /\
    SKP_Silk_gains_dequant ind prev conditional = Ok (gains', prev') /\ length ind = NB_SUBFR /\
    (forall j i, ind !! j = Some i -> gain_index ((conditional =? 0) && (j =? 0)%nat) i) /\
    -86 <= prev' <= 66.
Proof.
  intros Hlen Hg Hp. apply gains_quant_loop_spec; [|lia|done].
  eapply Forall_impl; [exact Hg|]. unfold INT32_MAX. cbn. lia.
Qed.

(** A gain in the middle of the scale, silence, and the loudest. *)
Lemma gains_synchronised_witness :
  SKP_Silk_gains_quant [1000000; 0; 2147483647; 65536] 10 0 =
    Ok ([13; 0; 44; 0], [880640; 489472; 170917888; 95944704], 45) /\
  exists ind gains' prev', SKP_Silk_gains_quant [1000000; 0; 2147483647; 65536] 10 0 = Ok (ind, gains', prev') /\
    SKP_Silk_gains_dequant ind 10 0 = Ok (gains', prev') /\ length ind = NB_SUBFR /\
    (forall j i, ind !! j = Some i -> gain_index ((0 =? 0) && (j =? 0)%nat) i) /\
    -86 <= prev' <= 66.
Proof.
  split; [vm_compute; reflexivity|]. apply (gains_synchronised [1000000; 0; 2147483647; 65536] 10 0 eq_refl); [|lia].
  repeat constructor; unfold INT32_MAX; lia.
Defined.

(** ** What the decoder core does with a gain *)

Lemma inv_gain_total g : 2 <= g <= INT32_MAX -> exists x, inv_gain_Q16 g = Ok x /\ 0 <= x <= 32767.
Proof.
  unfold INT32_MAX. intros Hg. unfold inv_gain_Q16, SKP_DIV32, div_s32, INT32_MAX.
  rewrite Z.shiftr_div_pow2 by lia. change (2 ^ 1) with 2.
  assert (1 <= g / 2) by (apply Z.div_le_lower_bound; lia). rewrite (proj2 (Z.eqb_neq (g / 2) 0)) by lia.
  rewrite Z.quot_div_nonneg by lia. set (q := 2147483647 / (g / 2)).
  assert (0 <= q <= 2147483647) as Hq.
  { subst q. split; [apply Z.div_pos; lia|]. apply Z.div_le_upper_bound; nia. }
  rewrite int32_ok by (unfold INT32_MIN, INT32_MAX; lia). rewrite bind_Ok. eexists. split; [done|].
  unfold SKP_min. destruct (Z.ltb_spec q 32767); lia.
Qed.

(** The gain of an index is at least 2 exactly from -75 upwards. *)
Lemma gain_of_least prev g : -100 <= prev -> prev <= 2000 -> gain_of prev = Ok g -> 2 <= g <-> -75 <= prev.
Proof.
  intros H1 H2 E. split.
  - intros Hg. destruct (Z.le_gt_cases (-75) prev) as [|Hlt]; [done|exfalso].
    assert (forallb (fun k => match gain_of (Z.of_nat k - 100) with Ok g => g <? 2 | _ => false end)
              (seq 0 25) = true) as Hall by (vm_compute; reflexivity).
    pose proof (forallb_below (fun x => match gain_of (x - 100) with Ok g => g <? 2 | _ => false end)
                  25 (prev + 100) Hall ltac:(lia)) as Hx. cbn beta in Hx.
    replace (prev + 100 - 100) with prev in Hx by lia. rewrite E in Hx. apply Z.ltb_lt in Hx. lia.
  - intros Hp. assert (forallb (fun k => match gain_of (Z.of_nat k - 75) with Ok g => 2 <=? g | _ => false end)
              (seq 0 (Z.to_nat 2076)) = true) as Hall by (vm_compute; reflexivity).
    pose proof (forallb_below (fun x => match gain_of (x - 75) with Ok g => 2 <=? g | _ => false end)
                  (Z.to_nat 2076) (prev + 75) Hall ltac:(lia)) as Hx. cbn beta in Hx.
    replace (prev + 75 - 75) with prev in Hx by lia. rewrite E in Hx. by apply Z.leb_le in Hx.
Qed.

(** The lowest index of a packet, followed by the largest steps down, is a gain that
    the decoder core divides by in the last part of the fifth frame. *)
Lemma lowest_gain_divides_by_zero :
  gain_of (0 + 19 * MIN_DELTA_GAIN_QUANT) = Ok 1 /\ inv_gain_Q16 1 = Err DivisionByZero.
Proof. split; vm_compute; reflexivity. Qed.
