(* ===== verification/SilkSort.v ===== *)
(** * Insertion sort of the SILK codec

    [jni/silk/src/SKP_Silk_sort.c]: the searches of the codec keep the best [K] of [L]
    values, with the places they come from. *)
From Stdlib Require Import ZArith Lia Sorted.
From stdpp Require Import base list sorting.
From S2P Require Import Prelude.

Open Scope Z_scope.

(** [for( j = n - 1; j >= 0 && before value a[ j ]; j-- ) a[ j + 1 ] = a[ j ];]
    [a[ j + 1 ] = value;] *)
Fixpoint insert_from (before : Z -> Z -> bool) (value : Z) (n : nat) (a : list Z) : res (list Z) :=
  match n with
  | O => store_at a 0 value
  | S j =>
      x ← fetch a (Z.of_nat j);
      if before value x then
        a ← store_at a (Z.of_nat n) x;
        insert_from before value j a
      else store_at a (Z.of_nat n) value
  end.

Fixpoint sort_from (before : Z -> Z -> bool) (count i : nat) (a : list Z) : res (list Z) :=
  match count with
  | O => Ok a
  | S count =>
      value ← fetch a (Z.of_nat i);
      a ← insert_from before value i a;
      sort_from before count (S i) a
  end.

Definition SKP_Silk_insertion_sort_increasing_all_values (a : list Z) (L : nat) : res (list Z) :=
  sort_from Z.ltb (L - 1) 1 a.

(** The same, with the array of indices. *)
Fixpoint insert_index (before : Z -> Z -> bool) (value i : Z) (n : nat) (a index : list Z)
    : res (list Z * list Z) :=
  match n with
  | O => a ← store_at a 0 value; index ← store_at index 0 i; Ok (a, index)
  | S j =>
      x ← fetch a (Z.of_nat j);
      if before value x then
        a ← store_at a (Z.of_nat n) x;
        k ← fetch index (Z.of_nat j);
        index ← store_at index (Z.of_nat n) k;
        insert_index before value i j a index
      else
        a ← store_at a (Z.of_nat n) value;
        index ← store_at index (Z.of_nat n) i;
        Ok (a, index)
  end.

Fixpoint sort_first (before : Z -> Z -> bool) (count i : nat) (a index : list Z) : res (list Z * list Z) :=
  match count with
  | O => Ok (a, index)
  | S count =>
      value ← fetch a (Z.of_nat i);
      '(a, index) ← insert_index before value (Z.of_nat i) i a index;
      sort_first before count (S i) a index
  end.

(** The remaining values, of which only those that belong to the first [K] are stored. *)
Fixpoint sort_rest (before : Z -> Z -> bool) (count i K : nat) (a index : list Z) : res (list Z * list Z) :=
  match count with
  | O => Ok (a, index)
  | S count =>
      value ← fetch a (Z.of_nat i);
      last ← fetch a (Z.of_nat (K - 1));
      '(a, index) ←
        (if before value last then insert_index before value (Z.of_nat i) (K - 1) a index else Ok (a, index));
      sort_rest before count (S i) K a index
  end.

(** [for( i = 0; i < K; i++ ) index[ i ] = i;] *)
Fixpoint start_indices (count i : nat) (index : list Z) : res (list Z) :=
  match count with
  | O => Ok index
  | S count => index ← store_at index (Z.of_nat i) (Z.of_nat i); start_indices count (S i) index
  end.

Definition insertion_sort (before : Z -> Z -> bool) (a index : list Z) (L K : nat) : res (list Z * list Z) :=
  index ← start_indices K 0 index;
  '(a, index) ← sort_first before (K - 1) 1 a index;
  sort_rest before (L - K) K K a index.

Definition SKP_Silk_insertion_sort_increasing (a index : list Z) (L K : nat) : res (list Z * list Z) :=
  insertion_sort Z.ltb a index L K.
Definition SKP_Silk_insertion_sort_decreasing (a index : list Z) (L K : nat) : res (list Z * list Z) :=
  insertion_sort Z.gtb a index L K.
(** The values are [SKP_int16]; they are only moved. *)
Definition SKP_Silk_insertion_sort_decreasing_int16 (a index : list Z) (L K : nat) : res (list Z * list Z) :=
  insertion_sort Z.gtb a index L K.

(** ** Cells: a value and the place it comes from *)

Section order.
Context (before : Z -> Z -> bool).
Context (before_asym : forall x y, before x y = true -> before y x = false).
Context (before_neg_trans : forall x y z, before x y = false -> before y z = false -> before x z = false).

(** [x] may stand in front of [y]. *)
Definition ordered (x y : Z * Z) : Prop := before y.1 x.1 = false.

#[local] Instance ordered_trans : Transitive ordered.
Proof using before_neg_trans. intros x y z H1 H2. unfold ordered in *. eauto. Qed.

(** Where a cell is inserted. *)
Definition inserted (c : Z * Z) (l l' : list (Z * Z)) : Prop :=
  exists l1 l2, l = l1 ++ l2 /\ l' = l1 ++ c :: l2 /\
    Forall (fun x => before c.1 x.1 = true) l2 /\
    forall x, last l1 = Some x -> before c.1 x.1 = false.

Lemma inserted_perm c l l' : inserted c l l' -> l' ≡ₚ c :: l.
Proof using Type. intros (l1 & l2 & -> & -> & _). by rewrite Permutation_middle. Qed.

Lemma inserted_sorted c l l' : inserted c l l' -> StronglySorted ordered l -> StronglySorted ordered l'.
Proof using before_asym before_neg_trans.
  intros (l1 & l2 & -> & -> & H2 & H1) Hs. apply StronglySorted_app in Hs as (Hc & Hs1 & Hs2).
  apply StronglySorted_app. assert (Forall (ordered c) l2) as Hf.
  { eapply Forall_impl; [exact H2|]. intros x Hx. by apply before_asym. }
  assert (forall x, x ∈ l1 -> ordered x c) as Hl.
  { intros x Hx. destruct l1 as [|y l1 _] using rev_ind; [by apply elem_of_nil in Hx|].
    assert (ordered y c) as Hy by (apply H1; apply last_snoc).
    apply elem_of_app in Hx as [Hx|Hx%list_elem_of_singleton]; [|by subst].
    apply StronglySorted_app in Hs1 as (Hyy & _ & _). etrans; [|exact Hy]. by apply Hyy; [|apply list_elem_of_singleton]. }
  split_and!; [|done|by constructor]. intros x y Hx [->|Hy]%elem_of_cons; auto.
Qed.

Lemma insert_index_spec v i l y z r q :
  exists l', inserted (v, i) l l' /\
    insert_index before v i (length l) (l.*1 ++ y :: r) (l.*2 ++ z :: q) = Ok (l'.*1 ++ r, l'.*2 ++ q).
Proof using Type.
  revert y z r q. induction l as [|x l IH] using rev_ind; intros y z r q.
  - exists [(v, i)]. split; [|done]. by exists [], [].
  - rewrite length_app, Nat.add_1_r. cbn [insert_index]. rewrite !fmap_app. cbn [fmap list_fmap].
    rewrite <- !app_assoc. cbn [app].
    assert (forall (a b : list Z) (u w : Z), length b = length l ->
      fetch (b ++ u :: a) (Z.of_nat (length l)) = Ok u /\
      (forall t, a = t :: tail a -> store_at (b ++ u :: a) (Z.of_nat (S (length l))) w = Ok (b ++ u :: w :: tail a)))
      as Hmem.
    { intros a b u w Hb. split.
      - apply fetch_ok; [lia|]. by rewrite Nat2Z.id, <- Hb, list_lookup_middle.
      - intros t ->. rewrite (store_at_ok _ _ _) by (rewrite ?length_app; cbn; lia).
        rewrite Nat2Z.id. f_equal. rewrite insert_app_r_alt by lia.
        by replace (S (length l) - length b)%nat with 1%nat by lia. }
    destruct (Hmem (y :: r) l.*1 x.1 x.1 ltac:(by rewrite length_fmap)) as [F1 S1].
    destruct (Hmem (z :: q) l.*2 x.2 x.2 ltac:(by rewrite length_fmap)) as [F2 S2].
    rewrite F1, bind_Ok. destruct (before v x.1) eqn:E.
    + rewrite (S1 y eq_refl), bind_Ok, F2, bind_Ok, (S2 z eq_refl), bind_Ok. cbn [tail].
      destruct (IH x.1 x.2 (x.1 :: r) (x.2 :: q)) as (l' & (l1 & l2 & -> & -> & Hl2 & Hl1) & ->).
      exists (l1 ++ (v, i) :: l2 ++ [x]). split.
      * exists l1, (l2 ++ [x]). rewrite app_assoc. split_and!; try done.
        apply Forall_app. split; [done|]. by constructor.
      * rewrite !fmap_app. cbn. rewrite !fmap_app, <- !app_assoc. cbn. by rewrite <- !app_assoc.
    + destruct (Hmem (y :: r) l.*1 x.1 v ltac:(by rewrite length_fmap)) as [_ S1'].
      destruct (Hmem (z :: q) l.*2 x.2 i ltac:(by rewrite length_fmap)) as [_ S2'].
      rewrite (S1' y eq_refl), bind_Ok, (S2' z eq_refl), bind_Ok. cbn [tail].
      exists (l ++ [x] ++ [(v, i)]). split.
      * exists (l ++ [x]), []. rewrite app_nil_r, <- app_assoc. split_and!; try done.
        intros w. rewrite last_snoc. by intros [= <-].
      * rewrite !fmap_app, <- !app_assoc. done.
Qed.

(** The values from position [i] on, as cells. *)
Fixpoint places (i : nat) (a : list Z) : list (Z * Z) :=
  match a with [] => [] | x :: a => (x, Z.of_nat i) :: places (S i) a end.

Lemma fetch_middle {A} (l r : list A) x i : i = Z.of_nat (length l) -> fetch (l ++ x :: r) i = Ok x.
Proof using Type. intros ->. apply fetch_ok; [lia|]. by rewrite Nat2Z.id, list_lookup_middle. Qed.

Lemma sort_first_spec l xs ys r q :
  StronglySorted ordered l -> length ys = length xs ->
  exists l', sort_first before (length xs) (length l) (l.*1 ++ xs ++ r) (l.*2 ++ ys ++ q) = Ok (l'.*1 ++ r, l'.*2 ++ q) /\
    l' ≡ₚ l ++ places (length l) xs /\ StronglySorted ordered l'.
Proof using before_asym before_neg_trans.
  revert l ys. induction xs as [|x xs IH]; intros l [|y ys] Hs Hlen; cbn in Hlen; try lia.
  - exists l. cbn. by rewrite app_nil_r.
  - cbn [length sort_first app]. rewrite fetch_middle by (by rewrite length_fmap). rewrite bind_Ok.
    destruct (insert_index_spec x (Z.of_nat (length l)) l x y (xs ++ r) (ys ++ q)) as (l1 & H1 & ->).
    rewrite bind_Ok. pose proof (inserted_perm _ _ _ H1) as Hp.
    destruct (IH l1 ys (inserted_sorted _ _ _ H1 Hs) ltac:(lia)) as (l' & E & Hp' & Hs').
    assert (length l1 = S (length l)) as Hl1 by (by rewrite Hp).
    rewrite Hl1 in E, Hp'. exists l'. split; [exact E|]. split; [|done].
    rewrite Hp', Hp. cbn [places app]. by rewrite Permutation_middle.
Qed.

Lemma sort_rest_spec l out mid xs q :
  StronglySorted ordered l -> (0 < length l)%nat -> (forall c o, c ∈ l -> o ∈ out -> ordered c o) ->
  exists l' out', sort_rest before (length xs) (length l + length mid) (length l) (l.*1 ++ mid ++ xs) (l.*2 ++ q) =
      Ok (l'.*1 ++ mid ++ xs, l'.*2 ++ q) /\
    l' ++ out' ≡ₚ l ++ out ++ places (length l + length mid) xs /\ length l' = length l /\
    StronglySorted ordered l' /\ (forall c o, c ∈ l' -> o ∈ out' -> ordered c o).
Proof using before_asym before_neg_trans.
  revert l out mid. induction xs as [|x xs IH]; intros l out mid Hs Hl Ho.
  { exists l, out. cbn. rewrite !app_nil_r. by split_and!. }
  cbn [length sort_rest]. rewrite app_assoc, (fetch_middle (l.*1 ++ mid) xs x (Z.of_nat (length l + length mid))) by (rewrite length_app, length_fmap; lia).
  rewrite bind_Ok, <- app_assoc. destruct l as [|w l0 _] using rev_ind; [cbn in Hl; lia|].
  rewrite length_app, Nat.add_1_r, fmap_app. cbn [fmap list_fmap]. rewrite <- !app_assoc. cbn [app Nat.sub].
  rewrite Nat.sub_0_r, fetch_middle by (by rewrite length_fmap). rewrite bind_Ok.
  apply StronglySorted_app in Hs as (Hw & Hs & _).
  assert (forall c, c ∈ l0 -> ordered c w) as Hw' by (intros c Hc; apply Hw; [done|by apply list_elem_of_singleton]).
  destruct (before x w.1) eqn:E.
  - destruct (insert_index_spec x (Z.of_nat (S (length l0) + length mid)) l0 w.1 w.2 (mid ++ x :: xs) q)
      as (l1 & H1 & E1). rewrite fmap_app. cbn [fmap list_fmap]. rewrite <- app_assoc. cbn [app].
    rewrite E1, bind_Ok. pose proof (inserted_perm _ _ _ H1) as Hp.
    assert (length l1 = S (length l0)) as Hlen by (by rewrite Hp).
    destruct (IH l1 (w :: out) (mid ++ [x])) as (l' & out' & E2 & Hp' & Hl' & Hs' & Ho').
    + by eapply inserted_sorted.
    + lia.
    + assert (ordered (x, Z.of_nat (S (length l0) + length mid)) w) as Hxw by (by apply before_asym).
      assert (w ∈ l0 ++ [w]) as Hin by (apply elem_of_app; right; by apply list_elem_of_singleton).
      assert (forall o, o ∈ out -> ordered w o) as Hwo by (intros o Ho'; by apply Ho).
      intros c o Hc [->|Hoo]%elem_of_cons; rewrite Hp in Hc; apply elem_of_cons in Hc as [->|Hc].
      * done.
      * by apply Hw'.
      * etrans; [exact Hxw|by apply Hwo].
      * apply Ho; [apply elem_of_app; by left|done].
    + rewrite length_app, Hlen in E2. cbn [length] in E2. rewrite <- !app_assoc in E2. cbn [app] in E2.
      replace (S (length l0) + (length mid + 1))%nat with (S (S (length l0) + length mid)) in E2 by lia.
      exists l', out'. split; [exact E2|]. rewrite Hp', Hlen, length_app. cbn [length places].
      replace (S (length l0) + (length mid + 1))%nat with (S (S (length l0) + length mid)) by lia.
      split; [|split_and!; [lia|done|done]].
      rewrite Hp. set (c := (x, _)). set (p := places _ xs).
      solve_Permutation.
  - rewrite bind_Ok. destruct (IH (l0 ++ [w]) ((x, Z.of_nat (S (length l0) + length mid)) :: out) (mid ++ [x]))
      as (l' & out' & E2 & Hp' & Hl' & Hs' & Ho').
    + apply StronglySorted_app. split_and!; [exact Hw|done|]. by repeat constructor.
    + rewrite length_app. cbn. lia.
    + intros c o Hc [->|Hoo]%elem_of_cons; [|by apply Ho].
      apply elem_of_app in Hc as [Hc| ->%list_elem_of_singleton]; [|done].
      etrans; [by apply Hw'|done].
    + rewrite !length_app, fmap_app in E2. cbn [length fmap list_fmap] in E2. rewrite <- !app_assoc in E2.
      cbn [app] in E2. rewrite fmap_app in E2. cbn [fmap list_fmap] in E2. rewrite <- !app_assoc in E2. cbn [app] in E2.
      replace (length l0 + 1 + (length mid + 1))%nat with (S (S (length l0) + length mid)) in E2 by lia.
      replace (length l0 + 1)%nat with (S (length l0)) in E2 by lia. rewrite fmap_app. cbn [fmap list_fmap].
      rewrite <- app_assoc. cbn [app].
      exists l', out'. split; [exact E2|]. rewrite Hp'. split; [|rewrite length_app in Hl'; cbn in Hl'; split_and!; [lia|done|done]].
      rewrite !length_app. cbn [length places].
      replace (length l0 + 1 + (length mid + 1))%nat with (S (S (length l0) + length mid)) by lia.
      solve_Permutation.
Qed.
End order.

#[local] Lemma ltb_asym x y : (x <? y) = true -> (y <? x) = false.
Proof. rewrite Z.ltb_lt, Z.ltb_ge. lia. Qed.
#[local] Lemma ltb_neg_trans x y z : (x <? y) = false -> (y <? z) = false -> (x <? z) = false.
Proof. rewrite !Z.ltb_ge. lia. Qed.
#[local] Lemma gtb_asym x y : (x >? y) = true -> (y >? x) = false.
Proof. rewrite !Z.gtb_ltb. apply ltb_asym. Qed.
#[local] Lemma gtb_neg_trans x y z : (x >? y) = false -> (y >? z) = false -> (x >? z) = false.
Proof. rewrite !Z.gtb_ltb. eauto using ltb_neg_trans. Qed.

(** Without the indices it is the same sort. *)
Lemma insert_from_index before v i n a index a' index' :
  insert_index before v i n a index = Ok (a', index') -> insert_from before v n a = Ok a'.
Proof.
  revert a index. induction n as [|n IH]; intros a index; cbn [insert_index insert_from]; intros H.
  - bind_inv H. injection H as <- <-. done.
  - destruct (fetch a (Z.of_nat n)) as [x| |]; [|done..]. rewrite !bind_Ok in *.
    destruct (before v x); bind_inv H; rewrite Hok, ?bind_Ok; [by apply IH in H|by injection H as <- <-].
Qed.

Lemma sort_from_first before count i a index a' index' :
  sort_first before count i a index = Ok (a', index') -> sort_from before count i a = Ok a'.
Proof.
  revert i a index. induction count as [|count IH]; intros i a index; cbn [sort_first sort_from]; intros H.
  - by injection H as <- <-.
  - destruct (fetch a (Z.of_nat i)) as [x| |]; [|done..]. rewrite !bind_Ok in *.
    apply res_bind_ok in H as ([a1 i1] & E1 & H). rewrite (insert_from_index _ _ _ _ _ _ _ _ E1), bind_Ok.
    by apply IH in H.
Qed.

Lemma start_indices_spec count i index :
  (i + count <= length index)%nat ->
  start_indices count i index = Ok (take i index ++ (Z.of_nat <$> seq i count) ++ drop (i + count) index).
Proof.
  revert i index. induction count as [|count IH]; intros i index Hi; cbn [start_indices].
  - cbn. rewrite Nat.add_0_r. by rewrite take_drop.
  - rewrite store_at_ok by lia. rewrite bind_Ok, Nat2Z.id, IH by (rewrite length_insert; lia). f_equal.
    rewrite (take_S_r _ _ (Z.of_nat i)) by (by rewrite list_lookup_insert_eq by lia).
    rewrite take_insert_ge, drop_insert_lt by lia. rewrite <- app_assoc. cbn [seq fmap list_fmap app].
    by replace (S i + count)%nat with (i + S count)%nat by lia.
Qed.

(** The cells of an array. *)
Lemma places_values i a : (places i a).*1 = a.
Proof. revert i. induction a as [|x a IH]; intros i; [done|]. cbn. by rewrite IH. Qed.

Lemma sort_all_spec a :
  a <> [] -> exists a', SKP_Silk_insertion_sort_increasing_all_values a (length a) = Ok a' /\
    a' ≡ₚ a /\ StronglySorted Z.le a'.
Proof.
  intros Ha. destruct a as [|x a]; [done|]. unfold SKP_Silk_insertion_sort_increasing_all_values.
  cbn [length]. rewrite Nat.sub_1_r. cbn [pred].
  destruct (sort_first_spec Z.ltb ltb_asym ltb_neg_trans [(x, 0)] a a [] []) as (l & E & Hp & Hs);
    [by repeat constructor|done|]. rewrite !app_nil_r in E. apply sort_from_first in E.
  exists l.*1. split; [exact E|]. split.
  - rewrite Hp. cbn. by rewrite places_values.
  - clear -Hs. induction Hs as [|c l _ IH Hc]; [constructor|]. constructor; [done|].
    apply Forall_fmap. eapply Forall_impl; [exact Hc|]. intros d Hd. unfold ordered in Hd. cbn.
    by apply Z.ltb_ge in Hd.
Qed.

Section best.
Context (before : Z -> Z -> bool).
Context (before_asym : forall x y, before x y = true -> before y x = false).
Context (before_neg_trans : forall x y z, before x y = false -> before y z = false -> before x z = false).

Lemma insertion_sort_spec a index K :
  (0 < K)%nat -> (K <= length a)%nat -> (K <= length index)%nat ->
  exists kept rest, insertion_sort before a index (length a) K = Ok (kept.*1 ++ drop K a, kept.*2 ++ drop K index) /\
    kept ++ rest ≡ₚ places 0 a /\ length kept = K /\ StronglySorted (ordered before) kept /\
    (forall c d, c ∈ kept -> d ∈ rest -> ordered before c d).
Proof using before_asym before_neg_trans.
  intros H0 HK Hi. destruct K as [|K]; [lia|]. destruct a as [|x a]; [cbn in HK; lia|]. cbn [length] in HK.
  unfold insertion_sort. rewrite start_indices_spec by lia. rewrite bind_Ok. cbn [take app Nat.add seq fmap list_fmap].
  rewrite !Nat.sub_succ, Nat.sub_0_r. cbn [length]. rewrite Nat.sub_succ.
  destruct (sort_first_spec before before_asym before_neg_trans [(x, 0)] (take K a) (Z.of_nat <$> seq 1 K)
    (drop K a) (drop (S K) index)) as (l & E & Hp & Hs).
  { by repeat constructor. }
  { rewrite length_fmap, length_seq, length_take. lia. }
  cbn [fmap list_fmap app length fst snd] in E. rewrite take_drop, length_take_le in E by lia.
  change (take 0 index ++ Z.of_nat 0 :: _) with (0 :: (Z.of_nat <$> seq 1 K) ++ drop (S K) index).
  rewrite E, bind_Ok.
  assert (length l = S K) as Hl.
  { rewrite Hp. cbn [length app]. f_equal. rewrite <- (length_fmap fst), places_values, length_take. lia. }
  destruct (sort_rest_spec before before_asym before_neg_trans l [] [] (drop K a) (drop (S K) index))
    as (l' & out & E' & Hp' & Hl' & Hs' & Ho).
  { done. } { lia. } { intros c d _ Hd. by apply elem_of_nil in Hd. }
  rewrite Hl in E', Hl', Hp'. cbn [length app] in E', Hp'. rewrite Nat.add_0_r in E', Hp'.
  rewrite length_drop in E'. rewrite E'. exists l', out. split; [done|]. split; [|done].
  rewrite Hp', Hp. cbn [app places length]. constructor.
  assert (forall b i, (i <= length b)%nat -> forall k, places k b = places k (take i b) ++ places (k + i) (drop i b)) as Happ.
  { clear. induction b as [|y b IH]; intros [|i] Hi k; cbn [take drop places app length] in *; try lia;
      rewrite ?Nat.add_0_r; try done. f_equal. rewrite (IH i) by lia.
    by replace (S k + i)%nat with (k + S i)%nat by lia. }
  by rewrite (Happ a K ltac:(lia) 1%nat).
Qed.
End best.

Lemma StronglySorted_weaken {A} (R S : relation A) l :
  (forall x y, R x y -> S x y) -> StronglySorted R l -> StronglySorted S l.
Proof. intros H. induction 1 as [|x l _ IH Hx]; constructor; [done|]. eapply Forall_impl; eauto. Qed.

(** The searches keep the best.  Of [L] values the sort leaves in its first [K]
    places, in order, the [K] smallest (or largest), each with the place it comes
    from in [index], and it leaves both arrays as they are behind these places: the
    cells that are kept and those that are not are together the given ones, and none
    of the latter is better. *)
Theorem insertion_sort_keeps_best a index K :
  (0 < K)%nat -> (K <= length a)%nat -> (K <= length index)%nat ->
  (exists kept rest, SKP_Silk_insertion_sort_increasing a index (length a) K =
       Ok (kept.*1 ++ drop K a, kept.*2 ++ drop K index) /\
     kept ++ rest ≡ₚ places 0 a /\ length kept = K /\ StronglySorted (fun c d => c.1 <= d.1) kept /\
     forall c d, c ∈ kept -> d ∈ rest -> c.1 <= d.1) /\
  (exists kept rest, SKP_Silk_insertion_sort_decreasing a index (length a) K =
       Ok (kept.*1 ++ drop K a, kept.*2 ++ drop K index) /\
     kept ++ rest ≡ₚ places 0 a /\ length kept = K /\ StronglySorted (fun c d => d.1 <= c.1) kept /\
     forall c d, c ∈ kept -> d ∈ rest -> d.1 <= c.1).
Proof.
  intros H0 HK Hi. split.
  - destruct (insertion_sort_spec Z.ltb ltb_asym ltb_neg_trans a index K H0 HK Hi)
      as (kept & rest & E & Hp & Hl & Hs & Ho). exists kept, rest. split_and!; [exact E|done|done| |].
    + eapply StronglySorted_weaken; [|exact Hs]. intros c d. apply Z.ltb_ge.
    + intros c d Hc Hd. by apply Z.ltb_ge, Ho.
  - destruct (insertion_sort_spec Z.gtb gtb_asym gtb_neg_trans a index K H0 HK Hi)
      as (kept & rest & E & Hp & Hl & Hs & Ho). exists kept, rest.
    assert (forall c d : Z * Z, ordered Z.gtb c d -> d.1 <= c.1) as Hle
      by (intros c d Hcd; unfold ordered in Hcd; rewrite Z.gtb_ltb in Hcd; by apply Z.ltb_ge).
    split_and!; [exact E|done|done|by eapply StronglySorted_weaken|]. intros c d Hc Hd. by apply Hle, Ho.
Qed.

Lemma insertion_sort_keeps_best_witness :
  (SKP_Silk_insertion_sort_increasing [5; 1; 4; 1; 3] [9; 9; 9; 9] 5 3 = Ok ([1; 1; 3; 1; 3], [1; 3; 4; 9]) /\
   SKP_Silk_insertion_sort_decreasing [5; 1; 4; 1; 3] [9; 9; 9; 9] 5 3 = Ok ([5; 4; 3; 1; 3], [0; 2; 4; 9])) /\
  (exists kept rest, SKP_Silk_insertion_sort_increasing [5; 1; 4; 1; 3] [9; 9; 9; 9] 5 3 =
       Ok (kept.*1 ++ [1; 3], kept.*2 ++ [9]) /\
     kept ++ rest ≡ₚ places 0 [5; 1; 4; 1; 3] /\ length kept = 3%nat /\ StronglySorted (fun c d => c.1 <= d.1) kept /\
     forall c d, c ∈ kept -> d ∈ rest -> c.1 <= d.1).
Proof.
  split; [split; reflexivity|]. apply (insertion_sort_keeps_best [5; 1; 4; 1; 3] [9; 9; 9; 9] 3); cbn; lia.
Defined.
