(* ===== verification/SilkNlsfTables.v ===== *)
(** * The codebooks of the SILK codec

    [jni/silk/src/SKP_Silk_tables_NLSF_CB*.c]: the vectors whose sums are the line
    spectral frequencies of a frame, and the distributions of their indices.  Copied
    from the sources number by number, but for the rates that only the search of the
    encoder reads. *)
From Stdlib Require Import ZArith List.
Import ListNotations.

Open Scope Z_scope.

(** One stage: the number of its vectors, and where the first starts. *)
Record SKP_Silk_NLSF_CBS := Stage { nVectors : Z; CB_NLSF_Q15 : Z }.

(** [StartPtr] are positions in [CDF]; [CB] is what the stages point into. *)
Record SKP_Silk_NLSF_CB_struct := Codebook {
  nStages : Z;
  CBStages : list SKP_Silk_NLSF_CBS;
  CB : list Z;
  NDeltaMin_Q15 : list Z;
  CDF : list Z;
  StartPtr : list Z;
  MiddleIx : list Z
}.

Definition SKP_Silk_NLSF_MSVQ_CB0_10_CDF : list Z :=
  [0; 2658; 4420; 6107; 7757; 9408; 10955; 12502; 13983; 15432; 16882; 18331; 19750;
   21108; 22409; 23709; 25010; 26256; 27501; 28747; 29965; 31158; 32351; 33544; 34736;
   35904; 36997; 38091; 39185; 40232; 41280; 42327; 43308; 44290; 45271; 46232; 47192;
   48132; 49032; 49913; 50775; 51618; 52462; 53287; 54095; 54885; 55675; 56449; 57222;
   57979; 58688; 59382; 60076; 60726; 61363; 61946; 62505; 63052; 63543; 63983; 64396;
   64766; 65023; 65279; 65535; 0; 4977; 9542; 14106; 18671; 23041; 27319; 31596;
   35873; 39969; 43891; 47813; 51652; 55490; 59009; 62307; 65535; 0; 8571; 17142;
   25529; 33917; 42124; 49984; 57844; 65535; 0; 8732; 17463; 25825; 34007; 42189;
   50196; 58032; 65535; 0; 8948; 17704; 25733; 33762; 41791; 49821; 57678; 65535; 0;
   4374; 8655; 12936; 17125; 21313; 25413; 29512; 33611; 37710; 41809; 45820; 49832;
   53843; 57768; 61694; 65535].
Definition SKP_Silk_NLSF_MSVQ_CB0_10_CDF_middle_idx : list Z :=
  [23; 8; 5; 5; 5; 9].
Definition SKP_Silk_NLSF_MSVQ_CB0_10_ndelta_min_Q15 : list Z :=
  [563; 3; 22; 20; 3; 3; 132; 119; 358; 86; 964].
Definition SKP_Silk_NLSF_MSVQ_CB0_10_Q15 : list Z :=
  [2210; 4023; 6981; 9260; 12573; 15687; 19207; 22383; 25981; 29142; 3285; 4172; 6116;
   10856; 15289; 16826; 19701; 22010; 24721; 29313; 1554; 2511; 6577; 10337; 13837;
   16511; 20086; 23214; 26480; 29464; 3062; 4017; 5771; 10037; 13365; 14952; 20140;
   22891; 25229; 29603; 2085; 3457; 5934; 8718; 11501; 13670; 17997; 21817; 24935;
   28745; 2776; 4093; 6421; 10413; 15111; 16806; 20825; 23826; 26308; 29411; 2717;
   4034; 5697; 8463; 14301; 16354; 19007; 23413; 25812; 28506; 2872; 3702; 5881;
   11034; 17141; 18879; 21146; 23451; 25817; 29600; 2999; 4015; 7357; 11219; 12866;
   17307; 20081; 22644; 26774; 29107; 2942; 3866; 5918; 11915; 13909; 16072; 20453;
   22279; 27310; 29826; 2271; 3527; 6606; 9729; 12943; 17382; 20224; 22345; 24602;
   28290; 2207; 3310; 5844; 9339; 11141; 15651; 18576; 21177; 25551; 28228; 3963;
   4975; 6901; 11588; 13466; 15577; 19231; 21368; 25510; 27759; 2749; 3549; 6966;
   13808; 15653; 17645; 20090; 22599; 26467; 28537; 2126; 3504; 5109; 9954; 12550;
   14620; 19703; 21687; 26457; 29106; 3966; 5745; 7442; 9757; 14468; 16404; 19135;
   23048; 25375; 28391; 3197; 4751; 6451; 9298; 13038; 14874; 17962; 20627; 23835;
   28464; 3195; 4081; 6499; 12252; 14289; 16040; 18357; 20730; 26980; 29309; 1533;
   2471; 4486; 7796; 12332; 15758; 19567; 22298; 25673; 29051; 2002; 2971; 4985; 8083;
   13181; 15435; 18237; 21517; 24595; 28351; 3808; 4925; 6710; 10201; 12011; 14300;
   18457; 20391; 26525; 28956; 2281; 3418; 4979; 8726; 15964; 18104; 20250; 22771;
   25286; 28954; 3051; 5479; 7290; 9848; 12744; 14503; 18665; 23684; 26065; 28947;
   2364; 3565; 5502; 9621; 14922; 16621; 19005; 20996; 26310; 29302; 4093; 5212; 6833;
   9880; 16303; 18286; 20571; 23614; 26067; 29128; 2941; 3996; 6038; 10638; 12668;
   14451; 16798; 19392; 26051; 28517; 3863; 5212; 7019; 9468; 11039; 13214; 19942;
   22344; 25126; 29539; 4615; 6172; 7853; 10252; 12611; 14445; 19719; 22441; 24922;
   29341; 3566; 4512; 6985; 8684; 10544; 16097; 18058; 22475; 26066; 28167; 4481;
   5489; 7432; 11414; 13191; 15225; 20161; 22258; 26484; 29716; 3320; 4320; 6621;
   9867; 11581; 14034; 21168; 23210; 26588; 29903; 3794; 4689; 6916; 8655; 10143;
   16144; 19568; 21588; 27557; 29593; 2446; 3276; 5918; 12643; 16601; 18013; 21126;
   23175; 27300; 29634; 2450; 3522; 5437; 8560; 15285; 19911; 21826; 24097; 26567;
   29078; 2580; 3796; 5580; 8338; 9969; 12675; 18907; 22753; 25450; 29292; 3325; 4312;
   6241; 7709; 9164; 14452; 21665; 23797; 27096; 29857; 3338; 4163; 7738; 11114;
   12668; 14753; 16931; 22736; 25671; 28093; 3840; 4755; 7755; 13471; 15338; 17180;
   20077; 22353; 27181; 29743; 2504; 4079; 8351; 12118; 15046; 18595; 21684; 24704;
   27519; 29937; 5234; 6342; 8267; 11821; 15155; 16760; 20667; 23488; 25949; 29307;
   2681; 3562; 6028; 10827; 18458; 20458; 22303; 24701; 26912; 29956; 3374; 4528;
   6230; 8256; 9513; 12730; 18666; 20720; 26007; 28425; 2731; 3629; 8320; 12450;
   14112; 16431; 18548; 22098; 25329; 27718; 3481; 4401; 7321; 9319; 11062; 13093;
   15121; 22315; 26331; 28740; 3577; 4945; 6669; 8792; 10299; 12645; 19505; 24766;
   26996; 29634; 4058; 5060; 7288; 10190; 11724; 13936; 15849; 18539; 26701; 29845;
   4262; 5390; 7057; 8982; 10187; 15264; 20480; 22340; 25958; 28072; 3404; 4329; 6629;
   7946; 10121; 17165; 19640; 22244; 25062; 27472; 3157; 4168; 6195; 9319; 10771;
   13325; 15416; 19816; 24672; 27634; 2503; 3473; 5130; 6767; 8571; 14902; 19033;
   21926; 26065; 28728; 4133; 5102; 7553; 10054; 11757; 14924; 17435; 20186; 23987;
   26272; 4972; 6139; 7894; 9633; 11320; 14295; 21737; 24306; 26919; 29907; 2958;
   3816; 6851; 9204; 10895; 18052; 20791; 23338; 27556; 29609; 5234; 6028; 8034;
   10154; 11242; 14789; 18948; 20966; 26585; 29127; 5241; 6838; 10526; 12819; 14681;
   17328; 19928; 22336; 26193; 28697; 3412; 4251; 5988; 7094; 9907; 18243; 21669;
   23777; 26969; 29087; 2470; 3217; 7797; 15296; 17365; 19135; 21979; 24256; 27322;
   29442; 4939; 5804; 8145; 11809; 13873; 15598; 17234; 19423; 26476; 29645; 5051;
   6167; 8223; 9655; 12159; 17995; 20464; 22832; 26616; 28462; 4987; 5907; 9319;
   11245; 13132; 15024; 17485; 22687; 26011; 28273; 5137; 6884; 11025; 14950; 17191;
   19425; 21807; 24393; 26938; 29288; 7057; 7884; 9528; 10483; 10960; 14811; 19070;
   21675; 25645; 28019; 6759; 7160; 8546; 11779; 12295; 13023; 16627; 21099; 24697;
   28287; 3863; 9762; 11068; 11445; 12049; 13960; 18085; 21507; 25224; 28997; 397;
   335; 651; 1168; 640; 765; 465; 331; 214; -194; -578; -647; -657; 750; 564; 613;
   549; 630; 304; -52; 828; 922; 443; 111; 138; 124; 169; 14; 144; 83; 132; 58; -413;
   -752; 869; 336; 385; 69; 56; 830; -227; -266; -368; -440; -1195; 163; 126; -228;
   802; 156; 188; 120; 376; 59; -358; -558; -1326; -254; -202; -789; 296; 92; -70;
   -129; -718; -1135; 292; -29; -631; 487; -157; -153; -279; 2; -419; -342; -34; -514;
   -799; -1571; -687; -609; -546; -130; -215; -252; -446; -574; -1337; 207; -72; 32;
   103; -642; 942; 733; 187; 29; -211; -814; 143; 225; 20; 24; -268; -377; 1623; 1133;
   667; 164; 307; 366; 187; 34; 62; -313; -832; -1482; -1181; 483; -42; -39; -450;
   -1406; -587; -52; -760; 334; 98; -60; -500; -488; -1058; 299; 131; -250; -251;
   -703; 1037; 568; -413; -265; 1687; 573; 345; 323; 98; 61; -102; 31; 135; 149; 617;
   365; -39; 34; -611; 1201; 1421; 736; -414; -393; -492; -343; -316; -532; 528; 172;
   90; 322; -294; -319; -541; 503; 639; 401; 1; -149; -73; -167; 150; 118; 308; 218;
   121; 195; -143; -261; -1013; -802; 387; 436; 130; -427; -448; -681; 123; -87; -251;
   -113; 274; 310; 445; 501; 354; 272; 141; -285; 569; 656; 37; -49; 251; -386; -263;
   1122; 604; 606; 336; 95; 34; 0; 85; 180; 207; -367; -622; 1070; -6; -79; -160; -92;
   -137; -276; -323; -371; -696; -1036; 407; 102; -86; -214; -482; -647; -28; -291;
   -97; -180; -250; -435; -18; -76; -332; 410; 407; 168; 539; 411; 254; 111; 58; -145;
   200; 30; 187; 116; 131; -367; -475; 781; -559; 561; 195; -115; 8; -168; 30; 55;
   -122; 131; 82; -5; -273; -50; -632; 668; 4; 32; -26; -279; 315; 165; 197; 377; 155;
   -41; -138; -324; -109; -617; 360; 98; -53; -319; -114; -245; -82; 507; 468; 263;
   -137; -389; 652; 354; -18; -227; -462; -135; 317; 53; -16; 66; -72; -126; -356;
   -347; -328; -72; -337; 324; 152; 349; 169; -196; 179; 254; 260; 325; -74; -80; 75;
   -31; 270; 275; 87; 278; -446; -301; 309; 71; -25; -242; 516; 161; -162; -83; 329;
   230; -311; -259; 177; -26; -462; 89; 257; 6; -130; -93; -456; -317; -221; -206;
   -417; -182; -74; 234; 48; 261; 359; 231; 258; 85; -282; 252; -147; -222; 251; -207;
   443; 123; -417; -36; 273; -241; 240; -112; 44; -167; 126; -124; -77; 58; -401; 333;
   -118; 82; 126; 151; -433; 359; -130; -102; 131; -244; 86; 85; -462; 414; -240; 16;
   145; 28; -205; -481; 373; 293; -72; -174; 62; 259; -8; -18; 362; 233; 185; 43; 278;
   27; 193; 570; -248; 189; 92; 31; -275; -3; 243; 176; 438; 209; 206; -51; 79; 109;
   168; -185; -308; -68; -618; 385; -310; -108; -164; 165; 61; -152; -101; -412; -268;
   -257; -40; -20; -28; -158; -301; 271; 380; -338; -367; -132; 64; 114; -131; -225;
   -156; -260; -63; -116; 155; -586; -202; 254; -287; 178; 227; -106; -294; 164; 298;
   -100; 185; 317; 193; -45; 28; 80; -87; -433; 22; -48; 48; -237; -229; -139; 120;
   -364; 268; -136; 396; 125; 130; -89; -272; 118; -256; -68; -451; 488; 143; -165;
   -48; -190; 106; 219; 47; 435; 245; 97; 75; -418; 121; -187; 570; -200; -351; 225;
   -21; -217; 234; -111; 194; 14; 242; 118; 140; -397; 355; 361; -45; -195].
Definition SKP_Silk_NLSF_MSVQ_CB0_10_CDF_start_ptr : list Z :=
  [0; 65; 82; 91; 100; 109].
Definition SKP_Silk_NLSF_CB0_10_Stage_info : list SKP_Silk_NLSF_CBS :=
  [Stage 64 (10 * 0); Stage 16 (10 * 64); Stage 8 (10 * 80); Stage 8 (10 * 88); Stage 8 (10 * 96); Stage 16 (10 * 104)].
Definition SKP_Silk_NLSF_CB0_10 : SKP_Silk_NLSF_CB_struct :=
  Codebook 6 SKP_Silk_NLSF_CB0_10_Stage_info SKP_Silk_NLSF_MSVQ_CB0_10_Q15 SKP_Silk_NLSF_MSVQ_CB0_10_ndelta_min_Q15
    SKP_Silk_NLSF_MSVQ_CB0_10_CDF SKP_Silk_NLSF_MSVQ_CB0_10_CDF_start_ptr SKP_Silk_NLSF_MSVQ_CB0_10_CDF_middle_idx.

Definition SKP_Silk_NLSF_MSVQ_CB0_16_CDF : list Z :=
  [0; 1449; 2749; 4022; 5267; 6434; 7600; 8647; 9695; 10742; 11681; 12601; 13444;
   14251; 15008; 15764; 16521; 17261; 18002; 18710; 19419; 20128; 20837; 21531; 22225;
   22919; 23598; 24277; 24956; 25620; 26256; 26865; 27475; 28071; 28667; 29263; 29859;
   30443; 31026; 31597; 32168; 32727; 33273; 33808; 34332; 34855; 35379; 35902; 36415;
   36927; 37439; 37941; 38442; 38932; 39423; 39914; 40404; 40884; 41364; 41844; 42324;
   42805; 43285; 43754; 44224; 44694; 45164; 45623; 46083; 46543; 46993; 47443; 47892;
   48333; 48773; 49213; 49653; 50084; 50515; 50946; 51377; 51798; 52211; 52614; 53018;
   53422; 53817; 54212; 54607; 55002; 55388; 55775; 56162; 56548; 56910; 57273; 57635;
   57997; 58352; 58698; 59038; 59370; 59702; 60014; 60325; 60630; 60934; 61239; 61537;
   61822; 62084; 62346; 62602; 62837; 63072; 63302; 63517; 63732; 63939; 64145; 64342;
   64528; 64701; 64867; 65023; 65151; 65279; 65407; 65535; 0; 5099; 9982; 14760;
   19538; 24213; 28595; 32976; 36994; 41012; 44944; 48791; 52557; 56009; 59388; 62694;
   65535; 0; 9955; 19697; 28825; 36842; 44686; 52198; 58939; 65535; 0; 8949; 17335;
   25720; 33926; 41957; 49987; 57845; 65535; 0; 9724; 18642; 26998; 35355; 43532;
   51534; 59365; 65535; 0; 8750; 17499; 26249; 34448; 42471; 50494; 58178; 65535; 0;
   8730; 17273; 25816; 34176; 42536; 50203; 57869; 65535; 0; 8769; 17538; 26307;
   34525; 42742; 50784; 58319; 65535; 0; 8736; 17101; 25466; 33653; 41839; 50025;
   57864; 65535; 0; 4368; 8735; 12918; 17100; 21283; 25465; 29558; 33651; 37744;
   41836; 45929; 50022; 54027; 57947; 61782; 65535].
Definition SKP_Silk_NLSF_MSVQ_CB0_16_CDF_middle_idx : list Z :=
  [42; 8; 4; 5; 5; 5; 5; 5; 5; 9].
Definition SKP_Silk_NLSF_MSVQ_CB0_16_ndelta_min_Q15 : list Z :=
  [266; 3; 40; 3; 3; 16; 78; 89; 107; 141; 188; 146; 272; 240; 235; 215; 632].
Definition SKP_Silk_NLSF_MSVQ_CB0_16_Q15 : list Z :=
  [1170; 2278; 3658; 5374; 7666; 9113; 11298; 13304; 15371; 17549; 19587; 21487;
   23798; 26038; 28318; 30201; 1628; 2334; 4115; 6036; 7818; 9544; 11777; 14021;
   15787; 17408; 19466; 21261; 22886; 24565; 26714; 28059; 1724; 2670; 4056; 6532;
   8357; 10119; 12093; 14061; 16491; 18795; 20417; 22402; 24251; 26224; 28410; 29956;
   1493; 3427; 4789; 6399; 8435; 10168; 12000; 14066; 16229; 18210; 20040; 22098;
   24153; 26095; 28183; 30121; 1119; 2089; 4295; 6245; 8691; 10741; 12688; 15057;
   17028; 18792; 20717; 22514; 24497; 26548; 28619; 30630; 1363; 2417; 3927; 5556;
   7422; 9315; 11879; 13767; 16143; 18520; 20458; 22578; 24539; 26436; 28318; 30318;
   1122; 2503; 5216; 7148; 9310; 11078; 13175; 14800; 16864; 18700; 20436; 22488;
   24572; 26602; 28555; 30426; 600; 1317; 2970; 5609; 7694; 9784; 12169; 14087; 16379;
   18378; 20551; 22686; 24739; 26697; 28646; 30355; 941; 1882; 4274; 5540; 8482; 9858;
   11940; 14287; 16091; 18501; 20326; 22612; 24711; 26638; 28814; 30430; 635; 1699;
   4376; 5948; 8097; 10115; 12274; 14178; 16111; 17813; 19695; 21773; 23927; 25866;
   28022; 30134; 1408; 2222; 3524; 5615; 7345; 8849; 10989; 12772; 15352; 17026;
   18919; 21062; 23329; 25215; 27209; 29023; 701; 1307; 3548; 6301; 7744; 9574; 11227;
   12978; 15170; 17565; 19775; 22097; 24230; 26335; 28377; 30231; 1752; 2364; 4879;
   6569; 7813; 9796; 11199; 14290; 15795; 18000; 20396; 22417; 24308; 26124; 28360;
   30633; 901; 1629; 3356; 4635; 7256; 8767; 9971; 11558; 15215; 17544; 19523; 21852;
   23900; 25978; 28133; 30184; 981; 1669; 3323; 4693; 6213; 8692; 10614; 12956; 15211;
   17711; 19856; 22122; 24344; 26592; 28723; 30481; 1607; 2577; 4220; 5512; 8532;
   10388; 11627; 13671; 15752; 17199; 19840; 21859; 23494; 25786; 28091; 30131; 811;
   1471; 3144; 5041; 7430; 9389; 11174; 13255; 15157; 16741; 19583; 22167; 24115;
   26142; 28383; 30395; 1543; 2144; 3629; 6347; 7333; 9339; 10710; 13596; 15099;
   17340; 20102; 21886; 23732; 25637; 27818; 29917; 492; 1185; 2940; 5488; 7095; 8751;
   11596; 13579; 16045; 18015; 20178; 22127; 24265; 26406; 28484; 30357; 1547; 2282;
   3693; 6341; 7758; 9607; 11848; 13236; 16564; 18069; 19759; 21404; 24110; 26606;
   28786; 30655; 685; 1338; 3409; 5262; 6950; 9222; 11414; 14523; 16337; 17893; 19436;
   21298; 23293; 25181; 27973; 30520; 887; 1581; 3057; 4318; 7192; 8617; 10047; 13106;
   16265; 17893; 20233; 22350; 24379; 26384; 28314; 30189; 2285; 3745; 5662; 7576;
   9323; 11320; 13239; 15191; 17175; 19225; 21108; 22972; 24821; 26655; 28561; 30460;
   1496; 2108; 3448; 6898; 8328; 9656; 11252; 12823; 14979; 16482; 18180; 20085;
   22962; 25160; 27705; 29629; 575; 1261; 3861; 6627; 8294; 10809; 12705; 14768;
   17076; 19047; 20978; 23055; 24972; 26703; 28720; 30345; 1682; 2213; 3882; 6238;
   7208; 9646; 10877; 13431; 14805; 16213; 17941; 20873; 23550; 25765; 27756; 29461;
   888; 1616; 3924; 5195; 7206; 8647; 9842; 11473; 16067; 18221; 20343; 22774; 24503;
   26412; 28054; 29731; 805; 1454; 2683; 4472; 7936; 9360; 11398; 14345; 16205; 17832;
   19453; 21646; 23899; 25928; 28387; 30463; 1640; 2383; 3484; 5082; 6032; 8606;
   11640; 12966; 15842; 17368; 19346; 21182; 23638; 25889; 28368; 30299; 1632; 2204;
   4510; 7580; 8718; 10512; 11962; 14096; 15640; 17194; 19143; 22247; 24563; 26561;
   28604; 30509; 2043; 2612; 3985; 6851; 8038; 9514; 10979; 12789; 15426; 16728;
   18899; 20277; 22902; 26209; 28711; 30618; 2224; 2798; 4465; 5320; 7108; 9436;
   10986; 13222; 14599; 18317; 20141; 21843; 23601; 25700; 28184; 30582; 835; 1541;
   4083; 5769; 7386; 9399; 10971; 12456; 15021; 18642; 20843; 23100; 25292; 26966;
   28952; 30422; 1795; 2343; 4809; 5896; 7178; 8545; 10223; 13370; 14606; 16469;
   18273; 20736; 23645; 26257; 28224; 30390; 1734; 2254; 4031; 5188; 6506; 7872; 9651;
   13025; 14419; 17305; 19495; 22190; 24403; 26302; 28195; 30177; 1841; 2349; 3968;
   4764; 6376; 9825; 11048; 13345; 14682; 16252; 18183; 21363; 23918; 26156; 28031;
   29935; 1432; 2047; 5631; 6927; 8198; 9675; 11358; 13506; 14802; 16419; 18339;
   22019; 24124; 26177; 28130; 30586; 1730; 2320; 3744; 4808; 6007; 9666; 10997;
   13622; 15234; 17495; 20088; 22002; 23603; 25400; 27379; 29254; 1267; 1915; 5483;
   6812; 8229; 9919; 11589; 13337; 14747; 17965; 20552; 22167; 24519; 26819; 28883;
   30642; 1526; 2229; 4240; 7388; 8953; 10450; 11899; 13718; 16861; 18323; 20379;
   22672; 24797; 26906; 28906; 30622; 2175; 2791; 4104; 6875; 8612; 9798; 12152;
   13536; 15623; 17682; 19213; 21060; 24382; 26760; 28633; 30248; 454; 1231; 4339;
   5738; 7550; 9006; 10320; 13525; 16005; 17849; 20071; 21992; 23949; 26043; 28245;
   30175; 2250; 2791; 4230; 5283; 6762; 10607; 11879; 13821; 15797; 17264; 20029;
   22266; 24588; 26437; 28244; 30419; 1696; 2216; 4308; 8385; 9766; 11030; 12556;
   14099; 16322; 17640; 19166; 20590; 23967; 26858; 28798; 30562; 2452; 3236; 4369;
   6118; 7156; 9003; 11509; 12796; 15749; 17291; 19491; 22241; 24530; 26474; 28273;
   30073; 1811; 2541; 3555; 5480; 9123; 10527; 11894; 13659; 15262; 16899; 19366;
   21069; 22694; 24314; 27256; 29983; 1553; 2246; 4559; 5500; 6754; 7874; 11739;
   13571; 15188; 17879; 20281; 22510; 24614; 26649; 28786; 30755; 1982; 2768; 3834;
   5964; 8732; 9908; 11797; 14813; 16311; 17946; 21097; 22851; 24456; 26304; 28166;
   29755; 1824; 2529; 3817; 5449; 6854; 8714; 10381; 12286; 14194; 15774; 19524;
   21374; 23695; 26069; 28096; 30212; 2212; 2854; 3947; 5898; 9930; 11556; 12854;
   14788; 16328; 17700; 20321; 22098; 23672; 25291; 26976; 28586; 2023; 2599; 4024;
   4916; 6613; 11149; 12457; 14626; 16320; 17822; 19673; 21172; 23115; 26051; 28825;
   30758; 1628; 2206; 3467; 4364; 8679; 10173; 11864; 13679; 14998; 16938; 19207;
   21364; 23850; 26115; 28124; 30273; 2014; 2603; 4114; 7254; 8516; 10043; 11822;
   13503; 16329; 17826; 19697; 21280; 23151; 24661; 26807; 30161; 2376; 2980; 4422;
   5770; 7016; 9723; 11125; 13516; 15485; 16985; 19160; 20587; 24401; 27180; 29046;
   30647; 2454; 3502; 4624; 6019; 7632; 8849; 10792; 13964; 15523; 17085; 19611;
   21238; 22856; 25108; 28106; 29890; 1573; 2274; 3308; 5999; 8977; 10104; 12457;
   14258; 15749; 18180; 19974; 21253; 23045; 25058; 27741; 30315; 1943; 2730; 4140;
   6160; 7491; 8986; 11309; 12775; 14820; 16558; 17909; 19757; 21512; 23605; 27274;
   29527; 2021; 2582; 4494; 5835; 6993; 8245; 9827; 14733; 16462; 17894; 19647; 21083;
   23764; 26667; 29072; 30990; 1052; 1775; 3218; 4378; 7666; 9403; 11248; 13327;
   14972; 17962; 20758; 22354; 25071; 27209; 29001; 30609; 2218; 2866; 4223; 5352;
   6581; 9980; 11587; 13121; 15193; 16583; 18386; 20080; 22013; 25317; 28127; 29880;
   2146; 2840; 4397; 5840; 7449; 8721; 10512; 11936; 13595; 17253; 19310; 20891;
   23417; 25627; 27749; 30231; 1972; 2619; 3756; 6367; 7641; 8814; 12286; 13768;
   15309; 18036; 19557; 20904; 22582; 24876; 27800; 30440; 2005; 2577; 4272; 7373;
   8558; 10223; 11770; 13402; 16502; 18000; 19645; 21104; 22990; 26806; 29505; 30942;
   1153; 1822; 3724; 5443; 6990; 8702; 10289; 11899; 13856; 15315; 17601; 21064;
   23692; 26083; 28586; 30639; 1304; 1869; 3318; 7195; 9613; 10733; 12393; 13728;
   15822; 17474; 18882; 20692; 23114; 25540; 27684; 29244; 2093; 2691; 4018; 6658;
   7947; 9147; 10497; 11881; 15888; 17821; 19333; 21233; 23371; 25234; 27553; 29998;
   575; 1331; 5304; 6910; 8425; 10086; 11577; 13498; 16444; 18527; 20565; 22847;
   24914; 26692; 28759; 30157; 1435; 2024; 3283; 4156; 7611; 10592; 12049; 13927;
   15459; 18413; 20495; 22270; 24222; 26093; 28065; 30099; 1632; 2168; 5540; 7478;
   8630; 10391; 11644; 14321; 15741; 17357; 18756; 20434; 22799; 26060; 28542; 30696;
   1407; 2245; 3405; 5639; 9419; 10685; 12104; 13495; 15535; 18357; 19996; 21689;
   24351; 26550; 28853; 30564; 1675; 2226; 4005; 8223; 9975; 11155; 12822; 14316;
   16504; 18137; 19574; 21050; 22759; 24912; 28296; 30634; 1080; 1614; 3622; 7565;
   8748; 10303; 11713; 13848; 15633; 17434; 19761; 21825; 23571; 25393; 27406; 29063;
   1693; 2229; 3456; 4354; 5670; 10890; 12563; 14167; 15879; 17377; 19817; 21971;
   24094; 26131; 28298; 30099; 2042; 2959; 4195; 5740; 7106; 8267; 11126; 14973;
   16914; 18295; 20532; 21982; 23711; 25769; 27609; 29351; 984; 1612; 3808; 5265;
   6885; 8411; 9547; 10889; 12522; 16520; 19549; 21639; 23746; 26058; 28310; 30374;
   2036; 2538; 4166; 7761; 9146; 10412; 12144; 13609; 15588; 17169; 18559; 20113;
   21820; 24313; 28029; 30612; 1871; 2355; 4061; 5143; 7464; 10129; 11941; 15001;
   16680; 18354; 19957; 22279; 24861; 26872; 28988; 30615; 2566; 3161; 4643; 6227;
   7406; 9970; 11618; 13416; 15889; 17364; 19121; 20817; 22592; 24720; 28733; 31082;
   1700; 2327; 4828; 5939; 7567; 9154; 11087; 12771; 14209; 16121; 20222; 22671;
   24648; 26656; 28696; 30745; 3169; 3873; 5046; 6868; 8184; 9480; 12335; 14068;
   15774; 17971; 20231; 21711; 23520; 25245; 27026; 28730; 1564; 2391; 4229; 6730;
   8905; 10459; 13026; 15033; 17265; 19809; 21849; 23741; 25490; 27312; 29061; 30527;
   2864; 3559; 4719; 6441; 9592; 11055; 12763; 14784; 16428; 18164; 20486; 22262;
   24183; 26263; 28383; 30224; 2673; 3449; 4581; 5983; 6863; 8311; 12464; 13911;
   15738; 17791; 19416; 21182; 24025; 26561; 28723; 30440; 2419; 3049; 4274; 6384;
   8564; 9661; 11288; 12676; 14447; 17578; 19816; 21231; 23099; 25270; 26899; 28926;
   1278; 2001; 3000; 5353; 9995; 11777; 13018; 14570; 16050; 17762; 19982; 21617;
   23371; 25083; 27656; 30172; 932; 1624; 2798; 4570; 8592; 9988; 11552; 13050; 16921;
   18677; 20415; 22810; 24817; 26819; 28804; 30385; 2324; 2973; 4156; 5702; 6919;
   8806; 10259; 12503; 15015; 16567; 19418; 21375; 22943; 24550; 27024; 29849; 1564;
   2373; 3455; 4907; 5975; 7436; 11786; 14505; 16107; 18148; 20019; 21653; 23740;
   25814; 28578; 30372; 3025; 3729; 4866; 6520; 9487; 10943; 12358; 14258; 16174;
   17501; 19476; 21408; 23227; 24906; 27347; 29407; 1270; 1965; 6802; 7995; 9204;
   10828; 12507; 14230; 15759; 17860; 20369; 22502; 24633; 26514; 28535; 30525; 2210;
   2749; 4266; 7487; 9878; 11018; 12823; 14431; 16247; 18626; 20450; 22054; 23739;
   25291; 27074; 29169; 1275; 1926; 4330; 6573; 8441; 10920; 13260; 15008; 16927;
   18573; 20644; 22217; 23983; 25474; 27372; 28645; 3015; 3670; 5086; 6372; 7888;
   9309; 10966; 12642; 14495; 16172; 18080; 19972; 22454; 24899; 27362; 29975; 2882;
   3733; 5113; 6482; 8125; 9685; 11598; 13288; 15405; 17192; 20178; 22426; 24801;
   27014; 29212; 30811; 2300; 2968; 4101; 5442; 6327; 7910; 12455; 13862; 15747;
   17505; 19053; 20679; 22615; 24658; 27499; 30065; 2257; 2940; 4430; 5991; 7042;
   8364; 9414; 11224; 15723; 17420; 19253; 21469; 23915; 26053; 28430; 30384; 1227;
   2045; 3818; 5011; 6990; 9231; 11024; 13011; 17341; 19017; 20583; 22799; 25195;
   26876; 29351; 30805; 1354; 1924; 3789; 8077; 10453; 11639; 13352; 14817; 16743;
   18189; 20095; 22014; 24593; 26677; 28647; 30256; 3142; 4049; 6197; 7417; 8753;
   10156; 11533; 13181; 15947; 17655; 19606; 21402; 23487; 25659; 28123; 30304; 1317;
   2263; 4725; 7611; 9667; 11634; 14143; 16258; 18724; 20698; 22379; 24007; 25775;
   27251; 28930; 30593; 1570; 2323; 3818; 6215; 9893; 11556; 13070; 14631; 16152;
   18290; 21386; 23346; 25114; 26923; 28712; 30168; 2297; 3905; 6287; 8558; 10668;
   12766; 15019; 17102; 19036; 20677; 22341; 23871; 25478; 27085; 28851; 30520; 1915;
   2507; 4033; 5749; 7059; 8871; 10659; 12198; 13937; 15383; 16869; 18707; 23175;
   25818; 28514; 30501; 2404; 2918; 5190; 6252; 7426; 9887; 12387; 14795; 16754;
   18368; 20338; 22003; 24236; 26456; 28490; 30397; 1621; 2227; 3479; 5085; 9425;
   12892; 14246; 15652; 17205; 18674; 20446; 22209; 23778; 25867; 27931; 30093; 1869;
   2390; 4105; 7021; 11221; 12775; 14059; 15590; 17024; 18608; 20595; 22075; 23649;
   25154; 26914; 28671; 2551; 3252; 4688; 6562; 7869; 9125; 10475; 11800; 15402;
   18780; 20992; 22555; 24289; 25968; 27465; 29232; 2705; 3493; 4735; 6360; 7905;
   9352; 11538; 13430; 15239; 16919; 18619; 20094; 21800; 23342; 25200; 29257; 2166;
   2791; 4011; 5081; 5896; 9038; 13407; 14703; 16543; 18189; 19896; 21857; 24872;
   26971; 28955; 30514; 1865; 3021; 4696; 6534; 8343; 9914; 12789; 14103; 16533;
   17729; 21340; 22439; 24873; 26330; 28428; 30154; 3369; 4345; 6573; 8763; 10309;
   11713; 13367; 14784; 16483; 18145; 19839; 21247; 23292; 25477; 27555; 29447; 1265;
   2184; 5443; 7893; 10591; 13139; 15105; 16639; 18402; 19826; 21419; 22995; 24719;
   26437; 28363; 30125; 1584; 2004; 3535; 4450; 8662; 10764; 12832; 14978; 16972;
   18794; 20932; 22547; 24636; 26521; 28701; 30567; 3419; 4528; 6602; 7890; 9508;
   10875; 12771; 14357; 16051; 18330; 20630; 22490; 25070; 26936; 28946; 30542; 1726;
   2252; 4597; 6950; 8379; 9823; 11363; 12794; 14306; 15476; 16798; 18018; 21671;
   25550; 28148; 30367; 3385; 3870; 5307; 6388; 7141; 8684; 12695; 14939; 16480;
   18277; 20537; 22048; 23947; 25965; 28214; 29956; 2771; 3306; 4450; 5560; 6453;
   9493; 13548; 14754; 16743; 18447; 20028; 21736; 23746; 25353; 27141; 29066; 3028;
   3900; 6617; 7893; 9211; 10480; 12047; 13583; 15182; 16662; 18502; 20092; 22190;
   24358; 26302; 28957; 2000; 2550; 4067; 6837; 9628; 11002; 12594; 14098; 15589;
   17195; 18679; 20099; 21530; 23085; 24641; 29022; 2844; 3302; 5103; 6107; 6911;
   8598; 12416; 14054; 16026; 18567; 20672; 22270; 23952; 25771; 27658; 30026; 4043;
   5150; 7268; 9056; 10916; 12638; 14543; 16184; 17948; 19691; 21357; 22981; 24825;
   26591; 28479; 30233; 2109; 2625; 4320; 5525; 7454; 10220; 12980; 14698; 17627;
   19263; 20485; 22381; 24279; 25777; 27847; 30458; 1550; 2667; 6473; 9496; 10985;
   12352; 13795; 15233; 17099; 18642; 20461; 22116; 24197; 26291; 28403; 30132; 2411;
   3084; 4145; 5394; 6367; 8154; 13125; 16049; 17561; 19125; 21258; 22762; 24459;
   26317; 28255; 29702; 4159; 4516; 5956; 7635; 8254; 8980; 11208; 14133; 16210;
   17875; 20196; 21864; 23840; 25747; 28058; 30012; 2026; 2431; 2845; 3618; 7950;
   9802; 12721; 14460; 16576; 18984; 21376; 23319; 24961; 26718; 28971; 30640; 3429;
   3833; 4472; 4912; 7723; 10386; 12981; 15322; 16699; 18807; 20778; 22551; 24627;
   26494; 28334; 30482; 4740; 5169; 5796; 6485; 6998; 8830; 11777; 14414; 16831;
   18413; 20789; 22369; 24236; 25835; 27807; 30021; 150; 168; -17; -107; -142; -229;
   -320; -406; -503; -620; -867; -935; -902; -680; -398; -114; -398; -355; 49; 255;
   114; 260; 399; 264; 317; 431; 514; 531; 435; 356; 238; 106; -43; -36; -169; -224;
   -391; -633; -776; -970; -844; -455; -181; -12; 85; 85; 164; 195; 122; 85; -158;
   -640; -903; 9; 7; -124; 149; 32; 220; 369; 242; 115; 79; 84; -146; -216; -70; 1024;
   751; 574; 440; 377; 352; 203; 30; 16; -3; 81; 161; 100; -148; -176; 933; 750; 404;
   171; -2; -146; -411; -442; -541; -552; -442; -269; -240; -52; 603; 635; 405; 178;
   215; 19; -153; -167; -290; -219; 151; 271; 151; 119; 303; 266; 100; 69; -293; -657;
   939; 659; 442; 351; 132; 98; -16; -1; -135; -200; -223; -89; 167; 154; 172; 237;
   -45; -183; -228; -486; 263; 608; 158; -125; -390; -227; -118; 43; -457; -392; -769;
   -840; 20; -117; -194; -189; -173; -173; -33; 32; 174; 144; 115; 167; 57; 44; 14;
   147; 96; -54; -142; -129; -254; -331; 304; 310; -52; -419; -846; -1060; -88; -123;
   -202; -343; -554; -961; -951; 327; 159; 81; 255; 227; 120; 203; 256; 192; 164; 224;
   290; 195; 216; 209; 128; 832; 1028; 889; 698; 504; 408; 355; 218; 32; -115; -84;
   -276; -100; -312; -484; 899; 682; 465; 456; 241; -12; -275; -425; -461; -367; -33;
   -28; -102; -194; -527; 863; 906; 463; 245; 13; -212; -305; -105; 163; 279; 176; 93;
   67; 115; 192; 61; -50; -132; -175; -224; -271; -629; -252; 1158; 972; 638; 280;
   300; 326; 143; -152; -214; -287; 53; -42; -236; -352; -423; -248; -129; -163; -178;
   -119; 85; 57; 514; 382; 374; 402; 424; 423; 271; 197; 97; 40; 39; -97; -191; -164;
   -230; -256; -410; 396; 327; 127; 10; -119; -167; -291; -274; -141; -99; -226; -218;
   -139; -224; -209; -268; -442; -413; 222; 58; 521; 344; 258; 76; -42; -142; -165;
   -123; -92; 47; 8; -3; -191; -11; -164; -167; -351; -740; 311; 538; 291; 184; 29;
   -105; 9; -30; -54; -17; -77; -271; -412; -622; -648; 476; 186; -66; -197; -73; -94;
   -15; 47; 28; 112; -58; -33; 65; 19; 84; 86; 276; 114; 472; 786; 799; 625; 415; 178;
   -35; -26; 5; 9; 83; 39; 37; 39; -184; -374; -265; -362; -501; 337; 716; 478; -60;
   -125; -163; 362; 17; -122; -233; 279; 138; 157; 318; 193; 189; 209; 266; 252; -46;
   -56; -277; -429; 464; 386; 142; 44; -43; 66; 264; 182; 47; 14; -26; -79; 49; 15;
   -128; -203; -400; -478; 325; 27; 234; 411; 205; 129; 12; 58; 123; 57; 171; 137; 96;
   128; -32; 134; -12; 57; 119; 26; -22; -165; -500; -701; -528; -116; 64; -8; 97; -9;
   -162; -66; -156; -194; -303; -546; -341; 546; 358; 95; 45; 76; 270; 403; 205; 100;
   123; 50; -53; -144; -110; -13; 32; -228; -130; 353; 296; 56; -372; -253; 365; 73;
   10; -34; -139; -191; -96; 5; 44; -85; -179; -129; -192; -246; -85; -110; -155; -44;
   -27; 145; 138; 79; 32; -148; -577; -634; 191; 94; -9; -35; -77; -84; -56; -171;
   -298; -271; -243; -156; -328; -235; -76; -128; -121; 129; 13; -22; 32; 45; -248;
   -65; 193; -81; 299; 57; -147; 192; -165; -354; -334; -106; -156; -40; -3; -68; 124;
   -257; 78; 124; 170; 412; 227; 105; -104; 12; 154; 250; 274; 258; 4; -27; 235; 152;
   51; 338; 300; 7; -314; -411; 215; 170; -9; -93; -77; 76; 67; 54; 200; 315; 163; 72;
   -91; -402; 158; 187; -156; -91; 290; 267; 167; 91; 140; 171; 112; 9; -42; -177;
   -440; 385; 80; 15; 172; 129; 41; -129; -372; -24; -75; -30; -170; 10; -118; 57; 78;
   -101; 232; 161; 123; 256; 277; 101; -192; -629; -100; -60; -232; 66; 13; -13; -80;
   -239; 239; 37; 32; 89; -319; -579; 450; 360; 3; -29; -299; -89; -54; -110; -246;
   -164; 6; -188; 338; 176; -92; 197; 137; 134; 12; -2; 56; -183; 114; -36; -131;
   -204; 75; -25; -174; 191; -15; -290; -429; -267; 79; 37; 106; 23; -384; 425; 70;
   -14; 212; 105; 15; -2; -42; -37; -123; 108; 28; -48; 193; 197; 173; -33; 37; 73;
   -57; 256; 137; -58; -430; -228; 217; -51; -10; -58; -6; 22; 104; 61; -119; 169;
   144; 16; -46; -394; 60; 454; -80; -298; -65; 25; 0; -24; -65; -417; 465; 276; -3;
   -194; -13; 130; 19; -6; -21; -24; -180; -53; -85; 20; 118; 147; 113; -75; -289;
   226; -122; 227; 270; 125; 109; 197; 125; 138; 44; 60; 25; -55; -167; -32; -139;
   -193; -173; -316; 287; -208; 253; 239; 27; -80; -188; -28; -182; -235; 156; -117;
   128; -48; -58; -226; 172; 181; 167; 19; 62; 10; 2; 181; 151; 108; -16; -11; -78;
   -331; 411; 133; 17; 104; 64; -184; 24; -30; -3; -283; 121; 204; -8; -199; -21; -80;
   -169; -157; -191; -136; 81; 155; 14; -131; 244; 74; -57; -47; -280; 347; 111; -77;
   -128; -142; -194; -125; -6; -68; 91; 1; 23; 14; -154; -34; 23; -38; -343; 503; 146;
   -38; -46; -41; 58; 31; 63; -48; -117; 45; 28; 1; -89; -5; -44; -29; -448; 487; 204;
   81; 46; -106; -302; 380; 120; -38; -12; -39; 70; -3; 25; -65; 30; -11; 34; -15; 22;
   -115; 0; -79; -83; 45; 114; 43; 150; 36; 233; 149; 195; 5; 25; -52; -475; 274; 28;
   -39; -8; -66; -255; 258; 56; 143; -45; -190; 165; -60; 20; 2; 125; -129; 51; -8;
   -335; 288; 38; 59; 25; -42; 23; -118; -112; 11; -55; -133; -109; 24; -105; 78; -64;
   -245; 202; -65; -127; 162; 40; -94; 89; -85; -119; -103; 97; 9; -70; -28; 194; 86;
   -112; -92; -114; 74; -49; 46; -84; -178; 113; 52; -205; 333; 88; 222; 56; -55; 13;
   86; 4; -77; 224; 114; -105; 112; 125; -29; -18; -144; 22; -58; -99; 28; 114; -66;
   -32; -169; -314; 285; 72; -74; 179; 28; -79; -182; 13; -55; 147; 13; 12; -54; 31;
   -84; -17; -75; -228; 83; -375; 436; 110; -63; -27; -136; 169; -56; -8; -171; 184;
   -42; 148; 68; 204; 235; 110; -229; 91; 171; -43; -3; -26; -99; -111; 71; -170; 202;
   -67; 181; -37; 109; -120; 3; -55; -260; -16; 152; 91; 142; 42; 44; 134; 47; 17;
   -35; 22; 79; -169; 41; 46; 277; -93; -49; -126; 37; -103; -34; -22; -90; -134;
   -205; 92; -9; 1; -195; -239; 45; 54; 18; -23; -1; -80; -98; -20; -261; 306; 72; 20;
   -89; -217; 11; 6; -82; 89; 13; -129; -89; 83; -71; -55; 130; -98; -146; -27; -57;
   53; 275; 17; 170; -5; -54; 132; -64; 72; 160; -125; -168; 72; 40; 170; 78; 248;
   116; 20; 84; 31; -34; 190; 38; 13; -106; 225; 27; -168; 24; -157; -122; 165; 11;
   -161; -213; -12; -51; -101; 42; 101; 27; 55; 111; 75; 71; -96; -1; 65; -277; 393;
   -26; -44; -68; -84; -66; -95; 235; 179; -25; -41; 27; -91; -128; -222; 146; -72;
   -30; -24; 55; -126; -68; -58; -127; 13; -97; -106; 174; -100; 155; 101; -146; -21;
   261; 22; 38; -66; 65; 4; 70; 64; 144; 59; 213; 71; -337; 303; -52; 51; -56; 1; 10;
   -15; -5; 34; 52; 228; 131; 161; -127; -214; 238; 123; 64; -147; -50; -34; -127;
   204; 162; 85; 41; 5; -140; 73; -150; 56; -96; -66; -20; 2; -235; 59; -22; -107;
   150; -16; -47; -4; 81; -67; 167; 149; 149; -157; 288; -156; -27; -8; 18; 83; -24;
   -41; -167; 158; -100; 93; 53; 201; 15; 42; 266; 278; -12; -6; -37; 85; 6; 20; -188;
   -271; 107; -13; -80; 51; 202; 173; -69; 78; -188; 46; 4; 153; 12; -138; 169; 5;
   -58; -123; -108; -243; 150; 10; -191; 246; -15; 38; 25; -10; 14; 61; 50; -206;
   -215; -220; 90; 5; -149; -219; 56; 142; 24; -376; 77; -80; 75; 6; 42; -101; 16; 56;
   14; -57; 3; -17; 80; 57; -36; 88; -59; -97; -19; -148; 46; -219; 226; 114; -4; -72;
   -15; 37; -49; -28; 247; 44; 123; 47; -122; -38; 17; 4; -113; -32; -224; 154; -134;
   196; 71; -267; -85; 28; -70; 89; -120; 99; -2; 64; 76; -166; -48; 189; -35; -92;
   -169; -123; 339; 38; -25; 38; -35; 225; -139; -50; -63; 246; 60; -185; -109; -49;
   -53; -167; 51; 149; 60; -101; -33; 25; -76; 120; 32; -30; -83; 102; 91; -186; -261;
   131; -197].
Definition SKP_Silk_NLSF_MSVQ_CB0_16_CDF_start_ptr : list Z :=
  [0; 129; 146; 155; 164; 173; 182; 191; 200; 209].
Definition SKP_Silk_NLSF_CB0_16_Stage_info : list SKP_Silk_NLSF_CBS :=
  [Stage 128 (16 * 0); Stage 16 (16 * 128); Stage 8 (16 * 144); Stage 8 (16 * 152); Stage 8 (16 * 160); Stage 8 (16 * 168); Stage 8 (16 * 176); Stage 8 (16 * 184); Stage 8 (16 * 192); Stage 16 (16 * 200)].
Definition SKP_Silk_NLSF_CB0_16 : SKP_Silk_NLSF_CB_struct :=
  Codebook 10 SKP_Silk_NLSF_CB0_16_Stage_info SKP_Silk_NLSF_MSVQ_CB0_16_Q15 SKP_Silk_NLSF_MSVQ_CB0_16_ndelta_min_Q15
    SKP_Silk_NLSF_MSVQ_CB0_16_CDF SKP_Silk_NLSF_MSVQ_CB0_16_CDF_start_ptr SKP_Silk_NLSF_MSVQ_CB0_16_CDF_middle_idx.

Definition SKP_Silk_NLSF_MSVQ_CB1_10_CDF : list Z :=
  [0; 17096; 24130; 28997; 33179; 36696; 40213; 42493; 44252; 45973; 47551; 49095;
   50542; 51898; 53196; 54495; 55685; 56851; 57749; 58628; 59435; 60207; 60741; 61220;
   61700; 62179; 62659; 63138; 63617; 64097; 64576; 65056; 65535; 0; 20378; 33032;
   40395; 46721; 51707; 56585; 61157; 65535; 0; 15055; 25472; 35447; 42501; 48969;
   54773; 60212; 65535; 0; 12069; 22440; 32812; 40145; 46870; 53595; 59630; 65535; 0;
   10839; 19954; 27957; 35961; 43965; 51465; 58805; 65535; 0; 8933; 17674; 26415;
   34785; 42977; 50820; 58496; 65535].
Definition SKP_Silk_NLSF_MSVQ_CB1_10_CDF_middle_idx : list Z :=
  [5; 3; 4; 4; 5; 5].
Definition SKP_Silk_NLSF_MSVQ_CB1_10_ndelta_min_Q15 : list Z :=
  [462; 3; 64; 74; 98; 50; 97; 68; 120; 53; 639].
Definition SKP_Silk_NLSF_MSVQ_CB1_10_Q15 : list Z :=
  [1877; 4646; 7712; 10745; 13964; 17028; 20239; 23182; 26471; 29287; 1612; 3278;
   7086; 9975; 13228; 16264; 19596; 22690; 26037; 28965; 2169; 3830; 6460; 8958;
   11960; 14750; 18408; 21659; 25018; 28043; 3680; 6024; 8986; 12256; 15201; 18188;
   21741; 24460; 27484; 30059; 2584; 5187; 7799; 10902; 13179; 15765; 19017; 22431;
   25891; 28698; 3731; 5751; 8650; 11742; 15090; 17407; 20391; 23421; 26228; 29247;
   2107; 6323; 8915; 12226; 14775; 17791; 20664; 23679; 26829; 29353; 1677; 2870;
   5386; 8077; 11817; 15176; 18657; 22006; 25513; 28689; 2111; 3625; 7027; 10588;
   14059; 17193; 21137; 24260; 27577; 30036; 2428; 4010; 5765; 9376; 13805; 15821;
   19444; 22389; 25295; 29310; 2256; 4628; 8377; 12441; 15283; 19462; 22257; 25551;
   28432; 30304; 2352; 3675; 6129; 11868; 14551; 16655; 19624; 21883; 26526; 28849;
   5243; 7248; 10558; 13269; 15651; 17919; 21141; 23827; 27102; 29519; 4422; 6725;
   10449; 13273; 16124; 19921; 22826; 26061; 28763; 30583; 4508; 6291; 9504; 11809;
   13827; 15950; 19077; 22084; 25740; 28658; 2540; 4297; 8579; 13578; 16634; 19101;
   21547; 23887; 26777; 29146; 3377; 6358; 10224; 14518; 17905; 21056; 23637; 25784;
   28161; 30109; 4177; 5942; 8159; 10108; 12130; 15470; 20191; 23326; 26782; 29359;
   2492; 3801; 6144; 9825; 16000; 18671; 20893; 23663; 25899; 28974; 3011; 4727; 6834;
   10505; 12465; 14496; 17065; 20052; 25265; 28057; 4149; 7197; 12338; 15076; 18002;
   20190; 22187; 24723; 27083; 29125; 2975; 4578; 6448; 8378; 9671; 13225; 19502;
   22277; 26058; 28850; 4102; 5760; 7744; 9484; 10744; 12308; 14677; 19607; 24841;
   28381; 4931; 9287; 12477; 13395; 13712; 14351; 16048; 19867; 24188; 28994; 4141;
   7867; 13140; 17720; 20064; 21108; 21692; 22722; 23736; 27449; 4011; 8720; 13234;
   16206; 17601; 18289; 18524; 19689; 23234; 27882; 3420; 5995; 11230; 15117; 15907;
   16783; 17762; 23347; 26898; 29946; 3080; 6786; 10465; 13676; 18059; 23615; 27058;
   29082; 29563; 29905; 3038; 5620; 9266; 12870; 18803; 19610; 20010; 20802; 23882;
   29306; 3314; 6420; 9046; 13262; 15869; 23117; 23667; 24215; 24487; 25915; 3469;
   6963; 10103; 15282; 20531; 23240; 25024; 26021; 26736; 27255; 3041; 6459; 9777;
   12896; 16315; 19410; 24070; 29353; 31795; 32075; -200; -134; -113; -204; -347;
   -440; -352; -211; -418; -172; -313; 59; 495; 772; 721; 614; 334; 444; 225; 242;
   161; 16; 274; 564; -73; -188; -395; -171; 777; 508; 1340; 1145; 699; 196; 223; 173;
   90; 25; -26; 18; 133; -105; -360; -277; 859; 634; 41; -557; -768; -926; -601;
   -1021; -1189; -365; 225; 107; 374; -50; 433; 417; 156; 39; -597; -1397; -1594;
   -592; -485; -292; 253; 87; 0; -6; -25; -345; -240; 120; 1261; 946; 166; -277; 241;
   167; 170; 429; 518; 714; 602; 254; 134; 92; -152; -324; -394; 49; -151; -304; -724;
   -657; -162; -369; -35; 3; -2; -312; -200; -92; -227; 242; 628; 565; -124; 1056;
   770; 101; -84; -33; 4; -192; -272; 5; -627; -977; 419; 472; 53; -103; 145; 322;
   -95; -31; -100; -303; -560; -1067; -413; 714; 283; 2; -223; -367; 523; 360; -38;
   -115; 378; -591; -718; 448; -481; -274; 180; -88; -581; -157; -696; -1265; 394;
   -479; -23; 124; -43; 19; -113; -236; -412; -659; -200; 2; -69; -342; 199; 55; 58;
   -36; -51; -62; 507; 507; 427; 442; 36; 601; -141; 68; 274; 274; 68; -12; -4; 71;
   -193; -464; -425; -383; 408; 203; -337; 236; 410; -59; -25; -341; -449; 28; -9; 90;
   332; -14; -905; 96; -540; -242; 679; -59; 192; -24; 60; -217; 5; -37; 179; -20;
   311; 519; 274; 72; -326; -1030; -262; 213; 380; 82; 328; 411; -540; 574; -283; 151;
   181; -402; -278; -240; -110; -227; -264; -89; -250; -259; -27; 106; -239; -98;
   -390; 118; 61; 104; 294; 532; 92; -13; 60; -233; 335; 541; 307; -26; -110; -91;
   -231; -460; 170; 201; 96; -372; 132; 435; -302; 216; -279; -41; 74; 190; 368; 273;
   -186; -608; -157; 159; 12; 278; 245; 307; 25; -187; -16; 55; 30; -163; 548; -307;
   106; -5; 27; 330; -416; 475; 438; -235; 104; 137; 21; -5; -300; -468; 521; -347;
   170; -200; -219; 308; -122; -133; 219; -16; 359; 412; -89; -111; 48; 322; 142; 177;
   -286; -127; -39; -63; -42; -451; 160; 308; -57; 193; -48; 74; -346; 59; -27; 27;
   -469; -277; -344; 282; 262; 122; 171; -249; 27; 258; 188; -3; 67; -206; -284; 291;
   -117; -88; -477; 375; 50; 106; 99; -182; 438; -376; -401; -49; 119; -23; -10; -48;
   -116; -200; -310; 121; 73; 7; 237; -226; 139; -456; 397; 35; 3; -108; 323; -75;
   332; 198; -99; -21].
Definition SKP_Silk_NLSF_MSVQ_CB1_10_CDF_start_ptr : list Z :=
  [0; 33; 42; 51; 60; 69].
Definition SKP_Silk_NLSF_CB1_10_Stage_info : list SKP_Silk_NLSF_CBS :=
  [Stage 32 (10 * 0); Stage 8 (10 * 32); Stage 8 (10 * 40); Stage 8 (10 * 48); Stage 8 (10 * 56); Stage 8 (10 * 64)].
Definition SKP_Silk_NLSF_CB1_10 : SKP_Silk_NLSF_CB_struct :=
  Codebook 6 SKP_Silk_NLSF_CB1_10_Stage_info SKP_Silk_NLSF_MSVQ_CB1_10_Q15 SKP_Silk_NLSF_MSVQ_CB1_10_ndelta_min_Q15
    SKP_Silk_NLSF_MSVQ_CB1_10_CDF SKP_Silk_NLSF_MSVQ_CB1_10_CDF_start_ptr SKP_Silk_NLSF_MSVQ_CB1_10_CDF_middle_idx.

Definition SKP_Silk_NLSF_MSVQ_CB1_16_CDF : list Z :=
  [0; 19099; 26957; 30639; 34242; 37546; 40447; 43287; 46005; 48445; 49865; 51284;
   52673; 53975; 55221; 56441; 57267; 58025; 58648; 59232; 59768; 60248; 60729; 61210;
   61690; 62171; 62651; 63132; 63613; 64093; 64574; 65054; 65535; 0; 28808; 38775;
   46801; 51785; 55886; 59410; 62572; 65535; 0; 27376; 38639; 45052; 51465; 55448;
   59021; 62594; 65535; 0; 33403; 39569; 45102; 49961; 54047; 57959; 61788; 65535; 0;
   25851; 43356; 47828; 52204; 55964; 59413; 62507; 65535; 0; 34277; 40337; 45432;
   50311; 54326; 58171; 61853; 65535; 0; 33538; 39865; 45302; 50076; 54549; 58478;
   62159; 65535; 0; 27445; 35258; 40665; 46072; 51362; 56540; 61086; 65535; 0; 22080;
   30779; 37065; 43085; 48849; 54613; 60133; 65535; 0; 13417; 21748; 30078; 38231;
   46383; 53091; 59515; 65535].
Definition SKP_Silk_NLSF_MSVQ_CB1_16_CDF_middle_idx : list Z :=
  [5; 2; 2; 2; 2; 2; 2; 3; 3; 4].
Definition SKP_Silk_NLSF_MSVQ_CB1_16_ndelta_min_Q15 : list Z :=
  [148; 3; 60; 68; 117; 86; 121; 124; 152; 153; 207; 151; 225; 239; 126; 183; 792].
Definition SKP_Silk_NLSF_MSVQ_CB1_16_Q15 : list Z :=
  [1309; 3060; 5071; 6996; 9028; 10938; 12934; 14891; 16933; 18854; 20792; 22764;
   24753; 26659; 28626; 30501; 1264; 2745; 4610; 6408; 8286; 10043; 12084; 14108;
   16118; 18163; 20095; 22164; 24264; 26316; 28329; 30251; 1044; 2080; 3672; 5179;
   7140; 9100; 11070; 13065; 15423; 17790; 19931; 22101; 24290; 26361; 28499; 30418;
   1131; 2476; 4478; 6149; 7902; 9875; 11938; 13809; 15869; 17730; 19948; 21707;
   23761; 25535; 27426; 28917; 1040; 2004; 4026; 6100; 8432; 10494; 12610; 14694;
   16797; 18775; 20799; 22782; 24772; 26682; 28631; 30516; 2310; 3812; 5913; 7933;
   10033; 11881; 13885; 15798; 17751; 19576; 21482; 23276; 25157; 27010; 28833; 30623;
   1254; 2847; 5013; 6781; 8626; 10370; 12726; 14633; 16281; 17852; 19870; 21472;
   23002; 24629; 26710; 27960; 1468; 3059; 4987; 7026; 8741; 10412; 12281; 14020;
   15970; 17723; 19640; 21522; 23472; 25661; 27986; 30225; 2171; 3566; 5605; 7384;
   9404; 11220; 13030; 14758; 16687; 18417; 20346; 22091; 24055; 26212; 28356; 30397;
   2409; 4676; 7543; 9786; 11419; 12935; 14368; 15653; 17366; 18943; 20762; 22477;
   24440; 26327; 28284; 30242; 2354; 4222; 6820; 9107; 11596; 13934; 15973; 17682;
   19158; 20517; 21991; 23420; 25178; 26936; 28794; 30527; 1323; 2414; 4184; 6039;
   7534; 9398; 11099; 13097; 14799; 16451; 18434; 20887; 23490; 25838; 28046; 30225;
   1361; 3243; 6048; 8511; 11001; 13145; 15073; 16608; 18126; 19381; 20912; 22607;
   24660; 26668; 28663; 30566; 1216; 2648; 5901; 8422; 10037; 11425; 12973; 14603;
   16686; 18600; 20555; 22415; 24450; 26280; 28206; 30077; 2417; 4048; 6316; 8433;
   10510; 12757; 15072; 17295; 19573; 21503; 23329; 24782; 26235; 27689; 29214; 30819;
   1012; 2345; 4991; 7377; 9465; 11916; 14296; 16566; 18672; 20544; 22292; 23838;
   25415; 27050; 28848; 30551; 1937; 3693; 6267; 8019; 10372; 12194; 14287; 15657;
   17431; 18864; 20769; 22206; 24037; 25463; 27383; 28602; 1969; 3305; 5017; 6726;
   8375; 9993; 11634; 13280; 15078; 16751; 18464; 20119; 21959; 23858; 26224; 29298;
   1198; 2647; 5428; 7423; 9775; 12155; 14665; 16344; 18121; 19790; 21557; 22847;
   24484; 25742; 27639; 28711; 1636; 3353; 5447; 7597; 9837; 11647; 13964; 16019;
   17862; 20116; 22319; 24037; 25966; 28086; 29914; 31294; 2676; 4105; 6378; 8223;
   10058; 11549; 13072; 14453; 15956; 17355; 18931; 20402; 22183; 23884; 25717; 27723;
   1373; 2593; 4449; 5633; 7300; 8425; 9474; 10818; 12769; 15722; 19002; 21429; 23682;
   25924; 28135; 30333; 1596; 3183; 5378; 7164; 8670; 10105; 11470; 12834; 13991;
   15042; 16642; 17903; 20759; 25283; 27770; 30240; 2037; 3987; 6237; 8117; 9954;
   12245; 14217; 15892; 17775; 20114; 22314; 25942; 26305; 26483; 26796; 28561; 2181;
   3858; 5760; 7924; 10041; 11577; 13769; 15700; 17429; 19879; 23583; 24538; 25212;
   25693; 28688; 30507; 1992; 3882; 6474; 7883; 9381; 12672; 14340; 15701; 16658;
   17832; 20850; 22885; 24677; 26457; 28491; 30460; 2391; 3988; 5448; 7432; 11014;
   12579; 13140; 14146; 15898; 18592; 21104; 22993; 24673; 27186; 28142; 29612; 1713;
   5102; 6989; 7798; 8670; 10110; 12746; 14881; 16709; 18407; 20126; 22107; 24181;
   26198; 28237; 30137; 1612; 3617; 6148; 8359; 9576; 11528; 14936; 17809; 18287;
   18729; 19001; 21111; 24631; 26596; 28740; 30643; 2266; 4168; 7862; 9546; 9618;
   9703; 10134; 13897; 16265; 18432; 20587; 22605; 24754; 26994; 29125; 30840; 1840;
   3917; 6272; 7809; 9714; 11438; 13767; 15799; 19244; 21972; 22980; 23180; 23723;
   25650; 29117; 31085; 1458; 3612; 6008; 7488; 9827; 11893; 14086; 15734; 17440;
   19535; 22424; 24767; 29246; 29928; 30516; 30947; -102; -121; -31; -6; 5; -2; 8;
   -18; -4; 6; 14; -2; -12; -16; -12; -60; -126; -353; -574; -677; -657; -617; -498;
   -393; -348; -277; -225; -164; -102; -70; -31; 33; 4; 379; 387; 551; 605; 620; 532;
   482; 442; 454; 385; 347; 322; 299; 266; 200; 1168; 951; 672; 246; 60; -161; -259;
   -234; -253; -282; -203; -187; -155; -176; -198; -178; 10; 170; 393; 609; 555; 208;
   -330; -571; -769; -633; -319; -43; 95; 105; 106; 116; -152; -140; -125; 5; 173;
   274; 264; 331; -37; -293; -609; -786; -959; -814; -645; -238; -91; 36; -11; -101;
   -279; -227; -40; 90; 530; 677; 890; 1104; 999; 835; 564; 295; -280; -364; -340;
   -331; -284; 288; 761; 880; 988; 627; 146; -226; -203; -181; -142; 39; 24; -26;
   -107; -92; -161; -135; -131; -88; -160; -156; -75; -43; -36; -6; -33; 33; -324;
   -415; -108; 124; 157; 191; 203; 197; 144; 109; 152; 176; 190; 122; 101; 159; 663;
   668; 480; 400; 379; 444; 446; 458; 343; 351; 310; 228; 133; 44; 75; 63; -84; 39;
   -29; 35; -94; -233; -261; -354; 77; 262; -24; -145; -333; -409; -404; -597; -488;
   -300; 910; 592; 412; 120; 130; -51; -37; -77; -172; -181; -159; -148; -72; -62;
   510; 516; 113; -585; -1075; -957; -417; -195; 9; 7; -88; -173; -91; 54; 98; 95;
   -28; 197; -527; -621; 157; 122; -168; 147; 309; 300; 336; 315; 396; 408; 376; 106;
   -162; -170; -315; 98; 821; 908; 570; -33; -312; -568; -572; -378; -107; 23; 156;
   93; -129; -87; 20; -72; -37; 40; 21; 27; 48; 75; 77; 65; 46; 71; 66; 47; 136; 344;
   236; 322; 170; 283; 269; 291; 162; -43; -204; -259; -240; -305; -350; -312; 447;
   348; 345; 257; 71; -131; -77; -190; -202; -40; 35; 133; 261; 365; 438; 303; -8; 22;
   140; 137; -300; -641; -764; -268; -23; -25; 73; -162; -150; -212; -72; 6; 39; 78;
   104; -93; -308; -136; 117; -71; -513; -820; -700; -450; -161; -23; 29; 78; 337;
   106; -406; -782; -112; 233; 383; 62; -126; 6; -77; -29; -146; -123; -51; -27; -27;
   -381; -641; 402; 539; 8; -207; -366; -36; -27; -204; -227; -237; -189; -64; 51;
   -92; -137; -281; 62; 233; 92; 148; 294; 363; 416; 564; 625; 370; -36; -469; -462;
   102; 168; 32; 117; -21; 97; 139; 89; 104; 35; 4; 82; 66; 58; 73; 93; -76; -320;
   -236; -189; -203; -142; -27; -73; 9; -9; -25; 12; -15; 4; 4; -50; 314; 180; 162;
   -49; 199; -108; -227; -66; -447; -67; -264; -394; 5; 55; -133; -176; -116; -241;
   272; 109; 282; 262; 192; -64; -392; -514; 156; 203; 154; 72; -34; -160; -73; 3;
   -33; -431; 321; 18; -567; -590; -108; 88; 66; 51; -31; -193; -46; 65; -29; -23;
   215; -31; 101; -113; 32; 304; 88; 320; 448; 5; -439; -562; -508; -135; -13; -171;
   -8; 182; -99; -181; -149; 376; 476; 64; -396; -652; -150; 176; 222; 65; -590; 719;
   271; 399; 245; 72; -156; -152; -176; 59; 94; 125; -9; -7; 9; 1; -61; -116; -82; 1;
   79; 22; -44; -15; -48; -65; -62; -101; -102; -54; -70; -78; -80; -25; 398; 71; 139;
   38; 90; 194; 222; 249; 165; 94; 221; 262; 163; 91; -206; 573; 200; -287; -147; 5;
   -18; -85; -74; -125; -87; 85; 141; 4; -4; 28; 234; 48; -150; -111; -506; 237; -209;
   345; 94; -124; 77; 121; 143; 12; -80; -48; 191; 144; -93; -65; -151; -643; 435;
   106; 87; 7; 65; 102; 94; 68; 5; 99; 222; 93; 94; 355; -13; -89; -228; -503; 287;
   109; 108; 449; 253; -29; -109; -116; 15; -73; -20; 131; -147; 72; 59; -150; -594;
   273; 316; 132; 199; 106; 198; 212; 220; 82; 45; -13; 223; 137; 270; 38; 252; 135;
   -177; -207; -360; -102; 403; 406; -14; 83; 64; 51; -7; -99; -97; -88; -124; -65;
   42; 32; 28; 29; 12; 20; 119; -26; -212; -201; 373; 251; 141; 103; 36; -52; 66; 18;
   -6; -95; -196; 5; 98; -85; -108; 218; -164; 20; 356; 172; 37; 266; 23; 112; -24;
   -99; -92; -178; 29; -278; 388; -60; -220; 300; -13; 154; 191; 15; -37; -110; -153;
   -150; -114; -7; -94; -31; -62; -177; 4; -70; 35; 453; 147; -247; -328; 101; 20;
   -114; 147; 108; -119; -109; -102; -238; 55; -102; 173; -89; 129; 138; -330; -160;
   485; 154; -59; -170; -20; -34; -261; -40; -129; 77; -84; 69; 83; 160; 169; 63;
   -516; 30; 336; 52; 0; -52; -124; 158; 19; 197; -10; -375; 405; 285; 114; -395; -47;
   196; 62; 87; -106; -65; -75; -69; -13; 34; 99; 59; 83; 98; 44; 0; 24; 18; 17; 70;
   -22; 194; 208; 144; -79; -15; 32; -104; -28; -105; -186; -212; -228; -79; -76; 51;
   -71; 72; 118; -34; -3; -171; 5; 2; -108; -125; 62; -58; 58; -121; 73; -466; 92; 63;
   -94; -78; -76; 212; 36; -225; -71; -354; 152; 143; -79; -246; -51; -31; -6; -270;
   240; 210; 30; -157; -231; 74; -146; 88; -273; 156; 92; 56; 71; 2; 318; 164; 32;
   -110; -35; -41; -95; -106; 11; 132; -68; 55; 123; -83; -149; 212; 132; 0; -194; 55;
   206; -108; -353; 289; -195; 1; 233; -22; -60; 20; 26; 68; 166; 27; -58; 130; 112;
   107; 27; -165; 115; -93; -37; 38; 83; 483; 65; -229; -13; 157; 85; 50; 136; 10; 32;
   83; 82; 55; 5; -9; -52; -78; -81; -51; 40; 18; -127; -224; -41; 53; -210; -113; 24;
   -17; -187; -89; 8; 121; 83; 77; 91; -74; -35; -112; -161; -173; 102; 132; -125;
   -61; 103; -260; 52; 166; -32; -156; -87; -56; 60; -70; -124; 242; 114; -251; -166;
   201; 127; 28; -11; 23; -80; -115; -20; -51; -348; 340; -34; 133; 13; 92; -124;
   -136; -120; -26; -6; 17; 28; 21; 120; -168; 160; -35; 115; 28; 9; 7; -56; 39; 156;
   256; -18; 1; 277; 82; -70; -144; -88; -13; -59; -157; 8; -134; 21; -40; 58; -21;
   194; -276; 97; 279; -56; -140; 125; 57; -184; -204; -70; -2; 128; -202; -78; 230;
   -23; 161; -102; 1; 1; 180; -31; -86; -167; -57; -60; 27; -13; 99; 108; 111; 76; 69;
   34; -21; 53; 38; 34; 78; 73; 219; 51; 15; -72; -103; -207; 30; 213; -14; 31; -94;
   -40; -144; 67; 4; 105; 59; -240; 25; 244; 69; 58; 23; -24; -5; -15; -133; -71; -67;
   181; 29; -45; 121; 96; 51; -72; -53; 56; -153; -27; 85; 183; 211; 105; -34; -46;
   43; -72; -93; 36; -128; 29; 111; -95; -156; -179; -235; 21; -39; -71; -33; -61;
   -252; 230; -131; 157; -21; -85; -28; -123; 80; -160; 63; 47; -6; -49; -96; -19; 17;
   -58; 17; 0; -13; -170; 25; -35; 59; 10; -31; -413; 81; 62; 18; -164; 245; 92; -165;
   42; 26; 126; -248; 193; -55; 16; 39; 14; 50].
Definition SKP_Silk_NLSF_MSVQ_CB1_16_CDF_start_ptr : list Z :=
  [0; 33; 42; 51; 60; 69; 78; 87; 96; 105].
Definition SKP_Silk_NLSF_CB1_16_Stage_info : list SKP_Silk_NLSF_CBS :=
  [Stage 32 (16 * 0); Stage 8 (16 * 32); Stage 8 (16 * 40); Stage 8 (16 * 48); Stage 8 (16 * 56); Stage 8 (16 * 64); Stage 8 (16 * 72); Stage 8 (16 * 80); Stage 8 (16 * 88); Stage 8 (16 * 96)].
Definition SKP_Silk_NLSF_CB1_16 : SKP_Silk_NLSF_CB_struct :=
  Codebook 10 SKP_Silk_NLSF_CB1_16_Stage_info SKP_Silk_NLSF_MSVQ_CB1_16_Q15 SKP_Silk_NLSF_MSVQ_CB1_16_ndelta_min_Q15
    SKP_Silk_NLSF_MSVQ_CB1_16_CDF SKP_Silk_NLSF_MSVQ_CB1_16_CDF_start_ptr SKP_Silk_NLSF_MSVQ_CB1_16_CDF_middle_idx.
