(* ===== verification/SilkNlsf.v ===== *)
(** * Line spectral frequencies of the SILK codec

    [jni/silk/src/SKP_Silk_NLSF_stabilize.c] and [SKP_Silk_NLSF_MSVQ_decode.c]: a frame
    carries the indices of vectors whose sum is a vector of frequencies; these are
    then moved apart, so that the filter they stand for is stable. *)
From Stdlib Require Import ZArith Lia.
From stdpp Require Import base list.
From S2P Require Import Prelude.
From S2P Require Import SilkMath.
From S2P Require Import SilkSort.
From S2P Require Import SilkNlsfTables.

Open Scope Z_scope.

Definition MAX_LOOPS : nat := 20.

Definition sub_s32 (a b : Z) : res Z := int32 (a - b).

(** ** Stabilising *)

(** Middle elements, from [i]: the smallest distance so far, and where it is. *)
Fixpoint smallest_middle (NLSF_Q15 NDeltaMin_Q15 : list Z) (n i : nat) (min_diff : Z) (Imin : nat) : res (Z * nat) :=
  match n with
  | O => Ok (min_diff, Imin)
  | S n =>
      x ← fetch NLSF_Q15 (Z.of_nat i);
      y ← fetch NLSF_Q15 (Z.of_nat i - 1);
      d ← fetch NDeltaMin_Q15 (Z.of_nat i);
      s ← add_s32 y d;
      diff ← sub_s32 x s;
      if diff <? min_diff then smallest_middle NLSF_Q15 NDeltaMin_Q15 n (S i) diff i
      else smallest_middle NLSF_Q15 NDeltaMin_Q15 n (S i) min_diff Imin
  end.

Definition smallest_distance (NLSF_Q15 NDeltaMin_Q15 : list Z) (L : nat) : res (Z * nat) :=
  x ← fetch NLSF_Q15 0;
  d ← fetch NDeltaMin_Q15 0;
  first ← sub_s32 x d;
  '(min_diff, Imin) ← smallest_middle NLSF_Q15 NDeltaMin_Q15 (L - 1) 1 first 0;
  x ← fetch NLSF_Q15 (Z.of_nat L - 1);
  d ← fetch NDeltaMin_Q15 (Z.of_nat L);
  s ← add_s32 x d;
  diff ← sub_s32 (2 ^ 15) s;
  Ok (if diff <? min_diff then (diff, L) else (min_diff, Imin)).

(** [for( k = 0; k < Imin; k++ ) c += d[ k ]] and [for( k = L; k > Imin; k-- ) c -= d[ k ]] *)
Fixpoint add_deltas (d : list Z) (n k : nat) (c : Z) : res Z :=
  match n with
  | O => Ok c
  | S n => x ← fetch d (Z.of_nat k); c ← add_s32 c x; add_deltas d n (S k) c
  end.
Fixpoint sub_deltas (d : list Z) (n k : nat) (c : Z) : res Z :=
  match n with
  | O => Ok c
  | S n => x ← fetch d (Z.of_nat k); c ← sub_s32 c x; sub_deltas d n (pred k) c
  end.

(** Two neighbours apart, around their centre. *)
Definition move_apart (NLSF_Q15 NDeltaMin_Q15 : list Z) (L Imin : nat) : res (list Z) :=
  d ← fetch NDeltaMin_Q15 (Z.of_nat Imin);
  min_center ← add_deltas NDeltaMin_Q15 Imin 0 0;
  min_center ← add_s32 min_center (Z.shiftr d 1);
  max_center ← sub_deltas NDeltaMin_Q15 (L - Imin) L (2 ^ 15);
  max_center ← sub_s32 max_center (d - Z.shiftr d 1);
  x ← fetch NLSF_Q15 (Z.of_nat Imin - 1);
  y ← fetch NLSF_Q15 (Z.of_nat Imin);
  s ← add_s32 x y;
  let center_freq := SKP_LIMIT (SKP_RSHIFT_ROUND s 1) min_center max_center in
  lower ← sub_s32 center_freq (Z.shiftr d 1);
  NLSF_Q15 ← store_at NLSF_Q15 (Z.of_nat Imin - 1) lower;
  upper ← add_s32 lower d;
  store_at NLSF_Q15 (Z.of_nat Imin) upper.

Definition move (NLSF_Q15 NDeltaMin_Q15 : list Z) (L Imin : nat) : res (list Z) :=
  if (Imin =? 0)%nat then d ← fetch NDeltaMin_Q15 0; store_at NLSF_Q15 0 d
  else if (Imin =? L)%nat then
    d ← fetch NDeltaMin_Q15 (Z.of_nat L);
    x ← sub_s32 (2 ^ 15) d;
    store_at NLSF_Q15 (Z.of_nat L - 1) x
  else move_apart NLSF_Q15 NDeltaMin_Q15 L Imin.

(** The distances, from the first upwards and from the last downwards. *)
Fixpoint push_up (NLSF_Q15 NDeltaMin_Q15 : list Z) (n i : nat) : res (list Z) :=
  match n with
  | O => Ok NLSF_Q15
  | S n =>
      x ← fetch NLSF_Q15 (Z.of_nat i);
      y ← fetch NLSF_Q15 (Z.of_nat i - 1);
      d ← fetch NDeltaMin_Q15 (Z.of_nat i);
      s ← add_s32 y d;
      NLSF_Q15 ← store_at NLSF_Q15 (Z.of_nat i) (SKP_max x s);
      push_up NLSF_Q15 NDeltaMin_Q15 n (S i)
  end.
Fixpoint push_down (NLSF_Q15 NDeltaMin_Q15 : list Z) (n : nat) : res (list Z) :=
  match n with
  | O => Ok NLSF_Q15
  | S i =>
      x ← fetch NLSF_Q15 (Z.of_nat i);
      y ← fetch NLSF_Q15 (Z.of_nat i + 1);
      d ← fetch NDeltaMin_Q15 (Z.of_nat i + 1);
      s ← sub_s32 y d;
      NLSF_Q15 ← store_at NLSF_Q15 (Z.of_nat i) (SKP_min x s);
      push_down NLSF_Q15 NDeltaMin_Q15 i
  end.

(** The fall back method. *)
Definition fall_back (NLSF_Q15 NDeltaMin_Q15 : list Z) (L : nat) : res (list Z) :=
  NLSF_Q15 ← SKP_Silk_insertion_sort_increasing_all_values NLSF_Q15 L;
  x ← fetch NLSF_Q15 0;
  d ← fetch NDeltaMin_Q15 0;
  NLSF_Q15 ← store_at NLSF_Q15 0 (SKP_max x d);
  NLSF_Q15 ← push_up NLSF_Q15 NDeltaMin_Q15 (L - 1) 1;
  x ← fetch NLSF_Q15 (Z.of_nat L - 1);
  d ← fetch NDeltaMin_Q15 (Z.of_nat L);
  m ← sub_s32 (2 ^ 15) d;
  NLSF_Q15 ← store_at NLSF_Q15 (Z.of_nat L - 1) (SKP_min x m);
  push_down NLSF_Q15 NDeltaMin_Q15 (L - 1).

Fixpoint stabilize_loop (loops : nat) (NLSF_Q15 NDeltaMin_Q15 : list Z) (L : nat) : res (list Z) :=
  match loops with
  | O => fall_back NLSF_Q15 NDeltaMin_Q15 L
  | S loops =>
      '(min_diff, Imin) ← smallest_distance NLSF_Q15 NDeltaMin_Q15 L;
      if 0 <=? min_diff then Ok NLSF_Q15
      else
        NLSF_Q15 ← move NLSF_Q15 NDeltaMin_Q15 L Imin;
        stabilize_loop loops NLSF_Q15 NDeltaMin_Q15 L
  end.

(** The assertion on the last distance is not compiled. *)
Definition SKP_Silk_NLSF_stabilize (NLSF_Q15 NDeltaMin_Q15 : list Z) (L : nat) : res (list Z) :=
  stabilize_loop MAX_LOOPS NLSF_Q15 NDeltaMin_Q15 L.

(** [N] vectors of [L] numbers, one behind the other. *)
Fixpoint SKP_Silk_NLSF_stabilize_multi (NLSF_Q15 NDeltaMin_Q15 : list Z) (N L : nat) : res (list Z) :=
  match N with
  | O => Ok NLSF_Q15
  | S N =>
      x ← SKP_Silk_NLSF_stabilize (take L NLSF_Q15) NDeltaMin_Q15 L;
      l ← SKP_Silk_NLSF_stabilize_multi (drop L NLSF_Q15) NDeltaMin_Q15 N L;
      Ok (x ++ l)%list
  end.

(** ** Decoding *)

(** A vector of a stage, added to the sum. *)
Fixpoint add_vector (pNLSF_Q15 CB : list Z) (pos : Z) : res (list Z) :=
  match pNLSF_Q15 with
  | [] => Ok []
  | x :: pNLSF_Q15 =>
      c ← fetch CB pos;
      x ← add_s32 x c;
      pNLSF_Q15 ← add_vector pNLSF_Q15 CB (pos + 1);
      Ok (x :: pNLSF_Q15)
  end.

(** [SKP_LSHIFT( index, 4 )] for order 16, [SKP_SMULBB( index, LPC_order )] else. *)
Definition element (index : Z) (LPC_order : nat) : res Z :=
  if (LPC_order =? 16)%nat then shl_s32 index 4 else Ok (SKP_SMULBB index (Z.of_nat LPC_order)).

Fixpoint add_stages (psNLSF_CB : SKP_Silk_NLSF_CB_struct) (n s : nat) (pNLSF_Q15 NLSFIndices : list Z)
    (LPC_order : nat) : res (list Z) :=
  match n with
  | O => Ok pNLSF_Q15
  | S n =>
      stage ← fetch (CBStages psNLSF_CB) (Z.of_nat s);
      index ← fetch NLSFIndices (Z.of_nat s);
      e ← element index LPC_order;
      pNLSF_Q15 ← add_vector pNLSF_Q15 (CB psNLSF_CB) (CB_NLSF_Q15 stage + e);
      add_stages psNLSF_CB n (S s) pNLSF_Q15 NLSFIndices LPC_order
  end.

(** [pNLSF_Q15] starts as the vector of stage 0: zero, plus it. *)
Definition SKP_Silk_NLSF_MSVQ_decode (psNLSF_CB : SKP_Silk_NLSF_CB_struct) (NLSFIndices : list Z)
    (LPC_order : nat) : res (list Z) :=
  stage ← fetch (CBStages psNLSF_CB) 0;
  index ← fetch NLSFIndices 0;
  e ← SKP_MUL index (Z.of_nat LPC_order);
  pNLSF_Q15 ← add_vector (replicate LPC_order 0) (CB psNLSF_CB) (CB_NLSF_Q15 stage + e);
  pNLSF_Q15 ← add_stages psNLSF_CB (Z.to_nat (nStages psNLSF_CB) - 1) 1 pNLSF_Q15 NLSFIndices LPC_order;
  SKP_Silk_NLSF_stabilize pNLSF_Q15 (NDeltaMin_Q15 psNLSF_CB) LPC_order.

Lemma sub_s32_ok a b : INT32_MIN <= a - b <= INT32_MAX -> sub_s32 a b = Ok (a - b).
Proof. apply int32_ok. Qed.

(** ** What stable means

    No distance between neighbours, nor to the two ends of the scale, is below its
    minimum. *)

Definition gap (l d : list Z) (L i : nat) : Z :=
  if (i =? 0)%nat then l !!! 0%nat - d !!! 0%nat
  else if (i =? L)%nat then 2 ^ 15 - (l !!! pred L + d !!! L)
  else l !!! i - (l !!! pred i + d !!! i).

Definition spaced (l d : list Z) (L : nat) : Prop := forall i, (i <= L)%nat -> 0 <= gap l d L i.

(** The sum of the first [n] distances. *)
Fixpoint prefix (d : list Z) (n : nat) : Z :=
  match n with O => 0 | S n => prefix d n + d !!! n end.

(** Minimal distances that leave room on the scale. *)
Definition deltas_ok (d : list Z) (L : nat) : Prop :=
  length d = S L /\ (1 <= L)%nat /\ (forall i, (i <= L)%nat -> 0 <= d !!! i) /\ prefix d (S L) <= 2 ^ 15.

Definition bounded (b : Z) (l : list Z) (L : nat) : Prop :=
  length l = L /\ forall i, (i < L)%nat -> - b <= l !!! i <= b.

Section stabilize.
Context (d : list Z) (L : nat) (Hok : deltas_ok d L).

Lemma prefix_mono n m : (n <= m)%nat -> (m <= S L)%nat -> 0 <= prefix d n <= prefix d m.
Proof using Hok.
  destruct Hok as (_ & _ & Hd & _). intros Hn Hm. split.
  - assert (n <= S L)%nat as Hl by lia. clear Hn.
    induction n as [|n IH]; cbn [prefix]; [lia|]. pose proof (Hd n ltac:(lia)). lia.
  - induction Hn as [|m Hn IH]; [lia|]. cbn [prefix]. pose proof (Hd m ltac:(lia)). lia.
Qed.

Lemma delta_fetch z i : z = Z.of_nat i -> (i <= L)%nat ->
  fetch d z = Ok (d !!! i) /\ 0 <= d !!! i <= 2 ^ 15.
Proof using Hok.
  intros -> Hi. pose proof (prefix_mono i (S i) ltac:(lia) ltac:(lia)) as H1.
  pose proof (prefix_mono (S i) (S L) ltac:(lia) ltac:(lia)) as H2. cbn [prefix] in H1.
  destruct Hok as (Hl & _ & Hd & Hs). split; [apply fetch_total; [done|lia]|].
  pose proof (Hd i Hi). change (prefix d (S i)) with (prefix d i + d !!! i) in H2. lia.
Qed.

Lemma smallest_middle_spec b l n i m J :
  bounded b l L -> b <= 2 ^ 22 -> (1 <= i)%nat -> (i + n = L)%nat ->
  exists m' J', smallest_middle l d n i m J = Ok (m', J') /\ m' <= m /\
    (forall j, (i <= j < L)%nat -> m' <= gap l d L j) /\ (J' = J \/ (i <= J' < L)%nat).
Proof using Hok.
  intros [Hlen Hb] Hb22. revert i m J. induction n as [|n IH]; intros i m J Hi Hn; cbn [smallest_middle].
  - exists m, J. split_and!; [done|lia| |by left]. intros j Hj. lia.
  - rewrite (fetch_total l (Z.of_nat i) i) by lia. rewrite (fetch_total l (Z.of_nat i - 1) (pred i)) by lia.
    destruct (delta_fetch (Z.of_nat i) i eq_refl ltac:(lia)) as [-> Hdi]. rewrite !bind_Ok.
    pose proof (Hb i ltac:(lia)) as Hx. pose proof (Hb (pred i) ltac:(lia)) as Hy.
    rewrite add_s32_ok by (unfold INT32_MIN, INT32_MAX; lia). rewrite bind_Ok.
    rewrite sub_s32_ok by (unfold INT32_MIN, INT32_MAX; lia). rewrite bind_Ok.
    assert (gap l d L i = l !!! i - (l !!! pred i + d !!! i)) as Hg.
    { unfold gap. rewrite (proj2 (Nat.eqb_neq i 0)), (proj2 (Nat.eqb_neq i L)) by lia. done. }
    rewrite <- Hg. destruct (Z.ltb_spec (gap l d L i) m).
    + destruct (IH (S i) (gap l d L i) i ltac:(lia) ltac:(lia)) as (m' & J' & -> & Hm & Hj & HJ).
      exists m', J'. split_and!; [done|lia| |right; lia]. intros j Hj'.
      destruct (Nat.eq_dec j i) as [->|]; [done|apply Hj; lia].
    + destruct (IH (S i) m J ltac:(lia) ltac:(lia)) as (m' & J' & -> & Hm & Hj & HJ).
      exists m', J'. split_and!; [done|lia| |lia]. intros j Hj'.
      destruct (Nat.eq_dec j i) as [->|]; [lia|apply Hj; lia].
Qed.

Lemma smallest_distance_spec b l :
  bounded b l L -> b <= 2 ^ 22 ->
  exists m J, smallest_distance l d L = Ok (m, J) /\ (J <= L)%nat /\
    forall j, (j <= L)%nat -> m <= gap l d L j.
Proof using Hok.
  intros Hbd Hb22. pose proof Hbd as [Hlen Hb]. pose proof Hok as (_ & HL & _). unfold smallest_distance.
  rewrite (fetch_total l 0 0) by lia. destruct (delta_fetch 0 0 eq_refl ltac:(lia)) as [-> Hd0]. rewrite !bind_Ok.
  pose proof (Hb 0%nat ltac:(lia)) as Hx.
  rewrite sub_s32_ok by (unfold INT32_MIN, INT32_MAX; lia). rewrite bind_Ok.
  destruct (smallest_middle_spec b l (L - 1) 1 (l !!! 0%nat - d !!! 0%nat) 0 Hbd Hb22)
    as (m & J & -> & Hm & Hj & HJ); [lia|lia|]. rewrite bind_Ok.
  rewrite (fetch_total l (Z.of_nat L - 1) (pred L)) by lia.
  destruct (delta_fetch (Z.of_nat L) L eq_refl ltac:(lia)) as [-> HdL]. rewrite !bind_Ok.
  pose proof (Hb (pred L) ltac:(lia)) as Hy.
  rewrite add_s32_ok by (unfold INT32_MIN, INT32_MAX; lia). rewrite bind_Ok.
  rewrite sub_s32_ok by (unfold INT32_MIN, INT32_MAX; lia). rewrite bind_Ok.
  assert (gap l d L L = 2 ^ 15 - (l !!! pred L + d !!! L)) as HgL.
  { unfold gap. rewrite (proj2 (Nat.eqb_neq L 0)), Nat.eqb_refl by lia. done. }
  rewrite <- HgL. assert (forall j, (j <= L)%nat -> j = L \/ m <= gap l d L j) as Hall.
  { intros j Hj'. destruct (Nat.eq_dec j L) as [->|]; [by left|right].
    destruct (Nat.eq_dec j 0%nat) as [->|]; [|apply Hj; lia]. unfold gap. cbn. lia. }
  destruct (Z.ltb_spec (gap l d L L) m); eexists _, _; (split; [done|]); (split; [lia|]);
    intros j [->|Hj']%Hall; lia.
Qed.

Lemma bounded_insert b l i x :
  bounded b l L -> - b <= x <= b -> bounded b (<[i := x]> l) L.
Proof using Type.
  intros [Hlen Hb] Hx. split; [by rewrite length_insert|]. intros j Hj.
  destruct (Nat.eq_dec i j) as [->|Hn].
  - rewrite list_lookup_total_insert_eq by lia. done.
  - rewrite list_lookup_total_insert_ne by done. by apply Hb.
Qed.

Lemma add_deltas_spec n k c :
  (k + n <= S L)%nat -> 0 <= c <= 2 ^ 20 -> add_deltas d n k c = Ok (c + (prefix d (k + n) - prefix d k)).
Proof using Hok.
  revert k c. assert (prefix d (S L) <= 2 ^ 15) as Hs by apply Hok. clear - Hok Hs.
  intros k c Hk Hc. assert (c + (prefix d (S L) - prefix d k) <= 2 ^ 21) as Hb
    by (pose proof (prefix_mono k k ltac:(lia) ltac:(lia)); lia).
  assert (0 <= c) as Hc0 by lia. clear Hc. revert k c Hk Hb Hc0.
  induction n as [|n IH]; intros k c Hk Hb Hc; cbn [add_deltas].
  - rewrite Nat.add_0_r. f_equal. lia.
  - destruct (delta_fetch (Z.of_nat k) k eq_refl ltac:(lia)) as [-> Hd]. rewrite bind_Ok.
    pose proof (prefix_mono (S k) (S L) ltac:(lia) ltac:(lia)) as Hm.
    change (prefix d (S k)) with (prefix d k + d !!! k) in Hm.
    rewrite add_s32_ok by (unfold INT32_MIN, INT32_MAX; lia). rewrite bind_Ok, IH.
    + change (prefix d (S k)) with (prefix d k + d !!! k).
      replace (S k + n)%nat with (k + S n)%nat by lia. f_equal. lia.
    + lia.
    + change (prefix d (S k)) with (prefix d k + d !!! k). lia.
    + lia.
Qed.

Lemma sub_deltas_spec n k c :
  (n <= S k)%nat -> (k <= L)%nat -> -2 ^ 20 <= c <= 2 ^ 20 ->
  sub_deltas d n k c = Ok (c - (prefix d (S k) - prefix d (S k - n))).
Proof using Hok.
  intros Hn Hk Hc. assert (- 2 ^ 21 <= c - prefix d (S k)) as Hb.
  { pose proof (prefix_mono (S k) (S L) ltac:(lia) ltac:(lia)). destruct Hok as (_ & _ & _ & Hs). lia. }
  assert (c <= 2 ^ 20) as Hc1 by lia. clear Hc. revert k c Hn Hk Hb Hc1.
  induction n as [|n IH]; intros k c Hn Hk Hb Hc; cbn [sub_deltas].
  - rewrite Nat.sub_0_r. f_equal. lia.
  - destruct (delta_fetch (Z.of_nat k) k eq_refl ltac:(lia)) as [-> Hd]. rewrite bind_Ok.
    pose proof (prefix_mono 0 k ltac:(lia) ltac:(lia)) as Hm. cbn [prefix] in Hm, Hb.
    rewrite sub_s32_ok by (unfold INT32_MIN, INT32_MAX; lia). rewrite bind_Ok.
    destruct k as [|k].
    + assert (n = O) as -> by lia. cbn. f_equal. lia.
    + cbn [pred]. cbn [prefix] in *. rewrite IH; [|lia|lia|cbn [prefix]; lia|lia]. cbn [Nat.sub prefix]. f_equal. lia.
Qed.

Lemma round_half x : SKP_RSHIFT_ROUND x 1 = (x + 1) / 2.
Proof using Type.
  unfold SKP_RSHIFT_ROUND. cbn [Z.eqb Pos.eqb]. rewrite (mask 1), Z.shiftr_div_pow2 by done.
  change (2 ^ 1) with 2. lia.
Qed.

Lemma move_apart_spec l J :
  bounded (2 ^ 20) l L -> (1 <= J)%nat -> (J < L)%nat ->
  exists l', move_apart l d L J = Ok l' /\ bounded (2 ^ 20) l' L.
Proof using Hok.
  intros Hbd H1 HJ. pose proof Hbd as [Hlen Hb]. unfold move_apart.
  destruct (delta_fetch (Z.of_nat J) J eq_refl ltac:(lia)) as [-> Hd]. rewrite bind_Ok.
  pose proof (prefix_mono J (S J) ltac:(lia) ltac:(lia)) as Hm1.
  pose proof (prefix_mono (S J) (S L) ltac:(lia) ltac:(lia)) as Hm2.
  change (prefix d (S J)) with (prefix d J + d !!! J) in Hm1, Hm2.
  assert (prefix d (S L) <= 2 ^ 15) as Hs by apply Hok.
  rewrite add_deltas_spec by lia. rewrite bind_Ok, Nat.add_0_l, Z.shiftr_div_pow2 by lia. change (prefix d 0) with 0.
  set (h := d !!! J / 2 ^ 1). assert (0 <= h <= d !!! J) as Hh by (subst h; lia).
  rewrite add_s32_ok by (unfold INT32_MIN, INT32_MAX; lia). rewrite bind_Ok, sub_deltas_spec by lia. rewrite bind_Ok.
  replace (S L - (L - J))%nat with (S J) by lia. change (prefix d (S J)) with (prefix d J + d !!! J).
  rewrite sub_s32_ok by (unfold INT32_MIN, INT32_MAX; lia). rewrite bind_Ok.
  rewrite (fetch_total l (Z.of_nat J - 1) (pred J)), (fetch_total l (Z.of_nat J) J) by lia. rewrite !bind_Ok.
  pose proof (Hb J HJ) as Hx. pose proof (Hb (pred J) ltac:(lia)) as Hy.
  rewrite add_s32_ok by (unfold INT32_MIN, INT32_MAX; lia). rewrite bind_Ok, round_half, limit_spec by lia.
  set (c := Z.max _ _). assert (prefix d J + h <= c <= 2 ^ 15) as Hc by (subst c; lia).
  rewrite sub_s32_ok by (unfold INT32_MIN, INT32_MAX; lia). rewrite bind_Ok, store_at_ok by lia.
  rewrite bind_Ok, add_s32_ok by (unfold INT32_MIN, INT32_MAX; lia). rewrite bind_Ok, store_at_ok by (rewrite length_insert; lia).
  eexists. split; [done|]. apply bounded_insert; [apply bounded_insert; [done|]|]; lia.
Qed.

Lemma move_spec l J :
  bounded (2 ^ 20) l L -> (J <= L)%nat -> exists l', move l d L J = Ok l' /\ bounded (2 ^ 20) l' L.
Proof using Hok.
  intros Hbd HJ. pose proof Hbd as [Hlen Hb]. assert (1 <= L)%nat as HL by apply Hok. unfold move.
  destruct (Nat.eqb_spec J 0%nat) as [->|H0]; [|destruct (Nat.eqb_spec J L) as [->|HJL]].
  - destruct (delta_fetch 0 0%nat eq_refl ltac:(lia)) as [-> Hd]. rewrite bind_Ok, store_at_ok by lia.
    eexists. split; [done|]. apply bounded_insert; [done|lia].
  - destruct (delta_fetch (Z.of_nat L) L eq_refl ltac:(lia)) as [-> Hd].
    rewrite bind_Ok, sub_s32_ok by (unfold INT32_MIN, INT32_MAX; lia). rewrite bind_Ok, store_at_ok by lia.
    eexists. split; [done|]. apply bounded_insert; [done|lia].
  - apply move_apart_spec; [done|lia|lia].
Qed.

(** The first [i] values leave room for the distances below them. *)
Definition above (l : list Z) (i : nat) : Prop := forall j, (j < i)%nat -> prefix d (S j) <= l !!! j.

Lemma above_insert l i x :
  above l i -> (i < length l)%nat -> prefix d (S i) <= x -> above (<[i := x]> l) (S i).
Proof using Type.
  intros Ha Hi Hx j Hj. destruct (Nat.eq_dec i j) as [->|Hn].
  - by rewrite list_lookup_total_insert_eq.
  - rewrite list_lookup_total_insert_ne by done. apply Ha. lia.
Qed.

Lemma push_up_spec l n i :
  bounded (2 ^ 21) l L -> (forall j, (j < i)%nat -> l !!! j <= 2 ^ 20 + prefix d (S j)) ->
  (forall j, (i <= j < L)%nat -> l !!! j <= 2 ^ 20) ->
  (1 <= i)%nat -> (i + n = L)%nat -> above l i ->
  exists l', push_up l d n i = Ok l' /\ bounded (2 ^ 21) l' L /\ above l' L.
Proof using Hok.
  assert (prefix d (S L) <= 2 ^ 15) as Hs by apply Hok.
  revert l i. induction n as [|n IH]; intros l i Hbd Hlow Hhigh Hi Hn Ha; cbn [push_up].
  { exists l. replace L with i by lia. by replace i with L at 1 by lia. }
  pose proof Hbd as [Hlen Hb].
  rewrite (fetch_total l (Z.of_nat i) i), (fetch_total l (Z.of_nat i - 1) (pred i)) by lia.
  destruct (delta_fetch (Z.of_nat i) i eq_refl ltac:(lia)) as [-> Hd]. rewrite !bind_Ok.
  pose proof (Hlow (pred i) ltac:(lia)) as Hy. pose proof (Ha (pred i) ltac:(lia)) as Hya.
  pose proof (Hhigh i ltac:(lia)) as Hx. pose proof (Hb i ltac:(lia)) as Hxb.
  replace (S (pred i)) with i in Hy, Hya by lia.
  pose proof (prefix_mono i (S i) ltac:(lia) ltac:(lia)) as Hm1.
  pose proof (prefix_mono (S i) (S L) ltac:(lia) ltac:(lia)) as Hm2.
  assert (prefix d (S i) = prefix d i + d !!! i) as Hp by done.
  rewrite add_s32_ok by (unfold INT32_MIN, INT32_MAX; lia). rewrite bind_Ok, store_at_ok by lia.
  rewrite bind_Ok, Nat2Z.id, SKP_max_spec. set (x := Z.max _ _).
  assert (prefix d (S i) <= x <= 2 ^ 20 + prefix d (S i)) as Hx' by (subst x; lia).
  apply (IH _ (S i)); [apply bounded_insert; [done|lia]| | |lia|lia|apply above_insert; [done|lia|lia]].
  - intros j Hj. destruct (Nat.eq_dec i j) as [->|Hne].
    + rewrite list_lookup_total_insert_eq by lia. lia.
    + rewrite list_lookup_total_insert_ne by done. apply Hlow. lia.
  - intros j Hj. rewrite list_lookup_total_insert_ne by lia. apply Hhigh. lia.
Qed.

Lemma gap_insert l i j x : i <> j -> i <> pred j -> (i <> pred L \/ j <> L) ->
  gap (<[i := x]> l) d L j = gap l d L j.
Proof using Type.
  intros H1 H2 H3. unfold gap. destruct (Nat.eqb_spec j 0%nat) as [->|Hj].
  - by rewrite list_lookup_total_insert_ne.
  - destruct (Nat.eqb_spec j L) as [->|Hl].
    + rewrite list_lookup_total_insert_ne by lia. done.
    + by rewrite !list_lookup_total_insert_ne.
Qed.

Lemma push_down_spec l n :
  bounded (2 ^ 21) l L -> above l L -> (n < L)%nat -> (forall j, (n < j <= L)%nat -> 0 <= gap l d L j) ->
  exists l', push_down l d n = Ok l' /\ length l' = L /\ spaced l' d L.
Proof using Hok.
  revert l. induction n as [|n IH]; intros l Hbd Ha Hn Hg; cbn [push_down].
  { exists l. split_and!; [done|apply Hbd|]. intros j Hj. destruct (Nat.eq_dec j 0%nat) as [->|]; [|apply Hg; lia].
    unfold gap. cbn. pose proof (Ha 0%nat ltac:(lia)) as H0. cbn in H0. lia. }
  pose proof Hbd as [Hlen Hb].
  rewrite (fetch_total l (Z.of_nat n) n), (fetch_total l (Z.of_nat n + 1) (S n)) by lia.
  destruct (delta_fetch (Z.of_nat n + 1) (S n) ltac:(lia) ltac:(lia)) as [-> Hd]. rewrite !bind_Ok.
  pose proof (Hb n ltac:(lia)) as Hx. pose proof (Hb (S n) ltac:(lia)) as Hy.
  rewrite sub_s32_ok by (unfold INT32_MIN, INT32_MAX; lia). rewrite bind_Ok, store_at_ok by lia.
  rewrite bind_Ok, Nat2Z.id, SKP_min_spec. set (x := Z.min _ _).
  pose proof (Ha n ltac:(lia)) as Han. pose proof (Ha (S n) ltac:(lia)) as Hasn.
  assert (prefix d (S (S n)) = prefix d (S n) + d !!! S n) as Hp by done.
  pose proof (prefix_mono 0 (S n) ltac:(lia) ltac:(lia)) as Hp0.
  assert (prefix d (S n) <= x <= l !!! S n - d !!! S n) as Hx' by (subst x; lia).
  apply IH; [apply bounded_insert; [done|lia]| |lia|].
  - intros j Hj. destruct (Nat.eq_dec n j) as [->|Hne].
    + rewrite list_lookup_total_insert_eq by lia. lia.
    + rewrite list_lookup_total_insert_ne by done. by apply Ha.
  - intros j Hj. destruct (Nat.eq_dec j (S n)) as [->|Hne]; [|rewrite gap_insert by lia; apply Hg; lia].
    unfold gap. rewrite (proj2 (Nat.eqb_neq (S n) 0)), (proj2 (Nat.eqb_neq (S n) L)) by lia. cbn [pred].
    rewrite list_lookup_total_insert_ne, list_lookup_total_insert_eq by lia. lia.
Qed.

Lemma bounded_Forall b l : bounded b l L <-> length l = L /\ Forall (fun x => - b <= x <= b) l.
Proof using Type.
  split; intros [Hlen Hb]; (split; [done|]).
  - apply Forall_lookup. intros i x Hx. pose proof (lookup_lt_Some _ _ _ Hx) as Hi.
    apply list_lookup_total_correct in Hx. rewrite <- Hx. apply Hb. lia.
  - intros i Hi. rewrite Forall_lookup in Hb. apply (Hb i). apply list_lookup_lookup_total_lt. lia.
Qed.

Lemma fall_back_spec l :
  bounded (2 ^ 20) l L -> exists l', fall_back l d L = Ok l' /\ length l' = L /\ spaced l' d L.
Proof using Hok.
  intros Hbd. pose proof Hbd as [Hlen _]. assert (1 <= L)%nat as HL by apply Hok.
  assert (prefix d (S L) <= 2 ^ 15) as Hs by apply Hok.
  destruct (sort_all_spec l) as (s & E & Hp & _); [intros ->; cbn in Hlen; lia|].
  unfold fall_back. rewrite Hlen in E. rewrite E, bind_Ok.
  apply bounded_Forall in Hbd as [_ Hf]. rewrite <- Hp in Hf.
  assert (bounded (2 ^ 20) s L) as Hbs by (apply bounded_Forall; split; [by rewrite Hp|done]).
  clear Hf Hp E l Hlen. pose proof Hbs as [Hlen Hb].
  rewrite (fetch_total s 0 0) by lia. destruct (delta_fetch 0 0%nat eq_refl ltac:(lia)) as [-> Hd0].
  rewrite !bind_Ok, store_at_ok by lia. rewrite bind_Ok, SKP_max_spec. change (Z.to_nat 0) with 0%nat.
  set (x := Z.max _ _). pose proof (Hb 0%nat ltac:(lia)) as H0.
  assert (prefix d 1 = d !!! 0%nat) as Hp1 by (cbn; lia).
  destruct (push_up_spec (<[0%nat := x]> s) (L - 1) 1) as (u & -> & Hu & Ha).
  { apply bounded_insert; [split; [done|]|subst x; lia]. intros j Hj. pose proof (Hb j Hj). lia. }
  { intros j Hj. assert (j = 0%nat) as -> by lia. rewrite list_lookup_total_insert_eq by lia. rewrite Hp1. subst x. lia. }
  { intros j Hj. rewrite list_lookup_total_insert_ne by lia. apply Hb. lia. }
  { done. } { lia. }
  { apply above_insert; [intros j Hj; lia|lia|]. rewrite Hp1. subst x. lia. }
  rewrite bind_Ok. pose proof Hu as [Hul Hub].
  rewrite (fetch_total u (Z.of_nat L - 1) (pred L)) by lia.
  destruct (delta_fetch (Z.of_nat L) L eq_refl ltac:(lia)) as [-> HdL]. rewrite !bind_Ok.
  rewrite sub_s32_ok by (unfold INT32_MIN, INT32_MAX; lia). rewrite bind_Ok, store_at_ok by lia.
  rewrite bind_Ok, SKP_min_spec. replace (Z.to_nat (Z.of_nat L - 1)) with (pred L) by lia.
  set (y := Z.min _ _). pose proof (Ha (pred L) ltac:(lia)) as Hal. replace (S (pred L)) with L in Hal by lia.
  assert (prefix d (S L) = prefix d L + d !!! L) as HpL by done.
  pose proof (prefix_mono 0 L ltac:(lia) ltac:(lia)) as Hp0.
  assert (prefix d L <= y <= 2 ^ 15 - d !!! L) as Hy by (subst y; lia).
  replace (L - 1)%nat with (pred L) by lia.
  apply push_down_spec; [apply bounded_insert; [done|lia]| |lia|].
  - intros j Hj. destruct (Nat.eq_dec (pred L) j) as [<-|Hne].
    + rewrite list_lookup_total_insert_eq by lia. replace (S (pred L)) with L by lia. lia.
    + rewrite list_lookup_total_insert_ne by done. by apply Ha.
  - intros j Hj. assert (j = L) as -> by lia. unfold gap.
    rewrite (proj2 (Nat.eqb_neq L 0)), Nat.eqb_refl by lia.
    rewrite list_lookup_total_insert_eq by lia. lia.
Qed.

(** The loop of 20 moves, or the method behind it. *)
Lemma stabilize_spec l :
  bounded (2 ^ 20) l L -> exists l', SKP_Silk_NLSF_stabilize l d L = Ok l' /\ length l' = L /\ spaced l' d L.
Proof using Hok.
  unfold SKP_Silk_NLSF_stabilize. generalize MAX_LOOPS as loops. intros loops. revert l.
  induction loops as [|loops IH]; intros l Hbd; cbn [stabilize_loop]; [by apply fall_back_spec|].
  destruct (smallest_distance_spec (2 ^ 20) l Hbd ltac:(lia)) as (m & J & -> & HJ & Hm). rewrite bind_Ok.
  destruct (Z.leb_spec 0 m).
  - exists l. split_and!; [done|apply Hbd|]. intros j Hj. pose proof (Hm j Hj). lia.
  - destruct (move_spec l J Hbd HJ) as (l' & -> & Hbd'). rewrite bind_Ok. by apply IH.
Qed.

(** The values are in order, and inside the scale. *)
Lemma spaced_range l i : spaced l d L -> (i < L)%nat -> prefix d (S i) <= l !!! i <= 2 ^ 15 - d !!! L.
Proof using Hok.
  intros Hs Hi. split.
  - induction i as [|i IH].
    + pose proof (Hs 0%nat ltac:(lia)) as H0. unfold gap in H0. cbn in *. lia.
    + pose proof (Hs (S i) ltac:(lia)) as H0. unfold gap in H0.
      rewrite (proj2 (Nat.eqb_neq (S i) 0)), (proj2 (Nat.eqb_neq (S i) L)) in H0 by lia. cbn [pred] in H0.
      specialize (IH ltac:(lia)). change (prefix d (S (S i))) with (prefix d (S i) + d !!! S i). lia.
  - assert (forall n, (n < L)%nat -> l !!! (L - 1 - n)%nat <= 2 ^ 15 - d !!! L) as Hdown.
    { induction n as [|n IH]; intros Hn.
      - pose proof (Hs L ltac:(lia)) as H0. unfold gap in H0.
        rewrite (proj2 (Nat.eqb_neq L 0)), Nat.eqb_refl in H0 by lia.
        replace (L - 1 - 0)%nat with (pred L) by lia. lia.
      - specialize (IH ltac:(lia)). pose proof (Hs (L - 1 - n)%nat ltac:(lia)) as H0. unfold gap in H0.
        rewrite (proj2 (Nat.eqb_neq (L - 1 - n) 0)), (proj2 (Nat.eqb_neq (L - 1 - n) L)) in H0 by lia.
        replace (pred (L - 1 - n)) with (L - 1 - S n)%nat in H0 by lia.
        assert (0 <= d !!! (L - 1 - n)%nat) by (apply Hok; lia). lia. }
    replace i with (L - 1 - (L - 1 - i))%nat by lia. apply Hdown. lia.
Qed.
End stabilize.

(** ** The codebooks *)

(** Every stage lies inside the codebook, the minimal distances leave room. *)
Definition deltas_b (d : list Z) (L : nat) : bool :=
  (length d =? S L)%nat && (1 <=? L)%nat && forallb (Z.leb 0) d && (prefix d (S L) <=? 2 ^ 15).
Definition stage_b (cb : SKP_Silk_NLSF_CB_struct) (order : nat) (s : SKP_Silk_NLSF_CBS) : bool :=
  (1 <=? nVectors s) && (nVectors s <=? 128) && (0 <=? CB_NLSF_Q15 s) &&
  (CB_NLSF_Q15 s + nVectors s * Z.of_nat order <=? Z.of_nat (length (CB cb))).
Definition codebook_b (cb : SKP_Silk_NLSF_CB_struct) (order : nat) : bool :=
  (Z.of_nat (length (CBStages cb)) =? nStages cb) && (1 <=? nStages cb) && (nStages cb <=? 10) &&
  (order <=? 16)%nat && forallb (stage_b cb order) (CBStages cb) &&
  forallb (fun x => (- 2 ^ 15 <=? x) && (x <=? 2 ^ 15)) (CB cb) && deltas_b (NDeltaMin_Q15 cb) order.

(** The codebooks, and the order each is for. *)
Inductive codebook : SKP_Silk_NLSF_CB_struct -> nat -> Prop :=
  | voiced_10 : codebook SKP_Silk_NLSF_CB0_10 10
  | unvoiced_10 : codebook SKP_Silk_NLSF_CB1_10 10
  | voiced_16 : codebook SKP_Silk_NLSF_CB0_16 16
  | unvoiced_16 : codebook SKP_Silk_NLSF_CB1_16 16.

Lemma codebooks cb order : codebook cb order -> codebook_b cb order = true.
Proof. destruct 1; vm_compute; reflexivity. Qed.

(** An index for each stage. *)
Definition indices_ok (cb : SKP_Silk_NLSF_CB_struct) (idx : list Z) : Prop :=
  Forall2 (fun s i => 0 <= i < nVectors s) (CBStages cb) idx.

Lemma deltas_b_ok d L : deltas_b d L = true -> deltas_ok d L.
Proof.
  unfold deltas_b. rewrite !andb_true_iff, Nat.eqb_eq, Nat.leb_le, Z.leb_le. intros (((Hl & HL) & Hd) & Hs).
  split_and!; [done|done| |done]. intros i Hi. rewrite forallb_forall in Hd. apply Z.leb_le, Hd.
  apply list_elem_of_In. apply list_elem_of_lookup. exists i. apply list_lookup_lookup_total_lt. lia.
Qed.

Section decode.
Context (cb : SKP_Silk_NLSF_CB_struct) (order : nat) (Hcb : codebook cb order).

Lemma codebook_facts :
  Z.of_nat (length (CBStages cb)) = nStages cb /\ 1 <= nStages cb <= 10 /\ (order <= 16)%nat /\
  Forall (fun s => stage_b cb order s = true) (CBStages cb) /\
  Forall (fun x => - 2 ^ 15 <= x <= 2 ^ 15) (CB cb) /\ deltas_ok (NDeltaMin_Q15 cb) order.
Proof using Hcb.
  pose proof (codebooks cb order Hcb) as H. unfold codebook_b in H. rewrite !andb_true_iff in H.
  destruct H as ((((((H1 & H2) & H3) & H4) & H5) & H6) & H7). split_and!.
  - by apply Z.eqb_eq.
  - by apply Z.leb_le.
  - by apply Z.leb_le.
  - by apply Nat.leb_le.
  - rewrite Forall_forall. intros s Hs. rewrite forallb_forall in H5. by apply H5, list_elem_of_In.
  - rewrite Forall_forall. intros x Hx. rewrite forallb_forall in H6.
    specialize (H6 x ltac:(by apply list_elem_of_In)). apply andb_true_iff in H6 as [Ha%Z.leb_le Hb%Z.leb_le]. done.
  - by apply deltas_b_ok.
Qed.

Lemma add_vector_spec b l pos :
  Forall (fun x => - b <= x <= b) l -> 0 <= b <= 2 ^ 20 -> 0 <= pos ->
  pos + Z.of_nat (length l) <= Z.of_nat (length (CB cb)) ->
  exists l', add_vector l (CB cb) pos = Ok l' /\ length l' = length l /\
    Forall (fun x => - (b + 2 ^ 15) <= x <= b + 2 ^ 15) l'.
Proof using Hcb.
  destruct codebook_facts as (_ & _ & _ & _ & Hc & _). rewrite Forall_lookup in Hc.
  intros Hl Hb. revert pos. induction Hl as [|x l Hx _ IH]; intros pos H0 Hp; cbn [add_vector].
  - by exists [].
  - cbn [length] in Hp. destruct (lookup_lt_is_Some_2 (CB cb) (Z.to_nat pos) ltac:(lia)) as [c Ec].
    rewrite (fetch_ok _ _ c) by done. rewrite bind_Ok. specialize (Hc _ _ Ec).
    rewrite add_s32_ok by (unfold INT32_MIN, INT32_MAX; lia). rewrite bind_Ok.
    destruct (IH (pos + 1)) as (l' & -> & Hlen & Hl'); [lia|lia|]. rewrite bind_Ok.
    exists (x + c :: l'). split_and!; [done|cbn; lia|]. constructor; [lia|done].
Qed.

Lemma element_spec s i : stage_b cb order s = true -> 0 <= i < nVectors s ->
  element i order = Ok (i * Z.of_nat order) /\ SKP_MUL i (Z.of_nat order) = Ok (i * Z.of_nat order) /\
  0 <= CB_NLSF_Q15 s + i * Z.of_nat order /\
  CB_NLSF_Q15 s + i * Z.of_nat order + Z.of_nat order <= Z.of_nat (length (CB cb)).
Proof using Hcb.
  destruct codebook_facts as (_ & _ & Ho & _). unfold stage_b. rewrite !andb_true_iff, !Z.leb_le.
  intros (((H1 & H2) & H3) & H4) Hi. assert (0 <= i * Z.of_nat order <= 127 * 16) by nia.
  split_and!; [| |lia|nia].
  - unfold element. destruct (Nat.eqb_spec order 16) as [->|_].
    + rewrite shl_s32_ok by (unfold INT32_MIN, INT32_MAX; lia). f_equal; lia.
    + unfold SKP_SMULBB. by rewrite !wrap_s_id by lia.
  - unfold SKP_MUL. by rewrite int32_ok by (unfold INT32_MIN, INT32_MAX; lia).
Qed.

Lemma add_stages_spec idx n s b l :
  indices_ok cb idx -> (s + n = length (CBStages cb))%nat -> length l = order ->
  Forall (fun x => - b <= x <= b) l -> 0 <= b -> b + Z.of_nat n * 2 ^ 15 <= 2 ^ 20 ->
  exists l', add_stages cb n s l idx order = Ok l' /\ length l' = order /\
    Forall (fun x => - 2 ^ 20 <= x <= 2 ^ 20) l'.
Proof using Hcb.
  intros Hidx. revert s b l. induction n as [|n IH]; intros s b l Hs Hl Hf Hb Hbn; cbn [add_stages].
  - exists l. split_and!; [done|done|]. eapply Forall_impl; [exact Hf|]. cbn. lia.
  - destruct codebook_facts as (_ & _ & _ & Hst & _). unfold indices_ok in Hidx.
    destruct (lookup_lt_is_Some_2 (CBStages cb) s ltac:(lia)) as [st Est].
    destruct (Forall2_lookup_l _ _ _ _ _ Hidx Est) as (i & Ei & Hi).
    rewrite (fetch_ok _ _ st), (fetch_ok _ _ i) by (rewrite ?Nat2Z.id; first [lia|done]). rewrite !bind_Ok.
    rewrite Forall_lookup in Hst. destruct (element_spec st i (Hst _ _ Est) Hi) as (-> & _ & H0 & H1).
    rewrite bind_Ok. destruct (add_vector_spec b l (CB_NLSF_Q15 st + i * Z.of_nat order) Hf) as (l' & -> & Hl' & Hf');
      [lia|lia|rewrite Hl; lia|]. rewrite bind_Ok. apply (IH (S s) (b + 2 ^ 15)); [lia|by rewrite Hl'|done|lia|lia].
Qed.

Lemma MSVQ_decode_spec idx :
  indices_ok cb idx -> exists l, SKP_Silk_NLSF_MSVQ_decode cb idx order = Ok l /\ length l = order /\
    spaced l (NDeltaMin_Q15 cb) order.
Proof using Hcb.
  intros Hidx. destruct codebook_facts as (Hn & Hn1 & Ho & Hst & _ & Hd). unfold SKP_Silk_NLSF_MSVQ_decode.
  destruct (lookup_lt_is_Some_2 (CBStages cb) 0%nat ltac:(lia)) as [st Est].
  destruct (Forall2_lookup_l _ _ _ _ _ Hidx Est) as (i & Ei & Hi).
  rewrite (fetch_ok _ _ st), (fetch_ok _ _ i) by done. rewrite !bind_Ok. rewrite Forall_lookup in Hst.
  destruct (element_spec st i (Hst _ _ Est) Hi) as (_ & -> & H0 & H1). rewrite bind_Ok.
  destruct (add_vector_spec 0 (replicate order 0) (CB_NLSF_Q15 st + i * Z.of_nat order)) as (l0 & -> & Hl0 & Hf0).
  { apply Forall_replicate. lia. } { lia. } { lia. } { rewrite length_replicate. lia. }
  rewrite bind_Ok. rewrite length_replicate in Hl0.
  destruct (add_stages_spec idx (Z.to_nat (nStages cb) - 1) 1 (2 ^ 15) l0 Hidx) as (l1 & -> & Hl1 & Hf1).
  { lia. } { done. } { eapply Forall_impl; [exact Hf0|]. cbn. lia. } { lia. } { lia. }
  rewrite bind_Ok. apply stabilize_spec; [done|]. by apply bounded_Forall.
Qed.
End decode.

(** C35.  The decoded frequencies stand for a stable filter.  Whatever indices of its
    codebook a frame carries, decoding them stays inside the codebook and overflows
    nowhere, and the result keeps the minimal distances between neighbours and to
    both ends of the scale: it is in order, and inside the table of cosines.  The
    same holds of the stabiliser on any vector of numbers below 2^20, whether its 20
    moves are enough or the method behind them is needed. *)
Theorem decoded_frequencies_stable cb order :
  codebook cb order ->
  (forall idx, indices_ok cb idx ->
   exists l, SKP_Silk_NLSF_MSVQ_decode cb idx order = Ok l /\ length l = order /\
     spaced l (NDeltaMin_Q15 cb) order /\ forall i, (i < order)%nat -> 0 <= l !!! i <= 32767) /\
  (forall l, bounded (2 ^ 20) l order ->
   exists l', SKP_Silk_NLSF_stabilize l (NDeltaMin_Q15 cb) order = Ok l' /\ length l' = order /\
     spaced l' (NDeltaMin_Q15 cb) order).
Proof.
  intros Hcb. destruct (codebook_facts _ _ Hcb) as (_ & _ & _ & _ & _ & Hd). split.
  - intros idx Hidx. destruct (MSVQ_decode_spec _ _ Hcb _ Hidx) as (l & E & Hl & Hs). exists l.
    split_and!; [done..|]. intros i Hi. pose proof (spaced_range _ _ Hd l i Hs Hi) as Hr.
    pose proof (prefix_mono _ _ Hd 0 (S i) ltac:(lia) ltac:(lia)) as H0.
    assert (1 <= NDeltaMin_Q15 cb !!! order) by (destruct Hcb; vm_compute; discriminate). lia.
  - by apply stabilize_spec.
Qed.

(** Indices of an unvoiced frame; and a vector that 20 moves do not bring in order. *)
Lemma decoded_frequencies_stable_witness :
  (SKP_Silk_NLSF_MSVQ_decode SKP_Silk_NLSF_CB1_10 [31; 7; 7; 7; 7; 7] 10 =
     Ok [4019; 6477; 9202; 12229; 15683; 18417; 25944; 29969; 31778; 31831] /\
   SKP_Silk_NLSF_stabilize [100000; -500000; 3; 4; 5; 6; 7; -9; 33000; 10] SKP_Silk_NLSF_MSVQ_CB0_10_ndelta_min_Q15 10 =
     Ok [563; 566; 588; 608; 611; 614; 746; 865; 16462; 16548]) /\
  (forall idx, indices_ok SKP_Silk_NLSF_CB1_10 idx ->
   exists l, SKP_Silk_NLSF_MSVQ_decode SKP_Silk_NLSF_CB1_10 idx 10 = Ok l /\ length l = 10%nat /\
     spaced l (NDeltaMin_Q15 SKP_Silk_NLSF_CB1_10) 10 /\ forall i, (i < 10)%nat -> 0 <= l !!! i <= 32767) /\
  (forall l, bounded (2 ^ 20) l 10 ->
   exists l', SKP_Silk_NLSF_stabilize l (NDeltaMin_Q15 SKP_Silk_NLSF_CB1_10) 10 = Ok l' /\ length l' = 10%nat /\
     spaced l' (NDeltaMin_Q15 SKP_Silk_NLSF_CB1_10) 10).
Proof.
  split; [split; vm_compute; reflexivity|]. exact (decoded_frequencies_stable SKP_Silk_NLSF_CB1_10 10 unvoiced_10).
Defined.
