(* ===== verification/SilkLpc.v ===== *)
(** * Prediction filters of the SILK codec

    [jni/silk/src/SKP_Silk_NLSF2A.c], [SKP_Silk_NLSF2A_stable.c] and
    [SKP_Silk_LPC_inv_pred_gain.c]: from the line spectral frequencies of a frame to
    the coefficients of a filter that is tested to be stable. *)
From Stdlib Require Import ZArith Lia.
From stdpp Require Import base list.
From S2P Require Import Prelude.
From S2P Require Import SilkRange.
From S2P Require Import SilkMath.
From S2P Require Import SilkTables.
From S2P Require Import SilkNlsf.

Open Scope Z_scope.

(** ** Frequencies to coefficients *)

(** [(SKP_int32)SKP_RSHIFT_ROUND64( SKP_SMULL( f, x ), 20 )] *)
Definition mul_Q20 (f x : Z) : Z := s32 (SKP_RSHIFT_ROUND (f * x) 20).

(** [for( n = k; n > 1; n-- ) out[ n ] += out[ n - 2 ] - ...] *)
Fixpoint find_poly_inner (out : list Z) (ftmp : Z) (n : nat) : res (list Z) :=
  match n with
  | S (S m as n1) =>
      x ← fetch out (Z.of_nat n1 + 1);
      y ← fetch out (Z.of_nat m);
      z ← fetch out (Z.of_nat n1);
      t ← sub_s32 y (mul_Q20 ftmp z);
      x ← add_s32 x t;
      out ← store_at out (Z.of_nat n1 + 1) x;
      find_poly_inner out ftmp n1
  | _ => Ok out
  end.

Fixpoint find_poly_loop (out cLSF : list Z) (n k : nat) : res (list Z) :=
  match n with
  | O => Ok out
  | S n =>
      ftmp ← fetch cLSF (2 * Z.of_nat k);
      y ← fetch out (Z.of_nat k - 1);
      z ← fetch out (Z.of_nat k);
      y ← shl_s32 y 1;
      t ← sub_s32 y (mul_Q20 ftmp z);
      out ← store_at out (Z.of_nat k + 1) t;
      out ← find_poly_inner out ftmp k;
      x ← fetch out 1;
      x ← sub_s32 x ftmp;
      out ← store_at out 1 x;
      find_poly_loop out cLSF n (S k)
  end.

(** Nothing of [out] is read before it is written. *)
Definition SKP_Silk_NLSF2A_find_poly (cLSF : list Z) (dd : nat) : res (list Z) :=
  let out := replicate (S dd) 0 in
  out ← store_at out 0 (2 ^ 20);
  c ← fetch cLSF 0;
  out ← store_at out 1 (- c);
  find_poly_loop out cLSF (dd - 1) 1.

(** [2 * cos], by the table and a linear interpolation. *)
Definition cos_LSF_Q20 (x : Z) : res Z :=
  let f_int := Z.shiftr x 8 in
  s ← shl_s32 f_int 8;
  let f_frac := x - s in
  cos_val ← fetch SKP_Silk_LSFCosTab_FIX_Q12 f_int;
  next ← fetch SKP_Silk_LSFCosTab_FIX_Q12 (f_int + 1);
  let delta := next - cos_val in
  c ← shl_s32 cos_val 8;
  p ← SKP_MUL delta f_frac;
  add_s32 c p.

Fixpoint cos_LSFs (n : nat) (NLSF : list Z) : res (list Z) :=
  match n, NLSF with
  | O, _ => Ok []
  | S n, x :: NLSF => c ← cos_LSF_Q20 x; l ← cos_LSFs n NLSF; Ok (c :: l)
  | S _, [] => Err OutOfBounds
  end.

(** Even and odd polynomials to coefficients, both ends towards the middle. *)
Fixpoint coefs_loop (a_int32 P Q : list Z) (d n k : nat) : res (list Z) :=
  match n with
  | O => Ok a_int32
  | S n =>
      p1 ← fetch P (Z.of_nat k + 1);
      p0 ← fetch P (Z.of_nat k);
      Ptmp ← add_s32 p1 p0;
      q1 ← fetch Q (Z.of_nat k + 1);
      q0 ← fetch Q (Z.of_nat k);
      Qtmp ← sub_s32 q1 q0;
      s ← add_s32 Ptmp Qtmp;
      a_int32 ← store_at a_int32 (Z.of_nat k) (- SKP_RSHIFT_ROUND s 9);
      t ← sub_s32 Qtmp Ptmp;
      a_int32 ← store_at a_int32 (Z.of_nat d - Z.of_nat k - 1) (SKP_RSHIFT_ROUND t 9);
      coefs_loop a_int32 P Q d n (S k)
  end.

(** The largest magnitude, and where it is; [idx] stays as it was when all are 0. *)
Fixpoint max_abs (a : list Z) (k maxabs idx : Z) : Z * Z :=
  match a with
  | [] => (maxabs, idx)
  | x :: a =>
      let absval := SKP_abs x in
      if maxabs <? absval then max_abs a (k + 1) absval k else max_abs a (k + 1) maxabs idx
  end.

(** At most ten reductions; the flag is [i == 10]. *)
Fixpoint limit_coefs (n : nat) (a_int32 : list Z) (idx : Z) : res (bool * list Z) :=
  match n with
  | O => Ok (true, a_int32)
  | S n =>
      let '(maxabs, idx) := max_abs a_int32 0 0 idx in
      if 32767 <? maxabs then
        p ← SKP_MUL (Z.shiftr 65470 2) (maxabs - 32767);
        q ← SKP_MUL maxabs (idx + 1);
        r ← SKP_DIV32 p (Z.shiftr q 2);
        sc_Q16 ← sub_s32 65470 r;
        a_int32 ← SKP_Silk_bwexpander_32 a_int32 sc_Q16;
        limit_coefs n a_int32 idx
      else Ok (false, a_int32)
  end.

(** The assertions are not compiled. *)
Definition SKP_Silk_NLSF2A (NLSF : list Z) (d : nat) : res (list Z) :=
  cos_LSF ← cos_LSFs d NLSF;
  let dd := Nat.div d 2 in
  P ← SKP_Silk_NLSF2A_find_poly cos_LSF dd;
  Q ← SKP_Silk_NLSF2A_find_poly (drop 1 cos_LSF) dd;
  a_int32 ← coefs_loop (replicate d 0) P Q d dd 0;
  limit_coefs 10 a_int32 0 ≫= fun '((last, a_int32) : bool * list Z) =>
  let a_int32 := if last then map SKP_SAT16 a_int32 else a_int32 in
  Ok (map (wrap_s 16) a_int32).

(** ** The test of stability *)

Definition QA : Z := 16.
Definition A_LIMIT : Z := 65520.

(** [Anew_QA] from [Aold_QA]: the first [k] coefficients. *)
Fixpoint update_coefs (Aold_QA : list Z) (rc_Q31 rc_mult2 headrm : Z) (k n count : nat) : res (list Z) :=
  match count with
  | O => Ok []
  | S count =>
      x ← fetch Aold_QA (Z.of_nat n);
      y ← fetch Aold_QA (Z.of_nat k - Z.of_nat n - 1);
      s ← shl_s32 (SKP_SMMUL y rc_Q31) 1;
      tmp_QA ← sub_s32 x s;
      a ← shl_s32 (SKP_SMMUL tmp_QA rc_mult2) (16 - headrm);
      l ← update_coefs Aold_QA rc_Q31 rc_mult2 headrm k (S n) count;
      Ok (a :: l)
  end.

(** The reflection coefficient and its share of the gain; [None]: unstable. *)
Definition reflection (a_k invGain_Q30 : Z) : res (option (Z * Z * Z)) :=
  if (A_LIMIT <? a_k) || (a_k <? - A_LIMIT) then Ok None
  else
    s ← shl_s32 a_k (31 - QA);
    rc_Q31 ← int32 (- s);
    rc_mult1_Q30 ← sub_s32 (Z.shiftr INT32_MAX 1) (SKP_SMMUL rc_Q31 rc_Q31);
    g ← shl_s32 (SKP_SMMUL invGain_Q30 rc_mult1_Q30) 2;
    Ok (Some (rc_Q31, rc_mult1_Q30, g)).

(** 1 when unstable, and the inverse gain. *)
Fixpoint pred_gain_loop (k : nat) (Anew_QA : list Z) (invGain_Q30 : Z) : res (Z * Z) :=
  a_k ← fetch Anew_QA (Z.of_nat k);
  r ← reflection a_k invGain_Q30;
  match r with
  | None => Ok (1, invGain_Q30)
  | Some (rc_Q31, rc_mult1_Q30, g) =>
      match k with
      | O => Ok (0, g)
      | S k1 =>
          rc_mult2 ← SKP_INVERSE32_varQ rc_mult1_Q30 46;
          let headrm := SKP_Silk_CLZ32 rc_mult2 - 1 in
          rc_mult2 ← shl_s32 rc_mult2 headrm;
          Anew_QA ← update_coefs Anew_QA rc_Q31 rc_mult2 headrm k 0 k;
          pred_gain_loop k1 Anew_QA g
      end
  end.

Fixpoint raise (A : list Z) (q : Z) : res (list Z) :=
  match A with [] => Ok [] | x :: A => x ← shl_s32 x q; l ← raise A q; Ok (x :: l) end.

(** [order] is positive. *)
Definition SKP_Silk_LPC_inverse_pred_gain (A_Q12 : list Z) (order : nat) : res (Z * Z) :=
  Anew_QA ← raise (take order A_Q12) (QA - 12);
  pred_gain_loop (order - 1) Anew_QA (2 ^ 30).
Definition SKP_Silk_LPC_inverse_pred_gain_Q13 (A_Q13 : list Z) (order : nat) : res (Z * Z) :=
  Anew_QA ← raise (take order A_Q13) (QA - 13);
  pred_gain_loop (order - 1) Anew_QA (2 ^ 30).

(** ** Both *)

Definition MAX_LPC_STABILIZE_ITERATIONS : nat := 20.

Fixpoint stable_loop (n i : nat) (pAR_Q12 : list Z) (LPC_order : nat) : res (list Z) :=
  match n with
  | O => Ok (replicate LPC_order 0)
  | S n =>
      '(unstable, _) ← SKP_Silk_LPC_inverse_pred_gain pAR_Q12 LPC_order;
      if unstable =? 1 then
        pAR_Q12 ← SKP_Silk_bwexpander pAR_Q12 (65536 - SKP_SMULBB 66 (Z.of_nat i));
        stable_loop n (S i) pAR_Q12 LPC_order
      else Ok pAR_Q12
  end.

Definition SKP_Silk_NLSF2A_stable (pNLSF : list Z) (LPC_order : nat) : res (list Z) :=
  pAR_Q12 ← SKP_Silk_NLSF2A pNLSF LPC_order;
  stable_loop MAX_LPC_STABILIZE_ITERATIONS 0 pAR_Q12 LPC_order.
