(* ===== verification/SilkPulses.v ===== *)
(** * The excitation signal of the SILK codec

    [jni/silk/src/SKP_Silk_encode_pulses.c], [SKP_Silk_decode_pulses.c],
    [SKP_Silk_shell_coder.c] and [SKP_Silk_code_signs.c]: a frame of integers, coded by the
    number of pulses in each block of 16, the way they split in a tree, the bits
    below the coded magnitudes and the signs. *)
From Stdlib Require Import ZArith Lia.
From stdpp Require Import base list.
From S2P Require Import Prelude.
From S2P Require Import SilkRange.
From S2P Require Import SilkMath.
From S2P Require Import SilkTables.

Open Scope Z_scope.

Definition SHELL_CODEC_FRAME_LENGTH : nat := 16.
Definition MAX_FRAME_LENGTH : Z := 480.
Definition N_RATE_LEVELS : nat := 10.
Definition MAX_PULSES : Z := 18.

(** ** The shell coder *)

(** [len] sums of neighbours. *)
Fixpoint combine_pulses (len : nat) (inp : list Z) : res (list Z) :=
  match len with
  | O => Ok []
  | S len =>
      match inp with
      | a :: b :: inp => out ← combine_pulses len inp; Ok (a + b :: out)
      | _ => Err OutOfBounds
      end
  end.

(** [&shell_table[SKP_Silk_shell_code_table_offsets[p]]] *)
Definition shell_cdf (shell_table : list Z) (p : Z) : res (list Z) :=
  off ← fetch SKP_Silk_shell_code_table_offsets p;
  Ok (drop (Z.to_nat off) shell_table).

Definition encode_split (sRC : SKP_Silk_range_coder_state) (p_child1 p : Z) (shell_table : list Z)
    : res SKP_Silk_range_coder_state :=
  if 0 <? p then
    cdf ← shell_cdf shell_table p;
    SKP_Silk_range_encoder sRC p_child1 cdf
  else Ok sRC.

Definition decode_split (sRC : SKP_Silk_range_coder_state) (p : Z) (shell_table : list Z)
    : res (Z * Z * SKP_Silk_range_coder_state) :=
  if 0 <? p then
    let cdf_middle := Z.shiftr p 1 in
    cdf ← shell_cdf shell_table p;
    '(p_child1, sRC) ← SKP_Silk_range_decoder sRC cdf cdf_middle;
    Ok (p_child1, p - p_child1, sRC)
  else Ok (0, 0, sRC).

(** [encode_split(sRC, children[2 * i], parents[i], shell_table)] *)
Definition encode_node (children parents : list Z) (i : Z) (shell_table : list Z)
    (sRC : SKP_Silk_range_coder_state) : res SKP_Silk_range_coder_state :=
  c ← fetch children (2 * i);
  p ← fetch parents i;
  encode_split sRC c p shell_table.

Definition SKP_Silk_shell_encoder (sRC : SKP_Silk_range_coder_state) (pulses0 : list Z)
    : res SKP_Silk_range_coder_state :=
  pulses1 ← combine_pulses 8 pulses0;
  pulses2 ← combine_pulses 4 pulses1;
  pulses3 ← combine_pulses 2 pulses2;
  pulses4 ← combine_pulses 1 pulses3;
  sRC ← encode_node pulses3 pulses4 0 SKP_Silk_shell_code_table3 sRC;
  sRC ← encode_node pulses2 pulses3 0 SKP_Silk_shell_code_table2 sRC;
  sRC ← encode_node pulses1 pulses2 0 SKP_Silk_shell_code_table1 sRC;
  sRC ← encode_node pulses0 pulses1 0 SKP_Silk_shell_code_table0 sRC;
  sRC ← encode_node pulses0 pulses1 1 SKP_Silk_shell_code_table0 sRC;
  sRC ← encode_node pulses1 pulses2 1 SKP_Silk_shell_code_table1 sRC;
  sRC ← encode_node pulses0 pulses1 2 SKP_Silk_shell_code_table0 sRC;
  sRC ← encode_node pulses0 pulses1 3 SKP_Silk_shell_code_table0 sRC;
  sRC ← encode_node pulses2 pulses3 1 SKP_Silk_shell_code_table2 sRC;
  sRC ← encode_node pulses1 pulses2 2 SKP_Silk_shell_code_table1 sRC;
  sRC ← encode_node pulses0 pulses1 4 SKP_Silk_shell_code_table0 sRC;
  sRC ← encode_node pulses0 pulses1 5 SKP_Silk_shell_code_table0 sRC;
  sRC ← encode_node pulses1 pulses2 3 SKP_Silk_shell_code_table1 sRC;
  sRC ← encode_node pulses0 pulses1 6 SKP_Silk_shell_code_table0 sRC;
  encode_node pulses0 pulses1 7 SKP_Silk_shell_code_table0 sRC.

Definition SKP_Silk_shell_decoder (sRC : SKP_Silk_range_coder_state) (pulses4 : Z)
    : res (list Z * SKP_Silk_range_coder_state) :=
  '(p30, p31, sRC) ← decode_split sRC pulses4 SKP_Silk_shell_code_table3;
  '(p20, p21, sRC) ← decode_split sRC p30 SKP_Silk_shell_code_table2;
  '(p10, p11, sRC) ← decode_split sRC p20 SKP_Silk_shell_code_table1;
  '(p0, p1, sRC) ← decode_split sRC p10 SKP_Silk_shell_code_table0;
  '(p2, p3, sRC) ← decode_split sRC p11 SKP_Silk_shell_code_table0;
  '(p12, p13, sRC) ← decode_split sRC p21 SKP_Silk_shell_code_table1;
  '(p4, p5, sRC) ← decode_split sRC p12 SKP_Silk_shell_code_table0;
  '(p6, p7, sRC) ← decode_split sRC p13 SKP_Silk_shell_code_table0;
  '(p22, p23, sRC) ← decode_split sRC p31 SKP_Silk_shell_code_table2;
  '(p14, p15, sRC) ← decode_split sRC p22 SKP_Silk_shell_code_table1;
  '(p8, p9, sRC) ← decode_split sRC p14 SKP_Silk_shell_code_table0;
  '(pa, pb, sRC) ← decode_split sRC p15 SKP_Silk_shell_code_table0;
  '(p16, p17, sRC) ← decode_split sRC p23 SKP_Silk_shell_code_table1;
  '(pc, pd, sRC) ← decode_split sRC p16 SKP_Silk_shell_code_table0;
  '(pe, pf, sRC) ← decode_split sRC p17 SKP_Silk_shell_code_table0;
  Ok ([p0; p1; p2; p3; p4; p5; p6; p7; p8; p9; pa; pb; pc; pd; pe; pf], sRC).

(** ** The signs *)

Definition SKP_enc_map (a : Z) : Z := Z.shiftr a 15 + 1.
Definition SKP_dec_map (a : Z) : Z := Z.shiftl a 1 - 1.

Definition sign_cdf (sigtype QuantOffsetType RateLevelIndex : Z) : res (list Z) :=
  fetch SKP_Silk_sign_CDF
    (SKP_SMULBB (Z.of_nat N_RATE_LEVELS - 1) (Z.shiftl sigtype 1 + QuantOffsetType) + RateLevelIndex).

Fixpoint encode_signs_loop (sRC : SKP_Silk_range_coder_state) (q : list Z) (length : nat) (cdf : list Z)
    : res SKP_Silk_range_coder_state :=
  match length, q with
  | O, _ => Ok sRC
  | S _, [] => Err OutOfBounds
  | S length, x :: q =>
      sRC ← (if negb (x =? 0) then SKP_Silk_range_encoder sRC (SKP_enc_map x) cdf else Ok sRC);
      encode_signs_loop sRC q length cdf
  end.

Definition SKP_Silk_encode_signs (sRC : SKP_Silk_range_coder_state) (q : list Z) (length : nat)
    (sigtype QuantOffsetType RateLevelIndex : Z) : res SKP_Silk_range_coder_state :=
  cdf ← sign_cdf sigtype QuantOffsetType RateLevelIndex;
  encode_signs_loop sRC q length cdf.

Fixpoint decode_signs_loop (sRC : SKP_Silk_range_coder_state) (q : list Z) (length : nat) (cdf : list Z)
    : res (list Z * SKP_Silk_range_coder_state) :=
  match length, q with
  | O, _ => Ok (q, sRC)
  | S _, [] => Err OutOfBounds
  | S length, x :: q =>
      '(x, sRC) ←
        (if 0 <? x then
           '(data, sRC) ← SKP_Silk_range_decoder sRC cdf 1;
           Ok (x * SKP_dec_map data, sRC)
         else Ok (x, sRC));
      '(q, sRC) ← decode_signs_loop sRC q length cdf;
      Ok (x :: q, sRC)
  end.

Definition SKP_Silk_decode_signs (sRC : SKP_Silk_range_coder_state) (q : list Z) (length : nat)
    (sigtype QuantOffsetType RateLevelIndex : Z) : res (list Z * SKP_Silk_range_coder_state) :=
  cdf ← sign_cdf sigtype QuantOffsetType RateLevelIndex;
  decode_signs_loop sRC q length cdf.

(** ** Encoding the pulses of a frame *)

(** [abs_pulses]: four at a time, from [i], while [i < frame_length]. *)
Fixpoint take_abs (fours : nat) (q : list Z) : res (list Z) :=
  match fours with
  | O => Ok []
  | S fours =>
      match q with
      | a :: b :: c :: d :: q =>
          l ← take_abs fours q;
          Ok (SKP_abs a :: SKP_abs b :: SKP_abs c :: SKP_abs d :: l)
      | _ => Err OutOfBounds
      end
  end.

Definition abs_pulses (q : list Z) (frame_length : nat) : res (list Z) :=
  if MAX_FRAME_LENGTH <? Z.of_nat frame_length then Err OutOfBounds
  else take_abs ((frame_length + 3) / 4) q.

(** [combine_and_check(pulses_comb, in, max, len)], from the [k]-th output on; the
    input [None] is [pulses_comb] itself. *)
Fixpoint combine_and_check_from (k len : nat) (pulses_comb : list Z) (pulses_in : option (list Z))
    (max_pulses : Z) : res (Z * list Z) :=
  match len with
  | O => Ok (0, pulses_comb)
  | S len =>
      let inp := match pulses_in with Some l => l | None => pulses_comb end in
      a ← fetch inp (2 * Z.of_nat k);
      b ← fetch inp (2 * Z.of_nat k + 1);
      if max_pulses <? a + b then Ok (1, pulses_comb)
      else
        pulses_comb ← store_at pulses_comb (Z.of_nat k) (a + b);
        combine_and_check_from (S k) len pulses_comb pulses_in max_pulses
  end.
Definition combine_and_check (pulses_comb : list Z) (pulses_in : option (list Z)) (max_pulses : Z) (len : nat)
    : res (Z * list Z) := combine_and_check_from 0 len pulses_comb pulses_in max_pulses.

(** One look at a block: whether it must be scaled down, and the sum of its pulses. *)
Definition check_block (pulses_comb block : list Z) : res (Z * Z * list Z) :=
  m0 ← fetch SKP_Silk_max_pulses_table 0;
  '(s0, pulses_comb) ← combine_and_check pulses_comb (Some block) m0 8;
  m1 ← fetch SKP_Silk_max_pulses_table 1;
  '(s1, pulses_comb) ← combine_and_check pulses_comb None m1 4;
  m2 ← fetch SKP_Silk_max_pulses_table 2;
  '(s2, pulses_comb) ← combine_and_check pulses_comb None m2 2;
  a ← fetch pulses_comb 0;
  b ← fetch pulses_comb 1;
  m3 ← fetch SKP_Silk_max_pulses_table 3;
  Ok (s0 + s1 + s2 + (if m3 <? a + b then 1 else 0), a + b, pulses_comb).

(** A block: how often it has been halved, its sum, its pulses. *)
Record shell_block := ShellBlock { nRshifts : nat; sum_pulses : Z; block_pulses : list Z }.

(** The loop that halves a block until it can be coded. *)
Fixpoint scale_block (fuel : nat) (n : nat) (pulses_comb block : list Z) : res (shell_block * list Z) :=
  match fuel with
  | O => Diverges
  | S fuel =>
      '(scale_down, sum, pulses_comb) ← check_block pulses_comb block;
      if negb (scale_down =? 0) then
        scale_block fuel (S n) pulses_comb ((fun x => Z.shiftr x 1) <$> block)
      else Ok (ShellBlock n sum block, pulses_comb)
  end.

(** The blocks of the frame; 32 rounds bring every [int] to 0. *)
Fixpoint scale_blocks (iter : nat) (pulses_comb abs_pulses : list Z) : res (list shell_block) :=
  match iter with
  | O => Ok []
  | S iter =>
      '(b, pulses_comb) ← scale_block 33 0 pulses_comb (take SHELL_CODEC_FRAME_LENGTH abs_pulses);
      l ← scale_blocks iter pulses_comb (drop SHELL_CODEC_FRAME_LENGTH abs_pulses);
      Ok (b :: l)
  end.

(** The bits for the sums of the blocks at one rate level. *)
Fixpoint sum_bits (nBits : list Z) (sumBits : Z) (blocks : list shell_block) : res Z :=
  match blocks with
  | [] => Ok sumBits
  | b :: blocks =>
      n ← (if (0 <? nRshifts b)%nat then fetch nBits (MAX_PULSES + 1) else fetch nBits (sum_pulses b));
      sumBits ← add_s32 sumBits n;
      sum_bits nBits sumBits blocks
  end.

(** The search of the cheapest rate level, from the [k]-th, [n] of them. *)
Fixpoint rate_level (n k : nat) (sigtype : Z) (blocks : list shell_block) (minSumBits RateLevelIndex : Z) : res Z :=
  match n with
  | O => Ok RateLevelIndex
  | S n =>
      nBits ← fetch SKP_Silk_pulses_per_block_BITS_Q6 (Z.of_nat k);
      levels ← fetch SKP_Silk_rate_levels_BITS_Q6 sigtype;
      start ← fetch levels (Z.of_nat k);
      sumBits ← sum_bits nBits start blocks;
      if sumBits <? minSumBits then rate_level n (S k) sigtype blocks sumBits (Z.of_nat k)
      else rate_level n (S k) sigtype blocks minSumBits RateLevelIndex
  end.

(** [n] times the same symbol. *)
Fixpoint encode_times (n : nat) (sRC : SKP_Silk_range_coder_state) (data : Z) (cdf : list Z)
    : res SKP_Silk_range_coder_state :=
  match n with
  | O => Ok sRC
  | S n => sRC ← SKP_Silk_range_encoder sRC data cdf; encode_times n sRC data cdf
  end.

Fixpoint encode_sums (psRC : SKP_Silk_range_coder_state) (blocks : list shell_block) (cdf : list Z)
    : res SKP_Silk_range_coder_state :=
  match blocks with
  | [] => Ok psRC
  | b :: blocks =>
      psRC ←
        (if (nRshifts b =? 0)%nat then SKP_Silk_range_encoder psRC (sum_pulses b) cdf
         else
           psRC ← SKP_Silk_range_encoder psRC (MAX_PULSES + 1) cdf;
           last ← fetch SKP_Silk_pulses_per_block_CDF (Z.of_nat N_RATE_LEVELS - 1);
           psRC ← encode_times (nRshifts b - 1) psRC (MAX_PULSES + 1) last;
           SKP_Silk_range_encoder psRC (sum_pulses b) last);
      encode_sums psRC blocks cdf
  end.

Fixpoint encode_shells (psRC : SKP_Silk_range_coder_state) (blocks : list shell_block)
    : res SKP_Silk_range_coder_state :=
  match blocks with
  | [] => Ok psRC
  | b :: blocks =>
      psRC ← (if 0 <? sum_pulses b then SKP_Silk_shell_encoder psRC (block_pulses b) else Ok psRC);
      encode_shells psRC blocks
  end.

(** The lowest bits of a magnitude, from bit [j] down to bit 0. *)
Fixpoint encode_bits (psRC : SKP_Silk_range_coder_state) (abs_q : Z) (j : nat) : res SKP_Silk_range_coder_state :=
  let bit := Z.land (Z.shiftr abs_q (Z.of_nat j)) 1 in
  psRC ← SKP_Silk_range_encoder psRC bit SKP_Silk_lsb_CDF;
  match j with
  | O => Ok psRC
  | S j => encode_bits psRC abs_q j
  end.

Fixpoint encode_block_bits (psRC : SKP_Silk_range_coder_state) (pulses : list Z) (nLS : nat)
    : res SKP_Silk_range_coder_state :=
  match pulses with
  | [] => Ok psRC
  | x :: pulses => psRC ← encode_bits psRC (SKP_abs x) nLS; encode_block_bits psRC pulses nLS
  end.

Fixpoint encode_lsbs (psRC : SKP_Silk_range_coder_state) (blocks : list shell_block) (q : list Z)
    : res SKP_Silk_range_coder_state :=
  match blocks with
  | [] => Ok psRC
  | b :: blocks =>
      psRC ← (if (0 <? nRshifts b)%nat
              then encode_block_bits psRC (take SHELL_CODEC_FRAME_LENGTH q) (nRshifts b - 1) else Ok psRC);
      encode_lsbs psRC blocks (drop SHELL_CODEC_FRAME_LENGTH q)
  end.

Definition SKP_Silk_encode_pulses (psRC : SKP_Silk_range_coder_state) (sigtype QuantOffsetType : Z)
    (q : list Z) (frame_length : nat) : res SKP_Silk_range_coder_state :=
  let iter := (frame_length / SHELL_CODEC_FRAME_LENGTH)%nat in
  abs_pulses ← abs_pulses q frame_length;
  blocks ← scale_blocks iter (replicate 8 0) abs_pulses;
  RateLevelIndex ← rate_level (N_RATE_LEVELS - 1) 0 sigtype blocks INT32_MAX 0;
  rates ← fetch SKP_Silk_rate_levels_CDF sigtype;
  psRC ← SKP_Silk_range_encoder psRC RateLevelIndex rates;
  cdf ← fetch SKP_Silk_pulses_per_block_CDF RateLevelIndex;
  psRC ← encode_sums psRC blocks cdf;
  psRC ← encode_shells psRC blocks;
  psRC ← encode_lsbs psRC blocks q;
  SKP_Silk_encode_signs psRC q frame_length sigtype QuantOffsetType RateLevelIndex.

(** ** Decoding them *)

(** The loop over the indications of further bits: their number, and the sum. *)
Fixpoint decode_sum (fuel : nat) (psRC : SKP_Silk_range_coder_state) (nLshifts : nat) (sum : Z)
    : res (nat * Z * SKP_Silk_range_coder_state) :=
  match fuel with
  | O => Diverges
  | S fuel =>
      if sum =? MAX_PULSES + 1 then
        last ← fetch SKP_Silk_pulses_per_block_CDF (Z.of_nat N_RATE_LEVELS - 1);
        '(sum, psRC) ← SKP_Silk_range_decoder psRC last SKP_Silk_pulses_per_block_CDF_offset;
        decode_sum fuel psRC (S nLshifts) sum
      else Ok (nLshifts, sum, psRC)
  end.

Fixpoint decode_sums (fuel iter : nat) (psRC : SKP_Silk_range_coder_state) (cdf : list Z)
    : res (list (nat * Z) * SKP_Silk_range_coder_state) :=
  match iter with
  | O => Ok ([], psRC)
  | S iter =>
      '(sum, psRC) ← SKP_Silk_range_decoder psRC cdf SKP_Silk_pulses_per_block_CDF_offset;
      '(n, sum, psRC) ← decode_sum fuel psRC 0 sum;
      '(l, psRC) ← decode_sums fuel iter psRC cdf;
      Ok ((n, sum) :: l, psRC)
  end.

Fixpoint decode_shells (psRC : SKP_Silk_range_coder_state) (sums : list (nat * Z))
    : res (list (list Z) * SKP_Silk_range_coder_state) :=
  match sums with
  | [] => Ok ([], psRC)
  | (_, sum) :: sums =>
      '(b, psRC) ← (if 0 <? sum then SKP_Silk_shell_decoder psRC sum
                    else Ok (replicate SHELL_CODEC_FRAME_LENGTH 0, psRC));
      '(l, psRC) ← decode_shells psRC sums;
      Ok (b :: l, psRC)
  end.

(** [n] further bits of a magnitude; the shift of a signed integer must not overflow. *)
Fixpoint decode_bits (n : nat) (psRC : SKP_Silk_range_coder_state) (abs_q : Z)
    : res (Z * SKP_Silk_range_coder_state) :=
  match n with
  | O => Ok (abs_q, psRC)
  | S n =>
      abs_q ← add_s32 abs_q abs_q;
      '(bit, psRC) ← SKP_Silk_range_decoder psRC SKP_Silk_lsb_CDF 1;
      decode_bits n psRC (abs_q + bit)
  end.

Fixpoint decode_block_bits (n : nat) (psRC : SKP_Silk_range_coder_state) (pulses : list Z)
    : res (list Z * SKP_Silk_range_coder_state) :=
  match pulses with
  | [] => Ok ([], psRC)
  | x :: pulses =>
      '(x, psRC) ← decode_bits n psRC x;
      '(l, psRC) ← decode_block_bits n psRC pulses;
      Ok (x :: l, psRC)
  end.

Fixpoint decode_lsbs (psRC : SKP_Silk_range_coder_state) (sums : list (nat * Z)) (blocks : list (list Z))
    : res (list (list Z) * SKP_Silk_range_coder_state) :=
  match sums, blocks with
  | (n, _) :: sums, b :: blocks =>
      '(b, psRC) ← (if (0 <? n)%nat then decode_block_bits n psRC b else Ok (b, psRC));
      '(l, psRC) ← decode_lsbs psRC sums blocks;
      Ok (b :: l, psRC)
  | _, _ => Ok ([], psRC)
  end.

(** The signal, its rate level and the coder.  [q] is the memory of the signal; the
    blocks are stored at its beginning. *)
Definition SKP_Silk_decode_pulses (fuel : nat) (psRC : SKP_Silk_range_coder_state) (sigtype QuantOffsetType : Z)
    (q : list Z) (frame_length : nat) : res (list Z * Z * SKP_Silk_range_coder_state) :=
  rates ← fetch SKP_Silk_rate_levels_CDF sigtype;
  '(RateLevelIndex, psRC) ← SKP_Silk_range_decoder psRC rates SKP_Silk_rate_levels_CDF_offset;
  let iter := (frame_length / SHELL_CODEC_FRAME_LENGTH)%nat in
  if (MAX_FRAME_LENGTH / 16 <? Z.of_nat iter) || (Z.of_nat (length q) <? Z.of_nat (iter * SHELL_CODEC_FRAME_LENGTH))
  then Err OutOfBounds
  else
    cdf ← fetch SKP_Silk_pulses_per_block_CDF RateLevelIndex;
    '(sums, psRC) ← decode_sums fuel iter psRC cdf;
    '(blocks, psRC) ← decode_shells psRC sums;
    '(blocks, psRC) ← decode_lsbs psRC sums blocks;
    let q := (concat blocks ++ drop (iter * SHELL_CODEC_FRAME_LENGTH) q)%list in
    '(q, psRC) ← SKP_Silk_decode_signs psRC q frame_length sigtype QuantOffsetType RateLevelIndex;
    Ok (q, RateLevelIndex, psRC).

(** ** Writing and reading symbols *)

(** The encoder [m] writes the symbols [l]. *)
Definition writes (m : SKP_Silk_range_coder_state -> res SKP_Silk_range_coder_state)
    (l : list (Z * list Z)) : Prop :=
  forall s s', SKP_Silk_range_encoder_multi s l = Ok s' -> m s = Ok s'.

(** The decoder [m] reads them, and delivers [a]. *)
Definition reads {A} (m : SKP_Silk_range_coder_state -> res (A * SKP_Silk_range_coder_state))
    (l : list (Z * list Z)) (a : A) : Prop :=
  forall s rest s', carries s (l ++ rest) s' -> exists s1, m s = Ok (a, s1) /\ carries s1 rest s'.

Lemma writes_nil : writes (fun s => Ok s) [].
Proof. by intros s s'. Qed.

Lemma writes_bind m1 m2 l1 l2 :
  writes m1 l1 -> writes m2 l2 -> writes (fun s => s ← m1 s; m2 s) (l1 ++ l2).
Proof.
  intros H1 H2 s s'. rewrite encoder_multi_app. intros (s1 & E1 & E2)%res_bind_ok.
  by rewrite (H1 _ _ E1), bind_Ok, (H2 _ _ E2).
Qed.

Lemma writes_symbol d prob rest : writes (fun s => SKP_Silk_range_encoder s d (prob ++ rest)) [(d, prob)].
Proof.
  intros s s'. cbn [SKP_Silk_range_encoder_multi]. intros (s1 & E1 & [= ->])%res_bind_ok.
  by apply range_encoder_app.
Qed.

Lemma writes_one d prob : writes (fun s => SKP_Silk_range_encoder s d prob) [(d, prob)].
Proof. pose proof (writes_symbol d prob []) as H. by rewrite app_nil_r in H. Qed.

Lemma reads_nil {A} (a : A) : reads (fun s => Ok (a, s)) [] a.
Proof. intros s rest s' H. by exists s. Qed.

Lemma reads_symbol d prob rest ix :
  start_ok prob ix -> reads (fun s => SKP_Silk_range_decoder s (prob ++ rest) ix) [(d, prob)] d.
Proof.
  intros Hix s l s' Hc. cbn [app] in Hc. inversion_clear Hc as [|? ? ? s1 ? ? Hd Hl].
  exists s1. split; [|done]. by apply range_decoder_app, Hd.
Qed.

Lemma reads_one d prob ix :
  start_ok prob ix -> reads (fun s => SKP_Silk_range_decoder s prob ix) [(d, prob)] d.
Proof. intros H. pose proof (reads_symbol d prob [] ix H) as H'. by rewrite app_nil_r in H'. Qed.

(** ** The shell coder *)

(** The distribution of the splits of [p] pulses. *)
Definition shell_row (table : list Z) (p : Z) : list Z :=
  take (Z.to_nat p + 2) (drop (Z.to_nat (SKP_Silk_shell_code_table_offsets !!! Z.to_nat p)) table).

Definition split_symbols (table : list Z) (c p : Z) : list (Z * list Z) :=
  if 0 <? p then [(c, shell_row table p)] else [].

Lemma shell_cdf_row table p :
  0 <= p <= 18 -> exists rest, shell_cdf table p = Ok (shell_row table p ++ rest).
Proof.
  intros Hp. unfold shell_cdf, shell_row.
  destruct (lookup_lt_is_Some_2 SKP_Silk_shell_code_table_offsets (Z.to_nat p)) as [off E]; [cbn; lia|].
  rewrite (fetch_ok _ p off), bind_Ok, (list_lookup_total_correct _ _ _ E) by first [done|lia].
  set (t := drop (Z.to_nat off) table). exists (drop (Z.to_nat p + 2) t). by rewrite take_drop.
Qed.

Lemma encode_split_writes table c p :
  0 <= p <= 18 -> writes (fun s => encode_split s c p table) (split_symbols table c p).
Proof.
  intros Hp. unfold encode_split, split_symbols. destruct (0 <? p); [|apply writes_nil].
  destruct (shell_cdf_row table p Hp) as [rest ->]. intros s s'. rewrite bind_Ok.
  by apply (writes_symbol c (shell_row table p) rest).
Qed.

Lemma decode_split_reads table c1 c2 :
  0 <= c1 -> 0 <= c2 -> c1 + c2 <= 18 -> Z.of_nat (length (shell_row table (c1 + c2))) = c1 + c2 + 2 ->
  reads (fun s => decode_split s (c1 + c2) table) (split_symbols table c1 (c1 + c2)) (c1, c2).
Proof.
  intros H1 H2 Hp Hl s l s' Hc. unfold decode_split, split_symbols in *.
  destruct (Z.ltb_spec 0 (c1 + c2)) as [Hpos|Hz].
  - destruct (shell_cdf_row table (c1 + c2)) as [rest ->]; [lia|]. rewrite bind_Ok.
    destruct (fun H => reads_symbol c1 (shell_row table (c1 + c2)) rest (Z.shiftr (c1 + c2) 1) H _ _ _ Hc)
      as (s1 & E & Hc1).
    { split; rewrite Z.shiftr_div_pow2; lia. }
    rewrite E, bind_Ok. exists s1. split; [|done]. do 3 f_equal. lia.
  - exists s. assert (c1 = 0 /\ c2 = 0) as [-> ->] by lia. done.
Qed.

(** A block as a tree of sums. *)
Fixpoint total (n : nat) (l : list Z) : Z :=
  match n with
  | O => l !!! O
  | S n => total n (take (2 ^ n) l) + total n (drop (2 ^ n) l)
  end.

Fixpoint tree (tables : list (list Z)) (l : list Z) : list (Z * list Z) :=
  match tables with
  | [] => []
  | t :: tables =>
      let n := length tables in
      split_symbols t (total n (take (2 ^ n) l)) (total (S n) l) ++
      tree tables (take (2 ^ n) l) ++ tree tables (drop (2 ^ n) l)
  end.

Definition shell_tables : list (list Z) :=
  [SKP_Silk_shell_code_table3; SKP_Silk_shell_code_table2; SKP_Silk_shell_code_table1; SKP_Silk_shell_code_table0].

(** The sums that the tables allow. *)
Fixpoint fits (maxes : list Z) (l : list Z) : Prop :=
  match maxes with
  | [] => 0 <= l !!! O
  | m :: maxes =>
      let n := length maxes in
      total (S n) l <= m /\ fits maxes (take (2 ^ n) l) /\ fits maxes (drop (2 ^ n) l)
  end.

Definition max_sums : list Z := [18; 12; 8; 6].

(** [block_cases l]: the 16 pulses of a block. *)
Ltac block_cases l H :=
  do 16 (destruct l as [|? l]; [discriminate H|]); destruct l; [clear H|discriminate H].

Lemma encode_node_writes children parents i c p table :
  0 <= i -> children !! Z.to_nat (2 * i) = Some c -> parents !! Z.to_nat i = Some p -> 0 <= p <= 18 ->
  writes (encode_node children parents i table) (split_symbols table c p).
Proof.
  intros Hi Hc Hp Hr s s'. unfold encode_node.
  rewrite (fetch_ok children (2 * i) c), (fetch_ok parents i p), !bind_Ok by first [done|lia].
  by apply encode_split_writes.
Qed.

(** The splits of a block, one after the other. *)
Ltac splits_flat :=
  unfold shell_tables; cbn [tree length];
  rewrite ?app_nil_r, <- ?app_assoc; cbn [total take drop Nat.pow Nat.mul Nat.add lookup_total list_lookup_total].

Lemma shell_encoder_writes l :
  length l = SHELL_CODEC_FRAME_LENGTH -> fits max_sums l ->
  writes (fun s => SKP_Silk_shell_encoder s l) (tree shell_tables l).
Proof.
  intros H Hf. block_cases l H. unfold max_sums in Hf.
  cbn [fits length total take drop Nat.pow Nat.mul Nat.add lookup_total list_lookup_total] in Hf.
  unfold SKP_Silk_shell_encoder. cbn [combine_pulses]. rewrite !bind_Ok. splits_flat.
  repeat (apply writes_bind; [apply encode_node_writes; [lia|reflexivity|reflexivity|lia]|]).
  apply encode_node_writes; [lia|reflexivity|reflexivity|lia].
Qed.

(** The rows of the tables, checked by evaluation: all the splits that the limits
    on the sums allow have positive probability. *)
Definition row_ok (table : list Z) (maxc c1 c2 : Z) : bool :=
  let row := shell_row table (c1 + c2) in
  (Z.of_nat (length row) =? c1 + c2 + 2) && codable_b (c1, row).
Definition table_ok (table : list Z) (maxp maxc : Z) : bool :=
  forallb (fun c1 => forallb (fun c2 =>
    (c1 + c2 =? 0) || (maxp <? c1 + c2) || row_ok table maxc c1 c2) (seqZ 0 (maxc + 1))) (seqZ 0 (maxc + 1)).

Lemma tables_checked :
  table_ok SKP_Silk_shell_code_table3 18 12 && table_ok SKP_Silk_shell_code_table2 12 8 &&
  table_ok SKP_Silk_shell_code_table1 8 6 && table_ok SKP_Silk_shell_code_table0 6 6 = true.
Proof. vm_compute. reflexivity. Qed.

Lemma table_ok_spec table maxp maxc c1 c2 :
  table_ok table maxp maxc = true -> 0 <= c1 <= maxc -> 0 <= c2 <= maxc -> c1 + c2 <= maxp -> 0 < c1 + c2 ->
  Z.of_nat (length (shell_row table (c1 + c2))) = c1 + c2 + 2 /\ codable (c1, shell_row table (c1 + c2)).
Proof.
  intros H H1 H2 Hp Hpos. unfold table_ok in H. rewrite forallb_forall in H.
  specialize (H c1 ltac:(apply list_elem_of_In, elem_of_seqZ; lia)). rewrite forallb_forall in H.
  specialize (H c2 ltac:(apply list_elem_of_In, elem_of_seqZ; lia)).
  rewrite (proj2 (Z.eqb_neq _ _)), (proj2 (Z.ltb_ge _ _)) in H by lia. cbn [orb] in H. unfold row_ok in H.
  rewrite andb_true_iff, Z.eqb_eq in H. destruct H as [Hl Hc]. split; [done|]. by apply codable_b_spec.
Qed.

(** The limits on both halves of a node at each level. *)
Definition node_ok (table : list Z) (c1 c2 : Z) : Prop :=
  exists maxp maxc, table_ok table maxp maxc = true /\ maxp <= 18 /\
    0 <= c1 <= maxc /\ 0 <= c2 <= maxc /\ c1 + c2 <= maxp.

Lemma node_reads table c1 c2 :
  node_ok table c1 c2 ->
  reads (fun s => decode_split s (c1 + c2) table) (split_symbols table c1 (c1 + c2)) (c1, c2).
Proof.
  intros (maxp & maxc & Ht & Hm & H1 & H2 & Hp). destruct (decide (0 < c1 + c2)) as [Hpos|Hz].
  - destruct (table_ok_spec _ _ _ _ _ Ht H1 H2 Hp Hpos) as [Hl _]. apply decode_split_reads; lia || done.
  - assert (c1 = 0 /\ c2 = 0) as [-> ->] by lia. intros s rest s' Hc. by exists s.
Qed.

Lemma node_codable table c1 c2 : node_ok table c1 c2 -> Forall codable (split_symbols table c1 (c1 + c2)).
Proof.
  intros (maxp & maxc & Ht & Hm & H1 & H2 & Hp). unfold split_symbols.
  destruct (Z.ltb_spec 0 (c1 + c2)) as [Hpos|Hz]; [|constructor]. apply Forall_singleton.
  by apply (table_ok_spec _ _ _ _ _ Ht H1 H2 Hp Hpos).
Qed.

Lemma node_ok_at table maxp maxc c1 c2 :
  table_ok table maxp maxc = true -> maxp <= 18 ->
  0 <= c1 <= maxc -> 0 <= c2 <= maxc -> c1 + c2 <= maxp -> node_ok table c1 c2.
Proof. intros. by exists maxp, maxc. Qed.

(** [node_solve]: a node of a block that fits. *)
Ltac node_solve :=
  let H := fresh in pose proof tables_checked as H; rewrite !andb_true_iff in H; destruct H as [[[? ?] ?] ?];
  eapply node_ok_at; [eassumption|lia..].

Ltac fits_block H Hf l :=
  block_cases l H; unfold max_sums in Hf;
  cbn [fits length total take drop Nat.pow Nat.mul Nat.add lookup_total list_lookup_total] in Hf.

Lemma tree_codable l :
  length l = SHELL_CODEC_FRAME_LENGTH -> fits max_sums l -> Forall codable (tree shell_tables l).
Proof.
  intros H Hf. fits_block H Hf l. splits_flat. rewrite !Forall_app.
  split_and!; apply node_codable; node_solve.
Qed.

Lemma shell_decoder_reads l :
  length l = SHELL_CODEC_FRAME_LENGTH -> fits max_sums l ->
  reads (fun s => SKP_Silk_shell_decoder s (total 4 l)) (tree shell_tables l) l.
Proof.
  intros H Hf s rest s'. fits_block H Hf l. splits_flat. intros Hc.
  unfold SKP_Silk_shell_decoder.
  repeat match type of Hc with
  | carries ?s (split_symbols ?t ?c1 (?c1 + ?c2) ++ _) _ =>
      let s1 := fresh "s" in let E := fresh "E" in
      destruct (node_reads t c1 c2 ltac:(node_solve) _ _ _ Hc) as (s1 & E & ?Hc);
      clear Hc; rename Hc0 into Hc; rewrite E, bind_Ok; clear E
  end.
  eexists. split; [reflexivity|done].
Qed.

(** ** Scaling a block down *)

Definition pair_sum (l : list Z) (j : nat) : Z := l !!! (2 * j)%nat + l !!! (2 * j + 1)%nat.

Lemma combine_and_check_spec inp k len comb src max :
  (src = Some inp \/ src = None /\ forall j, (2 * k <= j)%nat -> comb !! j = inp !! j) ->
  (2 * (k + len) <= length inp)%nat -> (k + len <= length comb)%nat ->
  exists f comb', combine_and_check_from k len comb src max = Ok (f, comb') /\ length comb' = length comb /\
    (forall j, (j < k)%nat -> comb' !! j = comb !! j) /\
    (f = 0 /\ (forall j, (k <= j < k + len)%nat -> pair_sum inp j <= max /\ comb' !! j = Some (pair_sum inp j)) \/
     f = 1 /\ exists j, (k <= j < k + len)%nat /\ max < pair_sum inp j).
Proof.
  revert k comb. induction len as [|len IH]; intros k comb Hsrc Hi Hc; cbn [combine_and_check_from].
  - exists 0, comb. split_and!; try done. left. split; [done|]. lia.
  - set (rd := match src with Some l => l | None => comb end).
    assert (forall j, (2 * k <= j < 2 * (k + S len))%nat -> fetch rd (Z.of_nat j) = Ok (inp !!! j)) as Hrd.
    { intros j Hj. apply fetch_ok; [lia|]. rewrite Nat2Z.id. unfold rd.
      destruct Hsrc as [-> | [-> Hr]]; [|rewrite Hr by lia]; apply list_lookup_lookup_total_lt; lia. }
    replace (2 * Z.of_nat k) with (Z.of_nat (2 * k)) by lia.
    replace (Z.of_nat (2 * k) + 1) with (Z.of_nat (2 * k + 1)) by lia.
    rewrite !Hrd, !bind_Ok by lia. fold (pair_sum inp k).
    destruct (Z.ltb_spec max (pair_sum inp k)) as [Hlt|Hle].
    + exists 1, comb. split_and!; try done. right. split; [done|]. exists k. split; [lia|done].
    + rewrite store_at_ok, bind_Ok, Nat2Z.id by lia.
      destruct (IH (S k) (<[k:=pair_sum inp k]> comb)) as (f & comb' & -> & Hl & Hlow & H).
      * destruct Hsrc as [-> | [-> Hr]]; [by left|right]. split; [done|]. intros j Hj.
        rewrite list_lookup_insert_ne by lia. apply Hr. lia.
      * lia.
      * rewrite length_insert. lia.
      * rewrite length_insert in Hl. exists f, comb'. split_and!; [done|done| |].
        { intros j Hj. rewrite Hlow, list_lookup_insert_ne by lia. done. }
        destruct H as [[-> H]|[-> (j & Hj & H)]]; [left|right].
        { split; [done|]. intros j Hj. destruct (decide (j = k)) as [->|]; [|apply H; lia].
          split; [done|]. rewrite Hlow, list_lookup_insert_eq by lia. done. }
        { split; [done|]. exists j. split; [lia|done]. }
Qed.

(** [first_sums n comb l]: the first [n] entries are the sums of the pairs of [l]. *)
Definition first_sums (n : nat) (comb l : list Z) : Prop :=
  forall j, (j < n)%nat -> comb !!! j = pair_sum l j.

Lemma combine_and_check_sums inp len comb src max :
  (src = Some inp \/ src = None /\ comb = inp) -> (2 * len <= length inp)%nat -> (len <= length comb)%nat ->
  exists f comb', combine_and_check comb src max len = Ok (f, comb') /\ length comb' = length comb /\
    (f = 0 /\ first_sums len comb' inp /\ (forall j, (j < len)%nat -> pair_sum inp j <= max) \/
     f = 1 /\ exists j, (j < len)%nat /\ max < pair_sum inp j).
Proof.
  intros Hsrc Hi Hc.
  destruct (combine_and_check_spec inp 0 len comb src max) as (f & comb' & E & Hl & _ & H); [|done|done|].
  { destruct Hsrc as [-> | [-> ->]]; [by left|by right]. }
  exists f, comb'. split; [done|]. split; [done|]. destruct H as [[-> H]|[-> (j & Hj & H)]]; [left|right].
  - split; [done|]. split; intros j Hj; destruct (H j) as [H1 H2]; try lia.
    by apply list_lookup_total_correct.
  - split; [done|]. exists j. split; [lia|done].
Qed.

Lemma pair_sum_nonneg l j : Forall (fun x => 0 <= x) l -> (2 * j + 1 < length l)%nat -> 0 <= pair_sum l j.
Proof.
  intros Hl Hj. unfold pair_sum.
  pose proof (Forall_lookup_total_1 _ l (2 * j)%nat Hl ltac:(lia)).
  pose proof (Forall_lookup_total_1 _ l (2 * j + 1)%nat Hl ltac:(lia)). cbn beta in *. lia.
Qed.

(** The sums of a block that passed all the tests. *)
Lemma sums_fit block c1 c2 c3 :
  length block = SHELL_CODEC_FRAME_LENGTH -> Forall (fun x => 0 <= x) block ->
  first_sums 8 c1 block -> (forall j, (j < 8)%nat -> pair_sum block j <= 6) ->
  first_sums 4 c2 c1 -> (forall j, (j < 4)%nat -> pair_sum c1 j <= 8) ->
  first_sums 2 c3 c2 -> (forall j, (j < 2)%nat -> pair_sum c2 j <= 12) ->
  c3 !!! 0%nat + c3 !!! 1%nat <= 18 ->
  c3 !!! 0%nat + c3 !!! 1%nat = total 4 block /\ fits max_sums block.
Proof.
  intros Hb Hpos F0 M0 F1 M1 F2 M2 M3. unfold first_sums in *.
  pose proof (F2 0%nat ltac:(lia)). pose proof (F2 1%nat ltac:(lia)).
  pose proof (M2 0%nat ltac:(lia)). pose proof (M2 1%nat ltac:(lia)).
  pose proof (F1 0%nat ltac:(lia)). pose proof (F1 1%nat ltac:(lia)). pose proof (F1 2%nat ltac:(lia)).
  pose proof (F1 3%nat ltac:(lia)). pose proof (M1 0%nat ltac:(lia)). pose proof (M1 1%nat ltac:(lia)).
  pose proof (M1 2%nat ltac:(lia)). pose proof (M1 3%nat ltac:(lia)).
  assert (forall j, (j < 8)%nat -> c1 !!! j = pair_sum block j /\ pair_sum block j <= 6) as F.
  { intros j Hj. split; [by apply F0|by apply M0]. }
  pose proof (F 0%nat ltac:(lia)). pose proof (F 1%nat ltac:(lia)). pose proof (F 2%nat ltac:(lia)).
  pose proof (F 3%nat ltac:(lia)). pose proof (F 4%nat ltac:(lia)). pose proof (F 5%nat ltac:(lia)).
  pose proof (F 6%nat ltac:(lia)). pose proof (F 7%nat ltac:(lia)). clear F F0 F1 F2 M0 M1 M2.
  block_cases block Hb. rewrite !Forall_cons in Hpos. unfold max_sums, pair_sum in *.
  cbn [fits length total take drop Nat.pow Nat.mul Nat.add lookup_total list_lookup_total] in *. lia.
Qed.

Definition zeros (n : nat) (l : list Z) : Prop := forall j, (j < n)%nat -> l !!! j = 0.

Lemma pair_sum_zero n l j : zeros (2 * n) l -> (j < n)%nat -> pair_sum l j = 0.
Proof. intros Hz Hj. unfold pair_sum. by rewrite !Hz by lia. Qed.

Lemma first_sums_zero n c l : first_sums n c l -> zeros (2 * n) l -> zeros n c.
Proof. intros F Hz j Hj. rewrite F by done. by apply (pair_sum_zero n). Qed.

Lemma check_block_spec comb block :
  length comb = 8%nat -> length block = SHELL_CODEC_FRAME_LENGTH -> Forall (fun x => 0 <= x) block ->
  exists f sum comb', check_block comb block = Ok (f, sum, comb') /\ length comb' = 8%nat /\
    (f = 0 /\ sum = total 4 block /\ fits max_sums block \/ f <> 0 /\ exists x, x ∈ block /\ 0 < x).
Proof.
  intros Hc Hb Hpos. unfold check_block, SKP_Silk_max_pulses_table.
  destruct (combine_and_check_sums block 8 comb (Some block) 6) as (s0 & c1 & E0 & Hl1 & H0);
    [by left|rewrite Hb; unfold SHELL_CODEC_FRAME_LENGTH; lia|lia|].
  destruct (combine_and_check_sums c1 4 c1 None 8) as (s1 & c2 & E1 & Hl2 & H1); [by right|lia|lia|].
  destruct (combine_and_check_sums c2 2 c2 None 12) as (s2 & c3 & E2 & Hl3 & H2); [by right|lia|lia|].
  change (fetch [6; 8; 12; 18] 0) with (@Ok Z 6). rewrite bind_Ok, E0, bind_Ok. clear E0.
  change (fetch [6; 8; 12; 18] 1) with (@Ok Z 8). rewrite bind_Ok, E1, bind_Ok. clear E1.
  change (fetch [6; 8; 12; 18] 2) with (@Ok Z 12). rewrite bind_Ok, E2, bind_Ok. clear E2.
  change (fetch [6; 8; 12; 18] 3) with (@Ok Z 18).
  rewrite (fetch_total c3 0 0), (fetch_total c3 1 1), !bind_Ok by lia.
  eexists _, _, c3. split; [reflexivity|]. split; [lia|].
  set (flag := s0 + s1 + s2 + (if 18 <? c3 !!! 0%nat + c3 !!! 1%nat then 1 else 0)).
  assert (0 <= s0 /\ 0 <= s1 /\ 0 <= s2) as (Hs0 & Hs1 & Hs2) by (destruct H0, H1, H2; lia).
  destruct (decide (flag = 0)) as [Hf|Hf]; [left|right]; (split; [done|]); unfold flag in Hf.
  - destruct (Z.ltb_spec 18 (c3 !!! 0%nat + c3 !!! 1%nat)) as [|Hle]; [lia|].
    destruct H0 as [(_ & F0 & M0)|[? _]]; [|lia]. destruct H1 as [(_ & F1 & M1)|[? _]]; [|lia].
    destruct H2 as [(_ & F2 & M2)|[? _]]; [|lia]. by apply (sums_fit block c1 c2 c3).
  - destruct (decide (Exists (fun x => 0 < x) block)) as [He|He].
    { apply Exists_exists in He as (x & Hx & Hx0). by exists x. }
    destruct Hf. assert (zeros (2 * 8) block) as Z0.
    { intros j Hj. unfold SHELL_CODEC_FRAME_LENGTH in Hb.
      pose proof (Forall_lookup_total_1 _ block j Hpos ltac:(lia)) as H. cbn beta in H.
      destruct (decide (0 < block !!! j)) as [Hx|]; [|lia]. destruct He. apply Exists_exists.
      exists (block !!! j). split; [|done]. apply list_elem_of_lookup_total_2. lia. }
    destruct H0 as [(-> & F0 & _)|(_ & j & Hj & H)]; [|rewrite (pair_sum_zero 8) in H; [lia|done..]].
    pose proof (first_sums_zero 8 _ _ F0 Z0 : zeros (2 * 4) c1) as Z1.
    destruct H1 as [(-> & F1 & _)|(_ & j & Hj & H)]; [|rewrite (pair_sum_zero 4) in H; [lia|done..]].
    pose proof (first_sums_zero 4 _ _ F1 Z1 : zeros (2 * 2) c2) as Z2.
    destruct H2 as [(-> & F2 & _)|(_ & j & Hj & H)]; [|rewrite (pair_sum_zero 2) in H; [lia|done..]].
    pose proof (first_sums_zero 2 _ _ F2 Z2) as Z3. by rewrite !Z3 by lia.
Qed.

Definition halved (d : nat) (l : list Z) : list Z := (fun x => Z.shiftr x (Z.of_nat d)) <$> l.

Lemma halved_0 l : halved 0 l = l.
Proof. unfold halved. rewrite <- (list_fmap_id l) at 2. apply list_fmap_ext. intros _ x _. apply Z.shiftr_0_r. Qed.

Lemma halved_S d l : halved d ((fun x => Z.shiftr x 1) <$> l) = halved (S d) l.
Proof.
  unfold halved. rewrite <- list_fmap_compose. apply list_fmap_ext. intros _ x _. unfold compose.
  rewrite Z.shiftr_shiftr by lia. f_equal. lia.
Qed.

(** The magnitudes of [f] bits. *)
Definition magnitudes (f : nat) (l : list Z) : Prop := Forall (fun x => 0 <= x < 2 ^ Z.of_nat f) l.

Lemma magnitudes_half f l : magnitudes (S f) l -> magnitudes f ((fun x => Z.shiftr x 1) <$> l).
Proof.
  intros H. apply Forall_fmap. eapply Forall_impl; [exact H|]. intros x Hx. unfold compose. cbn beta in Hx.
  rewrite Nat2Z.inj_succ, Z.pow_succ_r in Hx by lia. rewrite Z.shiftr_div_pow2 by lia. lia.
Qed.

Lemma scale_block_spec f fuel n comb block :
  (f < fuel)%nat -> length comb = 8%nat -> length block = SHELL_CODEC_FRAME_LENGTH -> magnitudes f block ->
  exists d comb', (d <= f)%nat /\ length comb' = 8%nat /\ fits max_sums (halved d block) /\
    scale_block fuel n comb block = Ok (ShellBlock (n + d) (total 4 (halved d block)) (halved d block), comb').
Proof.
  revert f n comb block. induction fuel as [|fuel IH]; intros f n comb block Hf Hc Hb Hm; [lia|].
  cbn [scale_block].
  destruct (check_block_spec comb block Hc Hb) as (fl & sum & comb' & -> & Hc' & H).
  { eapply Forall_impl; [exact Hm|]. cbn beta. lia. }
  rewrite bind_Ok. destruct H as [(-> & -> & Hfit)|(Hfl & x & Hx & Hx0)].
  - exists O, comb'. rewrite halved_0, Nat.add_0_r. cbn [Z.eqb negb]. split_and!; [lia|done..].
  - rewrite (proj2 (Z.eqb_neq _ _) Hfl). cbn [negb]. destruct f as [|f].
    { unfold magnitudes in Hm. rewrite Forall_forall in Hm. specialize (Hm x Hx). cbn in Hm. lia. }
    destruct (IH f (S n) comb' ((fun x => Z.shiftr x 1) <$> block)) as (d & comb2 & Hd & Hl & Hfit & E);
      [lia|done|by rewrite length_fmap|by apply magnitudes_half|].
    rewrite halved_S in *. exists (S d), comb2. rewrite E, Nat.add_succ_r. split_and!; [lia|done..].
Qed.

Fixpoint chunks (iter : nat) (l : list Z) : list (list Z) :=
  match iter with
  | O => []
  | S iter => take SHELL_CODEC_FRAME_LENGTH l :: chunks iter (drop SHELL_CODEC_FRAME_LENGTH l)
  end.

(** The block holds the magnitudes, without their lowest bits. *)
Record coded_block (b : shell_block) (chunk : list Z) : Prop := {
  cb_length : length chunk = SHELL_CODEC_FRAME_LENGTH;
  cb_magnitudes : magnitudes 16 chunk;
  cb_shifts : (nRshifts b <= 16)%nat;
  cb_pulses : block_pulses b = halved (nRshifts b) chunk;
  cb_sum : sum_pulses b = total 4 (block_pulses b);
  cb_fits : fits max_sums (block_pulses b)
}.

Lemma scale_blocks_spec iter comb abs :
  length comb = 8%nat -> magnitudes 16 abs -> (iter * SHELL_CODEC_FRAME_LENGTH <= length abs)%nat ->
  exists blocks, scale_blocks iter comb abs = Ok blocks /\ Forall2 coded_block blocks (chunks iter abs).
Proof.
  revert comb abs. induction iter as [|iter IH]; intros comb abs Hc Hm Hl; cbn [scale_blocks chunks].
  - exists []. split; [done|constructor].
  - assert (length (take SHELL_CODEC_FRAME_LENGTH abs) = SHELL_CODEC_FRAME_LENGTH) as Ht
      by (rewrite length_take; lia).
    destruct (scale_block_spec 16 33 0 comb (take SHELL_CODEC_FRAME_LENGTH abs)) as (d & comb' & Hd & Hc' & Hf & ->);
      [lia|done|done|by apply Forall_take|]. rewrite bind_Ok.
    destruct (IH comb' (drop SHELL_CODEC_FRAME_LENGTH abs)) as (bs & -> & Hbs);
      [done|by apply Forall_drop|rewrite length_drop; lia|].
    rewrite bind_Ok. eexists. split; [done|]. constructor; [|done].
    constructor; try done. by apply Forall_take.
Qed.

Lemma fits_total l : length l = SHELL_CODEC_FRAME_LENGTH -> fits max_sums l -> 0 <= total 4 l <= 18.
Proof. intros H Hf. fits_block H Hf l. cbn [total take drop Nat.pow Nat.mul Nat.add lookup_total list_lookup_total]. lia. Qed.

Lemma coded_block_sum b chunk : coded_block b chunk -> 0 <= sum_pulses b <= 18.
Proof.
  intros [Hl _ _ Hp Hs Hf]. rewrite Hs. apply fits_total; [|done]. rewrite Hp. unfold halved. by rewrite length_fmap.
Qed.

(** ** The rate level *)

Definition bits_ok (l : list Z) : bool :=
  (Z.of_nat (length l) =? 20) && forallb (fun x => (0 <=? x) && (x <=? 1024)) l.
Definition level_ok (l : list Z) : bool :=
  (Z.of_nat (length l) =? 9) && forallb (fun x => (0 <=? x) && (x <=? 1024)) l.

Lemma bits_tables_ok :
  forallb bits_ok SKP_Silk_pulses_per_block_BITS_Q6 && forallb level_ok SKP_Silk_rate_levels_BITS_Q6 = true.
Proof. reflexivity. Qed.

Lemma fetch_checked (l : list Z) (i : Z) n :
  Z.of_nat (length l) = n -> forallb (fun x => (0 <=? x) && (x <=? 1024)) l = true -> 0 <= i < n ->
  exists x, fetch l i = Ok x /\ 0 <= x <= 1024.
Proof.
  intros Hl Hx Hi. destruct (lookup_lt_is_Some_2 l (Z.to_nat i)) as [x E]; [lia|].
  exists x. split; [apply fetch_ok; [lia|done]|]. rewrite forallb_forall in Hx.
  specialize (Hx x). rewrite andb_true_iff, !Z.leb_le in Hx. apply Hx, list_elem_of_In.
  by eapply list_elem_of_lookup_2.
Qed.

Lemma sum_bits_spec nBits start blocks :
  bits_ok nBits = true -> 0 <= start -> start + 1024 * Z.of_nat (length blocks) <= INT32_MAX ->
  Forall (fun b => 0 <= sum_pulses b <= 18) blocks ->
  exists s, sum_bits nBits start blocks = Ok s /\ 0 <= s <= start + 1024 * Z.of_nat (length blocks).
Proof.
  unfold bits_ok. rewrite andb_true_iff, Z.eqb_eq. intros [Hlen Hx] Hs Hmax Hb. revert start Hs Hmax.
  induction Hb as [|b blocks Hb _ IH]; intros start Hs Hmax; cbn [sum_bits].
  - exists start. split; [done|]. cbn. lia.
  - assert (exists x, (if (0 <? nRshifts b)%nat then fetch nBits (MAX_PULSES + 1)
        else fetch nBits (sum_pulses b)) = Ok x /\ 0 <= x <= 1024) as (x & -> & Hx').
    { unfold MAX_PULSES. destruct (0 <? nRshifts b)%nat; apply (fetch_checked _ _ 20); [done..|lia|done|done|lia]. }
    cbn [length] in Hmax. unfold INT32_MAX in *. rewrite bind_Ok, add_s32_ok, bind_Ok by (unfold INT32_MIN, INT32_MAX; lia).
    destruct (IH (start + x)) as (s & -> & Hs'); [lia|lia|]. exists s. split; [done|]. cbn [length]. lia.
Qed.

Lemma rate_level_spec n k sigtype blocks best level :
  (n + k = 9)%nat -> 0 <= sigtype <= 1 -> (length blocks <= 30)%nat ->
  Forall (fun b => 0 <= sum_pulses b <= 18) blocks -> 0 <= level <= 8 ->
  exists r, rate_level n k sigtype blocks best level = Ok r /\ 0 <= r <= 8.
Proof.
  intros Hk Hs Hlen Hb. revert k best level Hk. induction n as [|n IH]; intros k best level Hk Hl; cbn [rate_level].
  - by exists level.
  - pose proof bits_tables_ok as H. rewrite andb_true_iff, !forallb_forall in H. destruct H as [H1 H2].
    destruct (lookup_lt_is_Some_2 SKP_Silk_pulses_per_block_BITS_Q6 k) as [nBits E1]; [cbn; lia|].
    destruct (lookup_lt_is_Some_2 SKP_Silk_rate_levels_BITS_Q6 (Z.to_nat sigtype)) as [lv E2]; [cbn; lia|].
    rewrite (fetch_ok _ (Z.of_nat k) nBits), bind_Ok by first [lia|by rewrite Nat2Z.id].
    rewrite (fetch_ok _ sigtype lv), bind_Ok by first [lia|exact E2].
    specialize (H1 nBits ltac:(by apply list_elem_of_In; eapply list_elem_of_lookup_2)).
    specialize (H2 lv ltac:(by apply list_elem_of_In; eapply list_elem_of_lookup_2)).
    unfold level_ok in H2. rewrite andb_true_iff, Z.eqb_eq in H2. destruct H2 as [H2 H3].
    destruct (fetch_checked lv (Z.of_nat k) 9 H2 H3) as (st & -> & Hst); [lia|]. rewrite bind_Ok.
    destruct (sum_bits_spec nBits st blocks H1) as (s & -> & _); [lia|unfold INT32_MAX; lia|done|].
    rewrite bind_Ok. destruct (_ <? _); apply IH; lia.
Qed.

(** ** The symbols of a frame *)

Definition last_row : list Z := SKP_Silk_pulses_per_block_CDF !!! 9%nat.

Definition sum_symbols (cdf : list Z) (b : shell_block) : list (Z * list Z) :=
  if (nRshifts b =? 0)%nat then [(sum_pulses b, cdf)]
  else (MAX_PULSES + 1, cdf) :: replicate (nRshifts b - 1) (MAX_PULSES + 1, last_row) ++ [(sum_pulses b, last_row)].

Definition shell_symbols (b : shell_block) : list (Z * list Z) :=
  if 0 <? sum_pulses b then tree shell_tables (block_pulses b) else [].

Fixpoint bit_symbols (x : Z) (j : nat) : list (Z * list Z) :=
  (Z.land (Z.shiftr x (Z.of_nat j)) 1, SKP_Silk_lsb_CDF) ::
  match j with O => [] | S j => bit_symbols x j end.

Definition lsb_symbols (b : shell_block) (chunk : list Z) : list (Z * list Z) :=
  if (0 <? nRshifts b)%nat then concat ((fun x => bit_symbols x (nRshifts b - 1)) <$> chunk) else [].

Definition sign_symbols (cdf q : list Z) : list (Z * list Z) :=
  concat ((fun x => if negb (x =? 0) then [(SKP_enc_map x, cdf)] else []) <$> q).

(** What the encoder writes. *)

Lemma encode_times_writes n d cdf :
  writes (fun s => encode_times n s d cdf) (replicate n (d, cdf)).
Proof.
  induction n as [|n IH]; [apply writes_nil|]. cbn [encode_times replicate].
  apply (writes_bind _ _ [(d, cdf)]); [apply writes_one|exact IH].
Qed.

Lemma fetch_last_row : fetch SKP_Silk_pulses_per_block_CDF (Z.of_nat N_RATE_LEVELS - 1) = Ok last_row.
Proof. done. Qed.

Lemma encode_sums_writes blocks cdf :
  writes (fun s => encode_sums s blocks cdf) (concat (sum_symbols cdf <$> blocks)).
Proof.
  induction blocks as [|b blocks IH]; [apply writes_nil|]. cbn [encode_sums fmap list_fmap concat].
  apply writes_bind; [|exact IH]. unfold sum_symbols. destruct (nRshifts b =? 0)%nat; [apply writes_one|].
  apply (writes_bind _ _ [(MAX_PULSES + 1, cdf)]); [apply writes_one|].
  intros s s'. rewrite fetch_last_row, bind_Ok.
  apply (writes_bind (fun s => encode_times (nRshifts b - 1) s (MAX_PULSES + 1) last_row)
    (fun s => SKP_Silk_range_encoder s (sum_pulses b) last_row)); [apply encode_times_writes|apply writes_one].
Qed.

Lemma encode_shells_writes blocks chs :
  Forall2 coded_block blocks chs ->
  writes (fun s => encode_shells s blocks) (concat (shell_symbols <$> blocks)).
Proof.
  induction 1 as [|b ch blocks chs Hb _ IH]; [apply writes_nil|]. cbn [encode_shells fmap list_fmap concat].
  apply writes_bind; [|exact IH]. unfold shell_symbols. destruct (0 <? sum_pulses b); [|apply writes_nil].
  destruct Hb as [Hl _ _ Hp _ Hf]. apply shell_encoder_writes; [|done]. rewrite Hp. unfold halved. by rewrite length_fmap.
Qed.

Lemma encode_bits_writes x j : writes (fun s => encode_bits s x j) (bit_symbols x j).
Proof.
  induction j as [|j IH]; cbn [encode_bits bit_symbols];
    apply (writes_bind _ _ [_]); first [apply writes_one|exact IH|apply writes_nil].
Qed.

Lemma encode_block_bits_writes l j :
  writes (fun s => encode_block_bits s l j) (concat ((fun x => bit_symbols x j) <$> (SKP_abs <$> l))).
Proof.
  induction l as [|x l IH]; [apply writes_nil|]. cbn [encode_block_bits fmap list_fmap concat].
  apply writes_bind; [apply encode_bits_writes|exact IH].
Qed.

Lemma encode_lsbs_writes iter blocks q :
  length blocks = iter ->
  writes (fun s => encode_lsbs s blocks q) (concat (zip_with lsb_symbols blocks (chunks iter (SKP_abs <$> q)))).
Proof.
  revert iter q. induction blocks as [|b blocks IH]; intros iter q <-; [apply writes_nil|].
  cbn [encode_lsbs length chunks zip_with concat]. apply writes_bind.
  - unfold lsb_symbols. destruct (0 <? nRshifts b)%nat; [|apply writes_nil].
    rewrite <- fmap_take. apply encode_block_bits_writes.
  - rewrite <- fmap_drop. by apply IH.
Qed.

Lemma encode_signs_writes q n cdf :
  length q = n -> writes (fun s => encode_signs_loop s q n cdf) (sign_symbols cdf q).
Proof.
  revert n. induction q as [|x q IH]; intros n <-; [apply writes_nil|].
  cbn [length encode_signs_loop]. unfold sign_symbols. cbn [fmap list_fmap concat].
  apply writes_bind; [|by apply IH]. destruct (negb _); [apply writes_one|apply writes_nil].
Qed.

(** What the decoder reads. *)

(** [read_step Hc lem]: the decoder takes the symbols at the front of the stream. *)
Ltac read_step Hc lem :=
  let s1 := fresh "s" in let E := fresh "E" in let Hc1 := fresh "Hc" in
  destruct (lem _ _ _ Hc) as (s1 & E & Hc1); rewrite E, bind_Ok; clear E Hc; rename Hc1 into Hc.

Lemma decode_sum_reads fuel n k sum :
  (S n < fuel)%nat -> sum <> MAX_PULSES + 1 ->
  reads (fun s => '(m, s) ← Ok (MAX_PULSES + 1, s); decode_sum fuel s k m)
    (replicate n (MAX_PULSES + 1, last_row) ++ [(sum, last_row)]) (S n + k, sum)%nat.
Proof.
  revert n k. induction fuel as [|fuel IH]; intros n k Hf Hsum s rest s' Hc; [lia|]. rewrite bind_Ok.
  cbn [decode_sum]. rewrite Z.eqb_refl, fetch_last_row, bind_Ok.
  assert (start_ok last_row SKP_Silk_pulses_per_block_CDF_offset) as Hstart by (split; by vm_compute).
  destruct n as [|n]; cbn [replicate app] in Hc.
  - read_step Hc (reads_one sum last_row _ Hstart). exists s0. split; [|done].
    destruct fuel as [|fuel]; [lia|]. cbn [decode_sum]. by rewrite (proj2 (Z.eqb_neq _ _) Hsum).
  - read_step Hc (reads_one (MAX_PULSES + 1) last_row _ Hstart).
    destruct (IH n (S k) ltac:(lia) Hsum _ _ _ Hc) as (s1 & E & Hc1). rewrite bind_Ok in E.
    exists s1. rewrite E. split; [|done]. do 3 f_equal. lia.
Qed.

Lemma decode_sums_reads fuel blocks chs cdf :
  (16 < fuel)%nat -> Forall2 coded_block blocks chs -> start_ok cdf SKP_Silk_pulses_per_block_CDF_offset ->
  reads (fun s => decode_sums fuel (length blocks) s cdf) (concat (sum_symbols cdf <$> blocks))
    ((fun b => (nRshifts b, sum_pulses b)) <$> blocks).
Proof.
  intros Hf Hb Hstart. induction Hb as [|b ch blocks chs Hb _ IH]; [apply reads_nil|].
  intros s rest s' Hc. cbn [decode_sums length fmap list_fmap concat] in *. rewrite <- app_assoc in Hc.
  pose proof (coded_block_sum _ _ Hb) as Hsum. pose proof (cb_shifts _ _ Hb) as Hn.
  unfold sum_symbols in Hc. destruct fuel as [|fuel]; [lia|].
  destruct (Nat.eqb_spec (nRshifts b) 0) as [H0|H0].
  - read_step Hc (reads_one (sum_pulses b) cdf _ Hstart). cbn [decode_sum].
    rewrite (proj2 (Z.eqb_neq _ _)) by (unfold MAX_PULSES; lia). rewrite bind_Ok.
    read_step Hc IH. exists s1. split; [|done]. by rewrite H0.
  - cbn [app] in Hc. read_step Hc (reads_one (MAX_PULSES + 1) cdf _ Hstart).
    destruct (decode_sum_reads (S fuel) (nRshifts b - 1) 0 (sum_pulses b) ltac:(lia)
      ltac:(unfold MAX_PULSES; lia) _ _ _ Hc) as (s1 & E & Hc1). rewrite bind_Ok in E. rewrite E, bind_Ok.
    destruct (IH _ _ _ Hc1) as (s2 & E2 & Hc2). rewrite E2, bind_Ok. exists s2. split; [|done].
    do 4 f_equal. lia.
Qed.

Lemma fits_zero l :
  length l = SHELL_CODEC_FRAME_LENGTH -> fits max_sums l -> total 4 l = 0 -> l = replicate SHELL_CODEC_FRAME_LENGTH 0.
Proof.
  intros H Hf. fits_block H Hf l. cbn [total take drop Nat.pow Nat.mul Nat.add lookup_total list_lookup_total].
  intros Ht. cbn [replicate SHELL_CODEC_FRAME_LENGTH]. repeat f_equal; lia.
Qed.

Lemma decode_shells_reads blocks chs :
  Forall2 coded_block blocks chs ->
  reads (fun s => decode_shells s ((fun b => (nRshifts b, sum_pulses b)) <$> blocks))
    (concat (shell_symbols <$> blocks)) (block_pulses <$> blocks).
Proof.
  induction 1 as [|b ch blocks chs Hb _ IH]; [apply reads_nil|].
  intros s rest s' Hc. cbn [decode_shells fmap list_fmap concat] in *. rewrite <- app_assoc in Hc.
  pose proof (coded_block_sum _ _ Hb) as Hpos. destruct Hb as [Hl _ _ Hp Hs Hf].
  assert (length (block_pulses b) = SHELL_CODEC_FRAME_LENGTH) as Hl' by (rewrite Hp; unfold halved; by rewrite length_fmap).
  unfold shell_symbols in Hc. destruct (Z.ltb_spec 0 (sum_pulses b)).
  - rewrite Hs. read_step Hc (shell_decoder_reads _ Hl' Hf). read_step Hc IH. by exists s1.
  - rewrite bind_Ok. cbn [app] in Hc. read_step Hc IH. exists s0. split; [|done].
    by rewrite (fits_zero _ Hl' Hf) by lia.
Qed.

Lemma lsb_start : start_ok SKP_Silk_lsb_CDF 1.
Proof. split; cbn; lia. Qed.

Lemma bit_step x j :
  0 <= x < 2 ^ 16 ->
  let a := Z.shiftr x (Z.of_nat (S j)) in
  add_s32 a a = Ok (a + a) /\ a + a + Z.land (Z.shiftr x (Z.of_nat j)) 1 = Z.shiftr x (Z.of_nat j).
Proof.
  intros Hx a. set (y := Z.shiftr x (Z.of_nat j)).
  assert (a = y / 2) as ->.
  { unfold a, y. rewrite Nat2Z.inj_succ, <- Z.add_1_r, <- Z.shiftr_shiftr by lia. by rewrite Z.shiftr_div_pow2. }
  assert (0 <= y < 2 ^ 16) as Hy.
  { unfold y. rewrite Z.shiftr_div_pow2 by lia. assert (0 < 2 ^ Z.of_nat j) by (apply Z.pow_pos_nonneg; lia).
    split; [apply Z.div_pos; lia|]. apply Z.div_lt_upper_bound; [lia|]. nia. }
  change 1 with (Z.ones 1). rewrite Z.land_ones by lia. change (2 ^ 1) with 2.
  split; [apply add_s32_ok; unfold INT32_MIN, INT32_MAX; lia|lia].
Qed.

Lemma decode_bits_reads x j :
  0 <= x < 2 ^ 16 ->
  reads (fun s => decode_bits (S j) s (Z.shiftr x (Z.of_nat (S j)))) (bit_symbols x j) x.
Proof.
  intros Hx. induction j as [|j IH]; intros s rest s' Hc; cbn [bit_symbols app] in Hc.
  - destruct (bit_step x 0 Hx) as [E1 E2]. cbn [decode_bits]. rewrite E1, bind_Ok.
    read_step Hc (reads_one (Z.land (Z.shiftr x (Z.of_nat 0)) 1) _ _ lsb_start). exists s0. split; [|done].
    by rewrite E2, Z.shiftr_0_r.
  - destruct (bit_step x (S j) Hx) as [E1 E2].
    change (decode_bits (S (S j)) s (Z.shiftr x (Z.of_nat (S (S j))))) with
      (abs_q ← add_s32 (Z.shiftr x (Z.of_nat (S (S j)))) (Z.shiftr x (Z.of_nat (S (S j))));
       '(bit, psRC) ← SKP_Silk_range_decoder s SKP_Silk_lsb_CDF 1; decode_bits (S j) psRC (abs_q + bit)).
    rewrite E1, bind_Ok.
    read_step Hc (reads_one (Z.land (Z.shiftr x (Z.of_nat (S j))) 1) _ _ lsb_start). rewrite E2. by apply IH.
Qed.

Lemma decode_block_bits_reads l j :
  magnitudes 16 l ->
  reads (fun s => decode_block_bits (S j) s (halved (S j) l)) (concat ((fun x => bit_symbols x j) <$> l)) l.
Proof.
  induction 1 as [|x l Hx _ IH]; [apply reads_nil|]. intros s rest s' Hc.
  cbn [fmap list_fmap concat] in Hc. rewrite <- app_assoc in Hc.
  change (halved (S j) (x :: l)) with (Z.shiftr x (Z.of_nat (S j)) :: halved (S j) l). cbn [decode_block_bits].
  read_step Hc (decode_bits_reads x j Hx). read_step Hc IH. by exists s1.
Qed.

Lemma decode_lsbs_reads blocks chs :
  Forall2 coded_block blocks chs ->
  reads (fun s => decode_lsbs s ((fun b => (nRshifts b, sum_pulses b)) <$> blocks) (block_pulses <$> blocks))
    (concat (zip_with lsb_symbols blocks chs)) chs.
Proof.
  induction 1 as [|b ch blocks chs Hb _ IH]; [apply reads_nil|].
  intros s rest s' Hc. cbn [decode_lsbs fmap list_fmap concat zip_with] in *. rewrite <- app_assoc in Hc.
  destruct Hb as [Hl Hm _ -> _ _]. unfold lsb_symbols in Hc.
  destruct (nRshifts b) as [|n] eqn:En; cbn [Nat.ltb Nat.leb] in *.
  - rewrite bind_Ok. cbn [app] in Hc. read_step Hc IH. exists s0. split; [|done]. by rewrite halved_0.
  - rewrite Nat.sub_0_r in Hc || (replace (S n - 1)%nat with n in Hc by lia).
    read_step Hc (decode_block_bits_reads ch n Hm). read_step Hc IH. by exists s1.
Qed.

(** A sample of the signal. *)
Definition sample (x : Z) : Prop := -32768 <= x <= 32767.

Lemma sign_codes x : sample x -> x <> 0 ->
  SKP_enc_map x = (if x <? 0 then 0 else 1) /\ SKP_abs x * SKP_dec_map (SKP_enc_map x) = x /\ 0 < SKP_abs x.
Proof.
  intros Hx H0. unfold sample, SKP_enc_map, SKP_dec_map, SKP_abs in *. rewrite Z.shiftr_div_pow2 by lia.
  destruct (Z.ltb_spec x 0), (Z.ltb_spec 0 x); try lia.
  - assert (x / 2 ^ 15 + 1 = 0) as -> by lia. change (Z.shiftl 0 1 - 1) with (-1). lia.
  - assert (x / 2 ^ 15 + 1 = 1) as -> by lia. change (Z.shiftl 1 1 - 1) with 1. lia.
Qed.

Lemma decode_signs_reads q n cdf tail :
  length q = n -> Forall sample q -> start_ok cdf 1 ->
  reads (fun s => decode_signs_loop s ((SKP_abs <$> q) ++ tail) n cdf) (sign_symbols cdf q) (q ++ tail).
Proof.
  intros Hn Hq Hstart. revert n Hn. induction Hq as [|x q Hx _ IH]; intros n <-; [by intros s rest s' Hc; exists s; destruct tail|].
  intros s rest s' Hc. unfold sign_symbols in Hc.
  cbn [decode_signs_loop fmap list_fmap concat length app] in *. rewrite <- app_assoc in Hc.
  destruct (Z.eqb_spec x 0) as [->|H0]; cbn [negb app] in Hc.
  - change (SKP_abs 0) with 0. rewrite Z.ltb_irrefl, bind_Ok.
    read_step Hc (IH _ eq_refl). by exists s0.
  - destruct (sign_codes x Hx H0) as (_ & Es & Hpos). rewrite (proj2 (Z.ltb_lt _ _) Hpos).
    read_step Hc (reads_one (SKP_enc_map x) cdf 1 Hstart). rewrite bind_Ok, Es.
    read_step Hc (IH _ eq_refl). by exists s1.
Qed.

(** ** A frame *)

Definition frame_symbols (sigtype level : Z) (cdf sign : list Z) (blocks : list shell_block) (q : list Z) (iter : nat)
    : list (Z * list Z) :=
  (level, SKP_Silk_rate_levels_CDF !!! Z.to_nat sigtype) ::
  concat (sum_symbols cdf <$> blocks) ++ concat (shell_symbols <$> blocks) ++
  concat (zip_with lsb_symbols blocks (chunks iter (SKP_abs <$> q))) ++ sign_symbols sign q.

Lemma take_abs_spec fours q : length q = (4 * fours)%nat -> take_abs fours q = Ok (SKP_abs <$> q).
Proof.
  revert q. induction fours as [|n IH]; intros q Hq; cbn [take_abs].
  - by destruct q.
  - destruct q as [|a [|b [|c [|d q]]]]; cbn [length] in Hq; try lia. by rewrite IH by lia.
Qed.

Lemma chunks_concat iter l : length l = (iter * SHELL_CODEC_FRAME_LENGTH)%nat -> concat (chunks iter l) = l.
Proof.
  revert l. induction iter as [|n IH]; intros l Hl; cbn [chunks concat]; [by destruct l|].
  rewrite IH by (rewrite length_drop; lia). apply take_drop.
Qed.

Lemma abs_magnitudes q : Forall sample q -> magnitudes 16 (SKP_abs <$> q).
Proof.
  intros H. apply Forall_fmap. eapply Forall_impl; [exact H|]. intros x Hx. unfold sample, compose, SKP_abs in *.
  destruct (Z.ltb_spec 0 x); lia.
Qed.

(** The distributions that a frame uses, checked by evaluation. *)
Lemma frame_tables :
  forallb (fun l => cdf_b l && (Z.of_nat (length l) =? 21)) SKP_Silk_pulses_per_block_CDF &&
  forallb (fun l => cdf_b l && (Z.of_nat (length l) =? 10)) SKP_Silk_rate_levels_CDF &&
  forallb (fun l => cdf_b l && (Z.of_nat (length l) =? 3)) SKP_Silk_sign_CDF && cdf_b SKP_Silk_lsb_CDF = true.
Proof. vm_compute. reflexivity. Qed.

(** All symbols of these have positive probability. *)
Fixpoint strict_b (l : list Z) : bool :=
  match l with
  | x :: ((y :: _) as k) => (x <? y) && strict_b k
  | _ => true
  end.

Lemma strict_tables :
  forallb strict_b SKP_Silk_pulses_per_block_CDF && forallb strict_b SKP_Silk_rate_levels_CDF &&
  forallb strict_b SKP_Silk_sign_CDF && strict_b SKP_Silk_lsb_CDF = true.
Proof. vm_compute. reflexivity. Qed.

Lemma strict_lookup l n x y : strict_b l = true -> l !! n = Some x -> l !! S n = Some y -> x < y.
Proof.
  revert n. induction l as [|a [|b l] IH]; intros n Hs Hx Hy; [done|by destruct n|].
  cbn [strict_b] in Hs. apply andb_prop in Hs as [H1%Z.ltb_lt H2]. destruct n as [|n].
  - injection Hx as <-. injection Hy as <-. done.
  - by apply (IH n).
Qed.

Lemma strict_codable prob n d :
  cdf_b prob = true -> strict_b prob = true -> Z.of_nat (length prob) = n -> 0 <= d -> d + 1 < n -> codable (d, prob).
Proof.
  intros Hc Hs Hl Hd Hn. split; [by apply cdf_b_spec|].
  assert (prob !! Z.to_nat d = Some (prob !!! Z.to_nat d)) as E1 by (apply list_lookup_lookup_total_lt; lia).
  assert (prob !! Z.to_nat (d + 1) = Some (prob !!! Z.to_nat (d + 1))) as E2 by (apply list_lookup_lookup_total_lt; lia).
  split_and!; [done|exact E1|exact E2|]. cbn [limits fst snd].
  apply (strict_lookup prob (Z.to_nat d)); [done|done|]. by replace (S (Z.to_nat d)) with (Z.to_nat (d + 1)) by lia.
Qed.

(** A row of a table of distributions. *)
Lemma table_row (t : list (list Z)) (i n : Z) :
  forallb (fun l => cdf_b l && (Z.of_nat (length l) =? n)) t = true -> forallb strict_b t = true ->
  0 <= i < Z.of_nat (length t) ->
  fetch t i = Ok (t !!! Z.to_nat i) /\ Z.of_nat (length (t !!! Z.to_nat i)) = n /\
  forall d, 0 <= d -> d + 1 < n -> codable (d, t !!! Z.to_nat i).
Proof.
  intros H1 H2 Hi. rewrite forallb_forall in H1, H2.
  assert (t !! Z.to_nat i = Some (t !!! Z.to_nat i)) as E by (apply list_lookup_lookup_total_lt; lia).
  pose proof (list_elem_of_lookup_2 _ _ _ E) as Hin. apply list_elem_of_In in Hin.
  specialize (H1 _ Hin). specialize (H2 _ Hin). rewrite andb_true_iff, Z.eqb_eq in H1. destruct H1 as [H1 H1'].
  split_and!; [apply fetch_ok; [lia|done]|done|]. intros d Hd Hn. by apply (strict_codable _ n).
Qed.

Lemma sum_symbols_codable cdf b ch :
  coded_block b ch -> (forall d, 0 <= d -> d + 1 < 21 -> codable (d, cdf)) ->
  (forall d, 0 <= d -> d + 1 < 21 -> codable (d, last_row)) -> Forall codable (sum_symbols cdf b).
Proof.
  intros Hb Hc Hl. pose proof (coded_block_sum _ _ Hb). unfold sum_symbols, MAX_PULSES.
  destruct (nRshifts b =? 0)%nat; [apply Forall_singleton, Hc; lia|]. constructor; [apply Hc; lia|].
  apply Forall_app_2; [apply Forall_replicate, Hl; lia|apply Forall_singleton, Hl; lia].
Qed.

Lemma shell_symbols_codable b ch : coded_block b ch -> Forall codable (shell_symbols b).
Proof.
  intros [Hl _ _ Hp _ Hf]. unfold shell_symbols. destruct (0 <? sum_pulses b); [|constructor].
  apply tree_codable; [|done]. rewrite Hp. unfold halved. by rewrite length_fmap.
Qed.

Lemma lsb_codable x j : Forall codable (bit_symbols x j).
Proof.
  assert (forall y, codable (Z.land y 1, SKP_Silk_lsb_CDF)) as H.
  { intros y. change 1 with (Z.ones 1). rewrite Z.land_ones by lia. change (2 ^ 1) with 2.
    apply codable_b_spec. assert (y mod 2 = 0 \/ y mod 2 = 1) as [-> | ->] by lia; by vm_compute. }
  induction j as [|j IH]; cbn [bit_symbols]; constructor; try done.
Qed.

Lemma lsb_symbols_codable b ch : Forall codable (lsb_symbols b ch).
Proof.
  unfold lsb_symbols. destruct (0 <? nRshifts b)%nat; [|constructor].
  apply Forall_concat, Forall_fmap, Forall_forall. intros x _. apply lsb_codable.
Qed.

Lemma sign_symbols_codable cdf q :
  Forall sample q -> (forall d, 0 <= d -> d + 1 < 3 -> codable (d, cdf)) -> Forall codable (sign_symbols cdf q).
Proof.
  intros Hq Hc. apply Forall_concat, Forall_fmap. eapply Forall_impl; [exact Hq|]. intros x Hx. unfold compose.
  destruct (Z.eqb_spec x 0) as [|H0]; [constructor|]. apply Forall_singleton.
  destruct (sign_codes x Hx H0) as (-> & _). destruct (x <? 0); apply Hc; lia.
Qed.

Lemma frame_symbols_codable sigtype level cdf sign blocks q iter chs :
  Forall2 coded_block blocks chs -> Forall sample q -> 
  codable (level, SKP_Silk_rate_levels_CDF !!! Z.to_nat sigtype) ->
  (forall d, 0 <= d -> d + 1 < 21 -> codable (d, cdf)) ->
  (forall d, 0 <= d -> d + 1 < 21 -> codable (d, last_row)) ->
  (forall d, 0 <= d -> d + 1 < 3 -> codable (d, sign)) ->
  Forall codable (frame_symbols sigtype level cdf sign blocks q iter).
Proof.
  intros Hb Hq Hr Hc Hl Hs. constructor; [done|]. rewrite !Forall_app. split_and!.
  - apply Forall_concat, Forall_fmap. induction Hb; constructor; [by eapply sum_symbols_codable|done].
  - apply Forall_concat, Forall_fmap. induction Hb; constructor; [by eapply shell_symbols_codable|done].
  - apply Forall_concat. generalize (chunks iter (SKP_abs <$> q)) as l. clear.
    induction blocks as [|b blocks IH]; intros [|ch l]; cbn [zip_with]; constructor; [apply lsb_symbols_codable|apply IH].
  - by apply sign_symbols_codable.
Qed.

Lemma sign_cdf_row sigtype qoff level :
  0 <= sigtype <= 1 -> 0 <= qoff <= 1 -> 0 <= level <= 8 ->
  sign_cdf sigtype qoff level = fetch SKP_Silk_sign_CDF (9 * (2 * sigtype + qoff) + level) /\
  0 <= 9 * (2 * sigtype + qoff) + level < 36.
Proof.
  intros Hs Hq Hl. unfold sign_cdf, SKP_SMULBB. rewrite Z.shiftl_mul_pow2 by lia.
  rewrite !wrap_s_id by (unfold N_RATE_LEVELS; lia). split; [|lia]. f_equal. unfold N_RATE_LEVELS. lia.
Qed.

Lemma frame_coded sigtype qoff q iter :
  length q = (iter * SHELL_CODEC_FRAME_LENGTH)%nat -> (iter <= 30)%nat -> Forall sample q ->
  0 <= sigtype <= 1 -> 0 <= qoff <= 1 ->
  exists syms level, Forall codable syms /\ 0 <= level <= 8 /\
    writes (fun s => SKP_Silk_encode_pulses s sigtype qoff q (length q)) syms /\
    forall fuel q0, (16 < fuel)%nat -> (length q <= length q0)%nat ->
      reads (fun s => SKP_Silk_decode_pulses fuel s sigtype qoff q0 (length q)) syms
        ((q ++ drop (length q) q0)%list, level).
Proof.
  intros Hq Hi Hs Hsig Hoff.
  assert (length q / SHELL_CODEC_FRAME_LENGTH = iter)%nat as Hiter by (rewrite Hq; by apply Nat.div_mul).
  destruct (scale_blocks_spec iter (replicate 8 0) (SKP_abs <$> q)) as (blocks & Eb & Hb);
    [done|by apply abs_magnitudes|rewrite length_fmap; lia|].
  assert (length blocks = iter) as Hlen.
  { apply Forall2_length in Hb. rewrite Hb. generalize (SKP_abs <$> q). clear.
    induction iter; intros l; cbn [chunks length]; auto. }
  destruct (rate_level_spec 9 0 sigtype blocks INT32_MAX 0) as (level & El & Hl); [done|done|lia| |lia|].
  { clear -Hb. induction Hb; constructor; [by eapply coded_block_sum|done]. }
  pose proof frame_tables as Ht. pose proof strict_tables as Hst. rewrite !andb_true_iff in Ht, Hst.
  destruct Ht as (((T1 & T2) & T3) & _). destruct Hst as (((S1 & S2) & S3) & _).
  destruct (table_row _ sigtype _ T2 S2) as (Er & Hr & Cr); [cbn; lia|].
  destruct (table_row _ level _ T1 S1) as (Ec & Hc & Cc); [cbn; lia|].
  destruct (table_row _ 9 _ T1 S1) as (_ & _ & Cl); [cbn; lia|].
  destruct (sign_cdf_row sigtype qoff level Hsig Hoff Hl) as [Es Hix].
  destruct (table_row _ (9 * (2 * sigtype + qoff) + level) _ T3 S3) as (Eg & Hg & Cg); [exact Hix|].
  set (cdf := SKP_Silk_pulses_per_block_CDF !!! Z.to_nat level) in *.
  set (sign := SKP_Silk_sign_CDF !!! _) in *.
  exists (frame_symbols sigtype level cdf sign blocks q iter), level. split; [|split; [done|split]].
  - eapply frame_symbols_codable; [exact Hb|done|apply Cr; lia|done|exact Cl|exact Cg].
  - intros s s'. unfold SKP_Silk_encode_pulses, abs_pulses.
    rewrite (proj2 (Z.ltb_ge _ _)) by (rewrite Hq; unfold MAX_FRAME_LENGTH, SHELL_CODEC_FRAME_LENGTH; lia).
    assert ((length q + 3) / 4 = iter * 4)%nat as Hfours.
    { rewrite Hq. unfold SHELL_CODEC_FRAME_LENGTH. replace (iter * 16 + 3)%nat with (iter * 4 * 4 + 3)%nat by lia.
      rewrite Nat.div_add_l by lia. by rewrite Nat.add_0_r. }
    rewrite Hfours, take_abs_spec by (rewrite Hq; unfold SHELL_CODEC_FRAME_LENGTH; lia).
    rewrite bind_Ok, Hiter, Eb, bind_Ok. change (N_RATE_LEVELS - 1)%nat with 9%nat.
    rewrite El, bind_Ok, Er, bind_Ok. unfold frame_symbols.
    apply (writes_bind (fun s => SKP_Silk_range_encoder s level _) _ [_]); [apply writes_one|].
    intros s1 s1'. rewrite Ec, bind_Ok.
    apply (writes_bind (fun s => encode_sums s blocks cdf)); [apply encode_sums_writes|].
    apply (writes_bind (fun s => encode_shells s blocks)); [by eapply encode_shells_writes|].
    apply (writes_bind (fun s => encode_lsbs s blocks q)); [by apply encode_lsbs_writes|].
    intros s2 s2'. unfold SKP_Silk_encode_signs. rewrite Es, Eg, bind_Ok. by apply encode_signs_writes.
  - intros fuel q0 Hf Hq0 s rest s' Hcar. unfold SKP_Silk_decode_pulses. rewrite Er, bind_Ok.
    unfold frame_symbols in Hcar. cbn [app] in Hcar. rewrite <- !app_assoc in Hcar.
    assert (start_ok (SKP_Silk_rate_levels_CDF !!! Z.to_nat sigtype) SKP_Silk_rate_levels_CDF_offset) as Hst1
      by (split; [done|]; rewrite Hr; done).
    read_step Hcar (reads_one level _ _ Hst1). rewrite Hiter.
    rewrite (proj2 (Z.ltb_ge _ _)), (proj2 (Z.ltb_ge (Z.of_nat (length q0)) _)) by (unfold MAX_FRAME_LENGTH in *; lia).
    cbn [orb].
    rewrite Ec, bind_Ok.
    assert (start_ok cdf SKP_Silk_pulses_per_block_CDF_offset) as Hst2 by (split; [done|]; rewrite Hc; done).
    replace (decode_sums fuel iter) with (decode_sums fuel (length blocks)) by (by rewrite Hlen).
    read_step Hcar (decode_sums_reads fuel _ _ cdf Hf Hb Hst2).
    read_step Hcar (decode_shells_reads _ _ Hb). read_step Hcar (decode_lsbs_reads _ _ Hb).
    rewrite chunks_concat by (by rewrite length_fmap). rewrite <- Hq.
    unfold SKP_Silk_decode_signs. rewrite Es, Eg, bind_Ok.
    assert (start_ok sign 1) as Hst3 by (split; [done|]; rewrite Hg; done).
    read_step Hcar (decode_signs_reads q (length q) sign (drop (length q) q0) eq_refl Hs Hst3). by eexists.
Qed.

(** C33.  The excitation of a frame survives the bit stream.  Whatever symbols stand
    before and after it in the payload, the encoder codes any frame of up to 480
    quantised 16-bit samples, returns, and reports an error exactly when the payload
    would not fit its buffer.  If it reports none and has written at most 1020
    bytes, the decoder takes from the closed payload, wherever it stands in memory,
    the same samples, their least significant bits and their signs included,
    whatever the output array held, and then the symbols that follow; 17 steps of
    the indication of least significant bits are enough. *)
Theorem excitation_lossless s0 pre post q iter sigtype qoff :
  packet_start s0 -> Forall codable pre -> Forall codable post ->
  length q = (iter * SHELL_CODEC_FRAME_LENGTH)%nat -> (iter <= 30)%nat -> Forall sample q ->
  0 <= sigtype <= 1 -> 0 <= qoff <= 1 ->
  exists s1,
    (s ← SKP_Silk_range_encoder_multi (SKP_Silk_range_enc_init s0) pre;
     s ← SKP_Silk_encode_pulses s sigtype qoff q (length q);
     SKP_Silk_range_encoder_multi s post) = Ok s1 /\
    (error s1 = 0 \/ error s1 = RANGE_CODER_WRITE_BEYOND_BUFFER) /\
    (error s1 = 0 -> bufferIx s1 <= 1020 ->
     exists s2 level nBits nBytes, SKP_Silk_range_enc_wrap_up s1 = Ok s2 /\
       SKP_Silk_range_coder_get_length s1 = (nBits, Z.of_nat nBytes) /\
       forall fuel q0 d0 mem, (16 < fuel)%nat -> length q0 = length q ->
         packet_start d0 -> Forall byte mem -> (4 <= length mem)%nat ->
         (nBytes <= length mem)%nat -> take nBytes mem = take nBytes (buffer s2) ->
         exists d1 d2 d3 d4, SKP_Silk_range_dec_init d0 mem (Z.of_nat nBytes) = Ok d1 /\
           carries d1 pre d2 /\
           SKP_Silk_decode_pulses fuel d2 sigtype qoff q0 (length q) = Ok (q, level, d3) /\
           carries d3 post d4 /\ error d4 = 0).
Proof.
  intros Hs0 Hpre Hpost Hq Hi Hsample Hsig Hoff.
  destruct (frame_coded sigtype qoff q iter Hq Hi Hsample Hsig Hoff) as (syms & level & Hsyms & _ & Hw & Hr).
  assert (Forall codable (pre ++ syms ++ post)) as Hall by (by rewrite !Forall_app).
  destruct (encoder_multi_narrows _ _ _ (enc_init_encodes s0 Hs0) Hall) as (s1 & E1 & H1).
  exists s1. split; [|split].
  - revert E1. rewrite encoder_multi_app. intros (a & Ea & E1)%res_bind_ok. rewrite Ea, bind_Ok.
    revert E1. rewrite encoder_multi_app. intros (b & Eb & E1)%res_bind_ok. by rewrite (Hw _ _ Eb), bind_Ok.
  - destruct H1 as [H1|[He _]]; [left; apply (enc_error _ _ H1)|by right].
  - destruct H1 as [H1|[He _]]; [|rewrite He; done]. intros _ Hix.
    destruct (packet_decodes _ s1 H1 Hall Hix) as (s2 & nBits & nBytes & E2 & E3 & _ & Hmax & Hdec).
    exists s2, level, nBits, nBytes. split; [done|]. split; [done|].
    intros fuel q0 d0 mem Hf Hq0 Hd0 Hmem H4 Hn Ht.
    destruct (Hdec d0 mem nBytes Hd0 Hmem H4 (le_n _) Hn Hmax Ht) as (d1 & d4 & Ed & Hcar & _ & _ & He & _).
    rewrite carries_app in Hcar. destruct Hcar as (d2 & Hc1 & Hc2).
    destruct (Hr fuel q0 Hf ltac:(lia) _ _ _ Hc2) as (d3 & E4 & Hc3).
    rewrite drop_ge, app_nil_r in E4 by lia. by exists d1, d2, d3, d4.
Qed.

(** ** Examples *)

Definition ex_frame : list Z := [0; 5; -3; 100; 0; 0; -1; 1; 0; 2; 0; 0; -32768; 32767; 0; 1].

Lemma ex_frame_samples : Forall sample ex_frame.
Proof. repeat constructor; cbn; lia. Qed.

(** A frame with both extreme samples, between other symbols. *)
Lemma excitation_lossless_witness :
  (exists s1,
     (s ← SKP_Silk_range_encoder_multi (SKP_Silk_range_enc_init ex_coder) ex_symbols;
      s ← SKP_Silk_encode_pulses s 1 0 ex_frame (length ex_frame);
      SKP_Silk_range_encoder_multi s ex_symbols) = Ok s1 /\
     error s1 = 0 /\ bufferIx s1 <= 1020) /\
  exists s1,
    (s ← SKP_Silk_range_encoder_multi (SKP_Silk_range_enc_init ex_coder) ex_symbols;
     s ← SKP_Silk_encode_pulses s 1 0 ex_frame (length ex_frame);
     SKP_Silk_range_encoder_multi s ex_symbols) = Ok s1 /\
    (error s1 = 0 \/ error s1 = RANGE_CODER_WRITE_BEYOND_BUFFER) /\
    (error s1 = 0 -> bufferIx s1 <= 1020 ->
     exists s2 level nBits nBytes, SKP_Silk_range_enc_wrap_up s1 = Ok s2 /\
       SKP_Silk_range_coder_get_length s1 = (nBits, Z.of_nat nBytes) /\
       forall fuel q0 d0 mem, (16 < fuel)%nat -> length q0 = length ex_frame ->
         packet_start d0 -> Forall byte mem -> (4 <= length mem)%nat ->
         (nBytes <= length mem)%nat -> take nBytes mem = take nBytes (buffer s2) ->
         exists d1 d2 d3 d4, SKP_Silk_range_dec_init d0 mem (Z.of_nat nBytes) = Ok d1 /\
           carries d1 ex_symbols d2 /\
           SKP_Silk_decode_pulses fuel d2 1 0 q0 (length ex_frame) = Ok (ex_frame, level, d3) /\
           carries d3 ex_symbols d4 /\ error d4 = 0).
Proof.
  split.
  - eexists. split; [vm_compute; reflexivity|]. split; [vm_compute; reflexivity|apply Z.leb_le; vm_compute; reflexivity].
  - apply (excitation_lossless ex_coder ex_symbols ex_symbols ex_frame 1 1 0 ex_packet_start ex_codable ex_codable);
      [done|lia|exact ex_frame_samples|lia|lia].
Defined.

(** A payload of 34 bytes that indicates least significant bits 32 times.  The
    decoder does not bound their number: its shift of a magnitude overflows. *)
Definition ex_hostile : list Z :=
  [7; 211; 248; 43; 184; 98; 59; 242; 175; 140; 68; 156; 187; 217; 86; 199; 50; 212; 22; 10; 37; 247; 26; 187;
   44; 42; 183; 189; 162; 153; 98; 112; 174; 21].

Lemma hostile_payload_overflows :
  (d ← SKP_Silk_range_dec_init ex_coder ex_hostile 34;
   SKP_Silk_decode_pulses 40 d 0 0 (replicate 16 0) 16) = Err SignedOverflow.
Proof. vm_compute. reflexivity. Qed.
