(* ===== verification/SilkFrame.v ===== *)
(** * The parameters of a frame of the SILK codec

    [jni/silk/src/SKP_Silk_encode_parameters.c], [SKP_Silk_decode_parameters.c],
    [SKP_Silk_decoder_set_fs.c] and [SKP_Silk_decode_pitch] of
    [SKP_Silk_pitch_analysis_core.c]: the symbols of a frame in the order of the bit
    stream, and what the decoder makes of them. *)
From Stdlib Require Import ZArith Lia.
From stdpp Require Import base list.
From S2P Require Import Prelude.
From S2P Require Import SilkRange.
From S2P Require Import SilkMath.
From S2P Require Import SilkGains.
From S2P Require Import SilkTables.
From S2P Require Import SilkNlsfTables.
From S2P Require Import SilkNlsf.
From S2P Require Import SilkLpc.
From S2P Require Import SilkPulses.

Open Scope Z_scope.

Definition SIG_TYPE_VOICED : Z := 0.
Definition FRAME_LENGTH_MS : Z := 20.
Definition MAX_LPC_ORDER : nat := 16.
Definition MIN_LPC_ORDER : nat := 10.
Definition LTP_ORDER : nat := 5.
Definition PITCH_EST_MIN_LAG_MS : Z := 2.
Definition BWE_AFTER_LOSS_Q16 : Z := 63570.
Definition RANGE_CODER_READ_BEYOND_BUFFER : Z := -6.
Definition RANGE_CODER_ILLEGAL_SAMPLING_RATE : Z := -7.

(** The distributions of a codebook, and where the searches in them start. *)
Definition cdfs (cb : SKP_Silk_NLSF_CB_struct) : list (list Z) :=
  (fun p => drop (Z.to_nat p) (CDF cb)) <$> take (Z.to_nat (nStages cb)) (StartPtr cb).

(** The distribution of the pitch lag, and of its contour. *)
Definition lag_cdf (fs_kHz : Z) : list Z * Z :=
  if fs_kHz =? 8 then (SKP_Silk_pitch_lag_NB_CDF, SKP_Silk_pitch_lag_NB_CDF_offset)
  else if fs_kHz =? 12 then (SKP_Silk_pitch_lag_MB_CDF, SKP_Silk_pitch_lag_MB_CDF_offset)
  else if fs_kHz =? 16 then (SKP_Silk_pitch_lag_WB_CDF, SKP_Silk_pitch_lag_WB_CDF_offset)
  else (SKP_Silk_pitch_lag_SWB_CDF, SKP_Silk_pitch_lag_SWB_CDF_offset).
Definition contour_cdf (fs_kHz : Z) : list Z * Z :=
  if fs_kHz =? 8 then (SKP_Silk_pitch_contour_NB_CDF, SKP_Silk_pitch_contour_NB_CDF_offset)
  else (SKP_Silk_pitch_contour_CDF, SKP_Silk_pitch_contour_CDF_offset).

(** ** The encoder *)

Module Enc.
(** The members of [SKP_Silk_encoder_state] that the coding of parameters uses. *)
Record state := State {
  sRC : SKP_Silk_range_coder_state;
  sRC_LBRR : SKP_Silk_range_coder_state;
  nFramesInPayloadBuf : Z;
  nBytesInPayloadBuf : Z;
  fs_kHz : Z;
  frame_length : nat;
  typeOffsetPrev : Z;
  psNLSF_CB : list SKP_Silk_NLSF_CB_struct;
  vadFlag : Z
}.

(** The quantisation indices of [SKP_Silk_encoder_control]. *)
Record control := Control {
  sigtype : Z;
  QuantOffsetType : Z;
  GainsIndices : list Z;
  NLSFIndices : list Z;
  NLSFInterpCoef_Q2 : Z;
  lagIndex : Z;
  contourIndex : Z;
  PERIndex : Z;
  LTPIndex : list Z;
  LTP_scaleIndex : Z;
  Seed : Z
}.

(** [psRC] is one of the two coders of the state. *)
Definition coder (lbrr : bool) (s : state) : SKP_Silk_range_coder_state := if lbrr then sRC_LBRR s else sRC s.
Definition set_coder (lbrr : bool) (s : state) (r : SKP_Silk_range_coder_state) : state :=
  State (if lbrr then sRC s else r) (if lbrr then r else sRC_LBRR s) (nFramesInPayloadBuf s) (nBytesInPayloadBuf s)
    (fs_kHz s) (frame_length s) (typeOffsetPrev s) (psNLSF_CB s) (vadFlag s).
Definition set_typeOffsetPrev (s : state) (t : Z) : state :=
  State (sRC s) (sRC_LBRR s) (nFramesInPayloadBuf s) (nBytesInPayloadBuf s) (fs_kHz s) (frame_length s) t
    (psNLSF_CB s) (vadFlag s).
Definition init_payload (s : state) : state :=
  State (SKP_Silk_range_enc_init (sRC s)) (sRC_LBRR s) (nFramesInPayloadBuf s) 0 (fs_kHz s) (frame_length s)
    (typeOffsetPrev s) (psNLSF_CB s) (vadFlag s).

(** [for( i = 0; i < 3; i++ ) if( table[ i ] == fs_kHz ) break;] *)
Fixpoint rate_index (n : nat) (i fs_kHz : Z) : res Z :=
  match n with
  | O => Ok i
  | S n =>
      r ← fetch SKP_Silk_SamplingRates_table i;
      if r =? fs_kHz then Ok i else rate_index n (i + 1) fs_kHz
  end.

(** [n] symbols of one distribution. *)
Fixpoint encode_all (psRC : SKP_Silk_range_coder_state) (n : nat) (l : list Z) (cdf : list Z)
    : res SKP_Silk_range_coder_state :=
  match n, l with
  | O, _ => Ok psRC
  | S n, x :: l => psRC ← SKP_Silk_range_encoder psRC x cdf; encode_all psRC n l cdf
  | S _, [] => Err OutOfBounds
  end.

Definition encode_type (psRC : SKP_Silk_range_coder_state) (first : bool) (typeOffset typeOffsetPrev : Z)
    : res SKP_Silk_range_coder_state :=
  if first then SKP_Silk_range_encoder psRC typeOffset SKP_Silk_type_offset_CDF
  else cdf ← fetch SKP_Silk_type_offset_joint_CDF typeOffsetPrev; SKP_Silk_range_encoder psRC typeOffset cdf.

Definition encode_gains (psRC : SKP_Silk_range_coder_state) (first : bool) (sigtype : Z) (GainsIndices : list Z)
    : res SKP_Silk_range_coder_state :=
  g ← fetch GainsIndices 0;
  psRC ←
    (if first then cdf ← fetch SKP_Silk_gain_CDF sigtype; SKP_Silk_range_encoder psRC g cdf
     else SKP_Silk_range_encoder psRC g SKP_Silk_delta_gain_CDF);
  encode_all psRC (NB_SUBFR - 1) (drop 1 GainsIndices) SKP_Silk_delta_gain_CDF.

Definition encode_nlsf (psRC : SKP_Silk_range_coder_state) (cb : SKP_Silk_NLSF_CB_struct) (NLSFIndices : list Z)
    : res SKP_Silk_range_coder_state :=
  if (length NLSFIndices <? length (cdfs cb))%nat then Err OutOfBounds
  else SKP_Silk_range_encoder_multi psRC (zip NLSFIndices (cdfs cb)).

Definition encode_voiced (psRC : SKP_Silk_range_coder_state) (fs_kHz : Z) (c : control)
    : res SKP_Silk_range_coder_state :=
  psRC ← SKP_Silk_range_encoder psRC (lagIndex c) (lag_cdf fs_kHz).1;
  psRC ← SKP_Silk_range_encoder psRC (contourIndex c) (contour_cdf fs_kHz).1;
  psRC ← SKP_Silk_range_encoder psRC (PERIndex c) SKP_Silk_LTP_per_index_CDF;
  cdf ← fetch SKP_Silk_LTP_gain_CDF_ptrs (PERIndex c);
  psRC ← encode_all psRC NB_SUBFR (LTPIndex c) cdf;
  SKP_Silk_range_encoder psRC (LTP_scaleIndex c) SKP_Silk_LTPscale_CDF.

(** Everything but the sampling rate. *)
Definition encode_frame (psRC : SKP_Silk_range_coder_state) (s : state) (c : control) (q : list Z)
    : res SKP_Silk_range_coder_state :=
  let first := nFramesInPayloadBuf s =? 0 in
  psRC ← encode_type psRC first (2 * sigtype c + QuantOffsetType c) (typeOffsetPrev s);
  psRC ← encode_gains psRC first (sigtype c) (GainsIndices c);
  cb ← fetch (psNLSF_CB s) (sigtype c);
  psRC ← encode_nlsf psRC cb (NLSFIndices c);
  psRC ← SKP_Silk_range_encoder psRC (NLSFInterpCoef_Q2 c) SKP_Silk_NLSF_interpolation_factor_CDF;
  psRC ← (if sigtype c =? SIG_TYPE_VOICED then encode_voiced psRC (fs_kHz s) c else Ok psRC);
  psRC ← SKP_Silk_range_encoder psRC (Seed c) SKP_Silk_Seed_CDF;
  psRC ← SKP_Silk_encode_pulses psRC (sigtype c) (QuantOffsetType c) q (frame_length s);
  SKP_Silk_range_encoder psRC (vadFlag s) SKP_Silk_vadflag_CDF.

(** The assertion on the interpolation factor is not compiled. *)
Definition SKP_Silk_encode_parameters (psEncC : state) (psEncCtrlC : control) (lbrr : bool) (q : list Z)
    : res state :=
  let first := nFramesInPayloadBuf psEncC =? 0 in
  let psEncC := if first then init_payload psEncC else psEncC in
  psRC ←
    (if first then
       i ← rate_index 3 0 (fs_kHz psEncC);
       SKP_Silk_range_encoder (coder lbrr psEncC) i SKP_Silk_SamplingRates_CDF
     else Ok (coder lbrr psEncC));
  psRC ← encode_frame psRC psEncC psEncCtrlC q;
  Ok (set_typeOffsetPrev (set_coder lbrr psEncC psRC) (2 * sigtype psEncCtrlC + QuantOffsetType psEncCtrlC)).
End Enc.

(** ** The decoder *)

Module Dec.
(** The members of [SKP_Silk_decoder_state] that the decoding of parameters uses. *)
Record state := State {
  sRC : SKP_Silk_range_coder_state;
  sLPC_Q14 : list Z;
  outBuf : list Z;
  sLTP_buf_idx : Z;
  lagPrev : Z;
  LastGainIndex : Z;
  typeOffsetPrev : Z;
  HP_A : list Z;
  HP_B : list Z;
  fs_kHz : Z;
  frame_length : Z;
  subfr_length : Z;
  LPC_order : nat;
  prevNLSF_Q15 : list Z;
  first_frame_after_reset : Z;
  nBytesLeft : Z;
  nFramesDecoded : Z;
  FrameTermination : Z;
  psNLSF_CB : list SKP_Silk_NLSF_CB_struct;
  vadFlag : Z;
  lossCnt : Z;
  prev_sigtype : Z
}.

(** [SKP_Silk_decoder_control] *)
Record control := Control {
  pitchL : list Z;
  Gains_Q16 : list Z;
  Seed : Z;
  PredCoef_Q12 : list Z * list Z;
  LTPCoef_Q14 : list Z;
  LTP_scale_Q14 : Z;
  PERIndex : Z;
  RateLevelIndex : Z;
  QuantOffsetType : Z;
  sigtype : Z;
  NLSFInterpCoef_Q2 : Z
}.

Definition set_sRC (d : state) (r : SKP_Silk_range_coder_state) : state :=
  State r (sLPC_Q14 d) (outBuf d) (sLTP_buf_idx d) (lagPrev d) (LastGainIndex d) (typeOffsetPrev d) (HP_A d) (HP_B d)
    (fs_kHz d) (frame_length d) (subfr_length d) (LPC_order d) (prevNLSF_Q15 d) (first_frame_after_reset d)
    (nBytesLeft d) (nFramesDecoded d) (FrameTermination d) (psNLSF_CB d) (vadFlag d) (lossCnt d) (prev_sigtype d).
Definition set_nFramesDecoded (d : state) (n : Z) : state :=
  State (sRC d) (sLPC_Q14 d) (outBuf d) (sLTP_buf_idx d) (lagPrev d) (LastGainIndex d) (typeOffsetPrev d) (HP_A d)
    (HP_B d) (fs_kHz d) (frame_length d) (subfr_length d) (LPC_order d) (prevNLSF_Q15 d) (first_frame_after_reset d)
    (nBytesLeft d) n (FrameTermination d) (psNLSF_CB d) (vadFlag d) (lossCnt d) (prev_sigtype d).
(** What [SKP_Silk_decode_parameters] leaves. *)
Definition set_parameters (d : state) (r : SKP_Silk_range_coder_state) (gain type : Z) (nlsf : list Z)
    (bytes term vad : Z) : state :=
  State r (sLPC_Q14 d) (outBuf d) (sLTP_buf_idx d) (lagPrev d) gain type (HP_A d) (HP_B d)
    (fs_kHz d) (frame_length d) (subfr_length d) (LPC_order d) nlsf (first_frame_after_reset d)
    bytes (nFramesDecoded d) term (psNLSF_CB d) vad (lossCnt d) (prev_sigtype d).

(** [SKP_memset( l, 0, n )] *)
Definition clear (n : nat) (l : list Z) : list Z := (replicate n 0 ++ drop n l)%list.

(** The filters of the output; those of another rate stay. *)
Definition hp_filters (d : state) (fs : Z) : list Z * list Z :=
  if fs =? 24 then (SKP_Silk_Dec_A_HP_24, SKP_Silk_Dec_B_HP_24)
  else if fs =? 16 then (SKP_Silk_Dec_A_HP_16, SKP_Silk_Dec_B_HP_16)
  else if fs =? 12 then (SKP_Silk_Dec_A_HP_12, SKP_Silk_Dec_B_HP_12)
  else if fs =? 8 then (SKP_Silk_Dec_A_HP_8, SKP_Silk_Dec_B_HP_8)
  else (HP_A d, HP_B d).

Definition SKP_Silk_decoder_set_fs (d : state) (fs : Z) : state :=
  if fs_kHz d =? fs then d
  else
    let '(LPC_order, cbs) :=
      if fs =? 8 then (MIN_LPC_ORDER, [SKP_Silk_NLSF_CB0_10; SKP_Silk_NLSF_CB1_10])
      else (MAX_LPC_ORDER, [SKP_Silk_NLSF_CB0_16; SKP_Silk_NLSF_CB1_16]) in
    State (sRC d) (clear MAX_LPC_ORDER (sLPC_Q14 d)) (clear (Z.to_nat MAX_FRAME_LENGTH) (outBuf d)) 0 100 1
      (typeOffsetPrev d) (hp_filters d fs).1 (hp_filters d fs).2 fs (SKP_SMULBB FRAME_LENGTH_MS fs)
      (SKP_SMULBB (FRAME_LENGTH_MS / Z.of_nat NB_SUBFR) fs) LPC_order (clear MAX_LPC_ORDER (prevNLSF_Q15 d)) 1
      (nBytesLeft d) (nFramesDecoded d) (FrameTermination d) cbs (vadFlag d) (lossCnt d) 0.

(** The state behind the sampling rate, and whether there is one. *)
Definition decode_rate (d : state) : res (state * bool) :=
  '(Ix, psRC) ← SKP_Silk_range_decoder (sRC d) SKP_Silk_SamplingRates_CDF SKP_Silk_SamplingRates_offset;
  if (Ix <? 0) || (3 <? Ix) then Ok (set_sRC d (set_error psRC RANGE_CODER_ILLEGAL_SAMPLING_RATE), false)
  else
    fs ← fetch SKP_Silk_SamplingRates_table Ix;
    Ok (SKP_Silk_decoder_set_fs (set_sRC d psRC) fs, true).

Definition decode_type (psRC : SKP_Silk_range_coder_state) (first : bool) (typeOffsetPrev : Z)
    : res (Z * SKP_Silk_range_coder_state) :=
  if first then SKP_Silk_range_decoder psRC SKP_Silk_type_offset_CDF SKP_Silk_type_offset_CDF_offset
  else
    cdf ← fetch SKP_Silk_type_offset_joint_CDF typeOffsetPrev;
    SKP_Silk_range_decoder psRC cdf SKP_Silk_type_offset_CDF_offset.

Fixpoint decode_all (psRC : SKP_Silk_range_coder_state) (n : nat) (cdf : list Z) (ix : Z)
    : res (list Z * SKP_Silk_range_coder_state) :=
  match n with
  | O => Ok ([], psRC)
  | S n =>
      '(x, psRC) ← SKP_Silk_range_decoder psRC cdf ix;
      '(l, psRC) ← decode_all psRC n cdf ix;
      Ok (x :: l, psRC)
  end.

Definition decode_gains (psRC : SKP_Silk_range_coder_state) (first : bool) (sigtype : Z)
    : res (list Z * SKP_Silk_range_coder_state) :=
  '(g, psRC) ←
    (if first then cdf ← fetch SKP_Silk_gain_CDF sigtype; SKP_Silk_range_decoder psRC cdf SKP_Silk_gain_CDF_offset
     else SKP_Silk_range_decoder psRC SKP_Silk_delta_gain_CDF SKP_Silk_delta_gain_CDF_offset);
  '(l, psRC) ← decode_all psRC (NB_SUBFR - 1) SKP_Silk_delta_gain_CDF SKP_Silk_delta_gain_CDF_offset;
  Ok (g :: l, psRC).

Definition decode_nlsf (psRC : SKP_Silk_range_coder_state) (cb : SKP_Silk_NLSF_CB_struct)
    : res (list Z * SKP_Silk_range_coder_state) :=
  SKP_Silk_range_decoder_multi psRC (zip (cdfs cb) (MiddleIx cb)).

(** The vector half-way between the previous and this one. *)
Fixpoint interpolate (n : nat) (prev cur : list Z) (coef : Z) : res (list Z) :=
  match n, prev, cur with
  | O, _, _ => Ok []
  | S n, p :: prev, x :: cur =>
      diff ← sub_s32 x p;
      m ← SKP_MUL coef diff;
      y ← add_s32 p (Z.shiftr m 2);
      l ← interpolate n prev cur coef;
      Ok (y :: l)
  | _, _, _ => Err OutOfBounds
  end.

(** The two filters; [old] is what [PredCoef_Q12] holds. *)
Definition pred_coefs (d : state) (old : list Z * list Z) (pNLSF_Q15 : list Z) (coef : Z) (full : bool)
    : res (list Z * list Z) :=
  let n := LPC_order d in
  '((a0, a1) : list Z * list Z) ←
    (if full then
       a1 ← SKP_Silk_NLSF2A_stable pNLSF_Q15 n;
       if coef <? 4 then
         pNLSF0_Q15 ← interpolate n (prevNLSF_Q15 d) pNLSF_Q15 coef;
         a0 ← SKP_Silk_NLSF2A_stable pNLSF0_Q15 n;
         Ok ((a0 ++ drop n old.1)%list, (a1 ++ drop n old.2)%list)
       else Ok ((a1 ++ drop n old.1)%list, (a1 ++ drop n old.2)%list)
     else Ok old);
  if negb (lossCnt d =? 0) then
    b0 ← SKP_Silk_bwexpander (take n a0) BWE_AFTER_LOSS_Q16;
    b1 ← SKP_Silk_bwexpander (take n a1) BWE_AFTER_LOSS_Q16;
    Ok ((b0 ++ drop n a0)%list, (b1 ++ drop n a1)%list)
  else Ok (a0, a1).

Fixpoint lags (rows : list (list Z)) (lag contourIndex : Z) : res (list Z) :=
  match rows with
  | [] => Ok []
  | row :: rows => c ← fetch row contourIndex; p ← add_s32 lag c; l ← lags rows lag contourIndex; Ok (p :: l)
  end.
Definition SKP_Silk_decode_pitch (lagIndex contourIndex fs : Z) : res (list Z) :=
  lag ← add_s32 (SKP_SMULBB PITCH_EST_MIN_LAG_MS fs) lagIndex;
  lags (if fs =? 8 then SKP_Silk_CB_lags_stage2 else SKP_Silk_CB_lags_stage3) lag contourIndex.

(** [LTP_ORDER] numbers from position [pos] of a codebook. *)
Fixpoint copy_coefs (cbk : list Z) (n : nat) (pos : Z) : res (list Z) :=
  match n with O => Ok [] | S n => x ← fetch cbk pos; l ← copy_coefs cbk n (pos + 1); Ok (x :: l) end.

(** The long-term coefficients of the parts of a frame, with their symbols. *)
Fixpoint decode_ltp (psRC : SKP_Silk_range_coder_state) (n : nat) (cbk cdf : list Z) (ix : Z)
    : res (list Z * SKP_Silk_range_coder_state) :=
  match n with
  | O => Ok ([], psRC)
  | S n =>
      '(Ix, psRC) ← SKP_Silk_range_decoder psRC cdf ix;
      c ← copy_coefs cbk LTP_ORDER (SKP_SMULBB Ix (Z.of_nat LTP_ORDER));
      '(l, psRC) ← decode_ltp psRC n cbk cdf ix;
      Ok ((c ++ l)%list, psRC)
  end.

(** Pitch lags, index of the codebook, long-term coefficients and their scale. *)
Definition decode_voiced (psRC : SKP_Silk_range_coder_state) (fs : Z)
    : res (list Z * Z * list Z * Z * SKP_Silk_range_coder_state) :=
  '(lag, psRC) ← SKP_Silk_range_decoder psRC (lag_cdf fs).1 (lag_cdf fs).2;
  '(contour, psRC) ← SKP_Silk_range_decoder psRC (contour_cdf fs).1 (contour_cdf fs).2;
  pitchL ← SKP_Silk_decode_pitch lag contour fs;
  '(PERIndex, psRC) ← SKP_Silk_range_decoder psRC SKP_Silk_LTP_per_index_CDF SKP_Silk_LTP_per_index_CDF_offset;
  cbk ← fetch SKP_Silk_LTP_vq_ptrs_Q14 PERIndex;
  cdf ← fetch SKP_Silk_LTP_gain_CDF_ptrs PERIndex;
  ix ← fetch SKP_Silk_LTP_gain_CDF_offsets PERIndex;
  '(LTPCoef_Q14, psRC) ← decode_ltp psRC NB_SUBFR (concat cbk) cdf ix;
  '(Ix, psRC) ← SKP_Silk_range_decoder psRC SKP_Silk_LTPscale_CDF SKP_Silk_LTPscale_offset;
  scale ← fetch SKP_Silk_LTPScales_table_Q14 Ix;
  Ok (pitchL, PERIndex, LTPCoef_Q14, scale, psRC).

(** The bytes that are left, and the coder, checked when there are none. *)
Definition finish (psRC : SKP_Silk_range_coder_state) : res (Z * SKP_Silk_range_coder_state) :=
  let '(_, nBytesUsed) := SKP_Silk_range_coder_get_length psRC in
  let bytes := bufferLength psRC - nBytesUsed in
  let psRC := if bytes <? 0 then set_error psRC RANGE_CODER_READ_BEYOND_BUFFER else psRC in
  psRC ← (if bytes =? 0 then SKP_Silk_range_coder_check_after_decoding psRC else Ok psRC);
  Ok (bytes, psRC).

(** The part behind the sampling rate.  [c] holds what the control held, [q] what
    the memory of the signal did. *)
Definition decode_frame (fuel : nat) (d : state) (c : control) (q : list Z) (full : bool)
    : res (state * control * list Z) :=
  let first := nFramesDecoded d =? 0 in
  '(Ix, psRC) ← decode_type (sRC d) first (typeOffsetPrev d);
  let sigtype := Z.shiftr Ix 1 in
  let QuantOffsetType := Z.land Ix 1 in
  '(GainsIndices, psRC) ← decode_gains psRC first sigtype;
  '(Gains_Q16, LastGainIndex) ← SKP_Silk_gains_dequant GainsIndices (LastGainIndex d) (nFramesDecoded d);
  cb ← fetch (psNLSF_CB d) sigtype;
  '(NLSFIndices, psRC) ← decode_nlsf psRC cb;
  pNLSF_Q15 ← SKP_Silk_NLSF_MSVQ_decode cb NLSFIndices (LPC_order d);
  '(coef, psRC) ← SKP_Silk_range_decoder psRC SKP_Silk_NLSF_interpolation_factor_CDF SKP_Silk_NLSF_interpolation_factor_offset;
  let coef := if first_frame_after_reset d =? 1 then 4 else coef in
  PredCoef_Q12 ← pred_coefs d (PredCoef_Q12 c) pNLSF_Q15 coef full;
  '(pitchL, PERIndex, LTPCoef_Q14, LTP_scale_Q14, psRC) ←
    (if sigtype =? SIG_TYPE_VOICED then decode_voiced psRC (fs_kHz d)
     else Ok (replicate NB_SUBFR 0, 0, replicate (NB_SUBFR * LTP_ORDER) 0, 0, psRC));
  '(Seed, psRC) ← SKP_Silk_range_decoder psRC SKP_Silk_Seed_CDF SKP_Silk_Seed_offset;
  '(q, RateLevelIndex, psRC) ←
    SKP_Silk_decode_pulses fuel psRC sigtype QuantOffsetType q (Z.to_nat (frame_length d));
  '(vad, psRC) ← SKP_Silk_range_decoder psRC SKP_Silk_vadflag_CDF SKP_Silk_vadflag_offset;
  '(term, psRC) ← SKP_Silk_range_decoder psRC SKP_Silk_FrameTermination_CDF SKP_Silk_FrameTermination_offset;
  '(bytes, psRC) ← finish psRC;
  Ok (set_parameters d psRC LastGainIndex Ix (pNLSF_Q15 ++ drop (LPC_order d) (prevNLSF_Q15 d))%list bytes term vad,
      Control pitchL Gains_Q16 Seed PredCoef_Q12 LTPCoef_Q14 LTP_scale_Q14 PERIndex RateLevelIndex
        QuantOffsetType sigtype coef, q).

(** An illegal sampling rate is an error of the coder, and nothing more is read. *)
Definition SKP_Silk_decode_parameters (fuel : nat) (psDec : state) (psDecCtrl : control) (q : list Z)
    (fullDecoding : bool) : res (state * control * list Z) :=
  if nFramesDecoded psDec =? 0 then
    '((psDec, legal) : state * bool) ← decode_rate psDec;
    if legal then decode_frame fuel psDec psDecCtrl q fullDecoding else Ok (psDec, psDecCtrl, q)
  else decode_frame fuel psDec psDecCtrl q fullDecoding.
End Dec.

(** ** Distributions *)

(** A distribution of [n] symbols, all of positive probability, and an entry of it
    where searches may start. *)
Definition dist_b (prob : list Z) (ix n : Z) : bool :=
  cdf_b prob && strict_b prob && (Z.of_nat (length prob) =? n + 1) && (0 <=? ix) && (ix <? n).

Lemma dist_spec prob ix n :
  dist_b prob ix n = true -> start_ok prob ix /\ forall d, 0 <= d < n -> codable (d, prob).
Proof.
  unfold dist_b. rewrite !andb_true_iff, Z.eqb_eq, Z.leb_le, Z.ltb_lt. intros ((((Hc & Hs) & Hl) & H0) & Hn).
  split; [unfold start_ok; lia|]. intros d Hd. apply (strict_codable _ (n + 1)); [done..|lia|lia].
Qed.

(** [dist_of prob ix n H]: what [H : dist_b prob ix n = true] gives. *)
Lemma dist_symbol prob ix n d :
  dist_b prob ix n = true -> 0 <= d < n ->
  codable (d, prob) /\ reads (fun s => SKP_Silk_range_decoder s prob ix) [(d, prob)] d.
Proof.
  intros [Hs Hc]%dist_spec Hd. split; [by apply Hc|by apply reads_one].
Qed.

(** The distributions that the sampling rate does not decide. *)
Lemma distributions_ok :
  dist_b SKP_Silk_SamplingRates_CDF SKP_Silk_SamplingRates_offset 4 &&
  dist_b SKP_Silk_type_offset_CDF SKP_Silk_type_offset_CDF_offset 4 &&
  dist_b SKP_Silk_delta_gain_CDF SKP_Silk_delta_gain_CDF_offset 45 &&
  dist_b SKP_Silk_NLSF_interpolation_factor_CDF SKP_Silk_NLSF_interpolation_factor_offset 5 &&
  dist_b SKP_Silk_LTP_per_index_CDF SKP_Silk_LTP_per_index_CDF_offset 3 &&
  dist_b SKP_Silk_LTPscale_CDF SKP_Silk_LTPscale_offset 3 &&
  dist_b SKP_Silk_Seed_CDF SKP_Silk_Seed_offset 4 &&
  dist_b SKP_Silk_vadflag_CDF SKP_Silk_vadflag_offset 2 &&
  dist_b SKP_Silk_FrameTermination_CDF SKP_Silk_FrameTermination_offset 4 = true.
Proof. vm_compute. reflexivity. Qed.

Lemma dist_table (t : list (list Z)) ix n i :
  forallb (fun p => dist_b p ix n) t = true -> 0 <= i < Z.of_nat (length t) ->
  fetch t i = Ok (t !!! Z.to_nat i) /\ dist_b (t !!! Z.to_nat i) ix n = true.
Proof.
  intros H Hi. rewrite forallb_forall in H.
  assert (t !! Z.to_nat i = Some (t !!! Z.to_nat i)) as E by (apply list_lookup_lookup_total_lt; lia).
  split; [apply fetch_ok; [lia|done]|]. apply H, list_elem_of_In. by eapply list_elem_of_lookup_2.
Qed.

(** ** The symbols of a frame *)

(** The sampling rates, in kHz. *)
Definition rate (fs : Z) : Prop := fs = 8 \/ fs = 12 \/ fs = 16 \/ fs = 24.
Definition lag_count (fs : Z) : Z := 16 * fs + 1.
Definition contour_count (fs : Z) : Z := if fs =? 8 then 11 else 34.

Lemma pitch_distributions fs :
  rate fs -> dist_b (lag_cdf fs).1 (lag_cdf fs).2 (lag_count fs) = true /\
    dist_b (contour_cdf fs).1 (contour_cdf fs).2 (contour_count fs) = true.
Proof. intros [->|[->|[->| ->]]]; split; vm_compute; reflexivity. Qed.

(** Both sides take the codebooks of the rate. *)
Definition codebooks_of (fs : Z) : list SKP_Silk_NLSF_CB_struct :=
  if fs =? 8 then [SKP_Silk_NLSF_CB0_10; SKP_Silk_NLSF_CB1_10] else [SKP_Silk_NLSF_CB0_16; SKP_Silk_NLSF_CB1_16].
Definition order_of (fs : Z) : nat := if fs =? 8 then MIN_LPC_ORDER else MAX_LPC_ORDER.
Definition codebook_of (fs sigtype : Z) : SKP_Silk_NLSF_CB_struct :=
  if fs =? 8 then (if sigtype =? 0 then SKP_Silk_NLSF_CB0_10 else SKP_Silk_NLSF_CB1_10)
  else (if sigtype =? 0 then SKP_Silk_NLSF_CB0_16 else SKP_Silk_NLSF_CB1_16).

Lemma codebook_fetched fs sigtype :
  0 <= sigtype <= 1 ->
  fetch (codebooks_of fs) sigtype = Ok (codebook_of fs sigtype) /\ codebook (codebook_of fs sigtype) (order_of fs).
Proof.
  intros H. assert (sigtype = 0 \/ sigtype = 1) as [->| ->] by lia; unfold codebooks_of, codebook_of, order_of;
    destruct (fs =? 8); split; first [reflexivity|constructor].
Qed.

(** The distributions of a codebook, cut where the next one starts. *)
Definition rows (cb : SKP_Silk_NLSF_CB_struct) : list (list Z) :=
  zip_with (fun s l => take (S (Z.to_nat (nVectors s))) l) (CBStages cb) (cdfs cb).
Definition nlsf_symbols (cb : SKP_Silk_NLSF_CB_struct) (idx : list Z) : list (Z * list Z) := zip idx (rows cb).

Definition type_cdf (first : bool) (prev : Z) : list Z :=
  if first then SKP_Silk_type_offset_CDF else SKP_Silk_type_offset_joint_CDF !!! Z.to_nat prev.
Definition gain_cdf (first : bool) (sigtype : Z) : list Z :=
  if first then SKP_Silk_gain_CDF !!! Z.to_nat sigtype else SKP_Silk_delta_gain_CDF.
Definition per_cdf (PERIndex : Z) : list Z := SKP_Silk_LTP_gain_CDF_ptrs !!! Z.to_nat PERIndex.

Definition gains_symbols (first : bool) (sigtype : Z) (g : list Z) : list (Z * list Z) :=
  (g !!! 0%nat, gain_cdf first sigtype) :: ((fun x => (x, SKP_Silk_delta_gain_CDF)) <$> drop 1 g).

Definition voiced_symbols (fs : Z) (c : Enc.control) : list (Z * list Z) :=
  [(Enc.lagIndex c, (lag_cdf fs).1)] ++ [(Enc.contourIndex c, (contour_cdf fs).1)] ++
  [(Enc.PERIndex c, SKP_Silk_LTP_per_index_CDF)] ++ ((fun x => (x, per_cdf (Enc.PERIndex c))) <$> Enc.LTPIndex c) ++
  [(Enc.LTP_scaleIndex c, SKP_Silk_LTPscale_CDF)].

(** All but the excitation and what follows it. *)
Definition parameter_symbols (first : bool) (prev fs : Z) (c : Enc.control) : list (Z * list Z) :=
  [(2 * Enc.sigtype c + Enc.QuantOffsetType c, type_cdf first prev)] ++
  gains_symbols first (Enc.sigtype c) (Enc.GainsIndices c) ++
  nlsf_symbols (codebook_of fs (Enc.sigtype c)) (Enc.NLSFIndices c) ++
  [(Enc.NLSFInterpCoef_Q2 c, SKP_Silk_NLSF_interpolation_factor_CDF)] ++
  (if Enc.sigtype c =? SIG_TYPE_VOICED then voiced_symbols fs c else []) ++
  [(Enc.Seed c, SKP_Silk_Seed_CDF)].

(** The number of long-term codevectors of a codebook. *)
Definition ltp_count (PERIndex : Z) : Z := 10 * 2 ^ PERIndex.

(** Every index is one that its distribution codes. *)
Record voiced_ok (fs : Z) (c : Enc.control) : Prop := {
  lag_ok : 0 <= Enc.lagIndex c < lag_count fs;
  contour_ok : 0 <= Enc.contourIndex c < contour_count fs;
  per_ok : 0 <= Enc.PERIndex c < 3;
  ltp_length : length (Enc.LTPIndex c) = NB_SUBFR;
  ltp_ok : Forall (fun x => 0 <= x < ltp_count (Enc.PERIndex c)) (Enc.LTPIndex c);
  scale_ok : 0 <= Enc.LTP_scaleIndex c < 3
}.
Record control_ok (first : bool) (fs : Z) (c : Enc.control) : Prop := {
  sigtype_ok : 0 <= Enc.sigtype c <= 1;
  offset_ok : 0 <= Enc.QuantOffsetType c <= 1;
  gains_length : length (Enc.GainsIndices c) = NB_SUBFR;
  gains_ok : forall j i, Enc.GainsIndices c !! j = Some i -> gain_index (first && (j =? 0)%nat) i;
  nlsf_ok : indices_ok (codebook_of fs (Enc.sigtype c)) (Enc.NLSFIndices c);
  coef_ok : 0 <= Enc.NLSFInterpCoef_Q2 c < 5;
  voiced_part_ok : Enc.sigtype c = SIG_TYPE_VOICED -> voiced_ok fs c;
  seed_ok : 0 <= Enc.Seed c < 4
}.

(** [n] symbols of one distribution. *)
Lemma encode_all_writes l prob :
  writes (fun s => Enc.encode_all s (length l) l prob) ((fun x => (x, prob)) <$> l).
Proof.
  induction l as [|x l IH]; [apply writes_nil|]. cbn [length Enc.encode_all fmap list_fmap].
  apply (writes_bind _ _ [_]); [apply writes_one|exact IH].
Qed.

Lemma decode_all_reads l prob ix :
  start_ok prob ix -> reads (fun s => Dec.decode_all s (length l) prob ix) ((fun x => (x, prob)) <$> l) l.
Proof.
  intros Hix. induction l as [|x l IH]; [apply (reads_nil (A := list Z) [])|]. intros s rest s' Hc.
  cbn [length Dec.decode_all fmap list_fmap app] in *.
  read_step Hc (reads_one x prob ix Hix). read_step Hc IH. by eexists.
Qed.

Lemma all_codable l prob ix n :
  dist_b prob ix n = true -> Forall (fun x => 0 <= x < n) l -> Forall codable ((fun x => (x, prob)) <$> l).
Proof. intros [_ H]%dist_spec Hl. rewrite Forall_fmap. eapply Forall_impl; [exact Hl|]. intros x Hx. by apply H. Qed.

(** ** The first symbols *)

Lemma type_tables :
  forallb (fun p => dist_b p SKP_Silk_type_offset_CDF_offset 4) SKP_Silk_type_offset_joint_CDF &&
  forallb (fun p => dist_b p SKP_Silk_gain_CDF_offset 64) SKP_Silk_gain_CDF = true.
Proof. vm_compute. reflexivity. Qed.

Lemma type_coded first prev t :
  0 <= t < 4 -> (first = false -> 0 <= prev < 4) ->
  codable (t, type_cdf first prev) /\
  writes (fun s => Enc.encode_type s first t prev) [(t, type_cdf first prev)] /\
  reads (fun s => Dec.decode_type s first prev) [(t, type_cdf first prev)] t.
Proof.
  intros Ht Hp. pose proof distributions_ok as D. rewrite !andb_true_iff in D.
  destruct D as ((((((((_ & D) & _) & _) & _) & _) & _) & _) & _).
  pose proof type_tables as [T _]%andb_prop.
  unfold Enc.encode_type, Dec.decode_type, type_cdf. destruct first.
  - destruct (dist_symbol _ _ _ t D Ht) as [Hc Hr]. split; [done|]. split; [apply writes_one|done].
  - destruct (dist_table _ _ _ prev T ltac:(cbn; specialize (Hp eq_refl); lia)) as [E Hd]. rewrite E.
    destruct (dist_symbol _ _ _ t Hd Ht) as [Hc Hr]. split; [done|]. split; [apply writes_one|done].
Qed.

Lemma gains_coded first sigtype g :
  0 <= sigtype <= 1 -> length g = NB_SUBFR ->
  (forall j i, g !! j = Some i -> gain_index (first && (j =? 0)%nat) i) ->
  Forall codable (gains_symbols first sigtype g) /\
  writes (fun s => Enc.encode_gains s first sigtype g) (gains_symbols first sigtype g) /\
  reads (fun s => Dec.decode_gains s first sigtype) (gains_symbols first sigtype g) g.
Proof.
  intros Hs Hl Hg. pose proof distributions_ok as D. rewrite !andb_true_iff in D.
  destruct D as ((((((((_ & _) & D) & _) & _) & _) & _) & _) & _).
  pose proof type_tables as [_ T]%andb_prop.
  destruct (dist_table _ _ _ sigtype T ltac:(cbn; lia)) as [E Hd].
  destruct g as [|g0 g]; [done|]. unfold gains_symbols. rewrite (drop_0 g : drop 1 (g0 :: g) = g).
  change ((g0 :: g) !!! 0%nat) with g0. injection Hl as Hl.
  assert (Forall (fun x => 0 <= x < 45) g) as Hg'.
  { apply Forall_lookup. intros j x Hx. specialize (Hg (S j) x Hx). by rewrite andb_false_r in Hg. }
  pose proof (all_codable g _ _ _ D Hg') as Hcg. destruct (dist_spec _ _ _ D) as [Hst _].
  specialize (Hg 0%nat g0 eq_refl). rewrite andb_true_r in Hg.
  assert (codable (g0, gain_cdf first sigtype) /\
    writes (fun s => if first then cdf ← fetch SKP_Silk_gain_CDF sigtype; SKP_Silk_range_encoder s g0 cdf
                     else SKP_Silk_range_encoder s g0 SKP_Silk_delta_gain_CDF) [(g0, gain_cdf first sigtype)] /\
    reads (fun s => if first then cdf ← fetch SKP_Silk_gain_CDF sigtype;
                                  SKP_Silk_range_decoder s cdf SKP_Silk_gain_CDF_offset
                    else SKP_Silk_range_decoder s SKP_Silk_delta_gain_CDF SKP_Silk_delta_gain_CDF_offset)
      [(g0, gain_cdf first sigtype)] g0) as (Hc & Hw & Hr).
  { unfold gain_cdf. destruct first; rewrite ?E; cbn in Hg.
    - destruct (dist_symbol _ _ _ g0 Hd Hg). by split_and!; [|apply writes_one|].
    - destruct (dist_symbol _ _ _ g0 D Hg). by split_and!; [|apply writes_one|]. }
  split; [by constructor|]. unfold Enc.encode_gains, Dec.decode_gains.
  replace (NB_SUBFR - 1)%nat with (length g) by (unfold NB_SUBFR in *; lia). split.
  - intros s s'. change (fetch (g0 :: g) 0) with (Ok g0 : res Z). rewrite bind_Ok.
    exact (writes_bind _ _ [_] _ Hw (encode_all_writes g _) s s').
  - intros s rest s' Hcar. cbn [app] in Hcar. read_step Hcar Hr. read_step Hcar (decode_all_reads g _ _ Hst). by eexists.
Qed.

(** ** The line spectral frequencies *)

(** The distributions of a codebook, its stages and the entries where searches
    start belong together. *)
Definition stages_b (cb : SKP_Silk_NLSF_CB_struct) : bool :=
  (length (cdfs cb) =? length (CBStages cb))%nat && (length (MiddleIx cb) =? length (CBStages cb))%nat &&
  forallb (fun x => dist_b (take (S (Z.to_nat (nVectors x.1.1))) x.1.2) x.2 (nVectors x.1.1))
    (zip (zip (CBStages cb) (cdfs cb)) (MiddleIx cb)).

Lemma codebook_stages cb order : codebook cb order -> stages_b cb = true.
Proof. destruct 1; vm_compute; reflexivity. Qed.

Definition cut_rows (stages : list SKP_Silk_NLSF_CBS) (cds : list (list Z)) : list (list Z) :=
  zip_with (fun s l => take (S (Z.to_nat (nVectors s))) l) stages cds.

Lemma stages_coded stages cds mids idx :
  length cds = length stages -> length mids = length stages ->
  forallb (fun x => dist_b (take (S (Z.to_nat (nVectors x.1.1))) x.1.2) x.2 (nVectors x.1.1))
    (zip (zip stages cds) mids) = true ->
  Forall2 (fun s i => 0 <= i < nVectors s) stages idx ->
  Forall codable (zip idx (cut_rows stages cds)) /\
  writes (fun s => SKP_Silk_range_encoder_multi s (zip idx cds)) (zip idx (cut_rows stages cds)) /\
  reads (fun s => SKP_Silk_range_decoder_multi s (zip cds mids)) (zip idx (cut_rows stages cds)) idx.
Proof.
  intros Hc Hm Hb Hidx. revert cds mids Hc Hm Hb. induction Hidx as [|st i stages idx Hi _ IH]; intros [|cd cds] [|mid mids] Hc Hm Hb;
    try discriminate.
  - split; [constructor|]. split; [apply writes_nil|apply (reads_nil (A := list Z) [])].
  - injection Hc as Hc. injection Hm as Hm. cbn in Hb. apply andb_prop in Hb as [Hd Hb].
    destruct (IH cds mids Hc Hm Hb) as (Hcod & Hw & Hr). destruct (dist_spec _ _ _ Hd) as [Hst Hcd].
    change (cut_rows (st :: stages) (cd :: cds)) with (take (S (Z.to_nat (nVectors st))) cd :: cut_rows stages cds).
    set (row := take (S (Z.to_nat (nVectors st))) cd) in *.
    assert (cd = row ++ drop (S (Z.to_nat (nVectors st))) cd) as E by (symmetry; apply take_drop).
    cbn [zip zip_with]. split; [constructor; [by apply Hcd|done]|]. rewrite E. generalize (drop (S (Z.to_nat (nVectors st))) cd) as rest.
    clearbody row. clear E. intros rest. split.
    + exact (writes_bind _ _ [_] _ (writes_symbol i row rest) Hw).
    + intros s post s' Hcar. cbn [app SKP_Silk_range_decoder_multi] in *.
      read_step Hcar (reads_symbol i row rest mid Hst). read_step Hcar Hr. by eexists.
Qed.

Lemma nlsf_coded cb order idx :
  codebook cb order -> indices_ok cb idx ->
  Forall codable (nlsf_symbols cb idx) /\
  writes (fun s => Enc.encode_nlsf s cb idx) (nlsf_symbols cb idx) /\
  reads (fun s => Dec.decode_nlsf s cb) (nlsf_symbols cb idx) idx.
Proof.
  intros Hcb%codebook_stages Hidx. unfold stages_b in Hcb. rewrite !andb_true_iff, !Nat.eqb_eq in Hcb.
  destruct Hcb as [[Hc Hm] Hb]. destruct (stages_coded _ _ _ _ Hc Hm Hb Hidx) as (H1 & H2 & H3).
  split; [done|]. split; [|done]. unfold Enc.encode_nlsf.
  rewrite (proj2 (Nat.ltb_ge _ _)); [done|]. apply Forall2_length in Hidx. lia.
Qed.

(** ** The symbols of a voiced frame *)

(** What they stand for. *)
Definition lag_rows (fs : Z) : list (list Z) := if fs =? 8 then SKP_Silk_CB_lags_stage2 else SKP_Silk_CB_lags_stage3.
Definition pitch_lags (fs lagIndex contourIndex : Z) : list Z :=
  (fun row => PITCH_EST_MIN_LAG_MS * fs + lagIndex + row !!! Z.to_nat contourIndex) <$> lag_rows fs.
Definition ltp_vector (PERIndex i : Z) : list Z :=
  (SKP_Silk_LTP_vq_ptrs_Q14 !!! Z.to_nat PERIndex) !!! Z.to_nat i.
Definition voiced_values (fs : Z) (c : Enc.control) : list Z * Z * list Z * Z :=
  (pitch_lags fs (Enc.lagIndex c) (Enc.contourIndex c), Enc.PERIndex c,
   concat (ltp_vector (Enc.PERIndex c) <$> Enc.LTPIndex c), SKP_Silk_LTPScales_table_Q14 !!! Z.to_nat (Enc.LTP_scaleIndex c)).

Lemma lags_spec rows lag contour :
  Forall (fun row => exists x, row !! Z.to_nat contour = Some x /\ -100 <= x <= 100) rows -> 0 <= contour -> 0 <= lag <= 1000 ->
  Dec.lags rows lag contour = Ok ((fun row => lag + row !!! Z.to_nat contour) <$> rows).
Proof.
  intros Hr Hc Hl. induction Hr as [|row rows (x & Hx & Hb) _ IH]; [done|]. cbn [Dec.lags fmap list_fmap].
  rewrite (fetch_ok _ _ x), bind_Ok, (list_lookup_total_correct _ _ _ Hx) by done.
  rewrite add_s32_ok, bind_Ok by (unfold INT32_MIN, INT32_MAX; lia). by rewrite IH.
Qed.

Definition lag_rows_b (fs : Z) : bool :=
  forallb (fun row => (Z.of_nat (length row) =? contour_count fs) && forallb (fun x => (-100 <=? x) && (x <=? 100)) row) (lag_rows fs).

Lemma decode_pitch_spec fs lag contour :
  rate fs -> 0 <= lag < lag_count fs -> 0 <= contour < contour_count fs ->
  Dec.SKP_Silk_decode_pitch lag contour fs = Ok (pitch_lags fs lag contour).
Proof.
  intros Hf Hl Hc. assert (lag_rows_b fs = true) as Hb by (destruct Hf as [->|[->|[->| ->]]]; vm_compute; reflexivity).
  assert (8 <= fs <= 24) as Hr by (unfold rate in Hf; lia). unfold lag_count in Hl.
  unfold Dec.SKP_Silk_decode_pitch, pitch_lags, SKP_SMULBB, PITCH_EST_MIN_LAG_MS. rewrite !wrap_s_id by lia.
  rewrite add_s32_ok, bind_Ok by (unfold INT32_MIN, INT32_MAX; lia).
  fold (lag_rows fs). apply lags_spec; [|lia|lia].
  apply Forall_forall. intros row Hrow. unfold lag_rows_b in Hb. rewrite forallb_forall in Hb.
  specialize (Hb row (proj1 (list_elem_of_In _ _) Hrow)). rewrite andb_true_iff, Z.eqb_eq, forallb_forall in Hb.
  destruct Hb as [Hlen Hx]. destruct (lookup_lt_is_Some_2 row (Z.to_nat contour)) as [x Ex]; [lia|].
  exists x. split; [done|]. specialize (Hx x (proj1 (list_elem_of_In _ _) (list_elem_of_lookup_2 _ _ _ Ex))). lia.
Qed.

(** A codevector is a row of its codebook. *)
Definition vector_b (p i : Z) : bool :=
  match Dec.copy_coefs (concat (SKP_Silk_LTP_vq_ptrs_Q14 !!! Z.to_nat p)) LTP_ORDER (SKP_SMULBB i (Z.of_nat LTP_ORDER)) with
  | Ok v => bool_decide (v = ltp_vector p i)
  | _ => false
  end.

Lemma ltp_tables :
  forallb (fun p => forallb (fun i => vector_b (Z.of_nat p) (Z.of_nat i)) (seq 0 (Z.to_nat (ltp_count (Z.of_nat p)))) &&
      dist_b (per_cdf (Z.of_nat p)) (SKP_Silk_LTP_gain_CDF_offsets !!! p) (ltp_count (Z.of_nat p))) (seq 0 3) = true.
Proof. vm_compute. reflexivity. Qed.

Lemma ltp_facts p :
  0 <= p < 3 ->
  dist_b (per_cdf p) (SKP_Silk_LTP_gain_CDF_offsets !!! Z.to_nat p) (ltp_count p) = true /\
  forall i, 0 <= i < ltp_count p ->
    Dec.copy_coefs (concat (SKP_Silk_LTP_vq_ptrs_Q14 !!! Z.to_nat p)) LTP_ORDER (SKP_SMULBB i (Z.of_nat LTP_ORDER)) =
      Ok (ltp_vector p i).
Proof.
  intros Hp. pose proof ltp_tables as H. rewrite forallb_forall in H. specialize (H (Z.to_nat p)).
  rewrite andb_true_iff, forallb_forall, Z2Nat.id in H by lia. destruct H as [H1 H2].
  { apply in_seq. lia. } split; [done|]. intros i Hi. specialize (H1 (Z.to_nat i)). rewrite Z2Nat.id in H1 by lia.
  unfold vector_b in H1. rewrite in_seq in H1. specialize (H1 ltac:(lia)).
  destruct (Dec.copy_coefs _ _ _) as [v| |]; [|done..]. by apply bool_decide_eq_true in H1 as ->.
Qed.

Lemma decode_ltp_reads p idx :
  0 <= p < 3 -> Forall (fun x => 0 <= x < ltp_count p) idx ->
  reads (fun s => Dec.decode_ltp s (length idx) (concat (SKP_Silk_LTP_vq_ptrs_Q14 !!! Z.to_nat p)) (per_cdf p)
                    (SKP_Silk_LTP_gain_CDF_offsets !!! Z.to_nat p))
    ((fun x => (x, per_cdf p)) <$> idx) (concat (ltp_vector p <$> idx)).
Proof.
  intros Hp Hidx. destruct (ltp_facts p Hp) as [Hd Hv]. destruct (dist_spec _ _ _ Hd) as [Hst _].
  induction Hidx as [|i idx Hi _ IH]; [apply (reads_nil (A := list Z) [])|]. intros s rest s' Hc.
  cbn [length Dec.decode_ltp fmap list_fmap app concat] in *.
  read_step Hc (reads_one i (per_cdf p) _ Hst). rewrite (Hv i Hi), bind_Ok. read_step Hc IH. by eexists.
Qed.

Lemma voiced_coded fs c :
  rate fs -> voiced_ok fs c ->
  Forall codable (voiced_symbols fs c) /\
  writes (fun s => Enc.encode_voiced s fs c) (voiced_symbols fs c) /\
  reads (fun s => Dec.decode_voiced s fs) (voiced_symbols fs c) (voiced_values fs c).
Proof.
  intros Hf [Hlag Hcont Hper Hlen Hltp Hscale]. pose proof distributions_ok as D. rewrite !andb_true_iff in D.
  destruct D as ((((((((_ & _) & _) & _) & Dp) & Ds) & _) & _) & _).
  destruct (pitch_distributions fs Hf) as [Dl Dc]. destruct (ltp_facts _ Hper) as [Dg _].
  destruct (dist_symbol _ _ _ _ Dl Hlag) as [Cl Rl]. destruct (dist_symbol _ _ _ _ Dc Hcont) as [Cc Rc].
  destruct (dist_symbol _ _ _ _ Dp Hper) as [Cp Rp]. destruct (dist_symbol _ _ _ _ Ds Hscale) as [Cs Rs].
  assert (fetch SKP_Silk_LTP_gain_CDF_ptrs (Enc.PERIndex c) = Ok (per_cdf (Enc.PERIndex c))) as Eg
    by (apply fetch_total; cbn; lia).
  split; [|split].
  - unfold voiced_symbols. rewrite !Forall_app. split_and!; first [by apply Forall_singleton|by eapply all_codable].
  - unfold Enc.encode_voiced, voiced_symbols.
    apply (writes_bind (fun s => SKP_Silk_range_encoder s (Enc.lagIndex c) _) _ [_]); [apply writes_one|].
    apply (writes_bind (fun s => SKP_Silk_range_encoder s (Enc.contourIndex c) _) _ [_]); [apply writes_one|].
    apply (writes_bind (fun s => SKP_Silk_range_encoder s (Enc.PERIndex c) _) _ [_]); [apply writes_one|].
    rewrite Eg. apply (writes_bind (fun s => Enc.encode_all s NB_SUBFR (Enc.LTPIndex c) _)); [|apply writes_one].
    rewrite <- Hlen. apply encode_all_writes.
  - intros s rest s' Hcar. unfold Dec.decode_voiced, voiced_symbols in *. rewrite <- !app_assoc in Hcar.
    read_step Hcar Rl. read_step Hcar Rc. rewrite decode_pitch_spec, bind_Ok by done. read_step Hcar Rp.
    rewrite (fetch_total SKP_Silk_LTP_vq_ptrs_Q14 _ (Z.to_nat (Enc.PERIndex c))), bind_Ok by (cbn; lia). rewrite Eg, bind_Ok.
    rewrite (fetch_total SKP_Silk_LTP_gain_CDF_offsets _ (Z.to_nat (Enc.PERIndex c))), bind_Ok by (cbn; lia). rewrite <- Hlen.
    read_step Hcar (decode_ltp_reads _ _ Hper Hltp). read_step Hcar Rs.
    rewrite (fetch_total SKP_Silk_LTPScales_table_Q14 _ (Z.to_nat (Enc.LTP_scaleIndex c))), bind_Ok by (cbn; lia). by eexists.
Qed.

(** ** A whole frame *)

(** The first frame of a packet is coded without reference to the one before. *)
Definition enc_first (s : Enc.state) : bool := Enc.nFramesInPayloadBuf s =? 0.
Definition dec_first (d : Dec.state) : bool := Dec.nFramesDecoded d =? 0.

(** An encoder between two frames. *)
Record encoder_ok (s : Enc.state) : Prop := {
  enc_rate : rate (Enc.fs_kHz s);
  enc_books : Enc.psNLSF_CB s = codebooks_of (Enc.fs_kHz s);
  enc_frame_length : Z.of_nat (Enc.frame_length s) = FRAME_LENGTH_MS * Enc.fs_kHz s;
  enc_type : enc_first s = false -> 0 <= Enc.typeOffsetPrev s < 4
}.

(** The samples of a frame at the rate [fs]. *)
Definition frame_samples (fs : Z) (q : list Z) : Prop :=
  Z.of_nat (length q) = FRAME_LENGTH_MS * fs /\ Forall sample q.

Lemma samples_blocks fs q :
  rate fs -> frame_samples fs q ->
  exists iter, length q = (iter * SHELL_CODEC_FRAME_LENGTH)%nat /\ (iter <= 30)%nat.
Proof.
  intros Hf [Hl _]. exists (Z.to_nat (5 * fs / 4)). unfold FRAME_LENGTH_MS, SHELL_CODEC_FRAME_LENGTH in *.
  destruct Hf as [->|[->|[->| ->]]]; cbn in *; lia.
Qed.

Lemma parameters_coded first prev fs c :
  rate fs -> control_ok first fs c -> (first = false -> 0 <= prev < 4) -> Forall codable (parameter_symbols first prev fs c).
Proof.
  intros Hf [Hs Ho Hl Hg Hn Hc Hv Hseed] Hp. pose proof distributions_ok as D. rewrite !andb_true_iff in D.
  destruct D as ((((((((_ & _) & _) & Di) & _) & _) & Dd) & _) & _).
  destruct (type_coded first prev (2 * Enc.sigtype c + Enc.QuantOffsetType c)) as (C1 & _); [lia|done|].
  destruct (gains_coded first (Enc.sigtype c) (Enc.GainsIndices c) Hs Hl Hg) as (C2 & _).
  destruct (codebook_fetched fs (Enc.sigtype c) Hs) as [_ Hcb].
  destruct (nlsf_coded _ _ _ Hcb Hn) as (C3 & _).
  destruct (dist_symbol _ _ _ _ Di Hc) as [C4 _]. destruct (dist_symbol _ _ _ _ Dd Hseed) as [C5 _].
  unfold parameter_symbols. rewrite !Forall_app, !Forall_singleton. split_and!; try done.
  destruct (Z.eqb_spec (Enc.sigtype c) SIG_TYPE_VOICED) as [E|]; [|constructor].
  by apply (voiced_coded fs c Hf), Hv.
Qed.

Definition vad_symbol (vad : Z) : Z * list Z := (vad, SKP_Silk_vadflag_CDF).
Definition term_symbol (term : Z) : Z * list Z := (term, SKP_Silk_FrameTermination_CDF).

(** What the encoder writes. *)
Lemma encode_frame_writes s c q pulses :
  encoder_ok s -> control_ok (enc_first s) (Enc.fs_kHz s) c ->
  writes (fun r => SKP_Silk_encode_pulses r (Enc.sigtype c) (Enc.QuantOffsetType c) q (Enc.frame_length s)) pulses ->
  writes (fun r => Enc.encode_frame r s c q)
    (parameter_symbols (enc_first s) (Enc.typeOffsetPrev s) (Enc.fs_kHz s) c ++ pulses ++ [vad_symbol (Enc.vadFlag s)]).
Proof.
  intros [Hf Hb _ Ht] [Hs Ho Hl Hg Hn Hc Hv Hseed] Hpulses.
  destruct (type_coded (enc_first s) (Enc.typeOffsetPrev s) (2 * Enc.sigtype c + Enc.QuantOffsetType c)) as (_ & W1 & _);
    [lia|done|].
  destruct (gains_coded (enc_first s) (Enc.sigtype c) (Enc.GainsIndices c) Hs Hl Hg) as (_ & W2 & _).
  destruct (codebook_fetched (Enc.fs_kHz s) (Enc.sigtype c) Hs) as [Ecb Hcb].
  destruct (nlsf_coded _ _ _ Hcb Hn) as (_ & W3 & _).
  unfold Enc.encode_frame, parameter_symbols. fold (enc_first s). rewrite <- !app_assoc.
  apply (writes_bind (fun r => Enc.encode_type r _ _ _)); [exact W1|].
  apply (writes_bind (fun r => Enc.encode_gains r _ _ _)); [exact W2|].
  rewrite Hb, Ecb. apply (writes_bind (fun r => Enc.encode_nlsf r _ _)); [exact W3|].
  apply (writes_bind (fun r => SKP_Silk_range_encoder r _ _) _ [_]); [apply writes_one|].
  apply (writes_bind (fun r => if Enc.sigtype c =? SIG_TYPE_VOICED then Enc.encode_voiced r (Enc.fs_kHz s) c else Ok r)).
  { destruct (Z.eqb_spec (Enc.sigtype c) SIG_TYPE_VOICED) as [E|]; [|apply writes_nil].
    by apply (voiced_coded (Enc.fs_kHz s) c Hf), Hv. }
  apply (writes_bind (fun r => SKP_Silk_range_encoder r _ _) _ [_]); [apply writes_one|].
  apply (writes_bind (fun r => SKP_Silk_encode_pulses r _ _ _ _)); [exact Hpulses|apply writes_one].
Qed.

Lemma gains_dequant_total ind prev conditional :
  length ind = NB_SUBFR -> exists g last, SKP_Silk_gains_dequant ind prev conditional = Ok (g, last).
Proof.
  intros Hl. unfold SKP_Silk_gains_dequant. rewrite <- Hl. generalize (conditional =? 0) as full. clear Hl.
  revert prev. induction ind as [|i ind IH]; intros prev full; [by eexists _, _|].
  cbn [length gains_dequant_loop]. unfold dequant_gain.
  match goal with |- context [gain_of ?x] => destruct (gain_of_total x) as (g & -> & _) end.
  rewrite !bind_Ok. destruct (IH (if full then i else prev + (i + MIN_DELTA_GAIN_QUANT)) false) as (gs & last & ->).
  rewrite bind_Ok. by eexists _, _.
Qed.

(** What the decoder makes of the indices [c] and the samples [q] when the coder
    stands at [r] behind them. *)
Definition decoded (d : Dec.state) (dc : Dec.control) (c : Enc.control) (q : list Z) (vad term level : Z)
    (r : SKP_Silk_range_coder_state) (full : bool) : res (Dec.state * Dec.control * list Z) :=
  '(gains, last) ← SKP_Silk_gains_dequant (Enc.GainsIndices c) (Dec.LastGainIndex d) (Dec.nFramesDecoded d);
  nlsf ← SKP_Silk_NLSF_MSVQ_decode (codebook_of (Dec.fs_kHz d) (Enc.sigtype c)) (Enc.NLSFIndices c) (Dec.LPC_order d);
  let coef := if Dec.first_frame_after_reset d =? 1 then 4 else Enc.NLSFInterpCoef_Q2 c in
  pred ← Dec.pred_coefs d (Dec.PredCoef_Q12 dc) nlsf coef full;
  let '(pitch, per, ltp, scale) :=
    if Enc.sigtype c =? SIG_TYPE_VOICED then voiced_values (Dec.fs_kHz d) c
    else (replicate NB_SUBFR 0, 0, replicate (NB_SUBFR * LTP_ORDER) 0, 0) in
  '(bytes, r) ← Dec.finish r;
  Ok (Dec.set_parameters d r last (2 * Enc.sigtype c + Enc.QuantOffsetType c)
        (nlsf ++ drop (Dec.LPC_order d) (Dec.prevNLSF_Q15 d))%list bytes term vad,
      Dec.Control pitch gains (Enc.Seed c) pred ltp scale per level (Enc.QuantOffsetType c) (Enc.sigtype c) coef, q).

(** A computation that does not depend on what is looked for. *)
Lemma exists_bind {A B C} (P : C -> Prop) (p : res A) (F : A -> res B) (G : C -> A -> res B) :
  (exists r, P r /\ forall a, F a = G r a) -> exists r, P r /\ (p ≫= F) = (p ≫= G r).
Proof. intros (r & Hr & H). exists r. split; [done|]. destruct p; [apply H|done|done]. Qed.

Lemma voiced_part_reads fs c :
  rate fs -> (Enc.sigtype c = SIG_TYPE_VOICED -> voiced_ok fs c) ->
  reads (fun r => if Enc.sigtype c =? SIG_TYPE_VOICED then Dec.decode_voiced r fs
                  else Ok (replicate NB_SUBFR 0, 0, replicate (NB_SUBFR * LTP_ORDER) 0, 0, r))
    (if Enc.sigtype c =? SIG_TYPE_VOICED then voiced_symbols fs c else [])
    (if Enc.sigtype c =? SIG_TYPE_VOICED then voiced_values fs c
     else (replicate NB_SUBFR 0, 0, replicate (NB_SUBFR * LTP_ORDER) 0, 0)).
Proof.
  intros Hf Hv. destruct (Z.eqb_spec (Enc.sigtype c) SIG_TYPE_VOICED) as [E|]; [|apply reads_nil].
  by apply (voiced_coded fs c Hf), Hv.
Qed.

(** A decoder between two frames. *)
Record decoder_ok (d : Dec.state) : Prop := {
  dec_rate : rate (Dec.fs_kHz d);
  dec_books : Dec.psNLSF_CB d = codebooks_of (Dec.fs_kHz d);
  dec_order : Dec.LPC_order d = order_of (Dec.fs_kHz d);
  dec_frame_length : Dec.frame_length d = FRAME_LENGTH_MS * Dec.fs_kHz d;
  dec_type : dec_first d = false -> 0 <= Dec.typeOffsetPrev d < 4
}.

Lemma decode_frame_reads d dc c q0 q fuel full pulses level vad term rest s' :
  decoder_ok d -> control_ok (dec_first d) (Dec.fs_kHz d) c -> 0 <= vad < 2 -> 0 <= term < 4 ->
  reads (fun r => SKP_Silk_decode_pulses fuel r (Enc.sigtype c) (Enc.QuantOffsetType c) q0 (Z.to_nat (Dec.frame_length d)))
    pulses (q, level) ->
  carries (Dec.sRC d)
    ((parameter_symbols (dec_first d) (Dec.typeOffsetPrev d) (Dec.fs_kHz d) c ++ pulses ++ [vad_symbol vad]) ++
     term_symbol term :: rest) s' ->
  exists r, carries r rest s' /\ Dec.decode_frame fuel d dc q0 full = decoded d dc c q vad term level r full.
Proof.
  intros [Hf Hb Hord _ Ht] [Hs Ho Hl Hg Hn Hc Hv Hseed] Hvad Hterm Rp Hcar.
  pose proof distributions_ok as D. rewrite !andb_true_iff in D.
  destruct D as ((((((((_ & _) & _) & Di) & _) & _) & Dd) & Da) & Dt).
  destruct (dist_symbol _ _ _ _ Di Hc) as [_ R4]. destruct (dist_symbol _ _ _ _ Dd Hseed) as [_ R5].
  destruct (dist_symbol _ _ _ _ Da Hvad) as [_ R6]. destruct (dist_symbol _ _ _ _ Dt Hterm) as [_ R7].
  destruct (type_coded (dec_first d) (Dec.typeOffsetPrev d) (2 * Enc.sigtype c + Enc.QuantOffsetType c)) as (_ & _ & R1);
    [lia|done|].
  destruct (gains_coded (dec_first d) (Enc.sigtype c) (Enc.GainsIndices c) Hs Hl Hg) as (_ & _ & R2).
  destruct (codebook_fetched (Dec.fs_kHz d) (Enc.sigtype c) Hs) as [Ecb Hcb].
  destruct (nlsf_coded _ _ _ Hcb Hn) as (_ & _ & R3).
  unfold parameter_symbols in Hcar. rewrite <- !app_assoc in Hcar.
  unfold Dec.decode_frame, decoded. fold (dec_first d). read_step Hcar R1.
  assert (Z.shiftr (2 * Enc.sigtype c + Enc.QuantOffsetType c) 1 = Enc.sigtype c) as -> by (rewrite Z.shiftr_div_pow2; lia).
  assert (Z.land (2 * Enc.sigtype c + Enc.QuantOffsetType c) 1 = Enc.QuantOffsetType c) as ->
    by (rewrite (Z.land_ones _ 1) by lia; lia).
  read_step Hcar R2. destruct (gains_dequant_total _ (Dec.LastGainIndex d) (Dec.nFramesDecoded d) Hl) as (gs & last & ->).
  rewrite !bind_Ok, Hb, Ecb, bind_Ok. read_step Hcar R3.
  rewrite Hord. destruct (MSVQ_decode_spec _ _ Hcb _ Hn) as (nlsf & -> & _). rewrite !bind_Ok.
  read_step Hcar R4.
  setoid_rewrite bind_Ok. setoid_rewrite bind_Ok.
  apply exists_bind. destruct (voiced_part_reads _ c Hf Hv _ _ _ Hcar) as (r & Ev & Hcar').
  clear Hcar. rename Hcar' into Hcar. destruct (R5 _ _ _ Hcar) as (r5 & E5 & Hc5).
  destruct (Rp _ _ _ Hc5) as (r6 & E6 & Hc6). destruct (R6 _ _ _ Hc6) as (r7 & E7 & Hc7).
  destruct (R7 _ _ _ Hc7) as (r8 & E8 & Hc8). exists r8. split; [exact Hc8|]. intros pred.
  rewrite Ev.
  generalize (if Enc.sigtype c =? SIG_TYPE_VOICED then voiced_values (Dec.fs_kHz d) c
              else (replicate NB_SUBFR 0, 0, replicate (NB_SUBFR * LTP_ORDER) 0, 0)).
  intros [[[pitch per] ltp] scale]. by rewrite bind_Ok, E5, bind_Ok, E6, bind_Ok, E7, bind_Ok, E8, bind_Ok.
Qed.
