(* ===== verification/SilkPacket.v ===== *)
(** * Packets of the SILK codec

    The bit stream part of [SKP_Silk_encode_frame_FIX]
    ([jni/silk/src/SKP_Silk_encode_frame_FIX.c]), which puts frames into packets and
    appends the redundancy for a packet sent before; and the symbols of a packet,
    with the bytes that they take at least.  [bitstream_v] is
    [USE_BIT_STREAM_V], version 3. *)
From Stdlib Require Import ZArith Lia.
From stdpp Require Import base list.
From S2P Require Import Prelude.
From S2P Require Import SilkRange.
From S2P Require Import SilkMath.
From S2P Require Import SilkGains.
From S2P Require Import SilkTables.
From S2P Require Import SilkNlsfTables.
From S2P Require Import SilkNlsf.
From S2P Require Import SilkPulses.
From S2P Require Import SilkFrame.

Open Scope Z_scope.

Definition SKP_SILK_LAST_FRAME : Z := 0.
Definition SKP_SILK_MORE_FRAMES : Z := 1.
Definition SKP_SILK_LBRR_VER1 : Z := 2.
Definition SKP_SILK_LBRR_VER2 : Z := 3.
Definition SKP_SILK_ADD_LBRR_TO_PLUS1 : Z := 1.
Definition SKP_SILK_ADD_LBRR_TO_PLUS2 : Z := 2.
Definition LBRR_IDX_MASK : Z := 1.
Definition SPEECH_ACTIVITY_DTX_THRES_Q8 : Z := 26.
Definition NO_SPEECH_FRAMES_BEFORE_DTX : Z := 5.
Definition MAX_CONSECUTIVE_DTX : Z := 20.
Definition SKP_SILK_ENC_PAYLOAD_BUF_TOO_SHORT : Z := -4.
Definition SKP_SILK_ENC_INTERNAL_ERROR : Z := -9.

(** [memcpy( &dst[ off ], src, n )] *)
Definition copy_at (dst : list Z) (off : Z) (src : list Z) (n : Z) : res (list Z) :=
  if (off <? 0) || (Z.of_nat (length dst) <? off) then Err OutOfBounds
  else
    d ← memcpy (drop (Z.to_nat off) dst) src n;
    Ok (take (Z.to_nat off) dst ++ d)%list.

(** ** The encoder *)

(** [SKP_SILK_LBRR_struct] *)
Record SKP_SILK_LBRR_struct := Lbrr { payload : list Z; nBytes : Z; usage : Z }.
#[export] Instance lbrr_inhabited : Inhabited SKP_SILK_LBRR_struct := populate (Lbrr [] 0 0).

(** The encoder: what the parameters use, and the members that make packets. *)
Record packet_state := PacketState {
  sCmn : Enc.state;
  PacketSize_ms : Z;
  LBRR_buffer : list SKP_SILK_LBRR_struct;
  oldest_LBRR_idx : Z;
  noSpeechCounter : Z;
  inDTX : Z
}.

(** What the analysis of a frame has found: the indices, the quantised excitation,
    the speech activity, and the redundancy for later packets. *)
Record frame := Frame {
  indices : Enc.control;
  excitation : list Z;
  speech_activity_Q8 : Z;
  LBRRpayload : list Z;
  nBytesLBRR : Z;
  LBRR_usage : Z
}.

Definition set_vadFlag (s : Enc.state) (v : Z) : Enc.state :=
  Enc.State (Enc.sRC s) (Enc.sRC_LBRR s) (Enc.nFramesInPayloadBuf s) (Enc.nBytesInPayloadBuf s) (Enc.fs_kHz s)
    (Enc.frame_length s) (Enc.typeOffsetPrev s) (Enc.psNLSF_CB s) v.
Definition set_payload (s : Enc.state) (r : SKP_Silk_range_coder_state) (frames bytes : Z) : Enc.state :=
  Enc.State r (Enc.sRC_LBRR s) frames bytes (Enc.fs_kHz s) (Enc.frame_length s) (Enc.typeOffsetPrev s)
    (Enc.psNLSF_CB s) (Enc.vadFlag s).

(** The flags of voice activity and of discontinuous transmission. *)
Definition activity_flags (e : packet_state) (speech_activity_Q8 : Z) : packet_state :=
  let '(vad, counter, dtx) :=
    if speech_activity_Q8 <? SPEECH_ACTIVITY_DTX_THRES_Q8 then
      let counter := noSpeechCounter e + 1 in
      let dtx := if NO_SPEECH_FRAMES_BEFORE_DTX <? counter then 1 else inDTX e in
      if MAX_CONSECUTIVE_DTX <? counter then (0, 0, 0) else (0, counter, dtx)
    else (1, 0, 0) in
  PacketState (set_vadFlag (sCmn e) vad) (PacketSize_ms e) (LBRR_buffer e) (oldest_LBRR_idx e) counter dtx.

(** Which redundancy goes with the packet, and how the packet says so. *)
Definition terminator (e : packet_state) : res (Z * Z) :=
  let LBRR_idx := Z.land (oldest_LBRR_idx e + 1) LBRR_IDX_MASK in
  next ← fetch (LBRR_buffer e) LBRR_idx;
  oldest ← fetch (LBRR_buffer e) (oldest_LBRR_idx e);
  let term := if usage next =? SKP_SILK_ADD_LBRR_TO_PLUS1 then SKP_SILK_LBRR_VER1 else SKP_SILK_LAST_FRAME in
  Ok (if usage oldest =? SKP_SILK_ADD_LBRR_TO_PLUS2 then (SKP_SILK_LBRR_VER2, oldest_LBRR_idx e) else (term, LBRR_idx)).

Definition with_common (e : packet_state) (s : Enc.state) : packet_state :=
  PacketState s (PacketSize_ms e) (LBRR_buffer e) (oldest_LBRR_idx e) (noSpeechCounter e) (inDTX e).

(** The end of a packet: the state, the output and its length, and the error. *)
Definition finish_packet (e : packet_state) (f : frame) (pCode : list Z) (pnBytesOut : Z)
    : res (packet_state * list Z * Z * Z) :=
  let s := sCmn e in
  '(frame_terminator, LBRR_idx) ← terminator e;
  r ← SKP_Silk_range_encoder (Enc.sRC s) frame_terminator SKP_Silk_FrameTermination_CDF;
  let '(_, n) := SKP_Silk_range_coder_get_length r in
  if n <=? pnBytesOut then
    r ← SKP_Silk_range_enc_wrap_up r;
    pCode ← copy_at pCode 0 (buffer r) n;
    lb ← fetch (LBRR_buffer e) LBRR_idx;
    '((pCode, n) : list Z * Z) ←
      (if (SKP_SILK_MORE_FRAMES <? frame_terminator) && (n + nBytes lb <=? pnBytesOut) then
         pCode ← copy_at pCode n (payload lb) (nBytes lb);
         Ok (pCode, n + nBytes lb)
       else Ok (pCode, n));
    old ← fetch (LBRR_buffer e) (oldest_LBRR_idx e);
    p ← memcpy (payload old) (LBRRpayload f) (nBytesLBRR f);
    buf ← store_at (LBRR_buffer e) (oldest_LBRR_idx e) (Lbrr p (nBytesLBRR f) (LBRR_usage f));
    Ok (PacketState (set_payload s r 0 n) (PacketSize_ms e) buf (Z.land (oldest_LBRR_idx e + 1) LBRR_IDX_MASK)
          (noSpeechCounter e) (inDTX e), pCode, s16 n, 0)
  else Ok (with_common e (set_payload s r 0 0), pCode, 0, SKP_SILK_ENC_PAYLOAD_BUF_TOO_SHORT).

(** The packet goes on. *)
Definition continue_packet (e : packet_state) (pCode : list Z) : res (packet_state * list Z * Z * Z) :=
  let s := sCmn e in
  r ← SKP_Silk_range_encoder (Enc.sRC s) SKP_SILK_MORE_FRAMES SKP_Silk_FrameTermination_CDF;
  let '(_, n) := SKP_Silk_range_coder_get_length r in
  Ok (with_common e (set_payload s r (Enc.nFramesInPayloadBuf s) n), pCode, 0, 0).

(** [SKP_Silk_encode_frame_FIX] from the flags to the errors of the coder. *)
Definition code_frame (e : packet_state) (f : frame) (pCode : list Z) (pnBytesOut : Z)
    : res (packet_state * list Z * Z * Z) :=
  let e := activity_flags e (speech_activity_Q8 f) in
  let s := if Enc.nFramesInPayloadBuf (sCmn e) =? 0 then Enc.init_payload (sCmn e) else sCmn e in
  s ← Enc.SKP_Silk_encode_parameters s (indices f) false (excitation f);
  let frames := if negb (error (Enc.sRC s) =? 0) then 0 else Enc.nFramesInPayloadBuf s + 1 in
  let e := with_common e (set_payload s (Enc.sRC s) frames (Enc.nBytesInPayloadBuf s)) in
  '(e, pCode, nBytesOut, ret) ←
    (if PacketSize_ms e <=? frames * FRAME_LENGTH_MS then finish_packet e f pCode pnBytesOut
     else continue_packet e pCode);
  Ok (e, pCode, nBytesOut, if negb (error (Enc.sRC (sCmn e)) =? 0) then SKP_SILK_ENC_INTERNAL_ERROR else ret).

(** Frame after frame, as long as there is no error: what the last one leaves. *)
Fixpoint code_frames (e : packet_state) (fs : list frame) (pCode : list Z) (pnBytesOut : Z)
    : res (packet_state * list Z * Z * Z) :=
  match fs with
  | [] => Ok (e, pCode, 0, 0)
  | f :: fs =>
      '(e, pCode, n, ret) ← code_frame e f pCode pnBytesOut;
      if negb (ret =? 0) || match fs with [] => true | _ => false end then Ok (e, pCode, n, ret)
      else code_frames e fs pCode pnBytesOut
  end.

(** ** How far symbols lengthen the stream

    The decoder goes on with a packet only if bytes are left: a frame always takes
    at least one whole byte. *)

(** The bytes that an interval needs. *)
Definition bytes_of (i : interval) : nat := (count i + end_bytes (width i))%nat.

Lemma end_bytes_spec w : 256 <= w <= 65535 -> end_bytes w = if w <=? 512 then 2%nat else 1%nat.
Proof.
  intros Hw. destruct (end_bits_spec w Hw) as [Hk Hb]. unfold end_bytes.
  destruct (Z.ltb_spec 8 (end_bits w)), (Z.leb_spec w 512); try done; exfalso.
  - assert (2 ^ (18 - end_bits w) <= 2 ^ 9) by (apply Z.pow_le_mono_r; lia). lia.
  - assert (2 ^ 9 <= 2 ^ (17 - end_bits w)) by (apply Z.pow_le_mono_r; lia). lia.
Qed.

(** The product of the sizes of the symbols, each out of 2^16. *)
Definition size (sym : Z * list Z) : Z := (limits sym.2 sym.1).2 - (limits sym.2 sym.1).1.
Definition chance (l : list (Z * list Z)) : Z := foldr (fun s p => size s * p) 1 l.

Lemma chance_app l1 l2 : chance (l1 ++ l2) = chance l1 * chance l2.
Proof.
  induction l1 as [|s l1 IH]; [by rewrite Z.mul_1_l|]. unfold chance in *. cbn [app foldr]. rewrite IH. ring.
Qed.

Lemma size_bounds sym : codable sym -> 0 < size sym <= 2 ^ 16.
Proof. intros H%codable_bounds. unfold size. destruct (limits sym.2 sym.1) as [l h]. cbn [fst snd] in *. lia. Qed.

Definition room (l : list (Z * list Z)) : Z := 2 ^ (16 * Z.of_nat (length l)).

Lemma room_cons s l : room (s :: l) = 2 ^ 16 * room l.
Proof. unfold room. rewrite <- Z.pow_add_r by lia. f_equal. cbn [length]. lia. Qed.
Lemma room_app l1 l2 : room (l1 ++ l2) = room l1 * room l2.
Proof. unfold room. rewrite length_app, <- Z.pow_add_r by lia. f_equal. lia. Qed.

Lemma chance_bounds l : Forall codable l -> 0 < chance l <= room l.
Proof.
  induction 1 as [|s l Hs _ IH]; [by split|]. rewrite room_cons. cbn [chance foldr]. fold (chance l).
  pose proof (size_bounds s Hs). split; [lia|]. apply Z.mul_le_mono_nonneg; lia.
Qed.

(** A narrowed interval is not wider than its share. *)
Lemma narrow_share i sym :
  wide i -> codable sym -> let j := narrow_by i sym in
  width j * 2 ^ 16 <= width i * size sym * 256 ^ Z.of_nat (count j - count i).
Proof.
  intros [_ Hw] Hs j. pose proof (size_bounds sym Hs) as Hsz. subst j. unfold narrow_by, size in *.
  destruct (limits sym.2 sym.1) as [l h]. cbn [fst snd] in *. unfold narrow.
  set (r := width i * (h - l)) in *. assert (0 < r) by (unfold r; nia).
  destruct (Z.leb_spec (2 ^ 24) r); [|destruct (Z.leb_spec (2 ^ 16) r)]; cbn [width count].
  - rewrite Nat.sub_diag. change (256 ^ Z.of_nat 0) with 1. lia.
  - replace (S (count i) - count i)%nat with 1%nat by lia. change (256 ^ Z.of_nat 1) with (2 ^ 8). lia.
  - replace (S (S (count i)) - count i)%nat with 2%nat by lia. change (256 ^ Z.of_nat 2) with (2 ^ 16). lia.
Qed.

Lemma narrow_all_share i l :
  wide i -> Forall codable l -> let j := narrow_all i l in
  width j * room l <= width i * chance l * 256 ^ Z.of_nat (count j - count i).
Proof.
  intros Hw Hl j. subst j. revert i Hw. induction Hl as [|s l Hs Hl IH]; intros i Hw.
  - cbn [narrow_all foldl]. rewrite Nat.sub_diag. change (room []) with 1. cbn. lia.
  - change (narrow_all i (s :: l)) with (narrow_all (narrow_by i s) l).
    pose proof (narrow_by_wide _ _ Hw Hs) as Hw'. specialize (IH _ Hw').
    pose proof (narrow_share i s Hw Hs) as Hsh. cbn zeta in IH, Hsh.
    pose proof (narrow_by_count i s Hw Hs) as Hc. pose proof (narrow_all_count _ _ Hw' Hl) as Hc'.
    set (j := narrow_by i s) in *. set (k := narrow_all j l) in *.
    rewrite room_cons. cbn [chance foldr]. fold (chance l). destruct (chance_bounds l Hl) as [Hp _].
    replace (256 ^ Z.of_nat (count k - count i)) with
      (256 ^ Z.of_nat (count j - count i) * 256 ^ Z.of_nat (count k - count j))
      by (rewrite <- Z.pow_add_r by lia; f_equal; lia).
    assert (0 < 256 ^ Z.of_nat (count k - count j)) as Hpow by (apply Z.pow_pos_nonneg; lia).
    set (P := 256 ^ Z.of_nat (count k - count j)) in *. set (Q := 256 ^ Z.of_nat (count j - count i)) in *.
    assert (width k * room l * 2 ^ 16 <= width j * 2 ^ 16 * chance l * P) by nia.
    assert (width j * 2 ^ 16 * (chance l * P) <= width i * size s * Q * (chance l * P)) by (apply Z.mul_le_mono_nonneg_r; nia).
    lia.
Qed.

Lemma share_grows i j m :
  wide i -> wide j -> (count i <= count j)%nat -> (m = 0 \/ m = 1) ->
  width j * 256 ^ m <= width i * 256 ^ Z.of_nat (count j - count i) ->
  Z.of_nat (bytes_of i) + m <= Z.of_nat (bytes_of j).
Proof.
  intros [_ Hi] [_ Hj] Hc Hm Hs. unfold bytes_of. rewrite !end_bytes_spec by done.
  destruct (count j - count i)%nat as [|[|d]] eqn:E.
  - change (256 ^ Z.of_nat 0) with 1 in Hs. destruct Hm as [-> | ->]; cbn -[Z.mul Z.add Z.of_nat] in Hs;
      destruct (Z.leb_spec (width i) 512), (Z.leb_spec (width j) 512); lia.
  - change (256 ^ Z.of_nat 1) with 256 in Hs. destruct Hm as [-> | ->]; cbn -[Z.mul Z.add Z.of_nat] in Hs;
      destruct (Z.leb_spec (width i) 512), (Z.leb_spec (width j) 512); lia.
  - destruct (Z.leb_spec (width i) 512), (Z.leb_spec (width j) 512); lia.
Qed.

(** Symbols never shorten the stream, and such of little chance lengthen it. *)
Lemma bytes_grow i l m :
  wide i -> Forall codable l -> (m = 0 \/ m = 1) -> chance l * 256 ^ m <= room l ->
  Z.of_nat (bytes_of i) + m <= Z.of_nat (bytes_of (narrow_all i l)).
Proof.
  intros Hw Hl Hm Hc. apply share_grows; [done|by apply narrow_all_wide|by apply narrow_all_count|done|].
  pose proof (narrow_all_share i l Hw Hl) as H. cbn zeta in H. destruct (chance_bounds l Hl) as [H0 _].
  set (P := 256 ^ Z.of_nat _) in *. assert (0 < P) by (apply Z.pow_pos_nonneg; lia).
  assert (0 < 256 ^ m) by (apply Z.pow_pos_nonneg; lia). destruct Hw as [_ Hw].
  assert (0 < room l) as Hr by lia. apply (Z.mul_le_mono_pos_r _ _ (room l)); [done|].
  assert (width (narrow_all i l) * room l * 256 ^ m <= width i * chance l * P * 256 ^ m) by nia.
  assert (width i * P * (chance l * 256 ^ m) <= width i * P * room l) by (apply Z.mul_le_mono_nonneg_l; nia).
  lia.
Qed.

(** The widest symbol of a distribution. *)
Definition widest (row : list Z) : Z := foldr Z.max 0 (zip_with Z.sub (drop 1 row) row).

Lemma widest_ge row d : codable (d, row) -> size (d, row) <= widest row.
Proof.
  intros [_ (Hd & Hl & Hh & _)]. cbn [fst snd] in *. unfold size, limits in *. cbn [fst snd] in *.
  set (l := row !!! Z.to_nat d) in *. set (h := row !!! Z.to_nat (d + 1)) in *.
  assert (zip_with Z.sub (drop 1 row) row !! Z.to_nat d = Some (h - l)) as E.
  { rewrite lookup_zip_with, lookup_drop, Hl. cbn [mbind option_bind].
    replace (1 + Z.to_nat d)%nat with (Z.to_nat (d + 1)) by lia. by rewrite Hh. }
  unfold widest. revert E. generalize (Z.to_nat d). generalize (zip_with Z.sub (drop 1 row) row). clear.
  induction l0 as [|x l0 IH]; intros [|n] E; cbn in *; [done|done|injection E as ->; lia|]. specialize (IH _ E). lia.
Qed.

Definition rows_chance (rows : list (list Z)) : Z := foldr (fun row p => widest row * p) 1 rows.

Lemma chance_zip idx rows :
  length idx = length rows -> Forall codable (zip idx rows) -> chance (zip idx rows) <= rows_chance rows.
Proof.
  revert idx. induction rows as [|row rows IH]; intros [|d idx] Hl Hc; try discriminate.
  injection Hl as Hl. cbn [zip zip_with] in *. apply Forall_cons in Hc as [Hs Hc]. specialize (IH _ Hl Hc).
  cbn [chance foldr rows_chance]. fold (chance (zip idx rows)) (rows_chance rows). pose proof (widest_ge _ _ Hs).
  pose proof (size_bounds _ Hs). destruct (chance_bounds _ Hc). apply Z.mul_le_mono_nonneg; lia.
Qed.

Definition rare_b (cb : SKP_Silk_NLSF_CB_struct) : bool :=
  (rows_chance (rows cb) * 256 <=? 2 ^ (16 * Z.of_nat (length (rows cb)))) && (length (rows cb) =? length (CBStages cb))%nat.

Lemma codebook_rare cb order : codebook cb order -> rare_b cb = true.
Proof. destruct 1; vm_compute; reflexivity. Qed.

(** The path of the frequencies alone takes a byte. *)
Lemma nlsf_chance cb order idx :
  codebook cb order -> indices_ok cb idx -> Forall codable (nlsf_symbols cb idx) ->
  chance (nlsf_symbols cb idx) * 256 <= room (nlsf_symbols cb idx).
Proof.
  intros Hcb Hidx Hc. pose proof (codebook_rare _ _ Hcb) as Hb. unfold rare_b in Hb.
  rewrite andb_true_iff, Z.leb_le, Nat.eqb_eq in Hb. destruct Hb as [Hb Hl]. apply Forall2_length in Hidx.
  assert (length idx = length (rows cb)) as Hlen by lia.
  pose proof (chance_zip idx (rows cb) Hlen Hc) as Hz. unfold nlsf_symbols, room.
  rewrite length_zip_with_l_eq by done. rewrite Hlen. lia.
Qed.

(** ** The symbols of a packet *)

Definition frame_vad (f : frame) : Z := if speech_activity_Q8 f <? SPEECH_ACTIVITY_DTX_THRES_Q8 then 0 else 1.
Definition frame_type (f : frame) : Z := 2 * Enc.sigtype (indices f) + Enc.QuantOffsetType (indices f).

(** A frame with the symbols of its excitation, as far as it is coded; then the flag
    of voice activity, and how the packet goes on. *)
Definition body (first : bool) (prev fs : Z) (f : frame) (pulses : list (Z * list Z)) : list (Z * list Z) :=
  parameter_symbols first prev fs (indices f) ++ pulses ++ [vad_symbol (frame_vad f)].

Fixpoint frames_symbols (first : bool) (prev fs term : Z) (l : list (frame * list (Z * list Z))) : list (Z * list Z) :=
  match l with
  | [] => []
  | (f, pulses) :: l =>
      (body first prev fs f pulses ++
       [term_symbol (match l with [] => term | _ => SKP_SILK_MORE_FRAMES end)]) ++
      frames_symbols false (frame_type f) fs term l
  end.

(** The symbol of the sampling rate. *)
Definition rate_symbol (fs : Z) : Z * list Z :=
  ((if fs =? 8 then 0 else if fs =? 12 then 1 else if fs =? 16 then 2 else 3), SKP_Silk_SamplingRates_CDF).

(** The excitation of [f] is written as [pulses], and read as it was, into any
    array that is long enough. *)
Definition pulses_coded (f : frame) (pulses : list (Z * list Z)) : Prop :=
  let c := indices f in let q := excitation f in
  Forall codable pulses /\
  writes (fun s => SKP_Silk_encode_pulses s (Enc.sigtype c) (Enc.QuantOffsetType c) q (length q)) pulses /\
  exists level, forall fuel q0, (16 < fuel)%nat -> (length q <= length q0)%nat ->
    reads (fun s => SKP_Silk_decode_pulses fuel s (Enc.sigtype c) (Enc.QuantOffsetType c) q0 (length q)) pulses
      ((q ++ drop (length q) q0)%list, level).

Definition frame_ok (first : bool) (fs : Z) (f : frame) : Prop :=
  control_ok first fs (indices f) /\ frame_samples fs (excitation f).

(** The first frame, and those after it. *)
Fixpoint frames_ok (first : bool) (fs : Z) (l : list frame) : Prop :=
  match l with [] => True | f :: l => frame_ok first fs f /\ frames_ok false fs l end.

Lemma frame_pulses first fs f : rate fs -> frame_ok first fs f -> exists pulses, pulses_coded f pulses.
Proof.
  intros Hf [[Hs Ho _ _ _ _ _ _] Hq]. destruct (samples_blocks fs _ Hf Hq) as (iter & Hl & Hi). destruct Hq as [_ Hq].
  destruct (frame_coded (Enc.sigtype (indices f)) (Enc.QuantOffsetType (indices f)) _ iter Hl Hi Hq Hs Ho)
    as (pulses & level & Hc & _ & Hw & Hr).
  exists pulses. split; [done|]. split; [done|]. by exists level.
Qed.

Lemma frames_pulses first fs l :
  rate fs -> frames_ok first fs l -> exists ps, Forall2 pulses_coded l ps.
Proof.
  intros Hf. revert first. induction l as [|f l IH]; intros first; [by exists []|]. intros [H Hl].
  destruct (frame_pulses first fs f Hf H) as (p & Hp). destruct (IH false Hl) as (ps & Hps). exists (p :: ps). by constructor.
Qed.

Lemma flag_symbols vad term :
  0 <= vad < 2 -> 0 <= term < 4 -> codable (vad_symbol vad) /\ codable (term_symbol term).
Proof.
  intros Hv Ht. pose proof distributions_ok as D. rewrite !andb_true_iff in D.
  destruct D as ((((((((_ & _) & _) & _) & _) & _) & _) & Da) & Dt).
  split; [by apply (dist_symbol _ _ _ _ Da)|by apply (dist_symbol _ _ _ _ Dt)].
Qed.

Lemma rate_coded fs :
  rate fs -> codable (rate_symbol fs) /\
    fetch SKP_Silk_SamplingRates_table (rate_symbol fs).1 = Ok fs /\ 0 <= (rate_symbol fs).1 <= 3 /\
    Enc.rate_index 3 0 fs = Ok (rate_symbol fs).1 /\
    start_ok SKP_Silk_SamplingRates_CDF SKP_Silk_SamplingRates_offset.
Proof.
  intros Hf. pose proof distributions_ok as D. rewrite !andb_true_iff in D.
  destruct D as ((((((((D & _) & _) & _) & _) & _) & _) & _) & _). destruct (dist_spec _ _ _ D) as [Hst _].
  split_and!; [|destruct Hf as [->|[->|[->| ->]]]; first [reflexivity|cbn; lia]..|done].
  apply (dist_symbol _ _ _ _ D). destruct Hf as [->|[->|[->| ->]]]; cbn; lia.
Qed.

Lemma frame_vad_range f : 0 <= frame_vad f < 2.
Proof. unfold frame_vad. destruct (_ <? _); lia. Qed.

Lemma body_codable first prev fs f pulses :
  rate fs -> frame_ok first fs f -> pulses_coded f pulses -> (first = false -> 0 <= prev < 4) ->
  Forall codable (body first prev fs f pulses).
Proof.
  intros Hf [Hc _] (Hp & _) Hprev. unfold body. rewrite !Forall_app, Forall_singleton. split_and!.
  - by apply parameters_coded.
  - done.
  - apply (flag_symbols _ 0); [apply frame_vad_range|lia].
Qed.

Lemma frame_type_range first fs c : control_ok first fs (indices c) -> 0 <= frame_type c < 4.
Proof. intros [Hs Ho _ _ _ _ _ _]. unfold frame_type. lia. Qed.

Lemma frames_codable first prev fs term l ps :
  rate fs -> frames_ok first fs l -> Forall2 pulses_coded l ps -> 0 <= term < 4 -> (first = false -> 0 <= prev < 4) ->
  Forall codable (frames_symbols first prev fs term (zip l ps)).
Proof.
  intros Hf Hl Hps Ht. revert first prev Hl. induction Hps as [|f p l ps Hp Hps IH]; intros first prev Hl Hprev; [constructor|].
  destruct Hl as [Hfr Hl]. cbn [zip zip_with frames_symbols]. rewrite !Forall_app, Forall_singleton. split_and!.
  - by apply body_codable.
  - apply (flag_symbols 0); [lia|]. unfold SKP_SILK_MORE_FRAMES. by destruct (zip_with _ l ps); lia.
  - apply IH; [done|]. intros _. by apply (frame_type_range first fs), Hfr.
Qed.

Lemma chance_middle a m b :
  Forall codable (a ++ m ++ b) -> chance m * 256 <= room m ->
  chance (a ++ m ++ b) * 256 ^ 1 <= room (a ++ m ++ b).
Proof.
  rewrite !Forall_app. intros (Ha & Hm & Hb) H. rewrite !chance_app, !room_app. change (256 ^ 1) with 256.
  pose proof (chance_bounds a Ha). pose proof (chance_bounds m Hm). pose proof (chance_bounds b Hb).
  assert (chance a * (chance m * 256) <= room a * room m) by (apply Z.mul_le_mono_nonneg; lia).
  assert (chance a * (chance m * 256) * chance b <= room a * room m * room b) by (apply Z.mul_le_mono_nonneg; lia). lia.
Qed.

(** A frame, with what follows it, takes a byte at least. *)
Lemma body_chance first prev fs f pulses rest :
  rate fs -> frame_ok first fs f -> pulses_coded f pulses -> (first = false -> 0 <= prev < 4) -> Forall codable rest ->
  chance (body first prev fs f pulses ++ rest) * 256 ^ 1 <= room (body first prev fs f pulses ++ rest).
Proof.
  intros Hf Hfr Hp Hprev Hrest. pose proof (body_codable _ _ _ _ _ Hf Hfr Hp Hprev) as Hc.
  assert (Forall codable (body first prev fs f pulses ++ rest)) as Hall by (by apply Forall_app_2).
  destruct Hfr as [[Hsig _ _ _ Hidx _ _ _] _]. destruct (codebook_fetched fs _ Hsig) as [_ Hcb].
  unfold body, parameter_symbols in *.
  match goal with |- context [nlsf_symbols ?cb ?idx] => set (nl := nlsf_symbols cb idx) in * end.
  assert (Forall codable nl) as Hn by (rewrite !Forall_app in Hc; tauto).
  pose proof (nlsf_chance _ _ _ Hcb Hidx Hn) as Hrare. fold nl in Hrare.
  rewrite <- !app_assoc in *. rewrite (app_assoc _ (gains_symbols _ _ _)) in *. by apply chance_middle.
Qed.

(** ** The encoder makes a packet *)

(** A new packet begins with the sampling rate. *)
Definition head (first : bool) (fs : Z) : list (Z * list Z) := if first then [rate_symbol fs] else [].

(** The coder that the parameters of the next frame are written to. *)
Definition next_coder (s : Enc.state) : SKP_Silk_range_coder_state :=
  if enc_first s then SKP_Silk_range_enc_init (Enc.sRC s) else Enc.sRC s.

Lemma encode_parameters_coded s f pulses i :
  encoder_ok s -> frame_ok (enc_first s) (Enc.fs_kHz s) f -> pulses_coded f pulses -> frame_vad f = Enc.vadFlag s ->
  encodes (next_coder s) i ->
  let syms := head (enc_first s) (Enc.fs_kHz s) ++ body (enc_first s) (Enc.typeOffsetPrev s) (Enc.fs_kHz s) f pulses in
  exists r bytes, Enc.SKP_Silk_encode_parameters s (indices f) false (excitation f) =
      Ok (Enc.set_typeOffsetPrev (set_payload s r (Enc.nFramesInPayloadBuf s) bytes) (frame_type f)) /\
    (encodes r (narrow_all i syms) \/
     error r = RANGE_CODER_WRITE_BEYOND_BUFFER /\ MAX_ARITHM_BYTES < Z.of_nat (count (narrow_all i syms))).
Proof.
  intros Hs Hf Hp Hvad Hi syms. pose proof Hs as [Hr _ Hlen Ht].
  assert (Forall codable syms) as Hc.
  { unfold syms. apply Forall_app_2; [|by apply body_codable].
    unfold head. destruct (enc_first s); [|constructor]. apply Forall_singleton, rate_coded, Hr. }
  destruct (encoder_multi_narrows _ _ syms Hi Hc) as (r & E & Hn). destruct Hf as [Hctl [Hq _]].
  destruct Hp as (_ & Hw & _). assert (length (excitation f) = Enc.frame_length s) as El by lia. rewrite El in Hw.
  assert (forall s1, Enc.nFramesInPayloadBuf s1 = Enc.nFramesInPayloadBuf s -> Enc.fs_kHz s1 = Enc.fs_kHz s ->
    Enc.frame_length s1 = Enc.frame_length s -> Enc.typeOffsetPrev s1 = Enc.typeOffsetPrev s ->
    Enc.psNLSF_CB s1 = Enc.psNLSF_CB s -> Enc.vadFlag s1 = Enc.vadFlag s ->
    writes (fun r => Enc.encode_frame r s1 (indices f) (excitation f))
      (body (enc_first s) (Enc.typeOffsetPrev s) (Enc.fs_kHz s) f pulses)) as Hframe.
  { intros [? ? nf ? ? ? ? ? ?]. cbn. intros -> -> -> -> -> ->. unfold body. rewrite Hvad.
    pose proof (encode_frame_writes s (indices f) (excitation f) pulses Hs Hctl Hw) as H.
    intros r1 r2 Hr12. specialize (H r1 r2 Hr12). exact H. }
  unfold Enc.SKP_Silk_encode_parameters. unfold syms, head, next_coder in *.
  change (Enc.nFramesInPayloadBuf s =? 0) with (enc_first s). destruct (enc_first s) eqn:Ef.
  - destruct (rate_coded _ Hr) as (_ & _ & _ & Eix & _). cbn [Enc.fs_kHz Enc.init_payload]. rewrite Eix, bind_Ok.
    cbn [app SKP_Silk_range_encoder_multi rate_symbol] in E. apply res_bind_ok in E as (r1 & E1 & E).
    cbn [Enc.coder Enc.init_payload Enc.sRC fst snd rate_symbol]. rewrite E1, bind_Ok.
    rewrite (Hframe (Enc.init_payload s) eq_refl eq_refl eq_refl eq_refl eq_refl eq_refl _ _ E), bind_Ok.
    by exists r, 0.
  - cbn [app] in E. cbn [Enc.coder]. rewrite bind_Ok.
    rewrite (Hframe s eq_refl eq_refl eq_refl eq_refl eq_refl eq_refl _ _ E), bind_Ok.
    by exists r, (Enc.nBytesInPayloadBuf s).
Qed.

(** An encoder that runs out of buffer stays where it is. *)
Lemma encoder_error_keeps s d prob s' :
  SKP_Silk_range_encoder s d prob = Ok s' -> error s = 0 -> error s' <> 0 ->
  bufferIx s' = bufferIx s /\ range_Q16 s' = range_Q16 s.
Proof.
  unfold SKP_Silk_range_encoder. intros E He He'. rewrite He in E. cbn [Z.eqb negb] in E.
  apply res_bind_ok in E as (lo & _ & E). apply res_bind_ok in E as (hi & _ & E). cbn zeta in E.
  apply res_bind_ok in E as (buf & _ & E). destruct (test_bits _ 0xFF000000).
  - injection E as <-. by cbn in He'.
  - apply res_bind_ok in E as ([range st] & _ & E). destruct st as [[[base ix] b]|]; [|by injection E as <-].
    apply res_bind_ok in E as (st' & _ & E). destruct st' as [[[base' ix'] b']|]; injection E as <-; [by cbn in He'|done].
Qed.

(** [n] bytes into the memory at [off]. *)
Lemma copy_at_ok dst off src n :
  0 <= off -> 0 <= n -> off + n <= Z.of_nat (length dst) -> n <= Z.of_nat (length src) ->
  copy_at dst off src n =
    Ok (take (Z.to_nat off) dst ++ take (Z.to_nat n) src ++ drop (Z.to_nat (off + n)) dst)%list.
Proof.
  intros Ho Hn Hd Hs. unfold copy_at, memcpy.
  rewrite (proj2 (Z.ltb_ge off 0)), (proj2 (Z.ltb_ge _ off)), (proj2 (Z.ltb_ge n 0)), (proj2 (Z.ltb_ge _ n)),
    (proj2 (Z.ltb_ge _ n)) by (rewrite ?length_drop; lia).
  cbn [orb]. rewrite bind_Ok, drop_drop. do 3 f_equal. f_equal. lia.
Qed.

(** A redundancy of at most as many bytes as its memory has. *)
Definition lbrr_fits (p : list Z) (n : Z) : Prop :=
  Forall byte p /\ Z.of_nat (length p) = MAX_ARITHM_BYTES /\ 0 <= n <= MAX_ARITHM_BYTES.

Record lbrr_ok (e : packet_state) : Prop := {
  lbrr_two : length (LBRR_buffer e) = 2%nat;
  lbrr_each : Forall (fun l => lbrr_fits (payload l) (nBytes l)) (LBRR_buffer e);
  lbrr_oldest : oldest_LBRR_idx e = 0 \/ oldest_LBRR_idx e = 1
}.

(** Which redundancy goes with the next packet, if there is one. *)
Definition redundancy (e : packet_state) : Z * SKP_SILK_LBRR_struct :=
  let next := LBRR_buffer e !!! Z.to_nat (1 - oldest_LBRR_idx e) in
  let oldest := LBRR_buffer e !!! Z.to_nat (oldest_LBRR_idx e) in
  if usage oldest =? SKP_SILK_ADD_LBRR_TO_PLUS2 then (SKP_SILK_LBRR_VER2, oldest)
  else (if usage next =? SKP_SILK_ADD_LBRR_TO_PLUS1 then SKP_SILK_LBRR_VER1 else SKP_SILK_LAST_FRAME, next).

Lemma terminator_spec e :
  lbrr_ok e ->
  let '(term, lb) := redundancy e in
  (term = SKP_SILK_LAST_FRAME \/ term = SKP_SILK_LBRR_VER1 \/ term = SKP_SILK_LBRR_VER2) /\
  lbrr_fits (payload lb) (nBytes lb) /\
  exists idx, terminator e = Ok (term, idx) /\ fetch (LBRR_buffer e) idx = Ok lb.
Proof.
  intros [Htwo Hall Hold]. unfold redundancy, terminator.
  assert (Z.land (oldest_LBRR_idx e + 1) LBRR_IDX_MASK = 1 - oldest_LBRR_idx e) as -> by by destruct Hold as [->| ->].
  assert (forall i, i = 0 \/ i = 1 -> fetch (LBRR_buffer e) i = Ok (LBRR_buffer e !!! Z.to_nat i) /\
    lbrr_fits (payload (LBRR_buffer e !!! Z.to_nat i)) (nBytes (LBRR_buffer e !!! Z.to_nat i))) as H.
  { intros i Hi. split; [apply fetch_total; lia|]. apply (Forall_lookup_total_1 _ _ _ Hall). lia. }
  destruct (H (oldest_LBRR_idx e) Hold) as [E1 F1]. destruct (H (1 - oldest_LBRR_idx e)) as [E2 F2]; [lia|].
  rewrite E1, E2, !bind_Ok. destruct (_ =? SKP_SILK_ADD_LBRR_TO_PLUS2).
  - split; [by right; right|]. split; [done|]. by eexists.
  - split; [destruct (_ =? _); tauto|]. split; [done|]. by eexists.
Qed.

(** What stands in the output: a closed stream, and the redundancy if it fits. *)
Definition sent (tl : Z * SKP_SILK_LBRR_struct) (i : interval) (pnBytesOut : Z) (out : list Z) (n : Z) : Prop :=
  let '(term, lb) := tl in
  exists s1 s2, let n1 := bytes_of (narrow_by i (term_symbol term)) in
    encodes s1 (narrow_by i (term_symbol term)) /\ SKP_Silk_range_enc_wrap_up s1 = Ok s2 /\
    let red := if (SKP_SILK_MORE_FRAMES <? term) && (Z.of_nat n1 + nBytes lb <=? pnBytesOut)
               then take (Z.to_nat (nBytes lb)) (payload lb) else [] in
    n = Z.of_nat (n1 + length red) /\ take (n1 + length red) out = (take n1 (buffer s2) ++ red)%list /\
    (n1 <= length (buffer s2))%nat /\ n <= pnBytesOut.

Lemma finish_packet_spec e f i pCode pnBytesOut :
  lbrr_ok e -> lbrr_fits (LBRRpayload f) (nBytesLBRR f) -> encodes (Enc.sRC (sCmn e)) i -> Forall byte pCode ->
  pnBytesOut <= 1020 -> pnBytesOut <= Z.of_nat (length pCode) ->
  exists e' out n ret, finish_packet e f pCode pnBytesOut = Ok (e', out, n, ret) /\ length out = length pCode /\
    ((ret = 0 /\ error (Enc.sRC (sCmn e')) = 0 /\ Forall byte out /\ sent (redundancy e) i pnBytesOut out n) \/
     (ret = 0 \/ ret = SKP_SILK_ENC_PAYLOAD_BUF_TOO_SHORT) /\ error (Enc.sRC (sCmn e')) <> 0 \/
     ret = SKP_SILK_ENC_PAYLOAD_BUF_TOO_SHORT).
Proof.
  intros Hlb Hf Henc Hbytes Hout Hlen. pose proof (terminator_spec e Hlb) as Hterm.
  unfold finish_packet, sent. destruct (redundancy e) as [term lb]. destruct Hterm as (Hterm & (Hpb & Hpl & Hn) & idx & -> & Elb).
  rewrite bind_Ok. assert (codable (term_symbol term)) as Hc.
  { apply (flag_symbols 0); [lia|]. unfold SKP_SILK_LAST_FRAME, SKP_SILK_LBRR_VER1, SKP_SILK_LBRR_VER2 in Hterm. lia. }
  destruct (range_encoder_narrows _ _ _ _ _ _ Henc (proj1 Hc) (proj2 Hc)) as (r & E & Hr).
  cbn [fst snd term_symbol] in E. rewrite E, bind_Ok. fold (narrow_by i (term_symbol term)) in Hr.
  destruct Hr as [Hr|[He Hcount]]; cycle 1.
  - destruct (encoder_error_keeps _ _ _ _ E (enc_error _ _ Henc)) as [Eix Erange]; [by rewrite He|].
    rewrite (get_length_spec r i) by (rewrite ?Eix, ?Erange; by destruct Henc).
    rewrite (proj2 (Z.leb_gt _ _)).
    + exists (with_common e (set_payload (sCmn e) r 0 0)), pCode, 0, SKP_SILK_ENC_PAYLOAD_BUF_TOO_SHORT.
      split; [done|]. split; [done|]. right. by right.
    + assert (count (narrow_by i (term_symbol term)) <= count i + 2)%nat.
      { unfold narrow_by, narrow. destruct (_ <=? _); [|destruct (_ <=? _)]; cbn; lia. }
      unfold MAX_ARITHM_BYTES in *. lia.
  - set (j := narrow_by i (term_symbol term)) in *.
    rewrite (get_length_spec r j) by by destruct Hr. fold (bytes_of j).
    destruct (Z.leb_spec (Z.of_nat (bytes_of j)) pnBytesOut) as [Hfit|]; cycle 1.
    { exists (with_common e (set_payload (sCmn e) r 0 0)), pCode, 0, SKP_SILK_ENC_PAYLOAD_BUF_TOO_SHORT.
      split; [done|]. split; [done|]. right. by right. }
    destruct (wrap_up_bytes r j Hr) as (s2 & E2 & He2 & _ & _ & Hb2 & Hbytes2 & _);
      [unfold MAX_ARITHM_BYTES; unfold bytes_of in Hfit; lia|].
    unfold MAX_ARITHM_BYTES in *. rewrite E2, bind_Ok. rewrite (copy_at_ok pCode 0) by lia.
    rewrite !bind_Ok, Elb, !bind_Ok. set (n1 := bytes_of j) in *. rewrite Z.add_0_l, Nat2Z.id. change (take (Z.to_nat 0) pCode) with ([] : list Z). cbn [app].
    set (out1 := (take n1 (buffer s2) ++ drop n1 pCode)%list).
    assert (length out1 = length pCode) as Hl1 by (unfold out1; rewrite length_app, length_take, length_drop; lia).
    assert (Forall byte out1) as Hb1 by (apply Forall_app_2; [by apply Forall_take|by apply Forall_drop]).
    set (fits := (SKP_SILK_MORE_FRAMES <? term) && (Z.of_nat n1 + nBytes lb <=? pnBytesOut)).
    set (red := if fits then take (Z.to_nat (nBytes lb)) (payload lb) else []).
    assert (exists out, (if fits then out ← copy_at out1 (Z.of_nat n1) (payload lb) (nBytes lb); Ok (out, Z.of_nat n1 + nBytes lb)
                         else Ok (out1, Z.of_nat n1)) = Ok (out, Z.of_nat (n1 + length red)) /\
      length out = length pCode /\ Forall byte out /\ Z.of_nat (n1 + length red) <= pnBytesOut /\
      take (n1 + length red) out = (take n1 (buffer s2) ++ red)%list) as (out & Eout & Hlo & Hbo & Hno & Hto).
    { unfold red. destruct fits eqn:Efits; subst fits.
      - apply andb_true_iff in Efits as [_ Hle%Z.leb_le]. rewrite length_take_le by lia.
        rewrite copy_at_ok, bind_Ok by lia. rewrite Nat2Z.id. eexists. split; [do 2 f_equal; lia|].
        rewrite !length_app, !length_take, length_drop. split; [lia|]. split.
        { apply Forall_app_2; [by apply Forall_take|apply Forall_app_2; [by apply Forall_take|by apply Forall_drop]]. }
        split; [lia|]. rewrite app_assoc, take_app_length' by (rewrite length_app, !length_take; lia).
        f_equal. unfold out1. rewrite take_app_length'; [done|]. rewrite length_take. lia.
      - exists out1. rewrite Nat.add_0_r, app_nil_r. split; [done|]. split; [done|]. split; [done|]. split; [done|].
        unfold out1. rewrite take_app_length'; [done|]. rewrite length_take. lia. }
    rewrite Eout, bind_Ok. destruct Hf as (Hfb & Hfl & Hfn). unfold MAX_ARITHM_BYTES in *.
    pose proof Hlb as [Htwo Hall Hold].
    rewrite (fetch_total (LBRR_buffer e) (oldest_LBRR_idx e) (Z.to_nat (oldest_LBRR_idx e))), bind_Ok by lia.
    destruct (Forall_lookup_total_1 _ (LBRR_buffer e) (Z.to_nat (oldest_LBRR_idx e)) Hall ltac:(lia)) as (_ & Hol & _).
    set (old := LBRR_buffer e !!! Z.to_nat (oldest_LBRR_idx e)) in *. unfold MAX_ARITHM_BYTES in Hol.
    unfold memcpy. rewrite (proj2 (Z.ltb_ge _ _)), !(proj2 (Z.ltb_ge (Z.of_nat _) _)) by lia. cbn [orb]. rewrite bind_Ok.
    unfold store_at. rewrite (proj2 (Z.ltb_ge _ _)), (proj2 (Z.leb_gt _ _)) by lia. cbn [orb]. rewrite bind_Ok.
    rewrite wrap_s_id by lia. do 4 eexists. split; [reflexivity|]. split; [done|]. left. cbn [sCmn set_payload Enc.sRC].
    split; [done|]. split; [done|]. split; [done|]. exists r, s2. split; [done|]. split; [done|].
    split; [done|]. split; [done|]. split; [lia|done].
Qed.

(** Before frame [k] of [total], with what is written so far. *)
Record ready (e : packet_state) (fs total k : Z) (i : interval) : Prop := {
  ready_encoder : encoder_ok (sCmn e);
  ready_fs : Enc.fs_kHz (sCmn e) = fs;
  ready_frames : Enc.nFramesInPayloadBuf (sCmn e) = k;
  ready_size : PacketSize_ms e = FRAME_LENGTH_MS * total;
  ready_lbrr : lbrr_ok e;
  ready_coder :
    if k =? 0 then packet_start (Enc.sRC (sCmn e)) /\ i = start else encodes (Enc.sRC (sCmn e)) i
}.

Definition written (e : packet_state) (fs k : Z) (f : frame) (pulses : list (Z * list Z)) : list (Z * list Z) :=
  head (k =? 0) fs ++ body (k =? 0) (Enc.typeOffsetPrev (sCmn e)) fs f pulses.

Lemma activity_flags_spec e f :
  let e' := activity_flags e (speech_activity_Q8 f) in
  sCmn e' = set_vadFlag (sCmn e) (frame_vad f) /\ PacketSize_ms e' = PacketSize_ms e /\
  LBRR_buffer e' = LBRR_buffer e /\ oldest_LBRR_idx e' = oldest_LBRR_idx e.
Proof.
  cbn zeta. unfold activity_flags, frame_vad. destruct (_ <? _); [|done]. by destruct (MAX_CONSECUTIVE_DTX <? _).
Qed.

(** The parameters of a frame, from [SKP_Silk_encode_frame_FIX]. *)
Lemma code_parameters e f pulses fs total k i :
  ready e fs total k i -> frame_ok (k =? 0) fs f -> pulses_coded f pulses ->
  let e' := activity_flags e (speech_activity_Q8 f) in
  let s := if Enc.nFramesInPayloadBuf (sCmn e') =? 0 then Enc.init_payload (sCmn e') else sCmn e' in
  exists s', Enc.SKP_Silk_encode_parameters s (indices f) false (excitation f) = Ok s' /\
    Enc.nFramesInPayloadBuf s' = k /\ Enc.fs_kHz s' = fs /\ encoder_ok s' /\ Enc.typeOffsetPrev s' = frame_type f /\
    let j := narrow_all i (written e fs k f pulses) in
    (encodes (Enc.sRC s') j \/ error (Enc.sRC s') = RANGE_CODER_WRITE_BEYOND_BUFFER).
Proof.
  intros [[Hr Hb Hl Ht] Hfs Hk _ _ Hcoder] Hf Hp. destruct (activity_flags_spec e f) as (Es & _). cbn zeta.
  rewrite Es. cbn [Enc.nFramesInPayloadBuf set_vadFlag]. rewrite Hk. subst fs.
  set (s := if k =? 0 then Enc.init_payload (set_vadFlag (sCmn e) (frame_vad f)) else set_vadFlag (sCmn e) (frame_vad f)).
  assert (Enc.nFramesInPayloadBuf s = k) as Hk' by (subst s; by destruct (k =? 0)).
  assert (enc_first s = (k =? 0)) as Efirst by (unfold enc_first; by rewrite Hk').
  assert (Enc.fs_kHz s = Enc.fs_kHz (sCmn e)) as Efs by (subst s; by destruct (k =? 0)).
  assert (Enc.typeOffsetPrev s = Enc.typeOffsetPrev (sCmn e)) as Etype by (subst s; by destruct (k =? 0)).
  assert (encoder_ok s) as Hs.
  { constructor; rewrite ?Efs, ?Etype; [done|subst s; by destruct (k =? 0)|subst s; by destruct (k =? 0)|].
    rewrite Efirst. intros E. apply Ht. unfold enc_first. by rewrite Hk. }
  destruct (encode_parameters_coded s f pulses i Hs) as (r & bytes & E & Hn).
  - by rewrite Efirst, Efs.
  - done.
  - subst s. by destruct (k =? 0).
  - unfold next_coder. rewrite Efirst. subst s. destruct (k =? 0).
    + destruct Hcoder as [Hc ->]. cbn [Enc.init_payload Enc.sRC set_vadFlag]. by apply enc_init_encodes.
    + exact Hcoder.
  - rewrite E. eexists. split; [reflexivity|]. cbn [Enc.set_typeOffsetPrev set_payload Enc.nFramesInPayloadBuf Enc.fs_kHz
      Enc.typeOffsetPrev Enc.sRC]. split; [done|]. split; [done|]. split.
    + destruct Hs as [H1 H2 H3 _]. constructor; try done. intros _. by apply (frame_type_range (k =? 0) (Enc.fs_kHz (sCmn e))), Hf.
    + split; [done|]. rewrite Efirst, Efs, Etype in Hn. destruct Hn as [Hn|[Hn _]]; [by left|by right].
Qed.

Definition failed (ret : Z) : Prop := ret = SKP_SILK_ENC_INTERNAL_ERROR \/ ret = SKP_SILK_ENC_PAYLOAD_BUF_TOO_SHORT.

Lemma code_frame_spec e f pulses fs total k i pCode pnBytesOut :
  ready e fs total k i -> frame_ok (k =? 0) fs f -> pulses_coded f pulses -> lbrr_fits (LBRRpayload f) (nBytesLBRR f) ->
  0 <= k < total -> Forall byte pCode -> pnBytesOut <= 1020 -> pnBytesOut <= Z.of_nat (length pCode) ->
  exists e' out n ret, code_frame e f pCode pnBytesOut = Ok (e', out, n, ret) /\
    (failed ret \/ ret = 0 /\
     let j := narrow_all i (written e fs k f pulses) in
     if k + 1 =? total then length out = length pCode /\ Forall byte out /\ sent (redundancy e) j pnBytesOut out n
     else out = pCode /\ ready e' fs total (k + 1) (narrow_by j (term_symbol SKP_SILK_MORE_FRAMES)) /\
          Enc.typeOffsetPrev (sCmn e') = frame_type f /\ redundancy e' = redundancy e).
Proof.
  intros He Hf Hp Hlf Hk Hb Hout Hlen.
  destruct (code_parameters e f pulses fs total k i He Hf Hp) as (s' & E & Hk' & Hfs & Hs' & Htype & Hj).
  pose proof He as [_ _ _ Hsize Hlb _]. destruct (activity_flags_spec e f) as (_ & Esize & Ebuf & Eold).
  unfold code_frame. cbn zeta in E. cbn zeta. rewrite E, bind_Ok, Hk'.
  set (e1 := activity_flags e (speech_activity_Q8 f)) in *. clearbody e1. cbn zeta in Hj. set (j := narrow_all i _) in *.
  set (frames := if negb (error (Enc.sRC s') =? 0) then 0 else k + 1).
  set (e2 := with_common e1 (set_payload s' (Enc.sRC s') frames (Enc.nBytesInPayloadBuf s'))).
  assert (lbrr_ok e2) as Hlb2 by (destruct Hlb; constructor; cbn; rewrite ?Ebuf, ?Eold; done).
  assert (redundancy e2 = redundancy e) as Ered by (unfold redundancy; cbn; by rewrite Ebuf, Eold).
  cbn [PacketSize_ms e2 with_common]. rewrite Esize, Hsize. unfold FRAME_LENGTH_MS.
  destruct Hj as [Hj|He'].
  - assert (error (Enc.sRC s') = 0) as He0 by (by destruct Hj). assert (frames = k + 1) as Hframes by (unfold frames; by rewrite He0).
    clearbody frames. subst frames. destruct (Z.eqb_spec (k + 1) total) as [Hlast|Hmore].
    + rewrite (proj2 (Z.leb_le _ _)) by lia.
      destruct (finish_packet_spec e2 f j pCode pnBytesOut Hlb2 Hlf Hj Hb Hout Hlen) as (e' & out & n & ret & E1 & Hl & H).
      rewrite E1, bind_Ok. do 4 eexists. split; [reflexivity|]. rewrite Ered in H.
      destruct H as [(-> & -> & Hbo & Hs)|[[_ Hne]|Hshort]].
      * right. by split.
      * left. left. by rewrite (proj2 (Z.eqb_neq _ _) Hne).
      * left. unfold failed. destruct (negb (error (Enc.sRC (sCmn e')) =? 0)); [by left|by right].
    + rewrite (proj2 (Z.leb_gt _ _)) by lia. unfold continue_packet.
      assert (codable (term_symbol SKP_SILK_MORE_FRAMES)) as Hc by (apply (flag_symbols 0); unfold SKP_SILK_MORE_FRAMES; lia).
      destruct (range_encoder_narrows _ _ _ _ _ _ Hj (proj1 Hc) (proj2 Hc)) as (r & E1 & Hr).
      cbn [e2 with_common set_payload sCmn Enc.sRC]. cbn [fst snd term_symbol] in E1. rewrite E1, bind_Ok.
      destruct (SKP_Silk_range_coder_get_length r) as [bits n]. rewrite bind_Ok. do 4 eexists. split; [reflexivity|].
      cbn [sCmn with_common set_payload Enc.sRC]. destruct Hr as [Hr|[Hr _]]; [|left; left; by rewrite Hr].
      right. rewrite (enc_error _ _ Hr). cbn [Z.eqb negb]. split; [done|]. split; [done|]. split; [|done].
      destruct Hs' as [H1 H2 H3 H4]. constructor; cbn; try done.
      * constructor; cbn; try done. intros _. rewrite Htype. by apply (frame_type_range (k =? 0) fs), Hf.
      * cbn in *. congruence.
      * destruct Hlb2. by constructor.
      * rewrite (proj2 (Z.eqb_neq (k + 1) 0)) by lia. exact Hr.
  - assert (frames = 0) as Hframes by (unfold frames; by rewrite He').
    clearbody frames. subst frames.
    rewrite (proj2 (Z.leb_gt _ _)) by lia. unfold continue_packet. cbn [e2 with_common set_payload sCmn Enc.sRC].
    unfold SKP_Silk_range_encoder. rewrite He'. cbn [Z.eqb negb RANGE_CODER_WRITE_BEYOND_BUFFER]. rewrite bind_Ok.
    destruct (SKP_Silk_range_coder_get_length (Enc.sRC s')) as [bits n]. rewrite bind_Ok.
    do 4 eexists. split; [reflexivity|]. left. left. cbn [sCmn with_common set_payload Enc.sRC]. by rewrite He'.
Qed.

Lemma narrow_all_app i l1 l2 : narrow_all i (l1 ++ l2) = narrow_all (narrow_all i l1) l2.
Proof. apply foldl_app. Qed.

(** The symbols of the frames from [k] on. *)
Definition packet_symbols (k prev fs term : Z) (l : list (frame * list (Z * list Z))) : list (Z * list Z) :=
  head (k =? 0) fs ++ frames_symbols (k =? 0) prev fs term l.

Lemma code_frames_spec l ps e fs total k i pCode pnBytesOut :
  l <> [] -> ready e fs total k i -> frames_ok (k =? 0) fs l -> Forall2 pulses_coded l ps ->
  Forall (fun f => lbrr_fits (LBRRpayload f) (nBytesLBRR f)) l -> 0 <= k -> k + Z.of_nat (length l) = total ->
  Forall byte pCode -> pnBytesOut <= 1020 -> pnBytesOut <= Z.of_nat (length pCode) ->
  exists e' out n ret, code_frames e l pCode pnBytesOut = Ok (e', out, n, ret) /\
    (failed ret \/ ret = 0 /\ length out = length pCode /\ Forall byte out /\
     exists j, narrow_by j (term_symbol (redundancy e).1) =
         narrow_all i (packet_symbols k (Enc.typeOffsetPrev (sCmn e)) fs (redundancy e).1 (zip l ps)) /\
       sent (redundancy e) j pnBytesOut out n).
Proof.
  intros Hne He Hl Hps Hlb Hk Htot Hb Hout Hlen. revert e k i Hne He Hl Hlb Hk Htot.
  induction Hps as [|f p l ps Hp Hps IH]; intros e k i Hne He Hl Hlb Hk Htot; [done|].
  destruct Hl as [Hf Hl]. apply Forall_cons in Hlb as [Hlf Hlb]. cbn [length] in Htot.
  destruct (code_frame_spec e f p fs total k i pCode pnBytesOut He Hf Hp Hlf ltac:(lia) Hb Hout Hlen)
    as (e1 & out & n & ret & E & H).
  cbn [code_frames]. rewrite E, bind_Ok. unfold packet_symbols. cbn [zip zip_with frames_symbols].
  destruct H as [Hfail|(-> & H)].
  - assert (negb (ret =? 0) = true) as -> by (destruct Hfail as [->| ->]; done). cbn [orb].
    do 4 eexists. split; [reflexivity|]. by left.
  - cbn [Z.eqb negb orb]. destruct l as [|f' l].
    + rewrite (proj2 (Z.eqb_eq _ _)) in H by (cbn in Htot; lia). destruct H as (Hlo & Hbo & Hsent).
      do 4 eexists. split; [reflexivity|]. right. split; [done|]. split; [done|]. split; [done|].
      exists (narrow_all i (written e fs k f p)). split; [|done]. inversion Hps; subst ps. cbn [zip zip_with frames_symbols].
      rewrite app_nil_r, app_assoc, narrow_all_app. done.
    + rewrite (proj2 (Z.eqb_neq _ _)) in H by (cbn in Htot; lia). destruct H as (-> & He1 & Htype & Hred).
      assert ((k + 1 =? 0) = false) as Ek by (apply Z.eqb_neq; lia).
      destruct (IH e1 (k + 1) _ ltac:(done) He1) as (e' & out & n' & ret & E' & H'); [by rewrite Ek|done|lia|lia|].
      rewrite E'. do 4 eexists. split; [reflexivity|]. destruct H' as [Hfail|(-> & Hlo & Hbo & j & Hj & Hsent)]; [by left|].
      right. split; [done|]. split; [done|]. split; [done|]. exists j. rewrite Hred in *. split; [|done].
      rewrite Hj. unfold packet_symbols. rewrite Ek, Htype. inversion Hps as [|? p' ? ps' ? ? E1 E2]; subst ps.
      cbn [zip zip_with head app]. unfold written. by rewrite <- !app_assoc, (app_assoc (head _ _)), !narrow_all_app.
Qed.
