(* ===== verification/SilkDecApi.v ===== *)
(** * Looking into packets of the SILK codec

    The two functions of [jni/silk/src/SKP_Silk_dec_API.c] that look into a packet
    without playing it, [SKP_Silk_SDK_get_TOC] and [SKP_Silk_SDK_search_for_LBRR],
    and what they find in the packets of [SilkPacket].  [USE_BIT_STREAM_V] is 3. *)
From Stdlib Require Import ZArith Lia.
From stdpp Require Import base list.
From S2P Require Import Prelude.
From S2P Require Import SilkRange.
From S2P Require Import SilkMath.
From S2P Require Import SilkGains.
From S2P Require Import SilkTables.
From S2P Require Import SilkNlsfTables.
From S2P Require Import SilkNlsf.
From S2P Require Import SilkPulses.
From S2P Require Import SilkFrame.
From S2P Require Import SilkPacket.

Open Scope Z_scope.

Definition MAX_LBRR_DELAY : Z := 2.
Definition SILK_MAX_FRAMES_PER_PACKET : nat := 5.

(** ** Looking into a packet *)

(** [SKP_Silk_TOC_struct] *)
Record SKP_Silk_TOC_struct := Toc {
  framesInPacket : Z;
  toc_fs_kHz : Z;
  inbandLBRR : Z;
  corrupt : Z;
  vadFlags : list Z;
  sigtypeFlags : list Z
}.

(** A decoder of its own, for a new packet.  The members that are not set are what
    the stack holds: [sDec]. *)
Definition new_decoder (sDec : Dec.state) (r : SKP_Silk_range_coder_state) (prevNLSF_Q15 : list Z) : Dec.state :=
  Dec.State r (Dec.sLPC_Q14 sDec) (Dec.outBuf sDec) (Dec.sLTP_buf_idx sDec) (Dec.lagPrev sDec) (Dec.LastGainIndex sDec)
    (Dec.typeOffsetPrev sDec) (Dec.HP_A sDec) (Dec.HP_B sDec) 0 (Dec.frame_length sDec) (Dec.subfr_length sDec)
    (Dec.LPC_order sDec) prevNLSF_Q15 (Dec.first_frame_after_reset sDec) (Dec.nBytesLeft sDec) 0
    (Dec.FrameTermination sDec) (Dec.psNLSF_CB sDec) (Dec.vadFlag sDec) (Dec.lossCnt sDec) (Dec.prev_sigtype sDec).

(** The loop over the frames: the flags, whether the packet is corrupt, and the
    decoder.  The arrays of flags have five elements, so that the sixth round, if
    there is one, stores behind them: six rounds are all there are. *)
Fixpoint toc_loop (rounds fuel : nat) (sDec : Dec.state) (sDecCtrl : Dec.control) (TempQ : list Z) (vads sigtypes : list Z)
    : res (list Z * list Z * bool * Dec.state) :=
  match rounds with
  | O => Diverges
  | S rounds =>
      '((sDec, sDecCtrl, TempQ) : Dec.state * Dec.control * list Z) ←
        Dec.SKP_Silk_decode_parameters fuel sDec sDecCtrl TempQ false;
      vads ← store_at vads (Dec.nFramesDecoded sDec) (Dec.vadFlag sDec);
      sigtypes ← store_at sigtypes (Dec.nFramesDecoded sDec) (Dec.sigtype sDecCtrl);
      if negb (error (Dec.sRC sDec) =? 0) then Ok (vads, sigtypes, true, sDec)
      else if (0 <? Dec.nBytesLeft sDec) && (Dec.FrameTermination sDec =? SKP_SILK_MORE_FRAMES) then
        toc_loop rounds fuel (Dec.set_nFramesDecoded sDec (Dec.nFramesDecoded sDec + 1)) sDecCtrl TempQ vads sigtypes
      else Ok (vads, sigtypes, false, sDec)
  end.

(** [nFramesInPacket] is a member of [sDec] that nothing sets. *)
Definition SKP_Silk_SDK_get_TOC (fuel : nat) (inData : list Z) (nBytesIn : Z) (Silk_TOC : SKP_Silk_TOC_struct)
    (sDec : Dec.state) (nFramesInPacket : Z) (sDecCtrl : Dec.control) (TempQ : list Z) : res SKP_Silk_TOC_struct :=
  r ← SKP_Silk_range_dec_init (Dec.sRC sDec) inData (s16 nBytesIn);
  '((vads, sigtypes, bad, sDec) : list Z * list Z * bool * Dec.state) ←
    toc_loop (S SILK_MAX_FRAMES_PER_PACKET) fuel (new_decoder sDec r (Dec.prevNLSF_Q15 sDec)) sDecCtrl TempQ
      (vadFlags Silk_TOC) (sigtypeFlags Silk_TOC);
  if bad || (Dec.FrameTermination sDec =? SKP_SILK_MORE_FRAMES) ||
     (Z.of_nat SILK_MAX_FRAMES_PER_PACKET <? nFramesInPacket) then
    Ok (Toc 0 0 0 1 (replicate SILK_MAX_FRAMES_PER_PACKET 0) (replicate SILK_MAX_FRAMES_PER_PACKET 0))
  else
    Ok (Toc (Dec.nFramesDecoded sDec) (Dec.fs_kHz sDec)
          (if Dec.FrameTermination sDec =? SKP_SILK_LAST_FRAME then Dec.FrameTermination sDec
           else Dec.FrameTermination sDec - 1) 0 vads sigtypes).

(** The redundancy, copied to [LBRRData], and its length. *)
Fixpoint lbrr_loop (rounds fuel : nat) (sDec : Dec.state) (sDecCtrl : Dec.control) (TempQ inData : list Z)
    (nBytesIn lost_offset : Z) (LBRRData : list Z) : res (list Z * Z) :=
  match rounds with
  | O => Diverges
  | S rounds =>
      '((sDec, sDecCtrl, TempQ) : Dec.state * Dec.control * list Z) ←
        Dec.SKP_Silk_decode_parameters fuel sDec sDecCtrl TempQ false;
      if negb (error (Dec.sRC sDec) =? 0) then Ok (LBRRData, 0)
      else if negb (Z.land (Dec.FrameTermination sDec - 1) lost_offset =? 0) && (0 <? Dec.FrameTermination sDec) &&
              (0 <=? Dec.nBytesLeft sDec) then
        let off := nBytesIn - Dec.nBytesLeft sDec in
        if (off <? 0) || (Z.of_nat (length inData) <? off) then Err OutOfBounds
        else
          d ← memcpy LBRRData (drop (Z.to_nat off) inData) (Dec.nBytesLeft sDec);
          Ok (d, s16 (Dec.nBytesLeft sDec))
      else if (0 <? Dec.nBytesLeft sDec) && (Dec.FrameTermination sDec =? SKP_SILK_MORE_FRAMES) then
        lbrr_loop rounds fuel (Dec.set_nFramesDecoded sDec (Dec.nFramesDecoded sDec + 1)) sDecCtrl TempQ inData
          nBytesIn lost_offset LBRRData
      else Ok (LBRRData, 0)
  end.

Definition SKP_Silk_SDK_search_for_LBRR (rounds fuel : nat) (inData : list Z) (nBytesIn lost_offset : Z) (LBRRData : list Z)
    (sDec : Dec.state) (sDecCtrl : Dec.control) (TempQ : list Z) : res (list Z * Z) :=
  if (lost_offset <? 1) || (MAX_LBRR_DELAY <? lost_offset) then Ok (LBRRData, 0)
  else
    r ← SKP_Silk_range_dec_init (Dec.sRC sDec) inData (s16 nBytesIn);
    lbrr_loop rounds fuel (new_decoder sDec r (Dec.clear MAX_LPC_ORDER (Dec.prevNLSF_Q15 sDec))) sDecCtrl TempQ inData
      (s16 nBytesIn) lost_offset LBRRData.

(** ** The filters

    They are not made, only their bandwidth is widened when [lossCnt] happens not to
    be 0. *)

Definition coef16 (x : Z) : Prop := - 2 ^ 15 <= x < 2 ^ 15.
Definition filters_ok (p : list Z * list Z) : Prop :=
  (MAX_LPC_ORDER <= length p.1)%nat /\ Forall coef16 p.1 /\ (MAX_LPC_ORDER <= length p.2)%nat /\ Forall coef16 p.2.

Lemma round_16 x : SKP_RSHIFT_ROUND x 16 = (x / 2 ^ 15 + 1) / 2.
Proof. unfold SKP_RSHIFT_ROUND. cbn [Z.eqb Pos.eqb]. by rewrite !Z.shiftr_div_pow2 by lia. Qed.

Lemma coef16_wrap x : coef16 (s16 x).
Proof. pose proof (wrap_s_range 16 x ltac:(lia)). unfold coef16. lia. Qed.

Lemma bwexpander_loop_total top m ar chirp :
  ar <> [] -> Forall coef16 ar -> 0 <= chirp <= top -> top <= 65536 -> - 65536 <= m <= 0 -> - 2 ^ 30 <= top * m ->
  exists ar', bwexpander_loop ar chirp m = Ok ar' /\ length ar' = length ar /\ Forall coef16 ar'.
Proof.
  intros Hne Har Hc Ht Hm Hp. revert chirp Hc. induction Har as [|x ar Hx Har IH]; intros chirp Hc; [done|].
  unfold coef16 in Hx. assert (- 2 ^ 30 <= chirp * m <= 0) as Hcm by nia.
  assert (SKP_MUL chirp x = Ok (chirp * x)) as E by (unfold SKP_MUL; apply int32_ok; unfold INT32_MIN, INT32_MAX; nia).
  cbn [bwexpander_loop]. rewrite E, !bind_Ok. destruct ar as [|y ar].
  - eexists. split; [done|]. split; [done|]. apply Forall_singleton, coef16_wrap.
  - unfold SKP_MUL. rewrite int32_ok, bind_Ok by (unfold INT32_MIN, INT32_MAX; lia). rewrite !round_16.
    assert (- chirp <= (chirp * m / 2 ^ 15 + 1) / 2 <= 0) as Hr.
    { assert (- 2 * chirp <= chirp * m / 2 ^ 15 <= 0); [|lia]. split.
      - apply Z.div_le_lower_bound; [done|]. nia.
      - apply Z.div_le_upper_bound; [done|]. lia. }
    rewrite add_s32_ok, bind_Ok by (unfold INT32_MIN, INT32_MAX; lia).
    destruct (IH ltac:(done) (chirp + (chirp * m / 2 ^ 15 + 1) / 2) ltac:(lia)) as (ar' & -> & Hl & Hf).
    rewrite bind_Ok. eexists. split; [done|]. split; [cbn in *; lia|]. constructor; [apply coef16_wrap|done].
Qed.

Lemma bwexpander_total ar chirp :
  ar <> [] -> Forall coef16 ar -> 0 <= chirp <= 65536 ->
  exists ar', SKP_Silk_bwexpander ar chirp = Ok ar' /\ length ar' = length ar /\ Forall coef16 ar'.
Proof.
  intros Hne Har Hc. unfold SKP_Silk_bwexpander. rewrite add_s32_ok by (unfold INT32_MIN, INT32_MAX; lia).
  rewrite bind_Ok. apply (bwexpander_loop_total chirp); [done|done|lia|lia|lia|].
  pose proof (Z.square_nonneg (chirp - 2 ^ 15)). lia.
Qed.

Lemma pred_coefs_kept d old nlsf coef :
  (0 < Dec.LPC_order d <= MAX_LPC_ORDER)%nat -> filters_ok old ->
  exists p, Dec.pred_coefs d old nlsf coef false = Ok p /\ filters_ok p.
Proof.
  intros Ho H. pose proof H as (H1 & F1 & H2 & F2). unfold Dec.pred_coefs. rewrite bind_Ok. destruct old as [a0 a1].
  cbn [fst snd] in *. destruct (negb _); [|by eexists]. unfold filters_ok, MAX_LPC_ORDER in *. cbn [fst snd].
  assert (forall a : list Z, (16 <= length a)%nat -> Forall coef16 a ->
    exists b, SKP_Silk_bwexpander (take (Dec.LPC_order d) a) BWE_AFTER_LOSS_Q16 = Ok b /\
      (16 <= length (b ++ drop (Dec.LPC_order d) a))%nat /\ Forall coef16 (b ++ drop (Dec.LPC_order d) a)) as Hb.
  { intros a Hl Ha. destruct (bwexpander_total (take (Dec.LPC_order d) a) BWE_AFTER_LOSS_Q16) as (b & E & Hlb & Hfb).
    - destruct a; [cbn in Hl; lia|]. destruct (Dec.LPC_order d); [lia|done].
    - by apply Forall_take.
    - unfold BWE_AFTER_LOSS_Q16. lia.
    - exists b. split; [done|]. rewrite length_app, Hlb, length_take, length_drop. split; [lia|].
      apply Forall_app_2; [done|by apply Forall_drop]. }
  destruct (Hb a0 H1 F1) as (b0 & -> & ? & ?). destruct (Hb a1 H2 F2) as (b1 & -> & ? & ?).
  rewrite !bind_Ok. by eexists.
Qed.

(** ** One frame *)

(** The sampling rate is read, and sets the decoder up, if it is another one than
    before. *)
Lemma decode_rate_reads d fs rest s' :
  rate fs -> (Dec.fs_kHz d = fs -> decoder_ok d) -> Dec.nFramesDecoded d = 0 ->
  carries (Dec.sRC d) (rate_symbol fs :: rest) s' ->
  exists d', Dec.decode_rate d = Ok (d', true) /\ carries (Dec.sRC d') rest s' /\ decoder_ok d' /\
    Dec.fs_kHz d' = fs /\ Dec.nFramesDecoded d' = 0.
Proof.
  intros Hf Hfs Hn Hc. destruct (rate_coded fs Hf) as (_ & Et & Hi & _ & Hst).
  unfold rate_symbol in *. cbn [fst snd] in *. set (ix := if fs =? 8 then 0 else _) in *. clearbody ix.
  inversion_clear Hc as [|? ? ? r ? ? Hd Hr].
  unfold Dec.decode_rate. rewrite (Hd _ Hst), bind_Ok. rewrite (proj2 (Z.ltb_ge ix 0)), (proj2 (Z.ltb_ge 3 ix)) by lia.
  cbn [orb]. rewrite Et, bind_Ok. unfold Dec.SKP_Silk_decoder_set_fs. cbn [Dec.fs_kHz Dec.set_sRC].
  destruct (Z.eqb_spec (Dec.fs_kHz d) fs) as [Efs|_].
  - specialize (Hfs Efs). eexists. split; [reflexivity|]. split; [exact Hr|]. split; [|done].
    destruct Hfs. by constructor.
  - eexists. split; [reflexivity|].
    destruct Hf as [->|[->|[->| ->]]]; (split; [exact Hr|]); (split; [|done]);
      (constructor; [unfold rate; cbn; tauto|reflexivity|reflexivity|reflexivity|]); unfold dec_first; cbn; by rewrite Hn.
Qed.

(** What the decoder finds of a frame [f]: [d] before it, and [d'], the control [dc']
    and the signal [q'] behind it.  [left] bytes follow. *)
Record behind (d d' : Dec.state) (dc' : Dec.control) (q' : list Z) (f : frame) (fs term left : Z) : Prop := {
  behind_ok : decoder_ok d';
  behind_fs : Dec.fs_kHz d' = fs;
  behind_frames : Dec.nFramesDecoded d' = Dec.nFramesDecoded d;
  behind_type : Dec.typeOffsetPrev d' = frame_type f;
  behind_term : Dec.FrameTermination d' = term;
  behind_vad : Dec.vadFlag d' = frame_vad f;
  behind_left : Dec.nBytesLeft d' = left;
  behind_error : error (Dec.sRC d') = 0;
  behind_sigtype : Dec.sigtype dc' = Enc.sigtype (indices f);
  behind_filters : filters_ok (Dec.PredCoef_Q12 dc');
  behind_signal : take (length (excitation f)) q' = excitation f;
  behind_gains : exists prev, (Dec.nFramesDecoded d <> 0 -> prev = Dec.LastGainIndex d) /\
    SKP_Silk_gains_dequant (Enc.GainsIndices (indices f)) prev (Dec.nFramesDecoded d) =
      Ok (Dec.Gains_Q16 dc', Dec.LastGainIndex d');
  behind_nlsf :
    SKP_Silk_NLSF_MSVQ_decode (codebook_of fs (Enc.sigtype (indices f))) (Enc.NLSFIndices (indices f)) (order_of fs) =
      Ok (take (order_of fs) (Dec.prevNLSF_Q15 d'));
  behind_pitch :
    (Dec.pitchL dc', Dec.PERIndex dc', Dec.LTPCoef_Q14 dc', Dec.LTP_scale_Q14 dc') =
      if Enc.sigtype (indices f) =? SIG_TYPE_VOICED then voiced_values fs (indices f)
      else (replicate NB_SUBFR 0, 0, replicate (NB_SUBFR * LTP_ORDER) 0, 0);
  behind_quantiser : Dec.Seed dc' = Enc.Seed (indices f) /\ Dec.QuantOffsetType dc' = Enc.QuantOffsetType (indices f)
}.

Lemma decode_frame_behind fuel d dc q0 f pulses fs term left r :
  (16 < fuel)%nat -> decoder_ok d -> Dec.fs_kHz d = fs -> filters_ok (Dec.PredCoef_Q12 dc) ->
  frame_ok (dec_first d) fs f -> pulses_coded f pulses -> 0 <= term < 4 -> (length (excitation f) <= length q0)%nat ->
  carries (Dec.sRC d) (body (dec_first d) (Dec.typeOffsetPrev d) fs f pulses ++ [term_symbol term]) r ->
  Dec.finish r = Ok (left, r) -> error r = 0 ->
  exists d' dc' q', Dec.decode_frame fuel d dc q0 false = Ok (d', dc', q') /\ Dec.sRC d' = r /\
    behind d d' dc' q' f fs term left /\ length q' = length q0.
Proof.
  intros Hfuel Hd Hfs Hfil [Hctl [Hq Hsam]] (_ & _ & level & Hp) Hterm Hlen Hcar Hfin Herr. subst fs.
  pose proof Hd as [Hf Hb Ho Hl Ht]. specialize (Hp fuel q0 Hfuel Hlen).
  assert (length (excitation f) = Z.to_nat (Dec.frame_length d)) as El by lia. rewrite El in Hp.
  destruct (decode_frame_reads d dc (indices f) q0 _ fuel false pulses level (frame_vad f) term [] r Hd Hctl
    (frame_vad_range f) Hterm Hp Hcar) as (r' & Hr & E).
  assert (r' = r) as -> by by inversion Hr. rewrite E. clear E Hr. unfold decoded.
  pose proof Hctl as [Hs HO Hg _ Hn _ _ _].
  destruct (gains_dequant_total _ (Dec.LastGainIndex d) (Dec.nFramesDecoded d) Hg) as (gs & last & Eg). rewrite Eg, bind_Ok.
  destruct (codebook_fetched (Dec.fs_kHz d) (Enc.sigtype (indices f)) Hs) as [_ Hcb].
  rewrite Ho. destruct (MSVQ_decode_spec _ _ Hcb _ Hn) as (nlsf & En & Hln & _). rewrite En, bind_Ok.
  assert (0 < Dec.LPC_order d <= MAX_LPC_ORDER)%nat as Hord
    by (rewrite Ho; unfold order_of, MIN_LPC_ORDER, MAX_LPC_ORDER; destruct (_ =? 8); lia).
  destruct (pred_coefs_kept d (Dec.PredCoef_Q12 dc) nlsf
    (if Dec.first_frame_after_reset d =? 1 then 4 else Enc.NLSFInterpCoef_Q2 (indices f)) Hord Hfil) as (p & -> & Hp').
  rewrite bind_Ok.
  destruct (if Enc.sigtype (indices f) =? SIG_TYPE_VOICED then voiced_values (Dec.fs_kHz d) (indices f)
            else (replicate NB_SUBFR 0, 0, replicate (NB_SUBFR * LTP_ORDER) 0, 0)) as [[[pitch per] ltp] scale] eqn:Ev.
  rewrite Hfin, bind_Ok. do 3 eexists. split; [reflexivity|]. split; [done|]. split.
  - constructor; try done.
    + constructor; try done. intros _. by apply (frame_type_range (dec_first d) (Dec.fs_kHz d)).
    + by rewrite take_app_length.
    + by exists (Dec.LastGainIndex d).
    + cbn. by rewrite take_app_length'.
  - rewrite length_app, length_drop. lia.
Qed.

(** ** Frame after frame *)

(** The flags of the frames from [k] on. *)
Definition flags_from (k : Z) (flags old : list Z) : list Z :=
  take (Z.to_nat k) old ++ flags ++ drop (Z.to_nat k + length flags) old.

Lemma flags_store k x flags old :
  0 <= k < Z.of_nat (length old) ->
  exists old', store_at old k x = Ok old' /\ length old' = length old /\
    flags_from (k + 1) flags old' = flags_from k (x :: flags) old.
Proof.
  intros Hk. unfold store_at. rewrite (proj2 (Z.ltb_ge k 0)), (proj2 (Z.leb_gt _ k)) by lia. cbn [orb].
  eexists. split; [reflexivity|]. split; [apply length_insert|]. unfold flags_from.
  replace (Z.to_nat (k + 1)) with (S (Z.to_nat k)) by lia. cbn [length].
  rewrite (take_S_r _ _ x) by (apply list_lookup_insert_eq; lia). rewrite take_insert_ge, drop_insert_lt by lia.
  rewrite <- app_assoc. cbn [app]. do 3 f_equal. f_equal. lia.
Qed.

(** The frames of a packet, decoded one by one, are the frames [l]. *)
Fixpoint recovered (fuel : nat) (fs term : Z) (d : Dec.state) (dc : Dec.control) (q : list Z) (l : list frame) : Prop :=
  match l with
  | [] => True
  | f :: l =>
      exists d' dc' q' left, Dec.SKP_Silk_decode_parameters fuel d dc q false = Ok (d', dc', q') /\
        behind d d' dc' q' f fs (if l is [] then term else SKP_SILK_MORE_FRAMES) left /\ (l = [] \/ 0 < left) /\
        recovered fuel fs term (Dec.set_nFramesDecoded d' (Dec.nFramesDecoded d' + 1)) dc' q' l
  end.

Section packet.
(** A packet of the symbols [L], in [N] bytes, as the decoder [d1] takes it. *)
Context (L : list (Z * list Z)) (d1 d2 : SKP_Silk_range_coder_state) (N : Z).
Context (L_codable : Forall codable L) (L_carried : carries d1 L d2).
Context (L_fits : Z.of_nat (bytes_of (narrow_all start L)) <= N).
Context (L_followed : forall l1 l2 s, L = l1 ++ l2 -> carries d1 l1 s ->
  decodes (stream d1) s (narrow_all start l1) /\ bufferLength s = N).
Context (L_ends : N = Z.of_nat (bytes_of (narrow_all start L)) -> SKP_Silk_range_coder_check_after_decoding d2 = Ok d2).

(** What the symbols [l] leave of the packet. *)
Definition left_of (l : list (Z * list Z)) : Z := N - Z.of_nat (bytes_of (narrow_all start l)).

Lemma finish_middle l1 l2 r :
  L = l1 ++ l2 -> carries d1 l1 r -> 0 < left_of l1 \/ l2 = [] ->
  Dec.finish r = Ok (left_of l1, r) /\ error r = 0.
Proof using All.
  intros EL Hc Hcase. destruct (L_followed l1 l2 r EL Hc) as [Hd Hl]. unfold left_of in *.
  set (i := narrow_all start l1) in *.
  assert (Z.of_nat (bytes_of i) <= N) as Hle by (destruct Hcase as [? | ->]; [lia|unfold i; by rewrite app_nil_r in EL; subst l1]).
  split; [|by destruct Hd]. unfold Dec.finish.
  rewrite (get_length_spec r i); [|rewrite (dec_count _ _ _ Hd), Hl; unfold bytes_of in Hle; lia|by destruct Hd..].
  fold (bytes_of i). rewrite Hl, (proj2 (Z.ltb_ge _ _)) by lia. destruct (Z.eqb_spec (N - Z.of_nat (bytes_of i)) 0) as [E0|]; [|by rewrite bind_Ok].
  destruct Hcase as [? | ->]; [lia|]. rewrite app_nil_r in EL. subst l1.
  rewrite <- (carries_det _ _ _ _ L_carried L_codable Hc) in *. rewrite L_ends, bind_Ok by (fold i; lia). done.
Qed.

(** A decoder before frame [k], behind the symbols [l1]. *)
Record at_frame (d : Dec.state) (dc : Dec.control) (q : list Z) (k prev fs : Z) (l1 : list (Z * list Z)) : Prop := {
  at_coder : carries d1 l1 (Dec.sRC d);
  at_count : Dec.nFramesDecoded d = k;
  at_decoder :
    if k =? 0 then Dec.fs_kHz d = fs -> decoder_ok d
    else decoder_ok d /\ Dec.fs_kHz d = fs /\ Dec.typeOffsetPrev d = prev;
  at_filters : filters_ok (Dec.PredCoef_Q12 dc);
  at_signal : FRAME_LENGTH_MS * fs <= Z.of_nat (length q)
}.

Definition frame_symbols (k prev fs : Z) (f : frame) (pulses : list (Z * list Z)) (term : Z) : list (Z * list Z) :=
  head (k =? 0) fs ++ body (k =? 0) prev fs f pulses ++ [term_symbol term].

Lemma frame_step fuel d dc q k prev fs l1 l2 f pulses term :
  (16 < fuel)%nat -> rate fs -> at_frame d dc q k prev fs l1 -> 0 <= k -> frame_ok (k =? 0) fs f ->
  pulses_coded f pulses -> 0 <= term < 4 ->
  let l1' := l1 ++ frame_symbols k prev fs f pulses term in
  L = l1' ++ l2 -> 0 < left_of l1' \/ l2 = [] ->
  exists d' dc' q', Dec.SKP_Silk_decode_parameters fuel d dc q false = Ok (d', dc', q') /\
    behind d d' dc' q' f fs term (left_of l1') /\
    at_frame (Dec.set_nFramesDecoded d' (k + 1)) dc' q' (k + 1) (frame_type f) fs l1'.
Proof using All.
  intros Hfuel Hfs [Hc Hk Hd Hfil Hq] Hk0 Hf Hp Hterm l1' EL Hcase. unfold frame_symbols in l1'.
  assert (exists r, carries d1 l1' r) as [r Hr] by (rewrite EL in L_carried; apply carries_app in L_carried as (r & Hr & _); by exists r).
  destruct (finish_middle l1' l2 r EL Hr Hcase) as [Hfin Herr].
  assert (carries (Dec.sRC d) (head (k =? 0) fs ++ body (k =? 0) prev fs f pulses ++ [term_symbol term]) r) as Hcar.
  { unfold l1' in Hr. apply carries_app in Hr as (s & Hs & Hr). rewrite EL in L_codable. unfold l1' in L_codable.
    rewrite !Forall_app in L_codable. by rewrite (carries_det _ _ _ _ Hc (proj1 (proj1 L_codable)) Hs). }
  assert (exists d0, carries (Dec.sRC d0) (body (k =? 0) (Dec.typeOffsetPrev d0) fs f pulses ++ [term_symbol term]) r /\
    decoder_ok d0 /\ Dec.fs_kHz d0 = fs /\ (Dec.nFramesDecoded d0 = k /\ (k <> 0 -> Dec.LastGainIndex d0 = Dec.LastGainIndex d)) /\
    Dec.SKP_Silk_decode_parameters fuel d dc q false = Dec.decode_frame fuel d0 dc q false) as (d0 & Hcar0 & Hd0 & Hfs0 & (Hk0' & Hg0) & E).
  { unfold Dec.SKP_Silk_decode_parameters. rewrite Hk. destruct (Z.eqb_spec k 0) as [->|Hk1].
    - destruct (decode_rate_reads d fs _ r Hfs Hd Hk Hcar) as (d0 & E & Hc0 & Hok & Hfs0 & Hn0). exists d0.
      rewrite E, bind_Ok. done.
    - destruct Hd as (Hok & Hfs0 & <-). by exists d. }
  rewrite E. assert (dec_first d0 = (k =? 0)) as Efirst by (unfold dec_first; by rewrite Hk0').
  destruct (decode_frame_behind fuel d0 dc q f pulses fs term (left_of l1') r Hfuel Hd0 Hfs0 Hfil) as (d' & dc' & q' & E' & Er & Hb & Hlq);
    [by rewrite Efirst|done|done|destruct Hf as [_ [Hl _]]; lia|by rewrite Efirst|done|done|].
  exists d', dc', q'. split; [done|]. pose proof Hb as [B1 B2 B3 B4 B5 B6 B7 B8 B9 B10 _ _ _ _ _]. split.
  - destruct Hb as [? ? ? ? ? ? ? ? ? ? ? (prev' & Hprev & Eg) ? ? ?]. constructor; try done; [congruence|].
    exists prev'. rewrite Hk0' in *. rewrite Hk. split; [|done]. intros Hk'. by rewrite Hprev, Hg0.
  - constructor; cbn; [by rewrite Er|done| |done|by rewrite Hlq].
    rewrite (proj2 (Z.eqb_neq (k + 1) 0)) by lia. split; [|done]. destruct B1 as [C1 C2 C3 C4 _]. constructor; try done.
    cbn. intros _. rewrite B4. by apply (frame_type_range (k =? 0) fs), Hf.
Qed.

(** Something is left behind a frame that is not the last. *)
Lemma more_left l1 prev fs term f p l :
  rate fs -> frame_ok false fs f -> pulses_coded f p -> 0 <= prev < 4 ->
  L = l1 ++ frames_symbols false prev fs term ((f, p) :: l) -> 0 < left_of l1.
Proof using All.
  intros Hfs Hf Hp Hprev EL. cbn [frames_symbols] in EL. rewrite <- app_assoc in EL.
  match type of EL with _ = _ ++ _ ++ ?x => set (rest := x) in EL end. rewrite EL, !Forall_app in L_codable.
  destruct L_codable as (H1 & H2 & H3).
  assert (wide start) as Hw by (unfold wide; cbn; lia).
  pose proof (bytes_grow (narrow_all start l1) (body false prev fs f p ++ rest) 1) as H.
  rewrite <- narrow_all_app, <- EL in H. unfold left_of.
  enough (Z.of_nat (bytes_of (narrow_all start l1)) + 1 <= Z.of_nat (bytes_of (narrow_all start L))) by lia. apply H.
  - by apply narrow_all_wide.
  - by apply Forall_app_2.
  - by right.
  - by apply body_chance.
Qed.

(** Both functions take the frames one by one. *)
Lemma packet_step fuel fs term f p l ps d dc q k prev l1 :
  (16 < fuel)%nat -> rate fs -> 0 <= term < 4 -> pulses_coded f p -> Forall2 pulses_coded l ps ->
  at_frame d dc q k prev fs l1 -> 0 <= k -> frames_ok (k =? 0) fs (f :: l) ->
  L = l1 ++ packet_symbols k prev fs term (zip (f :: l) (p :: ps)) ->
  exists d' dc' q' left, Dec.SKP_Silk_decode_parameters fuel d dc q false = Ok (d', dc', q') /\
    behind d d' dc' q' f fs (if l is [] then term else SKP_SILK_MORE_FRAMES) left /\
    match l with
    | [] => left = left_of L
    | _ => 0 < left /\ exists l1', at_frame (Dec.set_nFramesDecoded d' (k + 1)) dc' q' (k + 1) (frame_type f) fs l1' /\
        L = l1' ++ packet_symbols (k + 1) (frame_type f) fs term (zip l ps)
    end.
Proof using All.
  intros Hfuel Hfs Hterm Hp Hps Hat Hk [Hf Hl] EL. unfold packet_symbols in *. cbn [zip zip_with frames_symbols] in EL.
  rewrite (proj2 (Z.eqb_neq (k + 1) 0)) by lia. cbn [head app].
  set (t := match zip_with pair l ps with [] => term | _ => SKP_SILK_MORE_FRAMES end) in *.
  assert (t = (if l is [] then term else SKP_SILK_MORE_FRAMES)) as Et by (destruct Hps; done).
  rewrite <- Et. assert (0 <= t < 4) as Ht by (rewrite Et; destruct l; [done|unfold SKP_SILK_MORE_FRAMES; lia]).
  clearbody t. clear Et. rewrite (app_assoc (head _ _)), (app_assoc l1) in EL. fold (frame_symbols k prev fs f p t) in EL.
  set (l1' := l1 ++ frame_symbols k prev fs f p t) in *.
  assert (l = [] /\ L = l1' \/ 0 < left_of l1') as Hcase.
  { destruct Hps as [|f2 p2 l ps Hp2 Hps]; [left; split; [done|]; by rewrite app_nil_r in EL|]. right. destruct Hl as [Hf2 _].
    cbn [zip zip_with] in EL. apply (more_left l1' (frame_type f) fs term f2 p2 (zip l ps)); [done|done|done| |done].
    by apply (frame_type_range (k =? 0) fs), Hf. }
  destruct (frame_step fuel d dc q k prev fs l1 (frames_symbols false (frame_type f) fs term (zip l ps)) f p t)
    as (d' & dc' & q' & E & Hb & Ha); [done..| |].
  { destruct Hcase as [[-> _]|H]; [by right|by left]. }
  exists d', dc', q', (left_of l1'). split; [done|]. split; [done|]. destruct l as [|f2 l].
  - destruct Hcase as [[_ ->]|_]; [done|]. cbn [zip zip_with frames_symbols] in EL. by rewrite app_nil_r in EL; rewrite EL.
  - destruct Hcase as [[? _]|H]; [done|]. split; [done|]. by exists l1'.
Qed.

Lemma toc_loop_spec fuel fs term l ps rounds d dc q k prev l1 vads sigs :
  (16 < fuel)%nat -> rate fs -> 0 <= term < 4 -> term <> SKP_SILK_MORE_FRAMES -> Forall2 pulses_coded l ps ->
  l <> [] -> (length l <= rounds)%nat -> at_frame d dc q k prev fs l1 -> 0 <= k -> frames_ok (k =? 0) fs l ->
  L = l1 ++ packet_symbols k prev fs term (zip l ps) ->
  k + Z.of_nat (length l) <= Z.of_nat (length vads) -> k + Z.of_nat (length l) <= Z.of_nat (length sigs) ->
  exists d', toc_loop rounds fuel d dc q vads sigs =
      Ok (flags_from k (frame_vad <$> l) vads, flags_from k ((fun f => Enc.sigtype (indices f)) <$> l) sigs, false, d') /\
    Dec.nFramesDecoded d' = k + Z.of_nat (length l) - 1 /\ Dec.FrameTermination d' = term /\ Dec.fs_kHz d' = fs.
Proof using All.
  intros Hfuel Hfs Hterm Hlast Hps. revert rounds d dc q k prev l1 vads sigs.
  induction Hps as [|f p l ps Hp Hps IH]; intros rounds d dc q k prev l1 vads sigs Hne Hrounds Hat Hk Hl EL Hv Hsg; [done|].
  cbn [length] in *. destruct rounds as [|rounds]; [lia|].
  destruct (packet_step fuel fs term f p l ps d dc q k prev l1 Hfuel Hfs Hterm Hp Hps Hat Hk Hl EL)
    as (d' & dc' & q' & left & E & [B1 B2 B3 B4 B5 B6 B7 B8 B9 B10 _ _ _ _ _] & Hrest).
  cbn [toc_loop fmap list_fmap]. rewrite E, bind_Ok. rewrite (at_count _ _ _ _ _ _ _ Hat) in B3. rewrite B3, B6, B9.
  destruct (flags_store k (frame_vad f) (frame_vad <$> l) vads) as (v' & -> & Hlv & <-); [lia|]. rewrite bind_Ok.
  destruct (flags_store k (Enc.sigtype (indices f)) ((fun f => Enc.sigtype (indices f)) <$> l) sigs) as (s' & -> & Hls & <-); [lia|].
  rewrite bind_Ok, B8, B7, B5. cbn [Z.eqb negb]. destruct Hps as [|f2 p2 l ps Hp2 Hps].
  - rewrite (proj2 (Z.eqb_neq term _) Hlast), andb_false_r. cbn [fmap list_fmap]. eexists. split.
    + unfold flags_from. cbn [length app]. by rewrite !Nat.add_0_r, !take_drop.
    + split; [rewrite B3; cbn; lia|done].
  - destruct Hrest as (Hleft & l1' & Hat' & EL'). rewrite (proj2 (Z.ltb_lt 0 left) Hleft), Z.eqb_refl. cbn [andb].
    destruct (IH rounds _ dc' q' (k + 1) _ l1' v' s' ltac:(done) ltac:(lia) Hat' ltac:(lia)) as (d'' & -> & H1 & H2).
    + rewrite (proj2 (Z.eqb_neq (k + 1) 0)) by lia. by destruct Hl.
    + done.
    + lia.
    + lia.
    + eexists. split; [reflexivity|]. split; [lia|done].
Qed.

Lemma recovered_all fuel fs term l ps d dc q k prev l1 :
  (16 < fuel)%nat -> rate fs -> 0 <= term < 4 -> Forall2 pulses_coded l ps -> at_frame d dc q k prev fs l1 -> 0 <= k ->
  frames_ok (k =? 0) fs l -> L = l1 ++ packet_symbols k prev fs term (zip l ps) ->
  recovered fuel fs term d dc q l.
Proof using All.
  intros Hfuel Hfs Hterm Hps. revert d dc q k prev l1.
  induction Hps as [|f p l ps Hp Hps IH]; intros d dc q k prev l1 Hat Hk Hl EL; [done|].
  destruct (packet_step fuel fs term f p l ps d dc q k prev l1 Hfuel Hfs Hterm Hp Hps Hat Hk Hl EL)
    as (d' & dc' & q' & left & E & Hb & Hrest).
  exists d', dc', q', left. split; [done|]. split; [done|]. destruct l as [|f2 l]; [by split; [left|]|].
  destruct Hrest as (Hleft & l1' & Hat' & EL'). split; [by right|].
  rewrite (behind_frames _ _ _ _ _ _ _ _ Hb), (at_count _ _ _ _ _ _ _ Hat).
  apply (IH _ _ _ (k + 1) (frame_type f) l1'); [done|lia| |done].
  rewrite (proj2 (Z.eqb_neq (k + 1) 0)) by lia. by destruct Hl.
Qed.

(** The redundancy is for the packet [lost_offset] frames back. *)
Definition carries_lbrr (term lost_offset : Z) : bool := term =? lost_offset + 1.

Lemma lbrr_loop_spec fuel fs term l ps rounds d dc q k prev l1 inData lost_offset LBRRData :
  (16 < fuel)%nat -> rate fs -> 0 <= term < 4 -> term <> SKP_SILK_MORE_FRAMES -> Forall2 pulses_coded l ps ->
  l <> [] -> (length l <= rounds)%nat -> at_frame d dc q k prev fs l1 -> 0 <= k -> frames_ok (k =? 0) fs l ->
  L = l1 ++ packet_symbols k prev fs term (zip l ps) -> 1 <= lost_offset <= 2 ->
  N <= Z.of_nat (length inData) -> left_of L <= Z.of_nat (length LBRRData) ->
  lbrr_loop rounds fuel d dc q inData N lost_offset LBRRData =
    Ok (if carries_lbrr term lost_offset then
          (take (Z.to_nat (left_of L)) (drop (bytes_of (narrow_all start L)) inData) ++ drop (Z.to_nat (left_of L)) LBRRData,
           s16 (left_of L))%list
        else (LBRRData, 0)).
Proof using All.
  intros Hfuel Hfs Hterm Hlast Hps. revert rounds d dc q k prev l1.
  induction Hps as [|f p l ps Hp Hps IH]; intros rounds d dc q k prev l1 Hne Hrounds Hat Hk Hl EL Hlo Hin Hout; [done|].
  cbn [length] in *. destruct rounds as [|rounds]; [lia|].
  destruct (packet_step fuel fs term f p l ps d dc q k prev l1 Hfuel Hfs Hterm Hp Hps Hat Hk Hl EL)
    as (d' & dc' & q' & left & E & [B1 B2 B3 B4 B5 B6 B7 B8 B9 B10 _ _ _ _ _] & Hrest).
  cbn [lbrr_loop]. rewrite E, bind_Ok, B8, B5, B7. rewrite (at_count _ _ _ _ _ _ _ Hat) in B3. rewrite B3.
  cbn [Z.eqb negb]. destruct Hps as [|f2 p2 l ps Hp2 Hps].
  - rewrite Hrest in *. unfold left_of in *. rewrite (proj2 (Z.leb_le 0 _)), (proj2 (Z.eqb_neq term _) Hlast), !andb_false_r, andb_true_r by lia.
    assert (negb (Z.land (term - 1) lost_offset =? 0) && (0 <? term) = carries_lbrr term lost_offset) as ->.
    { unfold SKP_SILK_MORE_FRAMES in Hlast. assert (lost_offset = 1 \/ lost_offset = 2) as [-> | ->] by lia;
        (assert (term = 0 \/ term = 2 \/ term = 3) as [-> | [-> | ->]] by lia; reflexivity). }
    destruct (carries_lbrr term lost_offset); [|done].
    set (B := bytes_of (narrow_all start L)) in *. replace (N - (N - Z.of_nat B)) with (Z.of_nat B) by lia.
    rewrite (proj2 (Z.ltb_ge (Z.of_nat B) 0)), (proj2 (Z.ltb_ge _ (Z.of_nat B))) by lia. cbn [orb].
    unfold memcpy. rewrite (proj2 (Z.ltb_ge (N - Z.of_nat B) 0)), !(proj2 (Z.ltb_ge (Z.of_nat (length _)) _)) by (rewrite ?length_drop; lia).
    cbn [orb]. rewrite bind_Ok, Nat2Z.id. done.
  - destruct Hrest as (Hleft & l1' & Hat' & EL'). unfold SKP_SILK_MORE_FRAMES at 1.
    change (Z.land (1 - 1) lost_offset) with 0. cbn [Z.eqb negb andb].
    rewrite (proj2 (Z.ltb_lt 0 left) Hleft), Z.eqb_refl. cbn [andb].
    apply (IH rounds _ dc' q' (k + 1) (frame_type f) l1'); try done; [lia|lia|].
    rewrite (proj2 (Z.eqb_neq (k + 1) 0)) by lia. by destruct Hl.
Qed.

End packet.

(** ** What was sent is found *)

(** The bytes of a packet, in memory of at least four bytes. *)
Record received (out : list Z) (n : Z) (inData : list Z) : Prop := {
  received_bytes : Forall byte inData;
  received_length : (4 <= length inData)%nat /\ n <= Z.of_nat (length inData);
  received_packet : take (Z.to_nat n) inData = take (Z.to_nat n) out
}.

(** The redundancy of the state [e] that went into a packet of [n] bytes: all of it, or
    nothing where there was no room. *)
Definition redundancy_sent (e : packet_state) (n pnBytesOut : Z) (red : list Z) : Prop :=
  let '(term, lb) := redundancy e in
  if SKP_SILK_MORE_FRAMES <? term
  then red = take (Z.to_nat (nBytes lb)) (payload lb) /\ Z.of_nat (length red) = nBytes lb \/
       red = [] /\ pnBytesOut < n + nBytes lb
  else red = [].

Lemma sent_opened e j pnBytesOut out n L :
  lbrr_ok e -> sent (redundancy e) j pnBytesOut out n -> narrow_by j (term_symbol (redundancy e).1) = narrow_all start L ->
  Forall codable L -> pnBytesOut <= 1020 -> pnBytesOut <= Z.of_nat (length out) ->
  let B := bytes_of (narrow_all start L) in
  exists red, redundancy_sent e n pnBytesOut red /\ n = Z.of_nat B + Z.of_nat (length red) /\ n <= pnBytesOut /\
    drop B (take (Z.to_nat n) out) = red /\
    forall r inData, packet_start r -> received out n inData ->
      exists d1 d2, SKP_Silk_range_dec_init r inData n = Ok d1 /\ carries d1 L d2 /\
        (forall l1 l2 s, L = l1 ++ l2 -> carries d1 l1 s ->
           decodes (stream d1) s (narrow_all start l1) /\ bufferLength s = n) /\
        (n = Z.of_nat B -> SKP_Silk_range_coder_check_after_decoding d2 = Ok d2).
Proof.
  intros Hlb Hsent Ej HL Hmax Hlen B. pose proof (terminator_spec e Hlb) as Hterm. unfold redundancy_sent, sent in *.
  destruct (redundancy e) as [term lb]. cbn [fst] in Ej. destruct Hterm as (_ & (_ & Hpl & Hpn) & _).
  destruct Hsent as (s1 & s2 & Henc & Hwrap & En & Etake & Hb & Hn). rewrite Ej in *. fold B in En, Etake, Hb |- *.
  set (red := if (SKP_SILK_MORE_FRAMES <? term) && (Z.of_nat B + nBytes lb <=? pnBytesOut) then _ else _) in *.
  exists red. split; [|split; [lia|]; split; [done|]; split].
  - subst red. destruct (SKP_SILK_MORE_FRAMES <? term); [|done]. cbn [andb] in *.
    destruct (Z.leb_spec (Z.of_nat B + nBytes lb) pnBytesOut) as [|Hbig].
    + left. split; [done|]. rewrite length_take. lia.
    + right. split; [done|]. cbn [length] in En. lia.
  - replace (Z.to_nat n) with (B + length red)%nat by lia. rewrite Etake, drop_app_length'; [done|]. rewrite length_take. lia.
  - intros r inData Hr [Hby [H4 Hnl] Htk].
    destruct (packet_decodes L s1 Henc HL) as (s2' & nBits & nB & Hwrap' & _ & EB & _ & Hdec).
    { rewrite (enc_count _ _ Henc). subst B. unfold bytes_of in En. lia. }
    fold (bytes_of (narrow_all start L)) in EB. fold B in EB. subst nB. rewrite Hwrap in Hwrap'. injection Hwrap' as <-.
    destruct (Hdec r inData (Z.to_nat n) Hr Hby H4) as (d1 & d2 & E1 & Hc & _ & Hck & _ & Hf); [lia|lia|unfold MAX_ARITHM_BYTES; lia| |].
    { assert (take B inData = take B (take (Z.to_nat n) inData)) as -> by (rewrite take_take; f_equal; lia).
      rewrite Htk. replace (Z.to_nat n) with (B + length red)%nat by lia. rewrite Etake, take_app_length'; [done|]. rewrite length_take. lia. }
    rewrite Z2Nat.id in * by lia. exists d1, d2. split_and!; [done|done|done|]. intros E. apply Hck. lia.
Qed.

(** A packet of frames that the encoder [e] makes, and its output. *)
Record makes_packet (e : packet_state) (fs : Z) (l : list frame) (pCode : list Z) (pnBytesOut : Z) : Prop := {
  makes_ready : ready e fs (Z.of_nat (length l)) 0 start;
  makes_some : l <> [];
  makes_frames : frames_ok true fs l;
  makes_lbrr : Forall (fun f => lbrr_fits (LBRRpayload f) (nBytesLBRR f)) l;
  makes_output : Forall byte pCode /\ pnBytesOut <= 1020 /\ pnBytesOut <= Z.of_nat (length pCode)
}.

(** A decoder that looks into a packet of the sampling rate [fs]. *)
Record looks (sDec : Dec.state) (dc : Dec.control) (q : list Z) (fs : Z) (fuel : nat) : Prop := {
  looks_buffer : packet_start (Dec.sRC sDec);
  looks_filters : filters_ok (Dec.PredCoef_Q12 dc);
  looks_signal : FRAME_LENGTH_MS * fs <= Z.of_nat (length q);
  looks_fuel : (16 < fuel)%nat
}.

Lemma packet_opened e fs l pCode pnBytesOut :
  makes_packet e fs l pCode pnBytesOut ->
  exists e' out n ret, code_frames e l pCode pnBytesOut = Ok (e', out, n, ret) /\
    (failed ret \/ ret = 0 /\ exists L ps red, Forall2 pulses_coded l ps /\ Forall codable L /\
     L = packet_symbols 0 (Enc.typeOffsetPrev (sCmn e)) fs (redundancy e).1 (zip l ps) /\
     let B := bytes_of (narrow_all start L) in
     redundancy_sent e n pnBytesOut red /\ n = Z.of_nat B + Z.of_nat (length red) /\ n <= pnBytesOut /\
     drop B (take (Z.to_nat n) out) = red /\
     forall r inData, packet_start r -> received out n inData ->
       exists d1 d2, SKP_Silk_range_dec_init r inData n = Ok d1 /\ carries d1 L d2 /\
         (forall l1 l2 s, L = l1 ++ l2 -> carries d1 l1 s ->
            decodes (stream d1) s (narrow_all start l1) /\ bufferLength s = n) /\
         (n = Z.of_nat B -> SKP_Silk_range_coder_check_after_decoding d2 = Ok d2)).
Proof.
  intros [Hready Hne Hl Hlb (Hb & Hmax & Hlen)]. pose proof Hready as [Henc Hfs _ _ Hlbrr _].
  assert (rate fs) as Hf by (rewrite <- Hfs; by destruct Henc).
  destruct (frames_pulses true fs l Hf Hl) as (ps & Hps).
  destruct (code_frames_spec l ps e fs _ 0 start pCode pnBytesOut Hne Hready Hl Hps Hlb ltac:(lia) ltac:(lia) Hb Hmax Hlen)
    as (e' & out & n & ret & E & H).
  exists e', out, n, ret. split; [done|]. destruct H as [H|(-> & Hlo & Hbo & j & Ej & Hs)]; [by left|]. right. split; [done|].
  set (L := packet_symbols 0 _ fs _ (zip l ps)) in *. pose proof (terminator_spec e Hlbrr) as Hterm.
  assert (0 <= (redundancy e).1 < 4) as Ht.
  { destruct (redundancy e) as [term lb]. cbn [fst]. destruct Hterm as ([->|[->| ->]] & _); done. }
  assert (Forall codable L) as HL.
  { apply Forall_app_2; [apply Forall_singleton, rate_coded, Hf|]. by apply frames_codable. }
  destruct (sent_opened e j pnBytesOut out n L Hlbrr Hs Ej HL Hmax ltac:(lia)) as (red & H1 & H2 & H3 & H4 & H5).
  exists L, ps, red. by split_and!.
Qed.

(** The decoder of a packet, before its first frame. *)
Lemma at_start sDec r prevNLSF dc q fs fuel prev :
  rate fs -> looks sDec dc q fs fuel -> at_frame r (new_decoder sDec r prevNLSF) dc q 0 prev fs [].
Proof.
  intros Hf [_ Hfil Hq _]. constructor; cbn [Dec.sRC new_decoder]; try done; [constructor|].
  cbn. intros <-. by destruct Hf as [|[|[|]]].
Qed.

Lemma redundancy_term e : lbrr_ok e -> 0 <= (redundancy e).1 < 4 /\ (redundancy e).1 <> SKP_SILK_MORE_FRAMES.
Proof.
  intros H. pose proof (terminator_spec e H) as Ht. destruct (redundancy e) as [term lb].
  by destruct Ht as ([->|[->| ->]] & _).
Qed.

(** C36.  What the encoder puts into a packet is what a decoder takes out of it.  For any
    frames with indices and samples in range that fill a packet, the encoder returns, with
    an error code if the packet does not fit; otherwise a decoder, given the packet and
    nothing but the packet, decodes frame by frame the samples, the gains, the line
    spectral frequencies, pitch lags and filters of the long-term prediction, the seed and
    the flags that were encoded, with no error and with bytes left behind every frame but
    the last, whatever it decoded before, provided that it is in a state [decoder_ok] if it
    has been set to the sampling rate already. *)
Theorem packet_frames_recovered e fs l pCode pnBytesOut :
  makes_packet e fs l pCode pnBytesOut ->
  exists e' out n ret, code_frames e l pCode pnBytesOut = Ok (e', out, n, ret) /\
    (failed ret \/ ret = 0 /\ 0 <= n <= pnBytesOut /\
     forall inData d dc q fuel, received out n inData -> looks d dc q fs fuel ->
       Dec.nFramesDecoded d = 0 -> (Dec.fs_kHz d = fs -> decoder_ok d) ->
       exists r, SKP_Silk_range_dec_init (Dec.sRC d) inData n = Ok r /\
         recovered fuel fs (redundancy e).1 (Dec.set_sRC d r) dc q l).
Proof.
  intros Hm. pose proof Hm as [[Henc Hfs _ _ Hlb _] Hne Hl _ _].
  assert (rate fs) as Hf by (rewrite <- Hfs; by destruct Henc). destruct (redundancy_term e Hlb) as [Ht _].
  destruct (packet_opened e fs l pCode pnBytesOut Hm) as (e' & out & n & ret & E & H).
  exists e', out, n, ret. split; [done|]. destruct H as [H|(-> & L & ps & red & Hps & HL & EL & _ & En & Hn & _ & Hd)]; [by left|].
  right. split; [done|]. split; [lia|]. intros inData d dc q fuel Hrec [Hb Hfil Hq Hfuel] H0 Hdec.
  destruct (Hd _ _ Hb Hrec) as (d1 & d2 & E1 & Hc & Hfollow & Hend). exists d1. split; [done|].
  apply (recovered_all L d1 d2 n HL Hc ltac:(lia) Hfollow Hend fuel fs _ l ps _ _ _ 0 (Enc.typeOffsetPrev (sCmn e)) []); try done.
  constructor; cbn [Dec.sRC Dec.set_sRC]; try done; [constructor|]. intros Efs. destruct (Hdec Efs). by constructor.
Qed.

Definition corrupt_packet : SKP_Silk_TOC_struct :=
  Toc 0 0 0 1 (replicate SILK_MAX_FRAMES_PER_PACKET 0) (replicate SILK_MAX_FRAMES_PER_PACKET 0).

(** C38.  [SKP_Silk_SDK_get_TOC] on a packet of up to five frames.  It returns the
    sampling rate, the flags of voice activity and the signal types that were encoded, in
    the order of the frames, the elements behind them as they were, and 0, 1 or 2 for no
    redundancy, or one for the packet that many before; but one frame less than there are.
    It calls every packet corrupt if [nFramesInPacket], which it never sets, happens to be
    above 5. *)
Theorem packet_contents e fs l pCode pnBytesOut :
  makes_packet e fs l pCode pnBytesOut -> (length l <= SILK_MAX_FRAMES_PER_PACKET)%nat ->
  exists e' out n ret, code_frames e l pCode pnBytesOut = Ok (e', out, n, ret) /\
    (failed ret \/ ret = 0 /\ 0 <= n <= pnBytesOut /\
     forall inData toc sDec nFramesInPacket dc q fuel, received out n inData -> looks sDec dc q fs fuel ->
       length (vadFlags toc) = SILK_MAX_FRAMES_PER_PACKET -> length (sigtypeFlags toc) = SILK_MAX_FRAMES_PER_PACKET ->
       SKP_Silk_SDK_get_TOC fuel inData n toc sDec nFramesInPacket dc q =
         Ok (if Z.of_nat SILK_MAX_FRAMES_PER_PACKET <? nFramesInPacket then corrupt_packet
             else Toc (Z.of_nat (length l) - 1) fs (Z.max 0 ((redundancy e).1 - 1)) 0
               ((frame_vad <$> l) ++ drop (length l) (vadFlags toc))
               (((fun f => Enc.sigtype (indices f)) <$> l) ++ drop (length l) (sigtypeFlags toc)))).
Proof.
  intros Hm H5. pose proof Hm as [[Henc Hfs _ _ Hlb _] Hne Hl _ [_ [Hmax _]]].
  assert (rate fs) as Hf by (rewrite <- Hfs; by destruct Henc). destruct (redundancy_term e Hlb) as [Ht Hlast].
  destruct (packet_opened e fs l pCode pnBytesOut Hm) as (e' & out & n & ret & E & H).
  exists e', out, n, ret. split; [done|]. destruct H as [H|(-> & L & ps & red & Hps & HL & EL & _ & En & Hn & _ & Hd)]; [by left|].
  right. split; [done|]. split; [lia|]. intros inData toc sDec nfip dc q fuel Hrec Hlook Hv Hs.
  pose proof Hlook as [Hb _ _ Hfuel]. destruct (Hd _ _ Hb Hrec) as (d1 & d2 & E1 & Hc & Hfollow & Hend).
  unfold SKP_Silk_SDK_get_TOC. rewrite wrap_s_id, E1, bind_Ok by lia.
  pose proof (at_start sDec d1 (Dec.prevNLSF_Q15 sDec) dc q fs fuel (Enc.typeOffsetPrev (sCmn e)) Hf Hlook) as Hat.
  assert (L = [] ++ packet_symbols 0 (Enc.typeOffsetPrev (sCmn e)) fs (redundancy e).1 (zip l ps)) as EL' by done.
  destruct (toc_loop_spec L d1 d2 n HL Hc ltac:(lia) Hfollow Hend fuel fs (redundancy e).1 l ps
    (S SILK_MAX_FRAMES_PER_PACKET) _ dc q 0 _ [] (vadFlags toc) (sigtypeFlags toc) Hfuel Hf Ht Hlast Hps Hne ltac:(lia) Hat
    ltac:(lia) Hl EL' ltac:(lia) ltac:(lia)) as (d' & -> & Hn' & Hterm & Hfs').
  rewrite bind_Ok. cbn [orb]. rewrite Hterm, (proj2 (Z.eqb_neq _ _) Hlast), Hn', Hfs'. cbn [orb].
  destruct (_ <? nfip); [done|]. unfold flags_from. rewrite !length_fmap. cbn [Z.to_nat take app Nat.add].
  do 2 f_equal. unfold SKP_SILK_LAST_FRAME. destruct (Z.eqb_spec (redundancy e).1 0) as [->|]; [done|].
  unfold SKP_SILK_MORE_FRAMES in Hlast. lia.
Qed.

(** C37.  [SKP_Silk_SDK_search_for_LBRR] gives back exactly the redundancy that was appended
    to the packet, and its length, when the packet says that it belongs to the packet that
    was lost, [lost_offset] before this one: the bytes that a state of the encoder kept
    for it, or nothing when they had no room in the packet.  In all other cases it returns
    the length 0 and leaves [LBRRData] alone.  It does so for packets of any number of
    frames, whatever stands behind the packet in memory. *)
Theorem redundancy_found e fs l pCode pnBytesOut :
  makes_packet e fs l pCode pnBytesOut ->
  exists e' out n ret, code_frames e l pCode pnBytesOut = Ok (e', out, n, ret) /\
    (failed ret \/ ret = 0 /\ 0 <= n <= pnBytesOut /\ exists red,
     redundancy_sent e n pnBytesOut red /\ (length red <= Z.to_nat n)%nat /\
     forall inData lost_offset LBRRData sDec dc q rounds fuel, received out n inData -> looks sDec dc q fs fuel ->
       (length l <= rounds)%nat -> (length red <= length LBRRData)%nat ->
       SKP_Silk_SDK_search_for_LBRR rounds fuel inData n lost_offset LBRRData sDec dc q =
         Ok (if (1 <=? lost_offset) && (lost_offset <=? MAX_LBRR_DELAY) && carries_lbrr (redundancy e).1 lost_offset
             then (red ++ drop (length red) LBRRData, Z.of_nat (length red)) else (LBRRData, 0))).
Proof.
  intros Hm. pose proof Hm as [[Henc Hfs _ _ Hlb _] Hne Hl _ [_ [Hmax _]]].
  assert (rate fs) as Hf by (rewrite <- Hfs; by destruct Henc). destruct (redundancy_term e Hlb) as [Ht Hlast].
  destruct (packet_opened e fs l pCode pnBytesOut Hm) as (e' & out & n & ret & E & H).
  exists e', out, n, ret. split; [done|]. destruct H as [H|(-> & L & ps & red & Hps & HL & EL & Hred & En & Hn & Hdrop & Hd)]; [by left|].
  right. split; [done|]. split; [lia|]. exists red. split; [done|]. split; [lia|].
  intros inData lo LBRRData sDec dc q rounds fuel Hrec Hlook Hr Hlen. unfold SKP_Silk_SDK_search_for_LBRR.
  destruct (Z.ltb_spec lo 1), (Z.leb_spec 1 lo), (Z.ltb_spec MAX_LBRR_DELAY lo), (Z.leb_spec lo MAX_LBRR_DELAY); try lia;
    cbn [orb andb]; try done.
  pose proof Hlook as [Hb _ _ Hfuel]. destruct (Hd _ _ Hb Hrec) as (d1 & d2 & E1 & Hc & Hfollow & Hend).
  rewrite wrap_s_id, E1, bind_Ok by lia. unfold MAX_LBRR_DELAY in *. destruct Hrec as [_ [_ Hnl] Htk].
  set (B := bytes_of (narrow_all start L)) in *. assert (left_of n L = Z.of_nat (length red)) as Eleft by (unfold left_of; fold B; lia).
  pose proof (at_start sDec d1 (Dec.clear MAX_LPC_ORDER (Dec.prevNLSF_Q15 sDec)) dc q fs fuel (Enc.typeOffsetPrev (sCmn e)) Hf Hlook) as Hat.
  assert (L = [] ++ packet_symbols 0 (Enc.typeOffsetPrev (sCmn e)) fs (redundancy e).1 (zip l ps)) as EL' by done.
  rewrite (lbrr_loop_spec L d1 d2 n HL Hc ltac:(lia) Hfollow Hend fuel fs _ l ps rounds _ dc q 0 _ [] inData lo LBRRData
    Hfuel Hf Ht Hlast Hps Hne Hr Hat ltac:(lia) Hl EL' ltac:(lia) Hnl) by lia.
  rewrite Eleft, wrap_s_id, Nat2Z.id by lia. fold B. rewrite take_drop_commute.
  replace (B + length red)%nat with (Z.to_nat n) by lia. by rewrite Htk, Hdrop.
Qed.

(** ** Examples

    Two frames at 8 kHz, the first voiced, the second not, from an encoder that keeps
    three bytes for the packet before. *)
Definition ex_voiced : Enc.control := Enc.Control 0 1 [20; 3; 4; 4] [60; 1; 2; 3; 4; 5] 4 70 10 1 [0; 19; 7; 3] 2 3.
Definition ex_unvoiced : Enc.control := Enc.Control 1 0 [5; 4; 40; 0] [31; 7; 7; 7; 7; 7] 2 0 0 0 [0; 0; 0; 0] 0 1.
Definition ex_lbrr (b n : Z) : list Z := replicate (Z.to_nat n) b ++ replicate (Z.to_nat (MAX_ARITHM_BYTES - n)) 0.
Definition ex_frames : list frame :=
  [Frame ex_voiced (replicate 100 0 ++ [3; -1; 20; 0; -40; 1] ++ replicate 54 0) 200 (ex_lbrr 9 5) 5 1;
   Frame ex_unvoiced (replicate 160 0) 10 (ex_lbrr 8 4) 4 1].
Definition ex_encoder : packet_state :=
  PacketState (Enc.State (RangeCoder 0 0 0 0 0 (replicate (Z.to_nat MAX_ARITHM_BYTES) 0))
                 (RangeCoder 0 0 0 0 0 []) 0 0 8 160 0 (codebooks_of 8) 0)
    40 [Lbrr (ex_lbrr 7 3) 3 1; Lbrr (ex_lbrr 6 2) 2 0] 1 0 0.
Definition ex_output : list Z := replicate 250 255.
Definition ex_decoder : Dec.state :=
  Dec.State (RangeCoder 5 6 7 8 9 (replicate (Z.to_nat MAX_ARITHM_BYTES) 77)) (replicate 16 0) (replicate 480 0) 0 0 0 0 [] []
    0 0 0 0 (replicate 16 0) 0 0 0 0 [] 0 3 0.
Definition ex_control : Dec.control :=
  Dec.Control [] [] 0 (replicate 16 1000, replicate 16 (-4000)) [] 0 0 0 0 0 0.
Definition ex_signal : list Z := replicate 480 1.

Lemma ex_lbrr_fits b n : byte b -> 0 <= n <= MAX_ARITHM_BYTES -> lbrr_fits (ex_lbrr b n) n.
Proof.
  intros Hb Hn. unfold lbrr_fits, ex_lbrr, MAX_ARITHM_BYTES in *. split; [|split; [rewrite length_app, !length_replicate; lia|done]].
  apply Forall_app_2; apply Forall_replicate; [done|unfold byte; lia].
Qed.

Lemma ex_frames_ok : frames_ok true 8 ex_frames.
Proof.
  split; [|split; [|done]].
  - split; [|split; [reflexivity|]].
    + constructor; cbn; try first [reflexivity|lia]; [| |intros _; constructor; cbn; try first [reflexivity|unfold lag_count; lia]].
      * intros [|[|[|[|j]]]] i Hi; cbn in Hi; try (injection Hi as <-); cbn; try lia; done.
      * unfold indices_ok. cbn. repeat constructor; cbn; lia.
      * repeat constructor; cbn; lia.
    + cbn. repeat (constructor; [by unfold sample|]). by constructor.
  - split; [|split; [reflexivity|]].
    + constructor; cbn; try first [reflexivity|lia]; [| |discriminate].
      * intros [|[|[|[|j]]]] i Hi; cbn in Hi; try (injection Hi as <-); cbn; try lia; done.
      * unfold indices_ok. cbn. repeat constructor; cbn; lia.
    + by apply Forall_replicate.
Qed.

Lemma ex_makes : makes_packet ex_encoder 8 ex_frames ex_output 250.
Proof.
  constructor.
  - constructor; try done.
    + constructor; cbn; [by left|done|done|discriminate].
    + constructor; [done| |by right].
      apply Forall_cons_2; [apply (ex_lbrr_fits 7 3)|apply Forall_cons_2; [apply (ex_lbrr_fits 6 2)|apply Forall_nil_2]]; done.
    + cbn. split; [|done]. split; [reflexivity|]. by apply Forall_replicate.
  - done.
  - apply ex_frames_ok.
  - apply Forall_cons_2; [apply (ex_lbrr_fits 9 5)|apply Forall_cons_2; [apply (ex_lbrr_fits 8 4)|apply Forall_nil_2]]; done.
  - split; [by apply Forall_replicate|done].
Qed.

(** The packet and its length satisfy [P]. *)
Definition ex_packet (P : list Z -> Z -> Prop) : Prop :=
  match code_frames ex_encoder ex_frames ex_output 250 with Ok (_, out, n, 0) => P out n | _ => False end.

Lemma ex_looks : looks ex_decoder ex_control ex_signal 8 17.
Proof.
  constructor; [|split_and!; [vm_compute; lia|by apply Forall_replicate|vm_compute; lia|by apply Forall_replicate]|done|lia].
  split; [done|by apply Forall_replicate].
Qed.

(** A packet of 36 bytes. *)
Lemma packet_frames_recovered_witness :
  (makes_packet ex_encoder 8 ex_frames ex_output 250 /\ looks ex_decoder ex_control ex_signal 8 17 /\
   ex_packet (fun out n => n = 36 /\ (length out = 250)%nat)) /\
  exists e' out n ret, code_frames ex_encoder ex_frames ex_output 250 = Ok (e', out, n, ret) /\
    (failed ret \/ ret = 0 /\ 0 <= n <= 250 /\
     forall inData, received out n inData ->
       exists r, SKP_Silk_range_dec_init (Dec.sRC ex_decoder) inData n = Ok r /\
         recovered 17 8 (redundancy ex_encoder).1 (Dec.set_sRC ex_decoder r) ex_control ex_signal ex_frames).
Proof.
  split; [split; [exact ex_makes|split; [exact ex_looks|vm_compute; split; reflexivity]]|].
  destruct (packet_frames_recovered ex_encoder 8 ex_frames ex_output 250 ex_makes) as (e' & out & n & ret & E & H).
  exists e', out, n, ret. split; [exact E|]. destruct H as [H|(Hr & Hn & H)]; [left; exact H|right].
  split; [exact Hr|]. split; [exact Hn|]. intros inData Hrec.
  exact (H inData ex_decoder ex_control ex_signal 17%nat Hrec ex_looks eq_refl ltac:(discriminate)).
Defined.

(** Two frames, of which it reports one; the first is voiced. *)
Lemma packet_contents_witness :
  (makes_packet ex_encoder 8 ex_frames ex_output 250 /\ (length ex_frames <= SILK_MAX_FRAMES_PER_PACKET)%nat /\
   ex_packet (fun out n =>
     SKP_Silk_SDK_get_TOC 17 out n (Toc 9 9 9 9 [9; 9; 9; 9; 9] [7; 7; 7; 7; 7]) ex_decoder 0 ex_control ex_signal =
       Ok (Toc 1 8 1 0 [1; 0; 9; 9; 9] [0; 1; 7; 7; 7]))) /\
  exists e' out n ret, code_frames ex_encoder ex_frames ex_output 250 = Ok (e', out, n, ret) /\
    (failed ret \/ ret = 0 /\ 0 <= n <= 250 /\
     forall inData toc nFramesInPacket, received out n inData ->
       length (vadFlags toc) = SILK_MAX_FRAMES_PER_PACKET -> length (sigtypeFlags toc) = SILK_MAX_FRAMES_PER_PACKET ->
       SKP_Silk_SDK_get_TOC 17 inData n toc ex_decoder nFramesInPacket ex_control ex_signal =
         Ok (if Z.of_nat SILK_MAX_FRAMES_PER_PACKET <? nFramesInPacket then corrupt_packet
             else Toc 1 8 1 0 ([1; 0] ++ drop 2 (vadFlags toc)) ([0; 1] ++ drop 2 (sigtypeFlags toc)))).
Proof.
  split; [split; [exact ex_makes|split; [vm_compute; lia|vm_compute; reflexivity]]|].
  destruct (packet_contents ex_encoder 8 ex_frames ex_output 250 ex_makes ltac:(vm_compute; lia)) as (e' & out & n & ret & E & H).
  exists e', out, n, ret. split; [exact E|]. destruct H as [H|(Hr & Hn & H)]; [left; exact H|right].
  split; [exact Hr|]. split; [exact Hn|]. intros inData toc nfip Hrec Hv Hs.
  exact (H inData toc ex_decoder nfip ex_control ex_signal 17%nat Hrec ex_looks Hv Hs).
Defined.

(** Three bytes for the packet before, and nothing for the one before that. *)
Lemma redundancy_found_witness :
  (makes_packet ex_encoder 8 ex_frames ex_output 250 /\
   ex_packet (fun out n =>
     SKP_Silk_SDK_search_for_LBRR 2 17 out n 1 (replicate 10 1) ex_decoder ex_control ex_signal =
       Ok ([7; 7; 7; 1; 1; 1; 1; 1; 1; 1], 3) /\
     SKP_Silk_SDK_search_for_LBRR 2 17 out n 2 (replicate 10 1) ex_decoder ex_control ex_signal = Ok (replicate 10 1, 0))) /\
  exists e' out n ret, code_frames ex_encoder ex_frames ex_output 250 = Ok (e', out, n, ret) /\
    (failed ret \/ ret = 0 /\ 0 <= n <= 250 /\ exists red,
     redundancy_sent ex_encoder n 250 red /\ (length red <= Z.to_nat n)%nat /\
     forall inData LBRRData, received out n inData -> (length red <= length LBRRData)%nat ->
       SKP_Silk_SDK_search_for_LBRR 2 17 inData n 1 LBRRData ex_decoder ex_control ex_signal =
         Ok ((red ++ drop (length red) LBRRData)%list, Z.of_nat (length red))).
Proof.
  split; [split; [exact ex_makes|vm_compute; split; reflexivity]|].
  destruct (redundancy_found ex_encoder 8 ex_frames ex_output 250 ex_makes) as (e' & out & n & ret & E & H).
  exists e', out, n, ret. split; [exact E|]. destruct H as [H|(Hr & Hn & red & H1 & H2 & H)]; [left; exact H|right].
  split; [exact Hr|]. split; [exact Hn|]. exists red. split; [exact H1|]. split; [exact H2|]. intros inData LBRRData Hrec Hl.
  exact (H inData 1 LBRRData ex_decoder ex_control ex_signal 2%nat 17%nat Hrec ex_looks (le_n 2) Hl).
Defined.
