(* ===== verification/SilkDecoder.v ===== *)
(** * The decoder of the SILK codec over packets

    [SKP_Silk_SDK_Decode] of [jni/silk/src/SKP_Silk_dec_API.c] with
    [SKP_Silk_decode_frame] ([SKP_Silk_decode_frame.c]) and [SKP_Silk_init_decoder]
    ([SKP_Silk_create_init_destroy.c]): how the decoder goes through the frames of
    packets, what it reports, and what an error leaves.  Synthesis, concealment,
    comfort noise, the output filter and resampling, which make the samples, are not
    modelled: what they leave in the members of [signal], which they alone write
    besides a change of the rate, is an argument that every theorem takes for any
    value. *)
From Stdlib Require Import ZArith Lia.
From stdpp Require Import base list.
From S2P Require Import Prelude.
From S2P Require Import SilkRange.
From S2P Require Import SilkMath.
From S2P Require Import SilkGains.
From S2P Require Import SilkTables.
From S2P Require Import SilkNlsfTables.
From S2P Require Import SilkNlsf.
From S2P Require Import SilkPulses.
From S2P Require Import SilkFrame.
From S2P Require Import SilkPacket.

Open Scope Z_scope.

Definition NO_LBRR_THRES : Z := 10.
Definition VOICE_ACTIVITY : Z := 1.
Definition SKP_SILK_DEC_WRONG_SAMPLING_FREQUENCY : Z := -10.
Definition SKP_SILK_DEC_PAYLOAD_TOO_LARGE : Z := -11.
Definition SKP_SILK_DEC_PAYLOAD_ERROR : Z := -12.

(** The decoder: what the parameters use, and the members that count frames and
    redundancy. *)
Record decoder := Decoder {
  sDec : Dec.state;
  nFramesInPacket : Z;
  moreInternalDecoderFrames : Z;
  no_FEC_counter : Z;
  inband_FEC_offset : Z
}.

(** What the making of the samples leaves. *)
Record signal := Signal {
  signal_sLPC_Q14 : list Z;
  signal_outBuf : list Z;
  signal_sLTP_buf_idx : Z;
  signal_lagPrev : Z
}.

Definition zero_coder : SKP_Silk_range_coder_state := RangeCoder 0 0 0 0 0 (replicate (Z.to_nat MAX_ARITHM_BYTES) 0).

(** All members are 0, then the sampling rate is set to 24 kHz. *)
Definition SKP_Silk_init_decoder : decoder :=
  let zero := Dec.State zero_coder (replicate (Z.to_nat MAX_FRAME_LENGTH / NB_SUBFR + MAX_LPC_ORDER) 0)
                (replicate (2 * Z.to_nat MAX_FRAME_LENGTH) 0) 0 0 0 0 [] [] 0 0 0 0 (replicate MAX_LPC_ORDER 0) 0 0 0 0 [] 0 0 0 in
  Decoder (Dec.SKP_Silk_decoder_set_fs zero 24) 0 0 0 0.

(** A frame that is decoded. *)
Definition frame_decoded (d : Dec.state) (sigtype : Z) (s : signal) : Dec.state :=
  Dec.State (Dec.sRC d) (signal_sLPC_Q14 s) (signal_outBuf s) (signal_sLTP_buf_idx s) (signal_lagPrev s)
    (Dec.LastGainIndex d) (Dec.typeOffsetPrev d) (Dec.HP_A d) (Dec.HP_B d) (Dec.fs_kHz d) (Dec.frame_length d)
    (Dec.subfr_length d) (Dec.LPC_order d) (Dec.prevNLSF_Q15 d) 0 (Dec.nBytesLeft d) (Dec.nFramesDecoded d + 1)
    (Dec.FrameTermination d) (Dec.psNLSF_CB d) (Dec.vadFlag d) 0 sigtype.

(** A frame that is concealed. *)
Definition frame_lost (d : Dec.state) (s : signal) : Dec.state :=
  Dec.State (Dec.sRC d) (signal_sLPC_Q14 s) (signal_outBuf s) (signal_sLTP_buf_idx s) (signal_lagPrev s)
    (Dec.LastGainIndex d) (Dec.typeOffsetPrev d) (Dec.HP_A d) (Dec.HP_B d) (Dec.fs_kHz d) (Dec.frame_length d)
    (Dec.subfr_length d) (Dec.LPC_order d) (Dec.prevNLSF_Q15 d) (Dec.first_frame_after_reset d) (Dec.nBytesLeft d)
    (Dec.nFramesDecoded d) (Dec.FrameTermination d) (Dec.psNLSF_CB d) (Dec.vadFlag d) (Dec.lossCnt d + 1)
    (Dec.prev_sigtype d).

(** After an error the rate and what depends on it are to be as before. *)
Definition revert (d : Dec.state) (fs_Khz_old : Z) (LPC_order_old : nat) : Dec.state :=
  Dec.State (Dec.sRC d) (Dec.sLPC_Q14 d) (Dec.outBuf d) (Dec.sLTP_buf_idx d) (Dec.lagPrev d) (Dec.LastGainIndex d)
    (Dec.typeOffsetPrev d) (Dec.HP_A d) (Dec.HP_B d) fs_Khz_old (fs_Khz_old * FRAME_LENGTH_MS)
    (Z.quot (fs_Khz_old * FRAME_LENGTH_MS) (Z.of_nat NB_SUBFR)) LPC_order_old (Dec.prevNLSF_Q15 d)
    (Dec.first_frame_after_reset d) 0 (Dec.nFramesDecoded d) (Dec.FrameTermination d) (Dec.psNLSF_CB d) (Dec.vadFlag d)
    (Dec.lossCnt d) (Dec.prev_sigtype d).

(** The decoder, the result, the bytes used, and the length of the frame. *)
Definition SKP_Silk_decode_frame (fuel : nat) (d : Dec.state) (pCode : list Z) (nBytes action : Z) (sDecCtrl : Dec.control)
    (Pulses : list Z) (s : signal) : res (Dec.state * Z * Z * Z) :=
  let L := Dec.frame_length d in
  if action =? 0 then
    r ← (if Dec.nFramesDecoded d =? 0 then SKP_Silk_range_dec_init (Dec.sRC d) pCode nBytes else Ok (Dec.sRC d));
    '((d', c, _) : Dec.state * Dec.control * list Z) ←
      Dec.SKP_Silk_decode_parameters fuel (Dec.set_sRC d r) sDecCtrl Pulses true;
    if negb (error (Dec.sRC d') =? 0) then
      let ret := if error (Dec.sRC d') =? RANGE_CODER_DEC_PAYLOAD_TOO_LONG then SKP_SILK_DEC_PAYLOAD_TOO_LARGE
                 else SKP_SILK_DEC_PAYLOAD_ERROR in
      Ok (frame_lost (revert d' (Dec.fs_kHz d) (Dec.LPC_order d)) s, ret, bufferLength (Dec.sRC d'), L)
    else
      Ok (frame_decoded d' (Dec.sigtype c) s, 0, bufferLength (Dec.sRC d') - Dec.nBytesLeft d', Dec.frame_length d')
  else if action =? 1 then Ok (frame_lost d s, 0, 0, L)
  else Ok (Dec.State (Dec.sRC d) (signal_sLPC_Q14 s) (signal_outBuf s) (signal_sLTP_buf_idx s) (signal_lagPrev s)
             (Dec.LastGainIndex d) (Dec.typeOffsetPrev d) (Dec.HP_A d) (Dec.HP_B d) (Dec.fs_kHz d) (Dec.frame_length d)
             (Dec.subfr_length d) (Dec.LPC_order d) (Dec.prevNLSF_Q15 d) (Dec.first_frame_after_reset d)
             (Dec.nBytesLeft d) (Dec.nFramesDecoded d) (Dec.FrameTermination d) (Dec.psNLSF_CB d) (Dec.vadFlag d)
             (Dec.lossCnt d) (Dec.prev_sigtype d), 0, 0, L).

(** What a call reports in the control structure, and the number of samples. *)
Record SKP_SILK_SDK_DecControlStruct := Report {
  frameSize : Z;
  framesPerPacket : Z;
  moreInternal : Z;
  inBandFECOffset : Z;
  nSamplesOut : Z
}.

(** The last frame of a packet: the count of frames, and the use of redundancy. *)
Definition end_packet (p : decoder) (d : Dec.state) : decoder :=
  let '(counter, offset) :=
    if Dec.vadFlag d =? VOICE_ACTIVITY then
      if Dec.FrameTermination d =? SKP_SILK_LAST_FRAME then
        let counter := no_FEC_counter p + 1 in
        (counter, if NO_LBRR_THRES <? counter then 0 else inband_FEC_offset p)
      else if Dec.FrameTermination d =? SKP_SILK_LBRR_VER1 then (0, 1)
      else if Dec.FrameTermination d =? SKP_SILK_LBRR_VER2 then (0, 2)
      else (no_FEC_counter p, inband_FEC_offset p)
    else (no_FEC_counter p, inband_FEC_offset p) in
  Decoder d (Dec.nFramesDecoded d) 0 counter offset.

(** What a call does with the counts, once the frame is decoded. *)
Definition next_decoder (p : decoder) (d : Dec.state) (used : Z) : decoder :=
  if negb (used =? 0) then
    if (0 <? Dec.nBytesLeft d) && (Dec.FrameTermination d =? SKP_SILK_MORE_FRAMES) && (Dec.nFramesDecoded d <? 5)
    then Decoder d (nFramesInPacket p) 1 (no_FEC_counter p) (inband_FEC_offset p)
    else end_packet p d
  else Decoder d (nFramesInPacket p) (moreInternalDecoderFrames p) (no_FEC_counter p) (inband_FEC_offset p).

(** One call: the decoder, the return value and the report. *)
Definition SKP_Silk_SDK_Decode (fuel : nat) (p : decoder) (sampleRate lostFlag : Z) (inData : list Z) (nBytesIn : Z)
    (sDecCtrl : Dec.control) (Pulses : list Z) (s : signal) : res (decoder * Z * SKP_SILK_SDK_DecControlStruct) :=
  let d := sDec p in
  let d := if moreInternalDecoderFrames p =? 0 then Dec.set_nFramesDecoded d 0 else d in
  let '(lostFlag, ret) :=
    if (moreInternalDecoderFrames p =? 0) && (lostFlag =? 0) && (MAX_ARITHM_BYTES <? nBytesIn)
    then (1, SKP_SILK_DEC_PAYLOAD_TOO_LARGE) else (lostFlag, 0) in
  '((d, r, used_bytes, L) : Dec.state * Z * Z * Z) ← SKP_Silk_decode_frame fuel d inData nBytesIn lostFlag sDecCtrl Pulses s;
  let ret := ret + r in
  let p := next_decoder p d used_bytes in
  hz ← SKP_MUL (Dec.fs_kHz d) 1000;
  let ret := if sampleRate <? hz then SKP_SILK_DEC_WRONG_SAMPLING_FREQUENCY else ret in
  n ← (if hz =? sampleRate then Ok (s16 L) else m ← SKP_MUL (s16 L) sampleRate; q ← SKP_DIV32 m hz; Ok (s16 q));
  Ok (p, ret, Report (Dec.frame_length d) (nFramesInPacket p) (moreInternalDecoderFrames p) (inband_FEC_offset p) n).

(** ** Computations that can only read out of bounds *)

Definition oob {A} (P : A -> Prop) (m : res A) : Prop := m = Err OutOfBounds \/ exists a, m = Ok a /\ P a.

Lemma oob_bind {A B} (P : A -> Prop) (Q : B -> Prop) (m : res A) (f : A -> res B) :
  oob P m -> (forall a, P a -> oob Q (f a)) -> oob Q (m ≫= f).
Proof. intros [->|(a & -> & Ha)] H; [by left|]. rewrite bind_Ok. by apply H. Qed.

Lemma oob_ok {A} (P : A -> Prop) a : P a -> oob P (Ok a).
Proof. intros H. right. by exists a. Qed.

Lemma oob_fetch {A} (l : list A) i : oob (fun x => x ∈ l) (fetch l i).
Proof.
  unfold fetch. destruct (i <? 0); [by left|]. destruct (l !! Z.to_nat i) eqn:E; [|by left].
  right. eexists. split; [done|]. by eapply list_elem_of_lookup_2.
Qed.

Lemma fetch_cases {A} (l : list A) i :
  fetch l i = Err OutOfBounds \/ exists x, fetch l i = Ok x /\ 0 <= i < Z.of_nat (length l).
Proof.
  unfold fetch. destruct (Z.ltb_spec i 0); [by left|]. destruct (l !! Z.to_nat i) eqn:E; [|by left].
  right. eexists. split; [done|]. apply lookup_lt_Some in E. lia.
Qed.

Lemma oob_int32 z : INT32_MIN <= z <= INT32_MAX -> oob (fun x => x = z) (int32 z).
Proof. intros H. rewrite int32_ok by done. by apply oob_ok. Qed.

Lemma oob_search_down range base prob n hi :
  (n <= length prob)%nat -> oob (fun found => forall d l h, found = Some (d, l, h) -> 0 <= d <= Z.of_nat (length prob))
    (search_down range base prob n hi).
Proof.
  revert hi. induction n as [|n IH]; intros hi Hn; cbn [search_down]; [by left|].
  apply oob_bind with (P := fun _ => True); [destruct (oob_fetch prob (Z.of_nat n)) as [->|(x & -> & _)]; [by left|by right; exists x]|].
  intros low _. destruct (_ <=? _); [apply oob_ok; intros ? ? ? [= <- _ _]; lia|].
  destruct (_ =? _); [by apply oob_ok|]. apply IH. lia.
Qed.

Lemma oob_search_up fuel range base prob i lo :
  0 <= i -> Z.of_nat (length prob) <= i + Z.of_nat fuel -> (0 < fuel)%nat ->
  oob (fun found => forall d l h, found = Some (d, l, h) -> 0 <= d <= Z.of_nat (length prob)) (search_up fuel range base prob i lo).
Proof.
  revert i lo. induction fuel as [|fuel IH]; intros i lo Hi Hf H0; [lia|]. cbn [search_up].
  destruct (fetch_cases prob (i + 1)) as [->|(x & -> & Hx)]; [by left|]. rewrite bind_Ok.
  destruct (_ <? _); [apply oob_ok; intros ? ? ? [= <- _ _]; lia|].
  destruct (_ =? _); [by apply oob_ok|]. apply IH; lia.
Qed.

Lemma oob_read_byte r st : oob (fun _ => True) (read_byte r st).
Proof.
  unfold read_byte. destruct st as [base ix]. destruct (_ <? _); [|by apply oob_ok].
  eapply oob_bind; [apply oob_fetch|]. intros b _. by apply oob_ok.
Qed.

(** A symbol is a place of its distribution. *)
Definition symbol_in (prob : list Z) (x : Z * SKP_Silk_range_coder_state) : Prop := 0 <= x.1 <= Z.of_nat (length prob).

Lemma oob_range_decoder s prob ix : oob (symbol_in prob) (SKP_Silk_range_decoder s prob ix).
Proof.
  unfold SKP_Silk_range_decoder, symbol_in, decoder_failed. destruct (negb _); [apply oob_ok; cbn; lia|]. cbn zeta.
  destruct (fetch_cases prob ix) as [->|(hi & -> & Hx)]; [by left|]. rewrite bind_Ok.
  eapply oob_bind.
  { destruct (_ <? _); [apply oob_search_down; lia|apply oob_search_up; lia]. }
  intros [[[d l] h]|] Hd; [specialize (Hd _ _ _ eq_refl)|apply oob_ok; cbn; lia].
  apply oob_bind with (P := fun _ => True).
  - destruct (test_bits _ _); [by apply oob_ok|]. destruct (test_bits _ _); destruct (negb _); try by apply oob_ok.
    + eapply oob_bind; [apply oob_read_byte|]. intros st _. by apply oob_ok.
    + eapply oob_bind; [apply oob_read_byte|]. intros st _. eapply oob_bind; [apply oob_read_byte|]. intros st' _. by apply oob_ok.
  - intros [[range [base i]]|] _; [|apply oob_ok; cbn; lia]. destruct (_ =? _); apply oob_ok; cbn; lia.
Qed.

Lemma oob_decoder_multi l s :
  oob (fun x => Forall2 (fun d p => 0 <= d <= Z.of_nat (length p.1)) x.1 l) (SKP_Silk_range_decoder_multi s l).
Proof.
  revert s. induction l as [|[p ix] l IH]; intros s; cbn [SKP_Silk_range_decoder_multi]; [apply oob_ok; constructor|].
  eapply oob_bind; [apply oob_range_decoder|]. intros [d s'] Hd. eapply oob_bind; [apply IH|].
  intros [ds s2] Hds. apply oob_ok. by constructor.
Qed.

Lemma oob_decode_all n s cdf ix : oob (fun x => length x.1 = n) (Dec.decode_all s n cdf ix).
Proof.
  revert s. induction n as [|n IH]; intros s; cbn [Dec.decode_all]; [by apply oob_ok|].
  eapply oob_bind; [apply oob_range_decoder|]. intros [d s'] _. eapply oob_bind; [apply IH|].
  intros [ds s2] Hds. apply oob_ok. cbn in *. congruence.
Qed.

Lemma oob_decode_type s first prev : oob (fun _ => True) (Dec.decode_type s first prev).
Proof.
  unfold Dec.decode_type. assert (forall prob ix, oob (fun _ => True) (SKP_Silk_range_decoder s prob ix)) as H.
  { intros prob ix. destruct (oob_range_decoder s prob ix) as [->|(x & -> & _)]; [by left|by apply oob_ok]. }
  destruct first; [apply H|]. eapply oob_bind; [apply oob_fetch|]. intros cdf _. apply H.
Qed.

Lemma oob_decode_gains s first t : oob (fun x => length x.1 = NB_SUBFR) (Dec.decode_gains s first t).
Proof.
  unfold Dec.decode_gains. apply oob_bind with (P := fun _ => True).
  - assert (forall prob ix, oob (fun _ => True) (SKP_Silk_range_decoder s prob ix)) as H.
    { intros prob ix. destruct (oob_range_decoder s prob ix) as [->|(x & -> & _)]; [by left|by apply oob_ok]. }
    destruct first; [|apply H]. eapply oob_bind; [apply oob_fetch|]. intros cdf _. apply H.
  - intros [g s'] _. eapply oob_bind; [apply oob_decode_all|]. intros [l s2] Hl. apply oob_ok. cbn in *. by rewrite Hl.
Qed.

(** ** The coder while parameters are decoded

    Whatever the packet holds, reading it only moves forward, and leaves a width that
    a range coder can have.  A frame therefore always uses a byte. *)

Definition sane (s : SKP_Silk_range_coder_state) : Prop := 0 <= bufferIx s /\ 0 < range_Q16 s <= 0xFFFF.

(** Takes a computation apart, and follows the coder through it. *)
Ltac keep_step :=
  match goal with
  | H : Err _ = Ok _ |- _ => discriminate H
  | H : Diverges = Ok _ |- _ => discriminate H
  | H : Ok ?x = Ok ?y |- _ => apply (inj Ok) in H
  | H : (_, _) = (_, _) |- _ => apply pair_eq in H as [? H]
  | H : ?s = ?s' :> SKP_Silk_range_coder_state |- _ => subst s'
  | H : _ ≫= _ = Ok _ |- _ => let E := fresh "E" in apply res_bind_ok in H as (? & E & H)
  | H : (let '(_, _) := ?x in _) = Ok _ |- _ => destruct x
  | H : (if ?b then _ else _) = Ok _ |- _ => destruct b
  | H : ?m = Ok (_, ?s') |- _ =>
      lazymatch goal with K : sane s' |- _ => fail | _ => assert (sane s') by (eauto 3 with keeps); clear H end
  end.
Ltac keep := repeat keep_step; subst; eauto 3 with keeps.

#[export] Instance Ok_inj {A} : Inj (=) (=) (@Ok A).
Proof. by intros x y [= ->]. Qed.

Create HintDb keeps.

Lemma read_byte_forward r base ix base' ix' : read_byte r (base, ix) = Ok (base', ix') -> ix <= ix'.
Proof.
  unfold read_byte. destruct (ix <? _); [|by intros [= _ <-]]. intros (b & _ & [= _ <-])%res_bind_ok. lia.
Qed.

(** The width that is left has at most 16 bits, unless it is wider than [m] says. *)
Lemma shifted_width x : 0 <= x < 2 ^ 32 ->
  0 <= Z.shiftr x 16 <= 0xFFFF /\
  (test_bits x 0xFF000000 = false -> 0 <= Z.shiftr x 8 <= 0xFFFF) /\
  (test_bits x 0xFFFF0000 = false -> 0 <= x <= 0xFFFF).
Proof.
  intros Hx. rewrite test_high_8, test_high_16, !Z.shiftr_div_pow2 by lia. split; [lia|]. split.
  - intros ?%Z.leb_gt. lia.
  - intros ?%Z.leb_gt. lia.
Qed.

Lemma keeps_range_decoder s prob ix a s' :
  SKP_Silk_range_decoder s prob ix = Ok (a, s') -> sane s -> sane s'.
Proof.
  intros H0 [Hix Hr]. revert H0. unfold SKP_Silk_range_decoder. destruct (negb _); [by intros [= _ <-]|]. cbn zeta.
  intros (hi & _ & H)%res_bind_ok. apply res_bind_ok in H as (f & _ & H).
  destruct f as [[[data lo] hi']|]; [|by injection H as _ <-]. apply res_bind_ok in H as (r & E & H).
  destruct r as [[range [base ix']]|]; [|by injection H as _ <-].
  destruct (Z.eqb_spec range 0) as [|Hne]; [by injection H as _ <-|]. injection H as _ <-. cbn [bufferIx range_Q16 copy_back].
  set (w := u32 (range_Q16 s * u32 (hi' - lo))) in *. pose proof (wrap_u_range 32 (range_Q16 s * u32 (hi' - lo)) ltac:(lia)) as Hw.
  fold w in Hw. destruct (shifted_width w Hw) as (H1 & H2 & H3). clearbody w. unfold sane. cbn [bufferIx range_Q16 copy_back].
  destruct (test_bits w 0xFF000000); [injection E as <- _ <-; lia|]. specialize (H2 eq_refl).
  destruct (test_bits w 0xFFFF0000); destruct (negb _); try discriminate E.
  - apply res_bind_ok in E as ([b i] & Eb & E). injection E as <- _ <-. apply read_byte_forward in Eb. lia.
  - specialize (H3 eq_refl). apply res_bind_ok in E as ([b i] & Eb & E). apply res_bind_ok in E as ([b' i'] & Eb' & E).
    injection E as <- _ <-. apply read_byte_forward in Eb, Eb'. lia.
Qed.
#[export] Hint Resolve keeps_range_decoder : keeps.
Opaque SKP_Silk_range_decoder.

Lemma keeps_decoder_multi l s a s' : SKP_Silk_range_decoder_multi s l = Ok (a, s') -> sane s -> sane s'.
Proof. revert s a. induction l as [|[p ix] l IH]; intros s a H Hs; cbn in H; keep. Qed.

Lemma keeps_decode_all n cdf ix s a s' : Dec.decode_all s n cdf ix = Ok (a, s') -> sane s -> sane s'.
Proof. revert s a. induction n as [|n IH]; intros s a H Hs; cbn in H; keep. Qed.

Lemma keeps_decode_ltp n cbk cdf ix s a s' : Dec.decode_ltp s n cbk cdf ix = Ok (a, s') -> sane s -> sane s'.
Proof. revert s a. induction n as [|n IH]; intros s a H Hs; cbn -[Dec.copy_coefs] in H; keep. Qed.
#[export] Hint Resolve keeps_decoder_multi keeps_decode_all keeps_decode_ltp : keeps.
Opaque SKP_Silk_range_decoder_multi Dec.decode_all Dec.decode_ltp.

Lemma keeps_decode_type first prev s a s' : Dec.decode_type s first prev = Ok (a, s') -> sane s -> sane s'.
Proof. unfold Dec.decode_type. intros H Hs. keep. Qed.
Lemma keeps_decode_gains first t s a s' : Dec.decode_gains s first t = Ok (a, s') -> sane s -> sane s'.
Proof. unfold Dec.decode_gains. intros H Hs. keep. Qed.
Lemma keeps_decode_voiced fs s a s' : Dec.decode_voiced s fs = Ok (a, s') -> sane s -> sane s'.
Proof. unfold Dec.decode_voiced. intros H Hs. keep. Qed.
Lemma keeps_decode_split p t s a s' : decode_split s p t = Ok (a, s') -> sane s -> sane s'.
Proof. unfold decode_split. intros H Hs. keep. Qed.
#[export] Hint Resolve keeps_decode_type keeps_decode_gains keeps_decode_voiced keeps_decode_split : keeps.
Opaque Dec.decode_type Dec.decode_gains Dec.decode_voiced decode_split.
Lemma keeps_shell_decoder p s a s' : SKP_Silk_shell_decoder s p = Ok (a, s') -> sane s -> sane s'.
Proof. unfold SKP_Silk_shell_decoder. intros H Hs. keep. Qed.
Lemma keeps_decode_sum fuel n sum s a s' : decode_sum fuel s n sum = Ok (a, s') -> sane s -> sane s'.
Proof. revert n sum s a. induction fuel as [|fuel IH]; intros n sum s a H Hs; cbn in H; keep. Qed.
Lemma keeps_decode_bits n x s a s' : decode_bits n s x = Ok (a, s') -> sane s -> sane s'.
Proof. revert x s a. induction n as [|n IH]; intros x s a H Hs; cbn in H; keep. Qed.
#[export] Hint Resolve keeps_shell_decoder keeps_decode_sum keeps_decode_bits : keeps.
Opaque SKP_Silk_shell_decoder decode_sum decode_bits.
Lemma keeps_decode_sums fuel iter cdf s a s' : decode_sums fuel iter s cdf = Ok (a, s') -> sane s -> sane s'.
Proof. revert s a. induction iter as [|iter IH]; intros s a H Hs; cbn in H; keep. Qed.
Lemma keeps_decode_shells sums s a s' : decode_shells s sums = Ok (a, s') -> sane s -> sane s'.
Proof. revert s a. induction sums as [|[n sum] sums IH]; intros s a H Hs; cbn in H; keep. Qed.
Lemma keeps_decode_block_bits n l s a s' : decode_block_bits n s l = Ok (a, s') -> sane s -> sane s'.
Proof. revert s a. induction l as [|x l IH]; intros s a H Hs; cbn in H; keep. Qed.
#[export] Hint Resolve keeps_decode_sums keeps_decode_shells keeps_decode_block_bits : keeps.
Opaque decode_sums decode_shells decode_block_bits.
Lemma keeps_decode_lsbs sums blocks s a s' : decode_lsbs s sums blocks = Ok (a, s') -> sane s -> sane s'.
Proof.
  revert blocks s a. induction sums as [|[n sum] sums IH]; intros [|b blocks] s a H Hs; cbn in H; keep.
Qed.
Lemma keeps_decode_signs n cdf q s a s' : decode_signs_loop s q n cdf = Ok (a, s') -> sane s -> sane s'.
Proof. revert q s a. induction n as [|n IH]; intros [|x q] s a H Hs; cbn in H; keep. Qed.
#[export] Hint Resolve keeps_decode_lsbs keeps_decode_signs : keeps.
Opaque decode_lsbs decode_signs_loop.
Lemma keeps_decode_pulses fuel t o q n s a s' : SKP_Silk_decode_pulses fuel s t o q n = Ok (a, s') -> sane s -> sane s'.
Proof. unfold SKP_Silk_decode_pulses, SKP_Silk_decode_signs. intros H Hs. keep. Qed.
#[export] Hint Resolve keeps_decode_pulses : keeps.
Opaque SKP_Silk_decode_pulses.

Lemma CLZ32_16 x : 0 <= x <= 0xFFFF -> 16 <= SKP_Silk_CLZ32 x.
Proof.
  intros Hx. destruct (Z.eq_dec x 0) as [->|]; [by vm_compute|]. rewrite CLZ32_log by lia.
  assert (Z.log2 x < 16) by (apply Z.log2_lt_pow2; lia). lia.
Qed.

Lemma length_positive s : sane s -> 1 <= (SKP_Silk_range_coder_get_length s).2.
Proof.
  intros [Hix Hr]. unfold SKP_Silk_range_coder_get_length. cbn [snd]. rewrite Z.shiftl_mul_pow2, Z.shiftr_div_pow2 by lia.
  assert (s32 (u32 (range_Q16 s - 1)) = range_Q16 s - 1) as -> by (rewrite wrap_u_id, wrap_s_id by lia; done).
  pose proof (CLZ32_16 (range_Q16 s - 1) ltac:(lia)). apply Z.div_le_lower_bound; lia.
Qed.

Lemma check_keeps s s' :
  SKP_Silk_range_coder_check_after_decoding s = Ok s' -> bufferLength s' = bufferLength s /\ (sane s -> sane s').
Proof.
  unfold SKP_Silk_range_coder_check_after_decoding. destruct (SKP_Silk_range_coder_get_length s) as [bits n]. intros H.
  repeat keep_step; subst; done.
Qed.

Lemma finish_used s bytes s' :
  Dec.finish s = Ok (bytes, s') -> sane s -> sane s' /\ 1 <= bufferLength s' - bytes.
Proof.
  unfold Dec.finish. intros H Hs. pose proof (length_positive s Hs) as Hl.
  destruct (SKP_Silk_range_coder_get_length s) as [bits n]. cbn [snd] in Hl. apply res_bind_ok in H as (r & E & H).
  injection H as <- <-. destruct (_ =? 0); destruct (_ <? 0);
    try (apply check_keeps in E as [E Hk]); try (injection E as <-); cbn [bufferLength set_error] in *;
    (split; [first [done|by apply Hk]|rewrite ?E; lia]).
Qed.

(** ** What a call leaves of the set-up *)

Lemma decode_frame_inv fuel d c q full d' c' q' :
  Dec.decode_frame fuel d c q full = Ok (d', c', q') ->
  (exists r gain type nlsf bytes term vad, d' = Dec.set_parameters d r gain type nlsf bytes term vad /\
     (sane (Dec.sRC d) -> sane r /\ 1 <= bufferLength r - bytes)) /\
  exists i cb idx l, fetch (Dec.psNLSF_CB d) i = Ok cb /\ SKP_Silk_NLSF_MSVQ_decode cb idx (Dec.LPC_order d) = Ok l.
Proof.
  unfold Dec.decode_frame. intros H.
  apply res_bind_ok in H as ([Ix r1] & E1 & H). apply res_bind_ok in H as ([g r2] & E2 & H).
  apply res_bind_ok in H as ([gs last] & _ & H). apply res_bind_ok in H as (cb & Ecb & H).
  apply res_bind_ok in H as ([idx r3] & E3 & H). apply res_bind_ok in H as (l & El & H).
  apply res_bind_ok in H as ([coef r4] & E4 & H). apply res_bind_ok in H as (pred & _ & H).
  apply res_bind_ok in H as ([[[[pitch per] ltp] scale] r5] & E5 & H). apply res_bind_ok in H as ([seed r6] & E6 & H).
  apply res_bind_ok in H as ([[q1 level] r7] & E7 & H). apply res_bind_ok in H as ([vad r8] & E8 & H).
  apply res_bind_ok in H as ([term r9] & E9 & H). apply res_bind_ok in H as ([bytes r10] & E10 & H).
  apply (inj Ok) in H. injection H as <- _ _. split; [|by do 4 eexists]. do 7 eexists. split; [reflexivity|]. intros Hs.
  apply (finish_used _ _ _ E10). unfold Dec.decode_nlsf in E3. clear Ecb El E10. keep.
Qed.

(** The members that the sampling rate decides, and the count of frames. *)
Record same_setup (d d' : Dec.state) : Prop := {
  same_fs : Dec.fs_kHz d' = Dec.fs_kHz d;
  same_order : Dec.LPC_order d' = Dec.LPC_order d;
  same_length : Dec.frame_length d' = Dec.frame_length d;
  same_books : Dec.psNLSF_CB d' = Dec.psNLSF_CB d;
  same_count : Dec.nFramesDecoded d' = Dec.nFramesDecoded d
}.
Record set_up (d : Dec.state) (fs : Z) : Prop := {
  up_fs : Dec.fs_kHz d = fs;
  up_order : Dec.LPC_order d = order_of fs;
  up_length : Dec.frame_length d = FRAME_LENGTH_MS * fs;
  up_books : Dec.psNLSF_CB d = codebooks_of fs
}.

Lemma set_fs_setup d fs :
  rate fs -> let d' := Dec.SKP_Silk_decoder_set_fs d fs in
  Dec.nFramesDecoded d' = Dec.nFramesDecoded d /\ Dec.sRC d' = Dec.sRC d /\ (same_setup d d' \/ set_up d' fs).
Proof.
  intros Hf d'. subst d'. unfold Dec.SKP_Silk_decoder_set_fs. destruct (Dec.fs_kHz d =? fs).
  - split; [done|]. split; [done|]. by left.
  - destruct Hf as [->|[->|[->| ->]]]; (split; [done|]; split; [done|]; by right).
Qed.

Lemma table_rate i fs : fetch SKP_Silk_SamplingRates_table i = Ok fs -> 0 <= i <= 3 -> rate fs.
Proof.
  intros E Hi. assert (i = 0 \/ i = 1 \/ i = 2 \/ i = 3) as [->|[->|[->| ->]]] by lia; vm_compute in E;
    injection E as <-; unfold rate; lia.
Qed.

Lemma decode_rate_setup d d' legal :
  Dec.decode_rate d = Ok (d', legal) ->
  Dec.nFramesDecoded d' = Dec.nFramesDecoded d /\ (same_setup d d' \/ exists fs, rate fs /\ set_up d' fs) /\
  (sane (Dec.sRC d) -> sane (Dec.sRC d') /\ (legal = false -> error (Dec.sRC d') <> 0)).
Proof.
  unfold Dec.decode_rate. intros H. apply res_bind_ok in H as ([Ix r] & E & H).
  assert (sane (Dec.sRC d) -> sane r) as Hs by (intros Hs; by apply (keeps_range_decoder _ _ _ _ _ E)).
  destruct ((Ix <? 0) || (3 <? Ix)) eqn:Eb; [injection H as <- <-; split; [done|]; split; [by left|]; intros H0; by split; [apply Hs|]|].
  apply orb_false_iff in Eb as [H0%Z.ltb_ge H1%Z.ltb_ge].
  apply res_bind_ok in H as (fs & Efs & H). injection H as <- <-. assert (rate fs) as Hf by (eapply table_rate; [done|lia]).
  destruct (set_fs_setup (Dec.set_sRC d r) fs Hf) as (Hn & Hr & Hup). split; [done|]. split; [|rewrite Hr; auto].
  destruct Hup as [Hup|Hup]; [left; by destruct Hup|right; by exists fs].
Qed.

(** Decoding the parameters keeps the set-up, or makes that of the rate in the packet;
    and it uses bytes, unless there is an error. *)
Lemma decode_parameters_setup fuel d c q full d' c' q' :
  Dec.SKP_Silk_decode_parameters fuel d c q full = Ok (d', c', q') ->
  Dec.nFramesDecoded d' = Dec.nFramesDecoded d /\ (same_setup d d' \/ exists fs, rate fs /\ set_up d' fs) /\
  (sane (Dec.sRC d) -> sane (Dec.sRC d') /\ (error (Dec.sRC d') = 0 -> 1 <= bufferLength (Dec.sRC d') - Dec.nBytesLeft d')).
Proof.
  unfold Dec.SKP_Silk_decode_parameters. intros H.
  assert (forall d, Dec.decode_frame fuel d c q full = Ok (d', c', q') ->
    same_setup d d' /\ (forall fs, set_up d fs -> set_up d' fs) /\
    (sane (Dec.sRC d) -> sane (Dec.sRC d') /\ 1 <= bufferLength (Dec.sRC d') - Dec.nBytesLeft d')) as Hframe.
  { intros d0 ((r & gain & type & nlsf & bytes & term & vad & -> & Hs) & _)%decode_frame_inv. split; [done|].
    split; [|done]. by intros fs []. }
  destruct (Dec.nFramesDecoded d =? 0).
  - apply res_bind_ok in H as ([d0 legal] & Hr & H). destruct (decode_rate_setup d d0 legal Hr) as (Hn & Hs & Hsane).
    destruct legal.
    + destruct (Hframe d0 H) as (Hs' & Hup & Hsane'). destruct Hs' as [? ? ? ? ?]. split; [congruence|]. split.
      * destruct Hs as [[]|(fs & Hf & Hs)]; [left; constructor; congruence|right; exists fs; split; [done|by apply Hup]].
      * intros H0. destruct (Hsane H0) as [H1 _]. destruct (Hsane' H1) as [H2 H3]. done.
    + injection H as <- _ _. split; [done|]. split; [done|]. intros H0. destruct (Hsane H0) as [H1 H2]. split; [done|].
      intros He. by destruct (H2 eq_refl).
  - destruct (Hframe d H) as (Hs & _ & Hsane). split; [by destruct Hs|]. split; [by left|]. intros H0.
    destruct (Hsane H0) as [H1 H2]. done.
Qed.

(** ** All sequences of calls *)

(** What is true of a decoder between two calls; [failed]: a call before has reported
    an error. *)
Record decoder_inv (failed : bool) (p : decoder) : Prop := {
  inv_rate : rate (Dec.fs_kHz (sDec p));
  inv_order : Dec.LPC_order (sDec p) = order_of (Dec.fs_kHz (sDec p));
  inv_length : Dec.frame_length (sDec p) = FRAME_LENGTH_MS * Dec.fs_kHz (sDec p);
  inv_books : exists fs, rate fs /\ Dec.psNLSF_CB (sDec p) = codebooks_of fs;
  inv_books_ok : failed = false -> Dec.psNLSF_CB (sDec p) = codebooks_of (Dec.fs_kHz (sDec p));
  inv_count : 0 <= Dec.nFramesDecoded (sDec p) <= 5;
  inv_more :
    moreInternalDecoderFrames p = 0 \/
    moreInternalDecoderFrames p = 1 /\ 1 <= Dec.nFramesDecoded (sDec p) <= 4 /\ sane (Dec.sRC (sDec p));
  inv_packet : 0 <= nFramesInPacket p <= 5;
  inv_offset : 0 <= inband_FEC_offset p <= 2
}.

(** The decoders that calls with any arguments reach. *)
Inductive reachable : bool -> decoder -> Prop :=
  | reachable_init : reachable false SKP_Silk_init_decoder
  | reachable_call b p fuel sampleRate lostFlag inData nBytesIn c q s p' ret rep :
      reachable b p ->
      SKP_Silk_SDK_Decode fuel p sampleRate lostFlag inData nBytesIn c q s = Ok (p', ret, rep) ->
      reachable (b || negb (ret =? 0)) p'.

(** A frame's part of it, with [n] frames decoded; [P] promises the right codebooks. *)
Record frame_inv (P : Prop) (d : Dec.state) (n : Z) : Prop := {
  frame_rate : rate (Dec.fs_kHz d);
  frame_order : Dec.LPC_order d = order_of (Dec.fs_kHz d);
  frame_size : Dec.frame_length d = FRAME_LENGTH_MS * Dec.fs_kHz d;
  frame_books : exists fs, rate fs /\ Dec.psNLSF_CB d = codebooks_of fs;
  frame_books_ok : P -> Dec.psNLSF_CB d = codebooks_of (Dec.fs_kHz d);
  frame_count : Dec.nFramesDecoded d = n
}.

Lemma dec_init_sane s buf n r :
  SKP_Silk_range_dec_init s buf n = Ok r -> n <= MAX_ARITHM_BYTES -> sane r.
Proof.
  unfold SKP_Silk_range_dec_init. intros H Hn. rewrite (proj2 (Z.ltb_ge _ _)) in H by lia. bind_inv H.
  injection H as <-. unfold sane. cbn. lia.
Qed.

(** The coder that the frame is read from. *)
Definition coder_ready (d : Dec.state) (nBytes : Z) : Prop :=
  (Dec.nFramesDecoded d = 0 /\ nBytes <= MAX_ARITHM_BYTES) \/ (Dec.nFramesDecoded d <> 0 /\ sane (Dec.sRC d)).

Lemma frame_keeps_inv fuel d pCode nBytes action c q s d' ret used L (P : Prop) n :
  frame_inv P d n -> (action = 0 -> coder_ready d nBytes) ->
  SKP_Silk_decode_frame fuel d pCode nBytes action c q s = Ok (d', ret, used, L) ->
  (ret = 0 /\ used <> 0 /\ frame_inv P d' (n + 1) /\ sane (Dec.sRC d') \/
   ret = 0 /\ used = 0 /\ frame_inv P d' n /\ Dec.sRC d' = Dec.sRC d \/
   ret < 0 /\ frame_inv False d' n /\ Dec.nBytesLeft d' = 0 /\ sane (Dec.sRC d')).
Proof.
  intros Hd Hready. pose proof Hd as [Hr Ho Hl Hb Hk Hn]. unfold SKP_Silk_decode_frame.
  destruct (Z.eqb_spec action 0) as [Ha|].
  - intros H. apply res_bind_ok in H as (r & Er & H). apply res_bind_ok in H as ([[d1 c1] q1] & E & H).
    assert (sane r) as Hs.
    { destruct (Hready Ha) as [[E0 Hle]|[E0 Hs]].
      - rewrite E0 in Er. by apply (dec_init_sane _ _ _ _ Er).
      - rewrite (proj2 (Z.eqb_neq _ _) E0) in Er. by injection Er as <-. }
    destruct (decode_parameters_setup _ _ _ _ _ _ _ _ E) as (En & Hset & Hsane).
    destruct (Hsane Hs) as [Hs1 Hused]. cbn [Dec.set_sRC Dec.nFramesDecoded] in En.
    assert (rate (Dec.fs_kHz d1) /\ Dec.LPC_order d1 = order_of (Dec.fs_kHz d1) /\
      Dec.frame_length d1 = FRAME_LENGTH_MS * Dec.fs_kHz d1 /\ (exists fs, rate fs /\ Dec.psNLSF_CB d1 = codebooks_of fs) /\
      (P -> Dec.psNLSF_CB d1 = codebooks_of (Dec.fs_kHz d1))) as (R1 & R2 & R3 & R4 & R5).
    { destruct Hset as [[E1 E2 E3 E4 _]|(fs & Hf & [E1 E2 E3 E4])].
      - rewrite E1, E2, E3, E4. done.
      - rewrite E1, E2, E3, E4. split_and!; try done. by exists fs. }
    destruct (Z.eqb_spec (error (Dec.sRC d1)) 0) as [He|He]; cbn [negb] in H; injection H as <- <- <- <-.
    + left. specialize (Hused He). split; [done|]. split; [lia|]. split; [|done]. constructor; try done. cbn. lia.
    + right. right. split; [destruct (_ =? RANGE_CODER_DEC_PAYLOAD_TOO_LONG); reflexivity|]. split; [|done]. constructor; try done; cbn; [unfold FRAME_LENGTH_MS; lia|].
      by rewrite En.
  - destruct (action =? 1); intros [= <- <- <- <-]; right; left; (split; [done|]); (split; [done|]); (split; [|done]);
      by constructor.
Qed.

Lemma end_packet_inv p d :
  0 <= inband_FEC_offset p <= 2 -> 0 <= Dec.nFramesDecoded d <= 5 ->
  let p' := end_packet p d in
  sDec p' = d /\ moreInternalDecoderFrames p' = 0 /\ nFramesInPacket p' = Dec.nFramesDecoded d /\
  0 <= inband_FEC_offset p' <= 2.
Proof.
  intros Ho Hn. unfold end_packet. destruct (_ =? VOICE_ACTIVITY); [|done].
  destruct (_ =? SKP_SILK_LAST_FRAME); [|destruct (_ =? SKP_SILK_LBRR_VER1); [|destruct (_ =? SKP_SILK_LBRR_VER2)]]; try done.
  cbn. destruct (_ <? _); split_and!; (done || lia).
Qed.

Lemma next_decoder_sDec p d used : sDec (next_decoder p d used) = d.
Proof.
  unfold next_decoder, end_packet. destruct (negb _); [|done]. destruct (_ && _ && _); [done|].
  destruct (if Dec.vadFlag d =? VOICE_ACTIVITY then _ else _) as [x y]. done.
Qed.

Lemma next_decoder_inv b (P : Prop) p d used n failed :
  decoder_inv b p -> frame_inv P d n -> (failed = false -> P) ->
  (used <> 0 /\ 1 <= n <= 5 /\ sane (Dec.sRC d) \/
   used = 0 /\ (moreInternalDecoderFrames p = 0 /\ n = 0 \/ moreInternalDecoderFrames p = 1 /\ 1 <= n <= 4 /\ sane (Dec.sRC d)) \/
   Dec.nBytesLeft d = 0 /\ 0 <= n <= 4 /\ (used = 0 -> moreInternalDecoderFrames p = 0 \/ 1 <= n /\ moreInternalDecoderFrames p = 1) /\ sane (Dec.sRC d)) ->
  decoder_inv failed (next_decoder p d used).
Proof.
  intros [_ _ _ _ _ _ _ I8 I9] [F1 F2 F3 F4 F5 F6] HP Hcase.
  pose proof (next_decoder_sDec p d used) as Esd. unfold next_decoder in *.
  destruct (Z.eqb_spec used 0) as [Hu|Hu]; cbn [negb] in *.
  - constructor; cbn; try done; [tauto|lia|rewrite F6; destruct Hcase as [?|[?|?]]; tauto].
  - destruct (Z.ltb_spec 0 (Dec.nBytesLeft d)); destruct (_ =? SKP_SILK_MORE_FRAMES); destruct (Z.ltb_spec (Dec.nFramesDecoded d) 5);
      cbn [andb] in *.
    1: { constructor; cbn; try done; [tauto|lia|]. right. split; [done|]. split; [lia|]. tauto. }
    all: destruct (end_packet_inv p d I9) as (_ & E1 & E2 & E3); [lia|].
    all: constructor; rewrite ?Esd, ?E1, ?E2; try done; try tauto; try lia.
Qed.

Lemma call_keeps_inv fuel p sampleRate lostFlag inData nBytesIn c q s p' ret rep b :
  decoder_inv b p ->
  SKP_Silk_SDK_Decode fuel p sampleRate lostFlag inData nBytesIn c q s = Ok (p', ret, rep) ->
  decoder_inv (b || negb (ret =? 0)) p'.
Proof.
  intros Hp H. pose proof Hp as [R1 R2 R3 R4 R5 R6 R7 R8 R9]. unfold SKP_Silk_SDK_Decode in H.
  set (d0 := if moreInternalDecoderFrames p =? 0 then _ else _) in *.
  set (k := if moreInternalDecoderFrames p =? 0 then 0 else Dec.nFramesDecoded (sDec p)).
  assert (frame_inv (b = false) d0 k) as Hd0 by (subst d0 k; destruct (_ =? 0); by constructor).
  assert (moreInternalDecoderFrames p = 0 /\ k = 0 \/ moreInternalDecoderFrames p = 1 /\ 1 <= k <= 4 /\ sane (Dec.sRC d0)) as Hk.
  { subst d0 k. destruct R7 as [->|(-> & H1 & H2)]; [by left|by right]. }
  set (lr := if _ && _ && _ then _ else _) in H.
  assert ((lr.2 = 0 \/ lr.2 < 0) /\ (lr.1 = 0 -> coder_ready d0 nBytesIn)) as [Hret Hready].
  { subst lr. unfold coder_ready. rewrite (frame_count _ _ _ Hd0). destruct Hk as [[-> ->]|(-> & Hk & Hs)].
    - cbn [Z.eqb andb]. destruct (Z.eqb_spec lostFlag 0); cbn [andb fst snd]; [|by split; [left|]].
      destruct (Z.ltb_spec MAX_ARITHM_BYTES nBytesIn); cbn [fst snd]; [split; [by right|discriminate]|].
      split; [by left|]. intros _. by left.
    - cbn [Z.eqb andb fst snd]. split; [by left|]. intros _. right. split; [lia|done]. }
  destruct lr as [lost' ret0]. cbn [fst snd] in *.
  apply res_bind_ok in H as ([[[d ret1] used] L] & Ef & H).
  pose proof (frame_keeps_inv _ _ _ _ _ _ _ _ _ _ _ _ _ _ Hd0 Hready Ef) as Hf. clearbody d0 k.
  apply res_bind_ok in H as (hz & _ & H). apply res_bind_ok in H as (m & _ & H). injection H as <- <- _.
  assert (ret1 <= 0) as Hret1 by (destruct Hf as [(-> & _)|[(-> & _)|(? & _)]]; lia).
  assert (forall ret, ret = (if sampleRate <? hz then SKP_SILK_DEC_WRONG_SAMPLING_FREQUENCY else ret0 + ret1) ->
    b || negb (ret =? 0) = false -> b = false /\ ret1 = 0) as Hfailed.
  { intros ret -> [-> H%negb_false_iff%Z.eqb_eq]%orb_false_iff. split; [done|]. destruct (_ <? hz); [done|lia]. }
  specialize (Hfailed _ eq_refl). set (failed := b || _) in *. clearbody failed.
  destruct Hf as [(-> & Hu & Hi & Hs)|[(-> & Hu & Hi & Es)|(Hneg & Hi & Hb & Hs)]].
  - apply (next_decoder_inv b (b = false) p d used (k + 1)); [done|done|tauto|]. left. split; [done|]. split; [lia|done].
  - apply (next_decoder_inv b (b = false) p d used k); [done|done|tauto|]. right. left. by rewrite Es.
  - apply (next_decoder_inv b False p d used k); [done|done|lia|]. right. right. split; [done|]. split; [lia|]. split; [lia|done].
Qed.

Lemma new_decoder_inv : decoder_inv false SKP_Silk_init_decoder.
Proof. constructor; try done; cbn; [unfold rate; lia|exists 24; split; [unfold rate; lia|done]|by left]. Qed.

(** C39.  What holds of a decoder after any sequence of calls, of whatever packets, lost,
    corrupt or not: the sampling rate is one of the four, and the order of the filters
    and the length of a frame are those of it; no packet has more than five frames, and a
    packet that goes on has had between one and four; the offset of the redundancy is 0, 1
    or 2.  As long as no call has reported an error, the codebooks are those of the rate
    too; after one that has, they are still those of some rate. *)
Theorem decoder_calls_invariant b p : reachable b p -> decoder_inv b p.
Proof.
  induction 1 as [|b p fuel rt lost inData n c q s p' ret rep _ Hp H].
  - apply new_decoder_inv.
  - by apply (call_keeps_inv fuel p rt lost inData n c q s p' ret rep b).
Qed.

(** ** An error that changes the rate *)

(** Decoding with the codebooks of 8 kHz and the order of the other rates always reads
    out of bounds: at the latest, the stabiliser reads a minimal distance behind their
    last one. *)

Definition within (B : Z) : Z -> Prop := fun x => - B <= x <= B.

Lemma oob_add_vector l CB pos B :
  Forall (within B) l -> Forall (within 32768) CB -> B + 32768 <= INT32_MAX ->
  oob (Forall (within (B + 32768))) (add_vector l CB pos).
Proof.
  intros Hl HCB HB. revert pos. induction Hl as [|x l Hx _ IH]; intros pos; cbn [add_vector]; [by apply oob_ok; constructor|].
  eapply oob_bind; [apply oob_fetch|]. intros c Hc. rewrite Forall_forall in HCB. specialize (HCB c Hc).
  unfold within, INT32_MAX in *. eapply oob_bind; [apply (oob_int32 (x + c)); unfold INT32_MIN, INT32_MAX; lia|]. intros y ->.
  eapply oob_bind; [apply IH|]. intros l' Hl'. apply oob_ok. constructor; [lia|done].
Qed.

Lemma oob_add_stages cb n s l idx order B :
  Forall (within B) l -> Forall (within 32768) (CB cb) -> Forall (fun i => 0 <= i <= 1000) idx ->
  B + Z.of_nat n * 32768 <= INT32_MAX ->
  oob (Forall (within (B + Z.of_nat n * 32768))) (add_stages cb n s l idx order).
Proof.
  intros Hl HCB Hidx. revert s l B Hl. induction n as [|n IH]; intros s l B Hl HB; cbn [add_stages].
  { apply oob_ok. eapply Forall_impl; [exact Hl|]. intros x. unfold within. lia. }
  eapply oob_bind; [apply oob_fetch|]. intros stage _. eapply oob_bind; [apply oob_fetch|]. intros i Hi.
  rewrite Forall_forall in Hidx. specialize (Hidx i Hi). apply oob_bind with (P := fun _ => True).
  { unfold element. destruct (order =? 16)%nat; [|by apply oob_ok]. unfold shl_s32.
    right. eexists. split; [|done]. apply int32_ok. unfold INT32_MIN, INT32_MAX. lia. }
  intros e _. eapply oob_bind; [apply (oob_add_vector _ _ _ B); [done..|lia]|]. intros l' Hl'.
  replace (B + Z.of_nat (S n) * 32768) with (B + 32768 + Z.of_nat n * 32768) by lia. apply IH; [done|lia].
Qed.

Lemma oob_smallest_middle l deltas n i m I :
  Forall (within (2 ^ 24)) l -> Forall (within 32768) deltas -> oob (fun _ => True) (smallest_middle l deltas n i m I).
Proof.
  intros Hl Hd. rewrite Forall_forall in Hl, Hd. revert i m I. induction n as [|n IH]; intros i m I; cbn [smallest_middle]; [by apply oob_ok|].
  eapply oob_bind; [apply oob_fetch|]. intros x Hx%Hl. eapply oob_bind; [apply oob_fetch|]. intros y Hy%Hl.
  eapply oob_bind; [apply oob_fetch|]. intros d Hdd%Hd. unfold within in *.
  eapply oob_bind; [apply (oob_int32 (y + d)); unfold INT32_MIN, INT32_MAX; lia|]. intros s ->.
  eapply oob_bind; [apply (oob_int32 (x - (y + d))); unfold INT32_MIN, INT32_MAX; lia|]. intros diff _.
  destruct (_ <? _); apply IH.
Qed.

Lemma stabilize_out_of_bounds l deltas L :
  Forall (within (2 ^ 24)) l -> Forall (within 32768) deltas -> (length deltas <= L)%nat ->
  SKP_Silk_NLSF_stabilize l deltas L = Err OutOfBounds.
Proof.
  intros Hl Hd Hlen.
  assert (oob (fun _ => False) (SKP_Silk_NLSF_stabilize l deltas L)) as [H|(? & _ & [])]; [|exact H].
  unfold SKP_Silk_NLSF_stabilize, MAX_LOOPS. cbn [stabilize_loop]. apply oob_bind with (P := fun _ => False); [|done].
  pose proof (proj1 (Forall_forall _ _) Hl) as Hl'. pose proof (proj1 (Forall_forall _ _) Hd) as Hd'. unfold smallest_distance.
  eapply oob_bind; [apply oob_fetch|]. intros x Hx%Hl'. eapply oob_bind; [apply oob_fetch|]. intros d Hdd%Hd'.
  unfold within in Hx, Hdd. eapply oob_bind; [apply (oob_int32 (x - d)); unfold INT32_MIN, INT32_MAX; lia|]. intros first _.
  eapply oob_bind; [by apply oob_smallest_middle|]. intros [m I] _.
  eapply oob_bind; [apply oob_fetch|]. intros y _. left. unfold fetch. rewrite (proj2 (Z.ltb_ge _ _)) by lia.
  by rewrite Nat2Z.id, lookup_ge_None_2.
Qed.

(** What is used of the codebooks of 8 kHz. *)
Definition small_codebook (cb : SKP_Silk_NLSF_CB_struct) : bool :=
  forallb (fun x => (-32768 <=? x) && (x <=? 32768)) (CB cb) &&
  forallb (fun x => (-32768 <=? x) && (x <=? 32768)) (NDeltaMin_Q15 cb) &&
  (length (NDeltaMin_Q15 cb) <=? 16)%nat && (nStages cb <=? 10) &&
  forallb (fun l => (length l <=? 1000)%nat) (cdfs cb).

Lemma small_codebooks : forallb small_codebook (codebooks_of 8) = true.
Proof. by vm_compute. Qed.

Lemma forallb_within l : forallb (fun x => (-32768 <=? x) && (x <=? 32768)) l = true -> Forall (within 32768) l.
Proof.
  rewrite forallb_forall. intros H. apply Forall_forall. intros x Hx%list_elem_of_In%H. unfold within. lia.
Qed.

Lemma msvq_out_of_bounds cb idx :
  small_codebook cb = true -> Forall (fun i => 0 <= i <= 1000) idx -> SKP_Silk_NLSF_MSVQ_decode cb idx 16 = Err OutOfBounds.
Proof.
  unfold small_codebook. rewrite !andb_true_iff. intros [[[[HCB%forallb_within Hd%forallb_within] Hl%Nat.leb_le] Hs%Z.leb_le] _] Hidx.
  assert (oob (fun _ => False) (SKP_Silk_NLSF_MSVQ_decode cb idx 16)) as [H|(? & _ & [])]; [|exact H].
  unfold SKP_Silk_NLSF_MSVQ_decode. eapply oob_bind; [apply oob_fetch|]. intros stage _.
  eapply oob_bind; [apply oob_fetch|]. intros i Hi. pose proof (proj1 (Forall_forall _ _) Hidx i Hi) as Hi'. cbn beta in Hi'.
  eapply oob_bind; [apply (oob_int32 (i * Z.of_nat 16)); unfold INT32_MIN, INT32_MAX; lia|]. intros e _.
  eapply oob_bind; [apply (oob_add_vector _ _ _ 0); [apply Forall_replicate; unfold within; lia|done|done]|]. intros l Hl0.
  eapply oob_bind; [apply (oob_add_stages _ _ _ _ _ _ (0 + 32768)); [done..|unfold INT32_MAX; lia]|]. intros l' Hl'.
  left. apply stabilize_out_of_bounds; [|done..]. eapply Forall_impl; [exact Hl'|]. intros x. unfold within. lia.
Qed.

Lemma mixed_out_of_bounds d fuel c q full :
  Dec.LPC_order d = MAX_LPC_ORDER -> Dec.psNLSF_CB d = codebooks_of 8 -> Dec.decode_frame fuel d c q full = Err OutOfBounds.
Proof.
  intros Ho Hb. assert (oob (fun _ => False) (Dec.decode_frame fuel d c q full)) as [H|(? & _ & [])]; [|exact H].
  unfold Dec.decode_frame. rewrite Ho, Hb. eapply oob_bind; [apply oob_decode_type|]. intros [Ix r1] _.
  eapply oob_bind; [apply oob_decode_gains|]. intros [g r2] Hg. cbn [fst] in Hg.
  destruct (gains_dequant_total g (Dec.LastGainIndex d) (Dec.nFramesDecoded d) Hg) as (gs & last & ->). rewrite bind_Ok.
  eapply oob_bind; [apply oob_fetch|]. intros cb Hcb. pose proof (proj1 (forallb_forall _ _) small_codebooks cb (proj1 (list_elem_of_In _ _) Hcb)) as Hsmall.
  eapply oob_bind; [apply oob_decoder_multi|]. intros [idx r3] Hidx. left. cbn [fst] in Hidx.
  change MAX_LPC_ORDER with 16%nat. rewrite msvq_out_of_bounds; [done|done|].
  unfold small_codebook in Hsmall. rewrite !andb_true_iff in Hsmall. destruct Hsmall as [_ Hcdfs]. rewrite forallb_forall in Hcdfs.
  assert (Forall (fun p => (length p.1 <= 1000)%nat) (zip (cdfs cb) (MiddleIx cb))) as Hlen.
  { apply Forall_forall. intros [l ix] Hp. apply elem_of_zip_l in Hp. apply list_elem_of_In, Hcdfs, Nat.leb_le in Hp. done. }
  clear -Hidx Hlen. induction Hidx as [|i p idx l Hi _ IH]; [constructor|].
  apply Forall_cons in Hlen as [Hp Hlen]. constructor; [lia|by apply IH].
Qed.

Lemma decode_rate_same d d' :
  Dec.decode_rate d = Ok (d', true) -> Dec.fs_kHz d' = Dec.fs_kHz d ->
  Dec.LPC_order d' = Dec.LPC_order d /\ Dec.psNLSF_CB d' = Dec.psNLSF_CB d.
Proof.
  unfold Dec.decode_rate. intros H Hfs. apply res_bind_ok in H as ([Ix r] & _ & H).
  destruct (_ || _); [discriminate H|]. apply res_bind_ok in H as (fs & _ & H). injection H as <-.
  unfold Dec.SKP_Silk_decoder_set_fs in *. destruct (Z.eqb_spec (Dec.fs_kHz (Dec.set_sRC d r)) fs) as [|Hne]; [done|].
  exfalso. apply Hne. cbn in Hfs |- *. rewrite <- Hfs. by destruct (fs =? 8).
Qed.

(** The number of samples, at a rate that the caller chooses. *)
Lemma samples_defined fs sampleRate L :
  rate fs -> 0 <= sampleRate <= 48000 -> L = FRAME_LENGTH_MS * fs ->
  exists n, SKP_MUL fs 1000 = Ok (fs * 1000) /\
    (if fs * 1000 =? sampleRate then Ok (s16 L)
     else m ← SKP_MUL (s16 L) sampleRate; q ← SKP_DIV32 m (fs * 1000); Ok (s16 q)) = Ok n.
Proof.
  intros Hf Hs ->. unfold FRAME_LENGTH_MS, rate in *. rewrite wrap_s_id by lia. unfold SKP_MUL, SKP_DIV32, div_s32.
  rewrite !int32_ok by (unfold INT32_MIN, INT32_MAX; nia). rewrite bind_Ok, (proj2 (Z.eqb_neq (fs * 1000) 0)) by lia.
  destruct (_ =? sampleRate); [by eexists|]. rewrite int32_ok; [rewrite bind_Ok; by eexists|].
  rewrite Z.quot_div_nonneg by nia. unfold INT32_MIN, INT32_MAX.
  assert (0 <= 20 * fs * sampleRate / (fs * 1000) <= 20 * fs * sampleRate); [|nia]. split.
  - apply Z.div_pos; nia.
  - apply Z.div_le_upper_bound; nia.
Qed.

(** A decoder of another rate than 8 kHz with the codebooks of 8 kHz, between packets. *)
Record mixed (fs : Z) (p : decoder) : Prop := {
  mixed_fs : Dec.fs_kHz (sDec p) = fs;
  mixed_rate : rate fs /\ fs <> 8;
  mixed_order : Dec.LPC_order (sDec p) = MAX_LPC_ORDER;
  mixed_books : Dec.psNLSF_CB (sDec p) = codebooks_of 8;
  mixed_more : moreInternalDecoderFrames p = 0
}.

(** The rate that the first symbol of a packet stands for. *)
Definition mark (p : decoder) (inData : list Z) (nBytesIn : Z) : option Z :=
  match (r ← SKP_Silk_range_dec_init (Dec.sRC (sDec p)) inData nBytesIn;
         Dec.decode_rate (Dec.set_sRC (Dec.set_nFramesDecoded (sDec p) 0) r)) with
  | Ok (d, true) => Some (Dec.fs_kHz d)
  | _ => None
  end.

(** Calls for frames that are lost, and for packets that have no rate, are marked with the
    decoder's own rate, or with 8 kHz where the decoder does not change to it. *)
Inductive unrepaired : decoder -> decoder -> Prop :=
  | unrepaired_here p : unrepaired p p
  | unrepaired_call p fuel sampleRate lostFlag inData nBytesIn c q s p' ret rep p'' :
      SKP_Silk_SDK_Decode fuel p sampleRate lostFlag inData nBytesIn c q s = Ok (p', ret, rep) ->
      (lostFlag = 0 -> nBytesIn <= MAX_ARITHM_BYTES ->
         match mark p inData nBytesIn with
         | Some fs => fs = Dec.fs_kHz (sDec p) \/ fs = 8 /\ Dec.fs_kHz (sDec p') <> 8
         | None => True
         end) ->
      unrepaired p' p'' -> unrepaired p p''.

Lemma decode_rate_cases d d' legal :
  Dec.decode_rate d = Ok (d', legal) ->
  same_setup d d' \/ legal = true /\ Dec.fs_kHz d' <> Dec.fs_kHz d /\ set_up d' (Dec.fs_kHz d').
Proof.
  unfold Dec.decode_rate. intros H. apply res_bind_ok in H as ([Ix r] & _ & H).
  destruct ((Ix <? 0) || (3 <? Ix)) eqn:Eb; [injection H as <- <-; by left|].
  apply orb_false_iff in Eb as [H0%Z.ltb_ge H1%Z.ltb_ge]. apply res_bind_ok in H as (fs & Efs & H). injection H as <- <-.
  assert (rate fs) as Hf by (eapply table_rate; [done|lia]). unfold Dec.SKP_Silk_decoder_set_fs.
  destruct (Z.eqb_spec (Dec.fs_kHz (Dec.set_sRC d r)) fs) as [|Hne]; [by left|].
  right. destruct Hf as [->|[->|[->| ->]]]; (split; [done|]; split; [cbn in *; congruence|done]).
Qed.

(** A frame that is not read from the packet leaves a mixed decoder mixed. *)
Lemma lost_keeps_mixed fuel fs d pCode n action c q s d' ret used L p :
  mixed fs p -> d = Dec.set_nFramesDecoded (sDec p) 0 -> action <> 0 ->
  SKP_Silk_decode_frame fuel d pCode n action c q s = Ok (d', ret, used, L) -> mixed fs (next_decoder p d' used).
Proof.
  intros [H1 H2 H3 H4 H5] -> Ha. unfold SKP_Silk_decode_frame. rewrite (proj2 (Z.eqb_neq _ _) Ha).
  destruct (action =? 1); intros [= <- _ <- _]; by constructor.
Qed.

Lemma next_decoder_more p d used :
  moreInternalDecoderFrames p = 0 -> Dec.nBytesLeft d = 0 -> moreInternalDecoderFrames (next_decoder p d used) = 0.
Proof.
  intros Hp Hd. unfold next_decoder. destruct (negb _); [|done]. rewrite Hd. cbn [andb Z.ltb Z.compare].
  unfold end_packet. by destruct (if Dec.vadFlag d =? VOICE_ACTIVITY then _ else _) as [x y].
Qed.

(** One that is read, too, but for a packet of another rate. *)
Lemma read_keeps_mixed fuel fs n inData c q s d' ret used L p :
  mixed fs p ->
  SKP_Silk_decode_frame fuel (Dec.set_nFramesDecoded (sDec p) 0) inData n 0 c q s = Ok (d', ret, used, L) ->
  match mark p inData n with
  | Some f => f = Dec.fs_kHz (sDec p) \/ f = 8 /\ Dec.fs_kHz d' <> 8
  | None => True
  end ->
  mixed fs (next_decoder p d' used).
Proof.
  intros [H1 H2 H3 H4 H5] H Hmark. unfold SKP_Silk_decode_frame in H. cbn [Z.eqb Dec.nFramesDecoded Dec.set_nFramesDecoded Dec.sRC] in H.
  apply res_bind_ok in H as (r & Er & H). unfold mark in Hmark. rewrite Er, bind_Ok in Hmark.
  apply res_bind_ok in H as ([[d1 c1] q1] & E & H). unfold Dec.SKP_Silk_decode_parameters in E.
  cbn [Dec.nFramesDecoded Dec.set_sRC Dec.set_nFramesDecoded Z.eqb] in E.
  apply res_bind_ok in E as ([d0 legal] & Erate & E).
  change (Dec.decode_rate (Dec.set_sRC (Dec.set_nFramesDecoded (sDec p) 0) r) = Ok (d0, legal)) in Erate. rewrite Erate in Hmark.
  assert (error (Dec.sRC d1) <> 0 -> Dec.psNLSF_CB d1 = codebooks_of 8 -> mixed fs (next_decoder p d' used)) as Herror.
  { intros He Hb. rewrite (proj2 (Z.eqb_neq _ _) He) in H. cbn [negb] in H. injection H as <- _ _ _.
    constructor; rewrite ?next_decoder_sDec; try done. by apply next_decoder_more. }
  destruct legal.
  - destruct (decode_rate_cases _ _ _ Erate) as [[F1 F2 _ F4 _]|(_ & F1 & [_ G2 G3 G4])].
    { rewrite mixed_out_of_bounds in E; [done|by rewrite F2|by rewrite F4]. }
    apply decode_frame_inv in E as [(r2 & gain & type & nlsf & bytes & term & vad & -> & _) _].
    destruct Hmark as [Hm|[Hm Hn]]; [by destruct F1|].
    destruct (Z.eqb_spec (error r2) 0) as [He|He]; [|apply Herror; [done|by rewrite Hm in G4]].
    exfalso. cbn [Dec.sRC Dec.set_parameters] in H. rewrite He in H. injection H as <- _ _ _. by apply Hn.
  - injection E as <- _ _. destruct (decode_rate_cases _ _ _ Erate) as [[_ _ _ F4 _]|(Hl & _)]; [|discriminate Hl].
    apply Herror; [|by rewrite F4]. unfold Dec.decode_rate in Erate. apply res_bind_ok in Erate as ([Ix r0] & _ & Erate).
    destruct (_ || _); [|apply res_bind_ok in Erate as (? & _ & Erate); discriminate Erate]. by injection Erate as <-.
Qed.

Lemma unrepaired_mixed fs p p' : unrepaired p p' -> mixed fs p -> mixed fs p'.
Proof.
  induction 1 as [p|p fuel rt lost inData n c q s p' ret rep p'' H Hmark _ IH]; [done|]. intros Hp. apply IH. clear IH.
  unfold SKP_Silk_SDK_Decode in H. rewrite (mixed_more _ _ Hp) in H. cbn [Z.eqb andb] in H.
  set (lr := if _ && _ then _ else _) in H. destruct lr as [lost' ret0] eqn:Elr. subst lr.
  apply res_bind_ok in H as ([[[d ret1] used] L] & Ef & H).
  apply res_bind_ok in H as (hz & _ & H). apply res_bind_ok in H as (m & _ & H). injection H as <- _ _.
  rewrite next_decoder_sDec in Hmark. destruct (Z.eqb_spec lost 0) as [->|Hl]; cbn [andb] in Elr.
  - destruct (Z.ltb_spec MAX_ARITHM_BYTES n) as [Hbig|Hn]; injection Elr as <- _.
    + by apply (lost_keeps_mixed _ _ _ _ _ _ _ _ _ _ _ _ _ _ Hp eq_refl) in Ef.
    + apply (read_keeps_mixed _ _ _ _ _ _ _ _ _ _ _ _ Hp Ef). by apply Hmark.
  - injection Elr as <- _. by apply (lost_keeps_mixed _ _ _ _ _ _ _ _ _ _ _ _ _ _ Hp eq_refl Hl) in Ef.
Qed.

(** The next packet of the decoder's rate. *)
Lemma mixed_reads_out fuel fs p sampleRate inData n c q s :
  mixed fs p -> n <= MAX_ARITHM_BYTES -> mark p inData n = Some fs ->
  SKP_Silk_SDK_Decode fuel p sampleRate 0 inData n c q s = Err OutOfBounds.
Proof.
  intros Hp Hn Hm. unfold SKP_Silk_SDK_Decode. rewrite (mixed_more _ _ Hp). cbn [Z.eqb andb]. rewrite (proj2 (Z.ltb_ge _ _)) by lia.
  unfold SKP_Silk_decode_frame. cbn [Z.eqb Dec.nFramesDecoded Dec.set_nFramesDecoded Dec.sRC].
  unfold mark in Hm. destruct (SKP_Silk_range_dec_init _ _ _) as [r| |]; [|discriminate Hm..]. rewrite bind_Ok in *.
  unfold Dec.SKP_Silk_decode_parameters. cbn [Dec.nFramesDecoded Dec.set_sRC Z.eqb].
  unfold Dec.set_sRC, Dec.set_nFramesDecoded in Hm |- *. cbn in Hm |- *.
  destruct (Dec.decode_rate _) as [[d [|]]| |] eqn:Erate; [|discriminate Hm..]. injection Hm as Hm. rewrite bind_Ok.
  apply decode_rate_same in Erate as [E1 E2]; [|cbn; rewrite Hm; symmetry; apply Hp].
  rewrite mixed_out_of_bounds; [done|rewrite E1; apply Hp|rewrite E2; apply Hp].
Qed.

(** A packet with the mark of a third rate brings codebooks of the right order. *)
Lemma other_rate_repairs fuel fs p sampleRate inData n c q s p' ret rep f :
  mixed fs p -> n <= MAX_ARITHM_BYTES -> mark p inData n = Some f -> f <> fs -> f <> 8 ->
  SKP_Silk_SDK_Decode fuel p sampleRate 0 inData n c q s = Ok (p', ret, rep) ->
  Dec.psNLSF_CB (sDec p') = codebooks_of (Dec.fs_kHz (sDec p')).
Proof.
  intros Hp Hn Hm Hf H8 H. unfold SKP_Silk_SDK_Decode in H. rewrite (mixed_more _ _ Hp) in H. cbn [Z.eqb andb] in H.
  rewrite (proj2 (Z.ltb_ge _ _)) in H by lia. apply res_bind_ok in H as ([[[d ret1] used] L] & Ef & H).
  apply res_bind_ok in H as (hz & _ & H). apply res_bind_ok in H as (m & _ & H). injection H as <- _ _. rewrite next_decoder_sDec.
  unfold SKP_Silk_decode_frame in Ef. cbn [Z.eqb Dec.nFramesDecoded Dec.set_nFramesDecoded Dec.sRC] in Ef.
  apply res_bind_ok in Ef as (r & Er & Ef). unfold mark in Hm. rewrite Er, bind_Ok in Hm.
  apply res_bind_ok in Ef as ([[d1 c1] q1] & E & Ef). unfold Dec.SKP_Silk_decode_parameters in E.
  cbn [Dec.nFramesDecoded Dec.set_sRC Dec.set_nFramesDecoded Z.eqb] in E. apply res_bind_ok in E as ([d0 legal] & Erate & E).
  change (Dec.decode_rate (Dec.set_sRC (Dec.set_nFramesDecoded (sDec p) 0) r) = Ok (d0, legal)) in Erate. rewrite Erate in Hm.
  destruct legal; [|discriminate Hm]. injection Hm as <-. destruct Hp as [P1 [P2 P3] P4 P5 P6].
  destruct (decode_rate_cases _ _ _ Erate) as [[F1 _ _ _ _]|(_ & F1 & [_ G2 G3 G4])]; [cbn in F1; congruence|].
  apply decode_frame_inv in E as [(r2 & gain & type & nlsf & bytes & term & vad & -> & _) _].
  assert (codebooks_of (Dec.fs_kHz d0) = codebooks_of (Dec.fs_kHz (sDec p))) as Heq.
  { unfold codebooks_of. rewrite P1, !(proj2 (Z.eqb_neq _ _)) by done. done. }
  destruct (negb _); injection Ef as <- _ _ _; cbn [Dec.psNLSF_CB Dec.fs_kHz frame_lost revert frame_decoded Dec.set_parameters].
  - by rewrite G4, Heq.
  - done.
Qed.

(** C40.  A corrupt packet that begins with the mark of 8 kHz breaks a decoder of any other
    rate.  The error is reported and concealed, and the rate, the order of the filters and
    the length of a frame are set back, but not the codebooks.  After any calls for lost
    frames and for packets without a rate, of the decoder's rate, or of 8 kHz as corrupt
    as the first, every packet of the decoder's own rate, however sound, makes it read out
    of bounds.  Only a packet with the mark of another rate gets it out of this. *)
Theorem corrupt_packet_breaks_decoder fuel b p sampleRate inData nBytesIn c q s r d1 c1 q1 :
  decoder_inv b p -> moreInternalDecoderFrames p = 0 -> Dec.fs_kHz (sDec p) <> 8 -> 0 <= sampleRate <= 48000 ->
  nBytesIn <= MAX_ARITHM_BYTES ->
  SKP_Silk_range_dec_init (Dec.sRC (sDec p)) inData nBytesIn = Ok r ->
  Dec.SKP_Silk_decode_parameters fuel (Dec.set_sRC (Dec.set_nFramesDecoded (sDec p) 0) r) c q true = Ok (d1, c1, q1) ->
  error (Dec.sRC d1) <> 0 -> Dec.fs_kHz d1 = 8 ->
  exists p' ret rep, SKP_Silk_SDK_Decode fuel p sampleRate 0 inData nBytesIn c q s = Ok (p', ret, rep) /\ ret < 0 /\
    forall p'', unrepaired p' p'' ->
      Dec.fs_kHz (sDec p'') = Dec.fs_kHz (sDec p) /\ Dec.LPC_order (sDec p'') = MAX_LPC_ORDER /\
      forall fuel' sampleRate' inData' nBytesIn' c' q' s', nBytesIn' <= MAX_ARITHM_BYTES ->
        mark p'' inData' nBytesIn' = Some (Dec.fs_kHz (sDec p)) ->
        SKP_Silk_SDK_Decode fuel' p'' sampleRate' 0 inData' nBytesIn' c' q' s' = Err OutOfBounds.
Proof.
  intros [R1 R2 R3 R4 R5 R6 R7 R8 R9] Hmore Hne Hrate Hn Er E He Hfs.
  assert (Dec.psNLSF_CB d1 = codebooks_of 8) as Hbooks.
  { destruct (decode_parameters_setup _ _ _ _ _ _ _ _ E) as (_ & [[E1 _ _ _ _]|(fs & _ & [E1 _ _ E4])] & _); [|congruence].
    cbn in E1. congruence. }
  destruct (samples_defined _ sampleRate _ R1 Hrate R3) as (m & Ehz & Em).
  set (ret1 := if error (Dec.sRC d1) =? RANGE_CODER_DEC_PAYLOAD_TOO_LONG then SKP_SILK_DEC_PAYLOAD_TOO_LARGE
              else SKP_SILK_DEC_PAYLOAD_ERROR).
  set (d2 := frame_lost (revert d1 (Dec.fs_kHz (sDec p)) (Dec.LPC_order (sDec p))) s).
  set (used := bufferLength (Dec.sRC d1)).
  assert (mixed (Dec.fs_kHz (sDec p)) (next_decoder p d2 used)) as Hmixed.
  { constructor; rewrite ?next_decoder_sDec; try done; [|by apply next_decoder_more].
    cbn. rewrite R2. unfold order_of. by rewrite (proj2 (Z.eqb_neq _ _) Hne). }
  exists (next_decoder p d2 used). do 2 eexists. split; [|split].
  - unfold SKP_Silk_SDK_Decode. rewrite Hmore. cbn [Z.eqb andb]. rewrite (proj2 (Z.ltb_ge _ _)) by lia.
    unfold SKP_Silk_decode_frame. cbn [Z.eqb Dec.nFramesDecoded Dec.set_nFramesDecoded Dec.sRC Dec.frame_length].
    rewrite Er, bind_Ok, E, bind_Ok, (proj2 (Z.eqb_neq _ _) He). cbn [negb]. rewrite bind_Ok. fold ret1 used.
    change (Dec.fs_kHz (Dec.set_nFramesDecoded (sDec p) 0)) with (Dec.fs_kHz (sDec p)).
    change (Dec.LPC_order (Dec.set_nFramesDecoded (sDec p) 0)) with (Dec.LPC_order (sDec p)). fold d2. change (Dec.fs_kHz d2) with (Dec.fs_kHz (sDec p)).
    rewrite Ehz, bind_Ok, Em, bind_Ok. reflexivity.
  - destruct (sampleRate <? _); [reflexivity|]. subst ret1. destruct (_ =? RANGE_CODER_DEC_PAYLOAD_TOO_LONG); reflexivity.
  - intros p2 Hcalls. pose proof (unrepaired_mixed _ _ _ Hcalls Hmixed) as Hp2. split; [apply Hp2|]. split; [apply Hp2|].
    intros. by eapply mixed_reads_out.
Qed.

(** ** Examples *)

Definition ex_control : Dec.control :=
  Dec.Control [] [] 0 (replicate 16 0, replicate 16 0) [] 0 0 0 0 0 0.
Definition ex_pulses : list Z := replicate 480 0.
Definition ex_synthesis : signal := Signal [] [] 0 100.
(** One unvoiced frame without pulses at 24 kHz; and four bytes that begin with the mark
    of 8 kHz. *)
Definition ex_sound : list Z := [231; 211; 106; 236; 205; 126; 19; 176; 63].
Definition ex_corrupt : list Z := [0; 0; 0; 0].

Definition ex_call (p : decoder) (packet : list Z) : res (decoder * Z * SKP_SILK_SDK_DecControlStruct) :=
  SKP_Silk_SDK_Decode 17 p 24000 0 packet (Z.of_nat (length packet)) ex_control ex_pulses ex_synthesis.

Lemma ex_reached : exists p, reachable false p /\ nFramesInPacket p = 1 /\ moreInternalDecoderFrames p = 0.
Proof.
  assert (match ex_call SKP_Silk_init_decoder ex_sound with
          | Ok (p, ret, _) => (ret =? 0) && (nFramesInPacket p =? 1) && (moreInternalDecoderFrames p =? 0)
          | _ => false end = true) as H by (vm_compute; reflexivity).
  destruct (ex_call SKP_Silk_init_decoder ex_sound) as [[[p ret] rep]| |] eqn:E; try discriminate H.
  rewrite !andb_true_iff, !Z.eqb_eq in H. destruct H as [[-> H1] H2]. exists p. split; [|split; [exact H1|exact H2]].
  exact (reachable_call false _ _ _ _ _ _ _ _ _ _ _ _ reachable_init E).
Qed.

Lemma decoder_calls_invariant_witness :
  exists p, (reachable false p /\ nFramesInPacket p = 1) /\ decoder_inv false p.
Proof.
  destruct ex_reached as (p & Hp & Hn & _). exists p. split; [split; [exact Hp|exact Hn]|].
  exact (decoder_calls_invariant false p Hp).
Defined.

Lemma ex_corrupts :
  exists r d1 c1 q1, SKP_Silk_range_dec_init (Dec.sRC (sDec SKP_Silk_init_decoder)) ex_corrupt 4 = Ok r /\
    Dec.SKP_Silk_decode_parameters 17 (Dec.set_sRC (Dec.set_nFramesDecoded (sDec SKP_Silk_init_decoder) 0) r)
      ex_control ex_pulses true = Ok (d1, c1, q1) /\
    error (Dec.sRC d1) <> 0 /\ Dec.fs_kHz d1 = 8.
Proof.
  assert (match SKP_Silk_range_dec_init (Dec.sRC (sDec SKP_Silk_init_decoder)) ex_corrupt 4 with
          | Ok r =>
              match Dec.SKP_Silk_decode_parameters 17 (Dec.set_sRC (Dec.set_nFramesDecoded (sDec SKP_Silk_init_decoder) 0) r)
                      ex_control ex_pulses true with
              | Ok (d1, _, _) => negb (error (Dec.sRC d1) =? 0) && (Dec.fs_kHz d1 =? 8)
              | _ => false end
          | _ => false end = true) as H by (vm_compute; reflexivity).
  destruct (SKP_Silk_range_dec_init _ _ _) as [r| |]; try discriminate H.
  destruct (Dec.SKP_Silk_decode_parameters _ _ _ _ _) as [[[d1 c1] q1]| |] eqn:E; try discriminate H.
  apply andb_true_iff in H as [H1%negb_true_iff%Z.eqb_neq H2%Z.eqb_eq]. exists r, d1, c1, q1.
  split; [reflexivity|split; [exact E|split; [exact H1|exact H2]]].
Qed.

(** A new decoder plays the sound packet; after the corrupt one and a lost frame it reads
    out of bounds. *)
Definition ex_lost (p : decoder) : res (decoder * Z * SKP_SILK_SDK_DecControlStruct) :=
  SKP_Silk_SDK_Decode 17 p 24000 1 [] 0 ex_control ex_pulses ex_synthesis.

Lemma corrupt_packet_breaks_decoder_witness :
  match ex_call SKP_Silk_init_decoder ex_sound with Ok (_, ret, rep) => ret = 0 /\ framesPerPacket rep = 1 | _ => False end /\
  exists p' ret rep p'' ret' rep', ex_call SKP_Silk_init_decoder ex_corrupt = Ok (p', ret, rep) /\ ret < 0 /\
    ex_lost p' = Ok (p'', ret', rep') /\ ex_call p'' ex_sound = Err OutOfBounds.
Proof.
  split; [vm_compute; split; reflexivity|]. destruct ex_corrupts as (r & d1 & c1 & q1 & Er & E & He & Hfs).
  destruct (corrupt_packet_breaks_decoder 17 false SKP_Silk_init_decoder 24000 ex_corrupt 4 ex_control ex_pulses ex_synthesis
    r d1 c1 q1 new_decoder_inv eq_refl ltac:(discriminate) ltac:(lia) ltac:(discriminate) Er E He Hfs)
    as (p' & ret & rep & Ecall & Hret & Hlater).
  assert (match ex_call SKP_Silk_init_decoder ex_corrupt with
          | Ok (p, _, _) => match ex_lost p with
                            | Ok (p2, _, _) => match mark p2 ex_sound 9 with Some f => f =? 24 | None => false end
                            | _ => false end
          | _ => false end = true) as Hmark by (vm_compute; reflexivity).
  change (ex_call SKP_Silk_init_decoder ex_corrupt = Ok (p', ret, rep)) in Ecall. rewrite Ecall in Hmark.
  destruct (ex_lost p') as [[[p2 ret2] rep2]| |] eqn:Elost; [|discriminate Hmark..].
  destruct (mark p2 ex_sound 9) as [f|] eqn:Ef; [|discriminate Hmark]. apply Z.eqb_eq in Hmark as ->.
  exists p', ret, rep, p2, ret2, rep2. split; [exact Ecall|]. split; [exact Hret|]. split; [exact Elost|].
  refine (proj2 (proj2 (Hlater p2 _)) _ _ _ _ _ _ _ _ _); [|discriminate|exact Ef].
  eapply unrepaired_call; [exact Elost|discriminate|apply unrepaired_here].
Defined.
